(* ===== verification/_CoqProject ===== *)
-Q . S2P
Prelude.v
Constants.v
MsgTypes.v
MsgProcessor.v
MsgDoc.v
MsgCollection.v
MsgStore.v
Tools.v
Notification.v
RpcClient.v
Redis.v
MsgCache.v
MsgDatabase.v
MsgExpiry.v
Auth.v
MsgServer.v
SendProofs.v
MsgServerProofs.v
MsgServerSamples.v
Gateway.v
GatewayServer.v
HubProofs.v
RequestProofs.v
MsgTransfer.v
TransferProofs.v
GroupTypes.v
Sql.v
RowCache.v
RowCoherence.v
GroupStore.v
GroupCache.v
GroupDatabase.v
GroupNotification.v
GroupServer.v
GroupQuery.v
GroupSpec.v
GroupMemory.v
GroupCoherence.v
GroupChanges.v
GroupReads.v
GroupProofs.v
GroupTheorems.v
GroupSamples.v
FriendTypes.v
FriendStore.v
FriendDatabase.v
FriendServer.v
FriendSpec.v
FriendProofs.v
FriendRefinement.v
FriendTheorems.v
FriendSamples.v
UserTypes.v
UserStore.v
UserPresence.v
UserDatabase.v
UserServer.v
UserSpec.v
UserProofs.v
UserRefinement.v
UserTheorems.v
UserSamples.v
ConversationTypes.v
ConversationDatabase.v
ConversationServer.v
ConversationSpec.v
ConversationProofs.v
ConversationChanges.v
ConversationRefinement.v
ConversationTheorems.v
ConversationSamples.v
ChatAccounts.v
ChatServer.v
ChatTheorems.v
ChatSamples.v
Push.v
OfflinePush.v
PushProofs.v
OfflineProofs.v
PushSamples.v
