(* ===== verification/Prelude.v ===== *)
(** * OpenIM server: a verification library

    OpenIM is the server of an instant messaging system, written in Go: a
    gateway that holds the users' connections, a service that receives messages,
    a transfer process that numbers and stores them, and services for users,
    friends, groups and conversations, over Redis, MongoDB, MySQL and Kafka.
    This library models the path of a message through the server to the devices
    of its receivers, what decides who may do what on that path, the services
    that keep the groups, the friends, the users and the conversations, and the
    accounts of the enterprise chat service beside it.  Definitions carry the names of the
    code; a method of [T] whose name is taken is called [T_method].

    ** The path of a message, and the files

    - A connection is admitted, registered and read by the gateway
      (internal/msggateway): Gateway.v has the hub, that is the map of
      connections of [user_map.go], the event loop and the login policies of
      [n_ws_server.go], closing and writing of [client.go], and the context of a
      request; GatewayServer.v has the reader of a connection, the dispatch of
      its requests ([client.go], [message_handler.go]) and the calls of the other
      services ([hub_server.go]).
    - Its token was issued and is checked by Auth.v (pkg/authverify,
      pkg/common/db/controller/auth.go, internal/rpc/auth).
    - A message it sends goes to the message service (internal/rpc/msg):
      MsgServer.v has verification and sending ([verify.go], [send.go],
      [callback.go]), the handlers of [revoke.go], [as_read.go], [delete.go],
      [sync_msg.go], [seq.go], [msg_status.go] and [server.go].  RpcClient.v has
      the clients of the other services (pkg/rpcclient, pkg/common/db/localcache),
      Notification.v the system's own messages ([msg.go] of pkg/rpcclient and the
      options of pkg/common/config).
    - An accepted message is put on a queue.  MsgTransfer.v has its consumers
      (internal/msgtransfer): collecting, grouping by key, sorting, numbering,
      passing on to the topics of the push service and of the store, and the
      writer to the store.
    - The numbers and the recent messages are in Redis: Redis.v is its interface,
      MsgCache.v the operations of pkg/common/db/cache/msg.go.  The stored
      messages are in MongoDB, a hundred to a document: MsgDoc.v has the
      addressing, MsgCollection.v the driver of pkg/common/db/unrelation/msg.go
      over an interface of the collection.  MsgStore.v and MsgDatabase.v have
      pkg/common/db/controller/msg.go: writing to the store; numbering, reading
      and deleting over both.
    - Groups are kept by the group service (internal/rpc/group).  GroupTypes.v has
      its rows, requests and their checks and conversions; Sql.v the interface of
      a table, GroupStore.v the statements of pkg/common/db/relation and
      pkg/common/db/unrelation/super_group.go and the transactions; RowCache.v and
      GroupCache.v the reads through the cache ([meta_cache.go], [group.go] of
      pkg/common/db/cache); GroupDatabase.v pkg/common/db/controller/group.go;
      GroupNotification.v pkg/rpcclient/notification/group.go; GroupServer.v the
      handlers that change groups ([group.go], [fill.go], [callback.go]) and
      GroupQuery.v those that only read.
    - Friendships, requests for them and blacklists are kept by the friend service
      (internal/rpc/friend).  FriendTypes.v has its rows, requests and checks;
      FriendStore.v the statements of [friend_model.go], [friend_request_model.go]
      and [black_model.go]; FriendDatabase.v the caches of ids and
      pkg/common/db/controller/friend.go and [black.go]; FriendServer.v the
      handlers, the queries, the webhook, the notifications and the conversions
      (pkg/common/convert).  The message service asks it whether a private message
      may pass.
    - Users, where they are connected and who is told of it are kept by the user
      service (internal/rpc/user).  UserTypes.v has its rows, requests and checks;
      UserStore.v the statements of [user_model.go] and the collection of
      subscriptions of unrelation/[user.go]; UserPresence.v the online status in
      Redis and UserDatabase.v the cached rows (cache/[user.go]) and
      pkg/common/db/controller/user.go; UserServer.v the handlers, the statistics,
      the webhook and the notifications.  The message service asks it whether a
      user receives messages.
    - What a user sees of a conversation, and whether he is told of its messages, is
      kept by the conversation service (internal/rpc/conversation).
      ConversationTypes.v has its rows, requests, checks and conversions;
      ConversationDatabase.v the statements of [conversation_model.go], the cache
      ([conversation.go] of pkg/common/db/cache) and
      pkg/common/db/controller/conversation.go; ConversationServer.v the handlers and
      the notifications.  The message service asks it whether a private message may
      pass, the push service whom to push to.
    - A numbered message is on the topic of the push service (internal/push).
      Push.v has who is to get it, the pushes by way of the gateways and to
      devices, the calls a push leaves for its end, and the webhooks
      ([push_to_client.go], [push_handler.go], [push_rpc_server.go],
      [callback.go], and [group.go] of pkg/common/db/localcache); OfflinePush.v the
      providers of [offlinepush]: Getui, FCM and JPush.
    - The enterprise chat service (chat-enterprise) keeps accounts of its own.
      ChatAccounts.v has their rows and those of the administration, the statements
      (pkg/common/db/model), both databases (pkg/common/db/database), the caller's
      identity (pkg/common/mctx) and the requests with their checks; ChatServer.v the
      tokens (pkg/common/tokenverify), the handlers of internal/rpc/chat, that is
      verification codes, registration, log-in, passwords and the data of users,
      those of internal/rpc/admin that decide for them, that is addresses and users
      that are shut out, invitations, settings and tokens, and the clients by which
      the two services call each other (pkg/rpclient/chat).
    - MsgTypes.v has the data of messages and the conversion to the stored form,
      MsgProcessor.v the options and the conversation ids (pkg/msgprocessor),
      Constants.v the constants of the protocol, Tools.v what the server uses of
      its tool library.
    - Prelude.v, this file, has the integers, the errors, the monad and its
      rules of reasoning, the tactics and the hints.

    ** State and effects

    A stateful function is a computation [M W A := W → outcome A * W]: it ends
    with a value, an error, a panic, or, for a loop modelled with fuel, is not
    done; the state survives all of them.  [W] is a collection for the driver, a
    Redis for the cache, their pair for the database, the hub with the token
    cache for the gateway, the database with the service's memory and the list of
    its effects for the message service, and for the group service a [World]: the
    three tables, the collections of super groups, the cache and the effects; the
    friend service has a [FriendWorld] of its own, the user service a [UserWorld], the
    conversation service a [ConversationWorld], the two enterprise services together a
    [ChatWorld].  A [transaction] runs on a copy
    of the tables, which replaces them when it commits; where the code makes
    statements beside an open transaction, a commit publishes the rows that the
    transaction changed ([merging_transaction]).  Effects are what a component
    asks of another: the answers of the other services, of the queue and of the
    webhook are functions of the effects so far ([ask], [tell]), so that a theorem
    holds whatever they answer.  Connections, and the messages of a group in the
    transfer, are pointers into a heap, since the code shares and changes them.

    Integers are [Z] with the wrap-around of [int64] written out ([add64] and the
    like); strings are byte strings; a nil pointer or map is [None]; the order of
    a loop over a map is any order ([MapRange]).

    Code outside the repository is an interface with laws that state documented
    behaviour, and an instance that satisfies them: [MsgCollection] (one document
    per id; an update reports whether it matched), [Redis] (a command that fails
    may have been carried out), [Tools], [MsgTools], [Proto], [Table] (a statement
    that fails changes no row), [SetDocs], [Rocks] (the cache may forget a key at
    any time), [Json], [Webhook], [Gateways] (a gateway answers one result per
    user), [PushServices], [PushTools], [GetuiProvider], [FriendEngine],
    [DistinctTools], [UserEngine], [UserTools], [ConversationEngine], [CopyTools] (a
    copy of fields that succeeds has them all), [DigestLaws], [ChatEngine],
    [ChatJwt] (a signed token is parsed back while it is valid).  [InvitationsWork] is
    a table of invitations that answers.  [DocsWork] is a collection of
    subscriptions that answers.  A world with tables and a cache is [Cached]
    (RowCoherence.v): the rules of a coherent cache are proved of the class.

    ** What the theorems show

    - Storage.  MsgDoc.v: the addressing is one to one.  MsgStore.v:
      [BatchInsertBlock], with its retries, always ends and refines the update of
      a map from (conversation, number) to slots; what is stored is read back; a
      revocation touches one slot.  MsgDatabase.v: numbers are consecutive; a
      read of a range answers exactly what the user may see and has not deleted of its
      window, with older messages in place of the deleted ones, and diverges exactly if
      one of these is deleted too.  MsgExpiry.v: the walks that delete or destruct old messages
      end and remove only what is due, or stands in a document that ends with what is due;
      and what they get wrong.
    - Sending.  SendProofs.v: the verification accepts a message exactly when the
      other services' answers allow it; a response stands for one message on the
      queue.  Notification.v: every configured notification is filed with the
      notifications.
    - Transfer.  TransferProofs.v: messages of a key reach their handler in
      order; a group is sorted as a classification by values says; what is kept
      is numbered, handed to the store and pushed with the same numbers, and is dropped
      only if it is too much, or Redis does not serve the number; what
      leaves the cache.  At its end: a group of two kinds of chats.
    - Handlers.  MsgServerProofs.v: who may revoke, who is refused, that readers
      only move forward, what clearing changes, what a pull answers.
    - Gateway.  HubProofs.v: one connection per terminal, admission, the
      counters, and an interleaving in which a user's entry holds another user's
      connection.  RequestProofs.v: a connection acts only for its own user, is
      closed and unregistered once; what a push reports and writes.
    - Groups.  GroupSpec.v is the abstract specification: the rows as three maps,
      [group_step] with who may make each of the fourteen calls and which rows it
      changes, and the invariants of the steps.  GroupCoherence.v says what it is
      for the cache to agree with the tables, and proves the rules of a read
      through it; GroupChanges.v the rules of the changes of the database, which
      must remove every key they make stale; GroupReads.v the rules of what the
      handlers ask before they change anything; GroupProofs.v the refinement of
      [group_step] by each handler.  GroupTheorems.v draws the consequences: one
      owner per group and well typed rows as long as no manager calls, a transparent cache, who may remove, mute,
      transfer, answer and promote, and what a failure leaves.  The refinement
      assumes that one of the five attempts to delete a cached key succeeds
      ([TagSucceeds], for all the services; where all fail [ExecDel] reports success and
      the cached row stays, as FriendSamples.v shows), that the cache agrees with the tables at first, that the webhook changes no role ([WebhookKeeps]), that ids
      of groups have no dash, which joins the parts of a key, and leaves out the
      dismissal that deletes members, which leaves stale keys
      ([dismissal_leaves_ghosts]).  GroupMemory.v has stores that satisfy the
      interfaces and GroupSamples.v runs the service on them.
    - Friends.  FriendSpec.v is the abstract specification: three maps of rows,
      and [friend_step] with who may make each of the seven calls and which rows it
      changes; where a row of a friendship or of a request comes from and goes.
      FriendProofs.v: the coherence of the cached lists of ids, and judgements about
      the rows with a rule for each statement and each way of composing.  FriendRefinement.v: every handler refines
      [friend_step], but for an import whose transaction fails ([import_lost]), which
      succeeds and changes nothing.
      FriendTheorems.v: friendship needs the consent of both, the invariants of the
      rows, transparent queries, two behaviours that surprise, and the composition
      with the message service: who is on a blacklist stays silent.
      FriendSamples.v has stores in memory and runs the service on them.
    - Users.  UserSpec.v is the abstract specification: the users as a map,
      [user_step] with who may make each call, [presence_after] and
      [subscribed_after] the platforms of the users and their subscriptions after
      it.  UserProofs.v: the coherence of the cached rows.  UserPresence.v: the
      texts in the hashes of Redis implement a map from users to platforms, for
      both statuses.  In UserProofs.v too: the two lists a subscription is kept in
      mirror each other while nobody follows more than three thousand users, if they did at
      first and MongoDB carries out every statement ([DocsWork]), and
      what becomes of them beyond.  UserRefinement.v: every handler refines
      [user_step].  UserTheorems.v: who is a user and how he became one, the
      queries, who is told of a change of status, and the composition with the
      message service: who asked for silence is sent nothing but what passes for a
      notification.  UserSamples.v runs
      the service on stores in memory.
    - Conversations.  ConversationSpec.v is the abstract specification: the rows as a
      map, [conversation_step] with what each call that succeeds does,
      [conversation_leftover] with what one that fails may leave, and which rows a
      call keeps.  ConversationProofs.v: the coherence of the cached rows, ids and
      hashes and, where the parameter [muted_too] says so, of the lists of users who
      have muted a conversation; the judgements for transactions with statements
      beside them.  ConversationChanges.v: what the statements do and make stale,
      and the operations that change.  ConversationRefinement.v: those that read; every
      handler refines [conversation_step].
      ConversationTheorems.v: over any calls, however they end and whatever the cache
      does, no conversation is lost or given to another ([kept_table]: what each
      statement keeps of the rows).  Over calls that are [orderly] the queries are
      transparent, the push service is told to spare exactly those who have muted,
      and a chat that its receiver has muted stays quiet: every SetConversation and
      creation of group chats succeeds, since rows that a failure leaves outside of its
      transaction are not known to the cache; and, for those who have muted, no SetConversation
      names an option for a row that is there.  The key of a cached row
      needs owners without a colon, as registered users are.
      ConversationSamples.v runs the service on stores in memory.
    - Pushes.  PushProofs.v: who is pushed online and offline, for single chats
      exactly and for groups at most; what the end of a push hides; and
      [hub_gateways], the gateways of the push service made of the hubs of
      Gateway.v and of what discovery and the network do to each call, over which the handling of a queued
      message writes only to connections of its users, and to all that are open on the nodes reached.  OfflineProofs.v: FCM sends every token in calls
      of bounded size, Getui loses a message with its token, JPush always answers
      an error.
    - Tokens.  Auth.v: which tokens are good, and what issuing one does.
    - Enterprise accounts.  ChatTheorems.v has the calls of both services as one
      type and, of any sequence of them: every user keeps one registration, password
      and set of data and no two have one phone number with one area code, unless an update names
      both a number and an area code; a password is set only by
      a call that shows it may; a log-in needs the user's password or an accepted
      code, and its token names the user; an invitation that is used admits nobody, and
      a registration uses its own where an administrator is configured ([administered]); the wrong
      guesses at a code are bounded where codes are sent.  A handler's footprint is found along its
      structure ([step_keeps]), and [returns] states what a success shows.
      ChatSamples.v runs the services in memory, and shows where they do not do what
      they mean to: an account is taken over with a code for another address, a
      failed reset is reported as done, and so on.
    - MsgServerSamples.v, PushSamples.v, ChatSamples.v and the ends of the
      other files apply the theorems to concrete states.

    ** Fuel

    Loops over lists and maps are structural.  [insert_loop] gets [insert_fuel],
    twice the number of fields and one: every field is written after at most one
    retry, and its theorems exclude running out.  The walks over the documents of
    a conversation take any fuel larger than their number.  [reget_loop] takes
    any fuel larger than the window; its theorem says when none is enough.

    ** What is not modelled

    Concurrency below the level of one event of a loop or one call of a handler:
    the hub's events, the timer of the transfer and its arrivals interleave, but
    each runs to its end, a pipeline of Redis commands is the sequence of its
    commands, a goroutine of a handler is an effect, and the clock stands still
    during a call.  A full channel of the hub blocks, which is an outcome; a full
    channel of the transfer only delays.  Keys do not expire.  Logging and
    metrics.  The collation of the database compares ids byte by byte.  A random
    id and a digest are arbitrary functions.  Not yet modelled:
    the statistics of messages and groups, search, the HTTP API, object storage, the
    command line tools; of the enterprise services the log-in of administrators,
    applets, default friends and groups, tags and moments.  The second copy of these
    services (chat-enterprise/chat-enterprise) is the same code. *)

From stdpp Require Export prelude strings gmap list pretty sorting.
From stdpp Require Import options.

#[local] Open Scope Z_scope.

(** ** Integers of fixed width

    Go's [int64], [int] and [int32] are two's complement and wrap around; the
    quotient and remainder of [/] and [%] are truncated towards zero
    ([Z.quot], [Z.rem]). *)

Definition wrap64 (z : Z) : Z := (z + 2 ^ 63) `mod` 2 ^ 64 - 2 ^ 63.
Definition wrap32 (z : Z) : Z := (z + 2 ^ 31) `mod` 2 ^ 32 - 2 ^ 31.
Definition add64 (a b : Z) : Z := wrap64 (a + b).
Definition sub64 (a b : Z) : Z := wrap64 (a - b).
Definition mul64 (a b : Z) : Z := wrap64 (a * b).

(** The values an [int64] variable can hold. *)
Definition int64 (z : Z) : Prop := - 2 ^ 63 ≤ z < 2 ^ 63.

Lemma wrap64_id (z : Z) : int64 z → wrap64 z = z.
Proof. unfold wrap64, int64. intros H. rewrite Z.mod_small; lia. Qed.

Lemma wrap64_range (z : Z) : int64 (wrap64 z).
Proof.
  unfold wrap64, int64.
  pose proof (Z.mod_pos_bound (z + 2 ^ 63) (2 ^ 64)). lia.
Qed.

Lemma add64_id (a b : Z) : int64 (a + b) → add64 a b = a + b.
Proof. apply wrap64_id. Qed.

Lemma sub64_id (a b : Z) : int64 (a - b) → sub64 a b = a - b.
Proof. apply wrap64_id. Qed.

(** [i64] removes the wrap-around of every operation that [lia] shows to stay
    in range. *)
Ltac i64 :=
  repeat first
    [ rewrite add64_id by (unfold int64 in *; lia)
    | rewrite sub64_id by (unfold int64 in *; lia)
    | rewrite wrap64_id by (unfold int64 in *; lia) ].

(** [len] is Go's [len] on a slice. *)
Definition len {A} (l : list A) : Z := Z.of_nat (length l).

(** ** Lists *)

Lemma list_filter_all {A} (P : A → Prop) `{∀ x, Decision (P x)} (l : list A) :
  (∀ x, x ∈ l → P x) → filter P l = l.
Proof.
  induction l as [|x l IH]; intros Hl; [done|].
  rewrite filter_cons_True by (apply Hl; left). f_equal. apply IH. intros y Hy. apply Hl. by right.
Qed.

Lemma list_filter_none {A} (P : A → Prop) `{∀ x, Decision (P x)} (l : list A) :
  (∀ x, x ∈ l → ¬ P x) → filter P l = [].
Proof.
  induction l as [|x l IH]; intros Hl; [done|].
  rewrite filter_cons_False by (apply Hl; left). apply IH. intros y Hy. apply Hl. by right.
Qed.

(** ** Errors and outcomes

    The error values of the packages errs, redis, gorm and mongo that the code
    tells apart.  [Bare c] is the package's own value, [Wrap c d] is that value
    wrapped with the detail [d] ([errs.ErrX.Wrap(d)], [errs.Wrap(err)]): the code
    distinguishes the two where it compares with [==] and not through
    [errs.Unwrap]. *)

Inductive errcode :=
  | ErrArgs | ErrNoPermission | ErrInternalServer | ErrRecordNotFound
  | ErrUserIDNotFound | ErrGroupIDNotFound | ErrGroupIDExisted
  | ErrDismissedAlready | ErrMutedInGroup | ErrMutedGroup | ErrNotInGroupYet
  | ErrBlockedByPeer | ErrNotPeersFriend | ErrMessageHasReadDisable
  | ErrCanNotAddYourself | ErrRelationshipAlready | ErrRegisteredAlready
  | ErrMsgAlreadyRevoke | ErrGroupRequestHandled | ErrGroupTypeNotSupport
  | ErrData | ErrTokenInvalid | ErrTokenKicked | ErrTokenUnknown
  | ErrTokenNotExist | ErrTokenMalformed | ErrTokenExpired | ErrTokenNotValidYet
  | ErrConnOverMaxNumLimit | ErrConnArgsErr
  | ErrPassword | ErrAccountNotFound | ErrPhoneAlreadyRegister | ErrAccountAlreadyRegister
  | ErrEmailAlreadyRegister | ErrVerifyCodeSendFrequently | ErrVerifyCodeNotMatch
  | ErrVerifyCodeExpired | ErrVerifyCodeMaxCount | ErrVerifyCodeUsed | ErrInvitationCodeUsed
  | ErrInvitationNotFound | ErrForbidden | ErrRefuseFriend
  | RedisNil | GormNotFound | MongoDuplicateKey | MongoNoDocuments
  | ErrMsgListNotExist | ErrCallbackContinue | ErrText (msg : string) | ErrExternal (n : Z).

#[export] Instance errcode_eq_dec : EqDecision errcode.
Proof. solve_decision. Defined.

Inductive error := Bare (c : errcode) | Wrap (c : errcode) (detail : string).

#[export] Instance error_eq_dec : EqDecision error.
Proof. solve_decision. Defined.

(** [errs.Unwrap]: the root cause. *)
Definition Unwrap (e : error) : errcode :=
  match e with Bare c | Wrap c _ => c end.

(** [errs.Wrap(err, d)] on an error value. *)
Definition WrapErr (d : string) (e : error) : error := Wrap (Unwrap e) d.

(** A run of a function returns a value, returns an error, panics (index out
    of range, nil dereference) or, for a loop modelled with fuel, has not
    finished yet. *)
Inductive outcome (A : Type) :=
  | Ok (a : A) | Err (e : error) | Panic | OutOfFuel.
Arguments Ok {A} _. Arguments Err {A} _. Arguments Panic {A}. Arguments OutOfFuel {A}.

Definition is_ok {A} (r : outcome A) : bool := match r with Ok _ => true | _ => false end.

(** ** The state and error monad

    [M W A] is a computation over the mutable state [W].  The state survives
    errors, as it does in Go. *)

Definition M (W A : Type) : Type := W → outcome A * W.

#[export] Instance M_ret {W} : MRet (M W) := λ A a w, (Ok a, w).
#[export] Instance M_bind {W} : MBind (M W) := λ A B k m w,
  match m w with
  | (Ok a, w') => k a w'
  | (Err e, w') => (Err e, w')
  | (Panic, w') => (Panic, w')
  | (OutOfFuel, w') => (OutOfFuel, w')
  end.

Section MonadOps.
Context {W : Type}.

Definition fail {A} (e : error) : M W A := λ w, (Err e, w).
Definition panic {A} : M W A := λ w, (Panic, w).
Definition out_of_fuel {A} : M W A := λ w, (OutOfFuel, w).
Definition get : M W W := λ w, (Ok w, w).
Definition modify (f : W → W) : M W () := λ w, (Ok (), f w).

(** [try m] hands the error of [m] to the caller as a value, as Go's second
    result does; a panic is not caught. *)
Definition try {A} (m : M W A) : M W (A + error) := λ w,
  match m w with
  | (Ok a, w') => (Ok (inl a), w')
  | (Err e, w') => (Ok (inr e), w')
  | (Panic, w') => (Panic, w')
  | (OutOfFuel, w') => (OutOfFuel, w')
  end.

Definition of_sum {A} (r : A + error) : outcome A :=
  match r with inl a => Ok a | inr e => Err e end.

(** [errs.Wrap(err)] on the error of a call. *)
Definition wrap_error {A} (m : M W A) : M W A :=
  r ← try m;
  match r with inl a => mret a | inr e => fail (WrapErr "" e) end.

Definition lift {A} (r : A + error) : M W A := λ w, (of_sum r, w).

(** [guard b e]: [if b { return e }]. *)
Definition guard (b : bool) (e : error) : M W () := if b then fail e else mret ().

(** [for _, x := range l { body x }], stopping at the first error. *)
Fixpoint for_each {A} (l : list A) (body : A → M W ()) : M W () :=
  match l with
  | [] => mret ()
  | x :: l' => _ ← body x; for_each l' body
  end.

(** The same loop with an accumulator. *)
Fixpoint fold_each {A B} (l : list A) (acc : B) (body : B → A → M W B) : M W B :=
  match l with
  | [] => mret acc
  | x :: l' => acc' ← body acc x; fold_each l' acc' body
  end.

(** Dereference of a pointer. *)
Definition deref {A} (p : option A) : M W A :=
  match p with Some a => mret a | None => panic end.
End MonadOps.

(** ** Reasoning about computations

    [wp m Q w]: the run of [m] from [w] ends in an outcome and a state that
    satisfy [Q]. *)

Definition wp {W A} (m : M W A) (Q : outcome A → W → Prop) (w : W) : Prop :=
  let '(r, w') := m w in Q r w'.

Section Wp.
Context {W : Type}.
Implicit Types w : W.

Lemma wp_eq {A} (m : M W A) Q w : wp m Q w ↔ Q (m w).1 (m w).2.
Proof. unfold wp. by destruct (m w). Qed.

Lemma wp_mono {A} (m : M W A) (Q Q' : outcome A → W → Prop) w :
  (∀ r w', Q r w' → Q' r w') → wp m Q w → wp m Q' w.
Proof. rewrite !wp_eq. auto. Qed.

(** The run itself. *)
Lemma wp_val {A} (m : M W A) (Q : outcome A → W → Prop) w :
  (∀ r w', m w = (r, w') → Q r w') → wp m Q w.
Proof. intros HQ. apply wp_eq, HQ, surjective_pairing. Qed.

Lemma wp_ret {A} (a : A) Q w : Q (Ok a) w → wp (mret a) Q w.
Proof. done. Qed.

Lemma wp_bind {A B} (m : M W A) (k : A → M W B) Q w :
  wp m (λ r w', match r with
                | Ok a => wp (k a) Q w'
                | Err e => Q (Err e) w'
                | Panic => Q Panic w'
                | OutOfFuel => Q OutOfFuel w'
                end) w →
  wp (m ≫= k) Q w.
Proof.
  rewrite !wp_eq. unfold mbind, M_bind. destruct (m w) as [[]]; simpl; auto.
  by rewrite wp_eq.
Qed.

Lemma wp_try {A} (m : M W A) Q w :
  wp m (λ r w', match r with
                | Ok a => Q (Ok (inl a)) w'
                | Err e => Q (Ok (inr e)) w'
                | Panic => Q Panic w'
                | OutOfFuel => Q OutOfFuel w'
                end) w →
  wp (try m) Q w.
Proof. rewrite !wp_eq. unfold try. destruct (m w) as [[]]; simpl; auto. Qed.

Lemma wp_wrap_error {A} (m : M W A) Q w :
  wp m (λ r w', match r with
                | Ok a => Q (Ok a) w'
                | Err e => Q (Err (WrapErr "" e)) w'
                | Panic => Q Panic w'
                | OutOfFuel => Q OutOfFuel w'
                end) w →
  wp (wrap_error m) Q w.
Proof.
  intros H. apply wp_bind, wp_try. eapply wp_mono; [|exact H].
  by intros [] w' HQ.
Qed.

(** The rule for loops: an invariant on the elements done so far. *)
Lemma wp_for_each {A} (l : list A) (body : A → M W ())
    (I : list A → W → Prop) (Q : outcome () → W → Prop) w :
  I [] w →
  (∀ done x rest w', l = done ++ x :: rest → I done w' →
     wp (body x) (λ r w'', match r with
                           | Ok _ => I (done ++ [x]) w''
                           | Err e => Q (Err e) w''
                           | Panic => Q Panic w''
                           | OutOfFuel => Q OutOfFuel w''
                           end) w') →
  (∀ w', I l w' → Q (Ok ()) w') →
  wp (for_each l body) Q w.
Proof.
  intros H0 Hstep Hend.
  assert (∀ rest done w', l = done ++ rest → I done w' → wp (for_each rest body) Q w') as Hgen.
  { induction rest as [|x rest IH]; intros done w' Hl HI; simpl.
    - apply wp_ret, Hend. by rewrite Hl, app_nil_r.
    - apply wp_bind. eapply wp_mono; [|by eapply Hstep].
      intros [[]|e| |] w'' HQ; auto.
      apply (IH (done ++ [x])); [by rewrite <-app_assoc | done]. }
  by apply (Hgen l []).
Qed.

Lemma wp_fold_each {A B} (l : list A) (acc : B) (body : B → A → M W B)
    (I : list A → B → W → Prop) (Q : outcome B → W → Prop) w :
  I [] acc w →
  (∀ done x rest b w', l = done ++ x :: rest → I done b w' →
     wp (body b x) (λ r w'', match r with
                             | Ok b' => I (done ++ [x]) b' w''
                             | Err e => Q (Err e) w''
                             | Panic => Q Panic w''
                             | OutOfFuel => Q OutOfFuel w''
                             end) w') →
  (∀ b w', I l b w' → Q (Ok b) w') →
  wp (fold_each l acc body) Q w.
Proof.
  intros H0 Hstep Hend.
  assert (∀ rest done b w', l = done ++ rest → I done b w' →
            wp (fold_each rest b body) Q w') as Hgen.
  { induction rest as [|x rest IH]; intros done b w' Hl HI; simpl.
    - apply wp_ret, Hend. by rewrite Hl, app_nil_r.
    - apply wp_bind. eapply wp_mono; [|by eapply Hstep].
      intros [b'|e| |] w'' HQ; auto.
      apply (IH (done ++ [x])); [by rewrite <-app_assoc | done]. }
  by apply (Hgen l []).
Qed.
End Wp.

#[export] Instance wp_proper {W A} (m : M W A) :
  Proper (pointwise_relation _ (pointwise_relation _ iff) ==> (=) ==> iff) (wp m).
Proof. intros Q Q' HQ w ? <-. rewrite !wp_eq. apply HQ. Qed.

(** ** Two parts of a state

    A component that owns the first, or the second, part of a state. *)

Definition on_fst {W R A} (m : M W A) : M (W * R) A := λ '(d, r),
  let '(x, d') := m d in (x, (d', r)).
Definition on_snd {W R A} (m : M R A) : M (W * R) A := λ '(d, r),
  let '(x, r') := m r in (x, (d, r')).

Lemma wp_on_fst {W R A} (m : M W A) (Q : outcome A → W * R → Prop) w :
  wp m (λ x d, Q x (d, w.2)) w.1 → wp (on_fst m) Q w.
Proof. destruct w as [d r]. unfold wp, on_fst. cbn. by destruct (m d). Qed.

Lemma wp_on_snd {W R A} (m : M R A) (Q : outcome A → W * R → Prop) w :
  wp m (λ x r, Q x (w.1, r)) w.2 → wp (on_snd m) Q w.
Proof. destruct w as [d r]. unfold wp, on_snd. cbn. by destruct (m r). Qed.

(** ** Calls to the rest of the system

    The code that a handler calls in another service or in a store it does not
    own is an environment: its answer to a query is any function of the changes
    the handler has asked for so far, and its answer to a change is success or
    an error.  The state of such a handler is the list of the changes it asked
    for, oldest first. *)

Section Calls.
Context {Wr : Type}.

(** A query: it changes nothing. *)
Definition ask {A} (f : list Wr → A + error) : M (list Wr) A := λ h, (of_sum (f h), h).

(** A query that cannot fail (a clock, the caller's identity). *)
Definition ask_pure {A} (f : list Wr → A) : M (list Wr) A := λ h, (Ok (f h), h).

(** A change: recorded whether or not it succeeds. *)
Definition tell (ans : list Wr → Wr → option error) (w : Wr) : M (list Wr) () := λ h,
  (match ans h w with None => Ok () | Some e => Err e end, h ++ [w]).

Lemma wp_ask {A} (f : list Wr → A + error) (Q : outcome A → list Wr → Prop) h :
  (∀ a, f h = inl a → Q (Ok a) h) → (∀ e, f h = inr e → Q (Err e) h) → wp (ask f) Q h.
Proof. unfold ask, wp, of_sum. destruct (f h); eauto. Qed.

Lemma wp_ask_pure {A} (f : list Wr → A) (Q : outcome A → list Wr → Prop) h :
  Q (Ok (f h)) h → wp (ask_pure f) Q h.
Proof. done. Qed.

Lemma wp_tell ans wr (Q : outcome () → list Wr → Prop) h :
  (ans h wr = None → Q (Ok ()) (h ++ [wr])) →
  (∀ e, ans h wr = Some e → Q (Err e) (h ++ [wr])) →
  wp (tell ans wr) Q h.
Proof. unfold tell, wp. destruct (ans h wr); eauto. Qed.
End Calls.

Section WpBasic.
Context {W : Type}.

Lemma wp_fail {A} e (Q : outcome A → W → Prop) w : Q (Err e) w → wp (fail e) Q w.
Proof. done. Qed.

Lemma wp_panic {A} (Q : outcome A → W → Prop) w : Q Panic w → wp panic Q w.
Proof. done. Qed.

Lemma wp_guard b e (Q : outcome () → W → Prop) w :
  (b = true → Q (Err e) w) → (b = false → Q (Ok ()) w) → wp (guard b e) Q w.
Proof. destruct b; cbn; auto. Qed.

Lemma wp_lift {A} (s : A + error) (Q : outcome A → W → Prop) w :
  (∀ a, s = inl a → Q (Ok a) w) → (∀ e, s = inr e → Q (Err e) w) → wp (lift s) Q w.
Proof. destruct s; cbn; auto. Qed.

Lemma wp_deref {A} (p : option A) (Q : outcome A → W → Prop) w :
  (∀ a, p = Some a → Q (Ok a) w) → (p = None → Q Panic w) → wp (deref p) Q w.
Proof. destruct p; cbn; auto. Qed.

Lemma wp_modify f (Q : outcome () → W → Prop) w : Q (Ok ()) (f w) → wp (modify f) Q w.
Proof. done. Qed.

Lemma wp_get (Q : outcome W → W → Prop) w : Q (Ok w) w → wp get Q w.
Proof. done. Qed.
End WpBasic.

(** [wp_step] runs one instruction, splitting on the answers of the
    environment and on the tests of the code; [wp_run] runs a whole body. *)
Ltac wp_step :=
  lazymatch goal with
  | |- wp (mbind _ _) _ _ => apply wp_bind
  | |- wp (mret _) _ _ => apply wp_ret
  | |- wp (fail _) _ _ => apply wp_fail
  | |- wp panic _ _ => apply wp_panic
  | |- wp (guard _ _) _ _ => apply wp_guard; intros ?
  | |- wp (deref _) _ _ => apply wp_deref; [intros ? ? | intros ?]
  | |- wp (modify _) _ _ => apply wp_modify
  | |- wp get _ _ => apply wp_get
  | |- wp (try _) _ _ => apply wp_try
  | |- wp (lift _) _ _ => apply wp_lift; [intros ? ? | intros ? ?]
  | |- wp (ask _) _ _ => apply wp_ask; [intros ? ? | intros ? ?]
  | |- wp (ask_pure _) _ _ => apply wp_ask_pure
  | |- wp (tell _ _) _ _ => apply wp_tell; [intros ? | intros ? ?]
  | |- wp (if ?b then _ else _) _ _ => destruct b eqn:?
  | |- wp (match ?x with _ => _ end) _ _ => destruct x eqn:?
  | |- wp (let _ := _ in _) _ _ => intros ?
  end; cbv beta iota.
Ltac wp_run := repeat wp_step.

(** [bool_facts] reads the tests of the code as propositions. *)
Ltac bool_facts := repeat match goal with
  | H : _ && _ = true |- _ => apply andb_true_iff in H as [? ?]
  | H : _ && _ = false |- _ => apply andb_false_iff in H as [H|H]
  | H : _ || _ = true |- _ => apply orb_true_iff in H as [H|H]
  | H : _ || _ = false |- _ => apply orb_false_iff in H as [? ?]
  | H : negb _ = true |- _ => apply negb_true_iff in H
  | H : negb _ = false |- _ => apply negb_false_iff in H
  | H : (_ =? _) = true |- _ => apply Z.eqb_eq in H
  | H : (_ =? _) = false |- _ => apply Z.eqb_neq in H
  | H : (_ <=? _) = true |- _ => apply Z.leb_le in H
  | H : (_ <=? _) = false |- _ => apply Z.leb_gt in H
  | H : (_ <? _) = true |- _ => apply Z.ltb_lt in H
  | H : (_ <? _) = false |- _ => apply Z.ltb_ge in H
  | H : bool_decide _ = true |- _ => apply bool_decide_eq_true in H
  | H : bool_decide _ = false |- _ => apply bool_decide_eq_false in H
  end.

(** ** Computations that change nothing *)

Class ReadOnly {W A} (m : M W A) : Prop := read_only w : (m w).2 = w.

Section ReadOnlyInstances.
Context {W : Type}.

#[export] Instance read_only_ret {A} (a : A) : ReadOnly (W:=W) (mret a).
Proof. done. Qed.
#[export] Instance read_only_fail {A} e : ReadOnly (W:=W) (fail (A:=A) e).
Proof. done. Qed.
#[export] Instance read_only_panic {A} : ReadOnly (W:=W) (panic (A:=A)).
Proof. done. Qed.
#[export] Instance read_only_guard b e : ReadOnly (W:=W) (guard b e).
Proof. by destruct b. Qed.
#[export] Instance read_only_deref {A} (p : option A) : ReadOnly (W:=W) (deref p).
Proof. by destruct p. Qed.
#[export] Instance read_only_bind {A B} (m : M W A) (k : A → M W B) :
  ReadOnly m → (∀ a, ReadOnly (k a)) → ReadOnly (m ≫= k).
Proof.
  intros Hm Hk w. unfold mbind, M_bind.
  specialize (Hm w). destruct (m w) as [[a|e| |] w']; simpl in *; subst; auto.
  apply Hk.
Qed.
#[export] Instance read_only_try {A} (m : M W A) : ReadOnly m → ReadOnly (try m).
Proof.
  intros Hm w. unfold try. specialize (Hm w).
  by destruct (m w) as [[a|e| |] w'].
Qed.
#[export] Instance read_only_for_each {A} (l : list A) (body : A → M W ()) :
  (∀ x, ReadOnly (body x)) → ReadOnly (for_each l body).
Proof. intros ?. induction l; simpl; apply _. Qed.
#[export] Instance read_only_fold_each {A B} (l : list A) (b : B) (body : B → A → M W B) :
  (∀ b x, ReadOnly (body b x)) → ReadOnly (fold_each l b body).
Proof. intros ?. revert b. induction l; simpl; apply _. Qed.
#[export] Instance read_only_ask {Wr A} (f : list Wr → A + error) : ReadOnly (ask f).
Proof. done. Qed.
#[export] Instance read_only_ask_pure {Wr A} (f : list Wr → A) : ReadOnly (ask_pure f).
Proof. done. Qed.
#[export] Instance read_only_sum {A B C} (o : A + B) (m1 : A → M W C) (m2 : B → M W C) :
  (∀ a, ReadOnly (m1 a)) → (∀ b, ReadOnly (m2 b)) →
  ReadOnly (match o with inl a => m1 a | inr b => m2 b end).
Proof. by destruct o. Qed.
#[export] Instance read_only_lift {A} (r : A + error) : ReadOnly (W:=W) (lift r).
Proof. done. Qed.
#[export] Instance read_only_wrap_error {A} (m : M W A) : ReadOnly m → ReadOnly (wrap_error m).
Proof. intros ?. unfold wrap_error. apply _. Qed.
#[export] Instance read_only_if {A} (b : bool) (m1 m2 : M W A) :
  ReadOnly m1 → ReadOnly m2 → ReadOnly (if b then m1 else m2).
Proof. by destruct b. Qed.
End ReadOnlyInstances.

(** A read-only computation keeps the history, whatever it answers. *)
Lemma wp_read_only {W A} (m : M W A) `{!ReadOnly m} (Q : outcome A → W → Prop) w :
  (∀ r, m w = (r, w) → Q r w) → wp m Q w.
Proof.
  intros HQ. unfold wp. pose proof (read_only w) as Hw.
  destruct (m w) as [r w'] eqn:E; simpl in *; subst. by apply HQ.
Qed.

(** ** Computations that keep a part of the state *)

Class Keeps {W A B} (f : W → B) (m : M W A) : Prop := keeps w : f (m w).2 = f w.

Section KeepsInstances.
Context {W B : Type} (f : W → B).

#[export] Instance keeps_read_only {A} (m : M W A) : ReadOnly m → Keeps f m.
Proof. intros Hm w. by rewrite (read_only w). Qed.
#[export] Instance keeps_bind {A C} (m : M W A) (k : A → M W C) :
  Keeps f m → (∀ a, Keeps f (k a)) → Keeps f (m ≫= k).
Proof.
  intros Hm Hk w. unfold mbind, M_bind.
  specialize (Hm w). destruct (m w) as [[a|e| |] w']; simpl in *; auto.
  rewrite <-Hm. apply Hk.
Qed.
#[export] Instance keeps_try {A} (m : M W A) : Keeps f m → Keeps f (try m).
Proof. intros Hm w. unfold try. specialize (Hm w). by destruct (m w) as [[a|e| |] w']. Qed.
#[export] Instance keeps_wrap_error {A} (m : M W A) : Keeps f m → Keeps f (wrap_error m).
Proof. intros Hm. apply keeps_bind; [apply _|]. intros []; apply _. Qed.
#[export] Instance keeps_for_each {A} (l : list A) (body : A → M W ()) :
  (∀ x, Keeps f (body x)) → Keeps f (for_each l body).
Proof. intros ?. induction l; simpl; apply _. Qed.
#[export] Instance keeps_fold_each {A C} (l : list A) (b : C) (body : C → A → M W C) :
  (∀ b x, Keeps f (body b x)) → Keeps f (fold_each l b body).
Proof. intros ?. revert b. induction l; simpl; apply _. Qed.
#[export] Instance keeps_if {A} (b : bool) (m1 m2 : M W A) :
  Keeps f m1 → Keeps f m2 → Keeps f (if b then m1 else m2).
Proof. by destruct b. Qed.
#[export] Instance keeps_option {A C} (o : option A) (m1 : A → M W C) (m2 : M W C) :
  (∀ a, Keeps f (m1 a)) → Keeps f m2 → Keeps f (match o with Some a => m1 a | None => m2 end).
Proof. by destruct o. Qed.
#[export] Instance keeps_sum {A C D} (o : A + C) (m1 : A → M W D) (m2 : C → M W D) :
  (∀ a, Keeps f (m1 a)) → (∀ b, Keeps f (m2 b)) →
  Keeps f (match o with inl a => m1 a | inr b => m2 b end).
Proof. by destruct o. Qed.
End KeepsInstances.

(** A computation on one part keeps the other, and what it keeps of its own. *)
#[export] Instance keeps_on_fst_other {W R A B} (g : R → B) (m : M W A) :
  Keeps (g ∘ snd) (on_fst (R:=R) m).
Proof. intros [d r]. unfold on_fst. cbn. by destruct (m d). Qed.
#[export] Instance keeps_on_snd_other {W R A B} (g : W → B) (m : M R A) :
  Keeps (g ∘ fst) (on_snd (W:=W) m).
Proof. intros [d r]. unfold on_snd. cbn. by destruct (m r). Qed.
#[export] Instance keeps_on_fst {W R A B} (g : W → B) (m : M W A) :
  Keeps g m → Keeps (g ∘ fst) (on_fst (R:=R) m).
Proof. intros Hm [d r]. unfold on_fst. cbn. specialize (Hm d). by destruct (m d). Qed.
#[export] Instance keeps_on_snd {W R A B} (g : R → B) (m : M R A) :
  Keeps g m → Keeps (g ∘ snd) (on_snd (W:=W) m).
Proof. intros Hm [d r]. unfold on_snd. cbn. specialize (Hm r). by destruct (m r). Qed.
#[export] Instance read_only_get {W} : ReadOnly (W:=W) get.
Proof. done. Qed.

Lemma wp_keeps {W A B} (f : W → B) (m : M W A) `{!Keeps f m} (Q : outcome A → W → Prop) w :
  (∀ r w', f w' = f w → Q r w') → wp m Q w.
Proof. intros HQ. apply wp_eq, HQ, keeps. Qed.

(** What a whole computation keeps can be added to what is proved of it. *)
Lemma wp_and_keeps {W A B} (f : W → B) (m : M W A) `{!Keeps f m} (Q : outcome A → W → Prop) w :
  wp m (λ r w', f w' = f w → Q r w') w → wp m Q w.
Proof. rewrite !wp_eq. intros HQ. apply HQ, keeps. Qed.

(** ** A part of a state, by a getter and a setter *)

Definition zoom {W S A} (get : W → S) (put : S → W → W) (m : M S A) : M W A := λ w,
  let '(r, s) := m (get w) in (r, put s w).

Lemma wp_zoom {W S A} (get : W → S) put (m : M S A) (Q : outcome A → W → Prop) w :
  wp m (λ r s, Q r (put s w)) (get w) → wp (zoom get put m) Q w.
Proof. unfold wp, zoom. by destruct (m (get w)). Qed.

(** A setter that leaves what [f] reads. *)
Class Apart {W S B} (f : W → B) (put : S → W → W) : Prop := apart s w : f (put s w) = f w.
#[export] Hint Extern 0 (Apart _ _) => (intros ? ?; reflexivity) : typeclass_instances.

#[export] Instance keeps_zoom {W S A B} (f : W → B) (get : W → S) put (m : M S A) :
  Apart f put → Keeps f (zoom get put m).
Proof. intros Hf w. unfold zoom. destruct (m (get w)) as [r s]. apply Hf. Qed.

(** A setter that puts back what was there changes nothing. *)
Class PutGet {W S} (get : W → S) (put : S → W → W) : Prop := put_get w : put (get w) w = w.
#[export] Hint Extern 0 (PutGet _ _) => (intros []; reflexivity) : typeclass_instances.

#[export] Instance read_only_zoom {W S A} (get : W → S) put (m : M S A) :
  PutGet get put → ReadOnly m → ReadOnly (zoom get put m).
Proof.
  intros Hp Hm w. unfold zoom. specialize (Hm (get w)). destruct (m (get w)) as [r s]. cbn in *. subst s. apply Hp.
Qed.

(** ** Computations that move the state along a relation

    [Moves R m]: a run of [m], however it ends, takes the state to one that
    [R] relates to the first.  With a preorder for [R] this composes. *)

Class Moves {W A} (R : relation W) (m : M W A) : Prop := moves w : R w (m w).2.

Section MovesInstances.
Context {W : Type} (R : relation W) `{!PreOrder R}.

#[export] Instance moves_read_only {A} (m : M W A) : ReadOnly m → Moves R m | 20.
Proof using Type*. intros Hm w. by rewrite (read_only w). Qed.
#[export] Instance moves_bind {A B} (m : M W A) (k : A → M W B) :
  Moves R m → (∀ a, Moves R (k a)) → Moves R (m ≫= k).
Proof using Type*.
  intros Hm Hk w. unfold mbind, M_bind. specialize (Hm w).
  destruct (m w) as [[a|e| |] w']; simpl in *; auto. etrans; [exact Hm|apply Hk].
Qed.
#[export] Instance moves_try {A} (m : M W A) : Moves R m → Moves R (try m).
Proof. intros Hm w. unfold try. specialize (Hm w). by destruct (m w) as [[a|e| |] w']. Qed.
#[export] Instance moves_wrap_error {A} (m : M W A) : Moves R m → Moves R (wrap_error m).
Proof using Type*. intros Hm. apply moves_bind; [apply _|]. intros []; apply _. Qed.
#[export] Instance moves_for_each {A} (l : list A) (body : A → M W ()) :
  (∀ x, Moves R (body x)) → Moves R (for_each l body).
Proof using Type*. intros ?. induction l; simpl; apply _. Qed.
#[export] Instance moves_fold_each {A B} (l : list A) (b : B) (body : B → A → M W B) :
  (∀ b x, Moves R (body b x)) → Moves R (fold_each l b body).
Proof using Type*. intros ?. revert b. induction l; simpl; apply _. Qed.
#[export] Instance moves_if {A} (b : bool) (m1 m2 : M W A) :
  Moves R m1 → Moves R m2 → Moves R (if b then m1 else m2).
Proof. by destruct b. Qed.
#[export] Instance moves_option {A B} (o : option A) (m1 : A → M W B) (m2 : M W B) :
  (∀ a, Moves R (m1 a)) → Moves R m2 → Moves R (match o with Some a => m1 a | None => m2 end).
Proof. by destruct o. Qed.
#[export] Instance moves_sum {A B C} (o : A + B) (m1 : A → M W C) (m2 : B → M W C) :
  (∀ a, Moves R (m1 a)) → (∀ b, Moves R (m2 b)) →
  Moves R (match o with inl a => m1 a | inr b => m2 b end).
Proof. by destruct o. Qed.
End MovesInstances.

Lemma wp_moves {W A} (R : relation W) (m : M W A) `{!Moves R m} (Q : outcome A → W → Prop) w :
  (∀ r w', R w w' → Q r w') → wp m Q w.
Proof. intros HQ. apply wp_eq, HQ, moves. Qed.

Lemma wp_and_moves {W A} (R : relation W) (m : M W A) `{!Moves R m} (Q : outcome A → W → Prop) w :
  wp m (λ r w', R w w' → Q r w') w → wp m Q w.
Proof. rewrite !wp_eq. intros HQ. apply HQ, moves. Qed.

Lemma moves_wp {W A} (R : relation W) (m : M W A) : (∀ w, wp m (λ _ w', R w w') w) → Moves R m.
Proof. intros H w. specialize (H w). by rewrite wp_eq in H. Qed.

(** ** Computations that end with a value or an error *)

Class Ends {W A} (m : M W A) : Prop :=
  ends w : match (m w).1 with Ok _ | Err _ => True | _ => False end.

Section EndsInstances.
Context {W : Type}.
#[export] Instance ends_ret {A} (a : A) : Ends (mret a : M W A). Proof. done. Qed.
#[export] Instance ends_fail {A} e : Ends (fail e : M W A). Proof. done. Qed.
#[export] Instance ends_get : Ends (get : M W W). Proof. done. Qed.
#[export] Instance ends_modify f : Ends (modify f : M W ()). Proof. done. Qed.
#[export] Instance ends_lift {A} (r : A + error) : Ends (lift r : M W A). Proof. by destruct r. Qed.
#[export] Instance ends_guard b e : Ends (guard b e : M W ()). Proof. by destruct b. Qed.
#[export] Instance ends_bind {A B} (m : M W A) (k : A → M W B) : Ends m → (∀ a, Ends (k a)) → Ends (m ≫= k).
Proof.
  intros Hm Hk w. unfold mbind, M_bind. specialize (Hm w). destruct (m w) as [[a|e| |] w']; [apply Hk|done..].
Qed.
#[export] Instance ends_try {A} (m : M W A) : Ends m → Ends (try m).
Proof. intros Hm w. unfold try. specialize (Hm w). by destruct (m w) as [[a|e| |] w']. Qed.
#[export] Instance ends_wrap_error {A} (m : M W A) : Ends m → Ends (wrap_error m).
Proof. intros Hm. apply ends_bind; [apply _|]. intros []; apply _. Qed.
#[export] Instance ends_for_each {A} (l : list A) (body : A → M W ()) :
  (∀ x, Ends (body x)) → Ends (for_each l body).
Proof. intros ?. induction l; simpl; apply _. Qed.
#[export] Instance ends_fold_each {A B} (l : list A) (b : B) (body : B → A → M W B) :
  (∀ b x, Ends (body b x)) → Ends (fold_each l b body).
Proof. intros ?. revert b. induction l; simpl; apply _. Qed.
#[export] Instance ends_if {A} (b : bool) (m1 m2 : M W A) : Ends m1 → Ends m2 → Ends (if b then m1 else m2).
Proof. by destruct b. Qed.
#[export] Instance ends_option {A B} (o : option A) (m1 : A → M W B) (m2 : M W B) :
  (∀ a, Ends (m1 a)) → Ends m2 → Ends (match o with Some a => m1 a | None => m2 end).
Proof. by destruct o. Qed.
#[export] Instance ends_sum {A B C} (o : A + B) (m1 : A → M W C) (m2 : B → M W C) :
  (∀ a, Ends (m1 a)) → (∀ b, Ends (m2 b)) → Ends (match o with inl a => m1 a | inr b => m2 b end).
Proof. by destruct o. Qed.
#[export] Instance ends_pair {A B C} (p : A * B) (m : A → B → M W C) :
  (∀ a b, Ends (m a b)) → Ends (let '(a, b) := p in m a b).
Proof. by destruct p. Qed.
End EndsInstances.

#[export] Instance ends_ask {Wr A} (f : list Wr → A + error) : Ends (ask f).
Proof. intros h. unfold ask. cbn. by destruct (f h). Qed.
#[export] Instance ends_tell {Wr} ans (e : Wr) : Ends (tell ans e).
Proof. intros h. unfold tell. cbn. by destruct (ans h e). Qed.
#[export] Instance ends_on_fst {W R A} (m : M W A) : Ends m → Ends (on_fst m : M (W * R) A).
Proof. intros Hm [w r]. specialize (Hm w). unfold on_fst. by destruct (m w). Qed.
#[export] Instance ends_on_snd {W R A} (m : M R A) : Ends m → Ends (on_snd m : M (W * R) A).
Proof. intros Hm [w r]. specialize (Hm r). unfold on_snd. by destruct (m r). Qed.
#[export] Instance ends_zoom {W S A} get put (m : M S A) : Ends m → Ends (zoom (W:=W) get put m).
Proof. intros Hm w. specialize (Hm (get w)). unfold zoom. by destruct (m (get w)). Qed.
