(* ===== verification/Constants.v ===== *)
(** * Constants of the protocol (pkg/protocol/constant)

    The constants of constant.go that the modelled components use, with the
    source's names, and the platform tables of platform_id_to_name.go. *)

From S2P Require Import Prelude.
From stdpp Require Import options.

#[local] Open Scope Z_scope.

Definition Text : Z := 101.
Definition Picture : Z := 102.
Definition Voice : Z := 103.
Definition Video : Z := 104.
Definition File : Z := 105.
Definition AtText : Z := 106.
Definition Merger : Z := 107.
Definition Card : Z := 108.
Definition Location : Z := 109.
Definition Custom : Z := 110.
Definition Revoke : Z := 111.
Definition Typing : Z := 113.
Definition Quote : Z := 114.
Definition NotificationBegin : Z := 1000.
Definition GroupCreatedNotification : Z := 1501.
Definition GroupDismissedNotification : Z := 1511.
Definition SignalingNotification : Z := 1601.
Definition MsgRevokeNotification : Z := 2101.
Definition ClearConversationNotification : Z := 2101.
Definition DeleteMsgsNotification : Z := 2102.
Definition HasReadReceipt : Z := 2200.
Definition NotificationEnd : Z := 5000.
Definition FriendApplicationApprovedNotification : Z := 1201.
Definition FriendApplicationRejectedNotification : Z := 1202.
Definition FriendApplicationNotification : Z := 1203.
Definition FriendAddedNotification : Z := 1204.
Definition FriendDeletedNotification : Z := 1205.
Definition FriendRemarkSetNotification : Z := 1206.
Definition BlackAddedNotification : Z := 1207.
Definition BlackDeletedNotification : Z := 1208.
Definition FriendInfoUpdatedNotification : Z := 1209.
Definition ConversationChangeNotification : Z := 1300.
Definition UserInfoUpdatedNotification : Z := 1303.
Definition UserStatusChangeNotification : Z := 1304.
Definition GroupInfoSetNotification : Z := 1502.
Definition JoinGroupApplicationNotification : Z := 1503.
Definition MemberQuitNotification : Z := 1504.
Definition GroupApplicationAcceptedNotification : Z := 1505.
Definition GroupApplicationRejectedNotification : Z := 1506.
Definition GroupOwnerTransferredNotification : Z := 1507.
Definition MemberKickedNotification : Z := 1508.
Definition MemberInvitedNotification : Z := 1509.
Definition MemberEnterNotification : Z := 1510.
Definition GroupMemberMutedNotification : Z := 1512.
Definition GroupMemberCancelMutedNotification : Z := 1513.
Definition GroupMutedNotification : Z := 1514.
Definition GroupCancelMutedNotification : Z := 1515.
Definition GroupMemberInfoSetNotification : Z := 1516.
Definition GroupMemberSetToAdminNotification : Z := 1517.
Definition GroupMemberSetToOrdinaryUserNotification : Z := 1518.
Definition GroupInfoSetAnnouncementNotification : Z := 1519.
Definition GroupInfoSetNameNotification : Z := 1520.
Definition ConversationPrivateChatNotification : Z := 1701.
Definition ConversationUnreadNotification : Z := 1702.
Definition HasGroupReadReceipt : Z := 2300.
Definition CallbackBeforeSendSingleMsgCommand : string := "callbackBeforeSendSingleMsgCommand".
Definition CallbackAfterSendSingleMsgCommand : string := "callbackAfterSendSingleMsgCommand".
Definition CallbackBeforeSendGroupMsgCommand : string := "callbackBeforeSendGroupMsgCommand".
Definition CallbackAfterSendGroupMsgCommand : string := "callbackAfterSendGroupMsgCommand".
Definition CallbackMsgModifyCommand : string := "callbackMsgModifyCommand".
Definition CallbackBeforeCreateGroupCommand : string := "callbackBeforeCreateGroupCommand".
Definition CallbackBeforeMemberJoinGroupCommand : string := "callbackBeforeMemberJoinGroupCommand".
Definition CallbackBeforeSetGroupMemberInfoCommand : string := "CallbackBeforeSetGroupMemberInfoCommand".
Definition CallbackOfflinePushCommand : string := "callbackOfflinePushCommand".
Definition CallbackOnlinePushCommand : string := "callbackOnlinePushCommand".
Definition CallbackSuperGroupOnlinePushCommand : string := "callbackSuperGroupOnlinePushCommand".
Definition CallbackBeforeAddFriendCommand : string := "callbackBeforeAddFriendCommand".
Definition Common : Z := 200.
Definition GroupMsg : Z := 201.
Definition SignalMsg : Z := 202.
Definition SuperGroupUpdateNotification : Z := 1651.
Definition UserMsgType : Z := 100.
Definition SysMsgType : Z := 200.
Definition MsgStatusNotExist : Z := 0.
Definition UnreliableNotification : Z := 1.
Definition ReliableNotificationNoMsg : Z := 2.
Definition ReliableNotificationMsg : Z := 3.
Definition MsgNormal : Z := 1.
Definition MsgDeleted : Z := 4.
Definition SingleChatType : Z := 1.
Definition GroupChatType : Z := 2.
Definition SuperGroupChatType : Z := 3.
Definition NotificationChatType : Z := 4.
Definition NormalToken : Z := 0.
Definition InValidToken : Z := 1.
Definition KickedToken : Z := 2.
Definition ExpiredToken : Z := 3.
Definition DefalutNotKick : Z := 0.
Definition AllLoginButSameTermKick : Z := 1.
Definition SingleTerminalLogin : Z := 2.
Definition WebAndOther : Z := 3.
Definition PcMobileAndWeb : Z := 4.
Definition PCAndOther : Z := 5.
Definition OnlineStatus : string := "online".
Definition OfflineStatus : string := "offline".
Definition Online : Z := 1.
Definition Offline : Z := 0.
Definition ReceiveMessage : Z := 0.
Definition NotReceiveMessage : Z := 1.
Definition ReceiveNotNotifyMessage : Z := 2.
Definition IsHistory : string := "history".
Definition IsPersistent : string := "persistent".
Definition IsOfflinePush : string := "offlinePush".
Definition IsUnreadCount : string := "unreadCount".
Definition IsConversationUpdate : string := "conversationUpdate".
Definition IsSenderSync : string := "senderSync".
Definition IsNotPrivate : string := "notPrivate".
Definition IsSenderConversationUpdate : string := "senderConversationUpdate".
Definition IsSenderNotificationPush : string := "senderNotificationPush".
Definition IsReactionFromCache : string := "reactionFromCache".
Definition IsNotNotification : string := "isNotNotification".
Definition IsSendMsg : string := "isSendMsg".
Definition ReactionMessageModifier : Z := 121.
Definition ReactionMessageDeleter : Z := 122.
Definition GroupOk : Z := 0.
Definition GroupBanChat : Z := 1.
Definition GroupStatusDismissed : Z := 2.
Definition GroupStatusMuted : Z := 3.
Definition NormalGroup : Z := 0.
Definition SuperGroup : Z := 1.
Definition WorkingGroup : Z := 2.
Definition JoinByAdmin : Z := 1.
Definition JoinByInvitation : Z := 2.
Definition JoinBySearch : Z := 3.
Definition JoinByQRCode : Z := 4.
Definition AtAllString : string := "AtAllTag".
Definition AtNormal : Z := 0.
Definition AtMe : Z := 1.
Definition AtAll : Z := 2.
Definition AtAllAtMe : Z := 3.
Definition GroupNotification : Z := 4.
Definition AppOrdinaryUsers : Z := 1.
Definition AppAdmin : Z := 2.
Definition GroupOwner : Z := 100.
Definition GroupAdmin : Z := 60.
Definition GroupOrdinaryUsers : Z := 20.
Definition GroupResponseAgree : Z := 1.
Definition GroupResponseRefuse : Z := (-1).
Definition FriendResponseNotHandle : Z := 0.
Definition FriendResponseAgree : Z := 1.
Definition FriendResponseRefuse : Z := (-1).
Definition Registered : string := "registered".
Definition UnRegistered : string := "unregistered".
Definition SubscriberUser : Z := 1.
Definition Unsubscribe : Z := 2.
Definition CallbackBeforeUpdateUserInfoCommand : string := "callbackBeforeUpdateUserInfoCommand".
Definition BecomeFriendByImport : Z := 1.
Definition BecomeFriendByApply : Z := 2.
Definition ApplyNeedVerificationInviteDirectly : Z := 0.
Definition AllNeedVerification : Z := 1.
Definition Directly : Z := 2.

(** ** Platforms *)

Definition IOSPlatformID : Z := 1.
Definition AndroidPlatformID : Z := 2.
Definition WindowsPlatformID : Z := 3.
Definition OSXPlatformID : Z := 4.
Definition WebPlatformID : Z := 5.
Definition MiniWebPlatformID : Z := 6.
Definition LinuxPlatformID : Z := 7.
Definition AndroidPadPlatformID : Z := 8.
Definition IPadPlatformID : Z := 9.
Definition AdminPlatformID : Z := 10.
Definition IOSPlatformStr : string := "IOS".
Definition AndroidPlatformStr : string := "Android".
Definition WindowsPlatformStr : string := "Windows".
Definition OSXPlatformStr : string := "OSX".
Definition WebPlatformStr : string := "Web".
Definition MiniWebPlatformStr : string := "MiniWeb".
Definition LinuxPlatformStr : string := "Linux".
Definition AndroidPadPlatformStr : string := "APad".
Definition IPadPlatformStr : string := "IPad".
Definition AdminPlatformStr : string := "Admin".
Definition TerminalPC : string := "PC".
Definition TerminalMobile : string := "Mobile".

Definition PlatformID2Name : gmap Z string := list_to_map
  [(IOSPlatformID, IOSPlatformStr); (AndroidPlatformID, AndroidPlatformStr);
   (WindowsPlatformID, WindowsPlatformStr); (OSXPlatformID, OSXPlatformStr);
   (WebPlatformID, WebPlatformStr); (MiniWebPlatformID, MiniWebPlatformStr);
   (LinuxPlatformID, LinuxPlatformStr); (AndroidPadPlatformID, AndroidPadPlatformStr);
   (IPadPlatformID, IPadPlatformStr); (AdminPlatformID, AdminPlatformStr)].

Definition PlatformName2ID : gmap string Z := list_to_map
  [(IOSPlatformStr, IOSPlatformID); (AndroidPlatformStr, AndroidPlatformID);
   (WindowsPlatformStr, WindowsPlatformID); (OSXPlatformStr, OSXPlatformID);
   (WebPlatformStr, WebPlatformID); (MiniWebPlatformStr, MiniWebPlatformID);
   (LinuxPlatformStr, LinuxPlatformID); (AndroidPadPlatformStr, AndroidPadPlatformID);
   (IPadPlatformStr, IPadPlatformID); (AdminPlatformStr, AdminPlatformID)].

Definition PlatformName2class : gmap string string := list_to_map
  [(IOSPlatformStr, TerminalMobile); (AndroidPlatformStr, TerminalMobile);
   (MiniWebPlatformStr, WebPlatformStr); (WebPlatformStr, WebPlatformStr);
   (WindowsPlatformStr, TerminalPC); (OSXPlatformStr, TerminalPC);
   (LinuxPlatformStr, TerminalPC)].

Definition PlatformID2class : gmap Z string := list_to_map
  [(IOSPlatformID, TerminalMobile); (AndroidPlatformID, TerminalMobile);
   (MiniWebPlatformID, WebPlatformStr); (WebPlatformID, WebPlatformStr);
   (WindowsPlatformID, TerminalPC); (OSXPlatformID, TerminalPC);
   (LinuxPlatformID, TerminalPC)].

(** Indexing a Go map with a missing key yields the zero value. *)
Definition PlatformIDToName (num : Z) : string := default "" (PlatformID2Name !! num).
Definition PlatformNameToID (name : string) : Z := default 0 (PlatformName2ID !! name).
Definition PlatformNameToClass (name : string) : string := default "" (PlatformName2class !! name).
Definition PlatformIDToClass (num : Z) : string := default "" (PlatformID2class !! num).

Definition ContentType2PushContent : gmap Z string := list_to_map
  [(Picture, "[PICTURE]"); (Voice, "[VOICE]"); (Video, "[VIDEO]"); (File, "[File]");
   (Text, "[TEXT]"); (AtText, "[@TEXT]"); (GroupMsg, "[GROUPMSG]]"); (Common, "[NEWMSG]");
   (SignalMsg, "[SIGNALINVITE]")].
