(* ===== verification/MsgTypes.v ===== *)
(** * Messages (pkg/protocol/sdkws, pkg/common/db/table/unrelation, pkg/common/convert)

    [MsgData] is the message on the wire, [MsgDataModel] the message of the
    message store, [MsgInfoModel] one slot of a document of the store, and
    [MsgPb2DB]/[MsgDB2Pb] the two conversions.  A nil pointer is [None], a nil
    or absent map [None]. *)

From S2P Require Import Prelude.
From S2P Require Import Constants.
From stdpp Require Import options.

#[local] Open Scope Z_scope.

Record OfflinePushInfo := mkOfflinePushInfo {
  Title : string; Desc : string; PushEx : string;
  IOSPushSound : string; IOSBadgeCount : bool; SignalInfo : string }.

Record MsgData := mkMsgData {
  SendID : string; RecvID : string; GroupID : string;
  ClientMsgID : string; ServerMsgID : string;
  SenderPlatformID : Z; SenderNickname : string; SenderFaceURL : string;
  SessionType : Z; MsgFrom : Z; ContentType : Z; Content : string;
  Seq : Z; SendTime : Z; CreateTime : Z; Status : Z; IsRead : bool;
  Options : option (gmap string bool);
  OfflinePush : option OfflinePushInfo;
  AtUserIDList : list string; AttachedInfo : string; Ex : string; KeyVersion : Z }.

(** [new(sdkws.MsgData)] *)
Definition MsgData_zero : MsgData :=
  {| SendID := ""; RecvID := ""; GroupID := ""; ClientMsgID := ""; ServerMsgID := "";
     SenderPlatformID := 0; SenderNickname := ""; SenderFaceURL := "";
     SessionType := 0; MsgFrom := 0; ContentType := 0; Content := "";
     Seq := 0; SendTime := 0; CreateTime := 0; Status := 0; IsRead := false;
     Options := None; OfflinePush := None; AtUserIDList := []; AttachedInfo := "";
     Ex := ""; KeyVersion := 0 |}.

(** Assignments to one field of a message. *)
Definition set_Seq (v : Z) (m : MsgData) : MsgData :=
  let (a1, a2, a3, a4, a5, a6, a7, a8, a9, b1, b2, b3, _, b5, b6, b7, b8, b9, c1, c2, c3, c4, c5) := m in
  mkMsgData a1 a2 a3 a4 a5 a6 a7 a8 a9 b1 b2 b3 v b5 b6 b7 b8 b9 c1 c2 c3 c4 c5.
Definition set_Status (v : Z) (m : MsgData) : MsgData :=
  let (a1, a2, a3, a4, a5, a6, a7, a8, a9, b1, b2, b3, b4, b5, b6, _, b8, b9, c1, c2, c3, c4, c5) := m in
  mkMsgData a1 a2 a3 a4 a5 a6 a7 a8 a9 b1 b2 b3 b4 b5 b6 v b8 b9 c1 c2 c3 c4 c5.
Definition set_Options (v : option (gmap string bool)) (m : MsgData) : MsgData :=
  let (a1, a2, a3, a4, a5, a6, a7, a8, a9, b1, b2, b3, b4, b5, b6, b7, b8, _, c1, c2, c3, c4, c5) := m in
  mkMsgData a1 a2 a3 a4 a5 a6 a7 a8 a9 b1 b2 b3 b4 b5 b6 b7 b8 v c1 c2 c3 c4 c5.
Definition set_ServerMsgID (v : string) (m : MsgData) : MsgData :=
  let (a1, a2, a3, a4, _, a6, a7, a8, a9, b1, b2, b3, b4, b5, b6, b7, b8, b9, c1, c2, c3, c4, c5) := m in
  mkMsgData a1 a2 a3 a4 v a6 a7 a8 a9 b1 b2 b3 b4 b5 b6 b7 b8 b9 c1 c2 c3 c4 c5.
Definition set_SendTime (v : Z) (m : MsgData) : MsgData :=
  let (a1, a2, a3, a4, a5, a6, a7, a8, a9, b1, b2, b3, b4, _, b6, b7, b8, b9, c1, c2, c3, c4, c5) := m in
  mkMsgData a1 a2 a3 a4 a5 a6 a7 a8 a9 b1 b2 b3 b4 v b6 b7 b8 b9 c1 c2 c3 c4 c5.

(** ** The message store's rows *)

Record OfflinePushModel := mkOfflinePushModel {
  DB_Title : string; DB_Desc : string; DB_PushEx : string;
  DB_IOSPushSound : string; DB_IOSBadgeCount : bool }.

Record RevokeModel := mkRevokeModel {
  Revoke_Role : Z; Revoke_UserID : string; Revoke_Nickname : string; Revoke_Time : Z }.

Record MsgDataModel := mkMsgDataModel {
  DB_SendID : string; DB_RecvID : string; DB_GroupID : string;
  DB_ClientMsgID : string; DB_ServerMsgID : string;
  DB_SenderPlatformID : Z; DB_SenderNickname : string; DB_SenderFaceURL : string;
  DB_SessionType : Z; DB_MsgFrom : Z; DB_ContentType : Z; DB_Content : string;
  DB_Seq : Z; DB_SendTime : Z; DB_CreateTime : Z; DB_Status : Z; DB_IsRead : bool;
  DB_Options : option (gmap string bool);
  DB_OfflinePush : option OfflinePushModel;
  DB_AtUserIDList : list string; DB_AttachedInfo : string; DB_Ex : string;
  DB_KeyVersion : Z }.

(** A slot: the message, its revocation, the users who deleted it, whether it
    was read.  The slot itself is a pointer and may be nil. *)
Record MsgInfoModel := mkMsgInfoModel {
  Info_Msg : option MsgDataModel; Info_Revoke : option RevokeModel;
  Info_DelList : option (list string); Info_IsRead : bool }.

Definition MsgInfoModel_zero : MsgInfoModel := mkMsgInfoModel None None None false.

Record MsgDocModel := mkMsgDocModel {
  DocID : string; Msg : list (option MsgInfoModel) }.

#[export] Instance OfflinePushInfo_eq_dec : EqDecision OfflinePushInfo.
Proof. solve_decision. Defined.
#[export] Instance MsgData_eq_dec : EqDecision MsgData.
Proof. solve_decision. Defined.
#[export] Instance OfflinePushModel_eq_dec : EqDecision OfflinePushModel.
Proof. solve_decision. Defined.
#[export] Instance RevokeModel_eq_dec : EqDecision RevokeModel.
Proof. solve_decision. Defined.
#[export] Instance MsgDataModel_eq_dec : EqDecision MsgDataModel.
Proof. solve_decision. Defined.
#[export] Instance MsgInfoModel_eq_dec : EqDecision MsgInfoModel.
Proof. solve_decision. Defined.

Definition Info_set_Msg (m : option MsgDataModel) (i : MsgInfoModel) : MsgInfoModel :=
  mkMsgInfoModel m (Info_Revoke i) (Info_DelList i) (Info_IsRead i).
Definition Info_set_Revoke (r : option RevokeModel) (i : MsgInfoModel) : MsgInfoModel :=
  mkMsgInfoModel (Info_Msg i) r (Info_DelList i) (Info_IsRead i).
Definition Info_set_DelList (d : option (list string)) (i : MsgInfoModel) : MsgInfoModel :=
  mkMsgInfoModel (Info_Msg i) (Info_Revoke i) d (Info_IsRead i).

(** ** Conversions *)

Definition OfflinePushPb2DB (p : OfflinePushInfo) : OfflinePushModel :=
  {| DB_Title := Title p; DB_Desc := Desc p; DB_PushEx := PushEx p;
     DB_IOSPushSound := IOSPushSound p; DB_IOSBadgeCount := IOSBadgeCount p |}.

Definition MsgPb2DB (msg : option MsgData) : option MsgDataModel :=
  msg ← msg;
  Some {| DB_SendID := SendID msg; DB_RecvID := RecvID msg; DB_GroupID := GroupID msg;
     DB_ClientMsgID := ClientMsgID msg; DB_ServerMsgID := ServerMsgID msg;
     DB_SenderPlatformID := SenderPlatformID msg; DB_SenderNickname := SenderNickname msg;
     DB_SenderFaceURL := SenderFaceURL msg; DB_SessionType := SessionType msg;
     DB_MsgFrom := MsgFrom msg; DB_ContentType := ContentType msg; DB_Content := Content msg;
     DB_Seq := Seq msg; DB_SendTime := SendTime msg; DB_CreateTime := CreateTime msg;
     DB_Status := Status msg; DB_IsRead := false; DB_Options := Options msg;
     DB_OfflinePush := OfflinePushPb2DB <$> OfflinePush msg;
     DB_AtUserIDList := AtUserIDList msg; DB_AttachedInfo := AttachedInfo msg;
     DB_Ex := Ex msg; DB_KeyVersion := 0 |}.

Definition OfflinePushDB2Pb (p : OfflinePushModel) : OfflinePushInfo :=
  {| Title := DB_Title p; Desc := DB_Desc p; PushEx := DB_PushEx p;
     IOSPushSound := DB_IOSPushSound p; IOSBadgeCount := DB_IOSBadgeCount p;
     SignalInfo := "" |}.

Definition MsgDB2Pb (msgModel : option MsgDataModel) : option MsgData :=
  m ← msgModel;
  Some {| SendID := DB_SendID m; RecvID := DB_RecvID m; GroupID := DB_GroupID m;
     ClientMsgID := DB_ClientMsgID m; ServerMsgID := DB_ServerMsgID m;
     SenderPlatformID := DB_SenderPlatformID m; SenderNickname := DB_SenderNickname m;
     SenderFaceURL := DB_SenderFaceURL m; SessionType := DB_SessionType m;
     MsgFrom := DB_MsgFrom m; ContentType := DB_ContentType m; Content := DB_Content m;
     Seq := DB_Seq m; SendTime := DB_SendTime m; CreateTime := DB_CreateTime m;
     Status := DB_Status m;
     IsRead := if bool_decide (DB_SessionType m = SingleChatType) then DB_IsRead m else false;
     Options := DB_Options m; OfflinePush := OfflinePushDB2Pb <$> DB_OfflinePush m;
     AtUserIDList := DB_AtUserIDList m; AttachedInfo := DB_AttachedInfo m;
     Ex := DB_Ex m; KeyVersion := DB_KeyVersion m |}.

(** The wire message that survives a write to the store and a read back:
    the read flag, the key version and the signalling blob of the push are
    not stored by [MsgPb2DB]. *)
Definition erase_unstored (m : MsgData) : MsgData :=
  let '(mkMsgData a1 a2 a3 a4 a5 a6 a7 a8 a9 b1 b2 b3 b4 b5 b6 b7 _ b9 c1 c2 c3 c4 _) := m in
  mkMsgData a1 a2 a3 a4 a5 a6 a7 a8 a9 b1 b2 b3 b4 b5 b6 b7 false b9
    ((λ p, mkOfflinePushInfo (Title p) (Desc p) (PushEx p) (IOSPushSound p) (IOSBadgeCount p) "")
       <$> c1) c2 c3 c4 0.

Lemma OfflinePush_roundtrip p :
  OfflinePushDB2Pb (OfflinePushPb2DB p) =
  mkOfflinePushInfo (Title p) (Desc p) (PushEx p) (IOSPushSound p) (IOSBadgeCount p) "".
Proof. done. Qed.

(** A message written to the store and read back is the message sent,
    less its read flag, its key version and the signalling blob of its push; a nil message
    stays nil. *)
Theorem MsgDB2Pb_MsgPb2DB m : MsgDB2Pb (MsgPb2DB m) = erase_unstored <$> m.
Proof.
  destruct m as [[]|]; [|done]. cbn. f_equal. f_equal; [by case_bool_decide|].
  by destruct OfflinePush0 as [[]|].
Qed.
