(* ===== verification/MsgProcessor.v ===== *)
(** * Message options and conversation ids (pkg/msgprocessor)

    options.go: the option map of a message and its tests; conversation.go:
    the id of the conversation a message belongs to. *)

From Stdlib Require Import Ascii.
From S2P Require Import Prelude.
From S2P Require Import Constants.
From S2P Require Import MsgTypes.
From stdpp Require Import options.

#[local] Open Scope Z_scope.

(** ** Options

    [Options] is a [map[string]bool] that the option setters mutate. *)

Definition OptionsOpt : Type := gmap string bool → gmap string bool.

Definition WithOptions (options : gmap string bool) (opts : list OptionsOpt) : gmap string bool :=
  foldl (λ o opt, opt o) options opts.

Definition NewOptions (opts : list OptionsOpt) : gmap string bool :=
  WithOptions
    (list_to_map
      [(IsNotNotification, false); (IsSendMsg, false); (IsHistory, false);
       (IsPersistent, false); (IsOfflinePush, false); (IsUnreadCount, false);
       (IsConversationUpdate, false); (IsSenderSync, false); (IsNotPrivate, false);
       (IsSenderConversationUpdate, false); (IsSenderNotificationPush, false);
       (IsReactionFromCache, false)]) opts.

(** [NewMsgOptions] returns a fresh empty map. *)
Definition NewMsgOptions : gmap string bool := ∅.

Definition WithNotNotification (b : bool) : OptionsOpt := λ o, <[IsNotNotification := b]> o.
Definition WithSendMsg (b : bool) : OptionsOpt := λ o, <[IsSendMsg := b]> o.
Definition WithHistory (b : bool) : OptionsOpt := λ o, <[IsHistory := b]> o.
Definition WithPersistent : OptionsOpt := λ o, <[IsPersistent := true]> o.
Definition WithOfflinePush (b : bool) : OptionsOpt := λ o, <[IsOfflinePush := b]> o.
Definition WithUnreadCount (b : bool) : OptionsOpt := λ o, <[IsUnreadCount := b]> o.
Definition WithConversationUpdate : OptionsOpt := λ o, <[IsConversationUpdate := true]> o.
Definition WithSenderSync : OptionsOpt := λ o, <[IsSenderSync := true]> o.
Definition WithNotPrivate : OptionsOpt := λ o, <[IsNotPrivate := true]> o.
Definition WithSenderConversationUpdate : OptionsOpt :=
  λ o, <[IsSenderConversationUpdate := true]> o.
Definition WithSenderNotificationPush : OptionsOpt :=
  λ o, <[IsSenderNotificationPush := true]> o.
Definition WithReactionFromCache : OptionsOpt := λ o, <[IsReactionFromCache := true]> o.

(** An absent option counts as set; a nil map has no option. *)
Definition Options_Is (o : option (gmap string bool)) (notification : string) : bool :=
  match o ≫= (.!! notification) with
  | None => true
  | Some v => v
  end.

Definition Options_IsNotNotification o := Options_Is o IsNotNotification.
Definition Options_IsSendMsg o := Options_Is o IsSendMsg.
Definition Options_IsHistory o := Options_Is o IsHistory.
Definition Options_IsPersistent o := Options_Is o IsPersistent.
Definition Options_IsOfflinePush o := Options_Is o IsOfflinePush.
Definition Options_IsUnreadCount o := Options_Is o IsUnreadCount.
Definition Options_IsConversationUpdate o := Options_Is o IsConversationUpdate.
Definition Options_IsSenderSync o := Options_Is o IsSenderSync.
Definition Options_IsNotPrivate o := Options_Is o IsNotPrivate.
Definition Options_IsSenderConversationUpdate o := Options_Is o IsSenderConversationUpdate.
Definition Options_IsSenderNotificationPush o := Options_Is o IsSenderNotificationPush.
Definition Options_IsReactionFromCache o := Options_Is o IsReactionFromCache.

(** ** Strings of the standard library *)

(** [sort.Strings]: the byte-lexicographic order. *)
Definition sort_Strings (l : list string) : list string := merge_sort String.le l.
Arguments sort_Strings : simpl never.

(** [strings.Join]. *)
Fixpoint strings_Join (l : list string) (sep : string) : string :=
  match l with
  | [] => ""
  | [s] => s
  | s :: l' => s +:+ sep +:+ strings_Join l' sep
  end.

(** [strings.Split] on a one-byte separator. *)
Fixpoint strings_Split (s : string) (sep : Ascii.ascii) : list string :=
  match s with
  | EmptyString => [""]
  | String c s' =>
      if bool_decide (c = sep) then "" :: strings_Split s' sep
      else match strings_Split s' sep with
           | [] => [String c ""]
           | w :: ws => String c w :: ws
           end
  end.

(** [strings.HasPrefix]. *)
Definition strings_HasPrefix (s p : string) : bool := String.prefix p s.

(** ** Conversation ids *)

Definition GetNotificationConversationIDByMsg (msg : MsgData) : string :=
  if SessionType msg =? SingleChatType then
    let l := sort_Strings [SendID msg; RecvID msg] in
    "n_" +:+ strings_Join l "_"
  else if SessionType msg =? GroupChatType then "n_" +:+ GroupID msg
  else if SessionType msg =? SuperGroupChatType then "n_" +:+ GroupID msg
  else if SessionType msg =? NotificationChatType then
    "n_" +:+ SendID msg +:+ "_" +:+ RecvID msg
  else "".

Definition GetChatConversationIDByMsg (msg : MsgData) : string :=
  if SessionType msg =? SingleChatType then
    let l := sort_Strings [SendID msg; RecvID msg] in
    "si_" +:+ strings_Join l "_"
  else if SessionType msg =? GroupChatType then "g_" +:+ GroupID msg
  else if SessionType msg =? SuperGroupChatType then "sg_" +:+ GroupID msg
  else if SessionType msg =? NotificationChatType then
    "sn_" +:+ SendID msg +:+ "_" +:+ RecvID msg
  else "".

Definition GenConversationUniqueKey (msg : MsgData) : string :=
  if (SessionType msg =? SingleChatType) || (SessionType msg =? NotificationChatType) then
    strings_Join (sort_Strings [SendID msg; RecvID msg]) "_"
  else if SessionType msg =? SuperGroupChatType then GroupID msg
  else "".

Definition GetConversationIDByMsg (msg : MsgData) : string :=
  let options := Options msg in
  if SessionType msg =? SingleChatType then
    let l := sort_Strings [SendID msg; RecvID msg] in
    if negb (Options_IsNotNotification options) then "n_" +:+ strings_Join l "_"
    else "si_" +:+ strings_Join l "_"
  else if SessionType msg =? GroupChatType then
    if negb (Options_IsNotNotification options) then "n_" +:+ GroupID msg
    else "g_" +:+ GroupID msg
  else if SessionType msg =? SuperGroupChatType then
    if negb (Options_IsNotNotification options) then "n_" +:+ GroupID msg
    else "sg_" +:+ GroupID msg
  else if SessionType msg =? NotificationChatType then
    if negb (Options_IsNotNotification options) then "n_" +:+ SendID msg +:+ "_" +:+ RecvID msg
    else "sn_" +:+ SendID msg +:+ "_" +:+ RecvID msg
  else "".

(** [ids] is sorted in place, before its length is checked. *)
Definition GetConversationIDBySessionType (sessionType : Z) (ids : list string) : string :=
  let ids := sort_Strings ids in
  if (2 <? len ids) || (len ids <? 1) then ""
  else if sessionType =? SingleChatType then "si_" +:+ strings_Join ids "_"
  else if sessionType =? GroupChatType then "g_" +:+ default "" (ids !! 0%nat)
  else if sessionType =? SuperGroupChatType then "sg_" +:+ default "" (ids !! 0%nat)
  else if sessionType =? NotificationChatType then "sn_" +:+ default "" (ids !! 0%nat)
  else "".

Definition GetNotificationConversationIDByConversationID (conversationID : string) : string :=
  let l := strings_Split conversationID "_"%char in
  if 1 <? len l then strings_Join (<[0%nat := "n"]> l) "_" else "".

Definition GetNotificationConversationID (sessionType : Z) (ids : list string) : string :=
  let ids := sort_Strings ids in
  if (2 <? len ids) || (len ids <? 1) then ""
  else if sessionType =? SingleChatType then "n_" +:+ strings_Join ids "_"
  else if sessionType =? SuperGroupChatType then "n_" +:+ default "" (ids !! 0%nat)
  else "".

Definition IsNotification (conversationID : string) : bool :=
  strings_HasPrefix conversationID "n_".

Definition IsNotificationByMsg (msg : MsgData) : bool :=
  negb (Options_IsNotNotification (Options msg)).

Definition ParseConversationID (msg : MsgData) : bool * string :=
  let options := Options msg in
  if SessionType msg =? SingleChatType then
    let l := sort_Strings [SendID msg; RecvID msg] in
    if negb (Options_IsNotNotification options) then (true, "n_" +:+ strings_Join l "_")
    else (false, "si_" +:+ strings_Join l "_")
  else if SessionType msg =? SuperGroupChatType then
    if negb (Options_IsNotNotification options) then (true, "n_" +:+ GroupID msg)
    else (false, "sg_" +:+ GroupID msg)
  else if SessionType msg =? NotificationChatType then
    if negb (Options_IsNotNotification options) then
      (true, "n_" +:+ SendID msg +:+ "_" +:+ RecvID msg)
    else (false, "sn_" +:+ SendID msg +:+ "_" +:+ RecvID msg)
  else (false, "").

(** [MsgBySeq]: the order by [Seq] that [sort.Sort] uses. *)
Definition MsgBySeq_Less (s : list MsgData) (i j : nat) : option bool :=
  mi ← s !! i; mj ← s !! j; Some (Seq mi <? Seq mj).
Definition MsgBySeq_Swap (s : list MsgData) (i j : nat) : option (list MsgData) :=
  mi ← s !! i; mj ← s !! j; Some (<[j := mi]> (<[i := mj]> s)).

(** ** Lemmas on the standard library's strings *)

Lemma sort_Strings_perm l l' : l ≡ₚ l' → sort_Strings l = sort_Strings l'.
Proof.
  intros Hp. unfold sort_Strings.
  apply (StronglySorted_unique String.le).
  - apply StronglySorted_merge_sort; apply _.
  - apply StronglySorted_merge_sort; apply _.
  - by rewrite !merge_sort_Permutation.
Qed.

Lemma strings_Split_not_nil s c : strings_Split s c ≠ [].
Proof.
  destruct s as [|a s]; simpl; [done|]. case_bool_decide; [done|].
  by destruct (strings_Split s c).
Qed.

(** Splitting and joining again gives the string back. *)
Lemma strings_Join_Split s c :
  strings_Join (strings_Split s c) (String c "") = s.
Proof.
  induction s as [|a s IH]; [done|]. simpl.
  pose proof (strings_Split_not_nil s c) as Hne.
  case_bool_decide as Hac; destruct (strings_Split s c) as [|w [|w' ws]] eqn:E;
    simpl in *; subst; try done.
Qed.

Definition no_char (c : Ascii.ascii) (s : string) : Prop := c ∉ String.list_ascii_of_string s.

Lemma strings_Split_app_no p s c :
  no_char c p → strings_Split (p +:+ String c s) c = p :: strings_Split s c.
Proof.
  unfold no_char. induction p as [|a p IH]; intros Hp; simpl in *.
  - by rewrite bool_decide_eq_true_2.
  - rewrite bool_decide_eq_false_2 by set_solver.
    by rewrite IH by set_solver.
Qed.

Lemma strings_Split_no s c : no_char c s → strings_Split s c = [s].
Proof.
  unfold no_char. induction s as [|a s IH]; intros Hs; simpl in *; [done|].
  rewrite bool_decide_eq_false_2 by set_solver. by rewrite IH by set_solver.
Qed.

Lemma strings_Join_cons s l sep :
  l ≠ [] → strings_Join (s :: l) sep = s +:+ sep +:+ strings_Join l sep.
Proof. by destruct l. Qed.

(** ** Properties of the options *)

(** A call of one of the package's setters. *)
Inductive setter :=
  | SNotNotification (b : bool) | SSendMsg (b : bool) | SHistory (b : bool) | SPersistent
  | SOfflinePush (b : bool) | SUnreadCount (b : bool) | SConversationUpdate | SSenderSync
  | SNotPrivate | SSenderConversationUpdate | SSenderNotificationPush | SReactionFromCache.

Definition setter_opt (s : setter) : OptionsOpt :=
  match s with
  | SNotNotification b => WithNotNotification b | SSendMsg b => WithSendMsg b
  | SHistory b => WithHistory b | SPersistent => WithPersistent
  | SOfflinePush b => WithOfflinePush b | SUnreadCount b => WithUnreadCount b
  | SConversationUpdate => WithConversationUpdate | SSenderSync => WithSenderSync
  | SNotPrivate => WithNotPrivate
  | SSenderConversationUpdate => WithSenderConversationUpdate
  | SSenderNotificationPush => WithSenderNotificationPush
  | SReactionFromCache => WithReactionFromCache
  end.

(** What the setter means: the option and its value. *)
Definition setter_sets (s : setter) : string * bool :=
  match s with
  | SNotNotification b => ("isNotNotification", b) | SSendMsg b => ("isSendMsg", b)
  | SHistory b => ("history", b) | SPersistent => ("persistent", true)
  | SOfflinePush b => ("offlinePush", b) | SUnreadCount b => ("unreadCount", b)
  | SConversationUpdate => ("conversationUpdate", true)
  | SSenderSync => ("senderSync", true) | SNotPrivate => ("notPrivate", true)
  | SSenderConversationUpdate => ("senderConversationUpdate", true)
  | SSenderNotificationPush => ("senderNotificationPush", true)
  | SReactionFromCache => ("reactionFromCache", true)
  end.

Definition known_options : list string :=
  ["isNotNotification"; "isSendMsg"; "history"; "persistent"; "offlinePush"; "unreadCount";
   "conversationUpdate"; "senderSync"; "notPrivate"; "senderConversationUpdate";
   "senderNotificationPush"; "reactionFromCache"].

(** The abstract reading of a sequence of setters: the last one on an option
    decides, and an option nobody set is off when the package knows it and on
    when it does not. *)
Definition option_spec (ss : list setter) (k : string) : bool :=
  match last (filter (λ s, (setter_sets s).1 = k) ss) with
  | Some s => (setter_sets s).2
  | None => bool_decide (k ∉ known_options)
  end.

Lemma setter_opt_insert s o : setter_opt s o = <[(setter_sets s).1 := (setter_sets s).2]> o.
Proof. by destruct s. Qed.

Lemma WithOptions_snoc o ss s :
  WithOptions o (setter_opt <$> (ss ++ [s])) =
  <[(setter_sets s).1 := (setter_sets s).2]> (WithOptions o (setter_opt <$> ss)).
Proof.
  unfold WithOptions. rewrite fmap_app, foldl_app. simpl. apply setter_opt_insert.
Qed.

Lemma Options_Is_insert (o : gmap string bool) k b k' :
  Options_Is (Some (<[k := b]> o)) k' = if decide (k = k') then b else Options_Is (Some o) k'.
Proof. unfold Options_Is. simpl. rewrite lookup_insert. by case_decide. Qed.

Lemma Options_Is_NewOptions_nil k :
  Options_Is (Some (NewOptions [])) k = bool_decide (k ∉ known_options).
Proof.
  unfold NewOptions, WithOptions, Options_Is. cbn [foldl mbind option_bind].
  destruct (decide (k ∈ known_options)) as [Hk|Hk].
  - rewrite bool_decide_eq_false_2 by auto.
    unfold known_options in Hk. rewrite !elem_of_cons, elem_of_nil in Hk.
    destruct_or! Hk; subst; vm_compute; done.
  - rewrite bool_decide_eq_true_2 by auto.
    rewrite not_elem_of_list_to_map_1; [done|]. exact Hk.
Qed.

(** The options built by any sequence of setters answer every test as the
    sequence says. *)
Theorem NewOptions_meets_spec ss k :
  Options_Is (Some (NewOptions (setter_opt <$> ss))) k = option_spec ss k.
Proof.
  unfold option_spec. induction ss as [|s ss IH] using rev_ind.
  - apply Options_Is_NewOptions_nil.
  - unfold NewOptions in *. rewrite WithOptions_snoc, Options_Is_insert, filter_app.
    rewrite filter_cons, filter_nil. destruct (decide ((setter_sets s).1 = k)).
    + by rewrite last_snoc.
    + rewrite app_nil_r. apply IH.
Qed.

(** ** Properties of the conversation ids *)

Definition swap_peers (m : MsgData) : MsgData :=
  let '(mkMsgData a1 a2 a3 a4 a5 a6 a7 a8 a9 b1 b2 b3 b4 b5 b6 b7 b8 b9 c1 c2 c3 c4 c5) := m in
  mkMsgData a2 a1 a3 a4 a5 a6 a7 a8 a9 b1 b2 b3 b4 b5 b6 b7 b8 b9 c1 c2 c3 c4 c5.

Lemma sort_peers_swap a b : sort_Strings [a; b] = sort_Strings [b; a].
Proof. apply sort_Strings_perm, Permutation_swap. Qed.

Definition known_session (t : Z) : Prop :=
  t = SingleChatType ∨ t = GroupChatType ∨ t = SuperGroupChatType ∨ t = NotificationChatType.

Definition peer_id (a b : string) : string := strings_Join (sort_Strings [a; b]) "_".

Lemma peer_id_swap a b : peer_id a b = peer_id b a.
Proof. unfold peer_id. by rewrite sort_peers_swap. Qed.

(** The two ids in order. *)
Lemma sort_peers a b :
  sort_Strings [a; b] = if decide (String.le a b) then [a; b] else [b; a].
Proof.
  unfold sort_Strings, merge_sort. cbn [merge_sort_aux merge_list_to_stack merge_stack list_merge].
  by destruct (decide (String.le a b)).
Qed.

(** Both peers of a single chat name its conversation alike, and so does
    the server from the pair of ids in any order. *)
Theorem single_chat_ids_symmetric m :
  SessionType m = SingleChatType →
  GetConversationIDByMsg (swap_peers m) = GetConversationIDByMsg m ∧
  GetChatConversationIDByMsg (swap_peers m) = GetChatConversationIDByMsg m ∧
  GetNotificationConversationIDByMsg (swap_peers m) = GetNotificationConversationIDByMsg m ∧
  GenConversationUniqueKey (swap_peers m) = GenConversationUniqueKey m ∧
  GetConversationIDBySessionType SingleChatType [SendID m; RecvID m] =
    GetChatConversationIDByMsg m ∧
  GetConversationIDBySessionType SingleChatType [RecvID m; SendID m] =
    GetChatConversationIDByMsg m ∧
  GetNotificationConversationID SingleChatType [RecvID m; SendID m] =
    GetNotificationConversationIDByMsg m.
Proof.
  intros Hm. destruct m as [a b]; simpl in *. subst.
  unfold GetConversationIDByMsg, GetChatConversationIDByMsg,
    GetNotificationConversationIDByMsg, GenConversationUniqueKey,
    GetConversationIDBySessionType, GetNotificationConversationID. cbn.
  rewrite (sort_peers_swap a b), sort_peers. by destruct (decide _).
Qed.

(** The prefixes tell a notification conversation from a chat. *)
Lemma IsNotification_n s : IsNotification ("n_" +:+ s) = true.
Proof. unfold IsNotification, strings_HasPrefix. by destruct s. Qed.
Lemma IsNotification_si s : IsNotification ("si_" +:+ s) = false.
Proof. done. Qed.
Lemma IsNotification_g s : IsNotification ("g_" +:+ s) = false.
Proof. done. Qed.
Lemma IsNotification_sg s : IsNotification ("sg_" +:+ s) = false.
Proof. done. Qed.
Lemma IsNotification_sn s : IsNotification ("sn_" +:+ s) = false.
Proof. done. Qed.

Create Rewrite HintDb conv_id.
#[export] Hint Rewrite IsNotification_n IsNotification_si IsNotification_g IsNotification_sg
  IsNotification_sn : conv_id.

(** The id of a message's conversation is its notification id or its chat
    id as its option says; the id's prefix shows which, and the parsed
    pair agrees with both. *)
Theorem conversation_id_classified m :
  known_session (SessionType m) →
  GetConversationIDByMsg m =
    (if IsNotificationByMsg m then GetNotificationConversationIDByMsg m
     else GetChatConversationIDByMsg m) ∧
  IsNotification (GetConversationIDByMsg m) = IsNotificationByMsg m ∧
  ParseConversationID m =
    if SessionType m =? GroupChatType then (false, "")
    else (IsNotification (GetConversationIDByMsg m), GetConversationIDByMsg m).
Proof.
  unfold GetConversationIDByMsg, GetChatConversationIDByMsg, ParseConversationID,
    GetNotificationConversationIDByMsg, IsNotificationByMsg.
  intros [Ht|[Ht|[Ht|Ht]]]; rewrite Ht; cbn [Z.eqb SingleChatType];
    destruct (Options_IsNotNotification (Options m)); cbn;
    autorewrite with conv_id; done.
Qed.

Lemma to_notification p s :
  no_char "_"%char p →
  GetNotificationConversationIDByConversationID (p +:+ "_" +:+ s) = "n_" +:+ s.
Proof.
  intros Hp. unfold GetNotificationConversationIDByConversationID.
  change ("_" +:+ s) with (String "_"%char s).
  rewrite (strings_Split_app_no _ _ _ Hp).
  pose proof (strings_Split_not_nil s "_"%char) as Hne.
  rewrite (proj2 (Z.ltb_lt 1 _)) by (destruct (strings_Split s "_"%char); [done|unfold len; simpl; lia]).
  cbn [insert list_insert]. rewrite strings_Join_cons by done.
  change "_"%string with (String "_"%char "") at 2.
  by rewrite strings_Join_Split.
Qed.

Lemma no_char_dec_true c s :
  bool_decide (c ∈ String.list_ascii_of_string s) = false → no_char c s.
Proof. intros H. by apply bool_decide_eq_false in H. Qed.

(** The notification conversation of a chat conversation is found from the
    chat's id alone, whatever characters the user and group ids hold. *)
Theorem notification_id_from_chat_id m :
  known_session (SessionType m) →
  GetNotificationConversationIDByConversationID (GetChatConversationIDByMsg m) =
  GetNotificationConversationIDByMsg m.
Proof.
  unfold GetChatConversationIDByMsg, GetNotificationConversationIDByMsg.
  intros [Ht|[Ht|[Ht|Ht]]]; rewrite Ht; cbn -[GetNotificationConversationIDByConversationID];
    [apply (to_notification "si")|apply (to_notification "g")
    |apply (to_notification "sg")|apply (to_notification "sn")]; by apply no_char_dec_true.
Qed.

Lemma no_char_app_inj c p p' s s' :
  no_char c p → no_char c p' → p +:+ String c s = p' +:+ String c s' → p = p' ∧ s = s'.
Proof.
  intros Hp Hp' Heq.
  assert (strings_Split (p +:+ String c s) c = strings_Split (p' +:+ String c s') c) as Hs
    by congruence.
  rewrite !strings_Split_app_no in Hs by done. injection Hs as -> Hs.
  split; [done|]. by rewrite <-(strings_Join_Split s c), Hs, strings_Join_Split.
Qed.

(** When no user id holds an underscore, the id of a single chat identifies
    the two peers. *)
Theorem single_chat_id_injective a b a' b' :
  no_char "_"%char a → no_char "_"%char b → no_char "_"%char a' → no_char "_"%char b' →
  GetConversationIDBySessionType SingleChatType [a; b] =
    GetConversationIDBySessionType SingleChatType [a'; b'] →
  [a; b] ≡ₚ [a'; b'].
Proof.
  intros Ha Hb Ha' Hb'. unfold GetConversationIDBySessionType. rewrite !sort_peers.
  destruct (decide (String.le a b)), (decide (String.le a' b')); cbn; intros [= Heq];
    apply (no_char_app_inj "_"%char) in Heq; try done; destruct Heq as [-> ->];
    first [done | apply Permutation_swap].
Qed.

(** ** The theorems at concrete messages *)

Definition sample_chat (t : Z) (from to : string) : MsgData :=
  mkMsgData from to "room_1" "c1" "" 0 "" "" t 0 Text "hi" 0 0 0 0 false
    (Some (NewOptions [WithNotNotification true])) None [] "" "" 0.

Lemma single_chat_ids_symmetric_witness :
  let m := sample_chat SingleChatType "bob" "alice" in
  GetConversationIDByMsg m = "si_alice_bob" ∧
  GetConversationIDByMsg (swap_peers m) = GetConversationIDByMsg m.
Proof.
  cbv zeta. split; [vm_compute; reflexivity|].
  apply (single_chat_ids_symmetric (sample_chat SingleChatType "bob" "alice")). reflexivity.
Defined.

Lemma conversation_id_classified_witness :
  IsNotification (GetConversationIDByMsg (sample_chat SuperGroupChatType "bob" "alice")) =
  IsNotificationByMsg (sample_chat SuperGroupChatType "bob" "alice").
Proof.
  apply (conversation_id_classified (sample_chat SuperGroupChatType "bob" "alice")).
  right; right; left. reflexivity.
Defined.

Lemma notification_id_from_chat_id_witness :
  GetNotificationConversationIDByConversationID
    (GetChatConversationIDByMsg (sample_chat SuperGroupChatType "bob" "alice")) =
  GetNotificationConversationIDByMsg (sample_chat SuperGroupChatType "bob" "alice") ∧
  GetNotificationConversationIDByMsg (sample_chat SuperGroupChatType "bob" "alice") = "n_room_1".
Proof.
  split; [|vm_compute; reflexivity].
  apply notification_id_from_chat_id. right; right; left. reflexivity.
Defined.

Lemma single_chat_id_injective_witness : ["bob"; "alice"] ≡ₚ ["alice"; "bob"].
Proof.
  apply single_chat_id_injective; [..|vm_compute; reflexivity];
    apply no_char_dec_true; vm_compute; reflexivity.
Defined.
