(* ===== verification/MsgDoc.v ===== *)
(** * Documents of the message store (pkg/common/db/table/unrelation/msg.go)

    A conversation's messages are kept in documents of [singleGocMsgNum] slots:
    sequence number [seq] lives in document [GetDocID conversationID seq], slot
    [GetMsgIndex seq].  The file shows that this addressing is a bijection and
    that [GetDocIDSeqsMap] groups sequence numbers by document. *)

From Stdlib Require Import Ascii.
From S2P Require Import Prelude.
From S2P Require Import Constants.
From S2P Require Import MsgTypes.
From S2P Require Import MsgProcessor.
From stdpp Require Import options.

#[local] Open Scope Z_scope.

Definition singleGocMsgNum : Z := 100.
Definition singleGocMsgNum5000 : Z := 5000.

Definition TableName : string := "msg".
Definition GetSingleGocMsgNum : Z := singleGocMsgNum.
Definition GetSingleGocMsgNum5000 : Z := singleGocMsgNum5000.

(** [m.Msg[len(m.Msg)-1].Msg != nil]: panics on an empty document or an empty
    last slot. *)
Definition IsFull {W} (m : MsgDocModel) : M W bool :=
  slot ← deref (last (Msg m));
  info ← deref slot;
  mret (bool_decide (Info_Msg info ≠ None)).

(** [strconv.FormatInt(_, 10)] *)
Definition FormatInt (z : Z) : string := pretty z.

Definition indexGen (conversationID : string) (seqSuffix : Z) : string :=
  conversationID +:+ ":" +:+ FormatInt seqSuffix.

Definition GetDocID (conversationID : string) (seq : Z) : string :=
  let seqSuffix := Z.quot (sub64 seq 1) singleGocMsgNum in
  indexGen conversationID seqSuffix.

Definition GetMsgIndex (seq : Z) : Z := Z.rem (sub64 seq 1) singleGocMsgNum.

Definition GetDocIDSeqsMap (conversationID : string) (seqs : list Z) : gmap string (list Z) :=
  foldl (λ t seq,
    let docID := GetDocID conversationID seq in
    match t !! docID with
    | None => <[docID := [seq]]> t
    | Some value => <[docID := value ++ [seq]]> t
    end) ∅ seqs.

Definition GenExceptionMessageBySeqs (seqs : list Z) : list MsgData :=
  (λ v, set_Seq v MsgData_zero) <$> seqs.

(** ** Decimal numbers *)

Lemma pretty_N_char_digit n c :
  c ∈ String.list_ascii_of_string (String (pretty_N_char n) "") →
  c ∈ String.list_ascii_of_string "0123456789".
Proof.
  cbn [String.list_ascii_of_string]. rewrite list_elem_of_singleton. intros ->.
  unfold pretty_N_char. repeat case_match; apply (bool_decide_unpack _); vm_compute; done.
Qed.

Lemma pretty_N_go_digits n s :
  (∀ c, c ∈ String.list_ascii_of_string s → c ∈ String.list_ascii_of_string "0123456789") →
  ∀ c, c ∈ String.list_ascii_of_string (pretty_N_go n s) →
    c ∈ String.list_ascii_of_string "0123456789".
Proof.
  revert s. induction (N.lt_wf_0 n) as [n _ IH]; intros s Hs c.
  destruct (decide (n = 0)%N) as [->|Hn].
  - rewrite pretty_N_go_0. apply Hs.
  - rewrite pretty_N_go_step by lia. apply IH.
    + apply N.div_lt; lia.
    + intros d. cbn [String.list_ascii_of_string]. rewrite elem_of_cons. intros [->|Hd]; [|auto].
      eapply pretty_N_char_digit. cbn. by apply list_elem_of_singleton.
Qed.

Lemma FormatInt_no_colon z : no_char ":"%char (FormatInt z).
Proof.
  assert (∀ n : N, no_char ":"%char (pretty n)) as HN.
  { intros n Hc. unfold pretty, pretty_N in Hc. case_decide.
    - by apply list_elem_of_singleton in Hc.
    - apply pretty_N_go_digits in Hc; [|cbn; set_solver].
      revert Hc. apply (bool_decide_unpack (¬ _)). by vm_compute. }
  unfold FormatInt, pretty, pretty_Z. destruct z as [|p|p].
  - exact (HN 0%N).
  - exact (HN (N.pos p)).
  - intros Hc. apply elem_of_cons in Hc as [Hc|Hc]; [done|].
    by apply (HN (N.pos p)).
Qed.

Lemma strings_Split_app a b c :
  strings_Split (a +:+ String c b) c = strings_Split a c ++ strings_Split b c.
Proof.
  induction a as [|x a IH]; simpl.
  - by rewrite bool_decide_eq_true_2.
  - rewrite IH. pose proof (strings_Split_not_nil a c).
    case_bool_decide; [done|]. by destruct (strings_Split a c).
Qed.

(** A document id determines its conversation and its number. *)
Lemma indexGen_inj c c' n n' : indexGen c n = indexGen c' n' → c = c' ∧ n = n'.
Proof.
  intros H. apply (f_equal (λ s, strings_Split s ":"%char)) in H.
  unfold indexGen in H. change (":" +:+ ?x) with (String ":"%char x) in H.
  rewrite !strings_Split_app, !(strings_Split_no (FormatInt _)) in H by apply FormatInt_no_colon.
  apply app_inj_tail in H as [Hc Hn]. split.
  - by rewrite <-(strings_Join_Split c ":"%char), Hc, strings_Join_Split.
  - by apply (inj pretty).
Qed.

(** ** Addressing *)

(** The sequence numbers the system assigns. *)
Definition valid_seq (seq : Z) : Prop := 1 ≤ seq < 2 ^ 63.

#[export] Instance valid_seq_dec seq : Decision (valid_seq seq).
Proof. unfold valid_seq. apply _. Defined.

Lemma GetMsgIndex_valid seq : valid_seq seq → GetMsgIndex seq = (seq - 1) `mod` 100.
Proof.
  unfold valid_seq, GetMsgIndex, singleGocMsgNum. intros H. i64.
  by rewrite Z.rem_mod_nonneg by lia.
Qed.

Lemma GetDocID_valid c seq : valid_seq seq → GetDocID c seq = indexGen c ((seq - 1) `div` 100).
Proof.
  unfold valid_seq, GetDocID, singleGocMsgNum. intros H. i64.
  by rewrite Z.quot_div_nonneg by lia.
Qed.

Lemma GetMsgIndex_range seq : valid_seq seq → 0 ≤ GetMsgIndex seq < singleGocMsgNum.
Proof.
  intros H. rewrite GetMsgIndex_valid by done. unfold singleGocMsgNum.
  apply Z.mod_pos_bound. lia.
Qed.

Lemma address_inj c c' s s' :
  valid_seq s → valid_seq s' → GetDocID c s = GetDocID c' s' →
  GetMsgIndex s = GetMsgIndex s' → c = c' ∧ s = s'.
Proof.
  intros Hs Hs'. rewrite !GetDocID_valid, !GetMsgIndex_valid by done.
  intros [-> Hd]%indexGen_inj Hi. split; [done|].
  pose proof (Z.div_mod (s - 1) 100). pose proof (Z.div_mod (s' - 1) 100). lia.
Qed.

(** Two sequence numbers share a document iff they are in the same block of
    [singleGocMsgNum]. *)
Lemma GetDocID_eq c c' s s' :
  valid_seq s → valid_seq s' →
  GetDocID c s = GetDocID c' s' ↔ c = c' ∧ (s - 1) `div` 100 = (s' - 1) `div` 100.
Proof.
  intros Hs Hs'. rewrite !GetDocID_valid by done. split.
  - apply indexGen_inj.
  - by intros [-> ->].
Qed.

(** A (conversation, sequence number) pair has exactly one slot, inside its
    document, and no other pair shares it. *)
Theorem slot_addressing c c' s s' :
  valid_seq s → valid_seq s' →
  0 ≤ GetMsgIndex s < GetSingleGocMsgNum ∧
  (GetDocID c s = GetDocID c' s' ∧ GetMsgIndex s = GetMsgIndex s' ↔ c = c' ∧ s = s').
Proof.
  intros Hs Hs'. split; [by apply GetMsgIndex_range|]. split.
  - intros [??]. by apply address_inj.
  - by intros [-> ->].
Qed.

Lemma slot_addressing_witness :
  (0 ≤ GetMsgIndex 101 < GetSingleGocMsgNum ∧
   (GetDocID "si_a_b" 101 = GetDocID "si_a_b" 201 ∧ GetMsgIndex 101 = GetMsgIndex 201 ↔
    "si_a_b" = "si_a_b" ∧ 101 = 201)).
Proof. apply slot_addressing; apply (bool_decide_unpack _); vm_compute; done. Defined.

(** ** Grouping by document *)

Definition group_step (conversationID : string) (t : gmap string (list Z)) (seq : Z) :
    gmap string (list Z) :=
  let docID := GetDocID conversationID seq in
  match t !! docID with
  | None => <[docID := [seq]]> t
  | Some value => <[docID := value ++ [seq]]> t
  end.

Lemma GetDocIDSeqsMap_snoc c seqs seq :
  GetDocIDSeqsMap c (seqs ++ [seq]) = group_step c (GetDocIDSeqsMap c seqs) seq.
Proof. unfold GetDocIDSeqsMap. by rewrite foldl_app. Qed.

Definition doc_seqs (c d : string) (seqs : list Z) : list Z :=
  filter (λ s, GetDocID c s = d) seqs.

Lemma GetDocIDSeqsMap_lookup c seqs d :
  GetDocIDSeqsMap c seqs !! d =
  match doc_seqs c d seqs with [] => None | l => Some l end.
Proof.
  unfold doc_seqs. induction seqs as [|s seqs IH] using rev_ind; [done|].
  rewrite GetDocIDSeqsMap_snoc, filter_app, filter_cons, filter_nil.
  unfold group_step. cbv zeta. destruct (decide (GetDocID c s = d)) as [Hd|Hd].
  - rewrite Hd, IH. destruct (filter _ seqs); by rewrite lookup_insert_eq.
  - rewrite app_nil_r, <-IH.
    by destruct (GetDocIDSeqsMap c seqs !! GetDocID c s); rewrite lookup_insert_ne.
Qed.

(** [GetDocIDSeqsMap] partitions the sequence numbers: each document is
    given, in their order, the numbers it holds and no other, no document has
    an empty list, and together the lists are the numbers asked for. *)
Theorem GetDocIDSeqsMap_partition c seqs :
  (∀ d l, GetDocIDSeqsMap c seqs !! d = Some l ↔ l = doc_seqs c d seqs ∧ l ≠ []) ∧
  (∀ s, s ∈ seqs → ∃ l, GetDocIDSeqsMap c seqs !! GetDocID c s = Some l ∧ s ∈ l) ∧
  mjoin (map_to_list (GetDocIDSeqsMap c seqs)).*2 ≡ₚ seqs.
Proof.
  split; [|split].
  - intros d l. rewrite GetDocIDSeqsMap_lookup. destruct (doc_seqs c d seqs); naive_solver.
  - intros s Hs. rewrite GetDocIDSeqsMap_lookup.
    assert (s ∈ doc_seqs c (GetDocID c s) seqs) as Hin by (by apply list_elem_of_filter).
    destruct (doc_seqs c (GetDocID c s) seqs); [by apply elem_of_nil in Hin|eauto].
  - induction seqs as [|s seqs IH] using rev_ind; [done|].
    rewrite GetDocIDSeqsMap_snoc. unfold group_step. cbv zeta.
    destruct (GetDocIDSeqsMap c seqs !! GetDocID c s) as [v|] eqn:E.
    + rewrite <-insert_delete_eq, map_to_list_insert by apply lookup_delete_eq.
      rewrite <-(insert_delete_id _ _ _ E), map_to_list_insert in IH by apply lookup_delete_eq.
      cbn in *. rewrite <-app_assoc, (Permutation_app_comm [s]), app_assoc.
      by rewrite IH.
    + rewrite map_to_list_insert by done. cbn. rewrite IH.
      apply Permutation_cons_append.
Qed.
