(* ===== verification/MsgCollection.v ===== *)
(** * The message collection (pkg/common/db/unrelation/msg.go)

    [MsgCollection] is what the driver calls on its MongoDB collection, and
    [MsgCollectionLaws] the documented behaviour of those calls that the code
    relies on: [doc_id] is a unique key (mongo.go, [CreateMsgIndex]), an update
    of one document reports whether it matched, and it changes that document
    alone.  The driver's operations are built on them.  The in-memory
    collection at the end satisfies the laws. *)

From Stdlib Require Import Ascii.
From S2P Require Import Prelude.
From S2P Require Import Constants.
From S2P Require Import MsgTypes.
From S2P Require Import MsgProcessor.
From S2P Require Import MsgDoc.
From stdpp Require Import options.

#[local] Open Scope Z_scope.

(** ** Updates

    [USet i key v] is [{"$set": {"msgs.<i>.<key>": v}}], the whole slot when
    [key] is empty, and [UAddToSet i key vs]
    [{"$addToSet": {"msgs.<i>.<key>": {"$each": vs}}}]. *)

Inductive bson :=
  | BMsg (m : option MsgDataModel) | BRevoke (r : option RevokeModel)
  | BBool (b : bool) | BEmptySlot.

Inductive update :=
  | USet (index : Z) (key : string) (v : bson)
  | UAddToSet (index : Z) (key : string) (vs : list string).

Definition update_index (u : update) : Z :=
  match u with USet i _ _ | UAddToSet i _ _ => i end.

(** The effect of an update on a slot. *)
Definition slot_set (key : string) (v : bson) (s : MsgInfoModel) : MsgInfoModel :=
  match v with
  | BMsg m => if bool_decide (key = "msg") then Info_set_Msg m s else s
  | BRevoke r => if bool_decide (key = "revoke") then Info_set_Revoke r s else s
  | BBool b => if bool_decide (key = "is_read")
               then mkMsgInfoModel (Info_Msg s) (Info_Revoke s) (Info_DelList s) b else s
  | BEmptySlot => if bool_decide (key = "") then MsgInfoModel_zero else s
  end.

Definition add_to_set (vs l : list string) : list string :=
  foldl (λ l v, if bool_decide (v ∈ l) then l else l ++ [v]) l vs.

Definition slot_update (u : update) (s : MsgInfoModel) : MsgInfoModel :=
  match u with
  | USet _ key v => slot_set key v s
  | UAddToSet _ key vs =>
      if bool_decide (key = "del_list")
      then Info_set_DelList (Some (add_to_set vs (default [] (Info_DelList s)))) s else s
  end.

(** ** The data of a collection

    The documents by id, each the list of its slots. *)

Abbreviation mem_docs := (gmap string (list (option MsgInfoModel))).

Definition alter_slot (i : Z) (f : MsgInfoModel → MsgInfoModel)
    (l : list (option MsgInfoModel)) : list (option MsgInfoModel) :=
  match l !! Z.to_nat i with
  | Some (Some s) => <[Z.to_nat i := Some (f s)]> l
  | _ => l
  end.

(** The ids of a conversation's documents, in the order of the index. *)
Definition doc_ids (conversationID : string) (w : mem_docs) : list string :=
  sort_Strings (filter (λ d, String.prefix (conversationID +:+ ":") d) (map_to_list w).*1).

Definition mem_find (conversationID : string) (skip sort : Z) (w : mem_docs) : list MsgDocModel :=
  let ids := doc_ids conversationID w in
  let ids := if sort =? -1 then reverse ids else ids in
  (λ d, mkMsgDocModel d (default [] (w !! d))) <$> take 1 (drop (Z.to_nat skip) ids).

Definition mem_slot (userID : string) (l : list (option MsgInfoModel)) (i : Z) :
    option MsgInfoModel :=
  s ← mjoin (l !! Z.to_nat i);
  if bool_decide (userID ∈ default [] (Info_DelList s)) then None
  else Some (Info_set_DelList None s).

(** The effect of emptying slots. *)
Definition empty_slots (ixs : list Z) (l : list (option MsgInfoModel)) : list (option MsgInfoModel) :=
  foldl (λ l i, alter_slot i (λ _, MsgInfoModel_zero) l) l ixs.

(** An id that stands for itself in a regular expression. *)
Definition regex_plain (c : string) : Prop :=
  ∀ ch, ch ∈ String.list_ascii_of_string c → ch ∉ String.list_ascii_of_string "\.+*?()[]{}|^$".

#[export] Instance regex_plain_dec c : Decision (regex_plain c).
Proof.
  refine (cast_if (decide (Forall (λ ch, ch ∉ String.list_ascii_of_string "\.+*?()[]{}|^$")
    (String.list_ascii_of_string c)))); by rewrite Forall_forall in *.
Defined.

(** ** The collection *)

Class MsgCollection (W : Type) := {
  docs : W → mem_docs;
  (** [UpdateOne({doc_id}, u)]: the number of documents matched. *)
  UpdateOne : string → update → M W Z;
  InsertOne : MsgDocModel → M W ();
  (** [Find({doc_id: /^c:/}).Limit(1).Skip(skip).Sort({doc_id: sort})] *)
  FindDocs : string → Z → Z → M W (list MsgDocModel);
  (** [UpdateMany({doc_id}, {$set: {msgs.i: {msg: nil}, ...}})] *)
  UpdateManyEmpty : string → list Z → M W ();
  (** [DeleteMany({doc_id: {$in: ids}})] *)
  DeleteMany : list string → M W ();
  CountDocuments : string → M W Z;
  FindOne : string → M W MsgDocModel;
  (** The slots at the given indexes, without those the user deleted. *)
  AggregateSlots : string → string → list Z → M W (list MsgDocModel);
  (** [msgs.i.is_read := true] for each index whose message the user did not send. *)
  BulkMarkRead : string → string → list Z → M W ();
}.

Definition IsDuplicateKeyError (e : error) : bool := bool_decide (Unwrap e = MongoDuplicateKey).

Class MsgCollectionLaws (W : Type) `{MsgCollection W} : Prop := {
  UpdateOne_returns d u w : ∃ r, (UpdateOne d u w).1 = of_sum r;
  UpdateOne_matched d u w n w' l :
    UpdateOne d u w = (Ok n, w') → docs w !! d = Some l →
    ∀ s, 0 ≤ update_index u → l !! Z.to_nat (update_index u) = Some (Some s) →
    0 < n ∧ docs w' = <[d := <[Z.to_nat (update_index u) := Some (slot_update u s)]> l]> (docs w);
  UpdateOne_unmatched d u w n w' :
    UpdateOne d u w = (Ok n, w') → docs w !! d = None → n = 0 ∧ docs w' = docs w;
  InsertOne_returns m w : ∃ r, (InsertOne m w).1 = of_sum r;
  InsertOne_ok m w w' :
    InsertOne m w = (Ok (), w') →
    docs w !! DocID m = None ∧ docs w' = <[DocID m := Msg m]> (docs w);
  InsertOne_dup m w e w' :
    InsertOne m w = (Err e, w') → IsDuplicateKeyError e = true →
    is_Some (docs w !! DocID m) ∧ docs w' = docs w;
  FindDocs_returns c skip sort w : ∃ r, (FindDocs c skip sort w).1 = of_sum r;
  FindDocs_keeps c skip sort w : docs (FindDocs c skip sort w).2 = docs w;
  FindDocs_ok c skip sort w l w' :
    regex_plain c → 0 ≤ skip → FindDocs c skip sort w = (Ok l, w') →
    l = mem_find c skip sort (docs w);
  UpdateManyEmpty_returns d ixs w : ∃ r, (UpdateManyEmpty d ixs w).1 = of_sum r;
  UpdateManyEmpty_ok d ixs w w' :
    UpdateManyEmpty d ixs w = (Ok (), w') → docs w' = alter (empty_slots ixs) d (docs w);
  UpdateManyEmpty_err d ixs w e w' :
    UpdateManyEmpty d ixs w = (Err e, w') →
    docs w' = docs w ∨ docs w' = alter (empty_slots ixs) d (docs w);
  DeleteMany_returns ids w : ∃ r, (DeleteMany ids w).1 = of_sum r;
  DeleteMany_ok ids w w' :
    DeleteMany ids w = (Ok (), w') → docs w' = foldl (λ D d, delete d D) (docs w) ids;
  DeleteMany_frame ids w d : d ∉ ids → docs (DeleteMany ids w).2 !! d = docs w !! d;
  AggregateSlots_returns u d ixs w : ∃ r, (AggregateSlots u d ixs w).1 = of_sum r;
  AggregateSlots_keeps u d ixs w : docs (AggregateSlots u d ixs w).2 = docs w;
  AggregateSlots_none u d ixs w l w' :
    AggregateSlots u d ixs w = (Ok l, w') → docs w !! d = None → l = [];
  AggregateSlots_ok u d ixs w l w' slots :
    AggregateSlots u d ixs w = (Ok l, w') → docs w !! d = Some slots →
    Forall (λ i, 0 ≤ i ∧ ∃ s, slots !! Z.to_nat i = Some (Some s)) ixs →
    l = [mkMsgDocModel d (mem_slot u slots <$> ixs)];
}.

(** ** The driver *)

Section Driver.
Context {W : Type} `{MsgCollection W}.

Definition Create (model : MsgDocModel) : M W () := InsertOne model.

Definition UpdateMsg (docID : string) (index : Z) (key : string) (value : bson) : M W Z :=
  wrap_error (UpdateOne docID (USet index key value)).

Definition PushUnique (docID : string) (index : Z) (key : string) (value : list string) : M W Z :=
  wrap_error (UpdateOne docID (UAddToSet index key value)).

Definition FindOneByDocID (docID : string) : M W MsgDocModel := FindOne docID.

Definition GetMsgDocModelByIndex (conversationID : string) (index sort : Z) : M W MsgDocModel :=
  _ ← guard (negb (sort =? 1) && negb (sort =? -1))
        (Wrap ErrArgs "mongo sort must be 1 or -1");
  msgs ← wrap_error (FindDocs conversationID index sort);
  match msgs with
  | m :: _ => mret m
  | [] => fail (Bare ErrMsgListNotExist)
  end.

(** The last slot that holds a message, from the back; a nil slot is
    dereferenced. *)
Fixpoint newest_slot (slots : list (option MsgInfoModel)) : M W (option MsgInfoModel) :=
  match slots with
  | [] => mret None
  | p :: slots' =>
      s ← deref p;
      if bool_decide (Info_Msg s ≠ None) then mret (Some s) else newest_slot slots'
  end.

Fixpoint GetNewestMsg_loop (fuel : nat) (conversationID : string) (skip : Z) : M W MsgInfoModel :=
  match fuel with
  | O => out_of_fuel
  | S fuel =>
      msgDocModel ← GetMsgDocModelByIndex conversationID skip (-1);
      found ← newest_slot (rev (Msg msgDocModel));
      match found with
      | Some s => mret s
      | None => GetNewestMsg_loop fuel conversationID (add64 skip 1)
      end
  end.
Definition GetNewestMsg (fuel : nat) (conversationID : string) : M W MsgInfoModel :=
  GetNewestMsg_loop fuel conversationID 0.

Fixpoint GetOldestMsg_loop (fuel : nat) (conversationID : string) (skip : Z) : M W MsgInfoModel :=
  match fuel with
  | O => out_of_fuel
  | S fuel =>
      msgDocModel ← GetMsgDocModelByIndex conversationID skip 1;
      found ← newest_slot (Msg msgDocModel);
      match found with
      | Some s => mret s
      | None => GetOldestMsg_loop fuel conversationID (add64 skip 1)
      end
  end.
Definition GetOldestMsg (fuel : nat) (conversationID : string) : M W MsgInfoModel :=
  GetOldestMsg_loop fuel conversationID 0.

Definition DeleteMsgsInOneDocByIndex (docID : string) (indexes : list Z) : M W () :=
  wrap_error (UpdateManyEmpty docID indexes).

(** A nil slice of ids deletes nothing. *)
Definition DeleteDocs (docIDs : list string) : M W () :=
  match docIDs with [] => mret () | _ => DeleteMany docIDs end.

Definition IsExistDocID (docID : string) : M W bool :=
  count ← wrap_error (CountDocuments docID);
  mret (0 <? count).
End Driver.

(** ** Reading slots

    [MessageRevokedContent] is the notification shown in place of a revoked
    message; the two JSON encoders are parameters. *)

Record MessageRevokedContent := mkMessageRevokedContent {
  MRC_RevokerID : string; MRC_RevokerRole : Z; MRC_ClientMsgID : string;
  MRC_RevokerNickname : string; MRC_RevokeTime : Z; MRC_SourceMessageSendTime : Z;
  MRC_SourceMessageSendID : string; MRC_SourceMessageSenderNickname : string;
  MRC_SessionType : Z; MRC_Seq : Z; MRC_Ex : string }.

Section ReadSlots.
Context {W : Type} `{MsgCollection W}.
Context (json_revoke : MessageRevokedContent → string + error).
Context (json_elem : string → string + error).

Definition set_DB_Content (contentType : Z) (content : string) (m : MsgDataModel) : MsgDataModel :=
  let '(mkMsgDataModel a1 a2 a3 a4 a5 a6 a7 a8 a9 b1 _ _ b4 b5 b6 b7 b8 b9 c1 c2 c3 c4 c5) := m in
  mkMsgDataModel a1 a2 a3 a4 a5 a6 a7 a8 a9 b1 contentType content b4 b5 b6 b7 b8 b9 c1 c2 c3 c4 c5.

(** One slot of the answer: an empty slot is skipped, a revoked message is
    replaced by the notification of its revocation. *)
Definition read_slot (acc : list MsgInfoModel) (p : option MsgInfoModel) :
    M W (list MsgInfoModel) :=
  match p with
  | None => mret acc
  | Some info =>
      match Info_Msg info with
      | None => mret acc
      | Some m =>
          match Info_Revoke info with
          | None => mret (acc ++ [info])
          | Some r =>
              data ← lift (json_revoke {|
                MRC_RevokerID := Revoke_UserID r; MRC_RevokerRole := Revoke_Role r;
                MRC_ClientMsgID := DB_ClientMsgID m; MRC_RevokerNickname := Revoke_Nickname r;
                MRC_RevokeTime := Revoke_Time r; MRC_SourceMessageSendTime := DB_SendTime m;
                MRC_SourceMessageSendID := DB_SendID m;
                MRC_SourceMessageSenderNickname := DB_SenderNickname m;
                MRC_SessionType := DB_SessionType m; MRC_Seq := DB_Seq m; MRC_Ex := DB_Ex m |});
              content ← lift (json_elem data);
              mret (acc ++ [Info_set_Msg
                (Some (set_DB_Content MsgRevokeNotification content m)) info])
          end
      end
  end.

Definition GetMsgBySeqIndexIn1Doc (userID docID : string) (seqs : list Z) :
    M W (list MsgInfoModel) :=
  let indexs := GetMsgIndex <$> seqs in
  msgDocModel ← wrap_error (AggregateSlots userID docID indexs);
  match msgDocModel with
  | [] => fail (Wrap MongoNoDocuments "")
  | doc :: _ => fold_each (Msg doc) [] read_slot
  end.

Definition Driver_MarkSingleChatMsgsAsRead (userID docID : string) (indexes : list Z) : M W () :=
  BulkMarkRead userID docID indexes.
End ReadSlots.

(** ** An in-memory collection *)

#[export] Instance mem_collection : MsgCollection mem_docs := {|
  docs w := w;
  UpdateOne d u w :=
    match w !! d with
    | None => (Ok 0, w)
    | Some l => (Ok 1, <[d := alter_slot (update_index u) (slot_update u) l]> w)
    end;
  InsertOne m w :=
    match w !! DocID m with
    | None => (Ok (), <[DocID m := Msg m]> w)
    | Some _ => (Err (Bare MongoDuplicateKey), w)
    end;
  FindDocs c skip sort w := (Ok (mem_find c skip sort w), w);
  UpdateManyEmpty d ixs w :=
    (Ok (), alter (empty_slots ixs) d w);
  DeleteMany ids w := (Ok (), foldl (λ w d, delete d w) w ids);
  CountDocuments d w := (Ok (match w !! d with Some _ => 1 | None => 0 end), w);
  FindOne d w :=
    match w !! d with
    | None => (Err (Bare MongoNoDocuments), w)
    | Some l => (Ok (mkMsgDocModel d l), w)
    end;
  AggregateSlots u d ixs w :=
    (Ok (match w !! d with
         | None => []
         | Some l => [mkMsgDocModel d (mem_slot u l <$> ixs)]
         end), w);
  BulkMarkRead u d ixs w :=
    (Ok (), alter (λ l, foldl (λ l i,
       alter_slot i (λ s, match Info_Msg s with
         | Some m => if bool_decide (DB_SendID m = u) then s else slot_set "is_read" (BBool true) s
         | None => slot_set "is_read" (BBool true) s
         end) l) l ixs) d w)
|}.

#[export] Instance mem_collection_laws : MsgCollectionLaws mem_docs.
Proof.
  split; cbn.
  - intros d u w. destruct (w !! d); eexists (inl _); reflexivity.
  - intros d u w n w' l Hu Hl s Hi Hs. rewrite Hl in Hu. injection Hu as <- <-.
    unfold alter_slot. rewrite Hs. split; [lia|done].
  - intros d u w n w' Hu Hd. rewrite Hd in Hu. by injection Hu as <- <-.
  - intros m w. destruct (w !! DocID m); [eexists (inr _)|eexists (inl _)]; reflexivity.
  - intros m w w' Hi. destruct (w !! DocID m) eqn:E; [done|]. by injection Hi as <-.
  - intros m w e w' Hi _. destruct (w !! DocID m) eqn:E; [|done]. injection Hi as _ <-. eauto.
  - intros c skip sort w. by eexists (inl _).
  - done.
  - intros c skip sort w l w' _ _ [=]. done.
  - intros d ixs w. by eexists (inl ()).
  - by intros d ixs w w' [=].
  - done.
  - intros ids w. by eexists (inl ()).
  - by intros ids w w' [=].
  - intros ids w d Hd. revert w. induction ids as [|d' ids IH]; intros w; [done|]. cbn in *.
    rewrite IH by set_solver. rewrite lookup_delete_ne by set_solver. done.
  - intros u d ixs w. by eexists (inl _).
  - done.
  - intros u d ixs w l w' [=<- <-] Hd. by rewrite Hd.
  - intros u d ixs w l w' slots [=<- <-] Hd _. by rewrite Hd.
Qed.
