(* ===== verification/MsgStore.v ===== *)
(** * Writing messages to the store (pkg/common/db/controller/msg.go, first part)

    [BatchInsertBlock] writes a run of messages, or of revocations, with
    consecutive sequence numbers: it updates the slots of documents that exist
    and creates the missing documents, retrying when a document appears between
    the two.  The file shows that it always ends, and that when it succeeds it
    is the update of a map from (conversation, sequence number) to slots. *)

From S2P Require Import Prelude.
From S2P Require Import Constants.
From S2P Require Import MsgTypes.
From S2P Require Import MsgProcessor.
From S2P Require Import MsgDoc.
From S2P Require Import MsgCollection.
From stdpp Require Import options.
#[local] Set Default Proof Using "Type*".

#[local] Open Scope Z_scope.

Definition updateKeyMsg : Z := 0.
Definition updateKeyRevoke : Z := 1.

(** An element of [fields []any]: a typed pointer, or a nil interface. *)
Inductive field := FMsg (m : option MsgDataModel) | FRevoke (r : option RevokeModel) | FNil.

(** [l[i] = v] on a slice: panics out of range. *)
Definition slice_set {W A} (i : Z) (v : A) (l : list A) : M W (list A) :=
  if (0 <=? i) && (i <? len l) then mret (<[Z.to_nat i := v]> l) else panic.

(** [l[i]] on a slice. *)
Definition slice_get {W A} (i : Z) (l : list A) : M W A :=
  if 0 <=? i then deref (l !! Z.to_nat i) else panic.

(** What the slot of a new document is for a field; a failed type assertion
    panics. *)
Definition field_slot {W} (key : Z) (f : field) : M W MsgInfoModel :=
  if key =? updateKeyMsg then
    match f with FMsg m => mret (mkMsgInfoModel m None None false) | _ => panic end
  else
    match f with FRevoke r => mret (mkMsgInfoModel None r None false) | _ => panic end.

Section Insert.
Context {W : Type} `{MsgCollection W}.
Context (conversationID : string) (fields : list field) (key : Z) (firstSeq : Z).

(** The check of the fields' types and sequence numbers. *)
Fixpoint check_fields (i : Z) (fs : list field) : M W () :=
  match fs with
  | [] => mret ()
  | f :: fs' =>
      ok ← (if key =? updateKeyMsg then
              match f with
              | FMsg (Some msg) =>
                  if negb (DB_Seq msg =? add64 firstSeq i)
                  then fail (Wrap ErrInternalServer "seq is invalid") else mret true
              | FMsg None => mret true
              | _ => mret false
              end
            else if key =? updateKeyRevoke then
              mret (match f with FRevoke _ => true | _ => false end)
            else fail (Wrap ErrInternalServer "key is invalid"));
      _ ← guard (negb ok) (Wrap ErrInternalServer "field type is invalid");
      check_fields (i + 1) fs'
  end.

Definition field_value (f : field) : bson :=
  match f with FMsg m => BMsg m | FRevoke r => BRevoke r | FNil => BEmptySlot end.

(** Whether the slot's document exists; its slot is updated then. *)
Definition updateMsgModel (seq : Z) (i : Z) : M W bool :=
  let docID := GetDocID conversationID seq in
  let index := GetMsgIndex seq in
  f ← slice_get i fields;
  matchedCount ←
    (if key =? updateKeyMsg then UpdateMsg docID index "msg" (field_value f)
     else UpdateMsg docID index "revoke" (field_value f));
  mret (0 <? matchedCount).

(** The slots of the new document and the number of fields it takes. *)
Fixpoint fill_doc (docID : string) (slots : list (option MsgInfoModel)) (insert : Z)
    (j : Z) (fs : list field) : M W (list (option MsgInfoModel) * Z) :=
  match fs with
  | [] => mret (slots, insert)
  | f :: fs' =>
      let seq := add64 firstSeq j in
      if negb (bool_decide (GetDocID conversationID seq = docID)) then mret (slots, insert)
      else
        s ← field_slot key f;
        slots' ← slice_set (GetMsgIndex seq) (Some s) slots;
        fill_doc docID slots' (insert + 1) (j + 1) fs'
  end.

Definition complete_slot (p : option MsgInfoModel) : option MsgInfoModel :=
  let model := default MsgInfoModel_zero p in
  Some (match Info_DelList model with
        | None => Info_set_DelList (Some []) model
        | Some _ => model
        end).

Fixpoint insert_loop (fuel : nat) (i : Z) (tryUpdate : bool) : M W () :=
  match fuel with
  | O => out_of_fuel
  | S fuel =>
      if i <? len fields then
        let seq := add64 firstSeq i in
        matched ← (if tryUpdate then updateMsgModel seq i else mret false);
        if matched : bool then insert_loop fuel (i + 1) tryUpdate
        else
          let docID := GetDocID conversationID seq in
          '(slots, insert) ← fill_doc docID (replicate (Z.to_nat GetSingleGocMsgNum) None) 0
                               i (drop (Z.to_nat i) fields);
          r ← try (Create (mkMsgDocModel docID (complete_slot <$> slots)));
          match r with
          | inr err =>
              if IsDuplicateKeyError err then insert_loop fuel i true else fail err
          | inl _ => insert_loop fuel (i + insert) false
          end
      else mret ()
  end.

(** At most two rounds per field. *)
Definition insert_fuel : nat := S (2 * length fields).

Definition BatchInsertBlock : M W () :=
  if bool_decide (fields = []) then mret ()
  else
    _ ← check_fields 0 fields;
    insert_loop insert_fuel 0 true.
End Insert.

(** ** The store as a map of slots *)

(** A slot nobody wrote. *)
Definition fresh_slot : MsgInfoModel := mkMsgInfoModel None None (Some []) false.

(** The slot of a (conversation, sequence number) pair; a missing document
    holds fresh slots. *)
Definition slot_view (D : mem_docs) (c : string) (s : Z) : MsgInfoModel :=
  match D !! GetDocID c s ≫= (.!! Z.to_nat (GetMsgIndex s)) with
  | Some (Some i) => i
  | _ => fresh_slot
  end.

(** Every document has all its slots, none of them nil. *)
Definition wf_docs (D : mem_docs) : Prop :=
  ∀ d l, D !! d = Some l → len l = singleGocMsgNum ∧ Forall is_Some l.

Definition field_apply (f : field) (i : MsgInfoModel) : MsgInfoModel :=
  match f with
  | FMsg m => Info_set_Msg m i
  | FRevoke r => Info_set_Revoke r i
  | FNil => i
  end.

(** The abstract operation: the fields from the [i]-th on are written to the
    slots of their sequence numbers, the rest of the store stays. *)
Definition write_fields (conversationID : string) (fields : list field) (firstSeq i : Z)
    (V : string → Z → MsgInfoModel) (c : string) (s : Z) : MsgInfoModel :=
  if decide (c = conversationID ∧ firstSeq + i ≤ s) then
    match fields !! Z.to_nat (s - firstSeq) with
    | Some f => field_apply f (V c s)
    | None => V c s
    end
  else V c s.

Lemma wf_slot D c s l :
  wf_docs D → valid_seq s → D !! GetDocID c s = Some l →
  ∃ x, l !! Z.to_nat (GetMsgIndex s) = Some (Some x).
Proof.
  intros Hwf Hs Hl. destruct (Hwf _ _ Hl) as [Hlen Hall].
  pose proof (GetMsgIndex_range s Hs). unfold len, singleGocMsgNum in *.
  destruct (lookup_lt_is_Some_2 l (Z.to_nat (GetMsgIndex s))) as [p Hp]; [lia|].
  rewrite Forall_lookup in Hall. destruct (Hall _ _ Hp) as [x ->]. eauto.
Qed.

Lemma wf_docs_insert D d l :
  wf_docs D → len l = singleGocMsgNum → Forall is_Some l → wf_docs (<[d := l]> D).
Proof.
  intros Hwf Hl Hall d' l' [[? <-]|[? ?]]%lookup_insert_Some; [done|by eapply Hwf].
Qed.

(** Changing one slot of an existing document changes that slot of the map. *)
Lemma slot_view_update D c s l x :
  wf_docs D → valid_seq s → D !! GetDocID c s = Some l → ∀ c' s', valid_seq s' →
  slot_view (<[GetDocID c s := <[Z.to_nat (GetMsgIndex s) := Some x]> l]> D) c' s' =
  if decide (c' = c ∧ s' = s) then x else slot_view D c' s'.
Proof.
  intros Hwf Hs Hl c' s' Hs'. unfold slot_view.
  pose proof (GetMsgIndex_range s Hs). pose proof (GetMsgIndex_range s' Hs').
  destruct (Hwf _ _ Hl) as [Hlen _]. unfold len in Hlen.
  destruct (decide (GetDocID c' s' = GetDocID c s)) as [Hd|Hd].
  - rewrite Hd, lookup_insert_eq, Hl. cbn.
    destruct (decide (GetMsgIndex s' = GetMsgIndex s)) as [Hi|Hi].
    + destruct (address_inj c' c s' s) as [-> ->]; [done..|].
      rewrite list_lookup_insert_eq by lia. by rewrite decide_True.
    + rewrite list_lookup_insert_ne by lia. rewrite decide_False; [done|].
      by intros [-> ->].
  - rewrite lookup_insert_ne by done. rewrite decide_False; [done|]. by intros [-> ->].
Qed.

(** The steps of the loop compose. *)
Lemma write_fields_step c0 fields q i n (V : string → Z → MsgInfoModel) V' c s :
  0 ≤ i → 0 ≤ n →
  V' c s = (if decide (c = c0 ∧ q + i ≤ s < q + i + n)
            then match fields !! Z.to_nat (s - q) with
                 | Some f => field_apply f (V c s) | None => V c s end
            else V c s) →
  write_fields c0 fields q (i + n) V' c s = write_fields c0 fields q i V c s.
Proof.
  intros Hi Hn HV. unfold write_fields.
  destruct (decide (c = c0 ∧ q + (i + n) ≤ s)) as [[-> ?]|?].
  - rewrite HV, decide_False by (intros [_ ?]; lia). by rewrite decide_True by (split; [done|lia]).
  - rewrite HV. destruct (decide (c = c0 ∧ q + i ≤ s < q + i + n)) as [[-> ?]|?].
    + by rewrite decide_True by (split; [done|lia]).
    + destruct (decide (c = c0 ∧ q + i ≤ s)) as [[-> ?]|?]; [|done].
      destruct (decide (q + i + n ≤ s)); naive_solver lia.
Qed.

(** ** The operations of the store, one by one *)

Definition is_pointer_to (key : Z) (f : field) : Prop :=
  (key = updateKeyMsg ∧ ∃ m, f = FMsg m) ∨ (key = updateKeyRevoke ∧ ∃ r, f = FRevoke r).

Definition typed_fields (key : Z) (fields : list field) : Prop := Forall (is_pointer_to key) fields.

Section InsertProofs.
Context {W : Type} `{MsgCollectionLaws W}.
Context (c : string) (fields : list field) (key q : Z).
Context (Htyped : typed_fields key fields).
Context (Hq : 1 ≤ q) (Hend : q + len fields ≤ 2 ^ 63).

Lemma seq_valid i : 0 ≤ i < len fields → add64 q i = q + i ∧ valid_seq (q + i).
Proof. intros ?. unfold valid_seq. split; [|lia]. i64. done. Qed.

Lemma field_at i : 0 ≤ i < len fields → ∃ f, fields !! Z.to_nat i = Some f ∧ is_pointer_to key f.
Proof.
  intros ?. unfold len in *. destruct (lookup_lt_is_Some_2 fields (Z.to_nat i)) as [f Hf]; [lia|].
  exists f. split; [done|]. unfold typed_fields in Htyped. rewrite Forall_lookup in Htyped. eauto.
Qed.

(** An update of one slot: the document matches and the slot changes, or
    there is no such document and nothing changes, or an error. *)
Lemma wp_update s k v w (Q : outcome Z → W → Prop) :
  wf_docs (docs w) → valid_seq s →
  (∀ n w' l x, docs w !! GetDocID c s = Some l →
     l !! Z.to_nat (GetMsgIndex s) = Some (Some x) → 0 < n →
     docs w' = <[GetDocID c s := <[Z.to_nat (GetMsgIndex s) := Some (slot_set k v x)]> l]> (docs w) →
     Q (Ok n) w') →
  (∀ w', docs w !! GetDocID c s = None → docs w' = docs w → Q (Ok 0) w') →
  (∀ e w', Q (Err e) w') →
  wp (UpdateMsg (GetDocID c s) (GetMsgIndex s) k v) Q w.
Proof.
  intros Hwf Hs Hm Hu He. apply wp_bind, wp_try, wp_eq.
  destruct (UpdateOne_returns (GetDocID c s) (USet (GetMsgIndex s) k v) w) as [[n|e] Hr];
    cbn in Hr; rewrite Hr; [|by apply He].
  apply wp_ret.
  assert (UpdateOne (GetDocID c s) (USet (GetMsgIndex s) k v) w =
    (Ok n, (UpdateOne (GetDocID c s) (USet (GetMsgIndex s) k v) w).2)) as HU
    by (by rewrite <-Hr, <-surjective_pairing).
  destruct (docs w !! GetDocID c s) as [l|] eqn:El.
  - destruct (wf_slot _ _ _ _ Hwf Hs El) as [x Hx].
    pose proof (GetMsgIndex_range s Hs) as [Hi _].
    destruct (UpdateOne_matched _ _ _ _ _ _ HU El x Hi Hx) as [Hn Hw'].
    by eapply Hm.
  - destruct (UpdateOne_unmatched _ _ _ _ _ HU El) as [-> ?]. by apply Hu.
Qed.

Lemma wp_create m w (Q : outcome (() + error) → W → Prop) :
  (∀ w', docs w !! DocID m = None → docs w' = <[DocID m := Msg m]> (docs w) →
     Q (Ok (inl ())) w') →
  (∀ e w', IsDuplicateKeyError e = true → is_Some (docs w !! DocID m) → docs w' = docs w →
     Q (Ok (inr e)) w') →
  (∀ e w', IsDuplicateKeyError e = false → Q (Ok (inr e)) w') →
  wp (try (Create m)) Q w.
Proof.
  intros Hok Hdup He. apply wp_try, wp_eq. unfold Create.
  destruct (InsertOne_returns m w) as [[[]|e] Hr]; rewrite Hr; cbn.
  - destruct (InsertOne_ok m w (InsertOne m w).2) as [??]; [|auto].
    rewrite (surjective_pairing (InsertOne m w)) at 1. by rewrite Hr.
  - destruct (IsDuplicateKeyError e) eqn:Ee; [|auto].
    destruct (InsertOne_dup m w e (InsertOne m w).2) as [??]; [|done|auto].
    rewrite (surjective_pairing (InsertOne m w)) at 1. by rewrite Hr.
Qed.

Lemma slot_set_field f x :
  is_pointer_to key f →
  (if key =? updateKeyMsg then slot_set "msg" (field_value f) x
   else slot_set "revoke" (field_value f) x) = field_apply f x.
Proof. by intros [[-> [m ->]]|[-> [r ->]]]. Qed.

(** One round in update mode. *)
Lemma wp_updateMsgModel i w (Q : outcome bool → W → Prop) :
  wf_docs (docs w) → 0 ≤ i < len fields →
  (∀ w', wf_docs (docs w') →
     (∀ c' s', valid_seq s' → slot_view (docs w') c' s' =
        if decide (c' = c ∧ q + i ≤ s' < q + i + 1)
        then match fields !! Z.to_nat (s' - q) with
             | Some f => field_apply f (slot_view (docs w) c' s') | None => slot_view (docs w) c' s' end
        else slot_view (docs w) c' s') → Q (Ok true) w') →
  (∀ w', docs w !! GetDocID c (q + i) = None → docs w' = docs w → Q (Ok false) w') →
  (∀ e w', Q (Err e) w') →
  wp (updateMsgModel c fields key (q + i) i) Q w.
Proof.
  intros Hwf Hi Ht Hf He. destruct (seq_valid i Hi) as [_ Hs].
  destruct (field_at i Hi) as [f [Hfi Hp]].
  unfold updateMsgModel, slice_get. rewrite (proj2 (Z.leb_le 0 i)) by lia.
  rewrite Hfi. cbn [deref]. apply wp_bind, wp_ret, wp_bind.
  assert (∀ n w' l x, docs w !! GetDocID c (q + i) = Some l →
     l !! Z.to_nat (GetMsgIndex (q + i)) = Some (Some x) → 0 < n →
     docs w' = <[GetDocID c (q + i) :=
       <[Z.to_nat (GetMsgIndex (q + i)) := Some (field_apply f x)]> l]> (docs w) →
     wp (mret (0 <? n)) Q w') as Hok.
  { intros n w' l x Hl Hx Hn Hw'. rewrite (proj2 (Z.ltb_lt 0 n)) by done.
    apply wp_ret, Ht.
    - rewrite Hw'. destruct (Hwf _ _ Hl) as [? Hall]. apply wf_docs_insert; [done|..].
      + unfold len. rewrite length_insert. done.
      + by apply Forall_insert.
    - intros c' s' Hs'. rewrite Hw', (slot_view_update _ _ _ l) by done.
      destruct (decide (c' = c ∧ s' = q + i)) as [[-> ->]|Hne].
      + rewrite decide_True by (split; [done|lia]).
        replace (q + i - q) with i by lia. rewrite Hfi.
        unfold slot_view. by rewrite Hl; cbn; rewrite Hx.
      + rewrite decide_False; [done|]. intros [-> ?]. apply Hne. split; [done|lia]. }
  assert (∀ x, (if key =? updateKeyMsg then slot_set "msg" (field_value f) x
    else slot_set "revoke" (field_value f) x) = field_apply f x) as Hset
    by (intros x; by apply slot_set_field).
  destruct (key =? updateKeyMsg); (apply wp_update; [done|done| | |done]).
  all: first [ intros n w' l x Hl Hx Hn Hw'; rewrite Hset in Hw'; by eapply Hok
             | intros w' Hn Hw'; by apply wp_ret, Hf ].
Qed.

(** A new document holds the fields of its block and fresh slots. *)
Definition slots_spec (d : string) (lo n : Z) (slots slots' : list (option MsgInfoModel)) : Prop :=
  ∀ s, valid_seq s → GetDocID c s = d →
    slots' !! Z.to_nat (GetMsgIndex s) =
    if decide (q + lo ≤ s < q + lo + n)
    then (λ f, Some (field_apply f MsgInfoModel_zero)) <$> fields !! Z.to_nat (s - q)
    else slots !! Z.to_nat (GetMsgIndex s).

Lemma field_slot_typed f : is_pointer_to key f →
  field_slot (W:=W) key f = mret (field_apply f MsgInfoModel_zero).
Proof. by intros [[-> [m ->]]|[-> [r ->]]]. Qed.

Lemma wp_fill_doc d j ins slots w (Q : outcome (list (option MsgInfoModel) * Z) → W → Prop) :
  0 ≤ j ≤ len fields → len slots = singleGocMsgNum →
  (∀ n slots', 0 ≤ n → j + n ≤ len fields → (j < len fields → GetDocID c (q + j) = d → 1 ≤ n) →
     (∀ k, j ≤ k < j + n → GetDocID c (q + k) = d) →
     len slots' = singleGocMsgNum → slots_spec d j n slots slots' → Q (Ok (slots', ins + n)) w) →
  wp (fill_doc c key q d slots ins j (drop (Z.to_nat j) fields)) Q w.
Proof.
  intros Hj Hlen HQ. remember (drop (Z.to_nat j) fields) as fs eqn:Hfs.
  revert j ins slots Hj Hlen HQ Hfs. induction fs as [|f fs IH]; intros j ins slots Hj Hlen HQ Hfs.
  - apply wp_ret. replace ins with (ins + 0) by lia. apply HQ; try lia; try done.
    + intros ?. exfalso. apply (f_equal length) in Hfs. rewrite length_drop in Hfs.
      unfold len in *. cbn in Hfs. lia.
    + intros s ??. by rewrite decide_False by lia.
  - assert (j < len fields) as Hj'.
    { apply (f_equal length) in Hfs. rewrite length_drop in Hfs. unfold len in *. cbn in Hfs. lia. }
    destruct (field_at j) as [f' [Hf' Hp]]; [lia|].
    rewrite (drop_S _ _ _ Hf') in Hfs. injection Hfs as -> Hfs.
    destruct (seq_valid j) as [Hadd Hv]; [lia|].
    cbn [fill_doc]. cbv zeta. rewrite Hadd.
    case_bool_decide as Hd; cbn [negb].
    2:{ apply wp_ret. replace ins with (ins + 0) by lia. apply HQ; try lia; try done.
        intros s ??. by rewrite decide_False by lia. }
    rewrite field_slot_typed by done. apply wp_bind, wp_ret.
    pose proof (GetMsgIndex_range _ Hv) as Hix.
    unfold slice_set. rewrite Hlen, (proj2 (Z.leb_le 0 _)), (proj2 (Z.ltb_lt _ singleGocMsgNum)) by lia.
    apply wp_bind, wp_ret. apply IH; [lia| |..].
    + unfold len in *. by rewrite length_insert.
    + intros n slots' Hn Hjn _ Hall Hl' Hspec.
      replace (ins + 1 + n) with (ins + (1 + n)) by lia. apply HQ; try lia; try done.
      * intros k ?. destruct (decide (k = j)) as [->|]; [done|]. apply Hall. lia.
      * intros s Hs Hsd. rewrite (Hspec s Hs Hsd).
        destruct (decide (s = q + j)) as [->|Hne].
        -- rewrite decide_False, decide_True by lia. replace (q + j - q) with j by lia.
           rewrite Hf', list_lookup_insert_eq by (unfold len in Hlen; lia). done.
        -- rewrite list_lookup_insert_ne.
           ++ destruct (decide (q + (j + 1) ≤ s < q + (j + 1) + n)), (decide (q + j ≤ s < q + j + (1 + n)));
                try lia; done.
           ++ intros Heq. apply Hne.
              pose proof (GetMsgIndex_range _ Hs).
              apply (address_inj c c); [done..|congruence|lia].
    + replace (Z.to_nat (j + 1)) with (S (Z.to_nat j)) by lia. done.
Qed.

Lemma complete_slot_length slots :
  len slots = singleGocMsgNum →
  len (complete_slot <$> slots) = singleGocMsgNum ∧ Forall is_Some (complete_slot <$> slots).
Proof.
  intros. unfold len. rewrite length_fmap. split; [done|].
  apply Forall_fmap, Forall_true. intros p. unfold compose, complete_slot. eauto.
Qed.

Lemma complete_slot_field f :
  is_pointer_to key f → complete_slot (Some (field_apply f MsgInfoModel_zero)) =
  Some (field_apply f fresh_slot).
Proof. by intros [[_ [m ->]]|[_ [r ->]]]. Qed.

(** Creating the missing document of a block writes the fields of the block. *)
Lemma slot_view_create (D : mem_docs) i n slots :
  0 ≤ i < len fields → i + n ≤ len fields → D !! GetDocID c (q + i) = None →
  (∀ k, i ≤ k < i + n → GetDocID c (q + k) = GetDocID c (q + i)) →
  slots_spec (GetDocID c (q + i)) i n (replicate (Z.to_nat GetSingleGocMsgNum) None) slots →
  ∀ c' s', valid_seq s' →
  slot_view (<[GetDocID c (q + i) := complete_slot <$> slots]> D) c' s' =
    if decide (c' = c ∧ q + i ≤ s' < q + i + n)
    then match fields !! Z.to_nat (s' - q) with
         | Some f => field_apply f (slot_view D c' s') | None => slot_view D c' s' end
    else slot_view D c' s'.
Proof.
  intros Hi Hn HD Hall Hspec c' s' Hs'. destruct (seq_valid i Hi) as [_ Hv].
  destruct (decide (GetDocID c' s' = GetDocID c (q + i))) as [Hd|Hd].
  - destruct (proj1 (GetDocID_eq c' c s' (q + i) Hs' Hv) Hd) as [-> _].
    assert (slot_view D c s' = fresh_slot) as Hfresh by (unfold slot_view; by rewrite Hd, HD).
    rewrite Hfresh. unfold slot_view. rewrite Hd, lookup_insert_eq. cbn.
    rewrite list_lookup_fmap, (Hspec s' Hs' Hd).
    destruct (decide (q + i ≤ s' < q + i + n)) as [Hin|Hout].
    + rewrite decide_True by done. destruct (field_at (s' - q)) as [f [-> Hp]]; [lia|].
      cbn [fmap option_fmap option_map]. by rewrite complete_slot_field.
    + rewrite decide_False by tauto. pose proof (GetMsgIndex_range _ Hs').
      rewrite lookup_replicate_2; [done|]. unfold GetSingleGocMsgNum. lia.
  - unfold slot_view. rewrite lookup_insert_ne by done.
    rewrite decide_False; [done|]. intros [-> ?]. apply Hd.
    replace s' with (q + (s' - q)) by lia. apply Hall. lia.
Qed.

(** One round in insert mode, followed by [k]. *)
Lemma wp_insert_round i (k : () + error → Z → M W ()) w (Q : outcome () → W → Prop) :
  wf_docs (docs w) → 0 ≤ i < len fields →
  (∀ n w', 1 ≤ n → i + n ≤ len fields → wf_docs (docs w') →
     (∀ c' s', valid_seq s' → slot_view (docs w') c' s' =
        if decide (c' = c ∧ q + i ≤ s' < q + i + n)
        then match fields !! Z.to_nat (s' - q) with
             | Some f => field_apply f (slot_view (docs w) c' s') | None => slot_view (docs w) c' s' end
        else slot_view (docs w) c' s') → wp (k (inl ()) n) Q w') →
  (∀ e n w', IsDuplicateKeyError e = true → is_Some (docs w !! GetDocID c (q + i)) →
     docs w' = docs w → wp (k (inr e) n) Q w') →
  (∀ e n w', IsDuplicateKeyError e = false → wp (k (inr e) n) Q w') →
  wp ('(slots, insert) ← fill_doc c key q (GetDocID c (q + i))
                           (replicate (Z.to_nat GetSingleGocMsgNum) None) 0 i (drop (Z.to_nat i) fields);
      r ← try (Create (mkMsgDocModel (GetDocID c (q + i)) (complete_slot <$> slots)));
      k r insert) Q w.
Proof.
  intros Hwf Hi Hok Hdup He. apply wp_bind, wp_fill_doc; [lia|by vm_compute|].
  intros n slots Hn Hin Hpos Hall Hlen Hspec. rewrite Z.add_0_l.
  specialize (Hpos (proj2 Hi) eq_refl). apply wp_bind, wp_create; cbn [DocID Msg].
  - intros w' HD Hw'. destruct (complete_slot_length slots Hlen).
    apply Hok; [done..| |].
    + rewrite Hw'. by apply wf_docs_insert.
    + rewrite Hw'. by eapply slot_view_create.
  - intros. by eapply Hdup.
  - intros. by eapply He.
Qed.

(** The loop ends within its fuel and writes the rest of the fields: a round
    in insert mode may have to be repeated, in update mode. *)
Lemma wp_insert_loop fuel i t w (Q : outcome () → W → Prop) :
  wf_docs (docs w) → 0 ≤ i ≤ len fields → 1 ≤ Z.of_nat fuel →
  2 * (len fields - i) + 1 ≤ Z.of_nat fuel + (if t : bool then 1 else 0) →
  (∀ w', wf_docs (docs w') →
     (∀ c' s', valid_seq s' → slot_view (docs w') c' s' =
        write_fields c fields q i (slot_view (docs w)) c' s') → Q (Ok ()) w') →
  (∀ e w', Q (Err e) w') →
  wp (insert_loop c fields key q fuel i t) Q w.
Proof.
  revert i t w. induction fuel as [|fuel IH]; intros i t w Hwf Hi Hf1 Hf Hok He; [lia|].
  cbn [insert_loop]. destruct (i <? len fields) eqn:Hlt.
  2:{ apply wp_ret, Hok; [done|]. intros c' s' _. unfold write_fields.
      destruct (decide _) as [[-> ?]|]; [|done].
      rewrite lookup_ge_None_2; [done|]. unfold len in *. lia. }
  apply Z.ltb_lt in Hlt. destruct (seq_valid i) as [Hadd _]; [lia|].
  cbv zeta. rewrite Hadd.
  (* the steps that remain after [n] fields are written *)
  assert (∀ n t' w', 1 ≤ n → i + n ≤ len fields → wf_docs (docs w') →
    (∀ c' s', valid_seq s' → slot_view (docs w') c' s' =
        if decide (c' = c ∧ q + i ≤ s' < q + i + n)
        then match fields !! Z.to_nat (s' - q) with
             | Some f => field_apply f (slot_view (docs w) c' s') | None => slot_view (docs w) c' s' end
        else slot_view (docs w) c' s') →
    wp (insert_loop c fields key q fuel (i + n) t') Q w') as Hnext.
  { intros n t' w' Hn Hin Hwf' HV. apply IH; [done|lia|destruct t, t'; lia|destruct t, t'; lia| |done].
    intros w'' ? HV'. apply Hok; [done|]. intros c' s' Hs'. rewrite HV' by done.
    apply write_fields_step; [lia..|]. auto. }
  assert (∀ w', wf_docs (docs w') → docs w' = docs w → t = false ∨ docs w !! GetDocID c (q + i) = None →
    wp ('(slots, insert) ← fill_doc c key q (GetDocID c (q + i))
          (replicate (Z.to_nat GetSingleGocMsgNum) None) 0 i (drop (Z.to_nat i) fields);
        r ← try (Create (mkMsgDocModel (GetDocID c (q + i)) (complete_slot <$> slots)));
        match r with
        | inr err => if IsDuplicateKeyError err then insert_loop c fields key q fuel i true else fail err
        | inl _ => insert_loop c fields key q fuel (i + insert) false
        end) Q w') as Hins.
  { intros w' Hwf' Hw' Hmode.
    apply (wp_insert_round i (λ r insert, match r with
        | inr err => if IsDuplicateKeyError err then insert_loop c fields key q fuel i true else fail err
        | inl _ => insert_loop c fields key q fuel (i + insert) false
        end)); [done|lia| |..].
    - rewrite Hw'. eauto.
    - intros e n w'' -> [l Hl] Hw''. rewrite Hw' in Hl. destruct Hmode as [->|Hnone]; [|congruence].
      rewrite Hw', <-?Hw' in Hw''. apply IH; [by rewrite Hw''|lia|lia|lia| |done].
      by rewrite Hw'', Hw'.
    - intros e n w'' ->. by apply wp_fail. }
  apply wp_bind. destruct t.
  - apply wp_updateMsgModel; [done|lia| | |done].
    + intros w' ? ?. apply (Hnext 1); [lia..|done|done].
    + intros w' Hn Hw'. apply Hins; [by rewrite Hw'|done|by right].
  - apply wp_ret, Hins; auto.
Qed.
End InsertProofs.

(** The fields that pass the check have the right types, and messages the right
    sequence numbers. *)
Definition numbered_fields (key q i : Z) (fs : list field) : Prop :=
  key = updateKeyMsg → ∀ j m, fs !! j = Some (FMsg (Some m)) → DB_Seq m = add64 q (i + Z.of_nat j).

Lemma numbered_fields_cons key q i f fs :
  (∀ m, f = FMsg (Some m) → DB_Seq m = add64 q i) → numbered_fields key q (i + 1) fs →
  numbered_fields key q i (f :: fs).
Proof.
  intros Hf Hfs Hk [|j] m Hj; cbn in Hj.
  - injection Hj as ->. rewrite Z.add_0_r. by apply Hf.
  - rewrite (Hfs Hk j m Hj). f_equal. lia.
Qed.

Lemma wp_check_fields {W} key q i fs w (Q : outcome () → W → Prop) :
  (typed_fields key fs → numbered_fields key q i fs → Q (Ok ()) w) →
  (∀ e, Q (Err e) w) →
  wp (check_fields key q i fs) Q w.
Proof.
  intros Hok He. revert i Hok. induction fs as [|f fs IH]; intros i Hok; cbn [check_fields].
  - apply wp_ret, Hok; [constructor|]. intros _ j m. by rewrite lookup_nil.
  - apply wp_bind. unfold updateKeyMsg, updateKeyRevoke.
    destruct (key =? 0) eqn:E0; [|destruct (key =? 1) eqn:E1; [|by apply wp_fail]].
    + apply Z.eqb_eq in E0.
      assert (∀ m, f = FMsg m → (∀ m', m = Some m' → DB_Seq m' = add64 q i) →
        wp (check_fields (W:=W) key q (i + 1) fs) Q w) as Hm.
      { intros m Hf Hn. apply IH. intros ??. apply Hok.
        - constructor; [|done]. left. eauto.
        - apply numbered_fields_cons; [|done]. intros m' ->. injection Hf as <-. by apply Hn. }
      destruct f as [[m|]|r|]; wp_run; eauto; try discriminate; (eapply Hm; [done|]);
        intros ? [=]; subst.
      by apply Z.eqb_eq, negb_false_iff.
    + apply Z.eqb_eq in E1. apply wp_ret.
      destruct f; wp_run; eauto; try discriminate.
      apply IH. intros ??. apply Hok.
      * constructor; [|done]. right. eauto.
      * apply numbered_fields_cons; [|done]. done.
Qed.

(** C1: writing a block of fields from sequence number [firstSeq] on
    always ends with success or an error, never panics; and when it succeeds
    every field is in the slot of its sequence number, no other slot of any
    conversation has changed, and the documents stay well formed. *)
Theorem BatchInsertBlock_refines {W} `{MsgCollectionLaws W} c fields key firstSeq w :
  wf_docs (docs w) → 1 ≤ firstSeq → firstSeq + len fields ≤ 2 ^ 63 →
  let '(r, w') := BatchInsertBlock c fields key firstSeq w in
  match r with
  | Ok _ => wf_docs (docs w') ∧ ∀ c' s', valid_seq s' →
      slot_view (docs w') c' s' = write_fields c fields firstSeq 0 (slot_view (docs w)) c' s'
  | Err _ => True
  | Panic | OutOfFuel => False
  end.
Proof.
  intros Hwf Hq Hend.
  change (wp (BatchInsertBlock c fields key firstSeq) (λ r w', match r with
  | Ok _ => wf_docs (docs w') ∧ ∀ c' s', valid_seq s' →
      slot_view (docs w') c' s' = write_fields c fields firstSeq 0 (slot_view (docs w)) c' s'
  | Err _ => True
  | Panic | OutOfFuel => False
  end) w).
  unfold BatchInsertBlock. case_bool_decide as Hnil.
  - apply wp_ret. subst. split; [done|]. intros c' s' _. unfold write_fields.
    by destruct (decide _).
  - apply wp_bind, wp_check_fields; [|done]. intros Htyped _.
    apply wp_insert_loop; try done; unfold insert_fuel, len in *; lia || auto.
Qed.

(** ** Chat messages and revocations *)

(** The row that [BatchInsertChat2DB] builds for a message. *)
Definition chat_model (msg : MsgData) : MsgDataModel :=
  {| DB_SendID := SendID msg; DB_RecvID := RecvID msg; DB_GroupID := GroupID msg;
     DB_ClientMsgID := ClientMsgID msg; DB_ServerMsgID := ServerMsgID msg;
     DB_SenderPlatformID := SenderPlatformID msg; DB_SenderNickname := SenderNickname msg;
     DB_SenderFaceURL := SenderFaceURL msg; DB_SessionType := SessionType msg;
     DB_MsgFrom := MsgFrom msg; DB_ContentType := ContentType msg; DB_Content := Content msg;
     DB_Seq := Seq msg; DB_SendTime := SendTime msg; DB_CreateTime := CreateTime msg;
     DB_Status := Status msg; DB_IsRead := false; DB_Options := Options msg;
     DB_OfflinePush := OfflinePushPb2DB <$> OfflinePush msg;
     DB_AtUserIDList := AtUserIDList msg; DB_AttachedInfo := AttachedInfo msg;
     DB_Ex := Ex msg; DB_KeyVersion := KeyVersion msg |}.

Definition chat_field (msg : option MsgData) : field :=
  match msg with None => FNil | Some m => FMsg (Some (chat_model m)) end.

Section Chat.
Context {W : Type} `{MsgCollection W}.

Definition BatchInsertChat2DB (conversationID : string) (msgList : list (option MsgData))
    (currentMaxSeq : Z) : M W () :=
  match msgList with
  | [] => fail (Wrap ErrArgs "msgList is empty")
  | msg0 :: _ =>
      m0 ← deref msg0;
      BatchInsertBlock conversationID (chat_field <$> msgList) updateKeyMsg (Seq m0)
  end.

Definition RevokeMsg (conversationID : string) (seq : Z) (revoke : option RevokeModel) : M W () :=
  BatchInsertBlock conversationID [FRevoke revoke] updateKeyRevoke seq.
End Chat.

(** What a reader gets of a message written by [BatchInsertChat2DB]: the read
    flag and the signalling blob of the push are not kept. *)
Definition erase_read_signal (m : MsgData) : MsgData :=
  let '(mkMsgData a1 a2 a3 a4 a5 a6 a7 a8 a9 b1 b2 b3 b4 b5 b6 b7 _ b9 c1 c2 c3 c4 c5) := m in
  mkMsgData a1 a2 a3 a4 a5 a6 a7 a8 a9 b1 b2 b3 b4 b5 b6 b7 false b9
    ((λ p, mkOfflinePushInfo (Title p) (Desc p) (PushEx p) (IOSPushSound p) (IOSBadgeCount p) "")
       <$> c1) c2 c3 c4 c5.

Lemma chat_model_roundtrip m : MsgDB2Pb (Some (chat_model m)) = Some (erase_read_signal m).
Proof.
  destruct m as [? ? ? ? ? ? ? ? ? ? ? ? ? ? ? ? ? ? push]; cbn.
  case_bool_decide; by destruct push as [[]|].
Qed.

Lemma BatchInsertBlock_wp {W} `{MsgCollectionLaws W} c fields key firstSeq w
    (Q : outcome () → W → Prop) :
  wf_docs (docs w) → 1 ≤ firstSeq → firstSeq + len fields ≤ 2 ^ 63 →
  (∀ w', typed_fields key fields → numbered_fields key firstSeq 0 fields →
     wf_docs (docs w') → (∀ c' s', valid_seq s' →
       slot_view (docs w') c' s' = write_fields c fields firstSeq 0 (slot_view (docs w)) c' s') →
     Q (Ok ()) w') →
  (∀ e w', Q (Err e) w') →
  fields ≠ [] → wp (BatchInsertBlock c fields key firstSeq) Q w.
Proof.
  intros Hwf Hq Hend Hok He Hne. unfold BatchInsertBlock. rewrite bool_decide_eq_false_2 by done.
  apply wp_bind, wp_check_fields; [|done]. intros Htyped Hnum.
  apply wp_insert_loop; try done; unfold insert_fuel, len in *; lia || auto.
Qed.

(** Every message of the batch can be read back. *)
Definition readable {W} `{MsgCollection W} (c : string) (msgs : list MsgData) (w : W) : Prop :=
  ∀ m, m ∈ msgs → MsgDB2Pb (Info_Msg (slot_view (docs w) c (Seq m))) = Some (erase_read_signal m).

Lemma wp_BatchInsertChat2DB {W} `{MsgCollectionLaws W} c m0 msgs maxSeq w
    (Q : outcome () → W → Prop) :
  wf_docs (docs w) → 1 ≤ Seq m0 → Seq m0 + len (m0 :: msgs) ≤ 2 ^ 63 →
  (∀ w', wf_docs (docs w') → readable c (m0 :: msgs) w' → Q (Ok ()) w') →
  (∀ e w', Q (Err e) w') →
  wp (BatchInsertChat2DB c (Some <$> m0 :: msgs) maxSeq) Q w.
Proof.
  intros Hwf Hq Hend Hok He. unfold BatchInsertChat2DB. apply wp_bind, wp_ret.
  set (fields := chat_field <$> (Some <$> m0 :: msgs)).
  assert (len fields = len (m0 :: msgs)) as Hlen by (unfold len, fields; by rewrite !length_fmap).
  apply BatchInsertBlock_wp; [done|done|lia| |done|done].
  intros w' _ Hnum Hwf' HV. apply Hok; [done|]. intros m [j Hj]%list_elem_of_lookup.
  assert (fields !! j = Some (FMsg (Some (chat_model m)))) as Hfj.
  { unfold fields. by rewrite !list_lookup_fmap, Hj. }
  assert (Z.of_nat j < len fields) as Hjl.
  { unfold len. pose proof (lookup_lt_Some _ _ _ Hfj). lia. }
  pose proof (Hnum eq_refl j _ Hfj) as Hseq. cbn in Hseq.
  rewrite Z.add_0_l, add64_id in Hseq by (unfold int64; lia).
  rewrite HV by (unfold valid_seq; lia). unfold write_fields.
  rewrite decide_True by (split; [done|lia]). rewrite Hseq.
  replace (Z.to_nat (Seq m0 + Z.of_nat j - Seq m0)) with j by lia. rewrite Hfj. cbn [field_apply].
  apply chat_model_roundtrip.
Qed.

(** C38: a batch of messages that [BatchInsertChat2DB] stores
    can be read back: each message is in the slot of its own sequence number,
    and [MsgDB2Pb] returns it but for its read flag and its push's signalling
    blob. *)
Theorem BatchInsertChat2DB_stores {W} `{MsgCollectionLaws W} c m0 msgs maxSeq w :
  wf_docs (docs w) → 1 ≤ Seq m0 → Seq m0 + len (m0 :: msgs) ≤ 2 ^ 63 →
  let '(r, w') := BatchInsertChat2DB c (Some <$> m0 :: msgs) maxSeq w in
  match r with
  | Ok _ => readable c (m0 :: msgs) w'
  | Err _ => True
  | Panic | OutOfFuel => False
  end.
Proof.
  intros Hwf Hq Hend.
  change (wp (BatchInsertChat2DB c (Some <$> m0 :: msgs) maxSeq) (λ r w', match r with
  | Ok _ => readable c (m0 :: msgs) w'
  | Err _ => True
  | Panic | OutOfFuel => False
  end) w).
  by apply wp_BatchInsertChat2DB.
Qed.

(** A revocation that succeeds marks the slot of its sequence number
    with the revocation and changes no other slot of any conversation. *)
Theorem RevokeMsg_slot {W} `{MsgCollectionLaws W} c seq revoke w :
  wf_docs (docs w) → valid_seq seq → 
  let '(r, w') := RevokeMsg c seq revoke w in
  match r with
  | Ok _ => ∀ c' s', valid_seq s' → slot_view (docs w') c' s' =
      if decide (c' = c ∧ s' = seq) then Info_set_Revoke revoke (slot_view (docs w) c' s')
      else slot_view (docs w) c' s'
  | Err _ => True
  | Panic | OutOfFuel => False
  end.
Proof.
  intros Hwf [??].
  change (wp (RevokeMsg c seq revoke) (λ r w', match r with
  | Ok _ => ∀ c' s', valid_seq s' → slot_view (docs w') c' s' =
      if decide (c' = c ∧ s' = seq) then Info_set_Revoke revoke (slot_view (docs w) c' s')
      else slot_view (docs w) c' s'
  | Err _ => True
  | Panic | OutOfFuel => False
  end) w).
  apply BatchInsertBlock_wp; [done|done|unfold len; cbn; lia| |done|done].
  intros w' _ _ _ HV c' s' Hs'. rewrite HV by done. unfold write_fields.
  destruct (decide (c' = c ∧ s' = seq)) as [[-> ->]|Hne].
  - rewrite decide_True by (split; [done|lia]). by rewrite Z.sub_diag.
  - destruct (decide (c' = c ∧ seq + 0 ≤ s')) as [[-> ?]|]; [|done].
    rewrite lookup_ge_None_2; [done|]. cbn. assert (s' ≠ seq) by naive_solver. lia.
Qed.

(** ** The hypotheses at work: an empty store *)

Lemma wf_docs_empty : wf_docs ∅.
Proof. intros d l. by rewrite lookup_empty. Qed.

Lemma BatchInsertBlock_refines_witness :
  let '(r, w') := BatchInsertBlock "si_a_b" [FRevoke None; FRevoke None] updateKeyRevoke 100
                    (∅ : mem_docs) in
  match r with
  | Ok _ => wf_docs (docs w') ∧ ∀ c' s', valid_seq s' → slot_view (docs w') c' s' =
      write_fields "si_a_b" [FRevoke None; FRevoke None] 100 0 (slot_view (docs (∅ : mem_docs))) c' s'
  | Err _ => True
  | Panic | OutOfFuel => False
  end.
Proof.
  apply BatchInsertBlock_refines; [apply wf_docs_empty|lia|].
  unfold len. cbn. lia.
Defined.

Lemma BatchInsertChat2DB_stores_witness :
  let '(r, w') := BatchInsertChat2DB "si_a_b" (Some <$> [set_Seq 7 MsgData_zero]) 6 (∅ : mem_docs) in
  match r with
  | Ok _ => readable "si_a_b" [set_Seq 7 MsgData_zero] w'
  | Err _ => True
  | Panic | OutOfFuel => False
  end.
Proof.
  apply BatchInsertChat2DB_stores; [apply wf_docs_empty|cbn; lia|]. unfold len. cbn. lia.
Defined.

Lemma RevokeMsg_slot_witness :
  let '(r, w') := RevokeMsg "si_a_b" 3 None (∅ : mem_docs) in
  match r with
  | Ok _ => ∀ c' s', valid_seq s' → slot_view (docs w') c' s' =
      if decide (c' = "si_a_b" ∧ s' = 3)
      then Info_set_Revoke None (slot_view (docs (∅ : mem_docs)) c' s')
      else slot_view (docs (∅ : mem_docs)) c' s'
  | Err _ => True
  | Panic | OutOfFuel => False
  end.
Proof. apply RevokeMsg_slot; [apply wf_docs_empty|unfold valid_seq; lia]. Defined.
