(* ===== verification/Tools.v ===== *)
(** * The shared tool library and Go's map iteration

    The functions of the module github.com/OpenIMSDK/tools that the server
    calls are the fields of [Tools]; what the code relies on is stated by
    [ToolsLaws].  [MapRange] is the order in which a [for range] loop visits a
    map: any order.  The file also has the decimal numbers the cache stores. *)

From Stdlib Require Import Ascii.
From S2P Require Import Prelude.
From S2P Require Import Constants.
From S2P Require Import MsgTypes.
From S2P Require Import MsgProcessor.
From S2P Require Import MsgDoc.
From stdpp Require Import options.

#[local] Open Scope Z_scope.

(** ** Reading decimal numbers *)

Definition digit_value (c : ascii) : option Z :=
  let n := Z.of_nat (nat_of_ascii c) in
  if (48 <=? n) && (n <=? 57) then Some (n - 48) else None.

Fixpoint digits_value (acc : Z) (s : string) : option Z :=
  match s with
  | EmptyString => Some acc
  | String c s' => d ← digit_value c; digits_value (10 * acc + d) s'
  end.

(** [strconv.ParseInt(s, 10, 64)], [None] for a syntax or range error. *)
Definition ParseInt (s : string) : option Z :=
  v ← match s with
      | EmptyString => None
      | String "-" EmptyString | String "+" EmptyString => None
      | String "-" s' => Z.opp <$> digits_value 0 s'
      | String "+" s' => digits_value 0 s'
      | _ => digits_value 0 s
      end;
  if bool_decide (- 2 ^ 63 ≤ v < 2 ^ 63) then Some v else None.

Lemma digits_value_pretty_go n s acc :
  ∃ k, 0 < k ∧ digits_value acc (pretty_N_go n s) = digits_value (k * acc + Z.of_N n) s.
Proof.
  revert s. induction (N.lt_wf_0 n) as [n _ IH]; intros s.
  destruct (decide (n = 0)%N) as [->|Hn].
  - exists 1. rewrite pretty_N_go_0. split; [lia|]. f_equal. lia.
  - rewrite pretty_N_go_step by lia.
    destruct (IH (n `div` 10)%N) with (s := String (pretty_N_char (n `mod` 10)) s) as [k [Hk ->]];
      [apply N.div_lt; lia|].
    exists (10 * k). split; [lia|]. cbn [digits_value].
    assert (digit_value (pretty_N_char (n `mod` 10)) = Some (Z.of_N (n `mod` 10)%N)) as ->.
    { pose proof (N.mod_lt n 10). generalize dependent (n `mod` 10)%N. intros m Hm.
      assert (m = 0 ∨ m = 1 ∨ m = 2 ∨ m = 3 ∨ m = 4 ∨ m = 5 ∨ m = 6 ∨ m = 7 ∨ m = 8 ∨ m = 9)%N
        as Hc by lia.
      by repeat destruct Hc as [->|Hc]; [..|subst]. }
    cbn. f_equal. pose proof (N.div_mod n 10). lia.
Qed.

Lemma pretty_N_head n : ∃ c s, pretty (n : N) = String c s ∧ digit_value c ≠ None.
Proof.
  assert (∀ n s, (0 < n)%N ∨ (∃ c s', s = String c s' ∧ digit_value c ≠ None) →
    ∃ c s', pretty_N_go n s = String c s' ∧ digit_value c ≠ None) as Hgo.
  { clear n. intros n. induction (N.lt_wf_0 n) as [n _ IH]. intros s Hs.
    destruct (decide (n = 0)%N) as [->|Hn].
    - rewrite pretty_N_go_0. destruct Hs as [?|?]; [lia|done].
    - rewrite pretty_N_go_step by lia. apply IH; [apply N.div_lt; lia|].
      right. do 2 eexists. split; [done|].
      unfold pretty_N_char. by repeat case_match. }
  unfold pretty, pretty_N. case_decide.
  - exists "0"%char, "". by split.
  - apply Hgo. left. lia.
Qed.

Lemma digits_value_pretty (n : N) : digits_value 0 (pretty n) = Some (Z.of_N n).
Proof.
  unfold pretty, pretty_N. case_decide as H; [by subst|].
  destruct (digits_value_pretty_go n "" 0) as [k [_ ->]]. cbn. f_equal. lia.
Qed.

(** What [FormatInt] prints, [ParseInt] reads. *)
Lemma ParseInt_FormatInt z : int64 z → ParseInt (FormatInt z) = Some z.
Proof.
  intros Hz. unfold ParseInt, FormatInt.
  assert (∀ n : N, match pretty n with
      | EmptyString => None
      | String "-" EmptyString | String "+" EmptyString => None
      | String "-" s' => Z.opp <$> digits_value 0 s'
      | String "+" s' => digits_value 0 s'
      | _ => digits_value 0 (pretty n) end = Some (Z.of_N n)) as HN.
  { intros n. pose proof (digits_value_pretty n) as Hd.
    destruct (pretty_N_head n) as (c & s & Hp & Hc). rewrite Hp in *.
    destruct c as [[] [] [] [] [] [] [] []]; try exact Hd; by exfalso. }
  assert (∀ v, v = Some z → (w ← v; if bool_decide (- 2 ^ 63 ≤ w < 2 ^ 63) then Some w else None) = Some z) as Hr.
  { intros v ->. cbn [mbind option_bind]. by rewrite bool_decide_eq_true_2. }
  apply Hr. destruct z as [|p|p].
  - done.
  - exact (HN (N.pos p)).
  - change (pretty (Z.neg p)) with (String "-"%char (pretty (N.pos p))).
    pose proof (digits_value_pretty (N.pos p)) as Hd.
    destruct (pretty_N_head (N.pos p)) as (c & s & Hp & Hc). rewrite Hp in *. cbn [fmap].
    by rewrite Hd.
Qed.

(** ** Reading hexadecimal numbers *)

(** Eight hexadecimal digits, [bi.SetString(id[0:8], 16)]. *)
Definition hex_digit (c : ascii) : N :=
  let n := N_of_ascii c in
  if N.leb n 57 then (n - 48)%N else if N.leb n 70 then (n - 55)%N else (n - 87)%N.
Fixpoint hex_value (acc : N) (digits : nat) (s : string) : option N :=
  match digits, s with
  | O, _ => Some acc
  | S n, String c s' => hex_value (16 * acc + hex_digit c)%N n s'
  | S _, EmptyString => None
  end.

(** ** The tool library *)

Class Tools := {
  (** [utils.Contain(e, es...)], [utils.IsContain] *)
  Contain : ∀ {A} `{EqDecision A}, A → list A → bool;
  (** [utils.Distinct]: the elements without repetitions *)
  Distinct : ∀ {A} `{EqDecision A}, list A → list A;
  (** [utils.Duplicate], [utils.IsDuplicateStringSlice]: whether some element is repeated *)
  Duplicate : ∀ {A} `{EqDecision A}, list A → bool;
  (** [utils.StringToInt64], [utils.StringToInt]: 0 on a syntax error *)
  StringToInt64 : string → Z;
  StringToInt : string → Z;
}.

Class ToolsLaws `{Tools} : Prop := {
  Contain_spec {A} `{EqDecision A} (x : A) l : Contain x l = bool_decide (x ∈ l);
  Distinct_elem {A} `{EqDecision A} (x : A) l : x ∈ Distinct l ↔ x ∈ l;
  Distinct_NoDup {A} `{EqDecision A} (l : list A) : NoDup (Distinct l);
  Duplicate_spec {A} `{EqDecision A} (l : list A) : Duplicate l = bool_decide (¬ NoDup l);
  StringToInt64_Format z : int64 z → StringToInt64 (FormatInt z) = z;
  StringToInt_Format z : int64 z → StringToInt (FormatInt z) = z;
  StringToInt64_empty : StringToInt64 "" = 0;
}.

(** The functions as the laws describe them. *)
Definition model_tools : Tools := {|
  Contain A _ x l := bool_decide (x ∈ l);
  Distinct A _ l := remove_dups l;
  Duplicate A _ l := bool_decide (¬ NoDup l);
  StringToInt64 s := default 0 (ParseInt s);
  StringToInt s := default 0 (ParseInt s);
|}.

Lemma model_tools_laws : @ToolsLaws model_tools.
Proof.
  split; try done; cbn; intros.
  - by rewrite elem_of_remove_dups.
  - apply NoDup_remove_dups.
  - by rewrite ParseInt_FormatInt.
  - by rewrite ParseInt_FormatInt.
Qed.

(** ** [for range] over a map *)

Class MapRange := {
  range : ∀ {A}, gmap string A → list (string * A);
  range_perm : ∀ {A} (m : gmap string A), range m ≡ₚ map_to_list m;
}.

Lemma range_lookup `{MapRange} {A} (m : gmap string A) k v : (k, v) ∈ range m ↔ m !! k = Some v.
Proof. by rewrite range_perm, elem_of_map_to_list. Qed.

Lemma range_NoDup `{MapRange} {A} (m : gmap string A) : NoDup (range m).*1.
Proof. rewrite range_perm. apply NoDup_fst_map_to_list. Qed.

Definition map_order : MapRange := {| range A m := map_to_list m; range_perm A m := reflexivity _ |}.

(** ** Functions of the tool library on messages, options and string sets *)

Class MsgTools := {
  (** [utils.SetSwitchFromOptions(options, key, value)]: the caller's map afterwards. *)
  SetSwitchFromOptions : string → bool → option (gmap string bool) → option (gmap string bool);
  (** [utils.DifferenceString], [utils.Single]: the elements of one list only. *)
  DifferenceString : list string → list string → list string;
  Single : list string → list string → list string;
  (** The ids of [utils] for messages and conversations. *)
  GenConversationUniqueKeyForSingle : string → string → string;
  GenConversationUniqueKeyForGroup : string → string;
  GenConversationIDForSingle : string → string → string;
  utils_GetNotificationConversationIDByConversationID : string → string;
  GetSelfNotificationConversationID : string → string;
  utils_GetMsgID : string → string;
  Md5 : string → string;
  (** [utils.NotNilReplace(old, new)]: the pointer [old] with what it points to
      afterwards; [None]: it panics. *)
  NotNilReplace : ∀ {A}, option A → option A → option (option A);
}.

Class MsgToolsLaws `{MsgTools} : Prop := {
  SetSwitch_some k b o : SetSwitchFromOptions k b (Some o) = Some (<[k := b]> o);
  (** A function cannot put a map in place of the caller's nil. *)
  SetSwitch_nil k b : SetSwitchFromOptions k b None = None;
  DifferenceString_elem x l l' : x ∈ DifferenceString l l' ↔ (x ∈ l ∧ x ∉ l') ∨ (x ∈ l' ∧ x ∉ l);
  NotNilReplace_nil {A} (old : option A) : NotNilReplace old None = Some old;
  NotNilReplace_some {A} (a b : A) : NotNilReplace (Some a) (Some b) = Some (Some b);
  Single_elem x l l' : x ∈ Single l l' ↔ (x ∈ l ∧ x ∉ l') ∨ (x ∈ l' ∧ x ∉ l);
}.

Definition symmetric_difference (l l' : list string) : list string :=
  filter (.∉ l') l ++ filter (.∉ l) l'.

Definition model_msg_tools : MsgTools := {|
  SetSwitchFromOptions k b o := <[k := b]> <$> o;
  DifferenceString := symmetric_difference;
  Single := symmetric_difference;
  GenConversationUniqueKeyForSingle a b := "single_" +:+ a +:+ "_" +:+ b;
  GenConversationUniqueKeyForGroup g := "group_" +:+ g;
  GenConversationIDForSingle a b := "si_" +:+ a +:+ "_" +:+ b;
  utils_GetNotificationConversationIDByConversationID c := "n_" +:+ c;
  GetSelfNotificationConversationID u := "n_" +:+ u +:+ "_" +:+ u;
  utils_GetMsgID s := s;
  Md5 s := s;
  NotNilReplace A old new :=
    match new, old with
    | None, _ => Some old
    | Some b, Some _ => Some (Some b)
    | Some _, None => None
    end;
|}.

Lemma elem_of_symmetric_difference x l l' :
  x ∈ symmetric_difference l l' ↔ (x ∈ l ∧ x ∉ l') ∨ (x ∈ l' ∧ x ∉ l).
Proof. unfold symmetric_difference. rewrite elem_of_app, !list_elem_of_filter. tauto. Qed.

Lemma model_msg_tools_laws : @MsgToolsLaws model_msg_tools.
Proof. split; try done; intros; apply elem_of_symmetric_difference. Qed.
