(* ===== verification/Notification.v ===== *)
(** * Notifications (pkg/rpcclient/msg.go, pkg/common/config)

    A notification is a message the system sends through the path of ordinary
    messages.  Its options come from a configured reliability level, its
    session type from a table; [NotificationWithSesstionType] builds it and
    hands it to [sendMsg], a parameter: the handler of the message service, or a
    call to it. *)

From S2P Require Import Prelude.
From S2P Require Import Constants.
From S2P Require Import MsgTypes.
From S2P Require Import MsgProcessor.
From S2P Require Import Tools.
From stdpp Require Import options.

#[local] Open Scope Z_scope.

(** ** Configuration (config.go) *)

Record POfflinePush := mkPOfflinePush { Enable : bool; POP_Title : string; POP_Desc : string; POP_Ext : string }.
Record NotificationConf := mkNotificationConf {
  IsSendMsg : bool; ReliabilityLevel : Z; UnreadCount : bool; OfflinePushConf : POfflinePush }.

(** The zero value of the struct. *)
Definition NotificationConf_zero : NotificationConf :=
  mkNotificationConf false 0 false (mkPOfflinePush false "" "" "").

(** The configured notifications. *)
Record notification := mkNotification {
  GroupCreated : NotificationConf; GroupInfoSet : NotificationConf;
  JoinGroupApplication : NotificationConf; MemberQuit : NotificationConf;
  GroupApplicationAccepted : NotificationConf; GroupApplicationRejected : NotificationConf;
  GroupOwnerTransferred : NotificationConf; MemberKicked : NotificationConf;
  MemberInvited : NotificationConf; MemberEnter : NotificationConf;
  GroupDismissed : NotificationConf; GroupMuted : NotificationConf;
  GroupCancelMuted : NotificationConf; GroupMemberMuted : NotificationConf;
  GroupMemberCancelMuted : NotificationConf; GroupMemberInfoSet : NotificationConf;
  GroupMemberSetToAdmin : NotificationConf; GroupMemberSetToOrdinary : NotificationConf;
  GroupInfoSetAnnouncement : NotificationConf; GroupInfoSetName : NotificationConf;
  UserInfoUpdated : NotificationConf; UserStatusChanged : NotificationConf;
  FriendApplicationAdded : NotificationConf; FriendApplicationApproved : NotificationConf;
  FriendApplicationRejected : NotificationConf; FriendAdded : NotificationConf;
  FriendDeleted : NotificationConf; FriendRemarkSet : NotificationConf;
  BlackAdded : NotificationConf; BlackDeleted : NotificationConf;
  FriendInfoUpdated : NotificationConf; ConversationChanged : NotificationConf;
  ConversationSetPrivate : NotificationConf }.

Definition GetOptionsByNotification (cfg : NotificationConf) : gmap string bool :=
  let opts := NewOptions [] in
  let opts := if UnreadCount cfg then WithOptions opts [WithUnreadCount true] else opts in
  let opts := if Enable (OfflinePushConf cfg) then WithOptions opts [WithOfflinePush true] else opts in
  let opts := if ReliabilityLevel cfg =? ReliableNotificationNoMsg
              then WithOptions opts [WithHistory true; WithPersistent] else opts in
  WithOptions opts [WithSendMsg (IsSendMsg cfg)].

(** ** The tables (msg.go) *)

Section Tables.
Context (Config : notification).

Definition newContentTypeConf : gmap Z NotificationConf := list_to_map [
  (GroupCreatedNotification, GroupCreated Config);
  (GroupInfoSetNotification, GroupInfoSet Config);
  (JoinGroupApplicationNotification, JoinGroupApplication Config);
  (MemberQuitNotification, MemberQuit Config);
  (GroupApplicationAcceptedNotification, GroupApplicationAccepted Config);
  (GroupApplicationRejectedNotification, GroupApplicationRejected Config);
  (GroupOwnerTransferredNotification, GroupOwnerTransferred Config);
  (MemberKickedNotification, MemberKicked Config);
  (MemberInvitedNotification, MemberInvited Config);
  (MemberEnterNotification, MemberEnter Config);
  (GroupDismissedNotification, GroupDismissed Config);
  (GroupMutedNotification, GroupMuted Config);
  (GroupCancelMutedNotification, GroupCancelMuted Config);
  (GroupMemberMutedNotification, GroupMemberMuted Config);
  (GroupMemberCancelMutedNotification, GroupMemberCancelMuted Config);
  (GroupMemberInfoSetNotification, GroupMemberInfoSet Config);
  (GroupMemberSetToAdminNotification, GroupMemberSetToAdmin Config);
  (GroupMemberSetToOrdinaryUserNotification, GroupMemberSetToOrdinary Config);
  (GroupInfoSetAnnouncementNotification, GroupInfoSetAnnouncement Config);
  (GroupInfoSetNameNotification, GroupInfoSetName Config);
  (UserInfoUpdatedNotification, UserInfoUpdated Config);
  (UserStatusChangeNotification, UserStatusChanged Config);
  (FriendApplicationNotification, FriendApplicationAdded Config);
  (FriendApplicationApprovedNotification, FriendApplicationApproved Config);
  (FriendApplicationRejectedNotification, FriendApplicationRejected Config);
  (FriendAddedNotification, FriendAdded Config);
  (FriendDeletedNotification, FriendDeleted Config);
  (FriendRemarkSetNotification, FriendRemarkSet Config);
  (BlackAddedNotification, BlackAdded Config);
  (BlackDeletedNotification, BlackDeleted Config);
  (FriendInfoUpdatedNotification, FriendInfoUpdated Config);
  (ConversationChangeNotification, ConversationChanged Config);
  (ConversationUnreadNotification, ConversationChanged Config);
  (ConversationPrivateChatNotification, ConversationSetPrivate Config);
  (MsgRevokeNotification,
     mkNotificationConf false ReliableNotificationNoMsg false (mkPOfflinePush false "" "" ""));
  (HasReadReceipt,
     mkNotificationConf false ReliableNotificationNoMsg false (mkPOfflinePush false "" "" ""));
  (HasGroupReadReceipt,
     mkNotificationConf false UnreliableNotification false (mkPOfflinePush false "" "" ""));
  (DeleteMsgsNotification,
     mkNotificationConf false ReliableNotificationNoMsg false (mkPOfflinePush false "" "" ""))].
End Tables.

Definition newSessionTypeConf : gmap Z Z := list_to_map [
  (GroupCreatedNotification, SuperGroupChatType);
  (GroupInfoSetNotification, SuperGroupChatType);
  (JoinGroupApplicationNotification, SingleChatType);
  (MemberQuitNotification, SuperGroupChatType);
  (GroupApplicationAcceptedNotification, SingleChatType);
  (GroupApplicationRejectedNotification, SingleChatType);
  (GroupOwnerTransferredNotification, SuperGroupChatType);
  (MemberKickedNotification, SuperGroupChatType);
  (MemberInvitedNotification, SuperGroupChatType);
  (MemberEnterNotification, SuperGroupChatType);
  (GroupDismissedNotification, SuperGroupChatType);
  (GroupMutedNotification, SuperGroupChatType);
  (GroupCancelMutedNotification, SuperGroupChatType);
  (GroupMemberMutedNotification, SuperGroupChatType);
  (GroupMemberCancelMutedNotification, SuperGroupChatType);
  (GroupMemberInfoSetNotification, SuperGroupChatType);
  (GroupMemberSetToAdminNotification, SuperGroupChatType);
  (GroupMemberSetToOrdinaryUserNotification, SuperGroupChatType);
  (GroupInfoSetAnnouncementNotification, SuperGroupChatType);
  (GroupInfoSetNameNotification, SuperGroupChatType);
  (UserInfoUpdatedNotification, SingleChatType);
  (UserStatusChangeNotification, SingleChatType);
  (FriendApplicationNotification, SingleChatType);
  (FriendApplicationApprovedNotification, SingleChatType);
  (FriendApplicationRejectedNotification, SingleChatType);
  (FriendAddedNotification, SingleChatType);
  (FriendDeletedNotification, SingleChatType);
  (FriendRemarkSetNotification, SingleChatType);
  (BlackAddedNotification, SingleChatType);
  (BlackDeletedNotification, SingleChatType);
  (FriendInfoUpdatedNotification, SingleChatType);
  (ConversationChangeNotification, SingleChatType);
  (ConversationUnreadNotification, SingleChatType);
  (ConversationPrivateChatNotification, SingleChatType);
  (DeleteMsgsNotification, SingleChatType);
  (HasReadReceipt, SingleChatType);
  (HasGroupReadReceipt, SuperGroupChatType)].

(** ** Sending *)

Record UserInfo := mkUserInfo {
  UI_UserID : string; UI_Nickname : string; UI_FaceURL : string; UI_Ex : string;
  UI_CreateTime : Z; UI_AppMangerLevel : Z; UI_GlobalRecvMsgOpt : Z }.

Record SendMsgResp := mkSendMsgResp {
  Resp_ServerMsgID : string; Resp_ClientMsgID : string; Resp_SendTime : Z }.

Definition set_ReliabilityLevel (v : Z) (c : NotificationConf) : NotificationConf :=
  mkNotificationConf (IsSendMsg c) v (UnreadCount c) (OfflinePushConf c).

Section Sender.
Context {S : Type} {Tips : Type}.
Context (Config : notification) (now : Z).
(** [utils.StructToJsonString], [json.Marshal] of the element, [utils.GetMsgID]. *)
Context (StructToJsonString : Tips → string) (Marshal_elem : string → string + error).
Context (utils_GetMsgID : string → string).
(** The two functions of the sender; [getUserInfo] may be nil. *)
Context (sendMsg : MsgData → M S (option SendMsgResp)).
Context (getUserInfo : option (string → M S UserInfo)).

(** The sender's nickname and picture, empty when they are not asked for or
    not found. *)
Definition sender_names (WithRpcGetUsername : bool) (sendID : string) : M S (string * string) :=
  match getUserInfo with
  | Some get_info =>
      if WithRpcGetUsername then
        r ← try (get_info sendID);
        mret (match r with inl u => (UI_Nickname u, UI_FaceURL u) | inr _ => ("", "") end)
      else mret ("", "")
  | None => mret ("", "")
  end.

Definition notification_options (sendID recvID : string) (contentType : Z) : gmap string bool :=
  let optionsConfig := default NotificationConf_zero (newContentTypeConf Config !! contentType) in
  GetOptionsByNotification
    (if bool_decide (sendID = recvID) && (contentType =? HasReadReceipt)
     then set_ReliabilityLevel UnreliableNotification optionsConfig else optionsConfig).

Definition notification_msg (sendID recvID : string) (contentType sesstionType : Z)
    (names : string * string) (content : string) : MsgData :=
  {| SendID := sendID; RecvID := recvID;
     GroupID := if sesstionType =? SuperGroupChatType then recvID else "";
     ClientMsgID := utils_GetMsgID sendID; ServerMsgID := ""; SenderPlatformID := 0;
     SenderNickname := names.1; SenderFaceURL := names.2; SessionType := sesstionType;
     MsgFrom := SysMsgType; ContentType := contentType; Content := content; Seq := 0;
     SendTime := 0; CreateTime := now; Status := 0; IsRead := false;
     Options := Some (notification_options sendID recvID contentType);
     OfflinePush := Some (mkOfflinePushInfo "" "" "" "" false "");
     AtUserIDList := []; AttachedInfo := ""; Ex := ""; KeyVersion := 0 |}.

Definition NotificationWithSesstionType (sendID recvID : string) (contentType sesstionType : Z)
    (m : Tips) (WithRpcGetUsername : bool) : M S () :=
  content ← lift (Marshal_elem (StructToJsonString m));
  names ← sender_names WithRpcGetUsername sendID;
  _ ← sendMsg (notification_msg sendID recvID contentType sesstionType names content);
  mret ().

Definition Notification (sendID recvID : string) (contentType : Z) (m : Tips)
    (WithRpcGetUsername : bool) : M S () :=
  NotificationWithSesstionType sendID recvID contentType
    (default 0 (newSessionTypeConf !! contentType)) m WithRpcGetUsername.
End Sender.

(** ** Where notifications go *)

(** No configuration makes a notification an ordinary message. *)
Lemma GetOptionsByNotification_notification cfg :
  Options_IsNotNotification (Some (GetOptionsByNotification cfg)) = false.
Proof. by destruct cfg as [[] v [] [[]]]; unfold GetOptionsByNotification; cbn -[NewOptions]; case_match. Qed.

(** Whatever the configuration says, a notification of a known
    session type is filed in the notification conversation of its session, its id starts with
    [n_], and its content type lies in the range that the message service lets pass without
    asking whether the sender may speak; its session type is the table's, which has one for every
    configured notification except revocations. *)
Theorem notification_conversation Config now msg_id sendID recvID contentType sesstionType names content :
  is_Some (newContentTypeConf Config !! contentType) →
  known_session sesstionType →
  let m := notification_msg Config now msg_id sendID recvID contentType sesstionType names content in
  GetConversationIDByMsg m = GetNotificationConversationIDByMsg m ∧
  IsNotification (GetConversationIDByMsg m) = true ∧
  NotificationBegin ≤ ContentType m ≤ NotificationEnd ∧
  (contentType ≠ MsgRevokeNotification →
     ∃ t, newSessionTypeConf !! contentType = Some t ∧ (t = SingleChatType ∨ t = SuperGroupChatType)).
Proof.
  intros [c Hc] Ht m. apply elem_of_list_to_map_2 in Hc.
  assert (Options_IsNotNotification (Options m) = false) as Hn
    by apply GetOptionsByNotification_notification.
  assert (GetConversationIDByMsg m = GetNotificationConversationIDByMsg m ∧
          IsNotification (GetNotificationConversationIDByMsg m) = true) as [Hid Hg].
  { unfold GetConversationIDByMsg, GetNotificationConversationIDByMsg. rewrite Hn.
    change (SessionType m) with sesstionType.
    destruct Ht as [->|[->|[->| ->]]]; cbn; by autorewrite with conv_id. }
  rewrite Hid. split; [done|]. split; [done|].
  change (ContentType m) with contentType. clear -Hc. 
  repeat (apply elem_of_cons in Hc as [[= -> ->]|Hc];
    [split; [done|]; intros Hne; first [done|eexists; split; [by vm_compute|vm_compute; auto]]|]).
  by apply elem_of_nil in Hc.
Qed.

(** Every notification configured alike. *)
Definition uniform_notification (c : NotificationConf) : notification :=
  mkNotification c c c c c c c c c c c c c c c c c c c c c c c c c c c c c c c c c.

Lemma notification_conversation_witness :
  let c := mkNotificationConf true 2 true (mkPOfflinePush true "" "" "") in
  let m := notification_msg (uniform_notification c) 0 (λ s, s) "bob" "room_1"
             GroupMutedNotification SuperGroupChatType ("", "") "{}" in
  GetConversationIDByMsg m = "n_room_1" ∧ IsNotification (GetConversationIDByMsg m) = true.
Proof.
  intros c m. split; [vm_compute; reflexivity|].
  apply (notification_conversation (uniform_notification c) 0 (λ s, s) "bob" "room_1"
    GroupMutedNotification SuperGroupChatType ("", "") "{}").
  - exists c. vm_compute. reflexivity.
  - right; right; left. reflexivity.
Defined.
