(* ===== verification/RpcClient.v ===== *)
(** * Clients of the other services (pkg/rpcclient, pkg/common/db/localcache)

    What the user, friend, group and conversation services answer is an
    environment: a function of the requests for changes made so far ([Services],
    one field per remote method).  The file models the clients' own logic: the
    completeness checks, the orders of arguments and the local cache of
    conversation ids. *)

From S2P Require Import Prelude.
From S2P Require Import Constants.
From S2P Require Import MsgTypes.
From S2P Require Import MsgProcessor.
From S2P Require Import Tools.
From S2P Require Import Notification.
From stdpp Require Import options.
#[local] Set Default Proof Using "Type*".

#[local] Open Scope Z_scope.

(** ** Messages of the services *)

Record GroupInfo := mkGroupInfo {
  GI_GroupID : string; GI_GroupName : string; GI_Notification : string;
  GI_Introduction : string; GI_FaceURL : string; GI_OwnerUserID : string;
  GI_CreateTime : Z; GI_MemberCount : Z; GI_Ex : string; GI_Status : Z;
  GI_CreatorUserID : string; GI_GroupType : Z; GI_NeedVerification : Z;
  GI_LookMemberInfo : Z; GI_ApplyMemberFriend : Z; GI_NotificationUpdateTime : Z;
  GI_NotificationUserID : string }.

Record GroupMemberFullInfo := mkGroupMember {
  GM_GroupID : string; GM_UserID : string; GM_RoleLevel : Z; GM_JoinTime : Z;
  GM_Nickname : string; GM_FaceURL : string; GM_AppMangerLevel : Z; GM_JoinSource : Z;
  GM_OperatorUserID : string; GM_Ex : string; GM_MuteEndTime : Z; GM_InviterUserID : string }.

Record Conversation := mkConversation {
  Conv_OwnerUserID : string; Conv_ConversationID : string; Conv_RecvMsgOpt : Z;
  Conv_ConversationType : Z; Conv_UserID : string; Conv_GroupID : string;
  Conv_IsPinned : bool; Conv_AttachedInfo : string; Conv_IsPrivateChat : bool;
  Conv_GroupAtType : Z; Conv_Ex : string; Conv_BurnDuration : Z; Conv_MinSeq : Z;
  Conv_MaxSeq : Z; Conv_MsgDestructTime : Z; Conv_LatestMsgDestructTime : Z;
  Conv_IsMsgDestruct : bool }.

(** A change of conversations; a nil field leaves the conversation's as it is. *)
Record ConversationReq := mkConversationReq {
  CR_ConversationID : string; CR_ConversationType : Z; CR_UserID : string; CR_GroupID : string;
  CR_RecvMsgOpt : option Z; CR_IsPinned : option bool; CR_AttachedInfo : option string;
  CR_IsPrivateChat : option bool; CR_Ex : option string; CR_BurnDuration : option Z;
  CR_MinSeq : option Z; CR_MaxSeq : option Z; CR_GroupAtType : option Z;
  CR_MsgDestructTime : option Z; CR_IsMsgDestruct : option bool }.

#[export] Instance ConversationReq_eq_dec : EqDecision ConversationReq.
Proof. solve_decision. Defined.

(** ** The services

    [Wr] is the type of the changes asked for. *)

Class Services (Wr : Type) := {
  (** friend: whether each is in the other's list. *)
  svc_IsFriend : string → string → list Wr → bool * bool + error;
  svc_IsBlack : string → string → list Wr → bool * bool + error;
  (** group *)
  svc_GetGroupsInfo : list string → list Wr → list GroupInfo + error;
  svc_GetGroupMembersInfo : string → list string → list Wr → list GroupMemberFullInfo + error;
  svc_GetGroupMemberUserIDs : string → list Wr → list string + error;
  svc_GetGroupInfoCache : string → list Wr → GroupInfo + error;
  svc_GetGroupMemberCache : string → string → list Wr → GroupMemberFullInfo + error;
  (** user *)
  svc_GetDesignateUsers : list string → list Wr → list UserInfo + error;
  svc_GetGlobalRecvMessageOpt : string → list Wr → Z + error;
  (** conversation *)
  svc_GetConversation : string → string → list Wr → Conversation + error;
  svc_GetConversations : string → list string → list Wr → list Conversation + error;
  svc_GetConversationsByConversationID : list string → list Wr → list Conversation + error;
  svc_GetConversationIDs : string → list Wr → list string + error;
  svc_GetUserConversationIDsHash : string → list Wr → N + error;
}.

(** The answer of a remote call; one that panics is an internal error. *)
Definition answer_of {A} (r : outcome A) : A + error :=
  match r with Ok a => inl a | Err e => inr e | _ => inr (Bare ErrInternalServer) end.

Lemma answer_ok {W A} (m : M W A) w a : answer_of (m w).1 = inl a → m w = (Ok a, (m w).2).
Proof. destruct (m w) as [[] ?]; cbn; congruence. Qed.

(** ** Clients *)

Section Clients.
Context {Wr : Type} `{Services Wr} `{MsgTools}.

(** *** friend.go *)

(** Whether the first user is in the second's list. *)
Definition IsFriend (possibleFriendUserID userID : string) : M (list Wr) bool :=
  resp ← ask (svc_IsFriend userID possibleFriendUserID);
  mret resp.1.

Definition IsBlocked (possibleBlackUserID userID : string) : M (list Wr) bool :=
  r ← ask (svc_IsBlack possibleBlackUserID userID);
  mret r.2.

(** *** group.go *)

(** [if ids := utils.Single(want, got); len(ids) > 0 { return err }] *)
Definition check_complete (c : errcode) (want got : list string) : M (list Wr) () :=
  let ids := Single want got in
  guard (0 <? len ids) (Wrap c (strings_Join ids ",")).

Definition GetGroupInfos (groupIDs : list string) (complete : bool) :
    M (list Wr) (list GroupInfo) :=
  resp ← ask (svc_GetGroupsInfo groupIDs);
  _ ← (if complete then check_complete ErrGroupIDNotFound groupIDs (GI_GroupID <$> resp)
       else mret ());
  mret resp.

Definition GetGroupMemberInfos (groupID : string) (userIDs : list string) (complete : bool) :
    M (list Wr) (list GroupMemberFullInfo) :=
  resp ← ask (svc_GetGroupMembersInfo groupID userIDs);
  _ ← (if complete then check_complete ErrNotInGroupYet userIDs (GM_UserID <$> resp) else mret ());
  mret resp.

(** [utils.SliceToMap]: the last element of a key stays. *)
Definition members_map (ms : list GroupMemberFullInfo) : gmap string GroupMemberFullInfo :=
  foldl (λ t m, <[GM_UserID m := m]> t) ∅ ms.

(** The argument [complete] is not used. *)
Definition GetGroupMemberInfoMap (groupID : string) (userIDs : list string) (complete : bool) :
    M (list Wr) (gmap string GroupMemberFullInfo) :=
  members ← GetGroupMemberInfos groupID userIDs true;
  mret (members_map members).

Definition GetGroupMemberIDs (groupID : string) : M (list Wr) (list string) :=
  ask (svc_GetGroupMemberUserIDs groupID).
Definition GetGroupInfoCache (groupID : string) : M (list Wr) GroupInfo :=
  ask (svc_GetGroupInfoCache groupID).
Definition GetGroupMemberCache (groupID groupMemberID : string) :
    M (list Wr) GroupMemberFullInfo := ask (svc_GetGroupMemberCache groupID groupMemberID).

(** *** user.go *)

Definition GetUsersInfo (userIDs : list string) : M (list Wr) (list UserInfo) :=
  resp ← ask (svc_GetDesignateUsers userIDs);
  _ ← check_complete ErrUserIDNotFound userIDs (UI_UserID <$> resp);
  mret resp.

Definition GetUserInfo (userID : string) : M (list Wr) UserInfo :=
  users ← GetUsersInfo [userID];
  deref (head users).

Definition GetUserGlobalMsgRecvOpt (userID : string) : M (list Wr) Z :=
  ask (svc_GetGlobalRecvMessageOpt userID).

(** *** conversation.go *)

Definition GetSingleConversationRecvMsgOpt (userID conversationID : string) : M (list Wr) Z :=
  conversation ← ask (svc_GetConversation userID conversationID);
  mret (Conv_RecvMsgOpt conversation).

Definition GetConversation (ownerUserID conversationID : string) : M (list Wr) Conversation :=
  ask (svc_GetConversation ownerUserID conversationID).

Definition GetConversationsByConversationID (conversationIDs : list string) :
    M (list Wr) (list Conversation) :=
  if len conversationIDs =? 0 then mret []
  else
    resp ← ask (svc_GetConversationsByConversationID conversationIDs);
    _ ← guard (len resp =? 0)
          (Wrap ErrRecordNotFound ("conversationIDs: [" +:+ strings_Join conversationIDs " " +:+ "] not found"));
    mret resp.

Definition GetConversations (ownerUserID : string) (conversationIDs : list string) :
    M (list Wr) (list Conversation) :=
  if len conversationIDs =? 0 then mret []
  else ask (svc_GetConversations ownerUserID conversationIDs).

(** *** localcache/conversation.go: the ids last read and the hash they had *)

Record Hash := mkHash { hash : N; ids : list string }.

Definition GetConversationIDs (userID : string) : M (gmap string Hash * list Wr) (list string) :=
  resp ← on_snd (ask (svc_GetUserConversationIDsHash userID));
  c ← on_fst get;
  let fetch :=
    (conversationIDsResp ← on_snd (ask (svc_GetConversationIDs userID));
     _ ← on_fst (modify <[userID := mkHash resp conversationIDsResp]>);
     mret conversationIDsResp) in
  match c !! userID with
  | Some h => if negb (N.eqb (hash h) resp) then fetch else mret (ids h)
  | None => fetch
  end.
End Clients.

(** What the checks of the clients guarantee. *)
Section ClientFacts.
Context {Wr : Type} `{Services Wr} `{MsgToolsLaws}.

Lemma wp_check_complete c want got (Q : outcome () → list Wr → Prop) h :
  ((∀ x, x ∈ got ↔ x ∈ want) → Q (Ok ()) h) → (∀ e, Q (Err e) h) → wp (check_complete c want got) Q h.
Proof.
  intros Hok Herr. apply wp_guard; intros Hlen; [done|]. bool_facts. apply Hok. intros x.
  assert (x ∉ Single want got) as Hx.
  { intros Hx. apply list_elem_of_lookup in Hx as [i Hi%lookup_lt_Some]. unfold len in Hlen. lia. }
  rewrite Single_elem in Hx. split; intros Hi; apply dec_stable; intros Hn; apply Hx; [right|left]; by split.
Qed.

Lemma wp_GetUserInfo u h : wp (GetUserInfo u) (λ r _, match r with
  | Ok user => UI_UserID user = u | Err _ => True | _ => False end) h.
Proof.
  apply wp_bind, wp_bind, wp_ask; [|done]. intros users _.
  apply wp_bind, wp_check_complete; [|done]. intros Hall. apply wp_ret.
  destruct users as [|x users]; [by apply (not_elem_of_nil u), Hall, list_elem_of_singleton|].
  apply wp_deref; [|done]. intros user [= <-]. apply list_elem_of_singleton, Hall. by left.
Qed.
End ClientFacts.

Lemma members_map_elem ms u m : members_map ms !! u = Some m → m ∈ ms ∧ GM_UserID m = u.
Proof.
  unfold members_map. induction ms as [|x ms IH] using rev_ind; [done|].
  rewrite foldl_app. cbn [foldl]. rewrite lookup_insert, elem_of_app, list_elem_of_singleton.
  case_decide as Hx; [intros [= <-]; auto|]. intros [? ?]%IH. auto.
Qed.
