(* ===== verification/Redis.v ===== *)
(** * Redis

    The commands of the Redis client that the cache layer uses, as an
    interface: [Redis] gives the commands and the part of the data they work
    on, [RedisLaws] what a command that succeeds does to it.  A command that
    fails may or may not have been carried out.  [mem_redis] is a Redis server
    in memory, without expiry. *)

From Stdlib Require Import Ascii.
From S2P Require Import Prelude.
From S2P Require Import Constants.
From S2P Require Import MsgTypes.
From S2P Require Import MsgProcessor.
From S2P Require Import MsgDoc.
From S2P Require Import Tools.
From stdpp Require Import options.
#[local] Set Default Proof Using "Type*".

#[local] Open Scope Z_scope.

(** A command answers a value or an error. *)
Definition Cmd (R A : Type) : Type := R → (A + error) * R.

Definition run {R A} (c : Cmd R A) : M R A := λ w, let '(r, w') := c w in (of_sum r, w').

Class Redis (R : Type) := {
  (** The strings, the sets and the hashes, by key. *)
  kv : R → gmap string string;
  sets : R → gmap string (gset string);
  hashes : R → gmap string (gmap string string);
  (** [SET key value EX ttl]; 0: no expiry *)
  Redis_Set : string → string → Z → Cmd R ();
  Redis_SetNX : string → string → Z → Cmd R bool;
  Redis_Get : string → Cmd R string;
  Redis_Del : string → Cmd R ();
  Redis_Keys : string → Cmd R (list string);
  Redis_Exists : string → Cmd R Z;
  Redis_Expire : string → Z → Cmd R bool;
  Redis_Incr : string → Cmd R Z;
  Redis_SAdd : string → string → Cmd R ();
  Redis_SRem : string → string → Cmd R ();
  Redis_SMembers : string → Cmd R (list string);
  Redis_HSet : string → list (string * string) → Cmd R ();
  Redis_HGet : string → string → Cmd R string;
  Redis_HGetAll : string → Cmd R (gmap string string);
  Redis_HDel : string → list string → Cmd R ();
  (** [StringCmd.Int64], [StringCmd.Int] *)
  Redis_Int64 : string → Z + error;
}.

Class RedisLaws (R : Type) `{Redis R} : Prop := {
  Get_some k w v w' : Redis_Get k w = (inl v, w') → kv w !! k = Some v;
  Get_nil k w e w' :
    Redis_Get k w = (inr e, w') → Unwrap e = RedisNil → e = Bare RedisNil ∧ kv w !! k = None;
  Get_keeps k w : (Redis_Get k w).2 = w;
  Set_kv k v ttl w w' : Redis_Set k v ttl w = (inl (), w') → kv w' = <[k := v]> (kv w);
  Set_err k v ttl w e w' :
    Redis_Set k v ttl w = (inr e, w') →
    Unwrap e ≠ RedisNil ∧ (kv w' = kv w ∨ kv w' = <[k := v]> (kv w));
  Del_kv k w w' : Redis_Del k w = (inl (), w') → kv w' = delete k (kv w);
  SAdd_sets k x w w' :
    Redis_SAdd k x w = (inl (), w') →
    sets w' = <[k := {[x]} ∪ default ∅ (sets w !! k)]> (sets w) ∧ kv w' = kv w;
  SMembers_some k w l w' :
    Redis_SMembers k w = (inl l, w') → ∀ x, x ∈ l ↔ x ∈ default ∅ (sets w !! k);
  SMembers_not_nil k w e w' : Redis_SMembers k w = (inr e, w') → Unwrap e ≠ RedisNil;
  SMembers_keeps k w : (Redis_SMembers k w).2 = w;
  SRem_kv k x w : kv (Redis_SRem k x w).2 = kv w;
  HSet_hashes k fs w w' :
    Redis_HSet k fs w = (inl (), w') →
    hashes w' = <[k := foldl (λ h f, <[f.1 := f.2]> h) (default ∅ (hashes w !! k)) fs]> (hashes w);
  HGetAll_some k w h w' :
    Redis_HGetAll k w = (inl h, w') → h = default ∅ (hashes w !! k);
  HGetAll_keeps k w : (Redis_HGetAll k w).2 = w;
  HDel_hashes k fs w w' :
    Redis_HDel k fs w = (inl (), w') →
    ∀ k', default ∅ (hashes w' !! k') =
      if decide (k' = k) then foldl (λ h f, delete f h) (default ∅ (hashes w !! k)) fs
      else default ∅ (hashes w !! k');
  HSet_err k fs w e w' :
    Redis_HSet k fs w = (inr e, w') →
    hashes w' = hashes w ∨
    hashes w' = <[k := foldl (λ h f, <[f.1 := f.2]> h) (default ∅ (hashes w !! k)) fs]> (hashes w);
  HDel_err k fs w e w' :
    Redis_HDel k fs w = (inr e, w') →
    hashes w' = hashes w ∨
    ∀ k', default ∅ (hashes w' !! k') =
      if decide (k' = k) then foldl (λ h f, delete f h) (default ∅ (hashes w !! k)) fs
      else default ∅ (hashes w !! k');
  HGet_some k f w v w' :
    Redis_HGet k f w = (inl v, w') → default ∅ (hashes w !! k) !! f = Some v;
  HGet_nil k f w e w' :
    Redis_HGet k f w = (inr e, w') → Unwrap e = RedisNil →
    e = Bare RedisNil ∧ default ∅ (hashes w !! k) !! f = None;
  HGet_keeps k f w : (Redis_HGet k f w).2 = w;
  (** A key that does not exist holds no hash. *)
  Exists_zero k w w' : Redis_Exists k w = (inl 0, w') → default ∅ (hashes w !! k) = ∅;
  Exists_keeps k w : (Redis_Exists k w).2 = w;
  Expire_hashes k ttl w : hashes (Redis_Expire k ttl w).2 = hashes w;
  Int64_Format z : int64 z → Redis_Int64 (FormatInt z) = inl z;
}.

(** ** Running a command *)

Section Rules.
Context {R : Type} `{RedisLaws R}.

Lemma wp_run {A} (c : Cmd R A) (Q : outcome A → R → Prop) w :
  (∀ a w', c w = (inl a, w') → Q (Ok a) w') → (∀ e w', c w = (inr e, w') → Q (Err e) w') →
  wp (run c) Q w.
Proof. unfold wp, run. destruct (c w) as [[a|e] w']; cbn; auto. Qed.

Lemma wp_Get k (Q : outcome string → R → Prop) w :
  (∀ v, kv w !! k = Some v → Q (Ok v) w) →
  (kv w !! k = None → Q (Err (Bare RedisNil)) w) →
  (∀ e, Unwrap e ≠ RedisNil → Q (Err e) w) →
  wp (run (Redis_Get k)) Q w.
Proof.
  intros Hs Hn He. pose proof (Get_keeps k w) as Hw.
  apply wp_run; intros x w' E; rewrite E in Hw; cbn in Hw; subst w'.
  - by eapply Hs, Get_some.
  - destruct (decide (Unwrap x = RedisNil)) as [Hx|]; [|auto].
    destruct (Get_nil _ _ _ _ E Hx) as [-> ?]. auto.
Qed.

Lemma wp_Set k v ttl (Q : outcome () → R → Prop) w :
  (∀ w', kv w' = <[k := v]> (kv w) → Q (Ok ()) w') →
  (∀ e w', Unwrap e ≠ RedisNil → (∀ k', k' ≠ k → kv w' !! k' = kv w !! k') → Q (Err e) w') →
  wp (run (Redis_Set k v ttl)) Q w.
Proof.
  intros Hs He. apply wp_run; [intros [] w' E; by eapply Hs, Set_kv|].
  intros e w' E. apply Set_err in E as [Hn Hw']. apply He; [done|]. intros k' Hk'.
  destruct Hw' as [->| ->]; [done|]. by rewrite lookup_insert_ne.
Qed.

(** A failed write has happened or not. *)
Lemma wp_Set_either k v ttl (Q : outcome () → R → Prop) w :
  (∀ w', kv w' = <[k := v]> (kv w) → Q (Ok ()) w') →
  (∀ e w', kv w' = kv w ∨ kv w' = <[k := v]> (kv w) → Q (Err e) w') →
  wp (run (Redis_Set k v ttl)) Q w.
Proof.
  intros Hs He. apply wp_run; [intros [] w' E; by eapply Hs, Set_kv|].
  intros e w' E. apply Set_err in E as [Hn Hw']. by apply He.
Qed.

(** A field of a hash. *)
Definition hash_field (w : R) (k f : string) : option string := default ∅ (hashes w !! k) !! f.

Lemma wp_HGet k f (Q : outcome string → R → Prop) w :
  (∀ v, hash_field w k f = Some v → Q (Ok v) w) →
  (hash_field w k f = None → Q (Err (Bare RedisNil)) w) →
  (∀ e, Unwrap e ≠ RedisNil → Q (Err e) w) →
  wp (run (Redis_HGet k f)) Q w.
Proof.
  intros Hs Hn He. pose proof (HGet_keeps k f w) as Hw.
  apply wp_run; intros x w' E; rewrite E in Hw; cbn in Hw; subst w'.
  - by eapply Hs, HGet_some.
  - destruct (decide (Unwrap x = RedisNil)) as [Hx|]; [|auto].
    destruct (HGet_nil _ _ _ _ _ E Hx) as [-> ?]. auto.
Qed.

#[export] Instance read_only_HGet k f : ReadOnly (run (Redis_HGet k f)).
Proof.
  intros w. pose proof (HGet_keeps k f w) as Hw. unfold run. by destruct (Redis_HGet k f w) as [[] ?].
Qed.

(** A failed write of a field has happened or not. *)
Lemma wp_HSet k f v (Q : outcome () → R → Prop) w :
  (∀ r w', (r = Ok () ∨ ∃ e, r = Err e) →
     (∀ k' f', hash_field w' k' f' = if decide (k' = k ∧ f' = f) then Some v else hash_field w k' f') → Q r w') →
  (∀ e w', (∀ k' f', hash_field w' k' f' = hash_field w k' f') → Q (Err e) w') →
  wp (run (Redis_HSet k [(f, v)])) Q w.
Proof.
  intros Hs He.
  assert (∀ w', hashes w' = <[k := foldl (λ h f, <[f.1 := f.2]> h) (default ∅ (hashes w !! k)) [(f, v)]]> (hashes w) →
    ∀ k' f', hash_field w' k' f' = if decide (k' = k ∧ f' = f) then Some v else hash_field w k' f') as Hset.
  { intros w' Hw' k' f'. unfold hash_field. rewrite Hw'. cbn. rewrite lookup_insert.
    case_decide as Hk; cbn; [subst k'; rewrite lookup_insert|]; repeat case_decide; naive_solver. }
  apply wp_run; [intros [] w' E|intros e w' E].
  - apply Hs; [by left|]. by eapply Hset, HSet_hashes.
  - apply HSet_err in E as [Hw|Hw].
    + apply He. intros k' f'. unfold hash_field. by rewrite Hw.
    + apply Hs; [by eauto|]. by apply Hset.
Qed.

Lemma wp_HDel k f (Q : outcome () → R → Prop) w :
  (∀ r w', (r = Ok () ∨ ∃ e, r = Err e) →
     (∀ k' f', hash_field w' k' f' = if decide (k' = k ∧ f' = f) then None else hash_field w k' f') → Q r w') →
  (∀ e w', (∀ k' f', hash_field w' k' f' = hash_field w k' f') → Q (Err e) w') →
  wp (run (Redis_HDel k [f])) Q w.
Proof.
  intros Hs He.
  assert (∀ w', (∀ k', default ∅ (hashes w' !! k') = if decide (k' = k) then
      foldl (λ h f, delete f h) (default ∅ (hashes w !! k)) [f] else default ∅ (hashes w !! k')) →
    ∀ k' f', hash_field w' k' f' = if decide (k' = k ∧ f' = f) then None else hash_field w k' f') as Hdel.
  { intros w' Hw' k' f'. unfold hash_field. rewrite Hw'. cbn.
    case_decide as Hk; [subst k'; rewrite lookup_delete|]; repeat case_decide; naive_solver. }
  apply wp_run; [intros [] w' E|intros e w' E].
  - apply Hs; [by left|]. by eapply Hdel, HDel_hashes.
  - apply HDel_err in E as [Hw|Hw].
    + apply He. intros k' f'. unfold hash_field. by rewrite Hw.
    + apply Hs; [by eauto|]. by apply Hdel.
Qed.
End Rules.

(** ** Redis in memory *)

Record mem_redis := mkRedis {
  mem_kv : gmap string string;
  mem_sets : gmap string (gset string);
  mem_hashes : gmap string (gmap string string) }.

Definition redis_empty : mem_redis := mkRedis ∅ ∅ ∅.

(** [KEYS pattern], for a pattern that ends in a star. *)
Definition mem_keys (pattern : string) (w : mem_redis) : list string :=
  filter (λ k, String.prefix (String.substring 0 (String.length pattern - 1) pattern) k)
    (map_to_list (mem_kv w)).*1.

#[export] Instance mem_redis_commands : Redis mem_redis := {|
  kv := mem_kv; sets := mem_sets; hashes := mem_hashes;
  Redis_Set k v ttl w := (inl (), mkRedis (<[k := v]> (mem_kv w)) (mem_sets w) (mem_hashes w));
  Redis_SetNX k v ttl w :=
    match mem_kv w !! k with
    | Some _ => (inl false, w)
    | None => (inl true, mkRedis (<[k := v]> (mem_kv w)) (mem_sets w) (mem_hashes w))
    end;
  Redis_Get k w :=
    (match mem_kv w !! k with Some v => inl v | None => inr (Bare RedisNil) end, w);
  Redis_Del k w :=
    (inl (), mkRedis (delete k (mem_kv w)) (delete k (mem_sets w)) (delete k (mem_hashes w)));
  Redis_Keys p w := (inl (mem_keys p w), w);
  Redis_Exists k w := (inl (if bool_decide (mem_kv w !! k = None ∧ default ∅ (mem_sets w !! k) = ∅ ∧
                                default ∅ (mem_hashes w !! k) = ∅) then 0 else 1), w);
  Redis_Expire k ttl w := (inl true, w);
  Redis_Incr k w :=
    let n := default 0 (mem_kv w !! k ≫= ParseInt) + 1 in
    (inl n, mkRedis (<[k := FormatInt n]> (mem_kv w)) (mem_sets w) (mem_hashes w));
  Redis_SAdd k x w :=
    (inl (), mkRedis (mem_kv w) (<[k := {[x]} ∪ default ∅ (mem_sets w !! k)]> (mem_sets w))
       (mem_hashes w));
  Redis_SRem k x w := (inl (), mkRedis (mem_kv w) (alter (.∖ {[x]}) k (mem_sets w)) (mem_hashes w));
  Redis_SMembers k w := (inl (elements (default ∅ (mem_sets w !! k))), w);
  Redis_HSet k fs w :=
    (inl (), mkRedis (mem_kv w) (mem_sets w)
       (<[k := foldl (λ h f, <[f.1 := f.2]> h) (default ∅ (mem_hashes w !! k)) fs]> (mem_hashes w)));
  Redis_HGet k f w :=
    (match default ∅ (mem_hashes w !! k) !! f with
     | Some v => inl v | None => inr (Bare RedisNil) end, w);
  Redis_HGetAll k w := (inl (default ∅ (mem_hashes w !! k)), w);
  Redis_HDel k fs w :=
    (inl (), mkRedis (mem_kv w) (mem_sets w)
       (alter (λ h, foldl (λ h f, delete f h) h fs) k (mem_hashes w)));
  Redis_Int64 s := match ParseInt s with Some z => inl z | None => inr (Bare ErrInternalServer) end;
|}.

Lemma foldl_delete_empty {A} (fs : list string) :
  foldl (λ h f, delete f h) (∅ : gmap string A) fs = ∅.
Proof. induction fs as [|f fs IH]; [done|]. cbn. by rewrite delete_empty. Qed.

#[export] Instance mem_redis_laws : RedisLaws mem_redis.
Proof.
  split; cbn.
  - intros k w v w'. destruct (mem_kv w !! k) as [u|] eqn:E; intros [=]; congruence.
  - intros k w e w'. destruct (mem_kv w !! k); by intros [=].
  - done.
  - by intros k v ttl w w' [=<-].
  - done.
  - by intros k w w' [=<-].
  - by intros k x w w' [=<-].
  - intros k w l w' [=<- <-] x. apply elem_of_elements.
  - done.
  - done.
  - done.
  - by intros k fs w w' [=<-].
  - by intros k w h w' [=<- <-].
  - done.
  - intros k fs w w' [=<-] k'. cbn. destruct (decide (k' = k)) as [->|].
    + rewrite lookup_alter_eq. destruct (mem_hashes w !! k); [done|]. cbn. by rewrite foldl_delete_empty.
    + by rewrite lookup_alter_ne.
  - done.
  - done.
  - intros k f w v w'. destruct (_ !! f) eqn:E; by intros [= <-].
  - intros k f w e w'. destruct (_ !! f) eqn:E; by intros [= <-].
  - done.
  - intros k w w'. case_bool_decide as Hk; [|by intros [=]]. by destruct Hk as (_ & _ & ?).
  - done.
  - done.
  - intros z Hz. by rewrite ParseInt_FormatInt.
Qed.
