(* ===== verification/MsgCache.v ===== *)
(** * The message cache (pkg/common/db/cache/msg.go)

    The sequence numbers, the recent messages, the users' deletions and the
    login tokens kept in Redis.  Each operation is a run of Redis commands. *)

From S2P Require Import Prelude.
From S2P Require Import Constants.
From S2P Require Import MsgTypes.
From S2P Require Import MsgProcessor.
From S2P Require Import MsgDoc.
From S2P Require Import Tools.
From S2P Require Import Redis.
From stdpp Require Import options.
#[local] Set Default Proof Using "Type*".

#[local] Open Scope Z_scope.

(** ** Keys *)

Definition maxSeq : string := "MAX_SEQ:".
Definition minSeq : string := "MIN_SEQ:".
Definition conversationUserMinSeq : string := "CON_USER_MIN_SEQ:".
Definition hasReadSeq : string := "HAS_READ_SEQ:".
Definition getuiToken : string := "GETUI_TOKEN".
Definition getuiTaskID : string := "GETUI_TASK_ID".
Definition FCM_TOKEN : string := "FCM_TOKEN:".
Definition messageCache : string := "MESSAGE_CACHE:".
Definition messageDelUserList : string := "MESSAGE_DEL_USER_LIST:".
Definition userDelMessagesList : string := "USER_DEL_MESSAGES_LIST:".
Definition sendMsgFailedFlag : string := "SEND_MSG_FAILED_FLAG:".
Definition userBadgeUnreadCountSum : string := "USER_BADGE_UNREAD_COUNT_SUM:".
Definition exTypeKeyLocker : string := "EX_LOCK:".
Definition uidPidToken : string := "UID_PID_TOKEN_STATUS:".

Definition getMaxSeqKey (conversationID : string) : string := maxSeq +:+ conversationID.
Definition getMinSeqKey (conversationID : string) : string := minSeq +:+ conversationID.
Definition getHasReadSeqKey (conversationID userID : string) : string :=
  hasReadSeq +:+ userID +:+ ":" +:+ conversationID.
Definition getConversationUserMinSeqKey (conversationID userID : string) : string :=
  conversationUserMinSeq +:+ conversationID +:+ "u:" +:+ userID.
Definition getMessageCacheKey (conversationID : string) (seq : Z) : string :=
  messageCache +:+ conversationID +:+ "_" +:+ FormatInt seq.
Definition allMessageCacheKey (conversationID : string) : string :=
  messageCache +:+ conversationID +:+ "_*".
Definition getMessageDelUserListKey (conversationID : string) (seq : Z) : string :=
  messageDelUserList +:+ conversationID +:+ ":" +:+ FormatInt seq.
Definition getUserDelList (conversationID userID : string) : string :=
  userDelMessagesList +:+ conversationID +:+ ":" +:+ userID.

(** ** Messages as strings

    The protobuf encoder is a parameter; it reads back what it wrote, an empty
    map of options as an absent one. *)

Class Proto := {
  proto_Marshal : MsgData → string + error;
  proto_Unmarshal : string → MsgData + error;
}.

Class ProtoLaws `{Proto} : Prop := {
  Unmarshal_Marshal m s :
    Options m ≠ Some ∅ → proto_Marshal m = inl s → proto_Unmarshal s = inl m;
}.

Definition Pb2String `{Proto} (pb : MsgData) : string + error := proto_Marshal pb.
Definition String2Pb `{Proto} (s : string) : MsgData + error := proto_Unmarshal s.

Section Cache.
Context {R : Type} `{Redis R} `{Tools} `{MapRange} `{Proto}.
(** [config.Config.MsgCacheTimeout]; the JSON decoder of [DelMsgFromCache]. *)
Context (MsgCacheTimeout : Z) (jsonpb_UnmarshalString : string → MsgData + error).

(** *** Sequence numbers *)

Definition setSeq (conversationID : string) (seq : Z) (getkey : string → string) : M R () :=
  wrap_error (run (Redis_Set (getkey conversationID) (FormatInt seq) 0)).

(** [Get(key).Int64()] *)
Definition get_int64 (key : string) : M R Z :=
  res ← run (Redis_Get key);
  lift (Redis_Int64 res).

Definition getSeq (conversationID : string) (getkey : string → string) : M R Z :=
  wrap_error (get_int64 (getkey conversationID)).

(** A missing key reads as the empty string. *)
Definition getSeqs (items : list string) (getkey : string → string) : M R (gmap string Z) :=
  fold_each items ∅ (λ m v,
    r ← try (run (Redis_Get (getkey v)));
    res ← match r with
          | inl res => mret res
          | inr err => if bool_decide (err = Bare RedisNil) then mret ""
                       else fail (WrapErr "" err)
          end;
    let val := StringToInt64 res in
    mret (if negb (val =? 0) then <[v := val]> m else m)).

Definition setSeqs (seqs : gmap string Z) (getkey : string → string) : M R () :=
  for_each (range seqs) (λ '(conversationID, seq),
    wrap_error (run (Redis_Set (getkey conversationID) (FormatInt seq) 0))).

Definition SetMaxSeq (conversationID : string) (maxSeq : Z) : M R () :=
  setSeq conversationID maxSeq getMaxSeqKey.
Definition GetMaxSeqs (conversationIDs : list string) : M R (gmap string Z) :=
  getSeqs conversationIDs getMaxSeqKey.
Definition GetMaxSeq (conversationID : string) : M R Z := getSeq conversationID getMaxSeqKey.
Definition SetMinSeq (conversationID : string) (minSeq : Z) : M R () :=
  setSeq conversationID minSeq getMinSeqKey.
Definition SetMinSeqs (seqs : gmap string Z) : M R () := setSeqs seqs getMinSeqKey.
Definition GetMinSeqs (conversationIDs : list string) : M R (gmap string Z) :=
  getSeqs conversationIDs getMinSeqKey.
Definition GetMinSeq (conversationID : string) : M R Z := getSeq conversationID getMinSeqKey.

Definition GetConversationUserMinSeq (conversationID userID : string) : M R Z :=
  wrap_error (get_int64 (getConversationUserMinSeqKey conversationID userID)).
Definition GetConversationUserMinSeqs (conversationID : string) (userIDs : list string) :
    M R (gmap string Z) :=
  getSeqs userIDs (λ userID, getConversationUserMinSeqKey conversationID userID).
Definition SetConversationUserMinSeq (conversationID userID : string) (minSeq : Z) : M R () :=
  wrap_error (run (Redis_Set (getConversationUserMinSeqKey conversationID userID)
    (FormatInt minSeq) 0)).
Definition SetConversationUserMinSeqs (conversationID : string) (seqs : gmap string Z) : M R () :=
  setSeqs seqs (λ userID, getConversationUserMinSeqKey conversationID userID).
Definition SetUserConversationsMinSeqs (userID : string) (seqs : gmap string Z) : M R () :=
  setSeqs seqs (λ conversationID, getConversationUserMinSeqKey conversationID userID).

Definition SetHasReadSeq (userID conversationID : string) (hasReadSeq : Z) : M R () :=
  wrap_error (run (Redis_Set (getHasReadSeqKey conversationID userID) (FormatInt hasReadSeq) 0)).
Definition SetHasReadSeqs (conversationID : string) (hasReadSeqs : gmap string Z) : M R () :=
  setSeqs hasReadSeqs (λ userID, getHasReadSeqKey conversationID userID).
Definition UserSetHasReadSeqs (userID : string) (hasReadSeqs : gmap string Z) : M R () :=
  setSeqs hasReadSeqs (λ conversationID, getHasReadSeqKey conversationID userID).
Definition GetHasReadSeqs (userID : string) (conversationIDs : list string) : M R (gmap string Z) :=
  getSeqs conversationIDs (λ conversationID, getHasReadSeqKey conversationID userID).
Definition GetHasReadSeq (userID conversationID : string) : M R Z :=
  wrap_error (get_int64 (getHasReadSeqKey conversationID userID)).

(** *** Login tokens *)

Definition tokenKey (userID : string) (platformID : Z) : string :=
  uidPidToken +:+ userID +:+ ":" +:+ PlatformIDToName platformID.

Definition AddTokenFlag (userID : string) (platformID : Z) (token : string) (flag : Z) : M R () :=
  wrap_error (run (Redis_HSet (tokenKey userID platformID) [(token, FormatInt flag)])).
Definition GetTokensWithoutError (userID : string) (platformID : Z) : M R (gmap string Z) :=
  m ← wrap_error (run (Redis_HGetAll (tokenKey userID platformID)));
  mret (StringToInt <$> m).
Definition SetTokenMapByUidPid (userID : string) (platform : Z) (m : gmap string Z) : M R () :=
  wrap_error (run (Redis_HSet (tokenKey userID platform) (range (FormatInt <$> m)))).
Definition DeleteTokenByUidPid (userID : string) (platform : Z) (fields : list string) : M R () :=
  wrap_error (run (Redis_HDel (tokenKey userID platform) fields)).

(** *** Messages *)

(** The messages found and the numbers that were not: an error, a message
    that does not decode or a deleted one counts as not found. *)
Definition GetMessagesBySeq (conversationID : string) (seqs : list Z) :
    M R (list MsgData * list Z) :=
  fold_each seqs ([], []) (λ '(seqMsgs, failedSeqs) seq,
    r ← try (run (Redis_Get (getMessageCacheKey conversationID seq)));
    match r with
    | inr _ => mret (seqMsgs, failedSeqs ++ [seq])
    | inl res =>
        match String2Pb res with
        | inr _ => mret (seqMsgs, failedSeqs ++ [seq])
        | inl msg =>
            if Status msg =? MsgDeleted then mret (seqMsgs, failedSeqs ++ [seq])
            else mret (seqMsgs ++ [msg], failedSeqs)
        end
    end).

Definition SetMessageToCache (conversationID : string) (msgs : list MsgData) : M R Z :=
  _ ← for_each msgs (λ msg,
    s ← wrap_error (lift (Pb2String msg));
    wrap_error (run (Redis_Set (getMessageCacheKey conversationID (Seq msg)) s MsgCacheTimeout)));
  mret (len msgs).

Definition DeleteMessages (conversationID : string) (seqs : list Z) : M R () :=
  for_each seqs (λ seq, wrap_error (run (Redis_Del (getMessageCacheKey conversationID seq)))).

Definition CleanUpOneConversationAllMsg (conversationID : string) : M R () :=
  r ← try (run (Redis_Keys (allMessageCacheKey conversationID)));
  match r with
  | inr err => if bool_decide (Unwrap err = RedisNil) then mret () else fail (WrapErr "" err)
  | inl vals => for_each vals (λ v, wrap_error (run (Redis_Del v)))
  end.

Definition DelMsgFromCache (userID : string) (seqs : list Z) : M R () :=
  for_each seqs (λ seq,
    let key := getMessageCacheKey userID seq in
    r ← try (run (Redis_Get key));
    match r with
    | inr err => if bool_decide (Unwrap err = RedisNil) then mret () else fail (WrapErr "" err)
    | inl result =>
        msg ← lift (jsonpb_UnmarshalString result);
        let msg := set_Status MsgDeleted msg in
        s ← wrap_error (lift (Pb2String msg));
        wrap_error (run (Redis_Set key s MsgCacheTimeout))
    end).

(** *** Deletions by one user *)

Definition UserDeleteMsgs (conversationID : string) (seqs : list Z) (userID : string) : M R () :=
  for_each seqs (λ seq,
    let delUserListKey := getMessageDelUserListKey conversationID seq in
    let userDelListKey := getUserDelList conversationID userID in
    _ ← wrap_error (run (Redis_SAdd delUserListKey userID));
    _ ← wrap_error (run (Redis_SAdd userDelListKey (FormatInt seq)));
    _ ← wrap_error (run (Redis_Expire delUserListKey MsgCacheTimeout));
    _ ← wrap_error (run (Redis_Expire userDelListKey MsgCacheTimeout));
    mret ()).

Definition GetUserDelList (userID conversationID : string) : M R (list Z) :=
  result ← wrap_error (run (Redis_SMembers (getUserDelList conversationID userID)));
  mret (StringToInt64 <$> result).

(** Errors are logged and the loop goes on. *)
Definition DelUserDeleteMsgsList (conversationID : string) (seqs : list Z) : M R () :=
  for_each seqs (λ seq,
    r ← try (run (Redis_SMembers (getMessageDelUserListKey conversationID seq)));
    match r with
    | inr _ | inl [] => mret ()
    | inl delUsers =>
        failedFlag ← fold_each delUsers false (λ failedFlag userID,
          r ← try (run (Redis_SRem (getUserDelList conversationID userID) (FormatInt seq)));
          mret (match r with inl _ => failedFlag | inr _ => true end));
        if (failedFlag : bool) then mret ()
        else _ ← try (run (Redis_Del (getMessageDelUserListKey conversationID seq))); mret ()
    end).

(** *** Tokens of the push services, states of messages, badges *)

Definition SetGetuiToken (token : string) (expireTime : Z) : M R () :=
  wrap_error (run (Redis_Set getuiToken token expireTime)).
Definition GetGetuiToken : M R string := wrap_error (run (Redis_Get getuiToken)).
Definition SetGetuiTaskID (taskID : string) (expireTime : Z) : M R () :=
  wrap_error (run (Redis_Set getuiTaskID taskID expireTime)).
Definition GetGetuiTaskID : M R string := wrap_error (run (Redis_Get getuiTaskID)).

Definition SetSendMsgStatus (id : string) (status : Z) : M R () :=
  wrap_error (run (Redis_Set (sendMsgFailedFlag +:+ id) (FormatInt status) 86400)).
Definition GetSendMsgStatus (id : string) : M R Z :=
  result ← wrap_error (get_int64 (sendMsgFailedFlag +:+ id));
  mret (wrap32 result).

Definition fcmKey (account : string) (platformID : Z) : string :=
  FCM_TOKEN +:+ account +:+ ":" +:+ FormatInt platformID.
Definition SetFcmToken (account : string) (platformID : Z) (fcmToken : string) (expireTime : Z) :
    M R () :=
  wrap_error (run (Redis_Set (fcmKey account platformID) fcmToken expireTime)).
Definition GetFcmToken (account : string) (platformID : Z) : M R string :=
  wrap_error (run (Redis_Get (fcmKey account platformID))).
Definition DelFcmToken (account : string) (platformID : Z) : M R () :=
  wrap_error (run (Redis_Del (fcmKey account platformID))).

Definition IncrUserBadgeUnreadCountSum (userID : string) : M R Z :=
  wrap_error (run (Redis_Incr (userBadgeUnreadCountSum +:+ userID))).
Definition SetUserBadgeUnreadCountSum (userID : string) (value : Z) : M R () :=
  wrap_error (run (Redis_Set (userBadgeUnreadCountSum +:+ userID) (FormatInt value) 0)).
Definition GetUserBadgeUnreadCountSum (userID : string) : M R Z :=
  wrap_error (get_int64 (userBadgeUnreadCountSum +:+ userID)).

(** *** Reactions to messages *)

Definition lockKey (clientMsgID TypeKey : string) : string :=
  exTypeKeyLocker +:+ clientMsgID +:+ "_" +:+ TypeKey.
(** The answer of [SETNX] is ignored. *)
Definition LockMessageTypeKey (clientMsgID TypeKey : string) : M R () :=
  wrap_error (_ ← run (Redis_SetNX (lockKey clientMsgID TypeKey) (FormatInt 1) 60); mret ()).
Definition UnLockMessageTypeKey (clientMsgID TypeKey : string) : M R () :=
  wrap_error (run (Redis_Del (lockKey clientMsgID TypeKey))).

Definition getMessageReactionExPrefix (clientMsgID : string) (sessionType : Z) : string :=
  if sessionType =? SingleChatType then "EX_SINGLE_" +:+ clientMsgID
  else if sessionType =? GroupChatType then "EX_GROUP_" +:+ clientMsgID
  else if sessionType =? SuperGroupChatType then "EX_SUPER_GROUP_" +:+ clientMsgID
  else if sessionType =? NotificationChatType then "EX_NOTIFICATION" +:+ clientMsgID
  else "".

Definition JudgeMessageReactionExist (clientMsgID : string) (sessionType : Z) : M R bool :=
  n ← wrap_error (run (Redis_Exists (getMessageReactionExPrefix clientMsgID sessionType)));
  mret (0 <? n).
Definition SetMessageTypeKeyValue (clientMsgID : string) (sessionType : Z)
    (typeKey value : string) : M R () :=
  wrap_error (run (Redis_HSet (getMessageReactionExPrefix clientMsgID sessionType)
    [(typeKey, value)])).
Definition SetMessageReactionExpire (clientMsgID : string) (sessionType expiration : Z) : M R bool :=
  wrap_error (run (Redis_Expire (getMessageReactionExPrefix clientMsgID sessionType) expiration)).
Definition GetMessageTypeKeyValue (clientMsgID : string) (sessionType : Z) (typeKey : string) :
    M R string :=
  wrap_error (run (Redis_HGet (getMessageReactionExPrefix clientMsgID sessionType) typeKey)).
Definition GetOneMessageAllReactionList (clientMsgID : string) (sessionType : Z) :
    M R (gmap string string) :=
  wrap_error (run (Redis_HGetAll (getMessageReactionExPrefix clientMsgID sessionType))).
Definition DeleteOneMessageKey (clientMsgID : string) (sessionType : Z) (subKey : string) : M R () :=
  wrap_error (run (Redis_HDel (getMessageReactionExPrefix clientMsgID sessionType) [subKey])).
End Cache.

(** ** What the operations do *)

(** The message the cache has for a sequence number, if it can be read and is
    not marked deleted. *)
Definition cached {R} `{Redis R} `{Proto} (w : R) (conversationID : string) (seq : Z) : option MsgData :=
  match (Redis_Get (getMessageCacheKey conversationID seq) w).1 with
  | inl res =>
      match String2Pb res with
      | inl msg => if Status msg =? MsgDeleted then None else Some msg
      | inr _ => None
      end
  | inr _ => None
  end.

Lemma getMaxSeqKey_inj c c' : getMaxSeqKey c = getMaxSeqKey c' → c = c'.
Proof. by intros [=]. Qed.

Lemma getMinSeqKey_inj c c' : getMinSeqKey c = getMinSeqKey c' → c = c'.
Proof. by intros [=]. Qed.

Lemma string_length_app (a b : string) :
  String.length (a +:+ b) = (String.length a + String.length b)%nat.
Proof. induction a as [|x a IH]; simpl; [done|]. by rewrite IH. Qed.

Lemma string_app_inv_r (a b c : string) : a +:+ c = b +:+ c → a = b.
Proof.
  revert b. induction a as [|x a IH]; intros [|y b]; cbn.
  - done.
  - intros Hc. exfalso. apply (f_equal String.length) in Hc. simpl in Hc.
    rewrite !string_length_app in Hc. simpl in Hc. lia.
  - intros Hc. exfalso. apply (f_equal String.length) in Hc. simpl in Hc.
    rewrite !string_length_app in Hc. simpl in Hc. lia.
  - intros [= -> ?]. f_equal. auto.
Qed.

Lemma string_app_inv_l (a b c : string) : a +:+ b = a +:+ c → b = c.
Proof. induction a as [|x a IH]; cbn; [done|]. intros [=]. auto. Qed.

(** The keys of one user's numbers, and those of one conversation's, differ. *)
Lemma getHasReadSeqKey_user_inj c u u' :
  getHasReadSeqKey c u = getHasReadSeqKey c u' → u = u'.
Proof. unfold getHasReadSeqKey. intros Hk%string_app_inv_l. by eapply string_app_inv_r. Qed.

Lemma getHasReadSeqKey_conversation_inj c c' u :
  getHasReadSeqKey c u = getHasReadSeqKey c' u → c = c'.
Proof. unfold getHasReadSeqKey. by intros ?%string_app_inv_l%string_app_inv_l%string_app_inv_l. Qed.

Lemma getConversationUserMinSeqKey_conversation_inj c c' u :
  getConversationUserMinSeqKey c u = getConversationUserMinSeqKey c' u → c = c'.
Proof.
  unfold getConversationUserMinSeqKey. intros Hk%string_app_inv_l.
  apply (string_app_inv_r _ _ ("u:" +:+ u)). exact Hk.
Qed.

Lemma getMessageCacheKey_inj c s s' :
  getMessageCacheKey c s = getMessageCacheKey c s' → s = s'.
Proof.
  unfold getMessageCacheKey. intros Hk%string_app_inv_l%string_app_inv_l%string_app_inv_l.
  by apply (inj pretty).
Qed.

Section CacheSpecs.
Context {R : Type} `{RedisLaws R} `{ToolsLaws} `{MapRange} `{ProtoLaws}.

(** A loop of writes: every pair of the map is written, other keys stay. *)
Lemma wp_setSeqs (m : gmap string Z) getkey (Q : outcome () → R → Prop) w :
  (∀ k k', getkey k = getkey k' → k = k') →
  (∀ w', (∀ k v, m !! k = Some v → kv w' !! getkey k = Some (FormatInt v)) →
     (∀ key, (∀ k, k ∈ dom m → getkey k ≠ key) → kv w' !! key = kv w !! key) → Q (Ok ()) w') →
  (∀ e w', (∀ key, (∀ k, k ∈ dom m → getkey k ≠ key) → kv w' !! key = kv w !! key) → Q (Err e) w') →
  wp (setSeqs m getkey) Q w.
Proof.
  intros Hinj Hok He. unfold setSeqs.
  apply (wp_for_each _ _ (λ done w', (∀ k v, (k, v) ∈ done → kv w' !! getkey k = Some (FormatInt v)) ∧
    (∀ key, (∀ k, k ∈ done.*1 → getkey k ≠ key) → kv w' !! key = kv w !! key))).
  - split; [|done]. intros k v. by rewrite elem_of_nil.
  - intros done [k v] rest w' Hl [Hd Ho]. apply wp_wrap_error, wp_Set.
    2:{ assert (∀ x y, (x, y) ∈ done ++ (k, v) :: rest → x ∈ dom m) as Hdom.
        { intros x y Hx. rewrite <-Hl, range_lookup in Hx. by eapply elem_of_dom_2. }
        intros e w'' _ Hw''. apply He. intros key Hk.
        rewrite Hw'' by (apply not_eq_sym, Hk, (Hdom k v), elem_of_app; right; by left).
        apply Ho. intros k' [[x y] [-> Hx]]%list_elem_of_fmap.
        apply Hk, (Hdom x y), elem_of_app. by left. }
    intros w'' Hw''. split.
    + intros k' v' [Hin|[=-> ->]%list_elem_of_singleton]%elem_of_app.
      * rewrite Hw'', lookup_insert_ne; [by apply Hd|]. intros ->%Hinj.
        pose proof (range_NoDup m) as Hnd. rewrite Hl, fmap_app, fmap_cons in Hnd. cbn in Hnd.
        apply NoDup_app in Hnd as (_ & Hnd & _). eapply (Hnd k').
        -- apply list_elem_of_fmap. by exists (k', v').
        -- apply elem_of_cons. by left.
      * by rewrite Hw'', lookup_insert_eq.
    + intros key Hk. rewrite fmap_app in Hk. rewrite Hw'', lookup_insert_ne.
      * apply Ho. intros k' Hk'. apply Hk, elem_of_app. by left.
      * apply Hk, elem_of_app. right. by apply list_elem_of_singleton.
  - intros w' [Hd Ho]. apply Hok.
    + intros k v Hk. by apply Hd, range_lookup.
    + intros key Hk. apply Ho. intros k [[k' v] [-> Hin]]%list_elem_of_fmap.
      apply Hk, elem_of_dom. rewrite range_lookup in Hin. eauto.
Qed.

(** Reading messages answers, in order, those found, and, in order, the
    numbers of the others; it never fails. *)
Lemma wp_GetMessagesBySeq c seqs (Q : outcome (list MsgData * list Z) → R → Prop) w :
  Q (Ok (omap (cached w c) seqs, filter (λ s, cached w c s = None) seqs)) w →
  wp (GetMessagesBySeq c seqs) Q w.
Proof.
  intros HQ. unfold GetMessagesBySeq.
  apply (wp_fold_each _ _ _ (λ done r w', w' = w ∧
    r = (omap (cached w c) done, filter (λ s, cached w c s = None) done))).
  - done.
  - intros done seq rest _ ? Hl [-> ->].
    rewrite omap_app, filter_app, filter_cons, filter_nil.
    pose proof (Get_keeps (getMessageCacheKey c seq) w) as Hk.
    assert (cached w c seq = match (Redis_Get (getMessageCacheKey c seq) w).1 with
      | inl res => match String2Pb res with
        | inl msg => if Status msg =? MsgDeleted then None else Some msg | inr _ => None end
      | inr _ => None end) as Hc by done.
    cbn [omap list_omap]. apply wp_bind, wp_try, wp_run; intros x w' E; rewrite E in *; cbn in Hk, Hc; subst w'.
    + destruct (String2Pb x) as [msg|?]; [|by rewrite Hc, decide_True, app_nil_r by done].
      destruct (Status msg =? MsgDeleted); rewrite Hc.
      * by rewrite decide_True, app_nil_r by done.
      * by rewrite decide_False, app_nil_r by done.
    + by rewrite Hc, decide_True, app_nil_r by done.
  - by intros r w' [-> ->].
Qed.

(** A loop of reads answers the numbers that are stored and are not 0. *)
Lemma wp_getSeqs (items : list string) getkey (num : string → option Z)
    (Q : outcome (gmap string Z) → R → Prop) w :
  (∀ v, v ∈ items → kv w !! getkey v = FormatInt <$> num v ∧ (∀ z, num v = Some z → int64 z)) →
  (∀ m, (∀ v z, m !! v = Some z ↔ v ∈ items ∧ num v = Some z ∧ z ≠ 0) → Q (Ok m) w) →
  (∀ e, Q (Err e) w) →
  wp (getSeqs items getkey) Q w.
Proof.
  intros Hnum Hok He. unfold getSeqs.
  apply (wp_fold_each _ _ _ (λ done m w', w' = w ∧
    ∀ v z, m !! v = Some z ↔ v ∈ done ∧ num v = Some z ∧ z ≠ 0)).
  - split; [done|]. intros v z. rewrite lookup_empty, elem_of_nil. split; [done|tauto].
  - intros done v rest m ? Hl [-> Hm].
    destruct (Hnum v) as [Hk Hi]; [rewrite Hl; apply elem_of_app; right; by left|].
    assert (∀ n : Z, default 0 (num v) = n → w = w ∧ ∀ v0 z,
      (if negb (n =? 0) then <[v := n]> m else m) !! v0 = Some z ↔
      v0 ∈ done ++ [v] ∧ num v0 = Some z ∧ z ≠ 0) as Hgoal.
    { intros n Hn. split; [reflexivity|]. intros v0 z.
      rewrite elem_of_app, list_elem_of_singleton.
      destruct (Z.eqb_spec n 0) as [Hz|Hz]; cbn [negb]; [|rewrite lookup_insert; case_decide as Hv];
        rewrite ?Hm; [|subst v0|naive_solver].
      - split; [tauto|]. intros [[?| ->] [Hv ?]]; [done|]. rewrite Hv in Hn. cbn in Hn. lia.
      - destruct (num v) as [n'|]; cbn in Hn; [subst n'|lia]. naive_solver. }
    apply wp_bind, wp_try, wp_Get.
    + intros s Hs. rewrite Hk in Hs. destruct (num v) as [n|] eqn:En; [|done]. injection Hs as <-.
      apply wp_bind, wp_ret. cbv zeta. apply wp_ret. rewrite StringToInt64_Format by auto. by apply Hgoal.
    + intros Hs. rewrite Hk in Hs. destruct (num v) as [n|] eqn:En; [done|].
      apply wp_bind. rewrite bool_decide_eq_true_2 by done. apply wp_ret. cbv zeta. apply wp_ret.
      rewrite StringToInt64_empty. by apply Hgoal.
    + intros e Hne. apply wp_bind. rewrite bool_decide_eq_false_2 by (by intros ->). apply wp_fail, He.
  - intros m w' [-> Hm]. by apply Hok.
Qed.

Lemma wp_SetMessageToCache c msgs ttl (Q : outcome Z → R → Prop) w :
  (∀ w', (∀ key, (∀ m, m ∈ msgs → getMessageCacheKey c (Seq m) ≠ key) → kv w' !! key = kv w !! key) →
     (NoDup (Seq <$> msgs) → ∀ m, m ∈ msgs → ∃ s,
        Pb2String m = inl s ∧ kv w' !! getMessageCacheKey c (Seq m) = Some s) → Q (Ok (len msgs)) w') →
  (∀ e w', (∀ key, (∀ m, m ∈ msgs → getMessageCacheKey c (Seq m) ≠ key) → kv w' !! key = kv w !! key) →
     Q (Err e) w') →
  wp (SetMessageToCache ttl c msgs) Q w.
Proof.
  intros Hok He. unfold SetMessageToCache. apply wp_bind.
  apply (wp_for_each _ _ (λ done w', 
    (∀ key, (∀ m, m ∈ done → getMessageCacheKey c (Seq m) ≠ key) → kv w' !! key = kv w !! key) ∧
    (NoDup (Seq <$> msgs) → ∀ m, m ∈ done → ∃ s,
        Pb2String m = inl s ∧ kv w' !! getMessageCacheKey c (Seq m) = Some s))).
  - split; [done|]. intros _ m. by rewrite elem_of_nil.
  - intros done m rest w' Hl [Ho Hd]. apply wp_bind, wp_wrap_error.
    assert (∀ key, (∀ m, m ∈ msgs → getMessageCacheKey c (Seq m) ≠ key) → kv w' !! key = kv w !! key) as Ho'.
    { intros key Hk. apply Ho. intros m' Hm'. apply Hk. rewrite Hl. set_solver +Hm'. }
    unfold lift, wp. destruct (Pb2String m) as [s|e] eqn:Es; cbn [of_sum]; [|by apply He].
    apply wp_wrap_error, wp_Set.
    2:{ intros e w'' _ Hw''. apply He. intros key Hk. rewrite Hw''; [by apply Ho'|].
        apply not_eq_sym, Hk. rewrite Hl. set_solver +. }
    intros w'' Hw''. split.
    + intros key Hk. rewrite Hw'', lookup_insert_ne.
      * apply Ho. intros m' Hm'. apply Hk, elem_of_app. by left.
      * apply Hk, elem_of_app. right. by apply list_elem_of_singleton.
    + intros Hnd m' [Hin| ->%list_elem_of_singleton]%elem_of_app.
      * destruct (Hd Hnd m' Hin) as [s' [? Hs']]. exists s'. split; [done|].
        rewrite Hw'', lookup_insert_ne; [done|]. intros Heq%getMessageCacheKey_inj.
        rewrite Hl, fmap_app, fmap_cons in Hnd. apply NoDup_app in Hnd as (_ & Hnd & _).
        eapply (Hnd (Seq m')).
        -- apply list_elem_of_fmap. eauto.
        -- rewrite <-Heq. apply elem_of_cons. by left.
      * exists s. split; [done|]. by rewrite Hw'', lookup_insert_eq.
  - intros w' [Ho Hd]. apply wp_ret. by apply Hok.
Qed.

(** Reading a number that the cache holds in decimal. *)
Lemma wp_get_number key old w (Q : outcome Z → R → Prop) :
  kv w !! key = FormatInt <$> old → (∀ z, old = Some z → int64 z) →
  (∀ z, old = Some z → Q (Ok z) w) →
  (old = None → Q (Err (Wrap RedisNil "")) w) →
  (∀ e, Unwrap e ≠ RedisNil → Q (Err e) w) →
  wp (wrap_error (get_int64 key)) Q w.
Proof.
  intros Hk Hold Hs Hn He. apply wp_wrap_error, wp_bind, wp_Get.
  - intros v Hv. rewrite Hk in Hv. destruct old as [z|]; [|done]. injection Hv as <-.
    unfold lift, wp. rewrite Int64_Format by auto. by apply Hs.
  - intros Hv. rewrite Hk in Hv. destruct old; [done|]. by apply Hn.
  - intros e Hne. by apply He.
Qed.

Lemma wp_SetMaxSeq c v w (Q : outcome () → R → Prop) :
  (∀ w', kv w' = <[getMaxSeqKey c := FormatInt v]> (kv w) → Q (Ok ()) w') →
  (∀ e w', Unwrap e ≠ RedisNil → (∀ k', k' ≠ getMaxSeqKey c → kv w' !! k' = kv w !! k') →
     Q (Err e) w') →
  wp (SetMaxSeq c v) Q w.
Proof.
  intros Hok He. apply wp_wrap_error, wp_Set; [done|].
  intros e w' ??. by apply He.
Qed.
End CacheSpecs.
