(* ===== verification/MsgDatabase.v ===== *)
(** * The message database (pkg/common/db/controller/msg.go, second part)

    [commonMsgDatabase] joins the message store and the message cache: its state
    is the pair of their states.  Sequence numbers are assigned when messages
    enter the cache; a read goes to the cache first and to the store for what
    the cache does not have. *)

From S2P Require Import Prelude.
From S2P Require Import Constants.
From S2P Require Import MsgTypes.
From S2P Require Import MsgProcessor.
From S2P Require Import MsgDoc.
From S2P Require Import MsgCollection.
From S2P Require Import MsgStore.
From S2P Require Import Tools.
From S2P Require Import Redis.
From S2P Require Import MsgCache.
From stdpp Require Import options.
#[local] Set Default Proof Using "Type*".

#[local] Open Scope Z_scope.

Abbreviation on_docs := on_fst.
Abbreviation on_cache := on_snd.

(** ** Pure parts *)

Definition set_DB_IsRead (v : bool) (m : MsgDataModel) : MsgDataModel :=
  let '(mkMsgDataModel a1 a2 a3 a4 a5 a6 a7 a8 a9 b1 b2 b3 b4 b5 b6 b7 _ b9 c1 c2 c3 c4 c5) := m in
  mkMsgDataModel a1 a2 a3 a4 a5 a6 a7 a8 a9 b1 b2 b3 b4 b5 b6 b7 v b9 c1 c2 c3 c4 c5.

(** [m.Seq = ++currentMaxSeq] for each message in turn, and the last number of
    each sender. *)
Fixpoint assign_seqs (currentMaxSeq : Z) (msgs : list MsgData) : list MsgData :=
  match msgs with
  | [] => []
  | m :: msgs' =>
      let currentMaxSeq := add64 currentMaxSeq 1 in
      set_Seq currentMaxSeq m :: assign_seqs currentMaxSeq msgs'
  end.

Definition user_seqs (msgs : list MsgData) : gmap string Z :=
  foldl (λ t m, <[SendID m := Seq m]> t) ∅ msgs.

(** [for i := lo; i <= hi; i++ { seqs = append(seqs, i) }]: it never ends if
    [hi] is the largest [int64]. *)
Definition count_up {W} (lo hi : Z) : M W (list Z) :=
  if (lo <=? hi) && (hi =? 2 ^ 63 - 1) then out_of_fuel
  else mret (seqZ lo (hi - lo + 1)).

(** The last [num] numbers between [begin] and [end]. *)
Definition window_seqs {W} (begin end_ num : Z) : M W (list Z) :=
  if add64 (sub64 end_ begin) 1 <=? num then count_up begin end_
  else count_up (add64 (sub64 end_ num) 1) end_.

Section Reget.
Context `{Tools}.
(** The loop that looks below [newBegin] for replacements of the messages the
    user deleted; [i] advances only past a number that is not deleted. *)
Fixpoint reget_loop {W} (fuel : nat) (newBegin begin cacheDelNum : Z) (delSeqs : list Z)
    (i : Z) (acc : list Z) : M W (list Z) :=
  match fuel with
  | O => out_of_fuel
  | S fuel =>
      if i <=? cacheDelNum then
        let newSeq := sub64 newBegin i in
        if begin <=? newSeq then
          if negb (Contain newSeq delSeqs)
          then reget_loop fuel newBegin begin cacheDelNum delSeqs (i + 1) (acc ++ [newSeq])
          else reget_loop fuel newBegin begin cacheDelNum delSeqs i acc
        else mret acc
      else mret acc
  end.
End Reget.

Definition nil_or {A} (r : A + error) (zero : A) : A + error :=
  match r with
  | inl a => inl a
  | inr e => if bool_decide (Unwrap e = RedisNil) then inl zero else inr e
  end.

(** [x, err := m; if err != nil && errs.Unwrap(err) != redis.Nil { return err }] *)
Definition or_zero {W} (m : M W Z) : M W Z := r ← try m; lift (nil_or r 0).

(** State of [deleteMsgRecursion]. *)
Record delMsgRecursionStruct := mkDelStruct { del_minSeq : Z; delDocIDs : list string }.
Definition getSetMinSeq (d : delMsgRecursionStruct) : Z := del_minSeq d.

Section Database.
Context {W R : Type} `{MsgCollection W} `{Redis R} `{Tools} `{MapRange} `{Proto}.
Context (MsgCacheTimeout : Z).
Context (json_revoke : MessageRevokedContent → string + error) (json_elem : string → string + error).

(** *** Writing *)

Definition commonMsgDatabase_MarkSingleChatMsgsAsRead (userID conversationID : string)
    (totalSeqs : list Z) : M (W * R) () :=
  for_each (range (GetDocIDSeqsMap conversationID totalSeqs)) (λ '(docID, seqs),
    on_docs (Driver_MarkSingleChatMsgsAsRead userID docID (GetMsgIndex <$> seqs))).

Definition commonMsgDatabase_DeleteMessagesFromCache (conversationID : string) (seqs : list Z) :
    M (W * R) () := on_cache (DeleteMessages conversationID seqs).
Definition commonMsgDatabase_DelUserDeleteMsgsList (conversationID : string) (seqs : list Z) :
    M (W * R) () := on_cache (DelUserDeleteMsgsList conversationID seqs).

(** The batch is numbered and the cache written. *)
Definition insert_numbered (conversationID : string) (isNew : bool) (lastMaxSeq : Z)
    (msgs : list MsgData) : M (W * R) (Z * bool * option error * list MsgData) :=
  let msgs := assign_seqs lastMaxSeq msgs in
  let currentMaxSeq := default lastMaxSeq (Seq <$> last msgs) in
  let userSeqMap := user_seqs msgs in
  _ ← try (on_cache (SetMessageToCache MsgCacheTimeout conversationID msgs));
  err ← try (on_cache (SetMaxSeq conversationID currentMaxSeq));
  _ ← try (on_cache (SetHasReadSeqs conversationID userSeqMap));
  mret (lastMaxSeq, isNew,
        match err with inl _ => None | inr e => Some (WrapErr "" e) end, msgs).

(** The results are the last sequence number before the batch, whether the
    conversation is new, the error, and the messages, numbered in place. *)
Definition BatchInsertChat2Cache (conversationID : string) (msgs : list MsgData) :
    M (W * R) (Z * bool * option error * list MsgData) :=
  r ← try (on_cache (GetMaxSeq conversationID));
  match nil_or r 0 with
  | inr err => mret (0, false, Some err, msgs)
  | inl currentMaxSeq =>
      if GetSingleGocMsgNum <? len msgs then
        mret (0, false, Some (Bare (ErrText "too large")), msgs)
      else if len msgs <? 1 then
        mret (0, false, Some (Bare (ErrText "too short as 0")), msgs)
      else
        let isNew := match r with inl _ => false | inr _ => true end in
        insert_numbered conversationID isNew currentMaxSeq msgs
  end.

(** *** Reading from the store *)

Definition mark_read (info : MsgInfoModel) : M (W * R) MsgInfoModel :=
  if Info_IsRead info then
    m ← deref (Info_Msg info); mret (Info_set_Msg (Some (set_DB_IsRead true m)) info)
  else mret info.

Definition findMsgInfoBySeq (userID docID : string) (seqs : list Z) : M (W * R) (list MsgInfoModel) :=
  msgs ← on_docs (GetMsgBySeqIndexIn1Doc json_revoke json_elem userID docID seqs);
  fold_each msgs [] (λ acc msg, msg' ← mark_read msg; mret (acc ++ [msg'])).

Definition getMsgBySeqs (userID conversationID : string) (seqs : list Z) :
    M (W * R) (list (option MsgData)) :=
  fold_each (range (GetDocIDSeqsMap conversationID seqs)) [] (λ totalMsgs '(docID, seqs),
    msgs ← findMsgInfoBySeq userID docID seqs;
    mret (totalMsgs ++ ((λ msg, MsgDB2Pb (Info_Msg msg)) <$> msgs))).

Definition getMsgBySeqsRange (userID conversationID : string) (allSeqs : list Z) (begin end_ : Z) :
    M (W * R) (list (option MsgData)) :=
  fold_each (range (GetDocIDSeqsMap conversationID allSeqs)) [] (λ seqMsgs '(docID, seqs),
    msgs ← findMsgInfoBySeq userID docID seqs;
    fold_each msgs seqMsgs (λ seqMsgs msg,
      msg' ← mark_read msg; mret (seqMsgs ++ [MsgDB2Pb (Info_Msg msg')]))).

(** *** Reading *)

(** The messages of the cache that the user did not delete, and as many older
    ones in their place; the numbers the cache does not have. *)
Definition without_deleted (fuel : nat) (userID conversationID : string) (begin newBegin : Z)
    (cachedMsgs : list MsgData) (failedSeqs : list Z) : M (W * R) (list MsgData * list Z) :=
  if 0 <? len cachedMsgs then
    r ← try (on_cache (GetUserDelList userID conversationID));
    delSeqs ← lift (nil_or r []);
    let successMsgs := filter (λ m, Contain (Seq m) delSeqs = false) cachedMsgs in
    let cacheDelNum := len cachedMsgs - len successMsgs in
    reGetSeqsCache ← reget_loop fuel newBegin begin cacheDelNum delSeqs 1 [];
    if 0 <? len reGetSeqsCache then
      '(cachedMsgs, failedSeqs2) ← on_cache (GetMessagesBySeq conversationID reGetSeqsCache);
      mret (successMsgs ++ cachedMsgs, failedSeqs ++ failedSeqs2)
    else mret (successMsgs, failedSeqs)
  else mret ([], failedSeqs).

(** The messages of the window, cache first. *)
Definition read_window (fuel : nat) (userID conversationID : string) (begin end_ : Z)
    (newBegin : Z) (seqs : list Z) : M (W * R) (list (option MsgData)) :=
  '(cachedMsgs, failedSeqs) ← on_cache (GetMessagesBySeq conversationID seqs);
  '(successMsgs, failedSeqs) ←
    without_deleted fuel userID conversationID begin newBegin cachedMsgs failedSeqs;
  if 0 <? len failedSeqs then
    mongoMsgs ← getMsgBySeqsRange userID conversationID failedSeqs begin end_;
    mret (mongoMsgs ++ (Some <$> successMsgs))
  else mret (Some <$> successMsgs).

Definition GetMsgBySeqsRange (fuel : nat) (userID conversationID : string)
    (begin end_ num userMaxSeq : Z) : M (W * R) (Z * Z * list (option MsgData)) :=
  userMinSeq ← or_zero (on_cache (GetConversationUserMinSeq conversationID userID));
  minSeq ← or_zero (on_cache (GetMinSeq conversationID));
  let minSeq := if minSeq <? userMinSeq then userMinSeq else minSeq in
  if end_ <? minSeq then mret (0, 0, [])
  else
    maxSeq ← or_zero (on_cache (GetMaxSeq conversationID));
    let maxSeq := if negb (userMaxSeq =? 0) && (userMaxSeq <? maxSeq) then userMaxSeq else maxSeq in
    let begin := if begin <? minSeq then minSeq else begin in
    let end_ := if maxSeq <? end_ then maxSeq else end_ in
    _ ← guard (end_ <? begin) (Wrap ErrArgs "seq end < begin");
    seqs ← window_seqs begin end_ num;
    match seqs with
    | [] => mret (0, 0, [])
    | newBegin :: _ =>
        successMsgs ← read_window fuel userID conversationID begin end_ newBegin seqs;
        mret (minSeq, maxSeq, successMsgs)
    end.

Definition GetMsgBySeqs (userID conversationID : string) (seqs : list Z) :
    M (W * R) (Z * Z * list (option MsgData)) :=
  userMinSeq ← or_zero (on_cache (GetConversationUserMinSeq conversationID userID));
  minSeq ← or_zero (on_cache (GetMinSeq conversationID));
  maxSeq ← or_zero (on_cache (GetMaxSeq conversationID));
  let minSeq := if userMinSeq <? minSeq then userMinSeq else minSeq in
  let newSeqs := filter (λ seq, minSeq ≤ seq ∧ seq ≤ maxSeq) seqs in
  '(successMsgs, failedSeqs) ← on_cache (GetMessagesBySeq conversationID newSeqs);
  if 0 <? len failedSeqs then
    mongoMsgs ← getMsgBySeqs userID conversationID failedSeqs;
    mret (minSeq, maxSeq, (Some <$> successMsgs) ++ mongoMsgs)
  else mret (minSeq, maxSeq, Some <$> successMsgs).

(** *** Deleting *)

Definition DeleteMsgsPhysicalBySeqs (conversationID : string) (allSeqs : list Z) : M (W * R) () :=
  _ ← on_cache (DeleteMessages conversationID allSeqs);
  for_each (range (GetDocIDSeqsMap conversationID allSeqs)) (λ '(docID, seqs),
    on_docs (DeleteMsgsInOneDocByIndex docID (GetMsgIndex <$> seqs))).

Definition DeleteUserMsgsBySeqs (userID conversationID : string) (seqs : list Z) : M (W * R) () :=
  '(cachedMsgs, _) ← on_cache (GetMessagesBySeq conversationID seqs);
  _ ← (if 0 <? len cachedMsgs then
         on_cache (UserDeleteMsgs MsgCacheTimeout conversationID (Seq <$> cachedMsgs) userID)
       else mret ());
  for_each (range (GetDocIDSeqsMap conversationID seqs)) (λ '(docID, seqs),
    for_each seqs (λ seq,
      _ ← on_docs (PushUnique docID (GetMsgIndex seq) "del_list" [userID]); mret ())).

Definition DeleteMsgsBySeqs (conversationID : string) (seqs : list Z) : M (W * R) () := mret ().

Definition CleanUpUserConversationsMsgs (user : string) (conversationIDs : list string) :
    M (W * R) () :=
  for_each conversationIDs (λ conversationID,
    r ← try (on_cache (GetMaxSeq conversationID));
    match r with
    | inr _ => mret ()
    | inl maxSeq =>
        _ ← try (on_cache (SetMinSeq conversationID (add64 maxSeq 1))); mret ()
    end).

Section Expiry.
(** The clock, which stands still during a run. *)
Context (now : Z).

Definition expired (remainTime : Z) (m : MsgDataModel) : bool :=
  add64 (DB_SendTime m) (mul64 remainTime 1000) <? now.

(** [m.Msg[len(m.Msg)-1].Msg] *)
Definition last_msg (doc : MsgDocModel) : M (W * R) MsgDataModel :=
  p ← deref (last (Msg doc)); info ← deref p; deref (Info_Msg info).

(** The indexes, from [i] on, of the expired messages. *)
Fixpoint expired_indexes (remainTime i : Z) (slots : list (option MsgInfoModel)) : list Z :=
  match slots with
  | [] => []
  | p :: slots' =>
      (match p ≫= Info_Msg with
       | Some m => if expired remainTime m then [i] else []
       | None => []
       end) ++ expired_indexes remainTime (i + 1) slots'
  end.

(** [msgDocModel.IsFull() && ... < now] *)
Definition full_and_expired (doc : MsgDocModel) (remainTime : Z) : M (W * R) bool :=
  full ← IsFull doc;
  if (full : bool) then m ← last_msg doc; mret (expired remainTime m) else mret false.

(** One document of the recursion. *)
Definition delete_in_doc (doc : MsgDocModel) (remainTime : Z) (d : delMsgRecursionStruct) :
    M (W * R) delMsgRecursionStruct :=
  whole ← full_and_expired doc remainTime;
  if (whole : bool) then
    m ← last_msg doc;
    mret (mkDelStruct (DB_Seq m) (delDocIDs d ++ [DocID doc]))
  else
    let delMsgIndexs := expired_indexes remainTime 0 (Msg doc) in
    match last delMsgIndexs with
    | None => mret d
    | Some i =>
        _ ← try (on_docs (DeleteMsgsInOneDocByIndex (DocID doc) delMsgIndexs));
        p ← slice_get i (Msg doc);
        info ← deref p;
        m ← deref (Info_Msg info);
        mret (mkDelStruct (DB_Seq m) (delDocIDs d))
    end.

Fixpoint deleteMsgRecursion (fuel : nat) (conversationID : string) (index : Z)
    (delStruct : delMsgRecursionStruct) (remainTime : Z) : M (W * R) Z :=
  match fuel with
  | O => out_of_fuel
  | S fuel =>
      r ← try (on_docs (GetMsgDocModelByIndex conversationID index 1));
      let stop := (_ ← on_docs (DeleteDocs (delDocIDs delStruct));
                   mret (add64 (getSetMinSeq delStruct) 1)) in
      match r with
      | inr _ => stop
      | inl msgDocModel =>
          if bool_decide (DocID msgDocModel = "") then stop
          else
            delStruct ← delete_in_doc msgDocModel remainTime delStruct;
            deleteMsgRecursion fuel conversationID (add64 index 1) delStruct remainTime
      end
  end.

Definition DeleteConversationMsgsAndSetMinSeq (fuel : nat) (conversationID : string)
    (remainTime : Z) : M (W * R) () :=
  minSeq ← deleteMsgRecursion fuel conversationID 0 (mkDelStruct 0 []) remainTime;
  if minSeq =? 0 then mret ()
  else
    _ ← (if remainTime =? 0 then
           _ ← try (on_cache (CleanUpOneConversationAllMsg conversationID)); mret ()
         else mret ());
    on_cache (SetMinSeq conversationID minSeq).

(** The numbers of the messages of one document to destruct, and whether a
    slot stopped the search. *)
Fixpoint destruct_slots (userID : string) (destructTime last : Z)
    (slots : list (option MsgInfoModel)) (seqs : list Z) : list Z * bool :=
  match slots with
  | [] => (seqs, false)
  | p :: slots' =>
      match p with
      | Some info =>
          match Info_Msg info with
          | Some m =>
              let t := add64 (DB_SendTime m) (mul64 destructTime 1000) in
              if t <=? now then
                destruct_slots userID destructTime last slots'
                  (if (last <? t) && negb (Contain userID (default [] (Info_DelList info)))
                   then seqs ++ [DB_Seq m] else seqs)
              else (seqs, true)
          | None => (seqs, true)
          end
      | None => (seqs, true)
      end
  end.

Fixpoint destruct_loop (fuel : nat) (userID conversationID : string) (destructTime last : Z)
    (index : Z) (seqs : list Z) : M (W * R) (list Z) :=
  match fuel with
  | O => out_of_fuel
  | S fuel =>
      r ← try (on_docs (GetMsgDocModelByIndex conversationID index 1));
      match r with
      | inr _ => mret seqs
      | inl msgDocModel =>
          if bool_decide (DocID msgDocModel = "") then mret seqs
          else
            let '(seqs, over) := destruct_slots userID destructTime last (Msg msgDocModel) seqs in
            if over then mret seqs
            else destruct_loop fuel userID conversationID destructTime last (add64 index 1) seqs
      end
  end.

Definition UserMsgsDestruct (fuel : nat) (userID conversationID : string)
    (destructTime lastMsgDestructTime : Z) : M (W * R) (list Z) :=
  seqs ← destruct_loop fuel userID conversationID destructTime lastMsgDestructTime 0 [];
  match last seqs with
  | None => mret seqs
  | Some s =>
      let userMinSeq := add64 s 1 in
      currentUserMinSeq ← or_zero (on_cache (GetConversationUserMinSeq conversationID userID));
      _ ← (if currentUserMinSeq <? userMinSeq then
             on_cache (SetConversationUserMinSeq conversationID userID userMinSeq)
           else mret ());
      mret seqs
  end.
End Expiry.

(** *** Sequence numbers of the store and of the cache *)

Definition GetMinMaxSeqMongo (fuel : nat) (conversationID : string) : M (W * R) (Z * Z) :=
  oldestMsgMongo ← on_docs (GetOldestMsg fuel conversationID);
  oldest ← deref (Info_Msg oldestMsgMongo);
  newestMsgMongo ← on_docs (GetNewestMsg fuel conversationID);
  newest ← deref (Info_Msg newestMsgMongo);
  mret (DB_Seq oldest, DB_Seq newest).

Definition GetMongoMaxAndMinSeq (fuel : nat) (conversationID : string) : M (W * R) (Z * Z) :=
  GetMinMaxSeqMongo fuel conversationID.

Definition GetConversationMinMaxSeqInMongoAndCache (fuel : nat) (conversationID : string) :
    M (W * R) (Z * Z * Z * Z) :=
  '(minSeqMongo, maxSeqMongo) ← GetMinMaxSeqMongo fuel conversationID;
  minSeqCache ← on_cache (GetMinSeq conversationID);
  maxSeqCache ← on_cache (GetMaxSeq conversationID);
  mret (minSeqMongo, maxSeqMongo, minSeqCache, maxSeqCache).

(** *** Operations handed on to the cache *)

Definition commonMsgDatabase_SetMaxSeq (conversationID : string) (maxSeq : Z) : M (W * R) () :=
  on_cache (SetMaxSeq conversationID maxSeq).
Definition commonMsgDatabase_GetMaxSeqs (conversationIDs : list string) :
    M (W * R) (gmap string Z) :=
  on_cache (GetMaxSeqs conversationIDs).
Definition commonMsgDatabase_GetMaxSeq (conversationID : string) : M (W * R) Z :=
  on_cache (GetMaxSeq conversationID).
Definition commonMsgDatabase_SetMinSeq (conversationID : string) (minSeq : Z) : M (W * R) () :=
  on_cache (SetMinSeq conversationID minSeq).
Definition commonMsgDatabase_SetMinSeqs (seqs : gmap string Z) : M (W * R) () :=
  on_cache (SetMinSeqs seqs).
Definition commonMsgDatabase_GetMinSeqs (conversationIDs : list string) :
    M (W * R) (gmap string Z) :=
  on_cache (GetMinSeqs conversationIDs).
Definition commonMsgDatabase_GetMinSeq (conversationID : string) : M (W * R) Z :=
  on_cache (GetMinSeq conversationID).
Definition commonMsgDatabase_GetConversationUserMinSeq (conversationID userID : string) :
    M (W * R) Z :=
  on_cache (GetConversationUserMinSeq conversationID userID).
Definition commonMsgDatabase_GetConversationUserMinSeqs (conversationID : string) (userIDs : list string) :
    M (W * R) (gmap string Z) :=
  on_cache (GetConversationUserMinSeqs conversationID userIDs).
Definition commonMsgDatabase_SetConversationUserMinSeq (conversationID userID : string) (minSeq : Z) :
    M (W * R) () :=
  on_cache (SetConversationUserMinSeq conversationID userID minSeq).
Definition commonMsgDatabase_SetConversationUserMinSeqs (conversationID : string) (seqs : gmap string Z) :
    M (W * R) () :=
  on_cache (SetConversationUserMinSeqs conversationID seqs).
Definition commonMsgDatabase_SetUserConversationsMinSeqs (userID : string) (seqs : gmap string Z) :
    M (W * R) () :=
  on_cache (SetUserConversationsMinSeqs userID seqs).
Definition commonMsgDatabase_UserSetHasReadSeqs (userID : string) (hasReadSeqs : gmap string Z) :
    M (W * R) () :=
  on_cache (UserSetHasReadSeqs userID hasReadSeqs).
Definition commonMsgDatabase_SetHasReadSeq (userID conversationID : string) (hasReadSeq : Z) :
    M (W * R) () :=
  on_cache (SetHasReadSeq userID conversationID hasReadSeq).
Definition commonMsgDatabase_GetHasReadSeqs (userID : string) (conversationIDs : list string) :
    M (W * R) (gmap string Z) :=
  on_cache (GetHasReadSeqs userID conversationIDs).
Definition commonMsgDatabase_GetHasReadSeq (userID conversationID : string) : M (W * R) Z :=
  on_cache (GetHasReadSeq userID conversationID).
Definition commonMsgDatabase_SetSendMsgStatus (id : string) (status : Z) : M (W * R) () :=
  on_cache (SetSendMsgStatus id status).
Definition commonMsgDatabase_GetSendMsgStatus (id : string) : M (W * R) Z :=
  on_cache (GetSendMsgStatus id).
End Database.

(** ** Assigning sequence numbers *)

Lemma Seq_set_Seq v m : Seq (set_Seq v m) = v.
Proof. by destruct m. Qed.

Lemma assign_seqs_lookup n msgs i :
  - 2 ^ 63 ≤ n → n + len msgs < 2 ^ 63 →
  assign_seqs n msgs !! i = set_Seq (n + 1 + Z.of_nat i) <$> msgs !! i.
Proof.
  unfold len. revert n i. induction msgs as [|m msgs IH]; intros n i Hn Hl; [done|].
  cbn [length] in Hl. cbn [assign_seqs]. cbv zeta. rewrite add64_id by (unfold int64; lia).
  destruct i as [|i].
  - change (Some (set_Seq (n + 1) m) = Some (set_Seq (n + 1 + 0) m)). by rewrite Z.add_0_r.
  - change (assign_seqs (n + 1) msgs !! i = set_Seq (n + 1 + Z.of_nat (S i)) <$> msgs !! i).
    rewrite IH by lia. by replace (n + 1 + 1 + Z.of_nat i) with (n + 1 + Z.of_nat (S i)) by lia.
Qed.

Lemma assign_seqs_length n msgs : length (assign_seqs n msgs) = length msgs.
Proof. revert n. induction msgs as [|m msgs IH]; intros n; [done|]. cbn. f_equal. apply IH. Qed.

Lemma assign_seqs_last n msgs :
  - 2 ^ 63 ≤ n → n + len msgs < 2 ^ 63 → msgs ≠ [] →
  Seq <$> last (assign_seqs n msgs) = Some (n + len msgs).
Proof.
  intros Hn Hl Hne. rewrite last_lookup, assign_seqs_length, assign_seqs_lookup by done.
  destruct msgs as [|m msgs _] using rev_ind; [done|].
  rewrite length_app, Nat.add_comm. cbn [length Nat.add pred].
  rewrite lookup_app_r, Nat.sub_diag by done. cbn.
  rewrite Seq_set_Seq. f_equal. unfold len. rewrite length_app. cbn. lia.
Qed.

Lemma wp_or_zero {W} (m : M W Z) (Q : outcome Z → W → Prop) w :
  wp m (λ r w', match r with
                | Ok a => Q (Ok a) w'
                | Err e => (Unwrap e = RedisNil → Q (Ok 0) w') ∧ (Unwrap e ≠ RedisNil → Q (Err e) w')
                | Panic => Q Panic w'
                | OutOfFuel => Q OutOfFuel w'
                end) w →
  wp (or_zero m) Q w.
Proof.
  intros Hm. apply wp_bind, wp_try. eapply wp_mono; [|exact Hm].
  intros [a|e| |] w' HQ; cbn; try exact HQ. destruct HQ as [Hn He].
  unfold lift, wp, nil_or. case_bool_decide; cbn; auto.
Qed.

Section DatabaseProofs.
Context {W R : Type} `{MsgCollectionLaws W} `{RedisLaws R} `{ToolsLaws} `{MapRange} `{ProtoLaws}.

(** A number of the cache, 0 when it is absent. *)
Lemma wp_number_or_zero (key : string) old (w : W * R) (Q : outcome Z → W * R → Prop) :
  kv w.2 !! key = FormatInt <$> old → (∀ z, old = Some z → int64 z) →
  Q (Ok (default 0 old)) w → (∀ e, Unwrap e ≠ RedisNil → Q (Err e) w) →
  wp (or_zero (on_cache (wrap_error (get_int64 key)))) Q w.
Proof.
  intros Hk Hold Hok He. apply wp_or_zero, wp_on_snd, (wp_get_number _ old); [done|done| | |].
  - intros z ->. by destruct w.
  - intros ->. by destruct w.
  - intros e Hne. split; [done|]. destruct w. auto.
Qed.

(** The cache answers for a key, if only that it is absent. *)
Definition answers_get (key : string) (r : R) : Prop :=
  match (Redis_Get key r).1 with inl _ => True | inr e => Unwrap e = RedisNil end.
Lemma wp_number_or_fails (key : string) old (w : W * R) (Q : outcome Z → W * R → Prop) :
  kv w.2 !! key = FormatInt <$> old → (∀ z, old = Some z → int64 z) →
  Q (Ok (default 0 old)) w → (∀ e, ¬ answers_get key w.2 → Q (Err e) w) →
  wp (or_zero (on_cache (wrap_error (get_int64 key)))) Q w.
Proof.
  intros Hk Hold Hok He. unfold answers_get in He. pose proof (Get_keeps key w.2) as Hkeep.
  destruct (Redis_Get key w.2) as [[v|e] w'] eqn:E; cbn in Hkeep, He; subst w'.
  - apply wp_or_zero, wp_on_snd, wp_wrap_error, wp_bind. unfold wp at 1, run. rewrite E.
    apply Get_some in E. rewrite Hk in E. destruct old as [z|]; [|done]. injection E as <-.
    cbn [of_sum]. rewrite Int64_Format by auto. by destruct w.
  - destruct (decide (Unwrap e = RedisNil)); [|apply (wp_number_or_zero _ old); auto].
    apply wp_or_zero, wp_on_snd, wp_wrap_error, wp_bind. unfold wp at 1, run. rewrite E.
    destruct (Get_nil _ _ _ _ E ltac:(done)) as [-> Hn]. rewrite Hk in Hn. destruct old; [done|]. by destruct w.
Qed.

(** What is promised of the result and of the last number. *)
Definition inserted (c : string) (msgs : list MsgData) (old : option Z) (w : W * R)
    (r : outcome (Z * bool * option error * list MsgData)) (w' : W * R) : Prop :=
  w'.1 = w.1 ∧ (∀ c', c' ≠ c → kv w'.2 !! getMaxSeqKey c' = kv w.2 !! getMaxSeqKey c') ∧
  match r with
  | Ok (lastMax, isNew, err, msgs') =>
      (1 ≤ len msgs ≤ GetSingleGocMsgNum ∨ msgs' = msgs ∧ is_Some err) ∧
      length msgs' = length msgs ∧ (∀ e, err = Some e → Unwrap e ≠ RedisNil) ∧
      (err = None →
        lastMax = default 0 old ∧ isNew = bool_decide (old = None) ∧
        (∀ i, msgs' !! i = set_Seq (lastMax + 1 + Z.of_nat i) <$> msgs !! i) ∧
        kv w'.2 !! getMaxSeqKey c = Some (FormatInt (lastMax + len msgs)))
  | _ => False
  end.

Lemma inserted_refused c msgs old w n b e :
  Unwrap e ≠ RedisNil → inserted c msgs old w (Ok (n, b, Some e, msgs)) w.
Proof.
  intros He. do 2 (split; [done|]). split; [right; eauto|]. split; [done|]. split; [|done].
  by intros ? [= <-].
Qed.

Lemma wp_insert_numbered ttl c msgs old w :
  (∀ z, old = Some z → 0 ≤ z < 2 ^ 63 - 100) → 1 ≤ len msgs ≤ 100 →
  wp (insert_numbered ttl c (bool_decide (old = None)) (default 0 old) msgs)
    (inserted c msgs old w) w.
Proof.
  intros Hold Hlen.
  assert (0 ≤ default 0 old < 2 ^ 63 - 100) as Hb by (destruct old; cbn; [by apply Hold|lia]).
  unfold insert_numbered. cbv zeta.
  rewrite assign_seqs_last; [|lia..|by intros ->; unfold len in Hlen; cbn in Hlen; lia]. cbn [default].
  set (msgs' := assign_seqs (default 0 old) msgs).
  assert (∀ i, msgs' !! i = set_Seq (default 0 old + 1 + Z.of_nat i) <$> msgs !! i) as Hget
    by (intros i; apply assign_seqs_lookup; lia).
  assert (∀ c', c' ≠ c → getMaxSeqKey c' ≠ getMaxSeqKey c) as Hother
    by (intros c' Hc' ?%getMaxSeqKey_inj; done).
  assert (∀ r err, (∀ c', c' ≠ c → kv r !! getMaxSeqKey c' = kv w.2 !! getMaxSeqKey c') →
    (err = None → kv r !! getMaxSeqKey c = Some (FormatInt (default 0 old + len msgs))) →
    (∀ e, err = Some e → Unwrap e ≠ RedisNil) →
    inserted c msgs old w (Ok (default 0 old, bool_decide (old = None), err, msgs')) (w.1, r)) as Hend.
  { intros r err Hr Hm Hn. do 2 (split; [done|]). split; [by left|].
    split; [apply assign_seqs_length|]. split; [done|]. intros He. split_and!; auto. }
  assert (∀ r, (∀ c', kv r !! getMaxSeqKey c' = kv w.2 !! getMaxSeqKey c') →
      wp (err ← try (on_cache (SetMaxSeq c (default 0 old + len msgs)));
        _ ← try (on_cache (SetHasReadSeqs c (user_seqs msgs')));
        mret (default 0 old, bool_decide (old = None),
              match err with inl _ => None | inr e => Some (WrapErr "" e) end, msgs'))
     (inserted c msgs old w) (w.1, r)) as Hrest.
  { intros r1 Hr1. apply wp_bind, wp_try, wp_on_snd, wp_SetMaxSeq; cbn [fst snd].
    - intros r Hr. apply wp_bind, wp_try, wp_on_snd, wp_setSeqs; cbn [fst snd];
        [intros k k'; apply getHasReadSeqKey_user_inj|intros r' _ Hr'|intros e r' Hr'];
        (apply wp_ret, Hend; [intros c' Hc'|intros _|done]; rewrite Hr' by (intros; discriminate);
         rewrite Hr; [rewrite lookup_insert_ne; [done|by apply not_eq_sym, Hother]|apply lookup_insert_eq]).
    - intros e r Hne Hr. apply wp_bind, wp_try, wp_on_snd, wp_setSeqs; cbn [fst snd];
        [intros k k'; apply getHasReadSeqKey_user_inj|intros r' _ Hr'|intros e' r' Hr'];
        (apply wp_ret, Hend; [intros c' Hc'|done|by intros ? [= <-]]; rewrite Hr' by (intros; discriminate);
         by rewrite Hr by by apply Hother). }
  apply wp_bind, wp_try, wp_on_snd, wp_SetMessageToCache; cbn [fst snd]; intros; apply Hrest; auto.
Qed.

Lemma wp_BatchInsertChat2Cache ttl c msgs old w :
  kv w.2 !! getMaxSeqKey c = FormatInt <$> old →
  (∀ z, old = Some z → 0 ≤ z < 2 ^ 63 - 100) →
  wp (BatchInsertChat2Cache ttl c msgs) (inserted c msgs old w) w.
Proof.
  intros Hk Hold.
  assert (∀ z, old = Some z → int64 z) as Hi by (intros z Hz; specialize (Hold z Hz); unfold int64; lia).
  (* the part after the number is read *)
  assert (wp (if GetSingleGocMsgNum <? len msgs then
          mret (0, false, Some (Bare (ErrText "too large")), msgs)
        else if len msgs <? 1 then
          mret (0, false, Some (Bare (ErrText "too short as 0")), msgs)
        else insert_numbered ttl c (bool_decide (old = None)) (default 0 old) msgs)
      (inserted c msgs old w) w) as Hrest.
  { destruct (GetSingleGocMsgNum <? len msgs) eqn:Hbig; [by apply wp_ret, inserted_refused|].
    destruct (len msgs <? 1) eqn:Hsmall; [by apply wp_ret, inserted_refused|].
    apply Z.ltb_ge in Hbig, Hsmall. by apply wp_insert_numbered. }
  unfold BatchInsertChat2Cache, GetMaxSeq, getSeq.
  apply wp_bind, wp_try, wp_on_snd, (wp_get_number _ old); [done|done| | |].
  - intros z ->. cbn in *. by destruct w.
  - intros ->. cbn in *. by destruct w.
  - intros e Hne. cbn. rewrite bool_decide_eq_false_2 by done. destruct w. by apply wp_ret, inserted_refused.
Qed.
End DatabaseProofs.

(** C29: when a batch of messages enters the cache of
    a conversation whose last sequence number is [old] (none: a new
    conversation), it is refused if it is empty or larger than a document;
    otherwise the messages get the consecutive numbers that follow [old], in
    order, and if the call reports no error the conversation's last sequence
    number is that of the last message.  The message store and the last numbers
    of other conversations are not touched. *)
Theorem BatchInsertChat2Cache_numbers {W R} `{MsgCollectionLaws W} `{RedisLaws R} `{ToolsLaws}
    `{MapRange} `{ProtoLaws} ttl c msgs old (w : W * R) :
  kv w.2 !! getMaxSeqKey c = FormatInt <$> old →
  (∀ z, old = Some z → 0 ≤ z < 2 ^ 63 - 100) →
  let '(r, w') := BatchInsertChat2Cache ttl c msgs w in inserted c msgs old w r w'.
Proof. apply wp_BatchInsertChat2Cache. Qed.

(** ** Reading a range *)

Lemma window_seqs_eq {W} begin end_ num (w : W) :
  0 ≤ begin ≤ end_ → end_ < 2 ^ 63 - 1 → 0 ≤ num < 2 ^ 63 →
  window_seqs begin end_ num w =
    (Ok (seqZ (Z.max begin (end_ - num + 1)) (Z.min num (end_ - begin + 1))), w).
Proof.
  intros Hb He Hn. unfold window_seqs, count_up. i64.
  rewrite (proj2 (Z.eqb_neq end_ (2 ^ 63 - 1))), !andb_false_r by lia.
  destruct (end_ - begin + 1 <=? num) eqn:Hle.
  - apply Z.leb_le in Hle. unfold mret, M_ret. do 3 f_equal; lia.
  - apply Z.leb_gt in Hle. unfold mret, M_ret. do 3 f_equal; lia.
Qed.

(** The numbers below [newBegin] that stand in for [n] deleted ones, from the [i]-th. *)
Definition stand_ins (newBegin begin n i : Z) : list Z :=
  (λ j, newBegin - j) <$> seqZ i (Z.min n (newBegin - begin) - i + 1).

Lemma stand_ins_none newBegin begin n i : n < i ∨ newBegin - begin < i → stand_ins newBegin begin n i = [].
Proof. intros Hi. unfold stand_ins. by rewrite seqZ_nil by lia. Qed.
Lemma stand_ins_cons newBegin begin n i : i ≤ n → i ≤ newBegin - begin →
  stand_ins newBegin begin n i = (newBegin - i) :: stand_ins newBegin begin n (i + 1).
Proof. intros ??. unfold stand_ins. rewrite seqZ_cons by lia. cbn. do 3 f_equal; lia. Qed.
Lemma stand_ins_elem newBegin begin n s : s ∈ stand_ins newBegin begin n 1 → begin ≤ s < newBegin.
Proof. intros (j & -> & Hj%elem_of_seqZ)%list_elem_of_fmap. lia. Qed.

(** The loop never gets past a number that is deleted. *)
Lemma reget_loop_stuck {W} `{ToolsLaws} fuel newBegin begin n del i acc (w : W) :
  0 ≤ begin → newBegin < 2 ^ 63 → 1 ≤ i ≤ n → begin ≤ newBegin - i → newBegin - i ∈ del →
  reget_loop fuel newBegin begin n del i acc w = (OutOfFuel, w).
Proof.
  intros Hb Hnb Hi Hle Hdel. induction fuel as [|fuel IH]; [done|]. cbn [reget_loop].
  rewrite (proj2 (Z.leb_le i n)) by lia. cbv zeta. i64.
  rewrite (proj2 (Z.leb_le begin (newBegin - i))) by lia.
  rewrite Contain_spec. by rewrite bool_decide_eq_true_2.
Qed.

(** With fuel for every number that is looked for, the loop gathers the stand-ins, or meets
    one that is deleted. *)
Lemma wp_reget_loop {W} `{ToolsLaws} fuel newBegin begin n del i acc (w : W)
    (Q : outcome (list Z) → W → Prop) :
  0 ≤ begin → newBegin < 2 ^ 63 → 1 ≤ i ≤ newBegin - begin + 1 → n - i + 1 < Z.of_nat fuel →
  ((∀ s, s ∈ stand_ins newBegin begin n i → s ∉ del) → Q (Ok (acc ++ stand_ins newBegin begin n i)) w) →
  ((∃ s, s ∈ stand_ins newBegin begin n i ∧ s ∈ del) → Q OutOfFuel w) → (fuel ≠ 0)%nat →
  wp (reget_loop fuel newBegin begin n del i acc) Q w.
Proof.
  intros Hb Hn Hi Hfuel HQ Hf Hpos. revert i acc Hi Hfuel HQ Hf Hpos.
  induction fuel as [|fuel IH]; intros i acc Hi Hfuel HQ Hf Hpos; [done|]. unfold wp. cbn [reget_loop].
  destruct (Z.leb_spec i n) as [Hin|Hin].
  2:{ rewrite stand_ins_none in HQ by lia. rewrite app_nil_r in HQ. apply HQ. set_solver +. }
  cbv zeta. i64. destruct (Z.leb_spec begin (newBegin - i)) as [Hle|Hle].
  2:{ rewrite stand_ins_none in HQ by lia. rewrite app_nil_r in HQ. apply HQ. set_solver +. }
  rewrite Contain_spec. rewrite stand_ins_cons in HQ, Hf by lia. case_bool_decide as Hd; cbn [negb].
  - rewrite reget_loop_stuck by (done || lia). apply Hf. exists (newBegin - i). split; [by left|done].
  - apply IH; [lia|lia| | |lia].
    + intros Hl. rewrite <-app_assoc. apply HQ. intros s [->|Hs]%elem_of_cons; auto.
    + intros (s & Hs & Hsd). apply Hf. exists s. split; [by right|done].
Qed.

Section RangeProofs.
Context {W R : Type} `{MsgCollectionLaws W} `{RedisLaws R} `{ToolsLaws} `{MapRange} `{ProtoLaws}.
Context (json_revoke : MessageRevokedContent → string + error) (json_elem : string → string + error).
Context (c u : string) (w : W * R) (umin cmin cmax : option Z).
(** The numbers the cache has for the user and for the conversation. *)
Context (Humin : kv w.2 !! getConversationUserMinSeqKey c u = FormatInt <$> umin)
        (Hcmin : kv w.2 !! getMinSeqKey c = FormatInt <$> cmin)
        (Hcmax : kv w.2 !! getMaxSeqKey c = FormatInt <$> cmax).
Definition small (z : option Z) : Prop := ∀ v, z = Some v → 0 ≤ v < 2 ^ 63 - 1.
Context (Sumin : small umin) (Scmin : small cmin) (Scmax : small cmax).
(** The request. *)
Context (begin end_ num userMax : Z).
Context (Hbegin : 0 ≤ begin < 2 ^ 63) (Hend : 0 ≤ end_ < 2 ^ 63 - 1) (Hnum : 0 ≤ num < 2 ^ 63)
        (Huser : 0 ≤ userMax < 2 ^ 63 - 1).

(** What the user may read, and the window that is read. *)
Definition low : Z := Z.max (default 0 umin) (default 0 cmin).
Definition high : Z :=
  if userMax =? 0 then default 0 cmax else Z.min userMax (default 0 cmax).
Definition lo : Z := Z.max begin low.
Definition hi : Z := Z.min end_ high.
Definition window : list Z := seqZ (Z.max lo (hi - num + 1)) (Z.min num (hi - lo + 1)).

Lemma small_range z : small z → 0 ≤ default 0 z < 2 ^ 63 - 1.
Proof. intros Hz. destruct z as [v|]; cbn; [by apply Hz|lia]. Qed.

Lemma small_int64 z : small z → ∀ v, z = Some v → int64 v.
Proof. intros Hz v Hv. specialize (Hz v Hv). unfold int64. lia. Qed.

(** The cache answers for the three numbers. *)
Definition numbers_answer : Prop :=
  answers_get (getConversationUserMinSeqKey c u) w.2 ∧ answers_get (getMinSeqKey c) w.2 ∧
  answers_get (getMaxSeqKey c) w.2.

(** The bounds of [GetMsgBySeqsRange], with the reading of the window left. *)
Lemma wp_GetMsgBySeqsRange fuel (Q : outcome (Z * Z * list (option MsgData)) → W * R → Prop) :
  (∀ e, (numbers_answer → hi < lo) → Q (Err e) w) →
  (end_ < low → Q (Ok (0, 0, [])) w) →
  (lo ≤ hi → num = 0 → Q (Ok (0, 0, [])) w) →
  (lo ≤ hi → 0 < num → wp (read_window json_revoke json_elem fuel u c lo hi
      (Z.max lo (hi - num + 1)) window)
     (λ r w', match r with
              | Ok msgs => Q (Ok (low, high, msgs)) w'
              | Err e => Q (Err e) w'
              | Panic => Q Panic w'
              | OutOfFuel => Q OutOfFuel w'
              end) w) →
  wp (GetMsgBySeqsRange json_revoke json_elem fuel u c begin end_ num userMax) Q w.
Proof.
  intros He Hlow Hzero Hread. unfold GetMsgBySeqsRange, GetConversationUserMinSeq, GetMinSeq,
    GetMaxSeq, getSeq.
  pose proof (small_range _ Sumin). pose proof (small_range _ Scmin).
  pose proof (small_range _ Scmax).
  apply wp_bind, (wp_number_or_fails _ umin); [done|by apply small_int64| |by intros; apply He; intros (? & ? & ?)].
  apply wp_bind, (wp_number_or_fails _ cmin); [done|by apply small_int64| |by intros; apply He; intros (? & ? & ?)].
  cbv zeta.
  assert ((if default 0 cmin <? default 0 umin then default 0 umin else default 0 cmin) = low) as ->.
  { unfold low. destruct (Z.ltb_spec (default 0 cmin) (default 0 umin)); lia. }
  destruct (Z.ltb_spec end_ low) as [?|Hle]; [by apply wp_ret, Hlow|].
  apply wp_bind, (wp_number_or_fails _ cmax); [done|by apply small_int64| |by intros; apply He; intros (? & ? & ?)].
  assert ((if negb (userMax =? 0) && (userMax <? default 0 cmax) then userMax else default 0 cmax)
    = high) as ->.
  { unfold high. destruct (Z.eqb_spec userMax 0), (Z.ltb_spec userMax (default 0 cmax)); cbn; lia. }
  assert ((if begin <? low then low else begin) = lo) as ->.
  { unfold lo. destruct (Z.ltb_spec begin low); lia. }
  assert ((if high <? end_ then high else end_) = hi) as ->.
  { unfold hi. destruct (Z.ltb_spec high end_); lia. }
  apply wp_bind, wp_guard; intros Hlohi; [apply He; intros _; by apply Z.ltb_lt|]. apply Z.ltb_ge in Hlohi.
  assert (0 ≤ lo) by (unfold lo; lia). assert (hi < 2 ^ 63 - 1) by (unfold hi; lia).
  apply wp_bind. unfold wp at 1. rewrite window_seqs_eq by lia. fold window.
  destruct (decide (num = 0)) as [Hz|Hpos].
  { assert (window = []) as -> by (unfold window; by rewrite Hz, Z.min_l by lia).
    by apply wp_ret, Hzero. }
  assert (window = Z.max lo (hi - num + 1) :: seqZ (Z.succ (Z.max lo (hi - num + 1)))
    (Z.pred (Z.min num (hi - lo + 1)))) as Hw.
  { unfold window. by rewrite seqZ_cons by lia. }
  destruct window as [|x rest] eqn:Ew; [done|]. injection Hw as -> _.
  apply wp_bind. eapply wp_mono; [|apply Hread; lia].
  intros [msgs|e| |] w' HQ; by try apply wp_ret.
Qed.

(** The numbers the user deleted. *)
Definition deletions : gset string := default ∅ (sets w.2 !! getUserDelList c u).
Definition deleted (s : Z) : Prop := FormatInt s ∈ deletions.
Context (Hdel : ∀ x, x ∈ deletions → ∃ z, int64 z ∧ x = FormatInt z).
(** Every message of the range is in the cache, under its own number. *)
Context (Hcached : ∀ s, lo ≤ s ≤ hi → ∃ m, cached w.2 c s = Some m ∧ Seq m = s).

Definition deletions_answer : Prop := match (Redis_SMembers (getUserDelList c u) w.2).1 with inl _ => True | _ => False end.

Lemma wp_GetUserDelList (Q : outcome (list Z) → R → Prop) :
  (∀ l, (∀ s, s ∈ l ↔ deleted s) → Q (Ok l) w.2) →
  (∀ e, Unwrap e ≠ RedisNil → ¬ deletions_answer → Q (Err e) w.2) →
  wp (GetUserDelList u c) Q w.2.
Proof.
  intros Hok He. apply wp_bind, wp_wrap_error.
  pose proof (SMembers_keeps (getUserDelList c u) w.2) as Hk. unfold deletions_answer in He.
  apply wp_run; intros x w' E; rewrite E in Hk, He; cbn in Hk; subst w'.
  2:{ apply He; [exact (SMembers_not_nil _ _ _ _ E)|by intros []]. }
  pose proof (SMembers_some _ _ _ _ E) as Hx.
  apply wp_ret, Hok. intros s. rewrite list_elem_of_fmap. unfold deleted, deletions in *. split.
  - intros (y & -> & Hy). apply Hx, Hdel in Hy as Hz. destruct Hz as (z & Hz & ->).
    rewrite StringToInt64_Format by done. exact Hy.
  - intros Hs. destruct (Hdel _ Hs) as (z & Hz & Hf). assert (s = z) as -> by (by apply (inj pretty)).
    exists (FormatInt z). by rewrite StringToInt64_Format, Hx.
Qed.

Lemma cached_all (seqs : list Z) : (∀ s, s ∈ seqs → lo ≤ s ≤ hi) →
  filter (λ s, cached w.2 c s = None) seqs = [] ∧ length (omap (cached w.2 c) seqs) = length seqs.
Proof.
  intros Hs. split.
  - apply list_filter_none. intros s [m [Hm _]]%Hs%Hcached. congruence.
  - induction seqs as [|s seqs IH]; [done|]. destruct (Hcached s) as [m [Hm _]]; [apply Hs; left|].
    cbn. rewrite Hm. cbn. f_equal. apply IH. intros s' Hs'. apply Hs. by right.
Qed.

(** What is left of a window, and what stands in for the rest. *)
Definition kept (seqs : list Z) : list Z := filter (λ s, ¬ deleted s) seqs.
Definition replacements (first : Z) (seqs : list Z) : list Z :=
  stand_ins first lo (len seqs - len (kept seqs)) 1.

Lemma cached_kept (seqs : list Z) : (∀ s, s ∈ seqs → lo ≤ s ≤ hi) →
  filter (λ m, ¬ deleted (Seq m)) (omap (cached w.2 c) seqs) = omap (cached w.2 c) (kept seqs) ∧
  len (omap (cached w.2 c) (kept seqs)) = len (kept seqs).
Proof.
  intros Hs. split.
  - unfold kept. induction seqs as [|s seqs IH]; [done|]. destruct (Hcached s) as [m [Hm <-]]; [apply Hs; left|].
    assert (filter (λ m, ¬ deleted (Seq m)) (omap (cached w.2 c) seqs) =
      omap (cached w.2 c) (filter (λ s, ¬ deleted s) seqs)) as IH'.
    { apply IH. intros s' Hs'. apply Hs. by right. }
    cbn [omap list_omap]. rewrite Hm. rewrite !filter_cons. case_decide; [|done]. cbn [omap list_omap].
    rewrite Hm. by f_equal.
  - unfold len. f_equal. apply cached_all. intros s [_ Hin]%list_elem_of_filter. auto.
Qed.

Lemma wp_without_deleted fuel newBegin seqs (Q : outcome (list MsgData * list Z) → W * R → Prop) :
  0 ≤ lo ≤ newBegin → newBegin < 2 ^ 63 → (∀ s, s ∈ seqs → newBegin ≤ s ≤ hi) → seqs ≠ [] →
  (length seqs < fuel)%nat →
  (∀ e, ¬ deletions_answer → Q (Err e) w) →
  ((∀ s, s ∈ replacements newBegin seqs → ¬ deleted s) →
     Q (Ok (omap (cached w.2 c) (kept seqs ++ replacements newBegin seqs), [])) w) →
  ((∃ s, s ∈ replacements newBegin seqs ∧ deleted s) → Q OutOfFuel w) →
  wp (without_deleted fuel u c lo newBegin (omap (cached w.2 c) seqs) []) Q w.
Proof.
  intros Hlo Hnb Hs Hne Hfuel He Hok Hf. unfold without_deleted.
  assert (∀ s, s ∈ seqs → lo ≤ s ≤ hi) as Hs' by (intros s ?%Hs; lia).
  destruct (cached_all seqs Hs') as [_ Hlen], (cached_kept seqs Hs') as [Hkept Hklen].
  rewrite (proj2 (Z.ltb_lt 0 _)) by (unfold len; destruct seqs; [done|]; rewrite Hlen; cbn; lia).
  apply wp_bind, wp_try, wp_on_snd, wp_GetUserDelList.
  2:{ intros e Hnn Hno. cbn. rewrite bool_decide_eq_false_2 by done. rewrite <-surjective_pairing.
      apply wp_bind; unfold lift, wp; cbn; by apply He. }
  intros del Hdels. cbn [nil_or]. rewrite <-surjective_pairing. apply wp_bind. unfold lift at 1, wp at 1. cbn [of_sum].
  cbv zeta.
  assert (∀ m, Contain (Seq m) del = false ↔ ¬ deleted (Seq m)) as Hc.
  { intros m. rewrite Contain_spec, bool_decide_eq_false, Hdels. done. }
  rewrite (list_filter_iff _ _ _ Hc), Hkept.
  replace (len (omap (cached w.2 c) seqs) - len (omap (cached w.2 c) (kept seqs))) with (len seqs - len (kept seqs))
    by (rewrite Hklen; unfold len; by rewrite Hlen).
  apply wp_bind, wp_reget_loop; [lia|lia|lia|unfold len; lia| | |lia]; fold (replacements newBegin seqs); cbn [app].
  2:{ intros (s & Hin & Hd%Hdels). apply Hf. eauto. }
  intros Hfree. assert (Q (Ok (omap (cached w.2 c) (kept seqs ++ replacements newBegin seqs), [])) w) as HQ.
  { apply Hok. intros s Hin. rewrite <-Hdels. auto. }
  rewrite omap_app in HQ. destruct (cached_all (replacements newBegin seqs)) as [Hf0 _].
  { intros s Hin%stand_ins_elem. destruct seqs as [|s0 ?]; [done|].
    assert (newBegin ≤ s0 ≤ hi) by (apply Hs; left). lia. }
  destruct (replacements newBegin seqs) as [|s l]; [by rewrite app_nil_r in HQ|].
  cbn [len length]. apply wp_bind, wp_on_snd, wp_GetMessagesBySeq.
  rewrite Hf0, <-surjective_pairing. by apply wp_ret.
Qed.

Lemma wp_read_window fuel newBegin seqs (Q : outcome (list (option MsgData)) → W * R → Prop) :
  0 ≤ lo ≤ newBegin → newBegin < 2 ^ 63 → (∀ s, s ∈ seqs → newBegin ≤ s ≤ hi) → seqs ≠ [] →
  (length seqs < fuel)%nat →
  (∀ e, ¬ deletions_answer → Q (Err e) w) →
  ((∀ s, s ∈ replacements newBegin seqs → ¬ deleted s) →
     Q (Ok (Some <$> omap (cached w.2 c) (kept seqs ++ replacements newBegin seqs))) w) →
  ((∃ s, s ∈ replacements newBegin seqs ∧ deleted s) → Q OutOfFuel w) →
  wp (read_window json_revoke json_elem fuel u c lo hi newBegin seqs) Q w.
Proof.
  intros Hlo Hnb Hs Hne Hfuel He Hok Hf. unfold read_window.
  apply wp_bind, wp_on_snd, wp_GetMessagesBySeq. rewrite <-surjective_pairing.
  assert (∀ s, s ∈ seqs → lo ≤ s ≤ hi) as Hs' by (intros s ?%Hs; lia).
  destruct (cached_all seqs Hs') as [-> _].
  apply wp_bind, wp_without_deleted; done.
Qed.

Lemma window_elem s : lo ≤ hi → 0 < num →
  s ∈ window → Z.max lo (hi - num + 1) ≤ s ≤ hi.
Proof. intros ??. unfold window. rewrite elem_of_seqZ. lia. Qed.
Definition window_stand_ins : list Z := replacements (Z.max lo (hi - num + 1)) window.

(** C21: when the cache has every message of the range, a read of at
    most [num] messages changes nothing and never panics. Of the last [num] numbers of the
    range that the user may read ([low]..[high]), it answers the messages that the user
    did not delete, in order, and then as many older ones, downwards, in place of those
    deleted; it does not end if the user deleted one of these older ones too. A range that
    ends below [low], or a window of no messages, is answered with nothing; another empty
    range is refused, and nothing else is, unless the cache does not answer for the bounds
    or for the deleted numbers. *)
Theorem GetMsgBySeqsRange_window fuel :
  (length window < fuel)%nat →
  let '(r, w') := GetMsgBySeqsRange json_revoke json_elem fuel u c begin end_ num userMax w in
  w' = w ∧
  match r with
  | Ok (mn, mx, msgs) =>
      (end_ < low ∨ num = 0) ∧ (mn, mx, msgs) = (0, 0, []) ∨
      mn = low ∧ mx = high ∧ (∀ s, s ∈ window_stand_ins → ¬ deleted s) ∧
      msgs = Some <$> omap (cached w.2 c) (kept window ++ window_stand_ins)
  | Err _ => numbers_answer → deletions_answer → hi < lo
  | Panic => False
  | OutOfFuel => ∃ s, s ∈ window_stand_ins ∧ deleted s
  end.
Proof.
  intros Hfuel. match goal with |- let '(r, w') := _ in @?P r w' => 
    change (wp (GetMsgBySeqsRange json_revoke json_elem fuel u c begin end_ num userMax) P w) end.
  apply wp_GetMsgBySeqsRange; [auto|split; auto..|]. intros Hlh Hpos.
  pose proof (small_range _ Sumin) as Hu.
  assert (0 ≤ lo) by (unfold lo, low; lia). assert (hi < 2 ^ 63 - 1) by (unfold hi; lia).
  apply wp_read_window; [lia|lia|intros; by apply window_elem| |done|done| |done].
  - unfold window. by rewrite seqZ_cons by lia.
  - intros Hfree. split; [done|]. by right.
Qed.

(** If the user deleted one of the last [num] messages of
    the range and also the message just before them, the read never returns
    messages: the search for a replacement runs for ever on the deleted
    number. *)
Theorem GetMsgBySeqsRange_diverges fuel :
  0 < num → lo ≤ hi - num → deleted (hi - num) → (∃ s, s ∈ window ∧ deleted s) →
  match (GetMsgBySeqsRange json_revoke json_elem fuel u c begin end_ num userMax w).1 with
  | Err _ | OutOfFuel => True
  | Ok _ | Panic => False
  end.
Proof.
  intros Hpos Hbelow Hbelowd (s0 & Hs0 & Hd0).
  assert (wp (GetMsgBySeqsRange json_revoke json_elem fuel u c begin end_ num userMax)
    (λ r _, match r with Err _ | OutOfFuel => True | Ok _ | Panic => False end) w) as Hwp.
  2:{ by rewrite wp_eq in Hwp. }
  pose proof (small_range _ Sumin).
  assert (0 ≤ lo) by (unfold lo, low; lia). assert (hi < 2 ^ 63 - 1) by (unfold hi; lia).
  assert (∀ s, s ∈ window → lo ≤ s ≤ hi) as Hw by (intros s Hin%window_elem; lia).
  destruct (cached_all window Hw) as [Hnone Hlen].
  apply wp_GetMsgBySeqsRange; [done|unfold lo, hi in *; lia|lia|]. intros _ _.
  unfold read_window. apply wp_bind, wp_on_snd, wp_GetMessagesBySeq. rewrite <-surjective_pairing.
  apply wp_bind. unfold without_deleted.
  rewrite (proj2 (Z.ltb_lt 0 _)).
  2:{ unfold len. rewrite Hlen. destruct window; [by apply elem_of_nil in Hs0|]. cbn. lia. }
  apply wp_bind, wp_try, wp_on_snd, wp_GetUserDelList.
  2:{ intros e Hnn. cbn. rewrite bool_decide_eq_false_2 by done. done. }
  intros del Hdels. rewrite <-surjective_pairing. apply wp_bind. unfold lift at 1, wp at 1. cbn [nil_or of_sum].
  cbv zeta. apply wp_bind. unfold wp at 1.
  rewrite reget_loop_stuck; [done|lia|lia| |lia|].
  - destruct (Hcached s0 (Hw _ Hs0)) as (m0 & Hm0 & Hseq0).
    assert (m0 ∈ omap (cached w.2 c) window) as Hin by (apply list_elem_of_omap; eauto).
    unfold len. enough (length (filter (λ m, Contain (Seq m) del = false) (omap (cached w.2 c) window))
      < length (omap (cached w.2 c) window))%nat by lia.
    apply length_filter_lt with m0; [done|]. rewrite Contain_spec, Hseq0.
    by rewrite bool_decide_eq_true_2 by (by apply Hdels).
  - replace (Z.max lo (hi - num + 1) - 1) with (hi - num) by lia. by apply Hdels.
Qed.
End RangeProofs.

(** ** Reading given numbers *)

Section SeqsProofs.
Context {W R : Type} `{MsgCollectionLaws W} `{RedisLaws R} `{ToolsLaws} `{MapRange} `{ProtoLaws}.
Context (json_revoke : MessageRevokedContent → string + error) (json_elem : string → string + error).

(** A read of given numbers answers, of those between the {e smaller}
    of the user's and the conversation's first number and the conversation's
    last one, the messages in order.  A user without a first number of his
    own (0) can therefore read below the conversation's first number. *)
Theorem GetMsgBySeqs_bounds c u (w : W * R) umin cmin cmax seqs :
  kv w.2 !! getConversationUserMinSeqKey c u = FormatInt <$> umin →
  kv w.2 !! getMinSeqKey c = FormatInt <$> cmin →
  kv w.2 !! getMaxSeqKey c = FormatInt <$> cmax →
  small umin → small cmin → small cmax →
  (∀ s, s ∈ seqs → Z.min (default 0 umin) (default 0 cmin) ≤ s ∧ s ≤ default 0 cmax →
     cached w.2 c s ≠ None) →
  let '(r, w') := GetMsgBySeqs json_revoke json_elem u c seqs w in
  w' = w ∧
  match r with
  | Ok (mn, mx, msgs) =>
      mn = Z.min (default 0 umin) (default 0 cmin) ∧ mx = default 0 cmax ∧
      msgs = Some <$> omap (cached w.2 c) (filter (λ s, mn ≤ s ∧ s ≤ mx) seqs)
  | Err _ => True
  | Panic | OutOfFuel => False
  end.
Proof.
  intros Hu Hmin Hmax Su Smin Smax Hall.
  match goal with |- let '(r, w') := _ in @?P r w' =>
    change (wp (GetMsgBySeqs json_revoke json_elem u c seqs) P w) end.
  unfold GetMsgBySeqs, GetConversationUserMinSeq, GetMinSeq, GetMaxSeq, getSeq.
  apply wp_bind, (wp_number_or_zero _ umin); [done|by apply small_int64| |done].
  apply wp_bind, (wp_number_or_zero _ cmin); [done|by apply small_int64| |done].
  apply wp_bind, (wp_number_or_zero _ cmax); [done|by apply small_int64| |done].
  cbv zeta.
  assert ((if default 0 umin <? default 0 cmin then default 0 umin else default 0 cmin) =
    Z.min (default 0 umin) (default 0 cmin)) as ->.
  { destruct (Z.ltb_spec (default 0 umin) (default 0 cmin)); lia. }
  apply wp_bind, wp_on_snd, wp_GetMessagesBySeq. rewrite <-surjective_pairing.
  rewrite (list_filter_none (λ s, cached w.2 c s = None)).
  2:{ intros s [? Hs]%list_elem_of_filter. by apply Hall. }
  by apply wp_ret.
Qed.
End SeqsProofs.

(** ** A concrete database

    Three messages in the cache; the encoder knows messages that have nothing
    but a number. *)

Module Sample.
Definition plain (s : Z) : MsgData := set_Seq s MsgData_zero.

#[export] Instance seq_proto : Proto := {|
  proto_Marshal m :=
    if bool_decide (m = plain (Seq m) ∧ - 2 ^ 63 ≤ Seq m < 2 ^ 63) then inl (FormatInt (Seq m))
    else inr (Bare ErrInternalServer);
  proto_Unmarshal s :=
    match ParseInt s with Some z => inl (plain z) | None => inr (Bare ErrInternalServer) end;
|}.

#[export] Instance seq_proto_laws : ProtoLaws.
Proof.
  split. intros m s _. cbn. case_bool_decide as Hm; [|done]. destruct Hm as [Hm Hr].
  intros [=<-]. rewrite ParseInt_FormatInt by done. by rewrite <-Hm.
Qed.

#[export] Existing Instances model_tools model_tools_laws map_order.

(** Three messages in the cache; the user deleted those of [del]. *)
Definition cache3 (del : gset string) : mem_docs * mem_redis :=
  (∅, mkRedis {[ getMaxSeqKey "c" := FormatInt 3;
                 getMessageCacheKey "c" 1 := FormatInt 1;
                 getMessageCacheKey "c" 2 := FormatInt 2;
                 getMessageCacheKey "c" 3 := FormatInt 3 ]}
              {[ getUserDelList "c" "u" := del ]} ∅).

Lemma cache3_cached del s : 1 ≤ s ≤ 3 → ∃ m, cached (cache3 del).2 "c" s = Some m ∧ Seq m = s.
Proof.
  intros Hs. assert (s = 1 ∨ s = 2 ∨ s = 3) as [->|[->| ->]] by lia;
    (eexists; split; [vm_compute|]; reflexivity).
Qed.

Lemma cache3_deletions del x : x ∈ deletions "c" "u" (cache3 del) → x ∈ del.
Proof. unfold deletions. cbn. by rewrite lookup_singleton_eq. Qed.

Definition no_json {A} (_ : A) : string + error := inr (Bare ErrInternalServer).
End Sample.
Import Sample.

(** The user deleted message 3: of the last two, message 2 is left, and 1 stands in. *)
Lemma GetMsgBySeqsRange_window_witness :
  let w := Sample.cache3 {["3"]} in
  (GetMsgBySeqsRange Sample.no_json Sample.no_json 3 "u" "c" 1 3 2 0 w).1 =
    Ok (0, 3, [Some (plain 2); Some (plain 1)]) ∧
  let '(r, w') := GetMsgBySeqsRange Sample.no_json Sample.no_json 3 "u" "c" 1 3 2 0 w in
  w' = w ∧
  match r with
  | Ok (mn, mx, msgs) =>
      (3 < low None None ∨ 2 = 0) ∧ (mn, mx, msgs) = (0, 0, []) ∨
      mn = low None None ∧ mx = high (Some 3) 0 ∧
      (∀ s, s ∈ window_stand_ins "c" "u" w None None (Some 3) 1 3 2 0 → ¬ deleted "c" "u" w s) ∧
      msgs = Some <$> omap (cached w.2 "c") (kept "c" "u" w (window None None (Some 3) 1 3 2 0) ++
        window_stand_ins "c" "u" w None None (Some 3) 1 3 2 0)
  | Err _ => numbers_answer "c" "u" w → deletions_answer "c" "u" w → hi (Some 3) 3 0 < lo None None 1
  | Panic => False
  | OutOfFuel => ∃ s, s ∈ window_stand_ins "c" "u" w None None (Some 3) 1 3 2 0 ∧ deleted "c" "u" w s
  end.
Proof.
  intros w. split; [by vm_compute|].
  apply (GetMsgBySeqsRange_window Sample.no_json Sample.no_json "c" "u" w None None (Some 3)); try done; try lia.
  - by intros v [=<-].
  - intros x ->%cache3_deletions%elem_of_singleton. by exists 3.
  - intros s Hs. apply Sample.cache3_cached. exact Hs.
  - vm_compute. lia.
Defined.

Lemma GetMsgBySeqsRange_diverges_witness :
  match (GetMsgBySeqsRange Sample.no_json Sample.no_json 1000 "u" "c" 1 3 1 0
           (Sample.cache3 {["2"; "3"]})).1 with
  | Err _ | OutOfFuel => True
  | Ok _ | Panic => False
  end.
Proof.
  apply (GetMsgBySeqsRange_diverges Sample.no_json Sample.no_json "c" "u"
    (Sample.cache3 {["2"; "3"]}) None None (Some 3)); try done; try lia.
  - by intros v [=<-].
  - intros x Hx%cache3_deletions. apply elem_of_union in Hx as [->%elem_of_singleton| ->%elem_of_singleton];
      [by exists 2|by exists 3].
  - intros s Hs. apply Sample.cache3_cached. exact Hs.
  - exists 3. unfold deleted. split; apply (bool_decide_unpack _); by vm_compute.
Defined.

Lemma BatchInsertChat2Cache_numbers_witness :
  let w : mem_docs * mem_redis := Sample.cache3 ∅ in
  let '(r, w') := BatchInsertChat2Cache 60 "c" [MsgData_zero; MsgData_zero] w in
  inserted "c" [MsgData_zero; MsgData_zero] (Some 3) w r w'.
Proof.
  apply BatchInsertChat2Cache_numbers; [done|]. intros z [=<-]. lia.
Defined.

(** The conversation was cleaned up to 2; the user has no bound of his own and
    still reads message 1. *)
Lemma GetMsgBySeqs_bounds_witness :
  let w := (∅, mkRedis (<[getMinSeqKey "c" := FormatInt 3]> (mem_kv (cache3 ∅).2)) ∅ ∅)
    : mem_docs * mem_redis in
  (GetMsgBySeqs no_json no_json "u" "c" [1; 3; 5] w).1 =
    Ok (0, 3, [Some (plain 1); Some (plain 3)]) ∧
  let '(r, w') := GetMsgBySeqs no_json no_json "u" "c" [1; 3; 5] w in
  w' = w ∧
  match r with
  | Ok (mn, mx, msgs) =>
      mn = Z.min (default 0 None) (default 0 (Some 3)) ∧ mx = default 0 (Some 3) ∧
      msgs = Some <$> omap (cached w.2 "c") (filter (λ s, mn ≤ s ∧ s ≤ mx) [1; 3; 5])
  | Err _ => True
  | Panic | OutOfFuel => False
  end.
Proof.
  intros w. split; [by vm_compute|].
  apply (GetMsgBySeqs_bounds no_json no_json "c" "u" w None (Some 3) (Some 3)); try done.
  - by intros v [=<-].
  - by intros v [=<-].
  - intros s Hs Hr.
    repeat (apply elem_of_cons in Hs as [->|Hs]); [by vm_compute|by vm_compute| |].
    + cbn in Hr. lia.
    + by apply elem_of_nil in Hs.
Defined.
