(* ===== verification/MsgExpiry.v ===== *)
(** * Deletion of old messages (pkg/common/db/controller/msg.go, third part)

    [DeleteConversationMsgsAndSetMinSeq] walks through the documents of a
    conversation and removes the messages that are too old;
    [UserMsgsDestruct] moves a user's first visible number.  The file shows
    that both walks end and what they can and cannot remove. *)

From S2P Require Import Prelude.
From S2P Require Import Constants.
From S2P Require Import MsgTypes.
From S2P Require Import MsgProcessor.
From S2P Require Import MsgDoc.
From S2P Require Import MsgCollection.
From S2P Require Import MsgStore.
From S2P Require Import Tools.
From S2P Require Import Redis.
From S2P Require Import MsgCache.
From S2P Require Import MsgDatabase.
From stdpp Require Import options.
#[local] Set Default Proof Using "Type*".

#[local] Open Scope Z_scope.

(** ** The documents of a conversation *)

Lemma doc_ids_dom c (D D' : mem_docs) : dom D = dom D' → doc_ids c D = doc_ids c D'.
Proof.
  intros Hd. apply sort_Strings_perm, filter_Permutation.
  apply NoDup_Permutation; [apply NoDup_fst_map_to_list..|].
  intros d. rewrite !list_elem_of_fmap.
  assert (∀ E : mem_docs, (∃ y, d = y.1 ∧ y ∈ map_to_list E) ↔ d ∈ dom E) as Hm.
  { intros E. rewrite elem_of_dom. split.
    - intros ([d' l] & -> & Hin%elem_of_map_to_list). cbn. eauto.
    - intros [l Hl]. exists (d, l). by rewrite elem_of_map_to_list. }
  by rewrite !Hm, Hd.
Qed.

Lemma doc_ids_elem c (D : mem_docs) d :
  d ∈ doc_ids c D → is_Some (D !! d) ∧ String.prefix (c +:+ ":") d = true.
Proof.
  unfold doc_ids, sort_Strings. rewrite merge_sort_Permutation, list_elem_of_filter, list_elem_of_fmap.
  intros [Hp ([d' l] & -> & Hin%elem_of_map_to_list)]. split; [cbn; eauto|].
  by apply Is_true_true.
Qed.

Lemma prefix_colon_not_empty c : String.prefix (c +:+ ":") "" = false.
Proof. by destruct c. Qed.

(** The document at a position of the index, if there is one. *)
Lemma mem_find_at c k (D : mem_docs) :
  mem_find c k 1 D =
  match doc_ids c D !! Z.to_nat k with
  | Some d => [mkMsgDocModel d (default [] (D !! d))]
  | None => []
  end.
Proof.
  unfold mem_find. change (1 =? -1) with false. cbv iota zeta.
  destruct (doc_ids c D !! Z.to_nat k) as [d|] eqn:E.
  - by rewrite (drop_S _ _ _ E).
  - rewrite drop_ge; [done|]. by apply lookup_ge_None.
Qed.

(** ** Slots that have lost messages *)

Section Thinned.
Context (gone : MsgDataModel → bool).

(** The slot is the same, or it is empty and its message, if any, is one
    that may go. *)
Definition slot_thinned (p p' : option MsgInfoModel) : Prop :=
  p' = p ∨ p' = Some MsgInfoModel_zero ∧ ∀ m, p ≫= Info_Msg = Some m → gone m = true.

Definition thinned (D D' : mem_docs) : Prop :=
  dom D = dom D' ∧ ∀ d l l', D !! d = Some l → D' !! d = Some l' → Forall2 slot_thinned l l'.

#[export] Instance slot_thinned_preorder : PreOrder slot_thinned.
Proof.
  split; [by left|].
  intros p q r [->|[-> Hp]] [->|[-> Hq]]; [by left|by right|by right|by right].
Qed.

#[export] Instance thinned_preorder : PreOrder thinned.
Proof.
  split.
  - intros D. split; [done|]. intros d l l' Hl Hl'. rewrite Hl in Hl'. by injection Hl' as <-.
  - intros D E F [Hd1 H1] [Hd2 H2]. split; [congruence|]. intros d l l'' Hl Hl''.
    destruct (E !! d) as [l'|] eqn:Hl'.
    + etrans; [by eapply H1|by eapply H2].
    + apply not_elem_of_dom in Hl'. destruct Hl'. rewrite <-Hd1. by eapply elem_of_dom_2.
Qed.

Lemma alter_slot_thinned i l :
  (∀ s m, l !! Z.to_nat i = Some (Some s) → Info_Msg s = Some m → gone m = true) →
  Forall2 slot_thinned l (alter_slot i (λ _, MsgInfoModel_zero) l).
Proof.
  intros Hg. unfold alter_slot. destruct (l !! Z.to_nat i) as [[s|]|] eqn:Hs;
    [|done..].
  rewrite <-(list_insert_id l (Z.to_nat i) (Some s) Hs) at 1.
  apply Forall2_insert; [done|].
  right. split; [done|]. intros m Hm. by eapply Hg.
Qed.

Lemma thinned_gone l l' i s m :
  Forall2 slot_thinned l l' → (∀ s m, l !! i = Some (Some s) → Info_Msg s = Some m → gone m = true) →
  l' !! i = Some (Some s) → Info_Msg s = Some m → gone m = true.
Proof.
  intros Ht Hg Hs Hm. destruct (Forall2_lookup_r _ _ _ _ _ Ht Hs) as (p & Hp & [Heq|[Heq Hp']]).
  - subst p. by eapply Hg.
  - injection Heq as ->. by destruct (Hp' m).
Qed.

Lemma empty_slots_thinned ixs l :
  (∀ i s m, i ∈ ixs → l !! Z.to_nat i = Some (Some s) → Info_Msg s = Some m → gone m = true) →
  Forall2 slot_thinned l (empty_slots ixs l).
Proof.
  unfold empty_slots. revert l. induction ixs as [|i ixs IH]; intros l Hg; [done|].
  cbn [foldl].
  assert (Forall2 slot_thinned l (alter_slot i (λ _, MsgInfoModel_zero) l)) as Hi.
  { apply alter_slot_thinned. intros s m. apply Hg. by left. }
  etrans; [exact Hi|]. apply IH. intros j s m Hj Hs Hm. eapply thinned_gone; [exact Hi| |exact Hs|exact Hm].
  intros s' m'. apply Hg. by right.
Qed.

Lemma slots_thinned_wf l l' :
  Forall2 slot_thinned l l' → len l = singleGocMsgNum → Forall is_Some l →
  len l' = singleGocMsgNum ∧ Forall is_Some l'.
Proof.
  intros Ht Hl Hall. split.
  - unfold len in *. by rewrite <-(Forall2_length _ _ _ Ht).
  - rewrite Forall_lookup in *. intros i p Hp.
    destruct (Forall2_lookup_r _ _ _ _ _ Ht Hp) as (q & Hq & [->|[-> _]]); eauto.
Qed.

Lemma thinned_wf D D' : thinned D D' → wf_docs D → wf_docs D'.
Proof.
  intros [Hd Ht] Hwf d l' Hl'. assert (is_Some (D !! d)) as [l Hl].
  { apply elem_of_dom. rewrite Hd. by eapply elem_of_dom_2. }
  destruct (Hwf _ _ Hl). eapply slots_thinned_wf; eauto.
Qed.

Lemma alter_thinned D d f :
  (∀ l, D !! d = Some l → Forall2 slot_thinned l (f l)) → thinned D (alter f d D).
Proof.
  intros Hf. split; [by rewrite dom_alter_L|]. intros d' l l' Hl Hl'.
  destruct (decide (d' = d)) as [->|Hne].
  - rewrite lookup_alter_eq, Hl in Hl'. injection Hl' as <-. by apply Hf.
  - rewrite lookup_alter_ne, Hl in Hl' by done. by injection Hl' as <-.
Qed.
End Thinned.

(** ** The steps of the walk *)

Lemma expired_indexes_elem now rt k slots i :
  i ∈ expired_indexes now rt k slots ↔
  ∃ j m, slots !! j ≫= (λ p, p ≫= Info_Msg) = Some m ∧ expired now rt m = true ∧ i = k + Z.of_nat j.
Proof.
  revert k. induction slots as [|p slots IH]; intros k; cbn [expired_indexes].
  - rewrite elem_of_nil. split; [done|]. by intros (j & m & ? & _).
  - rewrite elem_of_app, IH. split.
    + intros [Hi|(j & m & Hm & He & ->)].
      * destruct (p ≫= Info_Msg) as [m|] eqn:Ep; [|by apply elem_of_nil in Hi].
        destruct (expired now rt m) eqn:Em; [|by apply elem_of_nil in Hi].
        apply list_elem_of_singleton in Hi as ->. exists 0%nat, m. cbn. split_and!; [done..|lia].
      * exists (S j), m. split_and!; [done..|lia].
    + intros ([|j] & m & Hm & He & ->); cbn in Hm.
      * left. rewrite Hm, He. apply list_elem_of_singleton. lia.
      * right. exists j, m. split_and!; [done..|lia].
Qed.

Section Walk.
Context {W R : Type} `{MsgCollectionLaws W} `{RedisLaws R}.
Context (now : Z) (c : string) (rt : Z).
Context (Hplain : regex_plain c).
Abbreviation gone := (expired now rt).

Lemma wp_GetMsgDocModelByIndex k (w : W) (Q : outcome MsgDocModel → W → Prop) :
  0 ≤ k →
  (∀ d l w', doc_ids c (docs w) !! Z.to_nat k = Some d → docs w !! d = Some l →
     docs w' = docs w → Q (Ok (mkMsgDocModel d l)) w') →
  (∀ e w', docs w' = docs w → Q (Err e) w') →
  wp (GetMsgDocModelByIndex c k 1) Q w.
Proof.
  intros Hk Hok He. unfold GetMsgDocModelByIndex. apply wp_bind, wp_ret, wp_bind, wp_wrap_error, wp_eq.
  pose proof (FindDocs_keeps c k 1 w) as Hkeep.
  destruct (FindDocs_returns c k 1 w) as [[msgs|e] Hr]; rewrite Hr; cbn [of_sum]; [|by apply He].
  assert (FindDocs c k 1 w = (Ok msgs, (FindDocs c k 1 w).2)) as Hf
    by (by rewrite <-(Hr : _ = Ok msgs), <-surjective_pairing).
  rewrite (FindDocs_ok _ _ _ _ _ _ Hplain Hk Hf), mem_find_at.
  destruct (doc_ids c (docs w) !! Z.to_nat k) as [d|] eqn:Hd; [|by apply wp_fail, He].
  apply wp_ret. destruct (doc_ids_elem c (docs w) d) as [[l Hl] _]; [by eapply list_elem_of_lookup_2|].
  rewrite Hl. by eapply Hok.
Qed.

Lemma wp_DeleteMsgsInOneDocByIndex d ixs (w : W) (Q : outcome () → W → Prop) :
  (∀ r w', (docs w' = docs w ∨ docs w' = alter (empty_slots ixs) d (docs w)) →
     Q (of_sum r) w') →
  wp (DeleteMsgsInOneDocByIndex d ixs) Q w.
Proof.
  intros HQ. apply wp_wrap_error, wp_eq.
  destruct (UpdateManyEmpty_returns d ixs w) as [[[]|e] Hr]; rewrite Hr; cbn [of_sum].
  - apply (HQ (inl ())). right. apply UpdateManyEmpty_ok.
    by rewrite <-(Hr : _ = Ok ()), <-surjective_pairing.
  - apply (HQ (inr (WrapErr "" e))). eapply UpdateManyEmpty_err.
    by rewrite <-(Hr : _ = Err e), <-surjective_pairing.
Qed.

Lemma wp_DeleteDocs ids (w : W) (Q : outcome () → W → Prop) :
  (∀ r w', (∀ d, d ∉ ids → docs w' !! d = docs w !! d) → (ids = [] → w' = w) → Q (of_sum r) w') →
  wp (DeleteDocs ids) Q w.
Proof.
  intros HQ. unfold DeleteDocs. destruct ids as [|d ids]; [by apply wp_ret, (HQ (inl ()))|].
  apply wp_eq. destruct (DeleteMany_returns (d :: ids) w) as [r ->].
  apply HQ; [|done]. intros d'. apply DeleteMany_frame.
Qed.

(** The document's last message may go. *)
Definition full_gone (D : mem_docs) (d : string) : Prop :=
  ∃ l s m, D !! d = Some l ∧ last l = Some (Some s) ∧ Info_Msg s = Some m ∧ gone m = true.

Definition nothing_expired (D : mem_docs) : Prop :=
  ∀ d l j m, D !! d = Some l → l !! j ≫= (λ p, p ≫= Info_Msg) = Some m → gone m = false.

Lemma wp_last_msg d l s m (w : W * R) (Q : outcome MsgDataModel → W * R → Prop) :
  last l = Some (Some s) → Info_Msg s = Some m → Q (Ok m) w →
  wp (last_msg (mkMsgDocModel d l)) Q w.
Proof.
  intros Hl Hm HQ. unfold last_msg. cbn [Msg]. rewrite Hl. apply wp_bind, wp_ret, wp_bind, wp_ret.
  by rewrite Hm.
Qed.

Lemma wp_delete_in_doc d l ds (w : W * R) (Q : outcome delMsgRecursionStruct → W * R → Prop) :
  wf_docs (docs w.1) → docs w.1 !! d = Some l →
  (∀ ds' w', thinned gone (docs w.1) (docs w'.1) → w'.2 = w.2 →
     (delDocIDs ds' = delDocIDs ds ∨
      delDocIDs ds' = delDocIDs ds ++ [d] ∧ full_gone (docs w.1) d) →
     (nothing_expired (docs w.1) → ds' = ds ∧ docs w'.1 = docs w.1) → Q (Ok ds') w') →
  wp (delete_in_doc now (mkMsgDocModel d l) rt ds) Q w.
Proof.
  intros Hwf Hl HQ. destruct (Hwf _ _ Hl) as [Hlen Hall].
  destruct (last l) as [[s|]|] eqn:Hlast.
  2:{ exfalso. rewrite last_lookup in Hlast. rewrite Forall_lookup in Hall.
      by destruct (Hall _ _ Hlast). }
  2:{ exfalso. apply last_None in Hlast as ->. done. }
  assert (∀ b, b = true → (∃ m, Info_Msg s = Some m ∧ gone m = true) → wp (
    if b : bool then
      m ← last_msg (mkMsgDocModel d l);
      mret (mkDelStruct (DB_Seq m) (delDocIDs ds ++ [d]))
    else
      match last (expired_indexes now rt 0 l) with
      | None => mret ds
      | Some i =>
          _ ← try (on_docs (DeleteMsgsInOneDocByIndex d (expired_indexes now rt 0 l)));
          p ← slice_get i l;
          info ← deref p;
          m ← deref (Info_Msg info);
          mret (mkDelStruct (DB_Seq m) (delDocIDs ds))
      end) Q w) as Hwhole.
  { intros b -> (m & Hm & He). apply wp_bind, (wp_last_msg _ _ s m); [done|done|].
    apply wp_ret, HQ; [done|done|right; split; [done|by exists l, s, m]|].
    intros Hn. exfalso. assert (gone m = false); [|congruence].
    apply (Hn d l (pred (length l)) m Hl). rewrite <-last_lookup, Hlast. done. }
  assert (wp (
      match last (expired_indexes now rt 0 l) with
      | None => mret ds
      | Some i =>
          _ ← try (on_docs (DeleteMsgsInOneDocByIndex d (expired_indexes now rt 0 l)));
          p ← slice_get i l;
          info ← deref p;
          m ← deref (Info_Msg info);
          mret (mkDelStruct (DB_Seq m) (delDocIDs ds))
      end) Q w) as Hsome.
  { destruct (last (expired_indexes now rt 0 l)) as [i|] eqn:Hi; [|by apply wp_ret, HQ; auto].
    apply last_Some_elem_of, expired_indexes_elem in Hi as Hj.
    destruct Hj as (j & m & Hm & He & ->).
    apply wp_bind, wp_try, wp_on_fst, wp_DeleteMsgsInOneDocByIndex. intros r d' Hd'.
    assert (thinned gone (docs w.1) (docs d')) as Ht.
    { destruct Hd' as [->| ->]; [done|]. apply alter_thinned. intros l' Hl'.
      assert (l' = l) as -> by congruence. apply empty_slots_thinned. intros k s' m' Hk Hs' Hm'.
      apply expired_indexes_elem in Hk as (j' & m'' & Hj' & ? & ->).
      rewrite Z.add_0_l, Nat2Z.id in Hs'. rewrite Hs' in Hj'. cbn in Hj'. congruence. }
    assert (wp (p ← slice_get (0 + Z.of_nat j) l;
          info ← deref p;
          m ← deref (Info_Msg info);
          mret (mkDelStruct (DB_Seq m) (delDocIDs ds))) Q (d', w.2)) as Hget.
    { unfold slice_get. rewrite (proj2 (Z.leb_le _ _)) by lia. rewrite Z.add_0_l, Nat2Z.id.
      destruct (l !! j) as [[s'|]|] eqn:Hs'; try done. cbn in Hm. cbn [deref].
      apply wp_bind, wp_ret, wp_bind, wp_ret. rewrite Hm. apply wp_bind, wp_ret, wp_ret.
      apply HQ; [done|done|by left|]. intros Hn. exfalso.
      assert (gone m = false); [|congruence]. apply (Hn d l j m Hl). by rewrite Hs'. }
    by destruct r. }
  unfold delete_in_doc, full_and_expired, IsFull. cbn [Msg DocID]. rewrite Hlast. cbn [deref].
  apply wp_bind, wp_bind, wp_bind, wp_ret, wp_bind, wp_ret, wp_ret.
  case_bool_decide as Hfull; [|by apply wp_ret].
  destruct (Info_Msg s) as [m|] eqn:Hm; [|done].
  apply wp_bind, (wp_last_msg _ _ s m); [done|done|]. apply wp_ret.
  destruct (gone m) eqn:He; [|done]. apply (Hwhole true); eauto.
Qed.

Lemma full_gone_thinned D D' d : thinned gone D D' → full_gone D' d → full_gone D d.
Proof.
  intros [Hd Ht] (l' & s & m & Hl' & Hlast & Hm & He).
  assert (is_Some (D !! d)) as [l Hl].
  { apply elem_of_dom. rewrite Hd. by eapply elem_of_dom_2. }
  pose proof (Ht _ _ _ Hl Hl') as Hf. rewrite last_lookup in Hlast.
  destruct (Forall2_lookup_r _ _ _ _ _ Hf Hlast) as (p & Hp & [<-|[[=] _]]); [|by subst].
  exists l, s, m. split_and!; try done. by rewrite last_lookup, (Forall2_length _ _ _ Hf).
Qed.

(** What holds of the store [D] and of the recursion's state between two
    documents, [D0] being the store at the start. *)
Definition walk_inv (D0 D : mem_docs) (ds : delMsgRecursionStruct) : Prop :=
  thinned gone D0 D ∧ (∀ d, d ∈ delDocIDs ds → full_gone D0 d ∧ String.prefix (c +:+ ":") d = true) ∧
  (nothing_expired D0 → ds = mkDelStruct 0 [] ∧ D = D0).

Lemma walk_inv_step D0 D D' ds ds' d :
  walk_inv D0 D ds → thinned gone D D' → String.prefix (c +:+ ":") d = true →
  (delDocIDs ds' = delDocIDs ds ∨ delDocIDs ds' = delDocIDs ds ++ [d] ∧ full_gone D d) →
  (nothing_expired D → ds' = ds ∧ D' = D) → walk_inv D0 D' ds'.
Proof.
  intros (Ht & Hdel & Hn) Ht' Hpre Hds Hn'. split_and!.
  - by etrans.
  - intros d' Hd'. destruct Hds as [Heq|[Heq Hfull]]; rewrite Heq in Hd'; [by apply Hdel|].
    apply elem_of_app in Hd' as [?| ->%list_elem_of_singleton]; [by apply Hdel|].
    split; [by eapply full_gone_thinned|done].
  - intros H0n. destruct (Hn H0n) as [-> ->]. by apply Hn'.
Qed.

(** The recursion ends: it visits each document once. *)
Lemma wp_deleteMsgRecursion fuel k ds D0 (w : W * R) (Q : outcome Z → W * R → Prop) :
  wf_docs D0 → Z.of_nat (length (doc_ids c D0)) < 2 ^ 63 - 1 →
  0 ≤ k ≤ Z.of_nat (length (doc_ids c D0)) →
  Z.of_nat (length (doc_ids c D0)) < Z.of_nat fuel + k →
  walk_inv D0 (docs w.1) ds →
  (∀ D ds' r w', walk_inv D0 D ds' → w'.2 = w.2 →
     (∀ d, d ∉ delDocIDs ds' → docs w'.1 !! d = D !! d) →
     (delDocIDs ds' = [] → docs w'.1 = D) →
     (∀ v, r = inl v → v = add64 (del_minSeq ds') 1) → Q (of_sum r) w') →
  wp (deleteMsgRecursion now fuel c k ds rt) Q w.
Proof.
  intros Hwf Hmax. revert k ds w. induction fuel as [|fuel IH]; intros k ds w Hk Hfuel Hinv HQ; [lia|].
  cbn [deleteMsgRecursion]. cbv zeta.
  assert (∀ w1 : W * R, w1.2 = w.2 → docs w1.1 = docs w.1 →
    wp (_ ← on_docs (DeleteDocs (delDocIDs ds)); mret (add64 (getSetMinSeq ds) 1)) Q w1) as Hstop.
  { intros w1 Hr1 Hd1. apply wp_bind, wp_on_fst, wp_DeleteDocs. intros r d' Hframe Hnil.
    assert (delDocIDs ds = [] → docs d' = docs w.1) as Hnil' by (intros Hn; by rewrite Hnil).
    assert (∀ d, d ∉ delDocIDs ds → docs d' !! d = docs w.1 !! d) as Hframe'
      by (intros d Hd; by rewrite Hframe, Hd1).
    destruct r as [[]|e]; cbn [of_sum].
    - apply wp_ret, (HQ (docs w.1) ds (inl _)); try done. by intros v [=<-].
    - apply (HQ (docs w.1) ds (inr e)); done. }
  apply wp_bind, wp_try, wp_on_fst, wp_GetMsgDocModelByIndex; [lia| |by intros; apply Hstop].
  intros d l d' Hid Hl Hd'. cbn [DocID].
  destruct (doc_ids_elem c (docs w.1) d) as [_ Hpre]; [by eapply list_elem_of_lookup_2|].
  rewrite bool_decide_eq_false_2 by (intros ->; by rewrite prefix_colon_not_empty in Hpre).
  destruct Hinv as (Ht & Hrest). pose proof (proj1 Ht) as Hdom.
  rewrite <-(doc_ids_dom c _ _ Hdom) in Hid. pose proof (lookup_lt_Some _ _ _ Hid).
  apply wp_bind, wp_delete_in_doc; cbn; rewrite ?Hd'; [by eapply thinned_wf|done|].
  intros ds' w' Hthin Hr Hds Hn. rewrite add64_id by (unfold int64; lia).
  apply IH; [lia|lia|by eapply walk_inv_step|].
  intros D ds'' r w'' ? Hr'. apply HQ; [done|]. by rewrite Hr', Hr.
Qed.
End Walk.

(** ** [DeleteConversationMsgsAndSetMinSeq] *)

Section Delete.
Context {W R : Type} `{MsgCollectionLaws W} `{RedisLaws R}.

Lemma wp_CleanUpOneConversationAllMsg c (w : R) (Q : outcome () → R → Prop) :
  (∀ r w', Q (of_sum r) w') → wp (CleanUpOneConversationAllMsg c) Q w.
Proof.
  intros HQ. unfold CleanUpOneConversationAllMsg. apply wp_bind, wp_try, wp_run.
  - intros vals w' _. apply (wp_for_each _ _ (λ _ _, True)); [done| |by intros; apply (HQ (inl ()))].
    intros done v rest w'' _ _. apply wp_wrap_error, wp_run; [done|].
    intros e w3 _. by apply (HQ (inr _)).
  - intros e w' _. case_bool_decide; [by apply wp_ret, (HQ (inl ()))|by apply wp_fail, (HQ (inr _))].
Qed.

(** The state between the walk and the end differs in the cache only. *)
Lemma wp_DeleteConversationMsgsAndSetMinSeq now fuel c rt (w : W * R) (Q : outcome () → W * R → Prop) :
  regex_plain c → wf_docs (docs w.1) →
  Z.of_nat (length (doc_ids c (docs w.1))) < 2 ^ 63 - 1 →
  (length (doc_ids c (docs w.1)) < fuel)%nat →
  (∀ D ds r w', walk_inv now c rt (docs w.1) D ds →
     (∀ d, d ∉ delDocIDs ds → docs w'.1 !! d = D !! d) →
     (delDocIDs ds = [] → docs w'.1 = D) →
     (r = inl () → add64 (del_minSeq ds) 1 ≠ 0 →
      kv w'.2 !! getMinSeqKey c = Some (FormatInt (add64 (del_minSeq ds) 1))) → Q (of_sum r) w') →
  wp (DeleteConversationMsgsAndSetMinSeq now fuel c rt) Q w.
Proof.
  intros Hplain Hwf Hmax Hfuel HQ. apply wp_bind.
  eapply (wp_deleteMsgRecursion now c rt Hplain fuel 0 (mkDelStruct 0 []) (docs w.1)); [done|lia..| |].
  { split_and!; [done| |done]. intros d Hd. by apply elem_of_nil in Hd. }
  intros D ds r w' Hinv _ Hframe Hnil Hv. destruct r as [v|e]; cbn [of_sum].
  2:{ by apply (HQ D ds (inr e)). }
  specialize (Hv v eq_refl). subst v.
  destruct (Z.eqb_spec (add64 (del_minSeq ds) 1) 0) as [Hz|Hnz].
  { by apply wp_ret, (HQ D ds (inl ())). }
  assert (∀ r', wp (on_cache (SetMinSeq c (add64 (del_minSeq ds) 1))) Q (w'.1, r')) as Hset.
  { intros r'. apply wp_on_snd, wp_wrap_error, wp_Set.
    - intros r2 Hr2. apply (HQ D ds (inl ())); try done. intros _ _. cbn.
      by rewrite Hr2, lookup_insert_eq.
    - intros e r2 _ _. by apply (HQ D ds (inr _)). }
  apply wp_bind. destruct (rt =? 0).
  - apply wp_bind, wp_try, wp_on_snd, wp_CleanUpOneConversationAllMsg.
    intros [[]|e] r'; cbn [of_sum]; by apply wp_ret.
  - apply wp_ret. rewrite (surjective_pairing w'). apply Hset.
Qed.
End Delete.

(** C32: in a store of well-formed documents, and with fuel for each of the conversation's,
    the deletion of a conversation's old messages
    ends, never panics, and whatever its outcome leaves every slot, of any
    conversation, whose message is not too old as it was; but for those in a
    document of this conversation whose last slot has a message that is too old: it is
    taken for full of old messages and deleted, which is right where documents hold
    their messages in the order of their sending times. *)
Theorem DeleteConversation_keeps_recent {W R} `{MsgCollectionLaws W} `{RedisLaws R}
    now fuel c rt (w : W * R) :
  regex_plain c → wf_docs (docs w.1) →
  Z.of_nat (length (doc_ids c (docs w.1))) < 2 ^ 63 - 1 →
  (length (doc_ids c (docs w.1)) < fuel)%nat →
  let '(r, w') := DeleteConversationMsgsAndSetMinSeq now fuel c rt w in
  (∃ r', r = of_sum r') ∧
  ∀ d l i s m, docs w.1 !! d = Some l → l !! i = Some (Some s) → Info_Msg s = Some m →
    expired now rt m = false → ¬ (full_gone now rt (docs w.1) d ∧ String.prefix (c +:+ ":") d = true) →
    ∃ l', docs w'.1 !! d = Some l' ∧ l' !! i = Some (Some s).
Proof.
  intros Hplain Hwf Hmax Hfuel.
  match goal with |- let '(r, w') := _ in @?P r w' =>
    change (wp (DeleteConversationMsgsAndSetMinSeq now fuel c rt) P w) end.
  apply wp_DeleteConversationMsgsAndSetMinSeq; [done..|].
  intros D ds r w' (Ht & Hdel & _) Hframe _ _. split; [eauto|].
  intros d l i s m Hl Hs Hm He Hgone.
  rewrite Hframe by by intros Hin%Hdel.
  destruct Ht as [Hdom Hf]. assert (is_Some (D !! d)) as [l' Hl'].
  { apply elem_of_dom. rewrite <-Hdom. by eapply elem_of_dom_2. }
  exists l'. split; [done|]. destruct (Forall2_lookup_l _ _ _ _ _ (Hf _ _ _ Hl Hl') Hs)
    as (p & Hp & [->|[-> Hg]]); [done|]. exfalso.
  specialize (Hg m Hm). congruence.
Qed.

(** When no message is too old, the deletion removes
    nothing, but if it succeeds it sets the conversation's first number to 1,
    whatever it was before. *)
Theorem DeleteConversation_resets_min {W R} `{MsgCollectionLaws W} `{RedisLaws R}
    now fuel c rt (w : W * R) :
  regex_plain c → wf_docs (docs w.1) →
  Z.of_nat (length (doc_ids c (docs w.1))) < 2 ^ 63 - 1 →
  (length (doc_ids c (docs w.1)) < fuel)%nat →
  nothing_expired now rt (docs w.1) →
  let '(r, w') := DeleteConversationMsgsAndSetMinSeq now fuel c rt w in
  docs w'.1 = docs w.1 ∧ (r = Ok () → kv w'.2 !! getMinSeqKey c = Some (FormatInt 1)).
Proof.
  intros Hplain Hwf Hmax Hfuel Hn.
  match goal with |- let '(r, w') := _ in @?P r w' =>
    change (wp (DeleteConversationMsgsAndSetMinSeq now fuel c rt) P w) end.
  apply wp_DeleteConversationMsgsAndSetMinSeq; [done..|].
  intros D ds r w' (_ & _ & Hinv) _ Hnil Hmin. destruct (Hinv Hn) as [-> ->].
  split; [by apply Hnil|]. intros Hr. destruct r as [[]|]; [|done]. by apply Hmin.
Qed.

(** A conversation with one document of two old messages and a recent one. *)
Definition sample_slot (s t : Z) : option MsgInfoModel :=
  Some (mkMsgInfoModel (Some (chat_model (set_SendTime t (set_Seq s MsgData_zero)))) None (Some []) false).

Definition sample_docs : mem_docs :=
  {[ "c:0" := sample_slot 1 10 :: sample_slot 2 20 :: sample_slot 3 900000 ::
              replicate 97 (Some fresh_slot) ]}.

Lemma sample_docs_wf : wf_docs sample_docs.
Proof.
  intros d l. unfold sample_docs. intros [<- <-]%lookup_singleton_Some. split; [done|].
  repeat constructor; eauto.
Qed.

Lemma DeleteConversation_keeps_recent_witness :
  let w : mem_docs * mem_redis := (sample_docs, redis_empty) in
  let '(r, w') := DeleteConversationMsgsAndSetMinSeq 800000 2 "c" 100 w in
  (∃ r', r = of_sum r') ∧
  ∀ d l i s m, docs w.1 !! d = Some l → l !! i = Some (Some s) → Info_Msg s = Some m →
    expired 800000 100 m = false → ¬ (full_gone 800000 100 (docs w.1) d ∧ String.prefix ("c" +:+ ":") d = true) →
    ∃ l', docs w'.1 !! d = Some l' ∧ l' !! i = Some (Some s).
Proof.
  apply DeleteConversation_keeps_recent; try done.
  - apply (bool_decide_unpack _). by vm_compute.
  - apply sample_docs_wf.
  - cbn. vm_compute. lia.
Defined.

(** The conversation's first number was 3. *)
Lemma DeleteConversation_resets_min_witness :
  let w : mem_docs * mem_redis := (sample_docs, mkRedis {[ getMinSeqKey "c" := FormatInt 3 ]} ∅ ∅) in
  is_ok (DeleteConversationMsgsAndSetMinSeq 5 2 "c" 100 w).1 = true ∧
  let '(r, w') := DeleteConversationMsgsAndSetMinSeq 5 2 "c" 100 w in
  docs w'.1 = docs w.1 ∧ (r = Ok () → kv w'.2 !! getMinSeqKey "c" = Some (FormatInt 1)).
Proof.
  intros w. split; [by vm_compute|].
  apply DeleteConversation_resets_min; try done.
  - apply (bool_decide_unpack _). by vm_compute.
  - apply sample_docs_wf.
  - cbn. vm_compute. lia.
  - intros d l j m Hl Hm. unfold w, sample_docs in Hl. cbn in Hl.
    apply lookup_singleton_Some in Hl as [<- <-].
    destruct j as [|[|[|j]]]; cbn in Hm; [by injection Hm as <-..|].
    exfalso. assert (∀ n, replicate n (Some fresh_slot) !! j ≫= (λ p, p ≫= Info_Msg) = None) as Hrep.
    { intros n. destruct (replicate n (Some fresh_slot) !! j) eqn:E; [|done].
      apply lookup_replicate_1 in E as [-> _]. done. }
    change (replicate 97 (Some fresh_slot) !! j ≫= (λ p, p ≫= Info_Msg) = Some m) in Hm.
    by rewrite Hrep in Hm.
Defined.

(** ** [UserMsgsDestruct] *)

Section Destruct.
Context {W R : Type} `{MsgCollectionLaws W} `{RedisLaws R} `{ToolsLaws}.
Context (now : Z) (userID c : string) (destructTime lastTime : Z).
Context (Hplain : regex_plain c).

(** The message of slot [info] is due: its time has come since the last run,
    and the user has not deleted it. *)
Definition due (info : MsgInfoModel) (m : MsgDataModel) : Prop :=
  Info_Msg info = Some m ∧
  lastTime < add64 (DB_SendTime m) (mul64 destructTime 1000) ≤ now ∧
  userID ∉ default [] (Info_DelList info).

Definition due_in (D : mem_docs) (s : Z) : Prop :=
  ∃ d l i info m, d ∈ doc_ids c D ∧ D !! d = Some l ∧ l !! i = Some (Some info) ∧
    due info m ∧ DB_Seq m = s.

Lemma destruct_slots_due slots seqs seqs' over :
  destruct_slots now userID destructTime lastTime slots seqs = (seqs', over) →
  ∀ s, s ∈ seqs' → s ∈ seqs ∨ ∃ i info m, slots !! i = Some (Some info) ∧ due info m ∧ DB_Seq m = s.
Proof.
  revert seqs. induction slots as [|p slots IH]; intros seqs Hd s Hs; cbn in Hd.
  { injection Hd as <- <-. by left. }
  destruct p as [info|]; [|injection Hd as <- <-; by left].
  destruct (Info_Msg info) as [m|] eqn:Hm; [|injection Hd as <- <-; by left].
  destruct (_ <=? now) eqn:Hnow; [|injection Hd as <- <-; by left].
  destruct (IH _ Hd s Hs) as [Hin|(i & info' & m' & ? & ?)].
  2:{ right. by exists (S i), info', m'. }
  destruct ((lastTime <? _) && _) eqn:Hlast; [|by left].
  apply elem_of_app in Hin as [Hin| ->%list_elem_of_singleton]; [by left|].
  right. exists 0%nat, info, m. split; [done|]. split; [|done].
  apply andb_true_iff in Hlast as [Hl%Z.ltb_lt Hc%negb_true_iff]. apply Z.leb_le in Hnow.
  rewrite Contain_spec, bool_decide_eq_false in Hc. by split_and!.
Qed.

Lemma wp_destruct_loop fuel k seqs (w : W * R) (Q : outcome (list Z) → W * R → Prop) :
  Z.of_nat (length (doc_ids c (docs w.1))) < 2 ^ 63 - 1 →
  0 ≤ k ≤ Z.of_nat (length (doc_ids c (docs w.1))) →
  Z.of_nat (length (doc_ids c (docs w.1))) < Z.of_nat fuel + k →
  (∀ s, s ∈ seqs → due_in (docs w.1) s) →
  (∀ seqs' w', docs w'.1 = docs w.1 → w'.2 = w.2 →
     (∀ s, s ∈ seqs' → due_in (docs w.1) s) → Q (Ok seqs') w') →
  wp (destruct_loop now fuel userID c destructTime lastTime k seqs) Q w.
Proof.
  revert k seqs w. induction fuel as [|fuel IH]; intros k seqs w Hmax Hk Hfuel Hs HQ; [lia|].
  cbn [destruct_loop].
  apply wp_bind, wp_try, wp_on_fst, wp_GetMsgDocModelByIndex; [done|lia| |].
  2:{ intros e d' Hd'. by apply wp_ret, HQ. }
  intros d l d' Hid Hl Hd'. cbn [DocID Msg].
  assert (d ∈ doc_ids c (docs w.1)) as Hin by (by eapply list_elem_of_lookup_2).
  destruct (doc_ids_elem _ _ _ Hin) as [_ Hpre].
  rewrite bool_decide_eq_false_2 by (intros ->; by rewrite prefix_colon_not_empty in Hpre).
  pose proof (lookup_lt_Some _ _ _ Hid).
  destruct (destruct_slots _ _ _ _ l seqs) as [seqs' over] eqn:Eds.
  assert (∀ s, s ∈ seqs' → due_in (docs w.1) s) as Hs'.
  { intros s [?|(i & info & m & ? & ? & ?)]%(destruct_slots_due _ _ _ _ Eds s); [by apply Hs|].
    by exists d, l, i, info, m. }
  destruct over; [by apply wp_ret, HQ|]. rewrite add64_id by (unfold int64; lia).
  apply IH; cbn; rewrite ?Hd'; [lia..|done|]. intros seqs2 w2 ? ?. by apply HQ.
Qed.
End Destruct.

(** The destruction of a user's messages ends and never panics; it
    changes no document; the numbers it reports are those of messages of the
    conversation that are due and that the user has not deleted; and the user's
    first visible number stays or grows. *)
Theorem UserMsgsDestruct_safe {W R} `{MsgCollectionLaws W} `{RedisLaws R} `{ToolsLaws}
    now fuel u c destructTime lastTime old (w : W * R) :
  regex_plain c → Z.of_nat (length (doc_ids c (docs w.1))) < 2 ^ 63 - 1 →
  (length (doc_ids c (docs w.1)) < fuel)%nat →
  kv w.2 !! getConversationUserMinSeqKey c u = FormatInt <$> old → small old →
  let '(r, w') := UserMsgsDestruct now fuel u c destructTime lastTime w in
  docs w'.1 = docs w.1 ∧
  match r with
  | Ok seqs => ∀ s, s ∈ seqs → due_in now u c destructTime lastTime (docs w.1) s
  | Err _ => True
  | Panic | OutOfFuel => False
  end ∧
  (kv w'.2 !! getConversationUserMinSeqKey c u = kv w.2 !! getConversationUserMinSeqKey c u ∨
   ∃ v, kv w'.2 !! getConversationUserMinSeqKey c u = Some (FormatInt v) ∧ default 0 old < v).
Proof.
  intros Hplain Hmax Hfuel Hold Sold.
  match goal with |- let '(r, w') := _ in @?P r w' =>
    change (wp (UserMsgsDestruct now fuel u c destructTime lastTime) P w) end.
  apply wp_bind, wp_destruct_loop; [done|lia..| |].
  { intros s Hs. by apply elem_of_nil in Hs. }
  intros seqs w1 Hd Hr Hdue. destruct (last seqs) as [s|]; [|apply wp_ret; rewrite Hr; auto].
  cbv zeta. unfold GetConversationUserMinSeq.
  apply wp_bind, (wp_number_or_zero _ old); [by rewrite Hr|by apply small_int64| |].
  2:{ intros e _. rewrite Hr. auto. }
  apply wp_bind. destruct (Z.ltb_spec (default 0 old) (add64 s 1)) as [Hlt|].
  2:{ apply wp_ret, wp_ret. rewrite Hr. auto. }
  apply wp_on_snd, wp_wrap_error, wp_run.
  - intros [] r' E. apply Set_kv in E. apply wp_ret. cbn. split_and!; [done|done|].
    right. exists (add64 s 1). by rewrite E, lookup_insert_eq.
  - intros e r' E. apply Set_err in E as [_ [E|E]]; cbn; split_and!; try done.
    + left. by rewrite E, Hr.
    + right. exists (add64 s 1). by rewrite E, lookup_insert_eq.
Qed.

(** The search stops at the first slot without a message, and
    [DeleteMsgsPhysicalBySeqs] leaves such slots: when the first message of the
    conversation's first document has been deleted, nothing is ever destructed. *)
Theorem UserMsgsDestruct_stops_at_hole {W R} `{MsgCollectionLaws W} `{RedisLaws R} `{ToolsLaws}
    now fuel u c destructTime lastTime d info l (w : W * R) :
  regex_plain c → (fuel ≠ 0)%nat → doc_ids c (docs w.1) !! 0%nat = Some d →
  docs w.1 !! d = Some (Some info :: l) → Info_Msg info = None →
  let '(r, w') := UserMsgsDestruct now fuel u c destructTime lastTime w in
  r = Ok [] ∧ docs w'.1 = docs w.1 ∧ w'.2 = w.2.
Proof.
  intros Hplain Hfuel Hd Hl Hinfo.
  match goal with |- let '(r, w') := _ in @?P r w' =>
    change (wp (UserMsgsDestruct now fuel u c destructTime lastTime) P w) end.
  destruct fuel as [|fuel]; [done|]. unfold UserMsgsDestruct. cbn [destruct_loop].
  apply wp_bind, wp_bind, wp_try, wp_on_fst, wp_GetMsgDocModelByIndex; [done|done| |].
  2:{ intros e d' Hd'. by apply wp_ret, wp_ret. }
  intros d0 l0 d' Hd0 Hl0 Hd'. cbn [DocID Msg].
  change (doc_ids c (docs w.1) !! 0%nat = Some d0) in Hd0.
  rewrite Hd in Hd0. injection Hd0 as <-. rewrite Hl in Hl0. injection Hl0 as <-.
  case_bool_decide; [by apply wp_ret, wp_ret|]. cbn [destruct_slots]. rewrite Hinfo.
  by apply wp_ret, wp_ret.
Qed.

#[local] Existing Instances model_tools model_tools_laws.

Lemma UserMsgsDestruct_safe_witness :
  let w : mem_docs * mem_redis := (sample_docs, redis_empty) in
  (UserMsgsDestruct 800000 2 "u" "c" 100 0 w).1 = Ok [1; 2] ∧
  let '(r, w') := UserMsgsDestruct 800000 2 "u" "c" 100 0 w in
  docs w'.1 = docs w.1 ∧
  match r with
  | Ok seqs => ∀ s, s ∈ seqs → due_in 800000 "u" "c" 100 0 (docs w.1) s
  | Err _ => True
  | Panic | OutOfFuel => False
  end ∧
  (kv w'.2 !! getConversationUserMinSeqKey "c" "u" = kv w.2 !! getConversationUserMinSeqKey "c" "u" ∨
   ∃ v, kv w'.2 !! getConversationUserMinSeqKey "c" "u" = Some (FormatInt v) ∧ default 0 None < v).
Proof.
  intros w. split; [by vm_compute|].
  apply (UserMsgsDestruct_safe 800000 2 "u" "c" 100 0 None w); try done.
  - apply (bool_decide_unpack _). by vm_compute.
  - cbn. vm_compute. lia.
Defined.

Lemma UserMsgsDestruct_stops_at_hole_witness :
  let w : mem_docs * mem_redis :=
    (alter (empty_slots [0]) "c:0" sample_docs, redis_empty) in
  let '(r, w') := UserMsgsDestruct 800000 2 "u" "c" 100 0 w in
  r = Ok [] ∧ docs w'.1 = docs w.1 ∧ w'.2 = w.2.
Proof.
  intros w.
  eapply (UserMsgsDestruct_stops_at_hole 800000 2 "u" "c" 100 0 "c:0"
    MsgInfoModel_zero _ w); try done.
  apply (bool_decide_unpack _). by vm_compute.
Defined.
