(* ===== verification/Auth.v ===== *)
(** * Login tokens (pkg/authverify, pkg/common/db/controller/auth.go, internal/rpc/auth)

    A token is a signed claim of a user and a platform; the cache keeps, for
    each user and platform, the tokens that were issued and their flags.  A
    token is good if it verifies and its flag is [NormalToken]. *)

From S2P Require Import Prelude.
From S2P Require Import Constants.
From S2P Require Import MsgTypes.
From S2P Require Import MsgProcessor.
From S2P Require Import MsgDoc.
From S2P Require Import Tools.
From S2P Require Import Redis.
From S2P Require Import MsgCache.
From stdpp Require Import options.
#[local] Set Default Proof Using "Type*".

#[local] Open Scope Z_scope.

(** [tokenverify.Claims] *)
Record Claims := mkClaims {
  Claims_UserID : string; Claims_PlatformID : Z; Claims_ExpiresAt : Z }.

(** ** Access checks (pkg/authverify/token.go)

    [opUserID] is the user of the call ([mcontext.GetOpUserID]), [managers] the
    configured managers. *)

Section AuthVerify.
Context `{Tools}.
Context (managers : list string).
(** [tokenverify.GetClaimFromToken(token, Secret())] *)
Context (GetClaimFromToken : string → Claims + error).

Definition CheckAccessV3 (opUserID ownerUserID : string) : () + error :=
  if Contain opUserID managers then inl ()
  else if bool_decide (opUserID = ownerUserID) then inl ()
  else inr (Wrap ErrNoPermission "CheckAccessV3").

Definition IsAppManagerUid (opUserID : string) : bool := Contain opUserID managers.

Definition CheckAdmin (opUserID : string) : () + error :=
  if Contain opUserID managers then inl ()
  else inr (Wrap ErrNoPermission ("user " +:+ opUserID +:+ " is not admin userID")).

Definition IsManagerUserID (opUserID : string) : bool := Contain opUserID managers.

Definition WsVerifyToken (token userID : string) (platformID : Z) : () + error :=
  match GetClaimFromToken token with
  | inr e => inr e
  | inl claim =>
      if negb (bool_decide (Claims_UserID claim = userID)) then
        inr (Wrap ErrTokenInvalid ("token uid " +:+ Claims_UserID claim +:+ " != userID " +:+ userID))
      else if negb (Claims_PlatformID claim =? platformID) then
        inr (Wrap ErrTokenInvalid ("token platform " +:+ FormatInt (Claims_PlatformID claim) +:+
          " != " +:+ FormatInt platformID))
      else inl ()
  end.
End AuthVerify.

(** ** Issuing and checking tokens *)

Section AuthDatabase.
Context {R : Type} `{Redis R} `{Tools} `{MapRange}.
Context (GetClaimFromToken : string → Claims + error).
(** [jwt.NewWithClaims(..., BuildClaims(userID, platformID, expire)).SignedString(secret)] *)
Context (SignClaims : string → Z → string + error).

Definition authDatabase_GetTokensWithoutError (userID : string) (platformID : Z) :
    M R (gmap string Z) := GetTokensWithoutError userID platformID.

(** The tokens that are no longer good. *)
Definition stale (k : string) (v : Z) : bool :=
  match GetClaimFromToken k with inr _ => true | inl _ => negb (v =? NormalToken) end.

Definition CreateToken (userID : string) (platformID : Z) : M R string :=
  tokens ← GetTokensWithoutError userID platformID;
  let deleteTokenKey := (filter (λ '(k, v), stale k v = true) (range tokens)).*1 in
  _ ← (if negb (len deleteTokenKey =? 0)
       then DeleteTokenByUidPid userID platformID deleteTokenKey else mret ());
  tokenString ← wrap_error (lift (SignClaims userID platformID));
  _ ← AddTokenFlag userID platformID tokenString NormalToken;
  mret tokenString.

(** *** internal/rpc/auth/auth.go *)

Context (Secret : string) (TokenPolicy_Expire : Z) (GetUserInfo : string → () + error).

Definition parseToken (tokensString : string) : M R Claims :=
  claims ← wrap_error (lift (GetClaimFromToken tokensString));
  m ← authDatabase_GetTokensWithoutError (Claims_UserID claims) (Claims_PlatformID claims);
  _ ← guard (bool_decide (m = ∅)) (Wrap ErrTokenNotExist "");
  match m !! tokensString with
  | Some v =>
      if v =? NormalToken then mret claims
      else if v =? KickedToken then fail (Wrap ErrTokenKicked "")
      else fail (Wrap ErrTokenUnknown "")
  | None => fail (Wrap ErrTokenNotExist "")
  end.

(** The user, the platform's name and the expiry of a token. *)
Definition ParseToken (token : string) : M R (string * string * Z) :=
  claims ← parseToken token;
  mret (Claims_UserID claims, PlatformIDToName (Claims_PlatformID claims), Claims_ExpiresAt claims).

Definition UserToken (secret userID : string) (platformID : Z) : M R (string * Z) :=
  _ ← guard (negb (bool_decide (secret = Secret))) (Wrap ErrNoPermission "secret invalid");
  _ ← lift (GetUserInfo userID);
  token ← CreateToken userID platformID;
  mret (token, mul64 (mul64 (mul64 TokenPolicy_Expire 24) 60) 60).
End AuthDatabase.

(** ** Forced logout

    The call [KickUserOffline] on a gateway. *)

Record KickCall := mkKickCall { Kick_Target : string; Kick_UserID : string; Kick_PlatformID : Z }.

Section ForceLogout.
Context `{Tools} (managers : list string).
Context (GetConns : list KickCall → list string + error).
Context (KickUserOffline_answer : list KickCall → KickCall → option error).

(** An error of one gateway is logged, the others are called. *)
Definition forceKickOff (userID : string) (platformID : Z) : M (list KickCall) () :=
  conns ← ask GetConns;
  for_each conns (λ v,
    _ ← try (tell KickUserOffline_answer (mkKickCall v userID platformID)); mret ()).

Definition ForceLogout (opUserID userID : string) (platformID : Z) : M (list KickCall) () :=
  _ ← lift (CheckAdmin managers opUserID);
  forceKickOff userID platformID.
End ForceLogout.

(** ** What the tokens guarantee *)

(** The tokens of a user on a platform, with their flags. *)
Definition token_table {R} `{Redis R} `{Tools} (w : R) (userID : string) (platformID : Z) :
    gmap string Z :=
  StringToInt <$> default ∅ (hashes w !! tokenKey userID platformID).

Lemma foldl_delete_lookup {A} (l : list string) (h : gmap string A) k :
  foldl (λ h f, delete f h) h l !! k = if decide (k ∈ l) then None else h !! k.
Proof.
  revert h. induction l as [|x l IH]; intros h; cbn; [by rewrite decide_False by apply not_elem_of_nil|].
  rewrite IH. destruct (decide (k ∈ l)); [by rewrite decide_True by (by right)|].
  destruct (decide (k = x)) as [->|].
  - by rewrite lookup_delete_eq, decide_True by left.
  - rewrite lookup_delete_ne by done. rewrite decide_False; [done|].
    by intros [?|?]%elem_of_cons.
Qed.

Section AuthProofs.
Context {R : Type} `{RedisLaws R} `{ToolsLaws} `{MapRange}.
Context (GetClaimFromToken : string → Claims + error).
Context (SignClaims : string → Z → string + error).

Lemma wp_GetTokensWithoutError u p (w : R) (Q : outcome (gmap string Z) → R → Prop) :
  Q (Ok (token_table w u p)) w → (∀ e, Q (Err e) w) → wp (GetTokensWithoutError u p) Q w.
Proof.
  intros Hok He. apply wp_bind, wp_wrap_error.
  pose proof (HGetAll_keeps (tokenKey u p) w) as Hk.
  apply wp_run; intros x w' E; rewrite E in Hk; cbn in Hk; subst w'; [|by apply He].
  apply HGetAll_some in E as ->. by apply wp_ret.
Qed.

Lemma StringToInt_Normal : StringToInt (FormatInt NormalToken) = NormalToken.
Proof. apply StringToInt_Format. unfold int64, NormalToken. lia. Qed.

(** The stale tokens leave the table. *)
Lemma wp_remove_stale u p (w : R) (Q : outcome () → R → Prop) :
  (∀ w', token_table w' u p = filter (λ '(k, v), stale GetClaimFromToken k v = false) (token_table w u p) →
     Q (Ok ()) w') → (∀ e w', Q (Err e) w') →
  wp (if negb (len ((filter (λ '(k, v), stale GetClaimFromToken k v = true)
                        (range (token_table w u p))).*1) =? 0)
      then DeleteTokenByUidPid u p ((filter (λ '(k, v), stale GetClaimFromToken k v = true)
                        (range (token_table w u p))).*1)
      else mret ()) Q w.
Proof.
  intros Hok He.
  set (l := (filter (λ '(k, v), stale GetClaimFromToken k v = true) (range (token_table w u p))).*1).
  assert (∀ k v, token_table w u p !! k = Some v → k ∈ l ↔ stale GetClaimFromToken k v = true) as Hl.
  { intros k v Hk. unfold l. rewrite list_elem_of_fmap. split.
    - intros ([k' v'] & -> & [Hst Hin]%list_elem_of_filter). apply range_lookup in Hin. cbn in *.
      assert (v' = v) as -> by congruence. exact Hst.
    - intros Hst. exists (k, v). split; [done|]. apply list_elem_of_filter. by rewrite range_lookup. }
  assert (∀ w', (∀ k, token_table w' u p !! k = if decide (k ∈ l) then None else token_table w u p !! k) →
    token_table w' u p = filter (λ '(k, v), stale GetClaimFromToken k v = false) (token_table w u p)) as Hf.
  { intros w' Hw'. apply map_eq. intros k. rewrite Hw'.
    destruct (token_table w u p !! k) as [v|] eqn:Hk.
    - destruct (stale GetClaimFromToken k v) eqn:Hst.
      + rewrite decide_True by (by apply (Hl k v)). symmetry.
        apply map_lookup_filter_None_2. right. intros v' Hv'. assert (v' = v) as -> by congruence.
        by rewrite Hst.
      + rewrite decide_False by (intros Hin; apply (Hl k v) in Hin; congruence). symmetry.
        by apply map_lookup_filter_Some_2.
    - rewrite map_lookup_filter_None_2 by (by left). by destruct (decide (k ∈ l)). }
  destruct (len l =? 0) eqn:Hlen; cbn [negb].
  - apply wp_ret, Hok, Hf. apply Z.eqb_eq in Hlen. unfold len in Hlen.
    intros k. rewrite decide_False; [done|]. destruct l; [apply not_elem_of_nil|done].
  - apply wp_wrap_error, wp_run; [|done]. intros [] w' E. apply Hok, Hf. intros k.
    unfold token_table. rewrite (HDel_hashes _ _ _ _ E), decide_True by done.
    rewrite !lookup_fmap, foldl_delete_lookup. by destruct (decide (k ∈ l)).
Qed.

(** A token that [CreateToken] issues is added with the
    flag [NormalToken], and the tokens of the user and platform that do not
    verify or are not in the normal state are dropped; the others stay. *)
Theorem CreateToken_table u p (w : R) :
  let '(r, w') := CreateToken GetClaimFromToken SignClaims u p w in
  match r with
  | Ok tok => SignClaims u p = inl tok ∧
      token_table w' u p =
        <[tok := NormalToken]> (filter (λ '(k, v), stale GetClaimFromToken k v = false)
                                  (token_table w u p))
  | Err _ => True
  | Panic | OutOfFuel => False
  end.
Proof.
  match goal with |- let '(r, w') := _ in @?P r w' =>
    change (wp (CreateToken GetClaimFromToken SignClaims u p) P w) end.
  apply wp_bind, wp_GetTokensWithoutError; [|done]. cbv zeta.
  apply wp_bind, wp_remove_stale; [|done]. intros w1 Hw1.
  apply wp_bind, wp_wrap_error, wp_lift; [|done]. intros tok Htok.
  apply wp_bind, wp_wrap_error, wp_run; [|done]. intros [] w2 E. apply wp_ret. split; [done|].
  apply HSet_hashes in E. unfold token_table at 1. rewrite E, lookup_insert_eq. cbn [from_option foldl fst snd].
  unfold id. rewrite fmap_insert, StringToInt_Normal. f_equal. exact Hw1.
Qed.

(** A verified token is refused because the cache cannot be read, or because
    it is not in the normal state. *)
Definition refused (u : string) (p : Z) (tok : string) (w : R) (e : error) : Prop :=
  (∃ e', (Redis_HGetAll (tokenKey u p) w).1 = inr e') ∨
  token_table w u p !! tok ≠ Some NormalToken ∧
  (token_table w u p !! tok = Some KickedToken → e = Wrap ErrTokenKicked "").

(** C33: [parseToken] changes nothing and, if it answers, accepts
    exactly the tokens that verify and are in the normal state; a token in the
    kicked state is refused as kicked.  Only a failure of the cache can make it
    refuse a good token. *)
Theorem parseToken_spec tok (w : R) :
  let '(r, w') := parseToken GetClaimFromToken tok w in
  w' = w ∧
  match r with
  | Ok claims => GetClaimFromToken tok = inl claims ∧
      token_table w (Claims_UserID claims) (Claims_PlatformID claims) !! tok = Some NormalToken
  | Err e => ∀ claims, GetClaimFromToken tok = inl claims →
      refused (Claims_UserID claims) (Claims_PlatformID claims) tok w e
  | Panic | OutOfFuel => False
  end.
Proof.
  match goal with |- let '(r, w') := _ in @?P r w' =>
    change (wp (parseToken GetClaimFromToken tok) P w) end.
  apply wp_bind, wp_wrap_error, wp_lift.
  2:{ intros e He. split; [done|]. intros claims Hc. congruence. }
  intros claims Hc. apply wp_bind. unfold authDatabase_GetTokensWithoutError, GetTokensWithoutError.
  apply wp_bind, wp_wrap_error.
  pose proof (HGetAll_keeps (tokenKey (Claims_UserID claims) (Claims_PlatformID claims)) w) as Hk.
  apply wp_run; intros x w' E; rewrite E in Hk; cbn in Hk; subst w'.
  2:{ split; [done|]. intros claims' Hc'. left. assert (claims' = claims) as -> by congruence.
      rewrite E. by exists x. }
  apply HGetAll_some in E as ->. apply wp_ret. fold (token_table w (Claims_UserID claims) (Claims_PlatformID claims)).
  set (t := token_table w (Claims_UserID claims) (Claims_PlatformID claims)).
  assert (∀ e, t !! tok ≠ Some NormalToken → (t !! tok = Some KickedToken → e = Wrap ErrTokenKicked "") →
    ∀ claims', GetClaimFromToken tok = inl claims' →
    refused (Claims_UserID claims') (Claims_PlatformID claims') tok w e) as Herr.
  { intros e Hn He claims' Hc'. assert (claims' = claims) as -> by congruence. by right. }
  apply wp_bind, wp_guard; intros Hempty.
  { split; [done|]. apply bool_decide_eq_true in Hempty. apply Herr; by rewrite Hempty, lookup_empty. }
  destruct (t !! tok) as [v|] eqn:Ht; [|split; [done|by apply Herr]].
  destruct (Z.eqb_spec v NormalToken) as [->|]; [by apply wp_ret|].
  destruct (Z.eqb_spec v KickedToken) as [->|Hnk]; split; try done; apply Herr; congruence.
Qed.
End AuthProofs.

(** ** A sample: tokens "user/n", signed by nobody *)

#[local] Existing Instances model_tools model_tools_laws map_order.

Definition sample_claim (token : string) : Claims + error :=
  if String.prefix "ok" token then inl (mkClaims "u" 1 0) else inr (Bare ErrTokenInvalid).

Definition sample_tokens : mem_redis :=
  mkRedis ∅ ∅ {[ tokenKey "u" 1 := {[ "ok1" := "0"; "ok2" := "2"; "bad" := "0" ]} ]}.

Lemma CreateToken_table_witness :
  let '(r, w') := CreateToken sample_claim (λ _ _, inl "ok3") "u" 1 sample_tokens in
  match r with
  | Ok tok => (inl "ok3" : string + error) = inl tok ∧
      token_table w' "u" 1 =
        <[tok := NormalToken]> (filter (λ '(k, v), stale sample_claim k v = false)
                                  (token_table sample_tokens "u" 1))
  | Err _ => True
  | Panic | OutOfFuel => False
  end.
Proof. apply (CreateToken_table sample_claim (λ _ _, inl "ok3") "u" 1 sample_tokens). Defined.

Lemma parseToken_spec_witness :
  (parseToken sample_claim "ok1" sample_tokens).1 = Ok (mkClaims "u" 1 0) ∧
  (parseToken sample_claim "ok2" sample_tokens).1 = Err (Wrap ErrTokenKicked "") ∧
  let '(r, w') := parseToken sample_claim "ok2" sample_tokens in
  w' = sample_tokens ∧
  match r with
  | Ok claims => sample_claim "ok2" = inl claims ∧
      token_table sample_tokens (Claims_UserID claims) (Claims_PlatformID claims) !! "ok2" = Some NormalToken
  | Err e => ∀ claims, sample_claim "ok2" = inl claims →
      refused (Claims_UserID claims) (Claims_PlatformID claims) "ok2" sample_tokens e
  | Panic | OutOfFuel => False
  end.
Proof.
  split; [by vm_compute|]. split; [by vm_compute|].
  apply (parseToken_spec sample_claim "ok2" sample_tokens).
Defined.
