(* ===== verification/MsgServer.v ===== *)
(** * The message service (internal/rpc/msg)

    The handlers of the service, over the store and the cache of
    MsgDatabase.v.  A handler also talks to the queue, to the webhook and to
    the other services: what it asks them to change, or posts to them, is kept
    in order as a list of [Effect]s, and what they answer is a function of that
    list.  The service's own memory is the local cache of conversation ids. *)

From S2P Require Import Prelude.
From S2P Require Import Constants.
From S2P Require Import MsgTypes.
From S2P Require Import MsgProcessor.
From S2P Require Import MsgDoc.
From S2P Require Import MsgCollection.
From S2P Require Import MsgStore.
From S2P Require Import Tools.
From S2P Require Import Notification.
From S2P Require Import RpcClient.
From S2P Require Import Redis.
From S2P Require Import MsgCache.
From S2P Require Import MsgDatabase.
From S2P Require Import Auth.
From stdpp Require Import options.
#[local] Set Default Proof Using "Type*".

#[local] Open Scope Z_scope.

(** ** Data *)

(** What the service reads of the configuration. *)
Record MsgConfig := mkMsgConfig {
  Manager_UserID : list string;
  SingleMessageHasReadReceiptEnable : bool;
  GroupMessageHasReadReceiptEnable : bool;
  FriendVerify : option bool;
  CallbackBeforeSendSingleMsg_Enable : bool;
  CallbackAfterSendSingleMsg_Enable : bool;
  CallbackBeforeSendGroupMsg_Enable : bool;
  CallbackAfterSendGroupMsg_Enable : bool;
  CallbackMsgModify_Enable : bool;
  Config_Notification : notification }.

(** The post to the webhook. *)
Record CommonCallbackReq := mkCommonCallbackReq {
  CB_SendID : string; CB_CallbackCommand : string; CB_ServerMsgID : string;
  CB_ClientMsgID : string; CB_OperationID : string; CB_SenderPlatformID : Z;
  CB_SenderNickname : string; CB_SessionType : Z; CB_MsgFrom : Z; CB_ContentType : Z;
  CB_Status : Z; CB_CreateTime : Z; CB_Content : string; CB_Seq : Z;
  CB_AtUserIDList : list string; CB_SenderFaceURL : string; CB_Ex : string }.

(** The answer to a request to modify a message; nil leaves a field alone. *)
Record CallbackMsgModifyCommandResp := mkCallbackMsgModifyCommandResp {
  CM_Content : option string; CM_RecvID : option string; CM_GroupID : option string;
  CM_ClientMsgID : option string; CM_ServerMsgID : option string;
  CM_SenderPlatformID : option Z; CM_SenderNickname : option string;
  CM_SenderFaceURL : option string; CM_SessionType : option Z; CM_MsgFrom : option Z;
  CM_ContentType : option Z; CM_Status : option Z;
  CM_Options : option (option (gmap string bool));
  CM_OfflinePushInfo : option OfflinePushInfo; CM_AtUserIDList : option (list string);
  CM_AttachedInfo : option string; CM_Ex : option string }.

(** The contents of the service's notifications. *)
Inductive Tips :=
  | RevokeMsgTips (RevokerUserID ClientMsgID : string) (RevokeTime Seq SesstionType : Z)
      (ConversationID : string) (IsAdminRevoke : bool)
  | MarkAsReadTips (MarkAsReadUserID ConversationID : string) (Seqs : list Z) (HasReadSeq : Z)
  | DeleteMsgsTips (UserID ConversationID : string) (Seqs : list Z)
  | ClearConversationTips (UserID : string) (ConversationIDs : list string).

(** A message on the queue, a change of conversations, a post to the webhook
    (with the receiver or the group), a goroutine that sets who is mentioned. *)
Inductive Effect :=
  | MQ_Send (key : string) (m : MsgData)
  | SetConversations (userIDs : list string) (conversation : ConversationReq)
  | CallbackPost (target : string) (req : CommonCallbackReq)
  | Go_setConversationAtInfo (m : MsgData).

Record DeleteSyncOpt := mkDeleteSyncOpt { IsSyncSelf : bool; IsSyncOther : bool }.
Record SeqRange := mkSeqRange { SR_ConversationID : string; Begin : Z; End_ : Z; Num : Z }.
Record PullMsgs := mkPullMsgs { Msgs : list (option MsgData); IsEnd : bool }.
Record PullMessageBySeqsResp := mkPullResp {
  Resp_Msgs : gmap string PullMsgs; Resp_NotificationMsgs : gmap string PullMsgs }.

Definition PullOrder_PullOrderAsc : Z := 0.
Definition PullOrder_PullOrderDesc : Z := 1.
Definition SplitPullMsgNum : Z := 100.
Definition ExcludeContentType : list Z := [HasReadReceipt].

Definition set_Content (v : string) (m : MsgData) : MsgData :=
  let (a1, a2, a3, a4, a5, a6, a7, a8, a9, b1, b2, _, b4, b5, b6, b7, b8, b9, c1, c2, c3, c4, c5) := m in
  mkMsgData a1 a2 a3 a4 a5 a6 a7 a8 a9 b1 b2 v b4 b5 b6 b7 b8 b9 c1 c2 c3 c4 c5.

(** [utils.Unwrap(err)] is redis.Nil or gorm.ErrRecordNotFound. *)
Definition IsNotFound (err : error) : bool :=
  bool_decide (Unwrap err = RedisNil ∨ Unwrap err = GormNotFound).

(** ** Sending (verify.go, utils.go, callback.go, send.go)

    [answers] is what the queue and the conversation service answer to a
    change, [webhook] what the webhook answers to a post; [now] is the clock,
    which stands still during a run, [today] the same as text. *)

Section Send.
Context `{Tools} `{MsgTools} `{Services Effect}.
Context (config : MsgConfig) (now : Z) (today : string) (rand_Int : Z) (operationID : string).
Context (answers : list Effect → Effect → option error).
Context (webhook : CommonCallbackReq → list Effect → CallbackMsgModifyCommandResp + error).
(** [JsonDetail] of the encoded tips, empty if they do not decode. *)
Context (tips_JsonDetail : string → string).
(** The text of an error. *)
Context (Error : error → string).
Abbreviation E := (list Effect).

Definition isMessageHasReadEnabled (msgData : MsgData) : bool :=
  if (ContentType msgData =? HasReadReceipt) && (SessionType msgData =? SingleChatType)
  then SingleMessageHasReadReceiptEnable config
  else if (ContentType msgData =? HasReadReceipt) && (SessionType msgData =? SuperGroupChatType)
  then GroupMessageHasReadReceiptEnable config
  else true.

(** message_interceptor.go *)
Definition MessageHasReadEnabled (m : MsgData) : MsgData + error :=
  if (ContentType m =? HasReadReceipt) && (SessionType m =? SingleChatType) then
    if negb (SingleMessageHasReadReceiptEnable config) then inr (Wrap ErrMessageHasReadDisable "")
    else inl m
  else if (ContentType m =? HasReadReceipt) && (SessionType m =? SuperGroupChatType) then
    if negb (GroupMessageHasReadReceiptEnable config) then inr (Wrap ErrMessageHasReadDisable "")
    else inl m
  else inl m.

(** [ContentType <= NotificationEnd && ContentType >= NotificationBegin] *)
Definition in_notification_range (contentType : Z) : bool :=
  (contentType <=? NotificationEnd) && (NotificationBegin <=? contentType).

(** The two cases of the switch on the session type. *)
Definition verify_single (data : MsgData) : M E () :=
  if Contain (SendID data) (Manager_UserID config) then mret ()
  else if in_notification_range (ContentType data) && negb (ContentType data =? SignalingNotification)
  then mret ()
  else
    black ← IsBlocked (SendID data) (RecvID data);
    _ ← guard black (Wrap ErrBlockedByPeer "");
    friendVerify ← deref (FriendVerify config);
    if friendVerify : bool then
      friend ← IsFriend (SendID data) (RecvID data);
      guard (negb friend) (Wrap ErrNotPeersFriend "")
    else mret ().

Definition verify_member (data : MsgData) (groupInfo : GroupInfo) : M E () :=
  r ← try (GetGroupMemberCache (GroupID data) (SendID data));
  groupMemberInfo ← (match r with
    | inl i => mret i
    | inr err => if bool_decide (err = Bare ErrRecordNotFound)
                 then fail (Wrap ErrNotInGroupYet (Error err)) else fail err
    end);
  if GM_RoleLevel groupMemberInfo =? GroupOwner then mret ()
  else
    _ ← guard (now <=? GM_MuteEndTime groupMemberInfo) (Wrap ErrMutedInGroup "");
    guard ((GI_Status groupInfo =? GroupStatusMuted) &&
           negb (GM_RoleLevel groupMemberInfo =? GroupAdmin)) (Wrap ErrMutedGroup "").

Definition verify_super_group (data : MsgData) : M E () :=
  groupInfo ← GetGroupInfoCache (GroupID data);
  _ ← guard ((GI_Status groupInfo =? GroupStatusDismissed) &&
             negb (ContentType data =? GroupDismissedNotification)) (Wrap ErrDismissedAlready "");
  if GI_GroupType groupInfo =? SuperGroup then mret ()
  else if Contain (SendID data) (Manager_UserID config) then mret ()
  else if in_notification_range (ContentType data) then mret ()
  else verify_member data groupInfo.

Definition messageVerification (data : MsgData) : M E () :=
  if SessionType data =? SingleChatType then verify_single data
  else if SessionType data =? SuperGroupChatType then verify_super_group data
  else mret ().

Definition GetMsgID (sendID : string) : string :=
  Md5 (today +:+ "-" +:+ sendID +:+ "-" +:+ FormatInt rand_Int).

Definition set_switches (kvs : list (string * bool)) (o : option (gmap string bool)) :
    option (gmap string bool) :=
  foldl (λ o '(k, v), SetSwitchFromOptions k v o) o kvs.

(** The switches of each content type. *)
Definition content_switches (contentType : Z) : list (string * bool) :=
  if bool_decide (contentType ∈ [Text; Picture; Voice; Video; File; AtText; Merger; Card;
                                 Location; Custom; Quote])
  then [(IsConversationUpdate, true); (IsUnreadCount, true); (IsSenderSync, true)]
  else if contentType =? Revoke then [(IsUnreadCount, false); (IsOfflinePush, false)]
  else if contentType =? HasReadReceipt then
    [(IsConversationUpdate, false); (IsSenderConversationUpdate, false);
     (IsUnreadCount, false); (IsOfflinePush, false)]
  else if contentType =? Typing then
    [(IsHistory, false); (IsPersistent, false); (IsSenderSync, false);
     (IsConversationUpdate, false); (IsSenderConversationUpdate, false);
     (IsUnreadCount, false); (IsOfflinePush, false)]
  else [].

Definition encapsulateMsgData (msg : MsgData) : MsgData :=
  let msg := set_ServerMsgID (GetMsgID (SendID msg)) msg in
  let msg := if SendTime msg =? 0 then set_SendTime now msg else msg in
  set_Options (set_switches (content_switches (ContentType msg)) (Options msg)) msg.

(** [if Options == nil { Options = make(...) }; SetSwitch(Options, IsOfflinePush, false)] *)
Definition no_offline_push (m : MsgData) : MsgData :=
  set_Options (SetSwitchFromOptions IsOfflinePush false (Some (default ∅ (Options m)))) m.

(** Whether to send, and the message, whose options may have changed. *)
Definition modifyMessageByUserMessageReceiveOpt (userID conversationID : string)
    (pb : MsgData) : M E (bool * MsgData) :=
  opt ← GetUserGlobalMsgRecvOpt userID;
  if opt =? NotReceiveMessage then mret (false, pb)
  else if opt =? ReceiveNotNotifyMessage then mret (true, no_offline_push pb)
  else
    r ← try (GetSingleConversationRecvMsgOpt userID conversationID);
    match r with
    | inr err => if bool_decide (Unwrap err = ErrRecordNotFound) then mret (true, pb) else fail err
    | inl singleOpt =>
        mret (if singleOpt =? ReceiveMessage then (true, pb)
              else if singleOpt =? NotReceiveMessage then
                (Contain (ContentType pb) ExcludeContentType, pb)
              else if singleOpt =? ReceiveNotNotifyMessage then (true, no_offline_push pb)
              else (true, pb))
    end.

(** *** callback.go *)

Definition GetContent (msg : MsgData) : string :=
  if (NotificationBegin <=? ContentType msg) && (ContentType msg <=? NotificationEnd)
  then tips_JsonDetail (Content msg) else Content msg.

Definition toCommonCallback (msg : MsgData) (command : string) : CommonCallbackReq :=
  {| CB_SendID := SendID msg; CB_CallbackCommand := command; CB_ServerMsgID := ServerMsgID msg;
     CB_ClientMsgID := ClientMsgID msg; CB_OperationID := operationID;
     CB_SenderPlatformID := SenderPlatformID msg; CB_SenderNickname := SenderNickname msg;
     CB_SessionType := SessionType msg; CB_MsgFrom := MsgFrom msg;
     CB_ContentType := ContentType msg; CB_Status := Status msg;
     CB_CreateTime := CreateTime msg; CB_Content := GetContent msg;
     CB_Seq := Seq msg `mod` 2 ^ 32; CB_AtUserIDList := AtUserIDList msg;
     CB_SenderFaceURL := SenderFaceURL msg; CB_Ex := Ex msg |}.

(** [http.CallBackPostReturn] *)
Definition post (target : string) (req : CommonCallbackReq) : M E CallbackMsgModifyCommandResp :=
  λ h, (of_sum (webhook req h), h ++ [CallbackPost target req]).

(** A post whose answer only allows or refuses. *)
Definition post_check (enable : bool) (target command : string) (msg : MsgData) : M E () :=
  if negb enable then mret ()
  else
    r ← try (post target (toCommonCallback msg command));
    match r with
    | inl _ => mret ()
    | inr err => if bool_decide (err = Bare ErrCallbackContinue) then mret () else fail err
    end.

Definition callbackBeforeSendSingleMsg (msg : MsgData) : M E () :=
  post_check (CallbackBeforeSendSingleMsg_Enable config) (RecvID msg)
    CallbackBeforeSendSingleMsgCommand msg.
Definition callbackAfterSendSingleMsg (msg : MsgData) : M E () :=
  post_check (CallbackAfterSendSingleMsg_Enable config) (RecvID msg)
    CallbackAfterSendSingleMsgCommand msg.
(** The switch is that of the callback after a single message, as in the code. *)
Definition callbackBeforeSendGroupMsg (msg : MsgData) : M E () :=
  post_check (CallbackAfterSendSingleMsg_Enable config) (GroupID msg)
    CallbackBeforeSendGroupMsgCommand msg.
Definition callbackAfterSendGroupMsg (msg : MsgData) : M E () :=
  post_check (CallbackAfterSendGroupMsg_Enable config) (GroupID msg)
    CallbackAfterSendGroupMsgCommand msg.

(** [utils.NotNilReplace(&x, y)] *)
Definition replace {A} (old : A) (new : option A) : M E A :=
  p ← deref (NotNilReplace (Some old) new); deref p.

Definition apply_modification (msg : MsgData) (resp : CallbackMsgModifyCommandResp) : M E MsgData :=
  let content := default (Content msg) (CM_Content resp) in
  offlinePushInfo ← deref (NotNilReplace (OfflinePush msg) (CM_OfflinePushInfo resp));
  recvID ← replace (RecvID msg) (CM_RecvID resp);
  groupID ← replace (GroupID msg) (CM_GroupID resp);
  clientMsgID ← replace (ClientMsgID msg) (CM_ClientMsgID resp);
  serverMsgID ← replace (ServerMsgID msg) (CM_ServerMsgID resp);
  senderPlatformID ← replace (SenderPlatformID msg) (CM_SenderPlatformID resp);
  senderNickname ← replace (SenderNickname msg) (CM_SenderNickname resp);
  senderFaceURL ← replace (SenderFaceURL msg) (CM_SenderFaceURL resp);
  sessionType ← replace (SessionType msg) (CM_SessionType resp);
  msgFrom ← replace (MsgFrom msg) (CM_MsgFrom resp);
  contentType ← replace (ContentType msg) (CM_ContentType resp);
  status ← replace (Status msg) (CM_Status resp);
  options ← replace (Options msg) (CM_Options resp);
  atUserIDList ← replace (AtUserIDList msg) (CM_AtUserIDList resp);
  attachedInfo ← replace (AttachedInfo msg) (CM_AttachedInfo resp);
  ex ← replace (Ex msg) (CM_Ex resp);
  mret {| SendID := SendID msg; RecvID := recvID; GroupID := groupID;
          ClientMsgID := clientMsgID; ServerMsgID := serverMsgID;
          SenderPlatformID := senderPlatformID; SenderNickname := senderNickname;
          SenderFaceURL := senderFaceURL; SessionType := sessionType; MsgFrom := msgFrom;
          ContentType := contentType; Content := content; Seq := Seq msg;
          SendTime := SendTime msg; CreateTime := CreateTime msg; Status := status;
          IsRead := IsRead msg; Options := options; OfflinePush := offlinePushInfo;
          AtUserIDList := atUserIDList; AttachedInfo := attachedInfo; Ex := ex;
          KeyVersion := KeyVersion msg |}.

Definition callbackMsgModify (msg : MsgData) : M E MsgData :=
  if negb (CallbackMsgModify_Enable config) || negb (ContentType msg =? Text) then mret msg
  else
    r ← try (post "" (toCommonCallback msg CallbackMsgModifyCommand));
    match r with
    | inl resp => apply_modification msg resp
    | inr err => if bool_decide (err = Bare ErrCallbackContinue) then mret msg else fail err
    end.

(** *** send.go *)

(** [MsgDatabase.MsgToMQ] *)
Definition MsgToMQ (key : string) (msg2mq : MsgData) : M E () :=
  tell answers (MQ_Send key msg2mq).

(** The conversation change of a mention. *)
Definition at_conversation (msg : MsgData) (groupAtType : Z) : ConversationReq :=
  mkConversationReq (GetConversationIDByMsg msg) (SessionType msg) "" (GroupID msg)
    None None None None None None None None (Some groupAtType) None None.

Definition set_conversations (userIDs : list string) (c : ConversationReq) : M E () :=
  _ ← try (tell answers (SetConversations userIDs c)); mret ().

Definition setConversationAtInfo (msg : MsgData) : M E () :=
  if Contain AtAllString (AtUserIDList msg) then
    r ← try (GetGroupMemberIDs (GroupID msg));
    match r with
    | inr _ => mret ()
    | inl memberUserIDList =>
        let atUserID := DifferenceString [AtAllString] (AtUserIDList msg) in
        memberUserIDList ←
          (if len atUserID =? 0 then mret memberUserIDList
           else
             _ ← set_conversations atUserID (at_conversation msg AtAllAtMe);
             mret (DifferenceString atUserID memberUserIDList));
        set_conversations memberUserIDList (at_conversation msg AtAll)
    end
  else set_conversations (AtUserIDList msg) (at_conversation msg AtMe).

Definition resp_of (msg : MsgData) : SendMsgResp :=
  mkSendMsgResp (ServerMsgID msg) (ClientMsgID msg) (SendTime msg).

Definition sendMsgSuperGroupChat (msg : MsgData) : M E (option SendMsgResp) :=
  _ ← messageVerification msg;
  _ ← callbackBeforeSendGroupMsg msg;
  msg ← callbackMsgModify msg;
  _ ← MsgToMQ (GenConversationUniqueKeyForGroup (GroupID msg)) msg;
  _ ← (if ContentType msg =? AtText
       then modify (λ h, h ++ [Go_setConversationAtInfo msg]) else mret ());
  _ ← try (callbackAfterSendGroupMsg msg);
  mret (Some (resp_of msg)).

Definition sendMsgNotification (msg : MsgData) : M E (option SendMsgResp) :=
  _ ← MsgToMQ (GenConversationUniqueKeyForSingle (SendID msg) (RecvID msg)) msg;
  mret (Some (resp_of msg)).

Definition sendMsgSingleChat (msg : MsgData) : M E (option SendMsgResp) :=
  _ ← messageVerification msg;
  '(isSend, msg) ←
    (if negb (IsNotificationByMsg msg) then
       modifyMessageByUserMessageReceiveOpt (RecvID msg)
         (GenConversationIDForSingle (SendID msg) (RecvID msg)) msg
     else mret (true, msg));
  if negb isSend then mret None
  else
    _ ← callbackBeforeSendSingleMsg msg;
    msg ← callbackMsgModify msg;
    _ ← MsgToMQ (GenConversationUniqueKeyForSingle (SendID msg) (RecvID msg)) msg;
    _ ← try (callbackAfterSendSingleMsg msg);
    mret (Some (resp_of msg)).

Definition SendMsg (msgData : option MsgData) : M E (option SendMsgResp) :=
  match msgData with
  | None => fail (Wrap ErrArgs "msgData is nil")
  | Some m =>
      _ ← guard (negb (isMessageHasReadEnabled m)) (Wrap ErrMessageHasReadDisable "");
      let m := encapsulateMsgData m in
      if SessionType m =? SingleChatType then sendMsgSingleChat m
      else if SessionType m =? NotificationChatType then sendMsgNotification m
      else if SessionType m =? SuperGroupChatType then sendMsgSuperGroupChat m
      else fail (Wrap ErrArgs "unknown sessionType")
  end.

(** It answers neither a response nor an error. *)
Definition BatchSendMsg : M E (option SendMsgResp) := mret None.
End Send.

(** ** Handlers (revoke.go, as_read.go, delete.go, sync_msg.go, seq.go, msg_status.go)

    [opUserID] is the user of the call; the state is the store with the cache,
    and the service's memory with the effects. *)

Section Handlers.
Context {W R : Type} `{MsgCollection W} `{Redis R} `{Tools} `{MapRange} `{Proto} `{MsgTools}
  `{Services Effect}.
Context (config : MsgConfig) (now : Z) (opUserID operationID : string).
Context (MsgCacheTimeout : Z).
Context (json_revoke : MessageRevokedContent → string + error) (json_elem : string → string + error).
Context (StructToJsonString : Tips → string).
(** The service's own [SendMsg]. *)
Context (sendMsg : option MsgData → M (list Effect) (option SendMsgResp)).
Abbreviation S := ((W * R) * (gmap string Hash * list Effect))%type.
Abbreviation on_db := on_fst.
Abbreviation managers := (Manager_UserID config).

Definition on_env {A} (m : M (list Effect) A) : M S A := on_snd (on_snd m).

(** [m.notificationSender.NotificationWithSesstionType] *)
Definition notify (sendID recvID : string) (contentType sesstionType : Z) (tips : Tips) : M S () :=
  on_env (NotificationWithSesstionType (Config_Notification config) now StructToJsonString json_elem
    utils_GetMsgID (λ m, sendMsg (Some m)) None sendID recvID contentType sesstionType tips false).

(** Its error is not looked at, or only logged. *)
Definition notify_anyway (sendID recvID : string) (contentType sesstionType : Z) (tips : Tips) :
    M S () := _ ← try (notify sendID recvID contentType sesstionType tips); mret ().

(** *** server.go *)

Definition conversationAndGetRecvID (conversation : Conversation) (userID : string) : string :=
  if (Conv_ConversationType conversation =? SingleChatType) ||
     (Conv_ConversationType conversation =? NotificationChatType) then
    if bool_decide (userID = Conv_OwnerUserID conversation) then Conv_UserID conversation
    else Conv_OwnerUserID conversation
  else if Conv_ConversationType conversation =? SuperGroupChatType then Conv_GroupID conversation
  else "".

(** *** revoke.go *)

(** The role the revocation records; an error when it is not allowed. *)
Definition revoke_role (userID : string) (user : UserInfo) (msg : MsgData) : M S Z :=
  if IsAppManagerUid managers opUserID then mret 0
  else if SessionType msg =? SingleChatType then
    _ ← lift (CheckAccessV3 managers opUserID (SendID msg));
    mret (UI_AppMangerLevel user)
  else if SessionType msg =? SuperGroupChatType then
    members ← on_env (GetGroupMemberInfoMap (GroupID msg) (Distinct [userID; SendID msg]) true);
    _ ← (if negb (bool_decide (userID = SendID msg)) then
           revoker ← deref (members !! userID);
           if GM_RoleLevel revoker =? GroupOwner then mret ()
           else if GM_RoleLevel revoker =? GroupAdmin then
             sender ← deref (members !! SendID msg);
             guard (negb (GM_RoleLevel sender =? GroupOrdinaryUsers))
               (Wrap ErrNoPermission "no permission")
           else fail (Wrap ErrNoPermission "no permission")
         else mret ());
    mret (match members !! userID with Some member => GM_RoleLevel member | None => 0 end)
  else fail (Wrap ErrInternalServer "msg sessionType not supported").

Definition RevokeMsg (userID conversationID : string) (seq : Z) : M S () :=
  _ ← guard (bool_decide (userID = "")) (Wrap ErrArgs "user_id is empty");
  _ ← guard (bool_decide (conversationID = "")) (Wrap ErrArgs "conversation_id is empty");
  _ ← guard (seq <? 0) (Wrap ErrArgs "seq is invalid");
  _ ← lift (CheckAccessV3 managers opUserID userID);
  user ← on_env (GetUserInfo userID);
  '(_, _, msgs) ← on_db (GetMsgBySeqs json_revoke json_elem userID conversationID [seq]);
  msg ← (match head msgs with
         | Some (Some m) => mret m
         | _ => fail (Wrap ErrRecordNotFound "msg not found")
         end);
  _ ← guard (ContentType msg =? MsgRevokeNotification) (Wrap ErrMsgAlreadyRevoke "msg already revoke");
  role ← revoke_role userID user msg;
  _ ← on_db (on_docs (MsgStore.RevokeMsg conversationID seq
         (Some (mkRevokeModel role userID (UI_Nickname user) now))));
  let tips := RevokeMsgTips opUserID (ClientMsgID msg) now seq (SessionType msg) conversationID
                (Contain opUserID managers) in
  let recvID := if SessionType msg =? SuperGroupChatType then GroupID msg else RecvID msg in
  notify userID recvID MsgRevokeNotification (SessionType msg) tips.

(** *** as_read.go *)

Definition sendMarkAsReadNotification (conversationID : string) (sessionType : Z)
    (sendID recvID : string) (seqs : list Z) (hasReadSeq : Z) : M S () :=
  notify_anyway sendID recvID HasReadReceipt sessionType
    (MarkAsReadTips sendID conversationID seqs hasReadSeq).

(** The read number and the last number of each conversation. *)
Definition GetConversationsHasReadAndMaxSeq (userID : string) (ConversationIDs : list string) :
    M S (gmap string (Z * Z)) :=
  conversationIDs ← (if len ConversationIDs =? 0 then on_snd (GetConversationIDs userID)
                     else mret ConversationIDs);
  hasReadSeqs ← on_db (commonMsgDatabase_GetHasReadSeqs userID conversationIDs);
  conversations ← on_env (GetConversations userID conversationIDs);
  let conversationMaxSeqMap := foldl (λ t c,
    if negb (Conv_MaxSeq c =? 0) then <[Conv_ConversationID c := Conv_MaxSeq c]> t else t)
    (∅ : gmap string Z) conversations in
  maxSeqs ← on_db (commonMsgDatabase_GetMaxSeqs conversationIDs);
  mret (map_imap (λ conversationID maxSeq,
    Some (default 0 (hasReadSeqs !! conversationID),
          default maxSeq (conversationMaxSeqMap !! conversationID))) maxSeqs).

Definition SetConversationHasReadSeq (userID conversationID : string) (hasReadSeq : Z) : M S () :=
  maxSeq ← on_db (commonMsgDatabase_GetMaxSeq conversationID);
  _ ← guard (maxSeq <? hasReadSeq) (Wrap ErrArgs "hasReadSeq must not be bigger than maxSeq");
  _ ← on_db (commonMsgDatabase_SetHasReadSeq userID conversationID hasReadSeq);
  sendMarkAsReadNotification conversationID SingleChatType userID userID [] hasReadSeq.

(** [if new > old { SetHasReadSeq(new) }] *)
Definition raise_has_read (userID conversationID : string) (current new : Z) : M S () :=
  if current <? new then on_db (commonMsgDatabase_SetHasReadSeq userID conversationID new)
  else mret ().

Definition current_has_read (userID conversationID : string) : M S Z :=
  on_db (or_zero (commonMsgDatabase_GetHasReadSeq userID conversationID)).

Definition MarkMsgsAsRead (userID conversationID : string) (seqs : list Z) : M S () :=
  _ ← guard (len seqs <? 1) (Wrap ErrArgs "seqs must not be empty");
  maxSeq ← on_db (commonMsgDatabase_GetMaxSeq conversationID);
  hasReadSeq ← deref (last seqs);
  _ ← guard (maxSeq <? hasReadSeq) (Wrap ErrArgs "hasReadSeq must not be bigger than maxSeq");
  conversation ← on_env (GetConversation userID conversationID);
  _ ← on_db (commonMsgDatabase_MarkSingleChatMsgsAsRead userID conversationID seqs);
  currentHasReadSeq ← current_has_read userID conversationID;
  _ ← raise_has_read userID conversationID currentHasReadSeq hasReadSeq;
  sendMarkAsReadNotification conversationID (Conv_ConversationType conversation) userID
    (conversationAndGetRecvID conversation userID) seqs hasReadSeq.

Definition MarkConversationAsRead (userID conversationID : string) (HasReadSeq : Z) : M S () :=
  conversation ← on_env (GetConversation userID conversationID);
  hasReadSeq ← current_has_read userID conversationID;
  if Conv_ConversationType conversation =? SingleChatType then
    seqs ← count_up (add64 hasReadSeq 1) HasReadSeq;
    _ ← (if 0 <? len seqs
         then on_db (commonMsgDatabase_MarkSingleChatMsgsAsRead userID conversationID seqs)
         else mret ());
    _ ← raise_has_read userID conversationID hasReadSeq HasReadSeq;
    let hasReadSeq := if hasReadSeq <? HasReadSeq then HasReadSeq else hasReadSeq in
    sendMarkAsReadNotification conversationID (Conv_ConversationType conversation) userID
      (conversationAndGetRecvID conversation userID) seqs hasReadSeq
  else if (Conv_ConversationType conversation =? SuperGroupChatType) ||
          (Conv_ConversationType conversation =? NotificationChatType) then
    _ ← raise_has_read userID conversationID hasReadSeq HasReadSeq;
    let hasReadSeq := if hasReadSeq <? HasReadSeq then HasReadSeq else hasReadSeq in
    sendMarkAsReadNotification conversationID SingleChatType userID userID [] hasReadSeq
  else mret ().

(** *** delete.go *)

Definition getMinSeqs (maxSeqs : gmap string Z) : gmap string Z := (λ v, add64 v 1) <$> maxSeqs.

Definition validateDeleteSyncOpt (opt : option DeleteSyncOpt) : bool * bool :=
  match opt with None => (false, false) | Some o => (IsSyncSelf o, IsSyncOther o) end.

Definition clearConversation (conversationIDs : list string) (userID : string)
    (deleteSyncOpt : option DeleteSyncOpt) : M S () :=
  existConversations ← on_env (GetConversationsByConversationID conversationIDs);
  let existConversationIDs := Conv_ConversationID <$> existConversations in
  maxSeqs ← on_db (commonMsgDatabase_GetMaxSeqs existConversationIDs);
  let '(isSyncSelf, isSyncOther) := validateDeleteSyncOpt deleteSyncOpt in
  _ ← (if negb isSyncOther then
         _ ← on_db (commonMsgDatabase_SetUserConversationsMinSeqs userID (getMinSeqs maxSeqs));
         if isSyncSelf then
           notify_anyway userID userID ClearConversationNotification SingleChatType
             (ClearConversationTips userID existConversationIDs)
         else mret ()
       else
         _ ← on_db (commonMsgDatabase_SetMinSeqs (getMinSeqs maxSeqs));
         for_each existConversations (λ conversation,
           notify_anyway userID (conversationAndGetRecvID conversation userID)
             ClearConversationNotification (Conv_ConversationType conversation)
             (ClearConversationTips userID [Conv_ConversationID conversation])));
  on_db (commonMsgDatabase_UserSetHasReadSeqs userID maxSeqs).

Definition ClearConversationsMsg (userID : string) (conversationIDs : list string)
    (deleteSyncOpt : option DeleteSyncOpt) : M S () :=
  _ ← lift (CheckAccessV3 managers opUserID userID);
  clearConversation conversationIDs userID deleteSyncOpt.

Definition UserClearAllMsg (userID : string) (deleteSyncOpt : option DeleteSyncOpt) : M S () :=
  _ ← lift (CheckAccessV3 managers opUserID userID);
  conversationIDs ← on_snd (GetConversationIDs userID);
  clearConversation conversationIDs userID deleteSyncOpt.

Definition DeleteMsgs (userID conversationID : string) (seqs : list Z)
    (deleteSyncOpt : option DeleteSyncOpt) : M S () :=
  _ ← lift (CheckAccessV3 managers opUserID userID);
  let '(isSyncSelf, isSyncOther) := validateDeleteSyncOpt deleteSyncOpt in
  let tips := DeleteMsgsTips userID conversationID seqs in
  if isSyncOther : bool then
    _ ← on_db (DeleteMsgsPhysicalBySeqs conversationID seqs);
    conversations ← on_env (GetConversationsByConversationID [conversationID]);
    conversation ← deref (head conversations);
    notify_anyway userID (conversationAndGetRecvID conversation userID) DeleteMsgsNotification
      (Conv_ConversationType conversation) tips
  else
    _ ← on_db (DeleteUserMsgsBySeqs MsgCacheTimeout userID conversationID seqs);
    if isSyncSelf : bool then notify_anyway userID userID DeleteMsgsNotification SingleChatType tips
    else mret ().

Definition DeleteMsgPhysicalBySeq (conversationID : string) (seqs : list Z) : M S () :=
  on_db (DeleteMsgsPhysicalBySeqs conversationID seqs).

(** [nowSecond] is the clock in seconds. *)
Definition DeleteMsgPhysical (fuel : nat) (nowSecond : Z) (conversationIDs : list string)
    (timestamp : Z) : M S () :=
  _ ← lift (CheckAdmin managers opUserID);
  let remainTime := sub64 nowSecond timestamp in
  for_each conversationIDs (λ conversationID,
    _ ← try (on_db (DeleteConversationMsgsAndSetMinSeq now fuel conversationID remainTime));
    mret ()).

(** *** sync_msg.go *)

Definition is_end (Order : Z) (seq : SeqRange) (minSeq maxSeq : Z) : bool :=
  if Order =? PullOrder_PullOrderAsc then maxSeq <=? End_ seq
  else if Order =? PullOrder_PullOrderDesc then Begin seq <=? minSeq
  else false.

Definition pull_range (fuel : nat) (userID : string) (Order : Z)
    (resp : PullMessageBySeqsResp) (seq : SeqRange) : M S PullMessageBySeqsResp :=
  let c := SR_ConversationID seq in
  if negb (IsNotification c) then
    r ← try (on_env (GetConversation userID c));
    match r with
    | inr _ => mret resp
    | inl conversation =>
        r ← try (on_db (GetMsgBySeqsRange json_revoke json_elem fuel userID c (Begin seq) (End_ seq)
                          (Num seq) (Conv_MaxSeq conversation)));
        mret (match r with
              | inr _ => resp
              | inl (minSeq, maxSeq, msgs) =>
                  if len msgs =? 0 then resp
                  else mkPullResp (<[c := mkPullMsgs msgs (is_end Order seq minSeq maxSeq)]> (Resp_Msgs resp))
                         (Resp_NotificationMsgs resp)
              end)
    end
  else
    seqs ← count_up (Begin seq) (End_ seq);
    if SplitPullMsgNum <? len seqs then mret resp
    else
      r ← try (on_db (GetMsgBySeqs json_revoke json_elem userID c seqs));
      mret (match r with
            | inr _ => resp
            | inl (minSeq, maxSeq, msgs) =>
                if len msgs =? 0 then resp
                else mkPullResp (Resp_Msgs resp)
                       (<[c := mkPullMsgs msgs (is_end Order seq minSeq maxSeq)]>
                          (Resp_NotificationMsgs resp))
            end).

Definition PullMessageBySeqs (fuel : nat) (userID : string) (SeqRanges : list SeqRange)
    (Order : Z) : M S PullMessageBySeqsResp :=
  fold_each SeqRanges (mkPullResp ∅ ∅) (pull_range fuel userID Order).

Definition msgServer_GetMaxSeq (userID : string) : M S (gmap string Z) :=
  _ ← lift (CheckAccessV3 managers opUserID userID);
  conversationIDs ← on_snd (GetConversationIDs userID);
  on_db (commonMsgDatabase_GetMaxSeqs (conversationIDs ++
    (utils_GetNotificationConversationIDByConversationID <$> conversationIDs) ++
    [GetSelfNotificationConversationID userID])).

Definition GetServerTime : M S Z := mret now.

(** *** seq.go, msg_status.go *)

Definition GetConversationMaxSeq (conversationID : string) : M S Z :=
  on_db (commonMsgDatabase_GetMaxSeq conversationID).

Definition msgServer_SetSendMsgStatus (status : Z) : M S () :=
  on_db (commonMsgDatabase_SetSendMsgStatus operationID status).

Definition msgServer_GetSendMsgStatus : M S Z :=
  r ← try (on_db (commonMsgDatabase_GetSendMsgStatus operationID));
  match r with
  | inl status => mret status
  | inr err => if IsNotFound err then mret MsgStatusNotExist else fail err
  end.
End Handlers.
