(* ===== verification/SendProofs.v ===== *)
(** * Who may send, and what is queued (internal/rpc/msg/send.go, verify.go)

    The abstract side is [allowed]: what the answers of the other services must
    say for a message to be accepted.  The theorems show that every message on
    the queue was allowed, that a response stands for exactly one message on the
    queue, and which webhook a group message goes through. *)

From S2P Require Import Prelude.
From S2P Require Import Constants.
From S2P Require Import MsgTypes.
From S2P Require Import MsgProcessor.
From S2P Require Import Tools.
From S2P Require Import Notification.
From S2P Require Import RpcClient.
From S2P Require Import Redis.
From S2P Require Import MsgCache.
From S2P Require Import MsgDatabase.
From S2P Require Import Auth.
From S2P Require Import MsgServer.
From stdpp Require Import options.
#[local] Set Default Proof Using "Type*".

#[local] Open Scope Z_scope.

(** The messages put on the queue, with their keys. *)
Definition queued (es : list Effect) : list (string * MsgData) :=
  omap (λ e, match e with MQ_Send k m => Some (k, m) | _ => None end) es.

Lemma queued_app es es' : queued (es ++ es') = queued es ++ queued es'.
Proof. apply omap_app. Qed.

Section SendProofs.
Context `{Tools} `{MsgTools} `{Services Effect}.
Context (config : MsgConfig) (now : Z) (today : string) (rand_Int : Z) (operationID : string).
Context (answers : list Effect → Effect → option error).
Context (webhook : CommonCallbackReq → list Effect → CallbackMsgModifyCommandResp + error).
Context (tips_JsonDetail : string → string) (Error : error → string).
Abbreviation verification := (messageVerification config now Error).
Abbreviation SendMsg :=
  (SendMsg config now today rand_Int operationID answers webhook tips_JsonDetail Error).

(** ** The permission to send *)

Definition is_manager (u : string) : Prop := Contain u (Manager_UserID config) = true.
Definition is_notification (contentType : Z) : Prop :=
  NotificationBegin ≤ contentType ≤ NotificationEnd.

(** In a single chat: the receiver has not blocked the sender and, if friends
    only may write, has the sender as a friend. *)
Definition peer_accepts (h : list Effect) (m : MsgData) : Prop :=
  (∃ b, svc_IsBlack (SendID m) (RecvID m) h = inl (b, false)) ∧
  (FriendVerify config = Some false ∨
   FriendVerify config = Some true ∧ ∃ b, svc_IsFriend (RecvID m) (SendID m) h = inl (true, b)).

(** In a group: the sender is its owner, or a member whose mute has ended and,
    while the group is muted, an administrator. *)
Definition member_may_speak (h : list Effect) (g : GroupInfo) (m : MsgData) : Prop :=
  ∃ x, svc_GetGroupMemberCache (GroupID m) (SendID m) h = inl x ∧
    (GM_RoleLevel x = GroupOwner ∨
     GM_MuteEndTime x < now ∧ (GI_Status g = GroupStatusMuted → GM_RoleLevel x = GroupAdmin)).

Definition group_accepts (h : list Effect) (m : MsgData) : Prop :=
  ∃ g, svc_GetGroupInfoCache (GroupID m) h = inl g ∧
    (GI_Status g = GroupStatusDismissed → ContentType m = GroupDismissedNotification) ∧
    (GI_GroupType g = SuperGroup ∨ is_manager (SendID m) ∨ is_notification (ContentType m) ∨
     member_may_speak h g m).

Definition allowed (h : list Effect) (m : MsgData) : Prop :=
  (SessionType m = SingleChatType →
     is_manager (SendID m) ∨
     is_notification (ContentType m) ∧ ContentType m ≠ SignalingNotification ∨
     peer_accepts h m) ∧
  (SessionType m = SuperGroupChatType → group_accepts h m).

Lemma in_notification_range_spec t : in_notification_range t = true ↔ is_notification t.
Proof. unfold in_notification_range, is_notification. rewrite andb_true_iff, !Z.leb_le. lia. Qed.

(** The tests of the code, the notification range included. *)
Ltac tests :=
  bool_facts;
  repeat match goal with
  | H : in_notification_range _ = true |- _ => apply in_notification_range_spec in H
  | H : ?x = true |- context [?x] => rewrite H
  end; subst; cbn [fst snd] in *; subst.

Ltac destruct_exists := repeat match goal with
  | H : ∃ _, _ |- _ => destruct H | H : _ ∧ _ |- _ => destruct H | H : _ ∨ _ |- _ => destruct H
  | p : bool * bool |- _ => destruct p
  end.

Lemma wp_verify_single m (Q : outcome () → list Effect → Prop) h :
  (is_manager (SendID m) ∨
   is_notification (ContentType m) ∧ ContentType m ≠ SignalingNotification ∨
   peer_accepts h m → Q (Ok ()) h) →
  (∀ e, Q (Err e) h) → Q Panic h → wp (verify_single config m) Q h.
Proof.
  intros Hok He Hp. unfold verify_single, IsBlocked, IsFriend, is_manager in *.
  wp_run; auto; apply Hok; clear Hok He Hp; tests; auto;
    repeat match goal with a : bool * bool |- _ => destruct a end; tests; right; right;
    (split; [eauto|]); eauto.
Qed.

Lemma wp_verify_member m g (Q : outcome () → list Effect → Prop) h :
  (member_may_speak h g m → Q (Ok ()) h) → (∀ e, Q (Err e) h) →
  wp (verify_member now Error m g) Q h.
Proof.
  intros Hok He. unfold verify_member, GetGroupMemberCache, member_may_speak in *.
  wp_run; auto; apply Hok; clear Hok He; tests; eauto;
    (eexists; split; [done|]); right; (split; [done|]); intros Hs.
  tests; congruence.
Qed.

Lemma wp_verify_super_group m (Q : outcome () → list Effect → Prop) h :
  (group_accepts h m → Q (Ok ()) h) → (∀ e, Q (Err e) h) →
  wp (verify_super_group config now Error m) Q h.
Proof.
  intros Hok He. unfold verify_super_group, GetGroupInfoCache, group_accepts, is_manager in *.
  wp_run; auto; first [apply Hok | apply wp_verify_member; [intros ?; apply Hok|done]];
    clear Hok He; (eexists; split; [eassumption|]);
    match goal with H : _ && negb _ = false |- _ => rename H into Hd end;
    (split; [intros Hs; tests; destruct Hd; tests; congruence|]); tests; auto.
Qed.

(** Verification asks the services, changes nothing, and passes only what is
    allowed. *)
Lemma wp_verification m (Q : outcome () → list Effect → Prop) h :
  (allowed h m → Q (Ok ()) h) → (∀ e, Q (Err e) h) → Q Panic h → wp (verification m) Q h.
Proof.
  intros Hok He Hp. unfold messageVerification, allowed in *. wp_step; [|wp_step].
  - apply wp_verify_single; auto. tests. intros Ha. apply Hok. split; [done|]. intros Hs.
    rewrite Heqb in Hs. done.
  - apply wp_verify_super_group; auto. tests. intros Ha. apply Hok. split; [|done]. intros Hs. done.
  - tests. apply wp_ret, Hok. done.
Qed.

(** The converse: what is allowed is not refused. *)
Lemma wp_verify_single_allowed m h :
  is_manager (SendID m) ∨
    is_notification (ContentType m) ∧ ContentType m ≠ SignalingNotification ∨ peer_accepts h m →
  wp (verify_single config m) (λ r h', r = Ok () ∧ h' = h) h.
Proof.
  unfold verify_single, IsBlocked, IsFriend, is_manager, peer_accepts.
  rewrite <-in_notification_range_spec. intros Ha.
  wp_run; auto; exfalso; destruct_exists; simplify_eq/=; try congruence; bool_facts; congruence.
Qed.

Lemma wp_verify_super_group_allowed m h :
  group_accepts h m →
  wp (verify_super_group config now Error m) (λ r h', r = Ok () ∧ h' = h) h.
Proof.
  unfold verify_super_group, GetGroupInfoCache, group_accepts, is_manager.
  intros (g & Hg & Hd & Ha). rewrite <-in_notification_range_spec in Ha.
  wp_run; auto;
    match goal with H : svc_GetGroupInfoCache _ _ = _ |- _ => rewrite Hg in H; simplify_eq end;
    [exfalso; bool_facts; by auto|].
  unfold verify_member, GetGroupMemberCache.
  destruct Ha as [Ha|[Ha|[Ha|(x & Hx & Hr)]]]; [exfalso; bool_facts; congruence..|].
  wp_run; auto; exfalso; simplify_eq;
    match goal with H : svc_GetGroupMemberCache _ _ _ = _ |- _ => rewrite Hx in H; simplify_eq end;
    bool_facts; destruct Hr as [Hr|[Ht Hr]]; auto; lia.
Qed.

(** C30: a message is accepted for sending, by a check that changes
    nothing, exactly when the answers of the friend and group services allow its sender to
    send it. *)
Theorem messageVerification_iff m h : verification m h = (Ok (), h) ↔ allowed h m.
Proof.
  split.
  - intros Hv.
    assert (wp (verification m) (λ r _, r = Ok () → allowed h m) h) as Hw
      by (apply wp_verification; auto; discriminate).
    rewrite wp_eq, Hv in Hw. by apply Hw.
  - intros [H1' H2']. assert (wp (verification m) (λ r h', r = Ok () ∧ h' = h) h) as Hw.
    { unfold messageVerification. repeat (wp_step; tests).
      - by apply wp_verify_single_allowed, H1'.
      - by apply wp_verify_super_group_allowed, H2'.
      - done. }
    rewrite wp_eq in Hw. destruct (verification m h). cbn in Hw. destruct Hw. congruence.
Qed.

(** ** The message on its way *)

(** What addresses a message and what it says. *)
Definition core (m : MsgData) :=
  (SendID m, RecvID m, GroupID m, SessionType m, ContentType m, Content m).

Lemma allowed_core h m m' : core m = core m' → allowed h m → allowed h m'.
Proof.
  unfold core, allowed, group_accepts, member_may_speak, peer_accepts. intros [= E1 E2 E3 E4 E5 E6].
  by rewrite E1, E2, E3, E4, E5.
Qed.

Lemma core_encapsulate m : core (encapsulateMsgData now today rand_Int m) = core m.
Proof. unfold encapsulateMsgData. destruct m. cbn. by case_match. Qed.

Lemma core_no_offline_push m : core (no_offline_push m) = core m.
Proof. by destruct m. Qed.

(** Whether the webhook may rewrite the message. *)
Definition modifiable (m : MsgData) : Prop :=
  CallbackMsgModify_Enable config = true ∧ ContentType m = Text.

(** What becomes of the message before it is queued. *)
Definition carried (m m' : MsgData) : Prop :=
  SendID m' = SendID m ∧ (modifiable m ∨ core m' = core m).

Lemma wp_post_check enable target command m (Q : outcome () → list Effect → Prop) h :
  (∀ es, queued es = [] → Q (Ok ()) (h ++ es)) →
  (∀ es e, queued es = [] → Q (Err e) (h ++ es)) →
  wp (post_check operationID webhook tips_JsonDetail enable target command m) Q h.
Proof.
  intros Hok He. unfold post_check, post. wp_step.
  - apply wp_ret. rewrite <-(app_nil_r h). by apply Hok.
  - apply wp_bind, wp_try. unfold wp. destruct (webhook _ _); cbn.
    + by apply Hok.
    + case_bool_decide; [by apply Hok|by apply He].
Qed.

Lemma wp_apply_modification m resp (Q : outcome MsgData → list Effect → Prop) h :
  (∀ m', SendID m' = SendID m → Q (Ok m') h) → Q Panic h →
  wp (apply_modification m resp) Q h.
Proof. intros Hok Hp. unfold apply_modification, replace. wp_run; auto. Qed.

Lemma wp_callbackMsgModify m (Q : outcome MsgData → list Effect → Prop) h :
  (∀ es m', queued es = [] → carried m m' → Q (Ok m') (h ++ es)) →
  (∀ es e, queued es = [] → Q (Err e) (h ++ es)) → (∀ es, queued es = [] → Q Panic (h ++ es)) →
  wp (callbackMsgModify config operationID webhook tips_JsonDetail m) Q h.
Proof.
  intros Hok He Hp. unfold callbackMsgModify, post, carried, modifiable in *. wp_step.
  - apply wp_ret. rewrite <-(app_nil_r h). apply Hok; auto.
  - apply orb_false_iff in Heqb as [Ht ?]. tests.
    apply wp_bind, wp_try. unfold wp at 1. destruct (webhook _ _); cbn.
    + apply wp_apply_modification; intros; [apply Hok; auto|by apply Hp].
    + case_bool_decide; [apply Hok; auto|by apply He].
Qed.

Lemma wp_modifyOpt u c m (Q : outcome (bool * MsgData) → list Effect → Prop) h :
  (∀ b m', core m' = core m → Q (Ok (b, m')) h) → (∀ e, Q (Err e) h) →
  wp (modifyMessageByUserMessageReceiveOpt u c m) Q h.
Proof.
  intros Hok He.
  unfold modifyMessageByUserMessageReceiveOpt, GetUserGlobalMsgRecvOpt, GetSingleConversationRecvMsgOpt.
  wp_run; auto using core_no_offline_push.
  repeat case_match; auto using core_no_offline_push.
Qed.

(** ** The outcome of a request *)

(** One message was handed to the queue, the rest was posts and the goroutine. *)
Definition one_queued (h es : list Effect) (m m' : MsgData) (ok : Prop → Prop) : Prop :=
  ∃ pre k post, es = pre ++ MQ_Send k m' :: post ∧ queued pre = [] ∧ queued post = [] ∧
    carried m m' ∧ ok (answers (h ++ pre) (MQ_Send k m') = None).

Definition send_outcome (h : list Effect) (m : MsgData) (r : outcome (option SendMsgResp))
    (es : list Effect) : Prop :=
  match r with
  | Ok (Some resp) => ∃ m', one_queued h es m m' id ∧ resp = resp_of m'
  | Ok None => es = []
  | Err _ => queued es = [] ∨ ∃ m', one_queued h es m m' not
  | Panic => queued es = []
  | OutOfFuel => False
  end.

Definition sent (h : list Effect) (m : MsgData) (r : outcome (option SendMsgResp))
    (h' : list Effect) : Prop :=
  ∃ es, h' = h ++ es ∧ send_outcome h m r es ∧ (queued es = [] ∨ allowed h m).

Lemma sent_refused h m e es : queued es = [] → sent h m (Err e) (h ++ es).
Proof. intros. exists es. cbn. auto. Qed.
Lemma sent_refused_nil h m e : sent h m (Err e) h.
Proof. rewrite <-(app_nil_r h) at 2. by apply sent_refused. Qed.
Lemma sent_panic h m es : queued es = [] → sent h m Panic (h ++ es).
Proof. intros. exists es. cbn. auto. Qed.
Lemma sent_panic_nil h m : sent h m Panic h.
Proof. rewrite <-(app_nil_r h) at 2. by apply sent_panic. Qed.
Lemma sent_nothing h m : sent h m (Ok None) h.
Proof. exists []. rewrite app_nil_r. cbn. auto. Qed.

(** The last part of every path: the message is queued, then come effects
    that queue nothing. *)
Lemma wp_queue h m m' k pre (rest : M (list Effect) (option SendMsgResp)) :
  allowed h m → queued pre = [] → carried m m' →
  (∀ h1 (Q : outcome (option SendMsgResp) → list Effect → Prop),
     (∀ es, queued es = [] → Q (Ok (Some (resp_of m'))) (h1 ++ es)) → wp rest Q h1) →
  wp (_ ← MsgToMQ answers k m'; rest) (sent h m) (h ++ pre).
Proof.
  intros Ha Hp Hc Hr. unfold MsgToMQ. apply wp_bind, wp_tell.
  - intros Hans. apply Hr. intros es Hes.
    exists (pre ++ MQ_Send k m' :: es). rewrite <-!app_assoc. split; [done|]. split; [|by right].
    exists m'. split; [|done]. exists pre, k, es. auto.
  - intros e Hans. exists (pre ++ [MQ_Send k m']). rewrite <-app_assoc. split; [done|].
    split; [|by right]. right. exists m', pre, k, []. split_and!; try done. cbn. congruence.
Qed.

Lemma carried_trans m m' m'' :
  core m' = core m → carried m' m'' → carried m m''.
Proof.
  intros Hm [Hs Hc]. assert (SendID m' = SendID m ∧ ContentType m' = ContentType m) as [E1 E2]
    by (unfold core in Hm; split; congruence).
  split; [congruence|]. unfold modifiable in *. rewrite <-E2.
  destruct Hc as [?|Hc]; [auto|right; congruence].
Qed.

Lemma wp_sendMsgSuperGroupChat m m' h :
  core m' = core m → SessionType m = SuperGroupChatType →
  wp (sendMsgSuperGroupChat config now operationID answers webhook tips_JsonDetail Error m')
    (sent h m) h.
Proof.
  intros Hm Ht. unfold sendMsgSuperGroupChat.
  apply wp_bind, wp_verification; [intros Ha|intros; apply sent_refused_nil|apply sent_panic_nil].
  apply (allowed_core _ _ m) in Ha; [|done].
  apply wp_bind, wp_post_check; [intros es1 Hq1|intros es1 e Hq1; by apply sent_refused].
  apply wp_bind, wp_callbackMsgModify; intros es2; [intros m2 Hq2 Hc|intros e Hq2|intros Hq2];
    rewrite <-app_assoc; [|apply sent_refused|apply sent_panic]; [|by rewrite queued_app, Hq1, Hq2..].
  apply (carried_trans m) in Hc; [|done].
  apply wp_queue; [done|by rewrite queued_app, Hq1, Hq2|done|].
  intros h1 Q HQ. apply wp_bind.
  assert (∀ es, queued es = [] →
    wp (_ ← try (callbackAfterSendGroupMsg config operationID webhook tips_JsonDetail m2);
        mret (Some (resp_of m2))) Q (h1 ++ es)) as Hafter.
  { intros es Hes. apply wp_bind, wp_try, wp_post_check; intros;
      apply wp_ret; rewrite <-app_assoc; apply HQ; by rewrite queued_app, Hes. }
  wp_step; [by apply wp_modify, Hafter|]. apply wp_ret. rewrite <-(app_nil_r h1). by apply Hafter.
Qed.

Lemma wp_sendMsgNotification m m' h :
  core m' = core m → SessionType m = NotificationChatType →
  wp (sendMsgNotification answers m') (sent h m) h.
Proof.
  intros Hm Ht. unfold sendMsgNotification. rewrite <-(app_nil_r h) at 2.
  apply wp_queue; [|done|split; [|by right]; unfold core in Hm; congruence|].
  - unfold allowed. by rewrite Ht.
  - intros h1 Q HQ. apply wp_ret. rewrite <-(app_nil_r h1). by apply HQ.
Qed.

Lemma wp_sendMsgSingleChat m m' h :
  core m' = core m → SessionType m = SingleChatType →
  wp (sendMsgSingleChat config now operationID answers webhook tips_JsonDetail Error m')
    (sent h m) h.
Proof.
  intros Hm Ht. unfold sendMsgSingleChat.
  apply wp_bind, wp_verification; [intros Ha|intros; apply sent_refused_nil|apply sent_panic_nil].
  apply (allowed_core _ _ m) in Ha; [|done]. apply wp_bind.
  assert (∀ b m1, core m1 = core m' → wp (if negb b then mret None else
      _ ← callbackBeforeSendSingleMsg config operationID webhook tips_JsonDetail m1;
      msg ← callbackMsgModify config operationID webhook tips_JsonDetail m1;
      _ ← MsgToMQ answers (GenConversationUniqueKeyForSingle (SendID msg) (RecvID msg)) msg;
      _ ← try (callbackAfterSendSingleMsg config operationID webhook tips_JsonDetail msg);
      mret (Some (resp_of msg))) (sent h m) h) as Hrest.
  { intros b m1 Hm1. destruct b; cbn [negb]; [|apply wp_ret, sent_nothing].
    apply wp_bind, wp_post_check; [intros es1 Hq1|intros es1 e Hq1; by apply sent_refused].
    apply wp_bind, wp_callbackMsgModify; intros es2; [intros m2 Hq2 Hc|intros e Hq2|intros Hq2];
      rewrite <-app_assoc; [|apply sent_refused|apply sent_panic]; [|by rewrite queued_app, Hq1, Hq2..].
    apply (carried_trans m) in Hc; [|congruence].
    apply wp_queue; [done|by rewrite queued_app, Hq1, Hq2|done|].
    intros h1 Q HQ. apply wp_bind, wp_try, wp_post_check; intros; apply wp_ret; by apply HQ. }
  wp_step; [apply wp_modifyOpt; [intros; by apply Hrest|intros; apply sent_refused_nil]|].
  apply wp_ret. by apply Hrest.
Qed.

(** C19: a request to send ends without running on; if it answers with a response,
    exactly one message was put on the queue, it is the one the response names, and it is the
    message of the request, from the same sender and, unless the webhook may rewrite it, with
    the same addressees, type and content; if it fails, nothing was queued or the queue refused
    the one message; and nothing is put on the queue unless the answers of the other services
    allow the sender to send. *)
Theorem SendMsg_sound m h :
  let '(r, h') := SendMsg (Some m) h in sent h m r h'.
Proof.
  change (wp (SendMsg (Some m)) (sent h m) h). unfold MsgServer.SendMsg.
  apply wp_bind, wp_guard; [intros; apply sent_refused_nil|intros _]. cbv zeta.
  pose proof (core_encapsulate m) as Hm. revert Hm. generalize (encapsulateMsgData now today rand_Int m).
  intros m' Hm. assert (SessionType m' = SessionType m) as Ht by (unfold core in Hm; congruence).
  rewrite Ht. repeat (wp_step; tests).
  - by apply wp_sendMsgSingleChat.
  - by apply wp_sendMsgNotification.
  - by apply wp_sendMsgSuperGroupChat.
  - apply sent_refused_nil.
Qed.

(** The webhook check before a group message is governed by the switch
    of the check after a single message, not by its own: with that switch off a group message is
    never posted for approval, with it on it always is. *)
Theorem group_callback_switch m h :
  let r := callbackBeforeSendGroupMsg config operationID webhook tips_JsonDetail m h in
  if CallbackAfterSendSingleMsg_Enable config then
    r.2 = h ++ [CallbackPost (GroupID m)
                  (toCommonCallback operationID tips_JsonDetail m CallbackBeforeSendGroupMsgCommand)]
  else r = (Ok (), h).
Proof.
  cbv zeta. unfold callbackBeforeSendGroupMsg, post_check, post.
  destruct (CallbackAfterSendSingleMsg_Enable config); cbn; [|done].
  unfold mbind, M_bind, try. destruct (webhook _ _); cbn; [done|]. by case_bool_decide.
Qed.
End SendProofs.

(** ** Messages that are not sent *)

Section Quiet.
Context `{MsgToolsLaws}.

Lemma switched_not_notification kvs (o : option (gmap string bool)) : Forall (λ kv, kv.1 ≠ IsNotNotification) kvs →
  Options_IsNotNotification (set_switches kvs o) = Options_IsNotNotification o.
Proof.
  intros Hk. unfold set_switches. revert o. induction Hk as [|[k b] kvs Hx _ IH]; intros o; [done|]. cbn [foldl].
  rewrite IH. destruct o as [o|]; [|by rewrite SetSwitch_nil].
  rewrite SetSwitch_some. unfold Options_IsNotNotification, Options_Is. cbn. by rewrite lookup_insert_ne.
Qed.
Lemma content_switches_keys t : Forall (λ kv, kv.1 ≠ IsNotNotification) (content_switches t).
Proof. unfold content_switches. repeat case_match; repeat constructor; discriminate. Qed.
Lemma encapsulate_kind now today rand_Int (msg : MsgData) :
  IsNotificationByMsg (encapsulateMsgData now today rand_Int msg) = IsNotificationByMsg msg.
Proof.
  unfold IsNotificationByMsg, encapsulateMsgData. f_equal. destruct msg. cbn.
  case_match; cbn; apply switched_not_notification, content_switches_keys.
Qed.

(** A message of a single chat which the receiver's options stop changes nothing. *)
Lemma quiet_single `{Tools} `{Services Effect} config now today rand_Int operationID answers webhook tips_JsonDetail Error (msg : MsgData) h :
  SessionType msg = SingleChatType → IsNotificationByMsg msg = false →
  (∀ msg', core msg' = core msg →
    wp (modifyMessageByUserMessageReceiveOpt (RecvID msg) (GenConversationIDForSingle (SendID msg) (RecvID msg)) msg')
      (λ r h', h' = h ∧ ∀ m, r ≠ Ok (true, m)) h) →
  let '(r, h') := SendMsg config now today rand_Int operationID answers webhook tips_JsonDetail Error (Some msg) h in
  h' = h ∧ ∀ resp, r ≠ Ok (Some resp).
Proof.
  intros Hs Hn Hstop. set (Q := λ (r : outcome (option SendMsgResp)) (h' : list Effect), h' = h ∧ ∀ resp, r ≠ Ok (Some resp)).
  assert (wp (SendMsg config now today rand_Int operationID answers webhook tips_JsonDetail Error (Some msg)) Q h) as Hw; [|exact Hw].
  unfold SendMsg. apply wp_bind. apply wp_guard; intros _; [done|].
  pose proof (core_encapsulate now today rand_Int msg) as Hc. pose proof (encapsulate_kind now today rand_Int msg) as Hk. revert Hc Hk.
  generalize (encapsulateMsgData now today rand_Int msg). intros msg' Hc Hk. specialize (Hstop msg' Hc). unfold core in Hc.
  injection Hc as Hse Hr _ Ht _ _. rewrite Ht, Hs. cbn [Z.eqb SingleChatType]. unfold sendMsgSingleChat.
  apply wp_bind, wp_verification; [intros _|done..]. rewrite Hk, Hn. cbn [negb]. rewrite Hse, Hr.
  apply wp_bind. eapply wp_mono; [|exact Hstop]. intros [[[] m']|e| |] h' [-> Hno]; [by destruct (Hno m')|by apply wp_ret|done..].
Qed.
End Quiet.
