(* ===== verification/MsgServerProofs.v ===== *)
(** * What the handlers of the message service do (internal/rpc/msg)

    Who may revoke a message, that marking as read never moves a reader back,
    what clearing a conversation leaves, what a pull answers, and which handlers
    refuse a stranger. *)

From S2P Require Import Prelude.
From S2P Require Import Constants.
From S2P Require Import MsgTypes.
From S2P Require Import MsgProcessor.
From S2P Require Import MsgDoc.
From S2P Require Import MsgCollection.
From S2P Require Import MsgStore.
From S2P Require Import Tools.
From S2P Require Import Notification.
From S2P Require Import RpcClient.
From S2P Require Import Redis.
From S2P Require Import MsgCache.
From S2P Require Import MsgDatabase.
From S2P Require Import Auth.
From S2P Require Import MsgServer.
From stdpp Require Import options.
#[local] Set Default Proof Using "Type*".

#[local] Open Scope Z_scope.

(** ** Reading keeps the store and the cache *)

Section Kept.
Context {W R : Type} `{MsgCollectionLaws W} `{RedisLaws R} `{ToolsLaws} `{MapRange} `{Proto}.
Context (json_revoke : MessageRevokedContent → string + error) (json_elem : string → string + error).

#[export] Instance read_only_Get key : ReadOnly (W:=R) (run (Redis_Get key)).
Proof. intros r. unfold run. pose proof (Get_keeps key r) as Hg. by destruct (Redis_Get key r). Qed.

#[export] Instance read_only_wrap_error {S A} (m : M S A) : ReadOnly m → ReadOnly (wrap_error m).
Proof. intros ?. apply read_only_bind; [apply _|]. intros []; apply _. Qed.

#[export] Instance read_only_get_int64 key : ReadOnly (W:=R) (get_int64 key).
Proof. unfold get_int64. apply _. Qed.

#[export] Instance read_only_GetMessagesBySeq c seqs : ReadOnly (W:=R) (GetMessagesBySeq c seqs).
Proof.
  apply read_only_fold_each. intros [] s. apply read_only_bind; [apply _|]. intros [v|]; [|apply _].
  destruct (String2Pb v); apply _.
Qed.

#[export] Instance read_only_getSeqs items k : ReadOnly (W:=R) (getSeqs items k).
Proof.
  apply read_only_fold_each. intros m v. apply read_only_bind; [apply _|]. intros [|e].
  - apply _.
  - apply read_only_bind; [case_match; apply _|]. apply _.
Qed.

#[export] Instance keeps_AggregateSlots u d ixs : Keeps docs (AggregateSlots u d ixs).
Proof. intros w. apply AggregateSlots_keeps. Qed.

#[export] Instance keeps_GetMsgBySeqIndexIn1Doc u d seqs :
  Keeps docs (GetMsgBySeqIndexIn1Doc json_revoke json_elem u d seqs).
Proof.
  unfold GetMsgBySeqIndexIn1Doc. apply keeps_bind; [apply _|]. intros [|doc ?]; [apply _|].
  apply keeps_fold_each. intros acc [info|]; [|apply _]. unfold read_slot.
  destruct (Info_Msg info); [|apply _]. destruct (Info_Revoke info); apply _.
Qed.

#[export] Instance keeps_mark_read info : Keeps (docs ∘ fst) (mark_read (W:=W) (R:=R) info).
Proof. unfold mark_read. apply _. Qed.

#[export] Instance keeps_getMsgBySeqs u c seqs :
  Keeps (docs ∘ fst) (getMsgBySeqs (R:=R) json_revoke json_elem u c seqs).
Proof. apply keeps_fold_each. intros acc [d l]. unfold findMsgInfoBySeq. apply _. Qed.

#[export] Instance keeps_or_zero {S B} (f : S → B) (m : M S Z) : Keeps f m → Keeps f (or_zero m).
Proof. intros ?. unfold or_zero. apply _. Qed.

#[export] Instance keeps_GetMsgBySeqs u c seqs :
  Keeps (docs ∘ fst) (GetMsgBySeqs (R:=R) json_revoke json_elem u c seqs).
Proof.
  unfold GetMsgBySeqs. do 3 (apply keeps_bind; [apply _|intros ?]). apply keeps_bind; [apply _|].
  intros [ms failed]. apply keeps_if; apply _.
Qed.
End Kept.

Section Handlers.
Context {W R : Type} `{MsgCollectionLaws W} `{RedisLaws R} `{ToolsLaws} `{MapRange} `{ProtoLaws}
  `{MsgTools} `{Services Effect}.
Context (config : MsgConfig) (now : Z) (op operationID : string) (MsgCacheTimeout : Z).
Context (json_revoke : MessageRevokedContent → string + error) (json_elem : string → string + error).
Context (StructToJsonString : Tips → string).
Context (sendMsg : option MsgData → M (list Effect) (option SendMsgResp)).
Abbreviation S := ((W * R) * (gmap string Hash * list Effect))%type.
Abbreviation RevokeMsg :=
  (RevokeMsg (W:=W) (R:=R) config now op json_revoke json_elem StructToJsonString sendMsg).
Abbreviation managers := (Manager_UserID config).

(** ** Revoking *)

(** The roles, as the group service tells them, let the user revoke. *)
Definition outranks (h : list Effect) (u : string) (m : MsgData) : Prop :=
  ∃ ms r, svc_GetGroupMembersInfo (GroupID m) (Distinct [u; SendID m]) h = inl ms ∧
    r ∈ ms ∧ GM_UserID r = u ∧
    (GM_RoleLevel r = GroupOwner ∨
     GM_RoleLevel r = GroupAdmin ∧
       ∃ x, x ∈ ms ∧ GM_UserID x = SendID m ∧ GM_RoleLevel x = GroupOrdinaryUsers).

Definition may_revoke (h : list Effect) (u : string) (m : MsgData) : Prop :=
  op ∈ managers ∨
  op = u ∧
    (SessionType m = SingleChatType ∧ u = SendID m ∨
     SessionType m = SuperGroupChatType ∧ (u = SendID m ∨ outranks h u m)).

Lemma CheckAccess_inl u : CheckAccessV3 managers op u = inl () → op ∈ managers ∨ op = u.
Proof.
  unfold CheckAccessV3. rewrite Contain_spec. repeat case_bool_decide; intros [=]; auto.
Qed.

Lemma wp_on_env {A} (m : M (list Effect) A) (Q : outcome A → S → Prop) s :
  wp m (λ r h, Q r (s.1, (s.2.1, h))) s.2.2 → wp (on_env m) Q s.
Proof. intros Hm. by apply wp_on_snd, wp_on_snd. Qed.

Lemma wp_revoke_role u user m (Q : outcome Z → S → Prop) s :
  op ∈ managers ∨ op = u → (∀ role, may_revoke s.2.2 u m → Q (Ok role) s) →
  (∀ e, Q (Err e) s) → Q Panic s → wp (revoke_role config op u user m) Q s.
Proof.
  intros Hacc Hok He Hp. unfold revoke_role, IsAppManagerUid, may_revoke in *.
  rewrite Contain_spec. case_bool_decide as Hop; [apply wp_ret; auto|].
  destruct Hacc as [?|<-]; [done|].
  wp_step; [|wp_step; [|apply wp_fail, He]].
  - apply Z.eqb_eq in Heqb. apply wp_bind, wp_lift; [|auto]. intros [] [?|?]%CheckAccess_inl; [done|].
    apply wp_ret, Hok. auto.
  - apply Z.eqb_eq in Heqb0. apply wp_bind, wp_on_env.
    destruct s as [db [lc h]]. cbn [fst snd] in *.
    unfold GetGroupMemberInfoMap, GetGroupMemberInfos, check_complete.
    wp_run; auto; apply Hok; right; (split; [done|]); right; (split; [done|]); bool_facts; auto; right;
      unfold outranks;
      repeat match goal with
      | H : members_map _ !! _ = Some _ |- _ => apply members_map_elem in H as [? ?]
      end; eauto 12.
Qed.

(** The answer of a user service does not depend on what the handler does. *)
#[export] Instance read_only_GetUserInfo u : ReadOnly (W:=list Effect) (GetUserInfo u).
Proof. unfold GetUserInfo, GetUsersInfo, check_complete. apply _. Qed.

Lemma wp_notify sendID recvID ct st tips (Q : outcome () → S → Prop) s :
  (∀ r h, Q r (s.1, (s.2.1, h))) →
  wp (notify config now json_elem StructToJsonString sendMsg sendID recvID ct st tips) Q s.
Proof. intros HQ. apply wp_on_env, wp_eq, HQ. Qed.

(** A revocation of message [m] by [u], or nothing at all. *)
Definition revoked (u c : string) (seq : Z) (s s' : S) : Prop :=
  ∃ mn mx m rest d role nick,
    (GetMsgBySeqs json_revoke json_elem u c [seq] s.1).1 = Ok (mn, mx, Some m :: rest) ∧
    ContentType m ≠ MsgRevokeNotification ∧ may_revoke s.2.2 u m ∧
    docs d = docs s.1.1 ∧
    s'.1.1 = (MsgStore.RevokeMsg c seq (Some (mkRevokeModel role u nick now)) d).2.

Definition refused (s s' : S) : Prop := docs s'.1.1 = docs s.1.1 ∧ s'.2.2 = s.2.2.

(** C25: a request to revoke either leaves the store as it was and sends
    nothing, or writes the revocation of the slot asked for, in the user's name, of a message
    that the user can read and that is not revoked yet, and that the caller may revoke: a manager
    may, the user himself may in a single chat he wrote it in, and in a group if he wrote it, or
    is its owner, or is an administrator and its author an ordinary member. *)
Theorem RevokeMsg_authorised u c seq s :
  let '(_, s') := RevokeMsg u c seq s in refused s s' ∨ revoked u c seq s s'.
Proof.
  change (wp (RevokeMsg u c seq) (λ _ s', refused s s' ∨ revoked u c seq s s') s).
  assert (refused s s) as Hs by done. unfold MsgServer.RevokeMsg.
  do 3 (apply wp_bind, wp_guard; [by left|intros _]).
  apply wp_bind, wp_lift; [intros [] Hacc%CheckAccess_inl|by left].
  apply wp_bind, wp_on_env, wp_read_only; [apply _|]. intros [user|e| |] _; cbn [fst snd];
    destruct s as [db [lc h]]; [|by left..]. cbn [fst snd] in *.
  apply wp_bind, wp_on_fst, wp_val. cbn [fst snd]. intros r [d k] E.
  assert (docs d = docs db.1) as Hd.
  { pose proof (keeps (f:=docs ∘ fst) (m:=GetMsgBySeqs json_revoke json_elem u c [seq]) db) as Hk.
    by rewrite E in Hk. }
  assert (∀ x : option MsgData, refused (db, (lc, h)) (d, k, (lc, h))) as Hno by done.
  destruct r as [[[mn mx] msgs]|e| |]; [|by left..]. cbn beta iota.
  apply wp_bind. destruct msgs as [|[m|] rest]; cbn [head]; [by left| |by left].
  apply wp_ret, wp_bind, wp_guard; [by left|intros Hct]. bool_facts.
  apply wp_bind, wp_revoke_role; [done| |by left..]. cbn [fst snd]. intros role Hmay.
  apply wp_bind, wp_on_fst, wp_on_fst, wp_val. cbn [fst snd]. intros r d' Er.
  assert (∀ k' e', revoked u c seq (db, (lc, h)) (d', k', e')) as Hyes.
  { intros k' e'. exists mn, mx, m, rest, d, role, (UI_Nickname user).
    split_and!; cbn [fst snd]; [by rewrite E|done|exact Hmay|exact Hd|by rewrite Er]. }
  destruct r; [apply wp_notify; intros|..]; right; apply Hyes.
Qed.

(** ** Marking as read *)

Lemma wp_notify_anyway sendID recvID ct st tips (Q : outcome () → S → Prop) s :
  (∀ r h, Q r (s.1, (s.2.1, h))) →
  wp (notify_anyway config now json_elem StructToJsonString sendMsg sendID recvID ct st tips) Q s.
Proof.
  intros HQ. unfold notify_anyway. apply wp_bind, wp_try, wp_notify. intros [] h; apply HQ.
Qed.

(** The reader's number of a conversation, and what may become of it: it stays
    or rises to [target]. *)
Definition reads_forward (u c : string) (target : Z) (old new : option Z) (s s' : S) : Prop :=
  kv s'.1.2 !! getHasReadSeqKey c u = FormatInt <$> new ∧
  (∀ k, k ≠ getHasReadSeqKey c u → kv s'.1.2 !! k = kv s.1.2 !! k) ∧
  (new = old ∨ new = Some target ∧ default 0 old < target).

Lemma reads_forward_stays u c target old s s' :
  kv s.1.2 !! getHasReadSeqKey c u = FormatInt <$> old → kv s'.1.2 = kv s.1.2 →
  reads_forward u c target old old s s'.
Proof. intros Hk Hs. unfold reads_forward. rewrite Hs. auto. Qed.

Lemma wp_raise_has_read u c target old (Q : outcome () → S → Prop) (s s1 : S) :
  kv s.1.2 !! getHasReadSeqKey c u = FormatInt <$> old → kv s1.1.2 = kv s.1.2 →
  (∀ new s', reads_forward u c target old new s s' →
     default 0 new = Z.max (default 0 old) target → s'.2 = s1.2 → Q (Ok ()) s') →
  (∀ new e s', reads_forward u c target old new s s' → Q (Err e) s') →
  wp (raise_has_read u c (default 0 old) target) Q s1.
Proof.
  intros Hk Hs1 Hok He. unfold raise_has_read. wp_step; bool_facts.
  - assert (∀ s', kv s'.1.2 = <[getHasReadSeqKey c u := FormatInt target]> (kv s.1.2) →
      reads_forward u c target old (Some target) s s') as Hw.
    { intros s' Hs'. unfold reads_forward. rewrite Hs', lookup_insert_eq. split_and!; auto.
      intros k Hne. by rewrite lookup_insert_ne. }
    apply wp_on_fst, wp_on_snd, wp_wrap_error, wp_Set_either; rewrite Hs1.
    + intros w' Hw'. eapply Hok; [by apply Hw|cbn; lia|done].
    + intros e w' [Hw'|Hw']; [by eapply He, reads_forward_stays|by eapply He, Hw].
  - apply wp_ret. eapply Hok; [by apply reads_forward_stays|lia|done].
Qed.

Abbreviation MarkConversationAsRead :=
  (MarkConversationAsRead (W:=W) (R:=R) config now json_elem StructToJsonString sendMsg).
Abbreviation MarkMsgsAsRead :=
  (MarkMsgsAsRead (W:=W) (R:=R) config now json_elem StructToJsonString sendMsg).

Lemma wp_current_has_read u c old (Q : outcome Z → S → Prop) (s s1 : S) :
  kv s.1.2 !! getHasReadSeqKey c u = FormatInt <$> old → (∀ z, old = Some z → int64 z) →
  kv s1.1.2 = kv s.1.2 →
  Q (Ok (default 0 old)) s1 → (∀ e, Q (Err e) s1) → wp (current_has_read u c) Q s1.
Proof.
  intros Hk Hi Hs Hok He. unfold current_has_read, commonMsgDatabase_GetHasReadSeq, GetHasReadSeq.
  rewrite <-Hs in Hk. destruct s1 as [db m]. apply wp_on_fst. cbn [fst snd] in *.
  apply (wp_number_or_zero _ old); auto.
Qed.

Lemma wp_mark_slots u c seqs (Q : outcome () → S → Prop) s :
  (∀ r d, Q r ((d, s.1.2), s.2)) →
  wp (on_fst (commonMsgDatabase_MarkSingleChatMsgsAsRead u c seqs)) Q s.
Proof.
  intros HQ. apply wp_on_fst.
  apply (wp_keeps (snd (A:=W) (B:=R))); [|intros r [d k]; cbn [snd]; intros ->; apply HQ].
  apply keeps_for_each. intros [d l]. apply (keeps_on_fst_other (λ r : R, r)).
Qed.

(** Marking a conversation as read never moves the reader
    back and touches no other number of the cache; when it succeeds in a single chat, a group or
    a notification conversation, the reader's number is the larger of the old and the new one.
    The new one is not compared with the last number of the conversation. *)
Theorem MarkConversationAsRead_forward u c target old (s : S) :
  kv s.1.2 !! getHasReadSeqKey c u = FormatInt <$> old → (∀ z, old = Some z → int64 z) →
  let '(r, s') := MarkConversationAsRead u c target s in
  ∃ new, reads_forward u c target old new s s' ∧
    (r = Ok () → ∃ conv, svc_GetConversation u c s.2.2 = inl conv ∧
       (Conv_ConversationType conv ∈ [SingleChatType; SuperGroupChatType; NotificationChatType] →
        default 0 new = Z.max (default 0 old) target)).
Proof.
  intros Hk Hi.
  set (post (r : outcome ()) (s' : S) := ∃ new, reads_forward u c target old new s s' ∧
    (r = Ok () → ∃ conv, svc_GetConversation u c s.2.2 = inl conv ∧
       (Conv_ConversationType conv ∈ [SingleChatType; SuperGroupChatType; NotificationChatType] →
        default 0 new = Z.max (default 0 old) target))).
  change (wp (MarkConversationAsRead u c target) post s).
  assert (∀ r (s' : S), kv s'.1.2 = kv s.1.2 → r ≠ Ok () → post r s') as Hstop.
  { intros r s' Hs Hr. exists old. split; [by apply reads_forward_stays|done]. }
  unfold MsgServer.MarkConversationAsRead.
  apply wp_bind, wp_on_env, wp_ask; [intros conv Hconv|intros; by apply Hstop].
  cbn [fst snd]. rewrite <-surjective_pairing, <-surjective_pairing.
  apply wp_bind, (wp_current_has_read u c old _ s); [done..| |intros; by apply Hstop].
  assert (∀ seqs recvID st (s1 : S), kv s1.1.2 = kv s.1.2 →
    wp (_ ← raise_has_read u c (default 0 old) target;
        let hasReadSeq := if default 0 old <? target then target else default 0 old in
        sendMarkAsReadNotification config now json_elem StructToJsonString sendMsg c st u recvID
          seqs hasReadSeq) post s1) as Hraise.
  { intros seqs recvID st s1 Hs1. apply wp_bind, (wp_raise_has_read u c target old _ s); [done..| |].
    - intros new s' Hf Hnew _. apply wp_notify_anyway. intros r h. exists new. split; [done|].
      intros _. eauto.
    - intros new e s' Hf. by exists new. }
  wp_step; [|wp_step].
  - apply wp_bind. unfold count_up. wp_step; [by apply Hstop|]. apply wp_ret.
    apply wp_bind. wp_step; [apply wp_mark_slots; intros [] d|apply wp_ret]; try by apply Hstop.
    + by apply Hraise.
    + by apply Hraise.
  - by apply Hraise.
  - apply wp_ret. exists old. split; [by apply reads_forward_stays|]. intros _.
    exists conv. split; [done|]. rewrite !elem_of_cons, elem_of_nil. bool_facts. tauto.
Qed.

(** Marking messages as read never moves the reader back and touches
    no other number of the cache; the reader only moves to the last message named, and only if
    that number does not pass the conversation's last; when it succeeds the reader's number is
    the larger of the old one and that of the last message named. *)
Theorem MarkMsgsAsRead_bounded u c seqs old mx (s : S) :
  kv s.1.2 !! getHasReadSeqKey c u = FormatInt <$> old → (∀ z, old = Some z → int64 z) →
  kv s.1.2 !! getMaxSeqKey c = FormatInt <$> mx → (∀ z, mx = Some z → int64 z) →
  let '(r, s') := MarkMsgsAsRead u c seqs s in
  let target := default 0 (last seqs) in
  ∃ new, reads_forward u c target old new s s' ∧
    (new ≠ old → ∃ m, mx = Some m ∧ last seqs = Some target ∧ target ≤ m) ∧
    (r = Ok () → default 0 new = Z.max (default 0 old) target).
Proof.
  intros Hk Hi Hm Hmi. set (target := default 0 (last seqs)).
  set (post (r : outcome ()) (s' : S) := ∃ new, reads_forward u c target old new s s' ∧
    (new ≠ old → ∃ m, mx = Some m ∧ last seqs = Some target ∧ target ≤ m) ∧
    (r = Ok () → default 0 new = Z.max (default 0 old) target)).
  change (wp (MarkMsgsAsRead u c seqs) post s).
  assert (∀ r (s' : S), kv s'.1.2 = kv s.1.2 → r ≠ Ok () → post r s') as Hstop.
  { intros r s' Hs Hr. exists old. split; [by apply reads_forward_stays|done]. }
  unfold MsgServer.MarkMsgsAsRead. apply wp_bind, wp_guard; [intros; by apply Hstop|intros _].
  apply wp_bind, wp_on_fst, wp_on_snd, (wp_get_number _ mx); [done|done| |intros; by apply Hstop..].
  intros m ->. apply wp_bind, wp_deref; [intros t Ht|intros; by apply Hstop].
  assert (target = t) as Htt by (unfold target; by rewrite Ht).
  apply wp_bind, wp_guard; [intros; by apply Hstop|intros Hle]. bool_facts. subst t.
  apply wp_bind, wp_on_env, wp_ask; [intros conv Hconv|intros; by apply Hstop].
  apply wp_bind, wp_mark_slots. intros [] d; [|by apply Hstop..].
  apply wp_bind, (wp_current_has_read u c old _ s); [done..| |intros; by apply Hstop].
  apply wp_bind, (wp_raise_has_read u c target old _ s); [done..| |].
  - intros new s' Hf Hnew _. apply wp_notify_anyway. intros r h. exists new. split; [done|]. split; [|done]. by exists m.
  - intros new e s' Hf. exists new. split; [done|]. split; [|done]. by exists m.
Qed.

(** ** Clearing conversations *)

Abbreviation clearConversation :=
  (clearConversation (W:=W) (R:=R) config now json_elem StructToJsonString sendMsg).

(** The two numbers that clearing a conversation writes for a user. *)
Definition cleared_keys (u c : string) : list string :=
  [getConversationUserMinSeqKey c u; getHasReadSeqKey c u].

(** Nothing but these numbers changes. *)
Definition only_clears (u : string) (ids : list string) (s s' : S) : Prop :=
  s'.1.1 = s.1.1 ∧
  ∀ k, (∀ c, c ∈ ids → k ∉ cleared_keys u c) → kv s'.1.2 !! k = kv s.1.2 !! k.

Definition cleared (u : string) (ids : list string) (num : string → option Z) (s s' : S) : Prop :=
  ∀ c z, c ∈ ids → num c = Some z → z ≠ 0 →
    kv s'.1.2 !! getConversationUserMinSeqKey c u = Some (FormatInt (z + 1)) ∧
    kv s'.1.2 !! getHasReadSeqKey c u = Some (FormatInt z).

#[export] Instance read_only_GetConversationsByConversationID ids :
  ReadOnly (W:=list Effect) (GetConversationsByConversationID ids).
Proof. unfold GetConversationsByConversationID. apply _. Qed.

Lemma lookup_getMinSeqs m c : getMinSeqs m !! c = (λ v, add64 v 1) <$> m !! c.
Proof. apply lookup_fmap. Qed.

(** The two writes, and the notification between them. *)
Lemma wp_clear_writes u (maxSeqs : gmap string Z) cs num (between : M S ()) s :
  (∀ c z, maxSeqs !! c = Some z ↔ c ∈ cs ∧ num c = Some z ∧ z ≠ 0) →
  (∀ c z, num c = Some z → 0 ≤ z < 2 ^ 63 - 1) →
  (∀ s1 (Q : outcome () → S → Prop), (∀ r s2, s2.1 = s1.1 → Q r s2) → wp between Q s1) →
  wp (_ ← (_ ← on_fst (commonMsgDatabase_SetUserConversationsMinSeqs u (getMinSeqs maxSeqs)); between);
      on_fst (commonMsgDatabase_UserSetHasReadSeqs u maxSeqs))
    (λ r s', only_clears u cs s s' ∧ (r = Ok () → cleared u cs num s s')) s.
Proof.
  intros Hm Hnum Hb.
  assert (∀ c, c ∈ dom (getMinSeqs maxSeqs) → c ∈ cs) as Hd1.
  { intros c [z Hz]%elem_of_dom. rewrite lookup_getMinSeqs in Hz.
    destruct (maxSeqs !! c) eqn:E; [|done]. by apply Hm in E as [? _]. }
  assert (∀ c, c ∈ dom maxSeqs → c ∈ cs) as Hd2 by (intros c [z [? _]%Hm]%elem_of_dom; done).
  assert (∀ s1 : S, s1.1.1 = s.1.1 →
    (∀ k, (∀ c, c ∈ cs → k ≠ getConversationUserMinSeqKey c u) → kv s1.1.2 !! k = kv s.1.2 !! k) →
    only_clears u cs s s1) as Hfirst.
  { intros s1 H1' Hk. split; [done|]. intros k Hc. apply Hk. intros c Hin ->.
    eapply Hc; [exact Hin|by left]. }
  apply wp_bind, wp_bind, wp_on_fst, wp_on_snd, wp_setSeqs.
  - intros k k'. apply getConversationUserMinSeqKey_conversation_inj.
  - intros w1 Hmin Hfr. apply Hb. intros r s2 Hs2.
    assert (∀ k, (∀ c, c ∈ cs → k ≠ getConversationUserMinSeqKey c u) →
              kv s2.1.2 !! k = kv s.1.2 !! k) as Hfr2.
    { intros k Hk. rewrite Hs2. apply Hfr. intros c Hc%Hd1 <-. by eapply Hk. }
    destruct r; [|split; [apply Hfirst; [by rewrite Hs2|done]|done]..].
    apply wp_on_fst, wp_on_snd, wp_setSeqs.
    + intros k k'. apply getHasReadSeqKey_conversation_inj.
    + intros w3 Hread Hfr3. cbn [fst snd] in *. split.
      * split; [cbn; by rewrite Hs2|]. intros k Hk. cbn. rewrite Hfr3.
        -- apply Hfr2. intros c Hc ->. eapply Hk; [exact Hc|by left].
        -- intros c Hc%Hd2 <-. eapply Hk; [exact Hc|by right; left].
      * intros _ c z Hc Hz Hne. specialize (Hnum c z Hz). cbn.
        assert (maxSeqs !! c = Some z) as Hmz by (by apply Hm). split; [|by apply Hread].
        rewrite Hfr3 by (intros; discriminate). rewrite Hs2. cbn. apply Hmin.
        rewrite lookup_getMinSeqs, Hmz. cbn. by rewrite add64_id by (unfold int64; lia).
    + intros e w3 Hfr3. cbn [fst snd] in *. split; [|done].
      split; [cbn; by rewrite Hs2|]. intros k Hk. cbn. rewrite Hfr3.
      * apply Hfr2. intros c Hc ->. eapply Hk; [exact Hc|by left].
      * intros c Hc%Hd2 <-. eapply Hk; [exact Hc|by right; left].
  - intros e w1 Hfr. split; [|done]. apply Hfirst; [done|].
    intros k Hk. cbn. apply Hfr. intros c Hc%Hd1 <-. by eapply Hk.
Qed.

(** When a user clears conversations for himself, the store is not
    touched and no number of the cache changes but the user's least visible number and his
    read number in the conversations found; on success, in each of these that has messages,
    everything is read and only what comes after the last message is visible to him. *)
Theorem clearConversation_self u ids opt num (s : S) :
  (validateDeleteSyncOpt opt).2 = false →
  (∀ c, kv s.1.2 !! getMaxSeqKey c = FormatInt <$> num c) →
  (∀ c z, num c = Some z → 0 ≤ z < 2 ^ 63 - 1) →
  let '(r, s') := clearConversation ids u opt s in
  match (GetConversationsByConversationID ids s.2.2).1 with
  | Ok convs =>
      let cs := Conv_ConversationID <$> convs in
      only_clears u cs s s' ∧ (r = Ok () → cleared u cs num s s')
  | _ => s' = s
  end.
Proof.
  intros Hopt Hkv Hnum.
  set (post (r : outcome ()) (s' : S) :=
    match (GetConversationsByConversationID ids s.2.2).1 with
    | Ok convs =>
        let cs := Conv_ConversationID <$> convs in
        only_clears u cs s s' ∧ (r = Ok () → cleared u cs num s s')
    | _ => s' = s
    end).
  change (wp (clearConversation ids u opt) post s).
  unfold MsgServer.clearConversation.
  apply wp_bind, wp_on_env, wp_read_only; [apply _|]. destruct s as [db [lc h]]. cbn [fst snd] in *.
  intros r E. unfold post. rewrite E. cbn [fst]. destruct r as [convs|e| |]; [|done..].
  cbv zeta. apply wp_bind, wp_on_fst, wp_on_snd, (wp_getSeqs _ _ num).
  - intros c _. split; [by rewrite <-Hkv; destruct db|]. intros z Hz. specialize (Hnum c z Hz).
    unfold int64. lia.
  - intros m Hm. destruct db as [d k]. cbn [fst snd] in *.
    destruct (validateDeleteSyncOpt opt) as [self other]. cbn in Hopt. subst other. cbn [negb].
    apply wp_clear_writes; [done|done|]. intros s1 Q HQ. destruct self.
    + apply wp_notify_anyway. intros r h'. by apply HQ.
    + apply wp_ret. by apply HQ.
  - intros e. destruct db as [d k]. split; [|done]. by split.
Qed.

(** ** Pulling *)

Abbreviation pull := (PullMessageBySeqs (W:=W) (R:=R) json_revoke json_elem).

(** What an answer may hold: for a conversation that was asked for, messages
    or notifications as its id says, never an empty list, and notifications
    only for a range of at most 100 numbers. *)
Definition pull_good (ranges : list SeqRange) (resp : PullMessageBySeqsResp) : Prop :=
  (∀ c p, Resp_Msgs resp !! c = Some p →
     Msgs p ≠ [] ∧ IsNotification c = false ∧ ∃ q, q ∈ ranges ∧ SR_ConversationID q = c) ∧
  (∀ c p, Resp_NotificationMsgs resp !! c = Some p →
     Msgs p ≠ [] ∧ IsNotification c = true ∧
     ∃ q, q ∈ ranges ∧ SR_ConversationID q = c ∧ End_ q - Begin q < SplitPullMsgNum).

Lemma pull_good_mono ranges ranges' resp :
  (∀ q, q ∈ ranges → q ∈ ranges') → pull_good ranges resp → pull_good ranges' resp.
Proof.
  intros Hr [Hm Hn]. split; intros c p Hp.
  - destruct (Hm c p Hp) as (? & ? & q & ? & ?). eauto 6.
  - destruct (Hn c p Hp) as (? & ? & q & ? & ? & ?). eauto 8.
Qed.

Lemma pull_good_msgs ranges resp q ms b :
  pull_good ranges resp → q ∈ ranges → IsNotification (SR_ConversationID q) = false → ms ≠ [] →
  pull_good ranges (mkPullResp (<[SR_ConversationID q := mkPullMsgs ms b]> (Resp_Msgs resp))
                      (Resp_NotificationMsgs resp)).
Proof.
  intros [Hm Hn] Hq Hc Hms. split; [|exact Hn]. cbn. intros c p. rewrite lookup_insert.
  case_decide as Hcc; [|apply Hm]. subst c. intros [= <-]. eauto.
Qed.

Lemma pull_good_notifications ranges resp q ms b :
  pull_good ranges resp → q ∈ ranges → IsNotification (SR_ConversationID q) = true → ms ≠ [] →
  End_ q - Begin q < SplitPullMsgNum →
  pull_good ranges (mkPullResp (Resp_Msgs resp)
    (<[SR_ConversationID q := mkPullMsgs ms b]> (Resp_NotificationMsgs resp))).
Proof.
  intros [Hm Hn] Hq Hc Hms Hl. split; [exact Hm|]. cbn. intros c p. rewrite lookup_insert.
  case_decide as Hcc; [|apply Hn]. subst c. intros [= <-]. eauto 6.
Qed.

Lemma len_ne {A} (l : list A) : (len l =? 0) = false → l ≠ [].
Proof. by destruct l. Qed.

Lemma wp_pull_range fuel u order ranges resp q s :
  pull_good ranges resp → q ∈ ranges →
  wp (pull_range (W:=W) (R:=R) json_revoke json_elem fuel u order resp q)
    (λ r _, match r with Ok resp' => pull_good ranges resp' | Err _ => False | _ => True end) s.
Proof.
  intros Hg Hq. unfold pull_range. wp_step; bool_facts.
  - apply wp_bind, wp_try, wp_on_env, wp_ask; [intros conv _|done].
    apply wp_bind, wp_try, wp_val. intros [[[mn mx] ms]| | |] s' _; cbn; try done.
    case_match; [done|]. apply pull_good_msgs; auto using len_ne.
  - apply wp_bind. unfold count_up. wp_step; [done|]. apply wp_ret. wp_step; [done|].
    apply wp_bind, wp_try, wp_val. intros [[[mn mx] ms]| | |] s' _; cbn; try done.
    case_match; [done|]. apply pull_good_notifications; auto using len_ne.
    apply Z.ltb_ge in Heqb1. unfold len in *. rewrite length_seqZ in *. unfold SplitPullMsgNum in *. lia.
Qed.

(** A pull never answers an error, whatever goes wrong for one of the
    conversations; its answer names only conversations that were asked for, chats and
    notifications apart, each with at least one message, and serves a range of notifications
    only if it has at most 100 numbers. *)
Theorem PullMessageBySeqs_sound fuel u ranges order s :
  let '(r, _) := pull fuel u ranges order s in
  match r with Ok resp => pull_good ranges resp | Err _ => False | _ => True end.
Proof.
  change (wp (pull fuel u ranges order)
    (λ r _, match r with Ok resp => pull_good ranges resp | Err _ => False | _ => True end) s).
  apply (wp_fold_each _ _ _ (λ done resp _, pull_good done resp)).
  - by split.
  - intros done q rest resp s' Hl Hg.
    eapply wp_mono; [|apply (wp_pull_range _ _ _ (done ++ [q]))].
    + by intros [] s''.
    + eapply pull_good_mono; [|exact Hg]. intros x Hx. apply elem_of_app. by left.
    + apply elem_of_app. right. by apply list_elem_of_singleton.
  - done.
Qed.

(** ** Strangers *)

(** A caller who is neither a manager nor the user concerned is refused by
    the handlers that clear, delete, revoke and list for a user, and one who is no manager by
    the physical deletion of conversations; nothing changes. *)
Theorem strangers_refused u c ids seqs seq opt fuel second stamp (s : S) :
  op ∉ managers → op ≠ u →
  let refused := Wrap ErrNoPermission "CheckAccessV3" in
  ClearConversationsMsg config now op json_elem StructToJsonString sendMsg u ids opt s =
    (Err refused, s) ∧
  UserClearAllMsg config now op json_elem StructToJsonString sendMsg u opt s = (Err refused, s) ∧
  DeleteMsgs config now op MsgCacheTimeout json_elem StructToJsonString sendMsg u c seqs opt s =
    (Err refused, s) ∧
  msgServer_GetMaxSeq config op u s = (Err refused, s) ∧
  (∃ e, RevokeMsg u c seq s = (Err e, s)) ∧
  DeleteMsgPhysical config now op fuel second ids stamp s =
    (Err (Wrap ErrNoPermission ("user " +:+ op +:+ " is not admin userID")), s).
Proof.
  intros Hm Hu refused'.
  assert (CheckAccessV3 managers op u = inr refused') as Hc.
  { unfold CheckAccessV3. rewrite Contain_spec. by rewrite !bool_decide_eq_false_2. }
  assert (CheckAdmin managers op = inr (Wrap ErrNoPermission ("user " +:+ op +:+ " is not admin userID")))
    as Ha by (unfold CheckAdmin; rewrite Contain_spec; by rewrite bool_decide_eq_false_2).
  unfold ClearConversationsMsg, UserClearAllMsg, DeleteMsgs, msgServer_GetMaxSeq, MsgServer.RevokeMsg,
    DeleteMsgPhysical.
  rewrite Hc, Ha. split_and!; try done. unfold guard.
  destruct (bool_decide (u = "")); [by eexists|]. destruct (bool_decide (c = "")); [by eexists|].
  destruct (seq <? 0); by eexists.
Qed.
End Handlers.
