(* ===== verification/MsgServerSamples.v ===== *)
(** * The message service at work on a small example

    A group of an owner and an ordinary member, one message, and the theorems of
    MsgServerProofs.v applied there. *)

From S2P Require Import Prelude.
From S2P Require Import Constants.
From S2P Require Import MsgTypes.
From S2P Require Import MsgProcessor.
From S2P Require Import MsgDoc.
From S2P Require Import MsgCollection.
From S2P Require Import MsgStore.
From S2P Require Import Tools.
From S2P Require Import Notification.
From S2P Require Import RpcClient.
From S2P Require Import Redis.
From S2P Require Import MsgCache.
From S2P Require Import MsgDatabase.
From S2P Require Import Auth.
From S2P Require Import MsgServer.
From S2P Require Import MsgServerProofs.
From stdpp Require Import options.
Import Sample.

#[local] Open Scope Z_scope.
#[local] Existing Instances model_msg_tools model_msg_tools_laws.

Definition member (u : string) (role : Z) : GroupMemberFullInfo :=
  mkGroupMember "room_1" u role 0 "" "" 0 0 "" "" 0 "".

Definition user_named (u : string) : UserInfo := mkUserInfo u "" "" "" 0 0 0.

Definition conversation (u c : string) (t : Z) : Conversation :=
  mkConversation u c 0 t "bob" "room_1" false "" false 0 "" 0 0 0 0 0 false.

(** Alice owns the group, Bob is a member. *)
Definition sample_services {Wr} : Services Wr := {|
  svc_IsFriend _ _ _ := inl (true, true);
  svc_IsBlack _ _ _ := inl (false, false);
  svc_GetGroupsInfo _ _ := inl [];
  svc_GetGroupMembersInfo _ us _ :=
    inl ((λ u, member u (if bool_decide (u = "alice") then GroupOwner else GroupOrdinaryUsers)) <$> us);
  svc_GetGroupMemberUserIDs _ _ := inl ["alice"; "bob"];
  svc_GetGroupInfoCache _ _ := inr (Bare ErrRecordNotFound);
  svc_GetGroupMemberCache _ _ _ := inr (Bare ErrRecordNotFound);
  svc_GetDesignateUsers us _ := inl (user_named <$> us);
  svc_GetGlobalRecvMessageOpt _ _ := inl 0;
  svc_GetConversation u c _ := inl (conversation u c SuperGroupChatType);
  svc_GetConversations u cs _ := inl ((λ c, conversation u c SuperGroupChatType) <$> cs);
  svc_GetConversationsByConversationID cs _ :=
    inl ((λ c, conversation "alice" c SuperGroupChatType) <$> cs);
  svc_GetConversationIDs _ _ := inl ["sg_room_1"];
  svc_GetUserConversationIDsHash _ _ := inl 1%N;
|}.
#[local] Existing Instance sample_services.

Definition sample_config : MsgConfig :=
  mkMsgConfig ["admin"] true true (Some false) false false false false false
    (uniform_notification NotificationConf_zero).

(** Bob's message is the first of the group's conversation. *)
Definition bob_message : MsgData := set_Seq 1 (sample_chat SuperGroupChatType "bob" "").

Definition sample_state : (mem_docs * mem_redis) * (gmap string Hash * list Effect) :=
  (({[ "sg_room_1:0" := [Some (mkMsgInfoModel (MsgPb2DB (Some bob_message)) None (Some []) false)] ]},
    mkRedis {[ getMaxSeqKey "sg_room_1" := FormatInt 1 ]} ∅ ∅), (∅, [])).

Definition sample_json {A} (_ : A) : string + error := inl "{}".
Definition sample_tips (_ : Tips) : string := "{}".
Definition sample_send (_ : option MsgData) : M (list Effect) (option SendMsgResp) := mret None.

Definition first_revocation (D : mem_docs) : option RevokeModel :=
  match D !! "sg_room_1:0" with Some (Some i :: _) => Info_Revoke i | _ => None end.

(** Alice, who owns the group, revokes Bob's message: the slot is marked. *)
Lemma RevokeMsg_authorised_witness :
  let run := RevokeMsg sample_config 7 "alice" sample_json sample_json sample_tips sample_send
               "alice" "sg_room_1" 1 sample_state in
  (run.1 = Ok () ∧ first_revocation run.2.1.1 = Some (mkRevokeModel GroupOwner "alice" "" 7)) ∧
  let '(_, s') := run in
  refused sample_state s' ∨
  revoked sample_config 7 "alice" sample_json sample_json "alice" "sg_room_1" 1 sample_state s'.
Proof.
  split; [split; vm_compute; reflexivity|].
  apply (RevokeMsg_authorised sample_config 7 "alice" sample_json sample_json sample_tips sample_send
    "alice" "sg_room_1" 1 sample_state).
Defined.

Lemma MarkConversationAsRead_forward_witness :
  let '(r, s') := MarkConversationAsRead sample_config 7 sample_json sample_tips sample_send
                    "alice" "sg_room_1" 5 sample_state in
  ∃ new, reads_forward "alice" "sg_room_1" 5 None new sample_state s' ∧
    (r = Ok () → ∃ conv, svc_GetConversation "alice" "sg_room_1" (sample_state.2.2) = inl conv ∧
       (Conv_ConversationType conv ∈ [SingleChatType; SuperGroupChatType; NotificationChatType] →
        default 0 new = Z.max (default 0 None) 5)).
Proof.
  apply (MarkConversationAsRead_forward sample_config 7 sample_json sample_tips sample_send
    "alice" "sg_room_1" 5 None sample_state); [vm_compute; reflexivity|discriminate].
Defined.

Lemma MarkMsgsAsRead_bounded_witness :
  let '(r, s') := MarkMsgsAsRead sample_config 7 sample_json sample_tips sample_send
                    "alice" "sg_room_1" [1] sample_state in
  let target := default 0 (last [1]) in
  ∃ new, reads_forward "alice" "sg_room_1" target None new sample_state s' ∧
    (new ≠ None → ∃ m, Some 1 = Some m ∧ last [1] = Some target ∧ target ≤ m) ∧
    (r = Ok () → default 0 new = Z.max (default 0 None) target).
Proof.
  apply (MarkMsgsAsRead_bounded sample_config 7 sample_json sample_tips sample_send
    "alice" "sg_room_1" [1] None (Some 1) sample_state);
    [vm_compute; reflexivity|discriminate|vm_compute; reflexivity|].
  intros z [= <-]. unfold int64. lia.
Defined.

(** The last number of each conversation. *)
Definition sample_num (c : string) : option Z := if bool_decide (c = "sg_room_1") then Some 1 else None.

Lemma sample_num_stored c :
  kv sample_state.1.2 !! getMaxSeqKey c = FormatInt <$> sample_num c.
Proof.
  unfold sample_num. cbn. case_bool_decide as Hc.
  - subst c. vm_compute. reflexivity.
  - apply lookup_singleton_None. intros Hk. apply Hc. symmetry. by apply getMaxSeqKey_inj.
Qed.

Lemma clearConversation_self_witness :
  let run := clearConversation sample_config 7 sample_json sample_tips sample_send
               ["sg_room_1"] "bob" None sample_state in
  run.1 = Ok () ∧
  let '(r, s') := run in
  match (GetConversationsByConversationID ["sg_room_1"] sample_state.2.2).1 with
  | Ok convs =>
      let cs := Conv_ConversationID <$> convs in
      only_clears "bob" cs sample_state s' ∧ (r = Ok () → cleared "bob" cs sample_num sample_state s')
  | _ => s' = sample_state
  end.
Proof.
  split; [vm_compute; reflexivity|].
  apply (clearConversation_self sample_config 7 sample_json sample_tips sample_send
    "bob" ["sg_room_1"] None sample_num sample_state).
  - reflexivity.
  - exact sample_num_stored.
  - intros c z. unfold sample_num. case_bool_decide; [intros [= <-]; lia|discriminate].
Defined.

Lemma PullMessageBySeqs_sound_witness :
  let run := PullMessageBySeqs sample_json sample_json 5 "alice" [mkSeqRange "sg_room_1" 1 1 10] 0
               sample_state in
  match run.1 with Ok resp => dom (Resp_Msgs resp) = {["sg_room_1"]} | _ => False end ∧
  let '(r, _) := run in
  match r with
  | Ok resp => pull_good [mkSeqRange "sg_room_1" 1 1 10] resp
  | Err _ => False
  | _ => True
  end.
Proof.
  split; [vm_compute; reflexivity|].
  apply (PullMessageBySeqs_sound sample_json sample_json 5 "alice"
    [mkSeqRange "sg_room_1" 1 1 10] 0 sample_state).
Defined.

Lemma strangers_refused_witness :
  msgServer_GetMaxSeq sample_config "mallory" "alice" sample_state =
  (Err (Wrap ErrNoPermission "CheckAccessV3"), sample_state).
Proof.
  apply (strangers_refused sample_config 7 "mallory" 60 sample_json sample_json sample_tips sample_send
    "alice" "sg_room_1" [] [] 1 None 1 0 0 sample_state).
  - apply (bool_decide_unpack _). vm_compute. reflexivity.
  - discriminate.
Defined.
