(* ===== verification/Gateway.v ===== *)
(** * The connection hub (internal/msggateway)

    The hub of one gateway: the connections by user, the queues of the event
    loop, the two counters.  Connections are pointers: they are changed in
    place, kept in queues, and returned to a pool from which the next
    connection is taken. *)

From S2P Require Import Prelude.
From S2P Require Import Constants.
From S2P Require Import MsgTypes.
From S2P Require Import MsgProcessor.
From S2P Require Import MsgDoc.
From S2P Require Import Tools.
From S2P Require Import Redis.
From S2P Require Import MsgCache.
From S2P Require Import Auth.
From stdpp Require Import options.
#[local] Set Default Proof Using "Type*".

#[local] Open Scope Z_scope.

(** ** Protocol constants (constant.go) *)

Definition WsUserID : string := "sendID".
Definition Key_PlatformID : string := "platformID".
Definition Key_Token : string := "token".
Definition Key_OperationID : string := "operationID".
Definition Compression : string := "compression".
Definition GzipCompressionProtocol : string := "gzip".
Definition BackgroundStatus : string := "isBackground".

Definition WSGetNewestSeq : Z := 1001.
Definition WSPullMsgBySeqList : Z := 1002.
Definition WSSendMsg : Z := 1003.
Definition WSSendSignalMsg : Z := 1004.
Definition WSPushMsg : Z := 2001.
Definition WSKickOnlineMsg : Z := 2002.
Definition WsLogoutMsg : Z := 2003.
Definition WsSetBackgroundStatus : Z := 2004.
Definition WSServerConfigMsg : Z := 2100.

(** ** The context of a connection (context.go)

    The first value of each query parameter and header, empty if absent. *)

Record UserConnContext := mkUserConnContext {
  Ctx_query : gmap string string; Ctx_header : gmap string string;
  Ctx_RemoteAddr : string; Ctx_ConnID : string }.

Definition GetRemoteAddr (c : UserConnContext) : string := Ctx_RemoteAddr c.
Definition query_get (c : UserConnContext) (key : string) : string := default "" (Ctx_query c !! key).
Definition Query (c : UserConnContext) (key : string) : string * bool :=
  let value := query_get c key in (value, negb (bool_decide (value = ""))).
Definition GetHeader (c : UserConnContext) (key : string) : string * bool :=
  let value := default "" (Ctx_header c !! key) in (value, negb (bool_decide (value = ""))).
Definition GetUserID (c : UserConnContext) : string := query_get c WsUserID.
Definition GetPlatformID (c : UserConnContext) : string := query_get c Key_PlatformID.
Definition GetOperationID (c : UserConnContext) : string := query_get c Key_OperationID.
Definition GetToken (c : UserConnContext) : string := query_get c Key_Token.

(** [strconv.ParseBool], false on a syntax error. *)
Definition GetBackground (c : UserConnContext) : bool :=
  bool_decide (query_get c BackgroundStatus ∈ ["1"; "t"; "T"; "true"; "TRUE"; "True"]).

(** [newTempContext] with a token. *)
Definition temp_context (token : string) : UserConnContext :=
  mkUserConnContext {[ Key_Token := token ]} ∅ "" "".

(** ** Connections *)

Abbreviation ptr := positive.

Record Client := mkClient {
  Client_PlatformID : Z; Client_IsCompress : bool; Client_UserID : string;
  Client_IsBackground : bool; Client_ctx : UserConnContext; Client_closed : bool;
  Client_closedErr : option error; Client_token : string }.

Definition Client_zero : Client :=
  mkClient 0 false "" false (mkUserConnContext ∅ ∅ "" "") false None "".

Definition set_closed (c : Client) : Client :=
  mkClient (Client_PlatformID c) (Client_IsCompress c) (Client_UserID c) (Client_IsBackground c)
    (Client_ctx c) true (Client_closedErr c) (Client_token c).
Definition set_closedErr (e : error) (c : Client) : Client :=
  mkClient (Client_PlatformID c) (Client_IsCompress c) (Client_UserID c) (Client_IsBackground c)
    (Client_ctx c) (Client_closed c) (Some e) (Client_token c).
Definition set_IsBackground (b : bool) (c : Client) : Client :=
  mkClient (Client_PlatformID c) (Client_IsCompress c) (Client_UserID c) b
    (Client_ctx c) (Client_closed c) (Client_closedErr c) (Client_token c).

Definition addr (c : Client) : string := GetRemoteAddr (Client_ctx c).

Record Resp := mkResp {
  Resp_ReqIdentifier : Z; Resp_MsgIncr : string; Resp_OperationID : string;
  Resp_ErrCode : Z; Resp_ErrMsg : string; Resp_Data : string }.

Record kickHandler := mkKickHandler {
  kick_clientOK : bool; kick_oldClients : list ptr; kick_newClient : ptr }.

(** Calls to the other services and nodes. *)
Inductive HubCall :=
  | SetUserStatusCall (userID : string) (status platformID : Z)
  | MultiTerminalLoginCheckCall (node userID : string) (platformID : Z) (token : string)
  | RpcCall (method opUserID data : string).

(** ** The hub *)

Record Hub := mkHub {
  heap : gmap ptr Client;
  clients : gmap string (list ptr);
  registerChan : list ptr;
  unregisterChan : list ptr;
  kickHandlerChan : list kickHandler;
  clientPool : list ptr;
  onlineUserNum : Z;
  onlineUserConnNum : Z;
  written : list (ptr * string);
  calls : list HubCall }.

Definition set_heap (v : gmap ptr Client) (h : Hub) : Hub :=
  mkHub v (clients h) (registerChan h) (unregisterChan h) (kickHandlerChan h) (clientPool h)
    (onlineUserNum h) (onlineUserConnNum h) (written h) (calls h).
Definition set_clients (v : gmap string (list ptr)) (h : Hub) : Hub :=
  mkHub (heap h) v (registerChan h) (unregisterChan h) (kickHandlerChan h) (clientPool h)
    (onlineUserNum h) (onlineUserConnNum h) (written h) (calls h).
Definition set_registerChan (v : list ptr) (h : Hub) : Hub :=
  mkHub (heap h) (clients h) v (unregisterChan h) (kickHandlerChan h) (clientPool h)
    (onlineUserNum h) (onlineUserConnNum h) (written h) (calls h).
Definition set_unregisterChan (v : list ptr) (h : Hub) : Hub :=
  mkHub (heap h) (clients h) (registerChan h) v (kickHandlerChan h) (clientPool h)
    (onlineUserNum h) (onlineUserConnNum h) (written h) (calls h).
Definition set_kickHandlerChan (v : list kickHandler) (h : Hub) : Hub :=
  mkHub (heap h) (clients h) (registerChan h) (unregisterChan h) v (clientPool h)
    (onlineUserNum h) (onlineUserConnNum h) (written h) (calls h).
Definition set_clientPool (v : list ptr) (h : Hub) : Hub :=
  mkHub (heap h) (clients h) (registerChan h) (unregisterChan h) (kickHandlerChan h) v
    (onlineUserNum h) (onlineUserConnNum h) (written h) (calls h).
Definition add_onlineUserNum (d : Z) (h : Hub) : Hub :=
  mkHub (heap h) (clients h) (registerChan h) (unregisterChan h) (kickHandlerChan h) (clientPool h)
    (add64 (onlineUserNum h) d) (onlineUserConnNum h) (written h) (calls h).
Definition add_onlineUserConnNum (d : Z) (h : Hub) : Hub :=
  mkHub (heap h) (clients h) (registerChan h) (unregisterChan h) (kickHandlerChan h) (clientPool h)
    (onlineUserNum h) (add64 (onlineUserConnNum h) d) (written h) (calls h).
Definition add_written (p : ptr) (data : string) (h : Hub) : Hub :=
  mkHub (heap h) (clients h) (registerChan h) (unregisterChan h) (kickHandlerChan h) (clientPool h)
    (onlineUserNum h) (onlineUserConnNum h) (written h ++ [(p, data)]) (calls h).
Definition add_call (c : HubCall) (h : Hub) : Hub :=
  mkHub (heap h) (clients h) (registerChan h) (unregisterChan h) (kickHandlerChan h) (clientPool h)
    (onlineUserNum h) (onlineUserConnNum h) (written h) (calls h ++ [c]).

(** ** The map of connections (user_map.go)

    The functions read the platform and the address of the connections in the
    heap. *)

Abbreviation UserMap := (gmap string (list ptr)).

Definition client_at (hp : gmap ptr Client) (p : ptr) : Client := default Client_zero (hp !! p).

Definition UserMap_GetAll (u : UserMap) (key : string) : list ptr * bool :=
  match u !! key with Some l => (l, true) | None => ([], false) end.

Definition UserMap_Get (hp : gmap ptr Client) (u : UserMap) (key : string) (platformID : Z) :
    list ptr * bool * bool :=
  match u !! key with
  | Some allClients =>
      let cs := filter (λ p, Client_PlatformID (client_at hp p) = platformID) allClients in
      if 0 <? len cs then (cs, true, true) else (cs, true, false)
  | None => ([], false, false)
  end.

Definition UserMap_Set (u : UserMap) (key : string) (v : ptr) : UserMap :=
  match u !! key with
  | Some oldClients => <[key := oldClients ++ [v]]> u
  | None => <[key := [v]]> u
  end.

(** What [delete] and [deleteClients] do with the connections to keep. *)
Definition UserMap_keep (u : UserMap) (key : string) (a : list ptr) : UserMap * bool :=
  if len a =? 0 then (delete key u, true) else (<[key := a]> u, false).

Definition UserMap_delete (hp : gmap ptr Client) (u : UserMap) (key connRemoteAddr : string) :
    UserMap * bool :=
  match u !! key with
  | Some oldClients =>
      UserMap_keep u key (filter (λ p, addr (client_at hp p) ≠ connRemoteAddr) oldClients)
  | None => (u, false)
  end.

Definition UserMap_deleteClients (hp : gmap ptr Client) (u : UserMap) (key : string)
    (cs : list ptr) : UserMap * bool :=
  match u !! key with
  | Some oldClients =>
      UserMap_keep u key
        (filter (λ p, addr (client_at hp p) ∉ (λ c, addr (client_at hp c)) <$> cs) oldClients)
  | None => (u, false)
  end.

Definition UserMap_DeleteAll (u : UserMap) (key : string) : UserMap := delete key u.

Definition channel_cap : Z := 1000.

(** ** Operations

    The hub comes with the cache of tokens.  The encoder, the compressor, the
    answers of the connections and of the other services are parameters. *)

Section Server.
Context {R : Type} `{Redis R} `{Tools} `{MapRange}.
Context (MultiLoginPolicy wsMaxConnNum : Z).
Context (Encode : Resp → string + error) (Compress : string → string + error).
Context (WriteMessage : ptr → string → option error).
Context (nodes : list string + error) (self : string).
Abbreviation W := (Hub * R)%type.

Definition read_client (p : ptr) : M W Client := h ← on_fst get; deref (heap h !! p).
Definition update_client (p : ptr) (f : Client → Client) : M W () :=
  c ← read_client p; on_fst (modify (λ h, set_heap (<[p := f c]> (heap h)) h)).

(** A send on a channel of capacity [channel_cap]: on a full channel it
    waits, and never ends if nobody receives. *)
Definition UnRegister (p : ptr) : M W () :=
  h ← on_fst get;
  if len (unregisterChan h) <? channel_cap
  then on_fst (modify (set_unregisterChan (unregisterChan h ++ [p])))
  else out_of_fuel.
Definition SetKickHandlerInfo (i : kickHandler) : M W () :=
  h ← on_fst get;
  if len (kickHandlerChan h) <? channel_cap
  then on_fst (modify (set_kickHandlerChan (kickHandlerChan h ++ [i])))
  else out_of_fuel.
Definition send_register (p : ptr) : M W () :=
  h ← on_fst get;
  if len (registerChan h) <? channel_cap
  then on_fst (modify (set_registerChan (registerChan h ++ [p])))
  else out_of_fuel.

(** *** client.go *)

Definition close (p : ptr) : M W () :=
  c ← read_client p;
  if Client_closed c then mret ()
  else
    _ ← update_client p set_closed;
    UnRegister p.

Definition writeBinaryMsg (p : ptr) (resp : Resp) : M W () :=
  c ← read_client p;
  if Client_closed c then mret ()
  else
    encodedBuf ← wrap_error (lift (Encode resp));
    buf ← (if Client_IsCompress c then wrap_error (lift (Compress encodedBuf))
           else mret encodedBuf);
    _ ← on_fst (modify (add_written p buf));
    match WriteMessage p buf with None => mret () | Some e => fail e end.

Definition KickOnlineMessage (p : ptr) : M W () :=
  r ← try (writeBinaryMsg p (mkResp WSKickOnlineMsg "" "" 0 "" ""));
  _ ← close p;
  lift r.

(** *** n_ws_server.go *)

Definition GetUserAllCons (userID : string) : M W (list ptr * bool) :=
  h ← on_fst get; mret (UserMap_GetAll (clients h) userID).
Definition GetUserPlatformCons (userID : string) (platform : Z) : M W (list ptr * bool * bool) :=
  h ← on_fst get; mret (UserMap_Get (heap h) (clients h) userID platform).

Definition SetUserOnlineStatus (p : ptr) (status : Z) : M W () :=
  c ← read_client p;
  on_fst (modify (add_call (SetUserStatusCall (Client_UserID c) status (Client_PlatformID c)))).

Definition sendUserOnlineInfoToOtherNode (p : ptr) : M W () :=
  c ← read_client p;
  conns ← lift nodes;
  for_each conns (λ v,
    if bool_decide (v = self) then mret ()
    else on_fst (modify (add_call (MultiTerminalLoginCheckCall v (Client_UserID c)
           (Client_PlatformID c) (Client_token c))))).

Definition deleteClients (userID : string) (cs : list ptr) : M W bool :=
  h ← on_fst get;
  let '(u, isDeleteUser) := UserMap_deleteClients (heap h) (clients h) userID cs in
  _ ← on_fst (modify (set_clients u));
  mret isDeleteUser.

Definition KickUserConn (p : ptr) : M W () :=
  c ← read_client p;
  _ ← deleteClients (Client_UserID c) [p];
  KickOnlineMessage p.

(** All tokens but the new connection's become [KickedToken]. *)
Definition kick_tokens (token : string) (m : gmap string Z) : gmap string Z :=
  map_imap (λ k v, Some (if bool_decide (k = token) then v else KickedToken)) m.

(** The part that the two kicking policies share. *)
Definition kick_same_terminal (clientOK : bool) (oldClients : list ptr) (newClient : ptr) : M W () :=
  if clientOK then
    c ← read_client newClient;
    isDeleteUser ← deleteClients (Client_UserID c) oldClients;
    _ ← (if (isDeleteUser : bool) then on_fst (modify (add_onlineUserNum (-1))) else mret ());
    _ ← for_each oldClients (λ p, _ ← try (KickOnlineMessage p); mret ());
    r ← try (on_snd (GetTokensWithoutError (Client_UserID c) (Client_PlatformID c)));
    match r with
    | inr err =>
        (* [m] is nil: both ways out return *)
        mret ()
    | inl m =>
        _ ← try (on_snd (SetTokenMapByUidPid (Client_UserID c) (Client_PlatformID c)
               (kick_tokens (GetToken (Client_ctx c)) m)));
        mret ()
    end
  else mret ().

Definition multiTerminalLoginChecker (clientOK : bool) (oldClients : list ptr) (newClient : ptr) :
    M W () :=
  if MultiLoginPolicy =? DefalutNotKick then mret ()
  else if MultiLoginPolicy =? PCAndOther then
    c ← read_client newClient;
    if bool_decide (PlatformIDToClass (Client_PlatformID c) = TerminalPC) then mret ()
    else kick_same_terminal clientOK oldClients newClient
  else if MultiLoginPolicy =? AllLoginButSameTermKick then
    kick_same_terminal clientOK oldClients newClient
  else mret ().

(** [ws.clients.Set(client.UserID, client)] *)
Definition set_client (c : Client) (p : ptr) : M W () :=
  on_fst (modify (λ h, set_clients (UserMap_Set (clients h) (Client_UserID c) p) h)).

(** The calls to the other nodes and to the user service run at the same time;
    they do not change the hub. *)
Definition registerClient (p : ptr) : M W () :=
  c ← read_client p;
  '(oldClients, userOK, clientOK) ← GetUserPlatformCons (Client_UserID c) (Client_PlatformID c);
  _ ← (if negb userOK then
         _ ← set_client c p;
         _ ← on_fst (modify (add_onlineUserNum 1));
         on_fst (modify (add_onlineUserConnNum 1))
       else
         _ ← multiTerminalLoginChecker clientOK oldClients p;
         _ ← set_client c p;
         on_fst (modify (add_onlineUserConnNum 1)));
  _ ← try (sendUserOnlineInfoToOtherNode p);
  SetUserOnlineStatus p Online.

Definition unregisterClient (p : ptr) : M W () :=
  c ← read_client p;
  h ← on_fst get;
  let '(u, isDeleteUser) := UserMap_delete (heap h) (clients h) (Client_UserID c) (addr c) in
  _ ← on_fst (modify (set_clients u));
  _ ← (if (isDeleteUser : bool) then on_fst (modify (add_onlineUserNum (-1))) else mret ());
  _ ← on_fst (modify (add_onlineUserConnNum (-1)));
  _ ← SetUserOnlineStatus p Offline;
  on_fst (modify (λ h, set_clientPool (clientPool h ++ [p]) h)).

(** One turn of the event loop, for each channel it can read from. *)
Definition loop_register : M W () :=
  h ← on_fst get;
  match registerChan h with
  | [] => mret ()
  | p :: rest => _ ← on_fst (modify (set_registerChan rest)); registerClient p
  end.
Definition loop_unregister : M W () :=
  h ← on_fst get;
  match unregisterChan h with
  | [] => mret ()
  | p :: rest => _ ← on_fst (modify (set_unregisterChan rest)); unregisterClient p
  end.
Definition loop_kick : M W () :=
  h ← on_fst get;
  match kickHandlerChan h with
  | [] => mret ()
  | i :: rest =>
      _ ← on_fst (modify (set_kickHandlerChan rest));
      multiTerminalLoginChecker (kick_clientOK i) (kick_oldClients i) (kick_newClient i)
  end.

(** A connection taken from the pool, or a new one. *)
Definition pool_get : M W ptr :=
  h ← on_fst get;
  match clientPool h with
  | p :: rest => _ ← on_fst (modify (set_clientPool rest)); mret p
  | [] => mret (fresh (dom (heap h)))
  end.

Definition ResetClient (p : ptr) (ctx : UserConnContext) (isBackground isCompress : bool)
    (token : string) : M W () :=
  on_fst (modify (λ h, set_heap (<[p := mkClient (StringToInt (GetPlatformID ctx)) isCompress
    (GetUserID ctx) false ctx false None token]> (heap h)) h)).

(** [GetClaimFromToken], the WebSocket handshake and the server's configuration
    message are parameters. *)
Context (GetClaimFromToken : string → Claims + error) (handshake : option error).
Context (marshal_ServerConfig : string + error).

Definition ServerConfigMessage (p : ptr) (operationID : string) : M W () :=
  data ← lift marshal_ServerConfig;
  writeBinaryMsg p (mkResp WSServerConfigMsg "" operationID 0 "" data).

(** What the request must satisfy; an error is the HTTP answer. *)
Definition admit_conn (ctx : UserConnContext) : M W string :=
  h ← on_fst get;
  _ ← guard (wsMaxConnNum <=? onlineUserConnNum h) (Bare ErrConnOverMaxNumLimit);
  let '(token, exists_) := Query ctx Key_Token in
  _ ← guard (negb exists_) (Bare ErrConnArgsErr);
  let '(userID, exists_) := Query ctx WsUserID in
  _ ← guard (negb exists_) (Bare ErrConnArgsErr);
  let '(platformIDStr, exists_) := Query ctx Key_PlatformID in
  _ ← guard (negb exists_) (Bare ErrConnArgsErr);
  match ParseInt platformIDStr with
  | None => fail (Bare ErrConnArgsErr)
  | Some platformID =>
      _ ← lift (WsVerifyToken GetClaimFromToken token userID platformID);
      m ← on_snd (GetTokensWithoutError userID platformID);
      match m !! token with
      | Some v =>
          if v =? NormalToken then mret token
          else if v =? KickedToken then fail (Wrap ErrTokenKicked "")
          else fail (Wrap ErrTokenUnknown "")
      | None => fail (Wrap ErrTokenNotExist "")
      end
  end.

(** The connection's new client, sent to the event loop. *)
Definition wsHandler (ctx : UserConnContext) : M W ptr :=
  token ← admit_conn ctx;
  _ ← match handshake with None => mret () | Some e => fail e end;
  let is_gzip '(v, exists_) := (exists_ : bool) && bool_decide (v = GzipCompressionProtocol) in
  let compression := is_gzip (Query ctx Compression) || is_gzip (GetHeader ctx Compression) in
  p ← pool_get;
  _ ← ResetClient p ctx (GetBackground ctx) compression token;
  _ ← try (ServerConfigMessage p (GetOperationID ctx));
  _ ← send_register p;
  mret p.
End Server.
