(* ===== verification/GatewayServer.v ===== *)
(** * Requests and pushes of the gateway (internal/msggateway)

    What a connection does with the frames it reads (client.go,
    message_handler.go) and what the other services ask of the gateway
    (hub_server.go). *)

From S2P Require Import Prelude.
From S2P Require Import Constants.
From S2P Require Import MsgTypes.
From S2P Require Import MsgProcessor.
From S2P Require Import MsgDoc.
From S2P Require Import Tools.
From S2P Require Import Redis.
From S2P Require Import MsgCache.
From S2P Require Import Auth.
From S2P Require Import Gateway.
From stdpp Require Import options.
#[local] Set Default Proof Using "Type*".

#[local] Open Scope Z_scope.

(** ** Requests *)

Record Req := mkReq {
  Req_ReqIdentifier : Z; Req_Token : string; Req_SendID : string;
  Req_OperationID : string; Req_MsgIncr : string; Req_Data : string }.

Definition MessageText : Z := 1.
Definition MessageBinary : Z := 2.
Definition CloseMessage : Z := 8.
Definition PingMessage : Z := 9.
Definition PongMessage : Z := 10.

Definition ErrConnClosed : error := Bare (ErrText "conn has closed").
Definition ErrNotSupportMessageProtocol : error := Bare (ErrText "not support message protocol").
Definition ErrClientClosed : error := Bare (ErrText "client actively close the connection").
Definition ErrPanic : error := Bare (ErrText "panic error").

(** What [ReadMessage] returns. *)
Inductive frame := ReadError (e : error) | Frame (messageType : Z) (message : string).

(** [sdkws.PushMessages] *)
Record PushMessages := mkPushMessages {
  Push_Msgs : gmap string (list MsgData); Push_NotificationMsgs : gmap string (list MsgData) }.

(** Results of pushes. *)
Record SingleMsgToUserPlatform := mkToPlatform {
  To_ResultCode : Z; To_RecvID : string; To_RecvPlatFormID : Z }.
Record SingleMsgToUserResults := mkToUser {
  To_UserID : string; To_OnlinePush : bool; To_Resp : list SingleMsgToUserPlatform }.

(** Online status of a user. *)
Record OnlineDetail := mkOnlineDetail {
  Detail_Platform : string; Detail_Status : string; Detail_ConnID : string;
  Detail_Token : string; Detail_IsBackground : bool }.
Record OnlineResult := mkOnlineResult {
  Result_UserID : string; Result_Status : string; Result_Detail : list OnlineDetail }.

Section Requests.
Context {R : Type} `{Redis R} `{Tools} `{MapRange}.
Context (Encode : Resp → string + error) (Compress DeCompress : string → string + error).
Context (WriteMessage : ptr → string → option error) (WritePong : ptr → option error).
Context (Decode : string → Req + error).
(** The decoder and the validator of each request, the services' answers, the
    encoder of their responses, the error code and text of an error. *)
Context (Unmarshal validate : string → string → () + error) (validate_Req : Req → () + error).
Context (rpc : string → string → string + error) (Marshal : string → string + error).
Context (IsBackground_of : string → bool).
Context (ParseError : option error → Z * string).
Context (marshal_PushMessages : PushMessages → string + error).
Context (managers : list string).
(** [Req.String]: the request as JSON. *)
Context (Req_String : Req → string).
Abbreviation W := (Hub * R)%type.
Abbreviation writeBinaryMsg := (writeBinaryMsg (R:=R) Encode Compress WriteMessage).

(** *** message_handler.go *)

Definition grpc_call (method : string) (check : () + error) (data : Req) : M W string :=
  _ ← lift (Unmarshal method (Req_Data data));
  _ ← lift check;
  _ ← on_fst (modify (add_call (RpcCall method (Req_SendID data) (Req_Data data))));
  resp ← lift (rpc method (Req_Data data));
  lift (Marshal resp).

Definition GetSeq (data : Req) : M W string :=
  grpc_call "GetMaxSeq" (validate "GetMaxSeq" (Req_Data data)) data.
Definition SendMessage (data : Req) : M W string :=
  grpc_call "SendMsg" (validate "SendMsg" (Req_Data data)) data.
Definition SendSignalMessage (data : Req) : M W string :=
  grpc_call "SignalMessageAssemble" (inl ()) data.
Definition PullMessageBySeqList (data : Req) : M W string :=
  grpc_call "PullMessageBySeqList" (validate_Req data) data.
Definition UserLogout (data : Req) : M W string :=
  grpc_call "DelUserPushToken" (inl ()) data.
Definition SetUserDeviceBackground (data : Req) : M W bool :=
  _ ← lift (Unmarshal "SetAppBackgroundStatus" (Req_Data data));
  _ ← lift (validate_Req data);
  mret (IsBackground_of (Req_Data data)).

(** *** client.go *)

Definition setAppBackgroundStatus (p : ptr) (req : Req) : M W string :=
  isBackground ← SetUserDeviceBackground req;
  _ ← update_client p (set_IsBackground isBackground);
  mret "".

Definition replyMessage (p : ptr) (binaryReq : Req) (err : option error) (resp : string) : M W () :=
  let '(code, msg) := ParseError err in
  _ ← try (writeBinaryMsg p (mkResp (Req_ReqIdentifier binaryReq) (Req_MsgIncr binaryReq)
             (Req_OperationID binaryReq) code msg resp));
  if Req_ReqIdentifier binaryReq =? WsLogoutMsg then fail (Bare (ErrText "user logout"))
  else mret ().

(** The handler of a request, [None] for an unknown identifier. *)
Definition dispatch (p : ptr) (req : Req) : option (M W string) :=
  let id := Req_ReqIdentifier req in
  if id =? WSGetNewestSeq then Some (GetSeq req)
  else if id =? WSSendMsg then Some (SendMessage req)
  else if id =? WSSendSignalMsg then Some (SendSignalMessage req)
  else if id =? WSPullMsgBySeqList then Some (PullMessageBySeqList req)
  else if id =? WsLogoutMsg then Some (UserLogout req)
  else if id =? WsSetBackgroundStatus then Some (setAppBackgroundStatus p req)
  else None.

Definition handleMessage (p : ptr) (message : string) : M W () :=
  c ← read_client p;
  message ← (if Client_IsCompress c then wrap_error (lift (DeCompress message)) else mret message);
  binaryReq ← wrap_error (lift (Decode message));
  _ ← guard (negb (bool_decide (Req_SendID binaryReq = Client_UserID c)))
        (Wrap (ErrText "exception conn userID not same to req userID") (Req_String binaryReq));
  match dispatch p binaryReq with
  | None => fail (Bare (ErrText ("ReqIdentifier failed,sendID:" +:+ Req_SendID binaryReq +:+
              ",msgIncr:" +:+ Req_MsgIncr binaryReq +:+ ",reqIdentifier:" +:+
              FormatInt (Req_ReqIdentifier binaryReq))))
  | Some h =>
      r ← try h;
      match r with
      | inl resp => replyMessage p binaryReq None resp
      | inr e => replyMessage p binaryReq (Some e) ""
      end
  end.

Definition writePongMsg (p : ptr) : M W () :=
  c ← read_client p;
  if Client_closed c then mret ()
  else match WritePong p with None => mret () | Some e => fail e end.

(** One frame: whether the connection goes on reading. *)
Definition read_frame (p : ptr) (f : frame) : M W bool :=
  match f with
  | ReadError e => _ ← update_client p (set_closedErr e); mret false
  | Frame messageType message =>
      c ← read_client p;
      if Client_closed c then _ ← update_client p (set_closedErr ErrConnClosed); mret false
      else if messageType =? MessageBinary then
        r ← try (handleMessage p message);
        match r with
        | inl _ => mret true
        | inr e => _ ← update_client p (set_closedErr e); mret false
        end
      else if messageType =? MessageText then
        _ ← update_client p (set_closedErr ErrNotSupportMessageProtocol); mret false
      else if messageType =? PingMessage then _ ← try (writePongMsg p); mret true
      else if messageType =? CloseMessage then
        _ ← update_client p (set_closedErr ErrClientClosed); mret false
      else mret true
  end.

(** The frames read until the connection stops; a panic is recovered, and the
    connection is closed in every case. *)
Fixpoint read_frames (p : ptr) (fs : list frame) : M W () :=
  match fs with
  | [] => mret ()
  | f :: fs => go_on ← read_frame p f; if (go_on : bool) then read_frames p fs else mret ()
  end.

Definition recover (m handler : M W ()) : M W () := λ w,
  match m w with (Panic, w') => handler w' | r => r end.

Definition readMessage (p : ptr) (fs : list frame) : M W () :=
  _ ← recover (read_frames p fs) (update_client p (set_closedErr ErrPanic));
  close p.

Definition PushMessage (p : ptr) (operationID : string) (msgData : MsgData) : M W () :=
  let conversationID := GetConversationIDByMsg msgData in
  let m := {[ conversationID := [msgData] ]} in
  let msg := if IsNotification conversationID then mkPushMessages ∅ m else mkPushMessages m ∅ in
  data ← lift (marshal_PushMessages msg);
  writeBinaryMsg p (mkResp WSPushMsg "" operationID 0 "" data).

(** *** hub_server.go *)

(** No entry for a user without connections. *)
Definition GetUsersOnlineStatus (opUserID : string) (userIDs : list string) :
    M W (list OnlineResult) :=
  _ ← guard (negb (IsAppManagerUid managers opUserID)) (Wrap ErrNoPermission "only app manager");
  fold_each userIDs [] (λ acc userID,
    '(cs, ok) ← GetUserAllCons userID;
    if negb ok then mret acc
    else
      details ← fold_each cs [] (λ ds p,
        c ← read_client p;
        mret (ds ++ [mkOnlineDetail (PlatformIDToName (Client_PlatformID c)) OnlineStatus
                       (Ctx_ConnID (Client_ctx c)) (Client_token c) (Client_IsBackground c)]));
      match details with
      | [] => mret acc
      | _ => mret (acc ++ [mkOnlineResult userID OnlineStatus details])
      end).

Definition pushTerminal : list Z := [IOSPlatformID; AndroidPlatformID].

(** The push to one connection, and what it adds to the user's result. *)
Definition push_to_client (operationID v : string) (msg : MsgData)
    (acc : bool * list SingleMsgToUserPlatform) (p : ptr) :
    M W (bool * list SingleMsgToUserPlatform) :=
  let '(onlinePush, resp) := acc in
  c ← read_client p;
  let temp code := mkToPlatform code v (wrap32 (Client_PlatformID c)) in
  if negb (Client_IsBackground c) ||
     (Client_IsBackground c && negb (Client_PlatformID c =? IOSPlatformID)) then
    r ← try (PushMessage p operationID msg);
    match r with
    | inr _ => mret (onlinePush, resp ++ [temp (-2)])
    | inl _ =>
        if Contain (Client_PlatformID c) pushTerminal then mret (true, resp ++ [temp 0])
        else mret (onlinePush, resp)
    end
  else mret (onlinePush, resp ++ [temp (-3)]).

Definition SuperGroupOnlineBatchPushOneMsg (operationID : string) (msg : MsgData)
    (pushToUserIDs : list string) : M W (list SingleMsgToUserResults) :=
  fold_each pushToUserIDs [] (λ acc v,
    '(cs, ok) ← GetUserAllCons v;
    if negb ok then mret (acc ++ [mkToUser v false []])
    else
      '(onlinePush, resp) ← fold_each cs (false, []) (push_to_client operationID v msg);
      mret (acc ++ [mkToUser v onlinePush resp])).

Definition KickUserOffline (kickUserIDList : list string) (platformID : Z) : M W () :=
  for_each kickUserIDList (λ v,
    '(cs, _, ok) ← GetUserPlatformCons v platformID;
    if (ok : bool) then
      for_each cs (λ p,
        _ ← try (KickUserConn Encode Compress WriteMessage p); mret ())
    else mret ()).

(** Another node has accepted a connection of the user: a stand-in for it goes
    to the event loop. *)
Definition MultiTerminalLoginCheck (userID : string) (platformID : Z) (token : string) : M W () :=
  '(oldClients, userOK, clientOK) ← GetUserPlatformCons userID platformID;
  if (userOK : bool) then
    h ← on_fst get;
    let p := fresh (dom (heap h)) in
    _ ← on_fst (modify (set_heap (<[p := mkClient platformID false userID false
           (temp_context token) false None ""]> (heap h))));
    SetKickHandlerInfo (mkKickHandler clientOK oldClients p)
  else mret ().
End Requests.
