(* ===== verification/HubProofs.v ===== *)
(** * Correctness of the connection hub

    Registration and its login policy, the counters, admission of connections,
    requests; and an interleaving of the hub's events in which a user's entry
    points to another user's connection. *)

From S2P Require Import Prelude.
From S2P Require Import Constants.
From S2P Require Import MsgTypes.
From S2P Require Import MsgProcessor.
From S2P Require Import MsgDoc.
From S2P Require Import Tools.
From S2P Require Import Redis.
From S2P Require Import MsgCache.
From S2P Require Import Auth.
From S2P Require Import Gateway.
From S2P Require Import GatewayServer.
From stdpp Require Import options.
#[local] Set Default Proof Using "Type*".

#[local] Open Scope Z_scope.

(** ** What writing to and closing a connection leaves alone *)

(** What a connection is, as long as it is not reset. *)
Definition ident (c : Client) : Z * string * UserConnContext * string :=
  (Client_PlatformID c, Client_UserID c, Client_ctx c, Client_token c).

Definition heap_keeps (hp hp' : gmap ptr Client) : Prop :=
  ∀ p, ident <$> hp' !! p = ident <$> hp !! p.

(** Only the state of the connections, the queue of those to unregister and
    what was written have changed. *)
Record quiet (h h' : Hub) : Prop := {
  quiet_clients : clients h' = clients h;
  quiet_register : registerChan h' = registerChan h;
  quiet_kick : kickHandlerChan h' = kickHandlerChan h;
  quiet_pool : clientPool h' = clientPool h;
  quiet_userNum : onlineUserNum h' = onlineUserNum h;
  quiet_connNum : onlineUserConnNum h' = onlineUserConnNum h;
  quiet_calls : calls h' = calls h;
  quiet_heap : heap_keeps (heap h) (heap h');
  quiet_closed : ∀ p, Client_closed (client_at (heap h) p) = true →
    Client_closed (client_at (heap h') p) = true }.

#[export] Instance quiet_preorder : PreOrder quiet.
Proof.
  split.
  - intros h. by split.
  - intros h1 h2 h3 [] []. split; try congruence; auto.
Qed.

Lemma heap_keeps_ident hp hp' p c :
  heap_keeps hp hp' → hp !! p = Some c → ∃ c', hp' !! p = Some c' ∧ ident c' = ident c.
Proof.
  intros Hk Hp. specialize (Hk p). rewrite Hp in Hk.
  destruct (hp' !! p) as [c'|]; [|done]. injection Hk as ??. exists c'. split; [done|].
  unfold ident. congruence.
Qed.

Lemma client_at_some hp p c : hp !! p = Some c → client_at hp p = c.
Proof. unfold client_at. by intros ->. Qed.

Section Wp.
Context {R : Type}.
Implicit Types (h : Hub) (r : R).

Lemma wp_read_client p h r c (Q : outcome Client → Hub * R → Prop) :
  heap h !! p = Some c → Q (Ok c) (h, r) → wp (read_client p) Q (h, r).
Proof.
  intros Hp HQ. apply wp_bind, wp_on_fst, wp_get, wp_deref; cbn; intros; congruence.
Qed.

Lemma wp_modify_hub f h r (Q : outcome () → Hub * R → Prop) :
  Q (Ok ()) (f h, r) → wp (on_fst (modify f)) Q (h, r).
Proof. intros. by apply wp_on_fst, wp_modify. Qed.

Lemma wp_get_hub h r (Q : outcome Hub → Hub * R → Prop) :
  Q (Ok h) (h, r) → wp (on_fst get) Q (h, r).
Proof. intros. by apply wp_on_fst, wp_get. Qed.

(** An update that keeps what the connection is. *)
Lemma wp_update_client p f h r c (Q : outcome () → Hub * R → Prop) :
  heap h !! p = Some c →
  Q (Ok ()) (set_heap (<[p := f c]> (heap h)) h, r) → wp (update_client p f) Q (h, r).
Proof. intros Hp HQ. apply wp_bind, (wp_read_client _ _ _ c); [done|]. by apply wp_modify_hub. Qed.

Lemma quiet_update p f h c :
  heap h !! p = Some c → ident (f c) = ident c →
  (Client_closed c = true → Client_closed (f c) = true) →
  quiet h (set_heap (<[p := f c]> (heap h)) h).
Proof.
  intros Hp Hid Hc. split; try done; cbn.
  - intros q. destruct (decide (q = p)) as [->|].
    + by rewrite lookup_insert_eq, Hp; cbn; rewrite Hid.
    + by rewrite lookup_insert_ne.
  - intros q. unfold client_at. destruct (decide (q = p)) as [->|].
    + rewrite lookup_insert_eq, Hp. exact Hc.
    + by rewrite lookup_insert_ne.
Qed.

(** Closing marks the connection and queues it; on a full queue it waits. *)
Lemma wp_close p h r c (Q : outcome () → Hub * R → Prop) :
  heap h !! p = Some c →
  (∀ h', quiet h h' → Client_closed (client_at (heap h') p) = true →
     len (unregisterChan h') ≤ len (unregisterChan h) + 1 →
     (Client_closed c = false → unregisterChan h' = unregisterChan h ++ [p]) →
     (Client_closed c = true → h' = h) → Q (Ok ()) (h', r)) →
  (∀ h', channel_cap ≤ len (unregisterChan h) → Q OutOfFuel (h', r)) →
  wp (close p) Q (h, r).
Proof.
  intros Hp Hok Hfull. apply wp_bind, (wp_read_client _ _ _ c); [done|].
  destruct (Client_closed c) eqn:Hc.
  - apply wp_ret, Hok; try done; [|lia]. by rewrite (client_at_some _ _ _ Hp).
  - apply wp_bind, (wp_update_client _ _ _ _ c); [done|].
    assert (quiet h (set_heap (<[p := set_closed c]> (heap h)) h)) as Hq by (by apply quiet_update).
    unfold UnRegister. apply wp_bind, wp_get_hub. cbn [unregisterChan set_heap].
    destruct (Z.ltb_spec (len (unregisterChan h)) channel_cap); [|by apply Hfull].
    apply wp_modify_hub, Hok; try done.
    + destruct Hq. by split.
    + cbn. unfold client_at. by rewrite lookup_insert_eq.
    + cbn. unfold len. rewrite length_app. cbn. lia.
Qed.

Context (Encode : Resp → string + error) (Compress : string → string + error).
Context (WriteMessage : ptr → string → option error).
Abbreviation writeBinaryMsg := (writeBinaryMsg (R:=R) Encode Compress WriteMessage).
Abbreviation KickOnlineMessage := (KickOnlineMessage (R:=R) Encode Compress WriteMessage).

(** Writing: success or an error; nothing is written to a closed connection. *)
Lemma wp_writeBinaryMsg p resp h r c (Q : outcome () → Hub * R → Prop) :
  heap h !! p = Some c →
  (∀ res h', quiet h h' → heap h' = heap h → unregisterChan h' = unregisterChan h →
     (Client_closed c = true → h' = h) →
     (∃ ws, written h' = written h ++ ws ∧ ∀ x, x ∈ ws → x.1 = p ∧ Client_closed c = false) →
     Q (of_sum res) (h', r)) →
  wp (writeBinaryMsg p resp) Q (h, r).
Proof.
  intros Hp HQ. apply wp_bind, (wp_read_client _ _ _ c); [done|].
  assert (∃ ws, written h = written h ++ ws ∧ ∀ x, x ∈ ws → x.1 = p ∧ Client_closed c = false) as Hnone.
  { exists []. rewrite app_nil_r. split; [done|]. intros x Hx. by apply elem_of_nil in Hx. }
  destruct (Client_closed c) eqn:Hc; [by apply wp_ret, (HQ (inl ()))|].
  assert (∀ e, Q (Err e) (h, r)) as He by (intros e; by apply (HQ (inr e))).
  apply wp_bind, wp_wrap_error, wp_lift; [|by intros]. intros buf _.
  assert (∀ buf, wp (_ ← on_fst (modify (add_written p buf));
    match WriteMessage p buf with None => mret () | Some e => fail e end) Q (h, r)) as Hw.
  { intros buf'. apply wp_bind, wp_modify_hub.
    assert (∃ ws, written (add_written p buf' h) = written h ++ ws ∧ ∀ x, x ∈ ws → x.1 = p ∧ false = false) as Hone.
    { exists [(p, buf')]. split; [done|]. by intros x ->%list_elem_of_singleton. }
    destruct (WriteMessage p buf') as [e|]; [apply wp_fail, (HQ (inr e))|apply wp_ret, (HQ (inl ()))];
      try done; by split. }
  destruct (Client_IsCompress c).
  - apply wp_bind, wp_wrap_error, wp_lift; [|by intros]. intros; apply Hw.
  - apply wp_bind, wp_ret, Hw.
Qed.

Lemma wp_KickOnlineMessage p h r c (Q : outcome () → Hub * R → Prop) :
  heap h !! p = Some c →
  (∀ res h', quiet h h' → Client_closed (client_at (heap h') p) = true →
     len (unregisterChan h') ≤ len (unregisterChan h) + 1 → Q (of_sum res) (h', r)) →
  (∀ h', channel_cap ≤ len (unregisterChan h) → Q OutOfFuel (h', r)) →
  wp (KickOnlineMessage p) Q (h, r).
Proof.
  intros Hp HQ Hfull. unfold KickOnlineMessage, Gateway.KickOnlineMessage.
  apply wp_bind, wp_try, (wp_writeBinaryMsg _ _ _ _ c); [done|].
  intros res h1 Hq1 Hh1 Hu1 _ _.
  assert (wp (_ ← close p; lift res) Q (h1, r)) as Hrest.
  { apply wp_bind, (wp_close _ _ _ c); [by rewrite Hh1| |].
    - intros h2 Hq2 Hc2 Hu2 _ _. rewrite Hu1 in Hu2.
      destruct res as [[]|e]; [apply (HQ (inl ()))|apply (HQ (inr e))]; try done; by etrans.
    - intros h2. rewrite Hu1. apply Hfull. }
  by destruct res.
Qed.

(** A loop of kicks closes every connection of the list. *)
Lemma wp_kick_all (l : list ptr) h r (Q : outcome () → Hub * R → Prop) :
  (∀ p, p ∈ l → is_Some (heap h !! p)) →
  len (unregisterChan h) + len l ≤ channel_cap →
  (∀ h', quiet h h' → (∀ p, p ∈ l → Client_closed (client_at (heap h') p) = true) →
     len (unregisterChan h') ≤ len (unregisterChan h) + len l → Q (Ok ()) (h', r)) →
  wp (for_each l (λ p, _ ← try (KickOnlineMessage p); mret ())) Q (h, r).
Proof.
  intros Hl Hcap HQ.
  apply (wp_for_each _ _ (λ done w', quiet h w'.1 ∧ w'.2 = r ∧
    (∀ p, p ∈ done → Client_closed (client_at (heap w'.1) p) = true) ∧
    len (unregisterChan w'.1) ≤ len (unregisterChan h) + len done)).
  - split_and!; [done|done| |unfold len; cbn; lia]. intros p Hp. by apply elem_of_nil in Hp.
  - intros done p rest [h1 r1] Hlist (Hq & Hr & Hd & Hu). cbn in Hr, Hq, Hd, Hu. subst r1.
    destruct (Hl p) as [c Hc]; [rewrite Hlist; set_solver +|].
    destruct (heap_keeps_ident _ _ _ _ (quiet_heap _ _ Hq) Hc) as (c1 & Hc1 & _).
    assert (len l = len done + 1 + len rest) as Hll.
    { unfold len. rewrite Hlist, length_app. cbn. lia. }
    apply wp_bind, wp_try, (wp_KickOnlineMessage _ _ _ c1); [done| |].
    2:{ intros h2 Hfull. exfalso. unfold len in *. lia. }
    intros res h2 Hq2 Hc2 Hu2.
    assert (quiet h h2 ∧ r = r ∧ (∀ q, q ∈ done ++ [p] → Client_closed (client_at (heap h2) q) = true) ∧
      len (unregisterChan h2) ≤ len (unregisterChan h) + len (done ++ [p])) as HI.
    { split_and!; [by etrans|done| |].
      - intros q [Hq'| ->%list_elem_of_singleton]%elem_of_app; [|done].
        by apply (quiet_closed _ _ Hq2), Hd.
      - unfold len in *. rewrite length_app. cbn. lia. }
    by destruct res.
  - intros [h1 r1] (Hq & Hr & Hd & Hu). cbn in *. subst r1. by apply HQ.
Qed.
End Wp.

(** ** Registration under the policy of one connection per platform *)

(** Every entry of the map is a non-empty list of the user's own connections. *)
Definition hub_ok (h : Hub) : Prop :=
  ∀ u l, clients h !! u = Some l →
    l ≠ [] ∧ ∀ p, p ∈ l → ∃ c, heap h !! p = Some c ∧ Client_UserID c = u.

(** The connections of the user on the platform. *)
Definition on_platform (h : Hub) (u : string) (pf : Z) : list ptr :=
  (UserMap_Get (heap h) (clients h) u pf).1.1.

Lemma on_platform_eq h u pf :
  on_platform h u pf =
  filter (λ p, Client_PlatformID (client_at (heap h) p) = pf) (default [] (clients h !! u)).
Proof.
  unfold on_platform, UserMap_Get. destruct (clients h !! u); [|done]. cbv zeta. by destruct (0 <? _).
Qed.

Lemma UserMap_Get_eq h u pf :
  UserMap_Get (heap h) (clients h) u pf =
  (on_platform h u pf, bool_decide (is_Some (clients h !! u)), 0 <? len (on_platform h u pf)).
Proof.
  rewrite on_platform_eq. unfold UserMap_Get. destruct (clients h !! u) as [l|]; [|done].
  rewrite bool_decide_eq_true_2 by eauto. cbn [default]. by destruct (0 <? _).
Qed.

Lemma client_at_ident hp hp' p :
  heap_keeps hp hp' → Client_PlatformID (client_at hp' p) = Client_PlatformID (client_at hp p).
Proof.
  intros Hk. specialize (Hk p). unfold client_at.
  destruct (hp !! p), (hp' !! p); try done. injection Hk. cbn. congruence.
Qed.

(** The connections that remain when those of [old] are removed. *)
Definition survivors (h : Hub) (u : string) (old : list ptr) : list ptr :=
  filter (λ p, addr (client_at (heap h) p) ∉ (λ c, addr (client_at (heap h) c)) <$> old)
    (default [] (clients h !! u)).

Lemma survivors_not_on_platform h u pf p :
  p ∈ survivors h u (on_platform h u pf) → Client_PlatformID (client_at (heap h) p) ≠ pf.
Proof.
  intros [Ha Hp]%list_elem_of_filter Hpf. apply Ha, list_elem_of_fmap. exists p. split; [done|].
  rewrite on_platform_eq. by apply list_elem_of_filter.
Qed.

(** The map after the kick. *)
Definition kicked_clients (h : Hub) (u : string) (old : list ptr) : UserMap :=
  match survivors h u old with [] => delete u (clients h) | l => <[u := l]> (clients h) end.

Definition kicks_all (h : Hub) (u : string) (old : list ptr) : bool :=
  bool_decide (is_Some (clients h !! u) ∧ survivors h u old = []).

Lemma deleteClients_eq h u old :
  is_Some (clients h !! u) →
  UserMap_deleteClients (heap h) (clients h) u old = (kicked_clients h u old, kicks_all h u old).
Proof.
  intros [l Hl]. unfold UserMap_deleteClients, kicked_clients, kicks_all, UserMap_keep.
  rewrite Hl. unfold survivors. rewrite Hl. cbn [default from_option]. unfold id.
  destruct (filter _ l) as [|q l']; [by rewrite bool_decide_eq_true_2 by eauto|].
  rewrite bool_decide_eq_false_2 by (by intros [_ ?]).
  by rewrite (proj2 (Z.eqb_neq _ 0)) by (unfold len; cbn; lia).
Qed.

Section Register.
Context {R : Type} `{RedisLaws R} `{ToolsLaws} `{MapRange}.
Context (Encode : Resp → string + error) (Compress : string → string + error).
Context (WriteMessage : ptr → string → option error).
Context (nodes : list string + error) (self : string).

Lemma wp_tokens (u : string) (pf : Z) (f : gmap string Z → gmap string Z) h r (Q : outcome () → Hub * R → Prop) :
  (∀ r', Q (Ok ()) (h, r')) →
  wp (r ← try (on_snd (GetTokensWithoutError u pf));
      match r with
      | inr err => mret ()
      | inl m => _ ← try (on_snd (SetTokenMapByUidPid u pf (f m))); mret ()
      end) Q (h, r).
Proof.
  intros HQ. apply wp_bind, wp_try, wp_on_snd, wp_GetTokensWithoutError; cbn [fst snd].
  - apply wp_bind, wp_try, wp_on_snd, wp_wrap_error, wp_run; intros; by apply wp_ret.
  - intros e. by apply wp_ret.
Qed.

(** The kick, when the user is known to the hub. *)
Lemma wp_kick_same_terminal (old : list ptr) p h r c (Q : outcome () → Hub * R → Prop) :
  heap h !! p = Some c → is_Some (clients h !! Client_UserID c) →
  (∀ q, q ∈ old → is_Some (heap h !! q)) →
  len (unregisterChan h) + len old ≤ channel_cap →
  (∀ h' r', heap_keeps (heap h) (heap h') →
     clients h' = kicked_clients h (Client_UserID c) old →
     (∀ q, q ∈ old → Client_closed (client_at (heap h') q) = true) →
     onlineUserConnNum h' = onlineUserConnNum h →
     onlineUserNum h' = (if kicks_all h (Client_UserID c) old then add64 (onlineUserNum h) (-1)
                         else onlineUserNum h) → Q (Ok ()) (h', r')) →
  wp (kick_same_terminal Encode Compress WriteMessage true old p) Q (h, r).
Proof.
  intros Hp Hu Hold Hcap HQ. unfold kick_same_terminal.
  apply wp_bind, (wp_read_client _ _ _ c); [done|].
  apply wp_bind. unfold deleteClients. apply wp_bind, wp_get_hub.
  rewrite deleteClients_eq by done. apply wp_bind, wp_modify_hub, wp_ret.
  set (h1 := set_clients _ h). set (h2 := if kicks_all h (Client_UserID c) old
    then add_onlineUserNum (-1) h1 else h1).
  apply wp_bind. assert (∀ Q' : outcome () → Hub * R → Prop, Q' (Ok ()) (h2, r) →
    wp (if kicks_all h (Client_UserID c) old then on_fst (modify (add_onlineUserNum (-1))) else mret ())
      Q' (h1, r)) as Hnum.
  { intros Q' HQ'. unfold h2 in HQ'. destruct (kicks_all _ _ _); [by apply wp_modify_hub|by apply wp_ret]. }
  apply Hnum, wp_bind, wp_kick_all.
  - intros q Hq. unfold h2, h1. destruct (kicks_all _ _ _); by apply Hold.
  - unfold h2, h1. by destruct (kicks_all _ _ _).
  - intros h3 Hquiet Hclosed _. apply wp_tokens. intros r'. apply HQ.
    + intros q. rewrite (quiet_heap _ _ Hquiet q). unfold h2, h1. by destruct (kicks_all _ _ _).
    + rewrite (quiet_clients _ _ Hquiet). unfold h2, h1. by destruct (kicks_all _ _ _).
    + done.
    + rewrite (quiet_connNum _ _ Hquiet). unfold h2, h1. by destruct (kicks_all _ _ _).
    + rewrite (quiet_userNum _ _ Hquiet). unfold h2, h1. by destruct (kicks_all _ _ _).
Qed.

(** The calls at the end of a registration do not touch the hub's map. *)
Lemma wp_announce p status h r c (Q : outcome () → Hub * R → Prop) :
  heap h !! p = Some c →
  (∀ h', clients h' = clients h → heap h' = heap h → onlineUserNum h' = onlineUserNum h →
     onlineUserConnNum h' = onlineUserConnNum h → Q (Ok ()) (h', r)) →
  wp (_ ← try (sendUserOnlineInfoToOtherNode nodes self p); SetUserOnlineStatus p status) Q (h, r).
Proof.
  intros Hp HQ.
  assert (∀ h1 : Hub, clients h1 = clients h → heap h1 = heap h → onlineUserNum h1 = onlineUserNum h →
     onlineUserConnNum h1 = onlineUserConnNum h → wp (SetUserOnlineStatus p status) Q (h1, r)) as Hset.
  { intros h1 ? Hh1 ? ?. apply wp_bind, (wp_read_client _ _ _ c); [by rewrite Hh1|].
    apply wp_modify_hub. by apply HQ. }
  apply wp_bind, wp_try. unfold sendUserOnlineInfoToOtherNode.
  apply wp_bind, (wp_read_client _ _ _ c); [done|].
  apply wp_bind, wp_lift; [|by intros; apply Hset]. intros conns _.
  apply (wp_for_each _ _ (λ _ w', clients w'.1 = clients h ∧ heap w'.1 = heap h ∧
    onlineUserNum w'.1 = onlineUserNum h ∧ onlineUserConnNum w'.1 = onlineUserConnNum h ∧ w'.2 = r)).
  - done.
  - intros done v rest [h1 r1] _ (? & ? & ? & ? & ?). cbn in *. case_bool_decide; [by apply wp_ret|].
    by apply wp_modify_hub.
  - intros [h1 r1] (? & ? & ? & ? & ?). cbn in *. subst r1. by apply Hset.
Qed.

Abbreviation registerClient :=
  (registerClient (R:=R) AllLoginButSameTermKick Encode Compress WriteMessage nodes self).

(** The state after a registration, in terms of the state [h] before it. *)
Lemma wp_registerClient p h r c u old (Q : outcome () → Hub * R → Prop) :
  u = Client_UserID c → old = on_platform h u (Client_PlatformID c) →
  hub_ok h → heap h !! p = Some c →
  len (unregisterChan h) + len old ≤ channel_cap →
  (∀ h' r', heap_keeps (heap h) (heap h') →
     clients h' = UserMap_Set (if bool_decide (old = []) then clients h
                               else kicked_clients h u old) u p →
     (∀ q, q ∈ old → Client_closed (client_at (heap h') q) = true) →
     onlineUserConnNum h' = add64 (onlineUserConnNum h) 1 →
     onlineUserNum h' =
       (if bool_decide (clients h !! u = None) then add64 (onlineUserNum h) 1
        else if negb (bool_decide (old = [])) && kicks_all h u old then add64 (onlineUserNum h) (-1)
        else onlineUserNum h) → Q (Ok ()) (h', r')) →
  wp (registerClient p) Q (h, r).
Proof.
  intros Hu Hold Hok Hp Hcap HQ.
  assert (∀ h1 r1, heap_keeps (heap h) (heap h1) →
     clients h1 = UserMap_Set (if bool_decide (old = []) then clients h
                               else kicked_clients h u old) u p →
     (∀ q, q ∈ old → Client_closed (client_at (heap h1) q) = true) →
     onlineUserConnNum h1 = add64 (onlineUserConnNum h) 1 →
     onlineUserNum h1 =
       (if bool_decide (clients h !! u = None) then add64 (onlineUserNum h) 1
        else if negb (bool_decide (old = [])) && kicks_all h u old then add64 (onlineUserNum h) (-1)
        else onlineUserNum h) →
     wp (_ ← try (sendUserOnlineInfoToOtherNode nodes self p); SetUserOnlineStatus p Online) Q (h1, r1)) as Hend.
  { intros h1 r1 Hk Hc Hcl Hcn Hun.
    destruct (heap_keeps_ident _ _ _ _ Hk Hp) as (c1 & Hc1 & _).
    apply (wp_announce _ _ _ _ c1); [done|]. intros h2 E1 E2 E3 E4.
    apply HQ; rewrite ?E1, ?E2, ?E3, ?E4; done. }
  unfold Gateway.registerClient. apply wp_bind, (wp_read_client _ _ _ c); [done|].
  apply wp_bind. unfold GetUserPlatformCons. apply wp_bind, wp_get_hub, wp_ret.
  rewrite UserMap_Get_eq, <-Hu, <-Hold.
  destruct (clients h !! u) as [l|] eqn:Hl.
  2:{ assert (old = []) as Hnil by (by rewrite Hold, on_platform_eq, Hl).
      rewrite bool_decide_eq_false_2 by (by intros [? ?]). cbn [negb]. unfold set_client. rewrite <-Hu. apply wp_bind, wp_bind, wp_modify_hub, wp_bind,
        wp_modify_hub, wp_modify_hub, Hend; try done.
      - by rewrite bool_decide_eq_true_2.
      - intros q Hq. rewrite Hnil in Hq. by apply elem_of_nil in Hq. }
  rewrite bool_decide_eq_true_2 by eauto. cbn [negb].
  apply wp_bind. unfold set_client, multiTerminalLoginChecker. rewrite <-Hu.
  change (AllLoginButSameTermKick =? DefalutNotKick) with false.
  change (AllLoginButSameTermKick =? PCAndOther) with false.
  change (AllLoginButSameTermKick =? AllLoginButSameTermKick) with true. cbv iota.
  destruct (decide (old = [])) as [Hnil|Hne].
  - rewrite Hnil in *. cbn [len length Z.of_nat Z.ltb].
    apply wp_bind, wp_ret, wp_bind, wp_modify_hub, wp_modify_hub, Hend; try done.
    intros q Hq. by apply elem_of_nil in Hq.
  - rewrite (proj2 (Z.ltb_lt 0 (len old))) by (unfold len; destruct old; [done|cbn; lia]).
    rewrite bool_decide_eq_false_2 in Hend by done. cbn [negb andb] in Hend.
    apply wp_bind, (wp_kick_same_terminal _ _ _ _ c); [done|by rewrite <-Hu, Hl| |done|].
    + intros q Hq. rewrite Hold, on_platform_eq, Hl in Hq.
      apply list_elem_of_filter in Hq as [_ Hq]. destruct (Hok _ _ Hl) as [_ Hown].
      destruct (Hown q Hq) as (c' & ? & _). eauto.
    + rewrite <-Hu. intros h1 r1 Hk Hc Hcl Hcn Hun. apply wp_bind, wp_modify_hub, wp_modify_hub, Hend; try done.
      * cbn. by rewrite Hc.
      * cbn. by rewrite Hcn.
Qed.
End Register.

Lemma UserMap_Set_eq (m : UserMap) u p :
  UserMap_Set m u p = <[u := default [] (m !! u) ++ [p]]> m.
Proof. unfold UserMap_Set. by destruct (m !! u). Qed.

Lemma UserMap_Set_size (m : UserMap) u p :
  Z.of_nat (size (UserMap_Set m u p)) =
  Z.of_nat (size m) + (if bool_decide (m !! u = None) then 1 else 0).
Proof.
  rewrite UserMap_Set_eq. destruct (m !! u) as [l|] eqn:E.
  - rewrite map_size_insert_Some by eauto. rewrite bool_decide_eq_false_2 by done. lia.
  - rewrite map_size_insert_None by done. rewrite bool_decide_eq_true_2 by done. lia.
Qed.

Lemma kicked_clients_lookup h u old :
  kicked_clients h u old !! u =
  match survivors h u old with [] => None | l => Some l end.
Proof.
  unfold kicked_clients. destruct (survivors h u old); [apply lookup_delete_eq|apply lookup_insert_eq].
Qed.

Lemma kicked_clients_other h u old u' : u' ≠ u → kicked_clients h u old !! u' = clients h !! u'.
Proof.
  intros. unfold kicked_clients. destruct (survivors h u old);
    [by apply lookup_delete_ne|by apply lookup_insert_ne].
Qed.

Lemma kicked_clients_size h u old :
  is_Some (clients h !! u) →
  Z.of_nat (size (kicked_clients h u old)) =
  Z.of_nat (size (clients h)) - (if kicks_all h u old then 1 else 0).
Proof.
  intros [l Hl]. unfold kicked_clients, kicks_all. destruct (survivors h u old) as [|q l'].
  - rewrite bool_decide_eq_true_2 by eauto. rewrite map_size_delete, Hl.
    assert (size (clients h) ≠ 0%nat); [|lia].
    intros Hz%map_size_empty_iff. rewrite Hz in Hl. by rewrite lookup_empty in Hl.
  - rewrite bool_decide_eq_false_2 by (by intros [_ ?]). rewrite map_size_insert_Some by eauto. lia.
Qed.

Section RegisterTheorems.
Context {R : Type} `{RedisLaws R} `{ToolsLaws} `{MapRange}.
Context (Encode : Resp → string + error) (Compress : string → string + error).
Context (WriteMessage : ptr → string → option error).
Context (nodes : list string + error) (self : string).
Abbreviation registerClient :=
  (registerClient (R:=R) AllLoginButSameTermKick Encode Compress WriteMessage nodes self).

(** C2: under the policy of one connection per platform,
    registering a connection ends (if the queue has room for the kicked ones)
    with that connection as the only one of its user on its platform; the
    connections it replaces are closed, and other users keep theirs. *)
Theorem registerClient_single_terminal p h r c :
  hub_ok h → heap h !! p = Some c →
  len (unregisterChan h) + len (on_platform h (Client_UserID c) (Client_PlatformID c)) ≤ channel_cap →
  let '(res, (h', _)) := registerClient p (h, r) in
  res = Ok () ∧
  UserMap_Get (heap h') (clients h') (Client_UserID c) (Client_PlatformID c) = ([p], true, true) ∧
  (∀ q, q ∈ on_platform h (Client_UserID c) (Client_PlatformID c) →
     Client_closed (client_at (heap h') q) = true) ∧
  (∀ u', u' ≠ Client_UserID c → clients h' !! u' = clients h !! u').
Proof.
  intros Hok Hp Hcap.
  assert (wp (registerClient p) (λ res w', res = Ok () ∧
    UserMap_Get (heap w'.1) (clients w'.1) (Client_UserID c) (Client_PlatformID c) = ([p], true, true) ∧
    (∀ q, q ∈ on_platform h (Client_UserID c) (Client_PlatformID c) →
       Client_closed (client_at (heap w'.1) q) = true) ∧
    (∀ u', u' ≠ Client_UserID c → clients w'.1 !! u' = clients h !! u')) (h, r)) as Hwp.
  2:{ unfold wp in Hwp. by destruct (registerClient p (h, r)) as [res [h' r']]. }
  eapply wp_registerClient; [done|done|done|done|done|]. cbn. intros h' r' Hk Hc Hcl _ _.
  split; [done|]. rewrite UserMap_Set_eq in Hc. set (m := if bool_decide _ then _ else _) in Hc.
  assert (filter (λ q, Client_PlatformID (client_at (heap h) q) = Client_PlatformID c)
    (default [] (m !! Client_UserID c)) = []) as Hm.
  { unfold m. case_bool_decide as Hnil; [by rewrite <-on_platform_eq|].
    rewrite kicked_clients_lookup. apply list_filter_none. intros q Hq.
    apply (survivors_not_on_platform h (Client_UserID c)).
    by destruct (survivors h (Client_UserID c) _). }
  split_and!.
  - rewrite UserMap_Get_eq, on_platform_eq, Hc, lookup_insert_eq.
    change (default [] (Some ?l)) with l.
    rewrite (list_filter_iff _ (λ q, Client_PlatformID (client_at (heap h) q) = Client_PlatformID c))
      by (intros q; by rewrite (client_at_ident (heap h))).
    rewrite filter_app, Hm, filter_cons_True by (by rewrite (client_at_some _ _ _ Hp)).
    rewrite bool_decide_eq_true_2 by eauto. done.
  - done.
  - intros u' Hu'. rewrite Hc, lookup_insert_ne by done. unfold m.
    case_bool_decide; [done|]. by apply kicked_clients_other.
Qed.

(** The number of users online follows the number of users
    with a connection, except that each login that replaces all the
    connections of its user makes the counter one too small. *)
Theorem registerClient_count_drift p h r c :
  hub_ok h → heap h !! p = Some c →
  len (unregisterChan h) + len (on_platform h (Client_UserID c) (Client_PlatformID c)) ≤ channel_cap →
  - 2 ^ 62 < onlineUserNum h < 2 ^ 62 →
  let '(_, (h', _)) := registerClient p (h, r) in
  onlineUserNum h' - Z.of_nat (size (clients h')) =
  onlineUserNum h - Z.of_nat (size (clients h)) -
    (if bool_decide (on_platform h (Client_UserID c) (Client_PlatformID c) ≠ []) &&
        kicks_all h (Client_UserID c) (on_platform h (Client_UserID c) (Client_PlatformID c))
     then 1 else 0).
Proof.
  intros Hok Hp Hcap Hn.
  assert (wp (registerClient p) (λ _ w',
    onlineUserNum w'.1 - Z.of_nat (size (clients w'.1)) =
    onlineUserNum h - Z.of_nat (size (clients h)) -
    (if bool_decide (on_platform h (Client_UserID c) (Client_PlatformID c) ≠ []) &&
        kicks_all h (Client_UserID c) (on_platform h (Client_UserID c) (Client_PlatformID c))
     then 1 else 0)) (h, r)) as Hwp.
  2:{ unfold wp in Hwp. by destruct (registerClient p (h, r)) as [res [h' r']]. }
  eapply wp_registerClient; [done|done|done|done|done|]. cbn. intros h' r' _ Hc _ _ Hun.
  rewrite Hc, Hun, UserMap_Set_size.
  set (old := on_platform h (Client_UserID c) (Client_PlatformID c)).
  destruct (decide (old = [])) as [Hnil|Hne].
  - rewrite (bool_decide_eq_true_2 (old = [])) by done.
    rewrite (bool_decide_eq_false_2 (old ≠ [])) by (intros ?; done). cbn [negb andb].
    case_bool_decide; i64; lia.
  - rewrite (bool_decide_eq_false_2 (old = [])) by done.
    rewrite (bool_decide_eq_true_2 (old ≠ [])) by done. cbn [negb andb].
    assert (is_Some (clients h !! Client_UserID c)) as Hsome.
    { destruct (clients h !! Client_UserID c) as [l|] eqn:El; [by eauto|].
      destruct Hne. unfold old. by rewrite on_platform_eq, El. }
    rewrite (bool_decide_eq_false_2 (clients h !! _ = None)) by (intros E; rewrite E in Hsome; by destruct Hsome).
    rewrite kicked_clients_size by done. rewrite kicked_clients_lookup.
    assert (bool_decide (match survivors h (Client_UserID c) old with [] => None | l => Some l end
      = None) = kicks_all h (Client_UserID c) old) as ->.
    { unfold kicks_all. destruct (survivors h _ old).
      - by rewrite !bool_decide_eq_true_2.
      - rewrite !bool_decide_eq_false_2; [done|by intros [_ ?]|done]. }
    destruct (kicks_all _ _ _); i64; lia.
Qed.
End RegisterTheorems.

(** ** The event loop as a transition system *)

Section Events.
Context {R : Type} `{Redis R} `{Tools} `{MapRange}.
Context (MultiLoginPolicy wsMaxConnNum : Z).
Context (Encode : Resp → string + error) (Compress DeCompress : string → string + error).
Context (WriteMessage : ptr → string → option error) (WritePong : ptr → option error).
Context (nodes : list string + error) (self : string).
Context (GetClaimFromToken : string → Claims + error) (handshake : option error).
Context (marshal_ServerConfig : string + error).
Context (Decode : string → Req + error).
Context (Unmarshal validate : string → string → () + error) (validate_Req : Req → () + error).
Context (rpc : string → string → string + error) (Marshal : string → string + error).
Context (IsBackground_of : string → bool) (ParseError : option error → Z * string).
Context (Req_String : Req → string).

(** A connection is accepted; a connection's reader reads frames and stops;
    the loop takes from one of its three channels, whichever it likes. *)
Inductive hub_step : Hub * R → Hub * R → Prop :=
  | step_connect ctx p w w' :
      wsHandler wsMaxConnNum Encode Compress WriteMessage GetClaimFromToken handshake
        marshal_ServerConfig ctx w = (Ok p, w') → hub_step w w'
  | step_read p fs w w' :
      readMessage Encode Compress DeCompress WriteMessage WritePong Decode Unmarshal validate
        validate_Req rpc Marshal IsBackground_of ParseError Req_String p fs w = (Ok (), w') →
      hub_step w w'
  | step_register w w' :
      registerChan w.1 ≠ [] →
      loop_register MultiLoginPolicy Encode Compress WriteMessage nodes self w = (Ok (), w') →
      hub_step w w'
  | step_unregister w w' :
      unregisterChan w.1 ≠ [] → loop_unregister w = (Ok (), w') → hub_step w w'
  | step_kick w w' :
      kickHandlerChan w.1 ≠ [] →
      loop_kick MultiLoginPolicy Encode Compress WriteMessage w = (Ok (), w') → hub_step w w'.
End Events.

Definition hub_empty : Hub := mkHub ∅ ∅ [] [] [] [] 0 0 [] [].

(** ** An interleaving of five events

    Alice connects and her connection breaks at once; the loop takes her
    connection first from the queue of the closed ones, then from that of the
    new ones; Bob's connection reuses the object. *)

Module Race.
#[local] Existing Instances model_tools model_tools_laws map_order.

Definition ctx (user token : string) : UserConnContext :=
  mkUserConnContext {[ WsUserID := user; Key_Token := token; Key_PlatformID := "1" ]} ∅ user "".

Definition claim (token : string) : Claims + error :=
  if bool_decide (token = "ta") then inl (mkClaims "alice" 1 0) else inl (mkClaims "bob" 1 0).

Definition tokens : mem_redis :=
  mkRedis ∅ ∅ {[ tokenKey "alice" 1 := {[ "ta" := "0" ]}; tokenKey "bob" 1 := {[ "tb" := "0" ]} ]}.

#[export] Existing Instances model_tools.

Definition encode (r : Resp) : string + error := inl (Resp_Data r).
Definition compress (s : string) : string + error := inl s.
Definition write (_ : ptr) (_ : string) : option error := None.
Definition no_req (_ : string) : Req + error := inr (Bare ErrInternalServer).
Definition accept (_ _ : string) : () + error := inl ().
Definition accept_req (_ : Req) : () + error := inl ().
Definition answer (_ _ : string) : string + error := inl "".
Definition code (_ : option error) : Z * string := (0, "").

Definition step : Hub * mem_redis → Hub * mem_redis → Prop :=
  hub_step AllLoginButSameTermKick 10 encode compress compress write (λ _, None) (inl []) "" claim
    None (inl "") no_req accept accept accept_req answer compress (λ _, false) code (λ _, "").

Definition connect (user token : string) : M (Hub * mem_redis) ptr :=
  wsHandler 10 encode compress write claim None (inl "") (ctx user token).
Definition break (p : ptr) : M (Hub * mem_redis) () :=
  readMessage encode compress compress write (λ _, None) no_req accept accept accept_req answer
    compress (λ _, false) code (λ _, "") p [ReadError (Bare ErrInternalServer)].
Definition register : M (Hub * mem_redis) () :=
  loop_register AllLoginButSameTermKick encode compress write (inl []) "".

Definition w0 : Hub * mem_redis := (hub_empty, tokens).
Definition w1 : Hub * mem_redis := Eval vm_compute in (connect "alice" "ta" w0).2.
Definition w2 : Hub * mem_redis := Eval vm_compute in (break 1 w1).2.
Definition w3 : Hub * mem_redis := Eval vm_compute in (loop_unregister w2).2.
Definition w4 : Hub * mem_redis := Eval vm_compute in (register w3).2.
Definition w5 : Hub * mem_redis := Eval vm_compute in (connect "bob" "tb" w4).2.
End Race.
Import Race.

(** From the empty hub the events above lead to a state in which
    the entry of the user alice holds the connection of the user bob: what is
    pushed to alice is written to bob's connection. *)
Theorem misdelivery_reachable :
  ∃ w : Hub * mem_redis, rtc Race.step (hub_empty, Race.tokens) w ∧
    clients w.1 !! "alice" = Some [1%positive] ∧
    Client_UserID (client_at (heap w.1) 1) = "bob" ∧
    let pushed := SuperGroupOnlineBatchPushOneMsg Race.encode Race.compress Race.write
      (λ _, inl "hello alice") "op" MsgData_zero ["alice"] w in
    written pushed.2.1 = written w.1 ++ [(1%positive, "hello alice")].
Proof.
  exists Race.w5. split; [|by vm_compute].
  apply rtc_l with Race.w1.
  { eapply step_connect with (ctx := Race.ctx "alice" "ta") (p := 1%positive). by vm_compute. }
  apply rtc_l with Race.w2.
  { eapply step_read with (p := 1%positive) (fs := [ReadError (Bare ErrInternalServer)]). by vm_compute. }
  apply rtc_l with Race.w3; [by apply step_unregister; vm_compute|].
  apply rtc_l with Race.w4; [by apply step_register; vm_compute|].
  apply rtc_once. eapply step_connect with (ctx := Race.ctx "bob" "tb") (p := 1%positive). by vm_compute.
Qed.

(** ** Unregistration, admission and requests *)

Section Unregister.
Context {R : Type}.

Lemma UserMap_delete_size h u a :
  hub_ok h →
  Z.of_nat (size (UserMap_delete (heap h) (clients h) u a).1) =
  Z.of_nat (size (clients h)) - (if (UserMap_delete (heap h) (clients h) u a).2 then 1 else 0).
Proof.
  intros Hok. unfold UserMap_delete, UserMap_keep.
  destruct (clients h !! u) as [l|] eqn:Hl; [|cbn; lia].
  destruct (len _ =? 0); cbn [fst snd].
  - rewrite map_size_delete, Hl. assert (size (clients h) ≠ 0%nat); [|lia].
    intros Hz%map_size_empty_iff. rewrite Hz in Hl. by rewrite lookup_empty in Hl.
  - rewrite map_size_insert_Some by eauto. lia.
Qed.

(** The hub [h'] after [p], the connection [c], was unregistered in [h]. *)
Definition unregistered (h : Hub) (p : ptr) (c : Client) (h' : Hub) : Prop :=
  onlineUserNum h' - Z.of_nat (size (clients h')) = onlineUserNum h - Z.of_nat (size (clients h)) ∧
  onlineUserConnNum h' = onlineUserConnNum h - 1 ∧
  clientPool h' = clientPool h ++ [p] ∧
  (∀ q, q ∈ default [] (clients h' !! Client_UserID c) ↔
     q ∈ default [] (clients h !! Client_UserID c) ∧ addr (client_at (heap h) q) ≠ addr c) ∧
  (∀ u, u ≠ Client_UserID c → clients h' !! u = clients h !! u).

(** Unregistering a connection takes every connection of its user
    with its address out of the map, keeps the user counter in step with the
    map, lowers the connection counter by one and returns the object to the
    pool. *)
Theorem unregisterClient_spec p h r c :
  hub_ok h → heap h !! p = Some c →
  - 2 ^ 62 < onlineUserNum h < 2 ^ 62 → - 2 ^ 62 < onlineUserConnNum h < 2 ^ 62 →
  let '(res, (h', r')) := unregisterClient (R:=R) p (h, r) in
  res = Ok () ∧ r' = r ∧ unregistered h p c h'.
Proof.
  intros Hok Hp Hn Hc.
  assert (∀ q, q ∈ default [] ((UserMap_delete (heap h) (clients h) (Client_UserID c) (addr c)).1 !! Client_UserID c) ↔
     q ∈ default [] (clients h !! Client_UserID c) ∧ addr (client_at (heap h) q) ≠ addr c) as Hin.
  { intros q. unfold UserMap_delete, UserMap_keep. destruct (clients h !! Client_UserID c) as [l|] eqn:Hl.
    - destruct (len (filter _ l) =? 0) eqn:Hlen; cbn [fst].
      + rewrite lookup_delete_eq. apply Z.eqb_eq in Hlen. unfold len in Hlen.
        change (default [] (Some ?l)) with l. cbn [default from_option].
        transitivity (q ∈ filter (λ p, addr (client_at (heap h) p) ≠ addr c) l).
        * destruct (filter _ l); [done|]. cbn in Hlen. lia.
        * rewrite list_elem_of_filter. tauto.
      + rewrite lookup_insert_eq. change (default [] (Some ?l)) with l.
        rewrite list_elem_of_filter. tauto.
    - cbn [fst]. rewrite Hl. cbn. rewrite elem_of_nil. tauto. }
  assert (∀ u, u ≠ Client_UserID c →
    (UserMap_delete (heap h) (clients h) (Client_UserID c) (addr c)).1 !! u = clients h !! u) as Hother.
  { intros u Hu. unfold UserMap_delete, UserMap_keep. destruct (clients h !! Client_UserID c); [|done].
    destruct (_ =? 0); [by apply lookup_delete_ne|by apply lookup_insert_ne]. }
  pose proof (UserMap_delete_size h (Client_UserID c) (addr c) Hok) as Hsize.
  destruct (UserMap_delete (heap h) (clients h) (Client_UserID c) (addr c)) as [um b] eqn:Hum.
  cbn [fst snd] in *.
  assert (wp (unregisterClient (R:=R) p) (λ res w', res = Ok () ∧ w'.2 = r ∧ unregistered h p c w'.1) (h, r)) as Hwp;
    [|by unfold wp in Hwp; destruct (unregisterClient p (h, r)) as [? [??]]].
  apply wp_bind, (wp_read_client _ _ _ c); [done|]. apply wp_bind, wp_get_hub. rewrite Hum.
  apply wp_bind, wp_modify_hub, wp_bind.
  assert (∀ h1, heap h1 = heap h → clients h1 = um → clientPool h1 = clientPool h →
    onlineUserConnNum h1 = onlineUserConnNum h →
    onlineUserNum h1 = onlineUserNum h - (if b then 1 else 0) →
    wp (_ ← on_fst (modify (add_onlineUserConnNum (-1)));
        _ ← SetUserOnlineStatus p Offline;
        on_fst (modify (λ h, set_clientPool (clientPool h ++ [p]) h)))
      (λ res w', res = Ok () ∧ w'.2 = r ∧ unregistered h p c w'.1) (h1, r)) as Hrest.
  { intros h1 Hh1 Hcl Hpool Hcn Hun. apply wp_bind, wp_modify_hub, wp_bind, wp_bind,
      (wp_read_client _ _ _ c); [by cbn; rewrite Hh1|].
    apply wp_modify_hub, wp_modify_hub. split; [done|]. split; [done|]. unfold unregistered. cbn.
    rewrite Hcl, Hpool, Hcn, Hun. split_and!; try done; i64; lia. }
  destruct b; [apply wp_modify_hub|apply wp_ret]; apply Hrest; cbn; try done; i64; lia.
Qed.
End Unregister.

Section Admission.
Context {R : Type} `{RedisLaws R} `{ToolsLaws} `{MapRange}.
Context (wsMaxConnNum : Z).
Context (Encode : Resp → string + error) (Compress : string → string + error).
Context (WriteMessage : ptr → string → option error).
Context (GetClaimFromToken : string → Claims + error) (handshake : option error).
Context (marshal_ServerConfig : string + error).

(** The request may become a connection. *)
Definition admissible (h : Hub) (r : R) (ctx : UserConnContext) : Prop :=
  onlineUserConnNum h < wsMaxConnNum ∧
  ∃ platformID claim, ParseInt (GetPlatformID ctx) = Some platformID ∧
    GetToken ctx ≠ "" ∧ GetUserID ctx ≠ "" ∧
    GetClaimFromToken (GetToken ctx) = inl claim ∧
    Claims_UserID claim = GetUserID ctx ∧ Claims_PlatformID claim = platformID ∧
    token_table r (GetUserID ctx) platformID !! GetToken ctx = Some NormalToken.

Lemma wp_admit_conn ctx h r (Q : outcome string → Hub * R → Prop) :
  (admissible h r ctx → Q (Ok (GetToken ctx)) (h, r)) →
  (∀ e, Q (Err e) (h, r)) →
  wp (admit_conn wsMaxConnNum GetClaimFromToken ctx) Q (h, r).
Proof.
  intros Hok He. unfold admit_conn, Query. apply wp_bind, wp_get_hub.
  apply wp_bind, wp_guard; [done|]. intros Hmax%Z.leb_gt.
  apply wp_bind, wp_guard; [done|]. intros Htok%negb_false_iff%negb_true_iff%bool_decide_eq_false.
  apply wp_bind, wp_guard; [done|]. intros Huser%negb_false_iff%negb_true_iff%bool_decide_eq_false.
  apply wp_bind, wp_guard; [done|]. intros _.
  destruct (ParseInt _) as [platformID|] eqn:Hpf; [|by apply wp_fail].
  apply wp_bind, wp_lift; [|done]. intros [] Hverify. unfold WsVerifyToken in Hverify.
  destruct (GetClaimFromToken _) as [claim|] eqn:Hclaim; [|done].
  destruct (bool_decide_reflect (Claims_UserID claim = query_get ctx WsUserID)) as [Hu|]; [|done].
  destruct (Z.eqb_spec (Claims_PlatformID claim) platformID) as [Hp|]; [|done].
  apply wp_bind, wp_on_snd, wp_GetTokensWithoutError; cbn [fst snd]; [|by intros].
  destruct (_ !! _) as [v|] eqn:Hv; [|by apply wp_fail].
  destruct (Z.eqb_spec v NormalToken) as [->|].
  - apply wp_ret, Hok. split; [done|]. by exists platformID, claim.
  - destruct (v =? KickedToken); by apply wp_fail.
Qed.

(** C26: a connection reaches the event loop only if the hub has room, the
    request names a user, a platform and a token, the token verifies for that
    user and platform, and the cache has it in the normal state; its client is
    then the user's, open, with that token.  If the request is refused, the
    hub stays as it was. *)
Theorem wsHandler_admits ctx h r :
  let '(res, (h', r')) := wsHandler wsMaxConnNum Encode Compress WriteMessage GetClaimFromToken
    handshake marshal_ServerConfig ctx (h, r) in
  r' = r ∧
  match res with
  | Ok p => admissible h r ctx ∧ registerChan h' = registerChan h ++ [p] ∧
      Client_UserID (client_at (heap h') p) = GetUserID ctx ∧
      Client_token (client_at (heap h') p) = GetToken ctx ∧
      clients h' = clients h ∧ onlineUserConnNum h' = onlineUserConnNum h
  | Err _ => h' = h
  | Panic => False
  | OutOfFuel => channel_cap ≤ len (registerChan h)
  end.
Proof.
  set (P := λ (res : outcome ptr) (w' : Hub * R), w'.2 = r ∧
    match res with
    | Ok p => admissible h r ctx ∧ registerChan w'.1 = registerChan h ++ [p] ∧
        Client_UserID (client_at (heap w'.1) p) = GetUserID ctx ∧
        Client_token (client_at (heap w'.1) p) = GetToken ctx ∧
        clients w'.1 = clients h ∧ onlineUserConnNum w'.1 = onlineUserConnNum h
    | Err _ => w'.1 = h
    | Panic => False
    | OutOfFuel => channel_cap ≤ len (registerChan h)
    end).
  assert (wp (wsHandler wsMaxConnNum Encode Compress WriteMessage GetClaimFromToken
    handshake marshal_ServerConfig ctx) P (h, r)) as Hwp.
  2:{ unfold wp in Hwp. by destruct (wsHandler _ _ _ _ _ _ _ _ (h, r)) as [res [h' r']]. }
  apply wp_bind, wp_admit_conn; [|done]. intros Hadm.
  apply wp_bind. destruct handshake as [e|]; [by apply wp_fail|]. apply wp_ret. cbv zeta.
  assert (∀ p h1, registerChan h1 = registerChan h → clients h1 = clients h →
    onlineUserConnNum h1 = onlineUserConnNum h → ∀ b,
    wp (_ ← ResetClient p ctx (GetBackground ctx) b (GetToken ctx);
        _ ← try (ServerConfigMessage Encode Compress WriteMessage marshal_ServerConfig p (GetOperationID ctx));
        _ ← send_register p;
        mret p) P (h1, r)) as Hrest.
  { intros p h1 Hreg Hcl Hcn b. apply wp_bind, wp_modify_hub.
    set (c := mkClient _ _ _ _ _ _ _ _). set (h2 := set_heap _ h1).
    assert (heap h2 !! p = Some c) as Hp by (cbn; by rewrite lookup_insert_eq).
    assert (∀ h3, quiet h2 h3 → wp (_ ← send_register p; mret p) P (h3, r)) as Hsend.
    { intros h3 Hq. apply wp_bind, wp_bind, wp_get_hub.
      assert (registerChan h3 = registerChan h) as Hr3 by (by rewrite (quiet_register _ _ Hq)).
      rewrite Hr3. destruct (Z.ltb_spec (len (registerChan h)) channel_cap); [|done].
      apply wp_modify_hub, wp_ret. unfold P. cbn -[client_at]. split; [done|].
      destruct (heap_keeps_ident _ _ _ _ (quiet_heap _ _ Hq) Hp) as (c3 & Hc3 & Hid).
      injection Hid as _ Hu _ Ht. rewrite (client_at_some _ _ _ Hc3).
      rewrite (quiet_clients _ _ Hq), (quiet_connNum _ _ Hq), Hu, Ht. by split_and!. }
    apply wp_bind, wp_try. unfold ServerConfigMessage. apply wp_bind, wp_lift; [|by intros; apply Hsend].
    intros data _. apply (wp_writeBinaryMsg _ _ _ _ _ _ _ c); [done|].
    intros res h3 Hq _ _ _ _. destruct res; by apply Hsend. }
  apply wp_bind. unfold pool_get. apply wp_bind, wp_get_hub.
  destruct (clientPool h) as [|p rest]; [by apply wp_ret, Hrest|].
  apply wp_bind, wp_modify_hub, wp_ret. by apply Hrest.
Qed.
End Admission.
