(* ===== verification/RequestProofs.v ===== *)
(** * Correctness of requests and pushes of the gateway

    What a connection's reader can cause: calls in its own user's name, and its
    own end; and what a push to users reports and writes. *)

From S2P Require Import Prelude.
From S2P Require Import Constants.
From S2P Require Import MsgTypes.
From S2P Require Import MsgProcessor.
From S2P Require Import MsgDoc.
From S2P Require Import Tools.
From S2P Require Import Redis.
From S2P Require Import MsgCache.
From S2P Require Import Auth.
From S2P Require Import Gateway.
From S2P Require Import GatewayServer.
From S2P Require Import HubProofs.
From stdpp Require Import options.
#[local] Set Default Proof Using "Type*".

#[local] Open Scope Z_scope.

(** What reading frames for the user [u] may change. *)
Record reader_effect (u : string) (h h' : Hub) : Prop := {
  reader_clients : clients h' = clients h;
  reader_register : registerChan h' = registerChan h;
  reader_unregister : unregisterChan h' = unregisterChan h;
  reader_userNum : onlineUserNum h' = onlineUserNum h;
  reader_connNum : onlineUserConnNum h' = onlineUserConnNum h;
  reader_heap : heap_keeps (heap h) (heap h');
  reader_closed : ∀ p, Client_closed (client_at (heap h') p) = Client_closed (client_at (heap h) p);
  reader_calls : ∃ cs, calls h' = calls h ++ cs ∧ ∀ x, x ∈ cs → ∃ m d, x = RpcCall m u d }.

#[export] Instance reader_effect_preorder u : PreOrder (reader_effect u).
Proof.
  split.
  - intros h. split; try done. exists []. rewrite app_nil_r. split; [done|].
    intros x Hx. by apply elem_of_nil in Hx.
  - intros h1 h2 h3 H1 H2. split.
    all: try (destruct H1, H2; congruence).
    destruct (reader_calls _ _ _ H1) as (c1 & E1 & F1), (reader_calls _ _ _ H2) as (c2 & E2 & F2).
    exists (c1 ++ c2). rewrite E2, E1, app_assoc. split; [done|].
    intros x [?|?]%elem_of_app; auto.
Qed.

Lemma reader_effect_call u m d h : reader_effect u h (add_call (RpcCall m u d) h).
Proof.
  split; try done. exists [RpcCall m u d]. split; [done|].
  intros x ->%list_elem_of_singleton. eauto.
Qed.

Lemma reader_effect_write u p buf h : reader_effect u h (add_written p buf h).
Proof.
  split; try done. exists []. rewrite app_nil_r. split; [done|].
  intros x Hx. by apply elem_of_nil in Hx.
Qed.

Lemma reader_effect_update u p f h c :
  heap h !! p = Some c → ident (f c) = ident c → Client_closed (f c) = Client_closed c →
  reader_effect u h (set_heap (<[p := f c]> (heap h)) h).
Proof.
  intros Hp Hid Hc. split; try done; cbn.
  - intros q. destruct (decide (q = p)) as [->|].
    + by rewrite lookup_insert_eq, Hp; cbn; rewrite Hid.
    + by rewrite lookup_insert_ne.
  - intros q. unfold client_at. destruct (decide (q = p)) as [->|].
    + by rewrite lookup_insert_eq, Hp.
    + by rewrite lookup_insert_ne.
  - exists []. rewrite app_nil_r. split; [done|]. intros x Hx. by apply elem_of_nil in Hx.
Qed.

Section Reader.
Context {R : Type} `{Redis R}.
Context (Encode : Resp → string + error) (Compress DeCompress : string → string + error).
Context (WriteMessage : ptr → string → option error) (WritePong : ptr → option error).
Context (Decode : string → Req + error).
Context (Unmarshal validate : string → string → () + error) (validate_Req : Req → () + error).
Context (rpc : string → string → string + error) (Marshal : string → string + error).
Context (IsBackground_of : string → bool) (ParseError : option error → Z * string).
Context (Req_String : Req → string).
Abbreviation handleMessage := (handleMessage (R:=R) Encode Compress DeCompress WriteMessage Decode
  Unmarshal validate validate_Req rpc Marshal IsBackground_of ParseError Req_String).
Abbreviation read_frame := (read_frame (R:=R) Encode Compress DeCompress WriteMessage WritePong Decode
  Unmarshal validate validate_Req rpc Marshal IsBackground_of ParseError Req_String).
Abbreviation read_frames := (read_frames (R:=R) Encode Compress DeCompress WriteMessage WritePong Decode
  Unmarshal validate validate_Req rpc Marshal IsBackground_of ParseError Req_String).
Abbreviation readMessage := (readMessage (R:=R) Encode Compress DeCompress WriteMessage WritePong Decode
  Unmarshal validate validate_Req rpc Marshal IsBackground_of ParseError Req_String).

(** A computation that ends, well or with an error, having changed no more
    than a reader may. *)
Definition reads {A} (u : string) (m : M (Hub * R) A) (h : Hub) (r : R) : Prop :=
  wp m (λ res w', (∃ x, res = of_sum x) ∧ w'.2 = r ∧ reader_effect u h w'.1) (h, r).

Lemma reads_mono {A} u (m : M (Hub * R) A) h r (Q : outcome A → Hub * R → Prop) :
  reads u m h r → (∀ x h', reader_effect u h h' → Q (of_sum x) (h', r)) → wp m Q (h, r).
Proof.
  intros Hm HQ. eapply wp_mono; [|exact Hm]. intros res [h' r'] ([x ->] & Hr & He). cbn in *.
  subst. by apply HQ.
Qed.

Lemma reads_ok {A} u (a : A) h r : reads u (mret a) h r.
Proof. split; [by exists (inl a)|done]. Qed.

Lemma reads_fail {A} u e h r : reads u (fail (A:=A) e) h r.
Proof. split; [by exists (inr e)|done]. Qed.

Lemma reads_lift {A} u (s : A + error) h r : reads u (lift s) h r.
Proof. split; [by exists s|done]. Qed.

Lemma reads_bind {A B} u (m : M (Hub * R) A) (k : A → M (Hub * R) B) h r :
  reads u m h r → (∀ a h', reader_effect u h h' → reads u (k a) h' r) → reads u (m ≫= k) h r.
Proof.
  intros Hm Hk. apply wp_bind. eapply reads_mono; [exact Hm|]. intros [a|e] h' He; cbn.
  - eapply wp_mono; [|by apply Hk]. intros res w' (? & ? & ?). split_and!; [done..|by etrans].
  - split_and!; [by exists (inr e)|done..].
Qed.

Lemma reads_try {A} u (m : M (Hub * R) A) h r : reads u m h r → reads u (try m) h r.
Proof.
  intros Hm. apply wp_try. eapply reads_mono; [exact Hm|].
  intros [a|e] h' He; split_and!; try done; [by exists (inl (inl a))|by exists (inl (inr e))].
Qed.

Lemma reads_hub u f h r : reader_effect u h (f h) → reads u (on_fst (modify f)) h r.
Proof. intros He. apply wp_modify_hub. split_and!; [by exists (inl ())|done..]. Qed.

Lemma reads_update u p f c h r :
  heap h !! p = Some c → ident (f c) = ident c → Client_closed (f c) = Client_closed c →
  reads u (update_client p f) h r.
Proof.
  intros Hp Hid Hc. apply (wp_update_client _ _ _ _ c); [done|].
  split_and!; [by exists (inl ())|done|by apply reader_effect_update].
Qed.

Lemma reads_client {A} u p h r c (k : Client → M (Hub * R) A) :
  heap h !! p = Some c → reads u (k c) h r → reads u (c' ← read_client p; k c') h r.
Proof. intros Hp Hk. by apply wp_bind, (wp_read_client _ _ _ c). Qed.

Lemma reads_writeBinaryMsg u p resp c h r :
  heap h !! p = Some c → reads u (writeBinaryMsg (R:=R) Encode Compress WriteMessage p resp) h r.
Proof.
  intros Hp. apply (reads_client _ _ _ _ c); [done|]. destruct (Client_closed c); [apply reads_ok|].
  assert (∀ (s : string + error) h, reads u (wrap_error (lift s)) h r) as Hwrap.
  { intros s h1. apply wp_wrap_error, wp_lift; intros x _; split_and!; try done;
      [by exists (inl x)|by exists (inr (WrapErr "" x))]. }
  apply reads_bind; [apply Hwrap|]. intros buf h1 _.
  apply reads_bind; [destruct (Client_IsCompress c); [apply Hwrap|apply reads_ok]|].
  intros buf' h2 _. apply reads_bind; [apply reads_hub, reader_effect_write|]. intros _ h3 _.
  destruct (WriteMessage p buf'); [apply reads_fail|apply reads_ok].
Qed.

Lemma still_there u p c h h' :
  heap h !! p = Some c → reader_effect u h h' →
  ∃ c', heap h' !! p = Some c' ∧ Client_UserID c' = Client_UserID c ∧ Client_closed c' = Client_closed c.
Proof.
  intros Hp He. destruct (heap_keeps_ident _ _ _ _ (reader_heap _ _ _ He) Hp) as (c' & Hc' & Hid).
  exists c'. split; [done|]. pose proof (reader_closed _ _ _ He p) as Hcl.
  rewrite (client_at_some _ _ _ Hc'), (client_at_some _ _ _ Hp) in Hcl.
  injection Hid. done.
Qed.

Lemma reads_grpc_call u method check data h r :
  Req_SendID data = u → reads u (grpc_call Unmarshal rpc Marshal method check data) h r.
Proof.
  intros <-. apply reads_bind; [apply reads_lift|]. intros _ h1 _.
  apply reads_bind; [apply reads_lift|]. intros _ h2 _.
  apply reads_bind; [apply reads_hub, reader_effect_call|]. intros _ h3 _.
  apply reads_bind; [apply reads_lift|]. intros resp h4 _. apply reads_lift.
Qed.

Lemma reads_dispatch u p req m c h r :
  Req_SendID req = u → heap h !! p = Some c →
  dispatch Unmarshal validate validate_Req rpc Marshal IsBackground_of p req = Some m → reads u m h r.
Proof.
  intros Hu Hp. unfold dispatch. repeat case_match; intros [=<-]; try (by apply reads_grpc_call).
  apply reads_bind.
  { apply reads_bind; [apply reads_lift|]. intros _ h1 _. apply reads_bind; [apply reads_lift|].
    intros _ h2 _. apply reads_ok. }
  intros b h1 He. destruct (still_there _ _ _ _ _ Hp He) as (c1 & Hc1 & _).
  apply reads_bind; [by apply (reads_update _ _ _ c1)|]. intros _ h2 _. apply reads_ok.
Qed.

Lemma reads_handleMessage p message c h r :
  heap h !! p = Some c → reads (Client_UserID c) (handleMessage p message) h r.
Proof.
  intros Hp. apply (reads_client _ _ _ _ c); [done|].
  assert (∀ {A} (s : A + error) h, reads (Client_UserID c) (wrap_error (lift s)) h r) as Hwrap.
  { intros A s h1. apply wp_wrap_error, wp_lift; intros x _; split_and!; try done;
      [by exists (inl x)|by exists (inr (WrapErr "" x))]. }
  apply reads_bind; [destruct (Client_IsCompress c); [apply Hwrap|apply reads_ok]|].
  intros msg h1 He1. apply reads_bind; [apply Hwrap|]. intros req h2 He2.
  destruct (bool_decide_reflect (Req_SendID req = Client_UserID c)) as [Hid|]; cbn [negb guard].
  2:{ apply wp_bind, wp_fail. split_and!; [by eexists (inr _)|done|done]. }
  apply reads_bind; [apply reads_ok|]. intros _ h3 He3.
  assert (reader_effect (Client_UserID c) h h3) as He by (etrans; [|exact He3]; by etrans).
  destruct (still_there _ _ _ _ _ Hp He) as (c3 & Hc3 & _).
  destruct (dispatch _ _ _ _ _ _ p req) as [m|] eqn:Hd; [|apply reads_fail].
  apply reads_bind; [by eapply reads_try, reads_dispatch|]. intros res h4 He4.
  destruct (still_there _ _ _ _ _ Hc3 He4) as (c4 & Hc4 & _).
  assert (∀ err resp, reads (Client_UserID c)
    (replyMessage Encode Compress WriteMessage ParseError p req err resp) h4 r) as Hreply.
  { intros err resp. unfold replyMessage. destruct (ParseError err).
    apply reads_bind; [by eapply reads_try, reads_writeBinaryMsg|]. intros _ h5 _.
    destruct (_ =? _); [apply reads_fail|apply reads_ok]. }
  by destruct res.
Qed.

(** A computation that, moreover, always returns a value. *)
Definition reads_ok_only {A} (u : string) (m : M (Hub * R) A) (h : Hub) (r : R) : Prop :=
  wp m (λ res w', (∃ a, res = Ok a) ∧ w'.2 = r ∧ reader_effect u h w'.1) (h, r).

Lemma total_ok {A} u (a : A) h r : reads_ok_only u (mret a) h r.
Proof. split; [by exists a|done]. Qed.

Lemma total_try {A} u (m : M (Hub * R) A) h r : reads u m h r → reads_ok_only u (try m) h r.
Proof.
  intros Hm. apply wp_try. eapply reads_mono; [exact Hm|].
  intros [a|e] h' He; split_and!; try done; [by exists (inl a)|by exists (inr e)].
Qed.

Lemma total_bind {A B} u (m : M (Hub * R) A) (k : A → M (Hub * R) B) h r :
  reads_ok_only u m h r → (∀ a h', reader_effect u h h' → reads_ok_only u (k a) h' r) →
  reads_ok_only u (m ≫= k) h r.
Proof.
  intros Hm Hk. apply wp_bind. eapply wp_mono; [|exact Hm].
  intros res [h' r'] ([a ->] & Hr & He). cbn in *. subst r'.
  eapply wp_mono; [|by apply Hk]. intros res w' (? & ? & ?). split_and!; [done..|by etrans].
Qed.

Lemma total_stop u p e c h r :
  heap h !! p = Some c →
  reads_ok_only u (_ ← update_client p (set_closedErr e); mret false) h r.
Proof.
  intros Hp. apply wp_bind, (wp_update_client _ _ _ _ c); [done|]. apply wp_ret.
  split_and!; [by exists false|done|by apply reader_effect_update].
Qed.

Lemma total_frame p f c h r :
  heap h !! p = Some c → reads_ok_only (Client_UserID c) (read_frame p f) h r.
Proof.
  intros Hp. destruct f as [e|mt message]; [by eapply total_stop|].
  apply wp_bind, (wp_read_client _ _ _ c); [done|].
  destruct (Client_closed c); [by eapply total_stop|].
  destruct (mt =? MessageBinary).
  { apply total_bind; [by apply total_try, reads_handleMessage|].
    intros [?|e] h1 He; [apply total_ok|].
    destruct (still_there _ _ _ _ _ Hp He) as (c1 & Hc1 & _). by eapply total_stop. }
  destruct (mt =? MessageText); [by eapply total_stop|].
  destruct (mt =? PingMessage).
  { apply total_bind; [|intros; apply total_ok].
    apply total_try, (reads_client _ _ _ _ c); [done|].
    destruct (Client_closed c); [apply reads_ok|].
    destruct (WritePong p); [apply reads_fail|apply reads_ok]. }
  destruct (mt =? CloseMessage); [by eapply total_stop|apply total_ok].
Qed.

Lemma total_frames p fs c h r :
  heap h !! p = Some c → reads_ok_only (Client_UserID c) (read_frames p fs) h r.
Proof.
  revert c h. induction fs as [|f fs IH]; intros c h Hp; [apply total_ok|].
  apply total_bind; [by apply total_frame|]. intros [] h1 He; [|apply total_ok].
  destruct (still_there _ _ _ _ _ Hp He) as (c1 & Hc1 & <- & _). by apply IH.
Qed.

(** C36: the calls to other services that a message of a connection
    causes are made in the name of the connection's user: a request that
    names another sender is answered with an error and changes nothing. *)
Theorem handleMessage_own_user p message c h r :
  heap h !! p = Some c →
  let '(res, (h', r')) := handleMessage p message (h, r) in
  (∃ x, res = of_sum x) ∧ r' = r ∧ reader_effect (Client_UserID c) h h' ∧
  ∀ req, Client_IsCompress c = false → Decode message = inl req → Req_SendID req ≠ Client_UserID c →
    res = Err (Wrap (ErrText "exception conn userID not same to req userID") (Req_String req)) ∧ h' = h.
Proof.
  intros Hp. pose proof (reads_handleMessage p message c h r Hp) as Hr. unfold reads, wp in Hr.
  assert (∀ req, Client_IsCompress c = false → Decode message = inl req → Req_SendID req ≠ Client_UserID c →
    wp (handleMessage p message) (λ res w', w' = (h, r) ∧
      res = Err (Wrap (ErrText "exception conn userID not same to req userID") (Req_String req))) (h, r)) as Hbad.
  { intros req Hcomp Hdec Hne. apply wp_bind, (wp_read_client _ _ _ c); [done|]. rewrite Hcomp.
    apply wp_bind, wp_ret, wp_bind, wp_wrap_error, wp_lift; [|congruence]. intros req' Hreq'.
    assert (req' = req) as -> by congruence.
    rewrite bool_decide_eq_false_2 by done. by apply wp_bind, wp_fail. }
  unfold wp in Hbad. destruct (handleMessage p message (h, r)) as [res [h' r']].
  destruct Hr as (? & ? & ?). split_and!; try done. intros req Hcomp Hdec Hne.
  destruct (Hbad req Hcomp Hdec Hne) as [[=] ?]. done.
Qed.

(** C39: whatever an open connection reads, when its reader stops the
    connection is closed and has been queued exactly once to be unregistered,
    and the reader made calls only in its user's name. *)
Theorem readMessage_closes p fs c h r :
  heap h !! p = Some c → Client_closed c = false → len (unregisterChan h) < channel_cap →
  let '(res, (h', r')) := readMessage p fs (h, r) in
  res = Ok () ∧ r' = r ∧ Client_closed (client_at (heap h') p) = true ∧
  unregisterChan h' = unregisterChan h ++ [p] ∧ clients h' = clients h ∧
  ∃ cs, calls h' = calls h ++ cs ∧ ∀ x, x ∈ cs → ∃ m d, x = RpcCall m (Client_UserID c) d.
Proof.
  intros Hp Hopen Hcap.
  set (P := λ (res : outcome ()) (w' : Hub * R), res = Ok () ∧ w'.2 = r ∧
    Client_closed (client_at (heap w'.1) p) = true ∧
    unregisterChan w'.1 = unregisterChan h ++ [p] ∧ clients w'.1 = clients h ∧
    ∃ cs, calls w'.1 = calls h ++ cs ∧ ∀ x, x ∈ cs → ∃ m d, x = RpcCall m (Client_UserID c) d).
  assert (wp (readMessage p fs) P (h, r)) as Hwp.
  2:{ unfold wp in Hwp. by destruct (readMessage p fs (h, r)) as [res [h' r']]. }
  (* the connection can be closed after whatever was read *)
  assert (∀ h1, reader_effect (Client_UserID c) h h1 → wp (close p) P (h1, r)) as Hclose.
  { intros h1 He. destruct (still_there _ _ _ _ _ Hp He) as (c1 & Hc1 & _ & Hcl1).
    apply (wp_close _ _ _ c1); [done| |].
    - intros h2 Hq Hcl _ Hu _. split_and!; try done; cbn.
      + rewrite Hu by congruence. by rewrite (reader_unregister _ _ _ He).
      + by rewrite (quiet_clients _ _ Hq), (reader_clients _ _ _ He).
      + rewrite (quiet_calls _ _ Hq). apply (reader_calls _ _ _ He).
    - intros h2 Hfull. rewrite (reader_unregister _ _ _ He) in Hfull. lia. }
  (* the frames end in a value: never in an error, never in a panic *)
  pose proof (total_frames p fs c h r Hp) as Hread. unfold reads_ok_only in Hread.
  unfold readMessage, GatewayServer.readMessage. apply wp_bind. unfold wp, recover.
  unfold wp in Hread. destruct (read_frames p fs (h, r)) as [res [h1 r1]].
  destruct Hread as ([[] ->] & Hr1 & He). cbn in Hr1, He. subst r1. by apply Hclose.
Qed.
End Reader.

(** ** Pushes *)

Section Push.
Context {R : Type} `{Redis R} `{ToolsLaws}.
Context (Encode : Resp → string + error) (Compress : string → string + error).
Context (WriteMessage : ptr → string → option error).
Context (marshal_PushMessages : PushMessages → string + error).
Abbreviation SuperGroupOnlineBatchPushOneMsg :=
  (SuperGroupOnlineBatchPushOneMsg (R:=R) Encode Compress WriteMessage marshal_PushMessages).

(** A connection to which a push may write. *)
Definition reachable_conn (h : Hub) (users : list string) (p : ptr) : Prop :=
  (∃ u l, u ∈ users ∧ clients h !! u = Some l ∧ p ∈ l) ∧
  Client_closed (client_at (heap h) p) = false ∧
  ¬ (Client_IsBackground (client_at (heap h) p) = true ∧
     Client_PlatformID (client_at (heap h) p) = IOSPlatformID).

(** Between two connections: only writes to such connections were added. *)
Definition pushed (h : Hub) (users : list string) (h' : Hub) : Prop :=
  quiet h h' ∧ heap h' = heap h ∧
  ∃ ws, written h' = written h ++ ws ∧ ∀ x, x ∈ ws → reachable_conn h users x.1.

(** *** What a push writes *)

Definition write_all (ws : list (ptr * string)) (h : Hub) : Hub := foldl (λ h x, add_written x.1 x.2 h) h ws.

Lemma write_all_app ws ws' h : write_all (ws ++ ws') h = write_all ws' (write_all ws h).
Proof. apply foldl_app. Qed.
Lemma write_all_written ws h : written (write_all ws h) = written h ++ ws.
Proof.
  revert h. induction ws as [|[p b] ws IH]; intros h; [by rewrite app_nil_r|].
  change (write_all ((p, b) :: ws) h) with (write_all ws (add_written p b h)). rewrite IH. cbn. by rewrite <-app_assoc.
Qed.
Lemma write_all_same ws h : heap (write_all ws h) = heap h ∧ clients (write_all ws h) = clients h ∧ quiet h (write_all ws h).
Proof.
  revert h. induction ws as [|[p b] ws IH]; intros h; [done|].
  change (write_all ((p, b) :: ws) h) with (write_all ws (add_written p b h)). destruct (IH (add_written p b h)) as (-> & -> & Hq).
  split; [done|]. split; [done|]. etrans; [|exact Hq]. by split.
Qed.

(** The frame of a response, to an open connection. *)
Definition frame_writes (p : ptr) (c : Client) (resp : Resp) : list (ptr * string) :=
  if Client_closed c then []
  else match Encode resp with
       | inl encoded => match (if Client_IsCompress c then Compress encoded else inl encoded) with
                        | inl buf => [(p, buf)] | inr _ => [] end
       | inr _ => []
       end.
Definition push_messages (msg : MsgData) : PushMessages :=
  let m := {[ GetConversationIDByMsg msg := [msg] ]} in
  if IsNotification (GetConversationIDByMsg msg) then mkPushMessages ∅ m else mkPushMessages m ∅.
Definition in_background (c : Client) : bool := Client_IsBackground c && (Client_PlatformID c =? IOSPlatformID).
(** What is written to a connection: the message, unless the connection is closed, or an
    iOS connection in the background. *)
Definition conn_writes (op : string) (msg : MsgData) (hp : gmap ptr Client) (p : ptr) : list (ptr * string) :=
  let c := client_at hp p in
  if in_background c then []
  else match marshal_PushMessages (push_messages msg) with
       | inl data => frame_writes p c (mkResp WSPushMsg "" op 0 "" data)
       | inr _ => []
       end.
Definition push_writes (op : string) (msg : MsgData) (users : list string) (h : Hub) : list (ptr * string) :=
  users ≫= λ u, default [] (clients h !! u) ≫= conn_writes op msg (heap h).

Lemma conn_writes_open op msg h p x : x ∈ conn_writes op msg (heap h) p →
  x.1 = p ∧ Client_closed (client_at (heap h) p) = false ∧ in_background (client_at (heap h) p) = false.
Proof.
  unfold conn_writes, frame_writes. intros Hx. repeat case_match; try (by apply elem_of_nil in Hx).
  all: by apply list_elem_of_singleton in Hx as ->.
Qed.
Lemma push_writes_pushed op msg users h : pushed h users (write_all (push_writes op msg users h) h).
Proof.
  destruct (write_all_same (push_writes op msg users h) h) as (Hh & _ & Hq). split; [done|]. split; [done|].
  exists (push_writes op msg users h). split; [apply write_all_written|].
  intros x (u & Hx & Hu)%list_elem_of_bind.
  destruct (clients h !! u) as [l|] eqn:Hl; cbn in Hx; [|by apply elem_of_nil in Hx].
  apply list_elem_of_bind in Hx as (p & (-> & Ho & Hb)%conn_writes_open & Hp).
  split; [by exists u, l|]. split; [done|]. intros [Hbg Hios]. unfold in_background in Hb.
  by rewrite Hbg, Hios in Hb.
Qed.

Lemma wp_write_frame p resp h r c (Q : outcome () → Hub * R → Prop) : heap h !! p = Some c →
  (∀ res, Q (of_sum res) (write_all (frame_writes p c resp) h, r)) →
  wp (writeBinaryMsg Encode Compress WriteMessage p resp) Q (h, r).
Proof.
  intros Hp HQ. apply wp_bind, (wp_read_client _ _ _ c); [done|]. unfold frame_writes in HQ.
  destruct (Client_closed c); [apply wp_ret, (HQ (inl ()))|].
  apply wp_bind, wp_wrap_error, wp_lift; [intros e He|intros e He; rewrite He in HQ; apply (HQ (inr _))]. rewrite He in HQ.
  assert (∀ buf, (∀ res, Q (of_sum res) (add_written p buf h, r)) → wp (_ ← on_fst (modify (add_written p buf));
    match WriteMessage p buf with None => mret () | Some e => fail e end) Q (h, r)) as Hw.
  { intros buf HQ'. apply wp_bind, wp_modify_hub.
    destruct (WriteMessage p buf); [apply wp_fail, (HQ' (inr _))|apply wp_ret, (HQ' (inl ()))]. }
  destruct (Client_IsCompress c); apply wp_bind; [|by apply wp_ret, Hw].
  apply wp_wrap_error, wp_lift; [intros b Hb|intros b Hb]; rewrite Hb in HQ; [by apply Hw|apply (HQ (inr _))].
Qed.

Lemma wp_push_to_client op v msg acc p h r c (Q : outcome _ → Hub * R → Prop) : heap h !! p = Some c →
  (∀ acc', Q (Ok acc') (write_all (conn_writes op msg (heap h) p) h, r)) →
  wp (push_to_client Encode Compress WriteMessage marshal_PushMessages op v msg acc p) Q (h, r).
Proof.
  intros Hc HQ. destruct acc as [onlinePush resp]. unfold conn_writes, in_background in HQ.
  rewrite (client_at_some _ _ _ Hc) in HQ.
  apply wp_bind, (wp_read_client _ _ _ c); [done|]. cbv zeta.
  assert (negb (Client_IsBackground c) || (Client_IsBackground c && negb (Client_PlatformID c =? IOSPlatformID)) =
    negb (Client_IsBackground c && (Client_PlatformID c =? IOSPlatformID))) as ->
    by (by destruct (Client_IsBackground c), (_ =? _)).
  destruct (Client_IsBackground c && (Client_PlatformID c =? IOSPlatformID)); cbn [negb]; [by apply wp_ret, HQ|].
  apply wp_bind, wp_try. unfold PushMessage. cbv zeta. fold (push_messages msg).
  apply wp_bind, wp_lift; [intros data Hd|intros e He; rewrite He in HQ; by apply wp_ret, HQ].
  rewrite Hd in HQ. apply (wp_write_frame _ _ _ _ c); [done|]. intros [[]|e]; cbn [of_sum]; [|by apply wp_ret, HQ].
  destruct (Contain _ _); by apply wp_ret, HQ.
Qed.

(** A push of a message to users ends with a result for each of them, in order, and with
    exactly these writes. *)
Lemma push_run op msg users h r : hub_ok h → ∃ results, To_UserID <$> results = users ∧
  SuperGroupOnlineBatchPushOneMsg op msg users (h, r) = (Ok results, (write_all (push_writes op msg users h) h, r)).
Proof.
  intros Hok. cut (wp (SuperGroupOnlineBatchPushOneMsg op msg users) (λ res w',
    w' = (write_all (push_writes op msg users h) h, r) ∧ ∃ results, res = Ok results ∧ To_UserID <$> results = users) (h, r)).
  { unfold wp. destruct (SuperGroupOnlineBatchPushOneMsg _ _ _ (h, r)) as [res w']. intros (-> & results & -> & E). eauto. }
  apply (wp_fold_each _ _ _ (λ done acc w', w' = (write_all (push_writes op msg done h) h, r) ∧ To_UserID <$> acc = done));
    [done| |by intros acc w' [-> E]; eauto].
  intros done v rest acc w' Husers [-> Hacc]. set (ws := push_writes op msg done h).
  destruct (write_all_same ws h) as (Hheap & Hclients & _).
  unfold push_writes. rewrite bind_app, bind_singleton. fold (push_writes op msg done h). fold ws. rewrite write_all_app.
  apply wp_bind. unfold GetUserAllCons. apply wp_bind, wp_get_hub, wp_ret. unfold UserMap_GetAll. rewrite Hclients.
  destruct (clients h !! v) as [l|] eqn:Hl; cbn [default].
  2:{ apply wp_ret. split; [done|]. by rewrite fmap_app, Hacc. }
  apply wp_bind. apply (wp_fold_each _ _ _ (λ d _ w', w' = (write_all (d ≫= conn_writes op msg (heap h)) (write_all ws h), r))).
  - done.
  - intros d p rest' acc' w' Hll ->. rewrite bind_app, bind_singleton, write_all_app.
    set (h1 := write_all (d ≫= _) (write_all ws h)).
    assert (heap h1 = heap h) as Hh1 by (unfold h1; by rewrite (proj1 (write_all_same _ _))).
    destruct (Hok _ _ Hl) as [_ Hown]. destruct (Hown p) as (c & Hc & _); [rewrite Hll; set_solver +|].
    rewrite <-Hh1. apply (wp_push_to_client _ _ _ _ _ _ _ c); [by rewrite Hh1|]. by intros.
  - intros [onlinePush resp] w' ->. apply wp_ret. split; [done|]. by rewrite fmap_app, Hacc.
Qed.

(** A push reports one result for each user, in order; it changes no
    connection; and it writes only to open connections of those users, never
    to an iOS connection in the background. *)
Theorem push_results op msg users h r :
  hub_ok h →
  let '(res, (h', r')) := SuperGroupOnlineBatchPushOneMsg op msg users (h, r) in
  r' = r ∧ pushed h users h' ∧
  ∃ results, res = Ok results ∧ To_UserID <$> results = users.
Proof.
  intros Hok. destruct (push_run op msg users h r Hok) as (results & Hus & ->).
  split; [done|]. split; [apply push_writes_pushed|]. eauto.
Qed.
End Push.

(** * The hub's theorems on concrete hubs

    Alice is connected from one phone and connects from a second one. *)

Import Race.

#[local] Open Scope Z_scope.

#[local] Existing Instances model_tools model_tools_laws map_order.

Definition phone (user address : string) (background : bool) : Client :=
  mkClient IOSPlatformID false user background
    (mkUserConnContext {[ Key_Token := "ta" ]} ∅ address "") false None "ta".

Definition hub_alice : Hub :=
  mkHub {[ 1%positive := phone "alice" "x" false; 2%positive := phone "alice" "y" false ]}
    {[ "alice" := [1%positive] ]} [] [] [] [] 1 1 [] [].

Lemma hub_alice_ok : hub_ok hub_alice.
Proof.
  intros u l Hl. change (({[ "alice" := [1%positive] ]} : UserMap) !! u = Some l) in Hl. apply lookup_singleton_Some in Hl as [<- <-]. split; [done|].
  intros p ->%list_elem_of_singleton. by exists (phone "alice" "x" false).
Qed.

Definition register_alice : outcome () * (Hub * mem_redis) :=
  registerClient AllLoginButSameTermKick encode compress write (inl []) "" 2%positive
    (hub_alice, tokens).

Lemma registerClient_single_terminal_witness :
  let '(res, (h', _)) := registerClient AllLoginButSameTermKick encode compress write (inl []) ""
    2%positive (hub_alice, tokens) in
  res = Ok () ∧
  UserMap_Get (heap h') (clients h') (Client_UserID (phone "alice" "y" false))
    (Client_PlatformID (phone "alice" "y" false)) = ([2%positive], true, true) ∧
  (∀ q, q ∈ on_platform hub_alice (Client_UserID (phone "alice" "y" false))
              (Client_PlatformID (phone "alice" "y" false)) →
     Client_closed (client_at (heap h') q) = true) ∧
  (∀ u', u' ≠ Client_UserID (phone "alice" "y" false) → clients h' !! u' = clients hub_alice !! u').
Proof.
  apply (registerClient_single_terminal encode compress write (inl []) "" 2%positive hub_alice tokens
    (phone "alice" "y" false)); [apply hub_alice_ok|done|].
  vm_compute. done.
Defined.

(** Alice is online, the map has her, and the counter says nobody. *)
Lemma registerClient_count_drift_witness :
  onlineUserNum register_alice.2.1 = 0 ∧ size (clients register_alice.2.1) = 1%nat ∧
  let '(_, (h', _)) := registerClient AllLoginButSameTermKick encode compress write (inl []) ""
    2%positive (hub_alice, tokens) in
  onlineUserNum h' - Z.of_nat (size (clients h')) =
  onlineUserNum hub_alice - Z.of_nat (size (clients hub_alice)) -
    (if bool_decide (on_platform hub_alice "alice" IOSPlatformID ≠ []) &&
        kicks_all hub_alice "alice" (on_platform hub_alice "alice" IOSPlatformID)
     then 1 else 0).
Proof.
  split; [by vm_compute|]. split; [by vm_compute|].
  apply (registerClient_count_drift encode compress write (inl []) "" 2%positive hub_alice tokens
    (phone "alice" "y" false)); [apply hub_alice_ok|done|by vm_compute|cbn; lia].
Defined.

Lemma unregisterClient_spec_witness :
  let '(res, (h', r')) := unregisterClient 1%positive (hub_alice, tokens) in
  res = Ok () ∧ r' = tokens ∧ unregistered hub_alice 1%positive (phone "alice" "x" false) h'.
Proof.
  apply unregisterClient_spec; [apply hub_alice_ok|done|cbn; lia|cbn; lia].
Defined.

Lemma wsHandler_admits_witness :
  is_ok (wsHandler 10 encode compress write claim None (inl "") (ctx "alice" "ta") (hub_empty, tokens)).1
    = true ∧
  let '(res, (h', r')) := wsHandler 10 encode compress write claim None (inl "") (ctx "alice" "ta")
    (hub_empty, tokens) in
  r' = tokens ∧
  match res with
  | Ok p => admissible 10 claim hub_empty tokens (ctx "alice" "ta") ∧
      registerChan h' = registerChan hub_empty ++ [p] ∧
      Client_UserID (client_at (heap h') p) = GetUserID (ctx "alice" "ta") ∧
      Client_token (client_at (heap h') p) = GetToken (ctx "alice" "ta") ∧
      clients h' = clients hub_empty ∧ onlineUserConnNum h' = onlineUserConnNum hub_empty
  | Err _ => h' = hub_empty
  | Panic => False
  | OutOfFuel => channel_cap ≤ len (registerChan hub_empty)
  end.
Proof.
  split; [by vm_compute|].
  apply (wsHandler_admits 10 encode compress write claim None (inl "") (ctx "alice" "ta") hub_empty tokens).
Defined.

(** A frame whose text is the sender's name. *)
Definition decode_name (s : string) : Req + error := inl (mkReq WSGetNewestSeq "" s "" "" "").

Lemma handleMessage_own_user_witness :
  let '(res, (h', r')) := handleMessage encode compress compress write decode_name accept accept
    accept_req answer compress (λ _, false) code (λ _, "") 1%positive "mallory" (hub_alice, tokens) in
  (∃ x, res = of_sum x) ∧ r' = tokens ∧ reader_effect "alice" hub_alice h' ∧
  ∀ req, Client_IsCompress (phone "alice" "x" false) = false → decode_name "mallory" = inl req →
    Req_SendID req ≠ "alice" →
    res = Err (Wrap (ErrText "exception conn userID not same to req userID") "") ∧ h' = hub_alice.
Proof.
  apply (handleMessage_own_user encode compress compress write decode_name accept accept
    accept_req answer compress (λ _, false) code (λ _, "") 1%positive "mallory" (phone "alice" "x" false)
    hub_alice tokens).
  done.
Defined.

Lemma readMessage_closes_witness :
  let '(res, (h', r')) := readMessage encode compress compress write (λ _, None) decode_name accept accept
    accept_req answer compress (λ _, false) code (λ _, "") 1%positive
    [Frame MessageBinary "alice"; Frame MessageText ""] (hub_alice, tokens) in
  res = Ok () ∧ r' = tokens ∧ Client_closed (client_at (heap h') 1%positive) = true ∧
  unregisterChan h' = unregisterChan hub_alice ++ [1%positive] ∧ clients h' = clients hub_alice ∧
  ∃ cs, calls h' = calls hub_alice ++ cs ∧ ∀ x, x ∈ cs → ∃ m d, x = RpcCall m "alice" d.
Proof.
  apply (readMessage_closes encode compress compress write (λ _, None) decode_name accept accept
    accept_req answer compress (λ _, false) code (λ _, "") 1%positive
    [Frame MessageBinary "alice"; Frame MessageText ""] (phone "alice" "x" false) hub_alice tokens);
    [done|done|by vm_compute].
Defined.

Lemma push_results_witness :
  let '(res, (h', r')) := SuperGroupOnlineBatchPushOneMsg encode compress write (λ _, inl "hi") "op"
    MsgData_zero ["alice"; "bob"] (hub_alice, tokens) in
  r' = tokens ∧ pushed hub_alice ["alice"; "bob"] h' ∧
  ∃ results, res = Ok results ∧ To_UserID <$> results = ["alice"; "bob"].
Proof.
  apply (push_results encode compress write (λ _, inl "hi") "op" MsgData_zero ["alice"; "bob"]
    hub_alice tokens).
  apply hub_alice_ok.
Defined.
