(* ===== verification/MsgTransfer.v ===== *)
(** * Message transfer (internal/msgtransfer)

    The consumers of the queue.  [OnlineHistoryRedisConsumerHandler] collects
    the messages of the queue, groups them by their key, hands each group to one
    of a hundred channels, and for each group numbers and caches the messages
    and passes them on to the topics of the push service and of the store.
    [OnlineHistoryMongoConsumerHandler] writes them to the store.

    Messages are pointers: they are changed in place and shared between the
    lists of a group.  The memory of a group is a list of messages, a pointer
    its index. *)

From S2P Require Import Prelude.
From S2P Require Import Constants.
From S2P Require Import MsgTypes.
From S2P Require Import MsgProcessor.
From S2P Require Import MsgDoc.
From S2P Require Import MsgCollection.
From S2P Require Import MsgStore.
From S2P Require Import Tools.
From S2P Require Import Notification.
From S2P Require Import RpcClient.
From S2P Require Import Redis.
From S2P Require Import MsgCache.
From S2P Require Import MsgDatabase.
From stdpp Require Import options.
#[local] Set Default Proof Using "Type*".

#[local] Open Scope Z_scope.

(** ** The producers of the message database (pkg/common/db/controller/msg.go) *)

(** What is sent to the topics and asked of the other services. *)
Inductive TransferEffect :=
  | MQ_Modify (key conversationID : string) (messages : list MsgData)
  | MQ_Push (key conversationID : string) (msg2mq : MsgData)
  | MQ_Mongo (key conversationID : string) (messages : list MsgData) (lastSeq : Z)
  | GenEncryptionKey (conversationID : string)
  | CreateGroupChatConversations (groupID : string) (userIDs : list string)
  | CreateSingleChatConversations (recvID sendID conversationID : string) (conversationType : Z).

(** The producers, by topic; a nil pointer is [None]. *)
Record producers := mkProducers {
  producer : option string; producerToMongo : option string;
  producerToModify : option string; producerToPush : option string }.

(** [NewCommonMsgDatabase]: [producerToModify] is not set. *)
Definition NewCommonMsgDatabase (LatestMsgToRedis MsgToMongo MsgToPush : string) : producers :=
  {| producer := Some LatestMsgToRedis; producerToMongo := Some MsgToMongo;
     producerToModify := None; producerToPush := Some MsgToPush |}.

Section Producers.
Context (db : producers) (answers : list TransferEffect → TransferEffect → option error).

(** [Producer.SendMessage] reads the topic first. *)
Definition SendMessage (p : option string) (e : TransferEffect) : M (list TransferEffect) () :=
  topic ← deref p; tell answers e.

Definition MsgToModifyMQ (key conversationID : string) (messages : list MsgData) :
    M (list TransferEffect) () :=
  if 0 <? len messages
  then SendMessage (producerToModify db) (MQ_Modify key conversationID messages)
  else mret ().
Definition MsgToPushMQ (key conversationID : string) (msg2mq : MsgData) :
    M (list TransferEffect) () :=
  SendMessage (producerToPush db) (MQ_Push key conversationID msg2mq).
Definition MsgToMongoMQ (key conversationID : string) (messages : list MsgData) (lastSeq : Z) :
    M (list TransferEffect) () :=
  if 0 <? len messages
  then SendMessage (producerToMongo db) (MQ_Mongo key conversationID messages lastSeq)
  else mret ().
End Producers.

(** ** The groups (getPushStorageMsgList) *)

Abbreviation mptr := nat.
Abbreviation Heap := (list MsgData).

Definition load (p : mptr) : M Heap MsgData := h ← get; deref (h !! p).
Definition store (p : mptr) (m : MsgData) : M Heap () := modify <[p := m]>.
Definition alloc (m : MsgData) : M Heap mptr :=
  h ← get; _ ← modify (λ h, h ++ [m]); mret (length h).

(** [p.Options = msgprocessor.WithOptions(p.Options, opt)]; writing to a nil
    map panics. *)
Definition with_option (p : mptr) (opt : OptionsOpt) : M Heap () :=
  m ← load p;
  o ← deref (Options m);
  store p (set_Options (Some (WithOptions o [opt])) m).

Record msg_lists := mkLists {
  storageMsgList : list mptr; notStorageMsgList : list mptr;
  storageNotificationList : list mptr; notStorageNotificationList : list mptr;
  modifyMsgList : list mptr }.
Definition no_lists : msg_lists := mkLists [] [] [] [] [].
Definition add_storage (p : mptr) (l : msg_lists) : msg_lists :=
  let '(mkLists a b c d e) := l in mkLists (a ++ [p]) b c d e.
Definition add_notStorage (p : mptr) (l : msg_lists) : msg_lists :=
  let '(mkLists a b c d e) := l in mkLists a (b ++ [p]) c d e.
Definition add_storageNotification (p : mptr) (l : msg_lists) : msg_lists :=
  let '(mkLists a b c d e) := l in mkLists a b (c ++ [p]) d e.
Definition add_notStorageNotification (p : mptr) (l : msg_lists) : msg_lists :=
  let '(mkLists a b c d e) := l in mkLists a b c (d ++ [p]) e.
Definition add_modify (p : mptr) (l : msg_lists) : msg_lists :=
  let '(mkLists a b c d e) := l in mkLists a b c d (e ++ [p]).

Definition isStorage (msg : MsgData) : bool := Options_IsHistory (Options msg).

(** The message to store beside a notification: a copy with fresh options.
    The tests read the notification's own map, which they change. *)
Definition clone_notification (v : mptr) : M Heap mptr :=
  m ← load v;
  msg ← alloc m;
  _ ← (match Options m with
       | Some _ => store msg (set_Options (Some NewMsgOptions) m)
       | None => mret ()
       end);
  m ← load v;
  _ ← (if Options_IsOfflinePush (Options m) then
         _ ← with_option v (WithOfflinePush false);
         with_option msg (WithOfflinePush true)
       else mret ());
  m ← load v;
  _ ← (if Options_IsUnreadCount (Options m) then
         _ ← with_option v (WithUnreadCount false);
         with_option msg (WithUnreadCount true)
       else mret ());
  mret msg.

Definition sort_msg (lists : msg_lists) (v : mptr) : M Heap msg_lists :=
  m ← load v;
  lists ←
    (if negb (Options_IsNotNotification (Options m)) then
       lists ← (if Options_IsSendMsg (Options m) then
                  msg ← clone_notification v; mret (add_storage msg lists)
                else mret lists);
       m ← load v;
       mret (if isStorage m then add_storageNotification v lists
             else add_notStorageNotification v lists)
     else
       mret (if isStorage m then add_storage v lists else add_notStorage v lists));
  m ← load v;
  mret (if (ContentType m =? ReactionMessageModifier) || (ContentType m =? ReactionMessageDeleter)
        then add_modify v lists else lists).

Definition getPushStorageMsgList (totalMsgs : list mptr) : M Heap msg_lists :=
  fold_each totalMsgs no_lists sort_msg.

(** ** A group of messages (Run, handleMsg, handleNotification) *)

(** [uint64] counters. *)
Record och_counters := mkCounters { singleMsgSuccessCount : Z; singleMsgFailedCount : Z }.
Definition count_success (n : Z) (c : och_counters) : och_counters :=
  mkCounters ((singleMsgSuccessCount c + n) `mod` 2 ^ 64) (singleMsgFailedCount c).
Definition count_failed (n : Z) (c : och_counters) : och_counters :=
  mkCounters (singleMsgSuccessCount c) ((singleMsgFailedCount c + n) `mod` 2 ^ 64).

Section Group.
Context {W R : Type} `{MsgCollection W} `{Redis R} `{Tools} `{MapRange} `{Proto} `{MsgTools}
  `{Services TransferEffect}.
Context (db : producers) (answers : list TransferEffect → TransferEffect → option error).
Context (MsgCacheTimeout : Z) (IsEncryption : bool).
(** The memory of the group; the store and the cache; the counters and what was
    sent. *)
Abbreviation S := (Heap * ((W * R) * (och_counters * list TransferEffect)))%type.

Definition on_heap {A} (m : M Heap A) : M S A := on_fst m.
Definition on_db {A} (m : M (W * R) A) : M S A := on_snd (on_fst m).
Definition on_och {A} (m : M och_counters A) : M S A := on_snd (on_snd (on_fst m)).
Definition on_env {A} (m : M (list TransferEffect) A) : M S A := on_snd (on_snd (on_snd m)).

Definition load_all (ps : list mptr) : M Heap (list MsgData) :=
  fold_each ps [] (λ ms p, m ← load p; mret (ms ++ [m])).
Definition store_all (ps : list mptr) (ms : list MsgData) : M Heap () :=
  for_each (zip ps ms) (λ '(p, m), store p m).

(** [msgDatabase.BatchInsertChat2Cache] numbers the messages it is given. *)
Definition insert_to_cache (conversationID : string) (storageList : list mptr) :
    M S (Z * bool * option error) :=
  msgs ← on_heap (load_all storageList);
  '(lastSeq, isNew, err, msgs) ← on_db (BatchInsertChat2Cache MsgCacheTimeout conversationID msgs);
  _ ← on_heap (store_all storageList msgs);
  mret (lastSeq, isNew, err).

(** Errors of the producers are dropped. *)
Definition toPushTopic (key conversationID : string) (msgs : list mptr) : M S () :=
  for_each msgs (λ v,
    m ← on_heap (load v);
    _ ← try (on_env (MsgToPushMQ db answers key conversationID m)); mret ()).

Definition toMongoTopic (key conversationID : string) (storageList : list mptr) (lastSeq : Z) :
    M S () :=
  msgs ← on_heap (load_all storageList);
  _ ← try (on_env (MsgToMongoMQ db answers key conversationID msgs lastSeq)); mret ().

Definition handleNotification (key conversationID : string) (storageList notStorageList : list mptr) :
    M S () :=
  _ ← toPushTopic key conversationID notStorageList;
  if 0 <? len storageList then
    '(lastSeq, _, err) ← insert_to_cache conversationID storageList;
    match err with
    | Some _ => mret ()
    | None =>
        _ ← toMongoTopic key conversationID storageList lastSeq;
        toPushTopic key conversationID storageList
    end
  else mret ().

(** The conversations of the members, when a conversation has its first
    message; errors are logged. *)
Definition first_create (conversationID : string) (msg : MsgData) : M (list TransferEffect) () :=
  _ ← (if IsEncryption
       then _ ← try (tell answers (GenEncryptionKey conversationID)); mret () else mret ());
  if SessionType msg =? SuperGroupChatType then
    r ← try (GetGroupMemberIDs (GroupID msg));
    match r with
    | inr _ => mret ()
    | inl userIDs =>
        _ ← try (tell answers (CreateGroupChatConversations (GroupID msg) userIDs)); mret ()
    end
  else if (SessionType msg =? SingleChatType) || (SessionType msg =? NotificationChatType) then
    _ ← try (tell answers (CreateSingleChatConversations (RecvID msg) (SendID msg) conversationID
               (SessionType msg))); mret ()
  else mret ().

(** [err != nil && errs.Unwrap(err) != redis.Nil] *)
Definition not_nil_error (err : option error) : bool :=
  match err with Some e => negb (bool_decide (Unwrap e = RedisNil)) | None => false end.

Definition handleMsg (key conversationID : string) (storageList notStorageList : list mptr) :
    M S () :=
  _ ← toPushTopic key conversationID notStorageList;
  if 0 <? len storageList then
    '(lastSeq, isNewConversation, err) ← insert_to_cache conversationID storageList;
    if not_nil_error err
    then on_och (modify (count_failed (len storageList)))
    else
      _ ← (if (isNewConversation : bool) then
             p ← on_heap (deref (head storageList));
             msg ← on_heap (load p);
             on_env (first_create conversationID msg)
           else mret ());
      _ ← on_och (modify (count_success (len storageList)));
      _ ← toMongoTopic key conversationID storageList lastSeq;
      toPushTopic key conversationID storageList
  else mret ().

(** One command of [Run]. *)
Definition Run_SourceMessages (uniqueKey : string) (ctxMsgList : list mptr) : M S () :=
  lists ← on_heap (getPushStorageMsgList ctxMsgList);
  p ← on_heap (deref (head ctxMsgList));
  msg ← on_heap (load p);
  let conversationIDMsg := GetChatConversationIDByMsg msg in
  let conversationIDNotification := GetNotificationConversationIDByMsg msg in
  _ ← handleMsg uniqueKey conversationIDMsg (storageMsgList lists) (notStorageMsgList lists);
  _ ← handleNotification uniqueKey conversationIDNotification (storageNotificationList lists)
        (notStorageNotificationList lists);
  modifyMsgs ← on_heap (load_all (modifyMsgList lists));
  _ ← try (on_env (MsgToModifyMQ db answers uniqueKey conversationIDNotification modifyMsgs));
  mret ().
End Group.

(** ** Collecting and grouping (ConsumeClaim, MessagesDistributionHandle) *)

Record ConsumerMessage := mkConsumerMessage {
  Key : string; Value : string; Headers : list (string * string) }.
Record ContextMsg := mkContextMsg { message : MsgData; ctx_OperationID : string }.
Record MsgChannelValue := mkMsgChannelValue {
  uniqueKey : string; aggregation_OperationID : string; ctxMsgList : list ContextMsg }.

Definition ChannelNum : Z := 100.
Definition split : nat := 1000.

Section Collect.
Context `{MapRange}.
(** The decoder, the operation id of a context made of header values, the hash
    of a key. *)
Context (Unmarshal : string → MsgData + error) (operationID_of : list string → string).
Context (GetHashCode : string → Z).

(** The channels to the handlers, by number; a full channel delays its
    sender. *)
Abbreviation Channels := (gmap Z (list MsgChannelValue)).

Definition GetContextWithMQHeader (header : list (string * string)) : string :=
  operationID_of header.*2.

Fixpoint join_OperationIDs (first : bool) (values : list ContextMsg) : string :=
  match values with
  | [] => ""
  | v :: values' =>
      (if bool_decide (ctx_OperationID v = "") then ""
       else if first then ctx_OperationID v else "$" +:+ ctx_OperationID v) +:+
      join_OperationIDs false values'
  end.
Definition withAggregationCtx (values : list ContextMsg) : string := join_OperationIDs true values.

(** [aggregationMsgs]: the messages that decode, by key, in order. *)
Definition add_message (agg : gmap string (list ContextMsg)) (c : ConsumerMessage) :
    gmap string (list ContextMsg) :=
  match Unmarshal (Value c) with
  | inr _ => agg
  | inl m =>
      let ctxMsg := mkContextMsg m (GetContextWithMQHeader (Headers c)) in
      <[Key c := default [] (agg !! Key c) ++ [ctxMsg]]> agg
  end.
Definition aggregate (cMsgList : list ConsumerMessage) : gmap string (list ContextMsg) :=
  foldl add_message ∅ cMsgList.

Definition send_channel (channelID : Z) (v : MsgChannelValue) (ch : Channels) : Channels :=
  <[channelID := default [] (ch !! channelID) ++ [v]]> ch.

(** One command of [MessagesDistributionHandle]. *)
Definition Distribute (cMsgList : list ConsumerMessage) : M Channels () :=
  for_each (range (aggregate cMsgList)) (λ '(uniqueKey, v),
    modify (send_channel (GetHashCode uniqueKey `mod` ChannelNum)
              (mkMsgChannelValue uniqueKey (withAggregationCtx v) v))).

(** The slices of a thousand messages, and the rest. *)
Definition slices (ccMsg : list ConsumerMessage) : list (list ConsumerMessage) :=
  let n := (length ccMsg / split)%nat in
  ((λ i, take split (drop (i * split)%nat ccMsg)) <$> seq 0 n) ++
  (if (0 <? length ccMsg mod split)%nat then [drop (split * n)%nat ccMsg] else []).

(** [ConsumeClaim]: a message arrives, or the timer of 100 ms fires. *)
Inductive claim_event := Arrive (msg : ConsumerMessage) | Tick.

Definition ConsumeClaim_step (e : claim_event) : M (list ConsumerMessage * Channels) () :=
  match e with
  | Arrive msg =>
      on_fst (modify (λ cMsg, if bool_decide (Value msg = "") then cMsg else cMsg ++ [msg]))
  | Tick =>
      ccMsg ← on_fst get;
      if 0 <? len ccMsg then
        _ ← on_fst (modify (λ _, []));
        on_snd (for_each (slices ccMsg) Distribute)
      else mret ()
  end.

Definition ConsumeClaim (es : list claim_event) : M (list ConsumerMessage * Channels) () :=
  for_each es ConsumeClaim_step.
End Collect.

(** ** Writing to the store (online_msg_to_mongo_handler.go) *)

Section Mongo.
Context {W R : Type} `{MsgCollection W} `{Redis R} `{Tools} `{MapRange} `{Proto}.
(** The decoder of [MsgDataToMongoByMQ]: conversation, messages, last number. *)
Context (Unmarshal : string → (string * list MsgData * Z) + error).

Definition handleChatWs2Mongo (msg : string) : M (W * R) () :=
  match Unmarshal msg with
  | inr _ => mret ()
  | inl (conversationID, msgData, lastSeq) =>
      if len msgData =? 0 then mret ()
      else
        _ ← try (on_docs (BatchInsertChat2DB conversationID (Some <$> msgData) lastSeq));
        let seqs := Seq <$> msgData in
        _ ← try (commonMsgDatabase_DeleteMessagesFromCache conversationID seqs);
        commonMsgDatabase_DelUserDeleteMsgsList conversationID seqs
  end.

Definition Mongo_ConsumeClaim (msgs : list ConsumerMessage) : M (W * R) () :=
  for_each msgs (λ msg,
    if bool_decide (Value msg = "") then mret () else handleChatWs2Mongo (Value msg)).
End Mongo.

(** The whole of one command: the messages are the group's memory. *)
Definition Run {W R : Type} `{MsgCollection W} `{Redis R} `{Tools} `{MapRange} `{Proto}
    `{Services TransferEffect} (db : producers)
    (answers : list TransferEffect → TransferEffect → option error) (MsgCacheTimeout : Z)
    (IsEncryption : bool) (v : MsgChannelValue) : M ((W * R) * (och_counters * list TransferEffect)) () :=
  λ w,
    let '(r, (_, w')) := Run_SourceMessages db answers MsgCacheTimeout IsEncryption (uniqueKey v)
      (seq 0 (length (ctxMsgList v))) (message <$> ctxMsgList v, w) in (r, w').
