(* ===== verification/TransferProofs.v ===== *)
(** * What the message transfer does with the messages of the queue

    How a group is sorted and its notifications are copied, what is sent on for
    a group, the order in which messages reach the handlers, and what writing to
    the store does to the cache. *)

From S2P Require Import Prelude.
From S2P Require Import Constants.
From S2P Require Import MsgTypes.
From S2P Require Import MsgProcessor.
From S2P Require Import MsgDoc.
From S2P Require Import MsgCollection.
From S2P Require Import MsgStore.
From S2P Require Import Tools.
From S2P Require Import Notification.
From S2P Require Import RpcClient.
From S2P Require Import Redis.
From S2P Require Import MsgCache.
From S2P Require Import MsgDatabase.
From S2P Require Import MsgServer.
From S2P Require Import MsgServerSamples.
From S2P Require Import MsgTransfer.
From stdpp Require Import options.
#[local] Set Default Proof Using "Type*".

#[local] Open Scope Z_scope.

(** ** Sorting a group

    The abstract side: what becomes of each message, as values. *)

Definition is_notif (m : MsgData) : bool := negb (Options_IsNotNotification (Options m)).
Definition is_sent (m : MsgData) : bool := is_notif m && Options_IsSendMsg (Options m).

(** The options that a notification hands over to its copy. *)
Definition moved (m : MsgData) : list (string * bool) :=
  (if Options_IsOfflinePush (Options m) then [(IsOfflinePush, true)] else []) ++
  (if Options_IsUnreadCount (Options m) then [(IsUnreadCount, true)] else []).
Definition put (l : list (string * bool)) (o : gmap string bool) : gmap string bool :=
  foldl (λ o kv, <[kv.1 := kv.2]> o) o l.

(** The copy of a notification, and what is left of the original. *)
Definition chat_copy (m : MsgData) : MsgData := set_Options (Some (put (moved m) ∅)) m.
Definition sorted_msg (m : MsgData) : MsgData :=
  if is_sent m
  then set_Options (put ((λ kv, (kv.1, negb kv.2)) <$> moved m) <$> Options m) m
  else m.

Definition stored_chat (m : MsgData) : list MsgData :=
  if is_notif m then (if is_sent m then [chat_copy m] else [])
  else if isStorage m then [m] else [].
Definition passed_chat (m : MsgData) : list MsgData :=
  if negb (is_notif m) && negb (isStorage m) then [m] else [].
Definition stored_notification (m : MsgData) : list MsgData :=
  if is_notif m && isStorage m then [sorted_msg m] else [].
Definition passed_notification (m : MsgData) : list MsgData :=
  if is_notif m && negb (isStorage m) then [sorted_msg m] else [].
Definition is_reaction (m : MsgData) : bool :=
  (ContentType m =? ReactionMessageModifier) || (ContentType m =? ReactionMessageDeleter).

(** The messages that pointers point to. *)
Definition points (h : list MsgData) (ps : list nat) (ms : list MsgData) : Prop :=
  (λ p, h !! p) <$> ps = Some <$> ms.

Lemma load_eq p m h : h !! p = Some m → load p h = (Ok m, h).
Proof. intros Hp. unfold load, mbind, M_bind, get. by rewrite Hp. Qed.

Lemma with_option_left v opt m o h c :
  h !! v = Some m → Options m = Some o →
  with_option v opt (h ++ [c]) = (Ok (), <[v := set_Options (Some (opt o)) m]> h ++ [c]).
Proof.
  intros Hv Ho. pose proof (lookup_lt_Some _ _ _ Hv) as Hl. unfold with_option.
  unfold mbind, M_bind. rewrite (load_eq _ m) by (by apply lookup_app_l_Some).
  rewrite Ho. trans (Ok (), <[v := set_Options (Some (opt o)) m]> (h ++ [c])); [done|].
  by rewrite insert_app_l.
Qed.

Lemma with_option_right opt o h c :
  Options c = Some o →
  with_option (length h) opt (h ++ [c]) = (Ok (), h ++ [set_Options (Some (opt o)) c]).
Proof.
  intros Ho. unfold with_option, mbind, M_bind.
  rewrite (load_eq _ c) by (by rewrite lookup_app_r, Nat.sub_diag).
  rewrite Ho. trans (Ok (), <[length h := set_Options (Some (opt o)) c]> (h ++ [c])); [done|].
  by rewrite insert_app_r_alt, Nat.sub_diag.
Qed.

Lemma Options_set_Options o m : Options (set_Options o m) = o.
Proof. by destruct m. Qed.
Lemma set_set_Options o o' m : set_Options o (set_Options o' m) = set_Options o m.
Proof. by destruct m. Qed.

Lemma is_notif_options m : is_notif m = true → ∃ o, Options m = Some o ∧ o !! IsNotNotification = Some false.
Proof.
  unfold is_notif, Options_IsNotNotification, Options_Is. destruct (Options m) as [o|]; [|done].
  cbn. destruct (o !! IsNotNotification) as [[]|] eqn:E; [done| |done]. eauto.
Qed.

Lemma clone_notification_eq v m h :
  h !! v = Some m → is_notif m = true → is_sent m = true →
  clone_notification v h = (Ok (length h), <[v := sorted_msg m]> h ++ [chat_copy m]).
Proof.
  intros Hv Hn Hs. destruct (is_notif_options _ Hn) as [o [Ho _]].
  pose proof (lookup_lt_Some _ _ _ Hv) as Hl.
  unfold sorted_msg. rewrite Hs. unfold chat_copy, moved, clone_notification, mbind, M_bind.
  rewrite (load_eq _ m) by done. cbn [alloc]. unfold alloc, mbind, M_bind, get, modify, mret, M_ret.
  rewrite Ho. unfold store, modify. rewrite insert_app_r_alt, Nat.sub_diag by done.
  change (<[0%nat := ?x]> [?y]) with [x]. set (c := set_Options (Some NewMsgOptions) m).
  assert (Options c = Some ∅) as Hc by apply Options_set_Options.
  assert (∀ h' c', length h' = length h → ∀ opt oo, Options c' = Some oo →
    with_option (length h) opt (h' ++ [c']) = (Ok (), h' ++ [set_Options (Some (opt oo)) c'])) as Hr.
  { intros h' c' <- opt oo Hoo. by apply with_option_right. }
  rewrite (load_eq _ m) by (by apply lookup_app_l_Some). rewrite Ho.
  destruct (Options_IsOfflinePush (Some o)) eqn:Eoff.
  - rewrite (with_option_left _ _ m o) by done.
    rewrite (Hr _ _ ltac:(by rewrite length_insert) _ ∅) by done.
    rewrite (load_eq _ (set_Options (Some (WithOfflinePush false o)) m))
      by (apply lookup_app_l_Some, list_lookup_insert_eq; lia).
    rewrite Options_set_Options.
    replace (Options_IsUnreadCount (Some (WithOfflinePush false o)))
      with (Options_IsUnreadCount (Some o))
      by (unfold Options_IsUnreadCount, Options_Is, WithOfflinePush; cbn; by rewrite lookup_insert_ne).
    destruct (Options_IsUnreadCount (Some o)) eqn:Eun.
    + rewrite (with_option_left _ _ (set_Options (Some (WithOfflinePush false o)) m)
        (WithOfflinePush false o)).
      2:{ apply list_lookup_insert_eq. lia. }
      2:{ apply Options_set_Options. }
      erewrite Hr; [|by rewrite !length_insert|apply Options_set_Options].
      unfold c. by rewrite list_insert_insert_eq, !set_set_Options.
    + unfold c. by rewrite set_set_Options.
  - rewrite (load_eq _ m) by (by apply lookup_app_l_Some). rewrite Ho.
    destruct (Options_IsUnreadCount (Some o)) eqn:Eun.
    + rewrite (with_option_left _ _ m o) by done.
      rewrite (Hr _ _ ltac:(by rewrite length_insert) _ ∅) by done.
      unfold c. by rewrite set_set_Options.
    + cbn. replace (set_Options (Some o) m) with m by (rewrite <-Ho; by destruct m).
      by rewrite list_insert_id.
Qed.

(** Where a message and its copy, at index [n], go. *)
Definition sorted_lists (v n : nat) (m : MsgData) (l : msg_lists) : msg_lists :=
  let l := if is_notif m then
             let l := if is_sent m then add_storage n l else l in
             if isStorage m then add_storageNotification v l else add_notStorageNotification v l
           else if isStorage m then add_storage v l else add_notStorage v l in
  if is_reaction m then add_modify v l else l.

Lemma ContentType_sorted m : ContentType (sorted_msg m) = ContentType m.
Proof. unfold sorted_msg. case_match; [|done]. by destruct m. Qed.

Lemma put_other l o k : k ∉ l.*1 → put l o !! k = o !! k.
Proof.
  unfold put. induction l as [|x l IH] using rev_ind; [done|]. intros Hk.
  rewrite fmap_app, elem_of_app in Hk. rewrite foldl_app. cbn [foldl].
  rewrite lookup_insert_ne by (intros <-; apply Hk; right; by left). apply IH. tauto.
Qed.

Lemma isStorage_sorted m : isStorage (sorted_msg m) = isStorage m.
Proof.
  unfold sorted_msg. destruct (is_sent m); [|done]. unfold isStorage. rewrite Options_set_Options.
  destruct (Options m) as [o|]; [|done]. cbn. unfold Options_IsHistory, Options_Is. cbn.
  rewrite put_other; [done|]. rewrite <-list_fmap_compose. unfold moved.
  destruct (Options_IsOfflinePush (Options m)), (Options_IsUnreadCount (Options m)); cbn;
    rewrite ?elem_of_cons, ?elem_of_nil; intros Hin; repeat destruct Hin as [Hin|Hin]; done.
Qed.

Lemma sort_msg_eq lists v m h :
  h !! v = Some m →
  sort_msg lists v h =
    (Ok (sorted_lists v (length h) m lists),
     <[v := sorted_msg m]> h ++ (if is_sent m then [chat_copy m] else [])).
Proof.
  intros Hv. pose proof (lookup_lt_Some _ _ _ Hv) as Hl.
  unfold sort_msg, sorted_lists, mbind, M_bind. rewrite (load_eq _ m) by done.
  fold (is_notif m). fold (is_reaction m).
  destruct (is_notif m) eqn:En.
  2:{ assert (is_sent m = false) as Es by (unfold is_sent; by rewrite En).
      unfold sorted_msg, mret, M_ret. rewrite Es, (load_eq _ m), list_insert_id, app_nil_r by done.
      by destruct (isStorage m). }
  assert (Options_IsSendMsg (Options m) = is_sent m) as -> by (unfold is_sent; by rewrite En).
  destruct (is_sent m) eqn:Es.
  - rewrite (clone_notification_eq _ m) by done. cbv [mret M_ret].
    set (h' := <[v := sorted_msg m]> h ++ [chat_copy m]).
    assert (h' !! v = Some (sorted_msg m)) as Hv'
      by (apply lookup_app_l_Some, list_lookup_insert_eq; lia).
    rewrite (load_eq _ (sorted_msg m)), isStorage_sorted by done.
    rewrite (load_eq _ (sorted_msg m)) by done. unfold is_reaction. by rewrite ContentType_sorted.
  - cbv [mret M_ret]. rewrite (load_eq _ m) by done. rewrite (load_eq _ m) by done.
    unfold sorted_msg. by rewrite Es, list_insert_id, app_nil_r by done.
Qed.

(** What the lists point to, for a group of [n] messages. *)
Record sorted_group (n : nat) (ms : list MsgData) (lists : msg_lists) (h : list MsgData) : Prop := {
  sg_length : (n ≤ length h)%nat;
  sg_msgs : points h (seq 0 (length ms)) (sorted_msg <$> ms);
  sg_storage : points h (storageMsgList lists) (ms ≫= stored_chat);
  sg_notStorage : points h (notStorageMsgList lists) (ms ≫= passed_chat);
  sg_storageNotification : points h (storageNotificationList lists) (ms ≫= stored_notification);
  sg_notStorageNotification :
    points h (notStorageNotificationList lists) (ms ≫= passed_notification);
  sg_modify : points h (modifyMsgList lists) (sorted_msg <$> filter is_reaction ms);
  sg_NoDup : NoDup (storageMsgList lists ++ storageNotificationList lists ++
    notStorageNotificationList lists);
  (** pointers of the group's first messages, or of copies *)
  sg_old : ∀ p, p ∈ storageMsgList lists ++ notStorageMsgList lists ++
    storageNotificationList lists ++ notStorageNotificationList lists ++ modifyMsgList lists →
    (p < length ms)%nat ∨ (n ≤ p)%nat;
}.

Lemma points_app h ps ps' ms ms' : points h ps ms → points h ps' ms' → points h (ps ++ ps') (ms ++ ms').
Proof. unfold points. rewrite !fmap_app. congruence. Qed.

Lemma points_elem h ps ms p : points h ps ms → p ∈ ps → ∃ m, h !! p = Some m.
Proof.
  intros Hp Hin. assert (h !! p ∈ (λ p, h !! p) <$> ps) as Hh by (by apply (list_elem_of_fmap_2 (λ p, h !! p))).
  rewrite Hp in Hh. apply list_elem_of_fmap in Hh as (m & ? & _). eauto.
Qed.

Lemma points_lookup h ps ms i p :
  points h ps ms → ps !! i = Some p → ∃ m, ms !! i = Some m ∧ h !! p = Some m.
Proof.
  intros Hp Hi. apply (f_equal (.!! i)) in Hp. rewrite !list_lookup_fmap, Hi in Hp.
  destruct (ms !! i) as [m|]; [|done]. injection Hp as Hp. eauto.
Qed.

Lemma points_length h ps ms : points h ps ms → length ps = length ms.
Proof. intros Hp. apply (f_equal length) in Hp. by rewrite !length_fmap in Hp. Qed.

Lemma points_none h ps ms : points h ps ms → (0 <? len ps) = false → ms = [].
Proof.
  intros Hp%points_length Hl%Z.ltb_ge. destruct ms; [done|]. unfold len in Hl. cbn in Hp. lia.
Qed.

Lemma points_exists h ps : (∀ p, p ∈ ps → (p < length h)%nat) → ∃ ms, points h ps ms.
Proof.
  induction ps as [|p ps IH]; intros Hps; [by exists []|].
  destruct IH as [ms Hms]; [intros q Hq; apply Hps; by right|].
  destruct (lookup_lt_is_Some_2 h p) as [m Hm]; [apply Hps; by left|].
  exists (m :: ms). unfold points. cbn. rewrite Hm. by f_equal.
Qed.

Lemma points_keep h h' ps ms :
  points h ps ms → (∀ p, p ∈ ps → is_Some (h !! p) → h' !! p = h !! p) → points h' ps ms.
Proof.
  intros Hp Hk. unfold points. rewrite <-Hp. apply list_fmap_ext. intros i p Hi.
  apply Hk; [by eapply list_elem_of_lookup_2|].
  destruct (points_elem _ _ _ p Hp) as [m ?]; [by eapply list_elem_of_lookup_2|eauto].
Qed.

(** What one message adds to a list. *)
Lemma points_step h (b : bool) p m ps ms :
  points h ps ms → (b = true → h !! p = Some m) →
  points h (if b then ps ++ [p] else ps) (ms ++ (if b then [m] else [])).
Proof.
  intros Hp Hb. destruct b; [|by rewrite app_nil_r].
  apply points_app; [done|]. unfold points. cbn. by rewrite Hb.
Qed.

Lemma sorted_lists_eq v n m l :
  sorted_lists v n m l =
  {| storageMsgList :=
       if is_notif m then (if is_sent m then storageMsgList l ++ [n] else storageMsgList l)
       else if isStorage m then storageMsgList l ++ [v] else storageMsgList l;
     notStorageMsgList :=
       if negb (is_notif m) && negb (isStorage m) then notStorageMsgList l ++ [v]
       else notStorageMsgList l;
     storageNotificationList :=
       if is_notif m && isStorage m then storageNotificationList l ++ [v]
       else storageNotificationList l;
     notStorageNotificationList :=
       if is_notif m && negb (isStorage m) then notStorageNotificationList l ++ [v]
       else notStorageNotificationList l;
     modifyMsgList :=
       if is_reaction m then modifyMsgList l ++ [v] else modifyMsgList l |}.
Proof.
  destruct l. unfold sorted_lists.
  by destruct (is_notif m), (is_sent m), (isStorage m), (is_reaction m).
Qed.

Lemma sorted_plain m : is_notif m = false → sorted_msg m = m.
Proof. intros Hn. unfold sorted_msg, is_sent. by rewrite Hn. Qed.

Lemma sorted_group_step n ms lists h m :
  sorted_group n ms lists h → (length ms < n)%nat → h !! length ms = Some m →
  sorted_group n (ms ++ [m]) (sorted_lists (length ms) (length h) m lists)
    (<[length ms := sorted_msg m]> h ++ (if is_sent m then [chat_copy m] else [])).
Proof.
  intros [Hl H0 H1 H2 H3 H4 H5 Hnd Hold] Hn Hm.
  set (v := length ms) in *. set (h' := <[v := sorted_msg m]> h ++ _).
  assert (h' !! v = Some (sorted_msg m)) as Hv
    by (apply lookup_app_l_Some, list_lookup_insert_eq; lia).
  assert (is_sent m = true → h' !! length h = Some (chat_copy m)) as Hc.
  { intros Hs. unfold h'. rewrite Hs, lookup_app_r by (by rewrite length_insert).
    by rewrite length_insert, Nat.sub_diag. }
  assert (∀ ps l, points h ps l → (∀ p, p ∈ ps → (p < v)%nat ∨ (n ≤ p)%nat) → points h' ps l) as Hkeep.
  { intros ps l Hp Hps. apply (points_keep h); [done|]. intros p Hin [x Hx].
    pose proof (lookup_lt_Some _ _ _ Hx). unfold h'.
    rewrite lookup_app_l by (by rewrite length_insert).
    apply list_lookup_insert_ne. destruct (Hps p Hin); lia. }
  assert (∀ p, p ∈ storageMsgList lists ++ storageNotificationList lists ++
      notStorageNotificationList lists → p ≠ v ∧ p ≠ length h) as Hfresh.
  { intros p Hp. assert ((p < v)%nat ∨ (n ≤ p)%nat) by (apply Hold; set_solver +Hp).
    assert (p < length h)%nat; [|lia].
    rewrite !elem_of_app in Hp. destruct Hp as [Hp|[Hp|Hp]];
      (eapply points_elem in Hp as [x Hx]; [by apply lookup_lt_Some in Hx|done]). }
  apply Hkeep in H0; [|intros p Hp%elem_of_seq; lia].
  apply Hkeep in H1; [|intros p Hp; apply Hold; rewrite !elem_of_app; tauto].
  apply Hkeep in H2; [|intros p Hp; apply Hold; rewrite !elem_of_app; tauto].
  apply Hkeep in H3; [|intros p Hp; apply Hold; rewrite !elem_of_app; tauto].
  apply Hkeep in H4; [|intros p Hp; apply Hold; rewrite !elem_of_app; tauto].
  apply Hkeep in H5; [|intros p Hp; apply Hold; rewrite !elem_of_app; tauto].
  rewrite sorted_lists_eq. split; cbn [storageMsgList notStorageMsgList storageNotificationList
    notStorageNotificationList modifyMsgList];
    rewrite ?bind_app, ?bind_singleton.
  - unfold h'. rewrite length_app, length_insert. lia.
  - rewrite length_app, Nat.add_comm, fmap_app. cbn [length Nat.add]. rewrite seq_S.
    apply points_app; [done|]. unfold points. cbn. fold v. by rewrite Hv.
  - unfold stored_chat at 2. destruct (is_notif m) eqn:En; [destruct (is_sent m) eqn:Es|].
    + by apply (points_step h' true); [|intros _; apply Hc].
    + by apply (points_step h' false v m).
    + apply points_step; [done|]. intros _. by rewrite Hv, sorted_plain.
  - unfold passed_chat at 2. apply points_step; [done|]. intros Hb. rewrite Hv, sorted_plain; [done|].
    by destruct (is_notif m).
  - unfold stored_notification at 2. by apply points_step.
  - unfold passed_notification at 2. by apply points_step.
  - rewrite filter_app, fmap_app, filter_cons, filter_nil. destruct (is_reaction m); cbn.
    + apply points_app; [done|]. unfold points. cbn. by rewrite Hv.
    + by rewrite app_nil_r.
  - assert (∀ l, NoDup l → (∀ p, p ∈ l → p = v ∨ p = length h) →
      NoDup (l ++ storageMsgList lists ++ storageNotificationList lists ++
             notStorageNotificationList lists)) as Hnew.
    { intros l Hnl Hl'. apply NoDup_app. split; [done|]. split; [|done].
      intros p Hp Hin. destruct (Hfresh p Hin). naive_solver. }
    assert (NoDup [length h; v]) by (apply NoDup_cons; rewrite list_elem_of_singleton; split; [lia|apply NoDup_singleton]).
    destruct (is_notif m), (is_sent m), (isStorage m); cbn [andb negb]; try done;
      rewrite <-?Permutation_cons_append; cbn [app]; rewrite <-?Permutation_middle;
      first [apply (Hnew [length h; v])|apply (Hnew [v])]; try apply NoDup_singleton; try done; set_solver +.
  - intros p Hp. rewrite length_app. cbn [length]. specialize (Hold p).
    rewrite !elem_of_app in Hp, Hold.
    assert (∀ (b : bool) (l : list nat), p ∈ (if b then l ++ [v] else l) → p ∈ l ∨ p = v) as Hin
      by (intros [] l; set_solver).
    destruct Hp as [Hp|[Hp|[Hp|[Hp|Hp]]]].
    2-5: apply Hin in Hp as [Hp| ->]; [naive_solver lia|lia].
    destruct (is_notif m); [destruct (is_sent m)|]; [|naive_solver lia|].
    + apply elem_of_app in Hp as [Hp| ->%list_elem_of_singleton]; [naive_solver lia|lia].
    + apply Hin in Hp as [Hp| ->]; [naive_solver lia|lia].
Qed.

Lemma wp_getPushStorageMsgList ms :
  wp (getPushStorageMsgList (seq 0 (length ms)))
    (λ r h, ∃ lists, r = Ok lists ∧ sorted_group (length ms) ms lists h) ms.
Proof.
  set (n := length ms). apply (wp_fold_each _ _ _ (λ done lists h, sorted_group n (take (length done) ms) lists h ∧
    ∀ j, (length done ≤ j < n)%nat → h !! j = ms !! j)).
  - split; [|done]. split; try done; cbn; [constructor|]. intros p. by rewrite elem_of_nil.
  - intros done v rest lists h Hl [Hg Hrest].
    assert (v = length done ∧ length done < n)%nat as [-> Hlt].
    { assert (seq 0 n !! length done = Some v) as Hv by (by rewrite Hl, lookup_app_r, Nat.sub_diag).
      by apply lookup_seq in Hv. }
    destruct (lookup_lt_is_Some_2 ms (length done) Hlt) as [m Hm].
    assert (length (take (length done) ms) = length done) as Ht by (rewrite length_take; lia).
    unfold wp. rewrite (sort_msg_eq _ _ m) by (by rewrite Hrest by lia).
    rewrite length_app, Nat.add_comm. cbn [length Nat.add]. rewrite (take_S_r _ _ m) by done. split.
    + pose proof (sorted_group_step n (take (length done) ms) lists h m) as Hstep.
      rewrite Ht in Hstep. apply Hstep; [done..|]. by rewrite Hrest by lia.
    + intros j Hj. pose proof (sg_length _ _ _ _ Hg).
      rewrite lookup_app_l by (rewrite length_insert; lia).
      rewrite list_lookup_insert_ne by lia. apply Hrest. lia.
  - intros lists h [Hg _]. rewrite length_seq in Hg. unfold n in *. rewrite firstn_all in Hg. eauto.
Qed.

(** A group is sorted as the values say: every list points to the messages of
    its kind in the order of the group, no message is in two of the lists that
    get numbers, and the notifications are left as [sorted_msg] says. *)
Theorem getPushStorageMsgList_sorts ms :
  let '(r, h) := getPushStorageMsgList (seq 0 (length ms)) ms in
  ∃ lists, r = Ok lists ∧ sorted_group (length ms) ms lists h.
Proof. apply wp_getPushStorageMsgList. Qed.

(** ** What is sent on for a group *)

(** The messages with the numbers that follow [last]. *)
Definition numbered (last : Z) (ms : list MsgData) : list MsgData :=
  imap (λ i, set_Seq (last + 1 + Z.of_nat i)) ms.

Definition is_creation (e : TransferEffect) : bool :=
  match e with
  | GenEncryptionKey _ | CreateGroupChatConversations _ _
  | CreateSingleChatConversations _ _ _ _ => true
  | _ => false
  end.

(** The cache serves the last number of a conversation: it is read, or absent, and it is
    written. *)
Definition counts (R : Type) `{Redis R} (c : string) : Prop :=
  (∀ r : R, answers_get (getMaxSeqKey c) r) ∧
  (∀ v (r : R), (Redis_Set (getMaxSeqKey c) v 0 r).1 = inl ()).

(** What is sent for the messages of a conversation, whose last number was
    [old]: those that are not kept go to the push topic; those that are kept
    are numbered, and go to the topic of the store and then to the push topic,
    with the same numbers. The latter go nowhere if there are none, or more than
    a hundred, or if the cache fails to read or write the last number.  [r] is the
    cache afterwards. *)
Definition sent_on {R} `{Redis R} (key c : string) (keep pass : list MsgData) (old : option Z)
    (r : R) (es : list TransferEffect) : Prop :=
  let last := default 0 old in
  (es = MQ_Push key c <$> pass ∧ (counts R c → keep = [] ∨ 100 < len keep)) ∨
  ∃ creations,
    es = (MQ_Push key c <$> pass) ++ creations ++
         MQ_Mongo key c (numbered last keep) last :: (MQ_Push key c <$> numbered last keep) ∧
    1 ≤ len keep ≤ 100 ∧
    Forall is_creation creations ∧ (is_Some old → creations = []) ∧
    kv r !! getMaxSeqKey c = Some (FormatInt (last + len keep)).

Lemma wp_load_all ps ms h (Q : outcome (list MsgData) → list MsgData → Prop) :
  points h ps ms → Q (Ok ms) h → wp (load_all ps) Q h.
Proof.
  intros Hp HQ. apply (wp_fold_each _ _ _ (λ done acc h', h' = h ∧ acc = take (length done) ms)).
  - done.
  - intros done p rest acc h' Hl [-> ->].
    destruct (points_lookup h ps ms (length done) p) as (m & Em & Hm);
      [done|by rewrite Hl, lookup_app_r, Nat.sub_diag|].
    unfold wp, mbind, M_bind. rewrite (load_eq _ m) by done. split; [done|].
    rewrite length_app, Nat.add_comm. cbn [length Nat.add]. by rewrite (take_S_r _ _ m).
  - intros acc h' [-> ->]. by rewrite (points_length _ _ _ Hp), firstn_all.
Qed.

Lemma wp_store_all ps ms ms' h (Q : outcome () → list MsgData → Prop) :
  points h ps ms → NoDup ps → length ms' = length ms →
  (∀ h', points h' ps ms' → (∀ p, p ∉ ps → h' !! p = h !! p) → length h' = length h → Q (Ok ()) h') →
  wp (store_all ps ms') Q h.
Proof.
  intros Hp Hnd Hl HQ. pose proof (points_length _ _ _ Hp) as Hps. unfold store_all.
  revert ms ms' h Hp Hl Hps HQ. induction ps as [|p ps IH]; intros ms ms' h Hp Hl Hps HQ.
  - destruct ms; [|done]. destruct ms'; [|done]. apply wp_ret, HQ; done.
  - destruct ms as [|m ms]; [done|]. destruct ms' as [|m' ms']; [done|].
    cbn [zip zip_with for_each]. apply NoDup_cons in Hnd as [Hnp Hnd].
    injection Hp as Hpm Hp. injection Hl as Hl. injection Hps as Hps.
    apply wp_bind, wp_modify, (IH Hnd ms); [|done..|].
    + unfold points. trans ((λ p, h !! p) <$> ps); [|exact Hp]. apply list_fmap_ext. intros i q Hq.
      apply list_lookup_insert_ne. intros ->. by apply Hnp, (list_elem_of_lookup_2 _ i).
    + intros h' Hp' Ho Hlen. rewrite length_insert in Hlen. apply HQ; [| |done].
      * unfold points. cbn. rewrite Ho by done.
        rewrite list_lookup_insert_eq by (by eapply lookup_lt_Some). by f_equal.
      * intros q Hq. rewrite Ho by set_solver. apply list_lookup_insert_ne. set_solver.
Qed.

Section Counts.
Context {W R : Type} `{MsgCollectionLaws W} `{RedisLaws R} `{ToolsLaws} `{MapRange} `{ProtoLaws}.
Context (MsgCacheTimeout : Z).

Lemma wp_SetMaxSeq_counts c v (r : R) : counts R c → wp (SetMaxSeq c v) (λ x _, x = Ok ()) r.
Proof.
  intros [_ Hset]. apply wp_wrap_error. unfold wp, run. specialize (Hset (FormatInt v) r).
  destruct (Redis_Set _ _ _ r) as [x r']. cbn in Hset. by subst x.
Qed.

(** A batch of an admissible size is inserted if the cache serves the last number. *)
Lemma wp_BatchInsertChat2Cache_counts c msgs old (w : W * R) :
  kv w.2 !! getMaxSeqKey c = FormatInt <$> old → (∀ z, old = Some z → 0 ≤ z < 2 ^ 63 - 100) →
  counts R c → 1 ≤ len msgs ≤ 100 →
  wp (BatchInsertChat2Cache MsgCacheTimeout c msgs) (λ x _, ∃ n b ms', x = Ok (n, b, None, ms')) w.
Proof.
  intros Hk Hold Hc Hl.
  assert (∀ n b v, wp (if GetSingleGocMsgNum <? len msgs then
          mret (0, false, Some (Bare (ErrText "too large")), msgs)
        else if len msgs <? 1 then
          mret (0, false, Some (Bare (ErrText "too short as 0")), msgs)
        else insert_numbered (W:=W) (R:=R) MsgCacheTimeout c b n msgs)
      (λ x _, ∃ n b ms', x = Ok (n, b, None, ms')) v) as Hrest.
  { intros n b v. assert (GetSingleGocMsgNum <? len msgs = false) as -> by (apply Z.ltb_ge; change GetSingleGocMsgNum with 100; lia).
    assert (len msgs <? 1 = false) as -> by (apply Z.ltb_ge; lia).
    unfold insert_numbered. cbv zeta.
    apply wp_bind, wp_try, wp_on_snd, wp_SetMessageToCache; intros;
    (apply wp_bind, wp_try, wp_on_snd; eapply wp_mono; [|by apply wp_SetMaxSeq_counts]; intros ? ? ->);
    (apply wp_bind, wp_try, wp_on_snd, wp_setSeqs; [intros k k'; apply getHasReadSeqKey_user_inj|..]; intros;
     apply wp_ret; eauto). }
  assert (∀ z, old = Some z → int64 z) as Hi by (intros z Hz; specialize (Hold z Hz); unfold int64; lia).
  unfold BatchInsertChat2Cache, GetMaxSeq, getSeq. apply wp_bind, wp_try, wp_on_snd, wp_wrap_error, wp_bind.
  destruct Hc as [Hget _]. specialize (Hget w.2). unfold answers_get in Hget. unfold wp at 1, run.
  destruct (Redis_Get (getMaxSeqKey c) w.2) as [[v|e] r'] eqn:E; cbn [fst] in Hget.
  - apply Get_some in E. rewrite Hk in E. destruct old as [z|]; [|done]. injection E as <-.
    cbn [of_sum]. rewrite Int64_Format by auto. cbn. apply Hrest.
  - cbn. rewrite bool_decide_eq_true_2 by done. apply Hrest.
Qed.
End Counts.

Section SentOn.
Context {W R : Type} `{MsgCollectionLaws W} `{RedisLaws R} `{ToolsLaws} `{MapRange} `{ProtoLaws}
  `{Services TransferEffect}.
Context (db : producers) (answers : list TransferEffect → TransferEffect → option error).
Context (MsgCacheTimeout : Z) (IsEncryption : bool).
Context (Hpush : is_Some (producerToPush db)) (Hmongo : is_Some (producerToMongo db)).
Abbreviation S := (list MsgData * ((W * R) * (och_counters * list TransferEffect)))%type.

Lemma wp_toPushTopic key c ps ms h d o e (Q : outcome () → S → Prop) :
  points h ps ms → Q (Ok ()) (h, (d, (o, e ++ (MQ_Push key c <$> ms)))) →
  wp (toPushTopic db answers key c ps) Q (h, (d, (o, e))).
Proof.
  intros Hp HQ. apply (wp_for_each _ _ (λ done w, w = (h, (d, (o, e ++ (MQ_Push key c <$> take (length done) ms)))))).
  - by rewrite take_0, app_nil_r.
  - intros done p rest w' Hl ->.
    destruct (points_lookup h ps ms (length done) p) as (m & Em & Hm);
      [done|by rewrite Hl, lookup_app_r, Nat.sub_diag|].
    apply wp_bind, wp_on_fst. unfold wp at 1. cbn [fst]. rewrite (load_eq _ m) by done.
    apply wp_bind, wp_try, wp_on_snd, wp_on_snd, wp_on_snd. cbn [fst snd].
    unfold MsgToPushMQ, SendMessage. destruct Hpush as [t ->].
    rewrite length_app, Nat.add_comm. cbn [length Nat.add]. rewrite (take_S_r _ _ m), fmap_app, app_assoc by done.
    apply wp_bind, wp_ret, wp_tell; intros; by apply wp_ret.
  - intros w' ->. by rewrite (points_length _ _ _ Hp), firstn_all.
Qed.

Lemma wp_toMongoTopic key c ps ms last h d o e (Q : outcome () → S → Prop) :
  points h ps ms → ms ≠ [] → Q (Ok ()) (h, (d, (o, e ++ [MQ_Mongo key c ms last]))) →
  wp (toMongoTopic db answers key c ps last) Q (h, (d, (o, e))).
Proof.
  intros Hp Hne HQ. unfold toMongoTopic. apply wp_bind, wp_on_fst, (wp_load_all _ ms); [done|].
  apply wp_bind, wp_try, wp_on_snd, wp_on_snd, wp_on_snd. cbn [fst snd].
  unfold MsgToMongoMQ, SendMessage. destruct Hmongo as [t ->].
  assert (0 <? len ms = true) as -> by (apply Z.ltb_lt; destruct ms; [done|]; unfold len; cbn [length]; lia).
  apply wp_bind, wp_ret, wp_tell; intros; by apply wp_ret.
Qed.

Lemma wp_insert_to_cache c old ps ms h d o e (Q : outcome (Z * bool * option error) → S → Prop) :
  points h ps ms → NoDup ps →
  kv d.2 !! getMaxSeqKey c = FormatInt <$> old →
  (∀ z, old = Some z → 0 ≤ z < 2 ^ 63 - 100) →
  (∀ lastMax isNew err ms' h' d', inserted c ms old d (Ok (lastMax, isNew, err, ms')) d' →
     (is_Some err → counts R c → ms = [] ∨ 100 < len ms) →
     points h' ps ms' → (∀ p, p ∉ ps → h' !! p = h !! p) → length h' = length h →
     Q (Ok (lastMax, isNew, err)) (h', (d', (o, e)))) →
  wp (insert_to_cache MsgCacheTimeout c ps) Q (h, (d, (o, e))).
Proof.
  intros Hp Hnd Hk Hold HQ. unfold insert_to_cache.
  apply wp_bind, wp_on_fst, (wp_load_all _ ms); [done|]. cbn [fst snd].
  apply wp_bind, wp_on_snd, wp_on_fst. cbn [fst snd].
  pose proof (wp_BatchInsertChat2Cache_counts MsgCacheTimeout c ms old d Hk Hold) as Hserved.
  rewrite wp_eq in Hserved.
  apply (wp_mono _ (λ r d', inserted c ms old d r d' ∧ (counts R c → 1 ≤ len ms ≤ 100 → ∃ n b ms', r = Ok (n, b, None, ms')))).
  2:{ pose proof (wp_BatchInsertChat2Cache MsgCacheTimeout c ms old d Hk Hold) as Hins. rewrite wp_eq in Hins |- *. by split. }
  intros [[[[lastMax isNew] err] ms']|e'| |] d' [Hins Hserve]; [|by destruct Hins as (_ & _ & [])..].
  apply wp_bind, wp_on_fst, (wp_store_all _ ms ms'); [done|done| |].
  { by destruct Hins as (_ & _ & _ & ? & _). }
  intros h' Hp' Ho Hlen. apply wp_ret. eapply HQ; [done| |done..].
  intros [err' ->] Hc. destruct ms as [|m ms]; [by left|]. destruct (decide (len (m :: ms) ≤ 100)); [|right; lia].
  destruct (Hserve Hc) as (? & ? & ? & [=]). unfold len in *. cbn [length] in *. lia.
Qed.

Lemma inserted_numbered c ms old (d d' : W * R) lastMax isNew ms' :
  inserted c ms old d (Ok (lastMax, isNew, None, ms')) d' →
  lastMax = default 0 old ∧ isNew = bool_decide (old = None) ∧ ms' = numbered lastMax ms ∧
  1 ≤ len ms ≤ 100 ∧ kv d'.2 !! getMaxSeqKey c = Some (FormatInt (lastMax + len ms)).
Proof.
  intros (_ & _ & Hl & _ & _ & Hi). destruct (Hi eq_refl) as (-> & -> & Hm & Hk).
  assert (1 ≤ len ms ≤ 100) by (by destruct Hl as [?|[_ [??]]]).
  split_and?; try done; try lia.
  apply list_eq. intros i. unfold numbered. by rewrite Hm, list_lookup_imap.
Qed.

Lemma wp_first_create c m e (Q : outcome () → list TransferEffect → Prop) :
  (∀ cs, Forall is_creation cs → Q (Ok ()) (e ++ cs)) →
  wp (first_create answers IsEncryption c m) Q e.
Proof.
  intros HQ. unfold first_create. apply wp_bind.
  assert (∀ e0, Forall is_creation e0 → wp (if SessionType m =? SuperGroupChatType then
      r ← try (GetGroupMemberIDs (GroupID m));
      match r with
      | inr _ => mret ()
      | inl userIDs =>
          _ ← try (tell answers (CreateGroupChatConversations (GroupID m) userIDs)); mret ()
      end
    else if (SessionType m =? SingleChatType) || (SessionType m =? NotificationChatType) then
      _ ← try (tell answers (CreateSingleChatConversations (RecvID m) (SendID m) c
               (SessionType m))); mret ()
    else mret ()) Q (e ++ e0)) as Hrest.
  { intros e0 He0. unfold GetGroupMemberIDs. wp_run; rewrite <-?app_assoc; apply HQ;
      try done; apply Forall_app; split; try done; by repeat constructor. }
  destruct IsEncryption.
  - apply wp_bind, wp_try, wp_tell; intros; apply wp_ret, Hrest; by repeat constructor.
  - apply wp_ret. rewrite <-(app_nil_r e). by apply Hrest.
Qed.

Lemma wp_handleNotification key c old ps qs keep pass h d o e (Q : outcome () → S → Prop) :
  points h ps keep → points h qs pass → NoDup ps →
  kv d.2 !! getMaxSeqKey c = FormatInt <$> old →
  (∀ z, old = Some z → 0 ≤ z < 2 ^ 63 - 100) →
  (∀ h' d' es, d'.1 = d.1 → (∀ p, p ∉ ps → h' !! p = h !! p) → length h' = length h →
     (∀ c', c' ≠ c → kv d'.2 !! getMaxSeqKey c' = kv d.2 !! getMaxSeqKey c') →
     sent_on key c keep pass old d'.2 es → Q (Ok ()) (h', (d', (o, e ++ es)))) →
  wp (handleNotification db answers MsgCacheTimeout key c ps qs) Q (h, (d, (o, e))).
Proof.
  intros Hp Hq Hnd Hk Hold HQ. unfold handleNotification.
  apply wp_bind, (wp_toPushTopic key c _ pass); [done|].
  destruct (0 <? len ps) eqn:Hlen.
  2:{ apply wp_ret, HQ; try done. left. split; [done|]. left. by eapply points_none. }
  apply wp_bind, (wp_insert_to_cache c old _ keep); [done..|].
  intros lastMax isNew [err|] ms' h' d' Hins Hlost Hp' Ho Hlh.
  - destruct Hins as (Hd & Hother & _). apply wp_ret, HQ; try done. left. split; [done|]. by apply Hlost.
  - pose proof Hins as (Hd & Hother & _).
    apply inserted_numbered in Hins as (-> & _ & -> & Hl & Hmax).
    apply wp_bind, (wp_toMongoTopic key c _ (numbered (default 0 old) keep)); [done| |].
    { intros He. apply (f_equal length) in He. unfold numbered in He. rewrite length_imap in He.
      unfold len in Hl. cbn in He. lia. }
    apply (wp_toPushTopic key c _ (numbered (default 0 old) keep)); [done|].
    rewrite <-!app_assoc. apply HQ; [done..|]. right. exists [].
    split_and?; (done || lia || by constructor).
Qed.

Lemma wp_handleMsg key c old ps qs keep pass h d o e (Q : outcome () → S → Prop) :
  points h ps keep → points h qs pass → NoDup ps →
  kv d.2 !! getMaxSeqKey c = FormatInt <$> old →
  (∀ z, old = Some z → 0 ≤ z < 2 ^ 63 - 100) →
  (∀ h' d' o' es, d'.1 = d.1 → (∀ p, p ∉ ps → h' !! p = h !! p) → length h' = length h →
     (∀ c', c' ≠ c → kv d'.2 !! getMaxSeqKey c' = kv d.2 !! getMaxSeqKey c') →
     sent_on key c keep pass old d'.2 es → Q (Ok ()) (h', (d', (o', e ++ es)))) →
  wp (handleMsg db answers MsgCacheTimeout IsEncryption key c ps qs) Q (h, (d, (o, e))).
Proof.
  intros Hp Hq Hnd Hk Hold HQ. unfold handleMsg.
  apply wp_bind, (wp_toPushTopic key c _ pass); [done|].
  destruct (0 <? len ps) eqn:Hlen.
  2:{ apply wp_ret, HQ; try done. left. split; [done|]. left. by eapply points_none. }
  apply wp_bind, (wp_insert_to_cache c old _ keep); [done..|].
  intros lastMax isNew [err|] ms' h' d' Hins Hlost Hp' Ho Hlh; pose proof Hins as (Hd & Hother & Hins').
  { destruct Hins' as (_ & _ & Hne & _). unfold not_nil_error.
    rewrite bool_decide_eq_false_2 by (by apply Hne).
    apply wp_on_snd, wp_on_snd, wp_on_fst, wp_modify. apply HQ; [done..|].
    left. split; [done|]. by apply Hlost. }
  clear Hins'. apply inserted_numbered in Hins as (-> & -> & -> & Hl & Hmax). cbn [not_nil_error].
  set (ms' := numbered (default 0 old) keep) in *.
  assert (ms' ≠ []) as Hne.
  { intros He. apply (f_equal length) in He. unfold ms', numbered in He. rewrite length_imap in He.
    unfold len in Hl. cbn in He. lia. }
  apply wp_bind.
  assert (∀ cs, Forall is_creation cs → (is_Some old → cs = []) →
    wp (_ ← on_och (modify (count_success (len ps)));
        _ ← toMongoTopic db answers key c ps (default 0 old);
        toPushTopic db answers key c ps) Q
      (h', (d', (o, (e ++ (MQ_Push key c <$> pass)) ++ cs)))) as Hrest.
  { intros cs Hcs Hno. apply wp_bind, wp_on_snd, wp_on_snd, wp_on_fst, wp_modify. cbn [fst snd].
    apply wp_bind, (wp_toMongoTopic key c _ ms'); [done..|].
    apply (wp_toPushTopic key c _ ms'); [done|].
    rewrite <-!app_assoc. apply HQ; [done..|]. right. exists cs. split_and?; (done || lia). }
  case_bool_decide as Hnew.
  - destruct ps as [|p ps]; [done|]. destruct (points_lookup _ _ _ 0%nat p Hp') as (m & _ & Hm); [done|].
    apply wp_bind, wp_on_fst, wp_ret, wp_bind, wp_on_fst. unfold wp at 1. cbn [fst snd].
    rewrite (load_eq _ m) by done.
    apply wp_on_snd, wp_on_snd, wp_on_snd, wp_first_create. cbn [fst snd].
    intros cs Hcs. apply Hrest; [done|]. rewrite Hnew. by intros [? [=]].
  - apply wp_ret. rewrite <-(app_nil_r (_ ++ (_ <$> _))). by apply Hrest.
Qed.
End SentOn.

Section RunProofs.
Context {W R : Type} `{MsgCollectionLaws W} `{RedisLaws R} `{ToolsLaws} `{MapRange} `{ProtoLaws}
  `{Services TransferEffect}.
Context (answers : list TransferEffect → TransferEffect → option error).
Context (MsgCacheTimeout : Z) (IsEncryption : bool) (LatestMsgToRedis MsgToMongo MsgToPush : string).
Abbreviation db := (NewCommonMsgDatabase LatestMsgToRedis MsgToMongo MsgToPush).
Abbreviation run_group := (Run (W:=W) (R:=R) db answers MsgCacheTimeout IsEncryption).

Lemma conversation_ids_differ m :
  known_session (SessionType m) →
  GetChatConversationIDByMsg m ≠ GetNotificationConversationIDByMsg m.
Proof.
  unfold known_session, GetChatConversationIDByMsg, GetNotificationConversationIDByMsg. intros Hk.
  repeat case_match; bool_facts; try by (cbn; intros [=]). naive_solver lia.
Qed.

Lemma conversation_ids_sorted m :
  GetChatConversationIDByMsg (sorted_msg m) = GetChatConversationIDByMsg m ∧
  GetNotificationConversationIDByMsg (sorted_msg m) = GetNotificationConversationIDByMsg m.
Proof. unfold sorted_msg. case_match; [|done]. by destruct m. Qed.

(** For a group of messages, the store is not touched, and what is sent is
    what [sent_on] says for the chat of the group's first message, followed by
    the same for its notifications; the handler panics exactly if the group has
    a message that modifies or deletes a reaction. *)
Definition group_sent (v : MsgChannelValue) (m0 : MsgData) (old1 old2 : option Z) (d : W * R)
    (e : list TransferEffect) (r : outcome ())
    (s : (W * R) * (och_counters * list TransferEffect)) : Prop :=
  let ms := message <$> ctxMsgList v in
  r = (if bool_decide (filter is_reaction ms = []) then Ok () else Panic) ∧ s.1.1 = d.1 ∧
  ∃ es1 es2, s.2.2 = e ++ es1 ++ es2 ∧
    sent_on (uniqueKey v) (GetChatConversationIDByMsg m0)
      (ms ≫= stored_chat) (ms ≫= passed_chat) old1 s.1.2 es1 ∧
    sent_on (uniqueKey v) (GetNotificationConversationIDByMsg m0)
      (ms ≫= stored_notification) (ms ≫= passed_notification) old2 s.1.2 es2.

(** C20: a group of messages leads to what [group_sent] says: the
    messages of the chat that are not kept are pushed, those that are kept get
    consecutive numbers and are handed to the topic of the store before they are
    pushed with the same numbers, then the same for the notifications. The messages to
    keep of a conversation are dropped only if they are more than a hundred, or if the
    cache fails to read or write the conversation's last number; the handler panics
    exactly if a message modifies or deletes a reaction. The first message is of a
    known kind of session, and the last numbers are far from the largest integer. *)
Theorem Run_sends v m0 old1 old2 (d : W * R) o e :
  head (message <$> ctxMsgList v) = Some m0 → known_session (SessionType m0) →
  kv d.2 !! getMaxSeqKey (GetChatConversationIDByMsg m0) = FormatInt <$> old1 →
  kv d.2 !! getMaxSeqKey (GetNotificationConversationIDByMsg m0) = FormatInt <$> old2 →
  (∀ z, old1 = Some z → 0 ≤ z < 2 ^ 63 - 100) → (∀ z, old2 = Some z → 0 ≤ z < 2 ^ 63 - 100) →
  let '(r, s) := run_group v (d, (o, e)) in group_sent v m0 old1 old2 d e r s.
Proof.
  set (ms := message <$> ctxMsgList v). set (c1 := GetChatConversationIDByMsg m0).
  set (c2 := GetNotificationConversationIDByMsg m0). intros Hm0 Hsess Hk1 Hk2 Hold1 Hold2.
  assert (c1 ≠ c2) as Hc by by apply conversation_ids_differ.
  set (Q := group_sent v m0 old1 old2 d e).
  assert (wp (Run_SourceMessages db answers MsgCacheTimeout IsEncryption (uniqueKey v)
    (seq 0 (length (ctxMsgList v)))) (λ r s, Q r s.2) (ms, (d, (o, e)))) as Hwp.
  2:{ unfold Run. fold ms. unfold wp in Hwp.
      destruct (Run_SourceMessages _ _ _ _ _ _ _) as [r [h s]]. exact Hwp. }
  unfold Run_SourceMessages. rewrite <-(length_fmap message). fold ms.
  apply wp_bind, wp_on_fst. cbn [fst snd]. eapply wp_mono; [|apply wp_getPushStorageMsgList].
  intros r h (lists & -> & Hg).
  assert (h !! 0%nat = Some (sorted_msg m0) ∧ head (seq 0 (length ms)) = Some 0%nat) as [Hh0 Hhead].
  { destruct ms as [|m ms'] eqn:Ems; [done|]. injection Hm0 as ->.
    pose proof (sg_msgs _ _ _ _ Hg) as Hp. by injection Hp. }
  rewrite Hhead. apply wp_bind, wp_on_fst, wp_ret, wp_bind, wp_on_fst. unfold wp at 1. cbn [fst snd].
  rewrite (load_eq _ (sorted_msg m0)) by done. cbv zeta.
  destruct (conversation_ids_sorted m0) as [-> ->]. fold c1 c2.
  pose proof (sg_NoDup _ _ _ _ Hg) as Hnd. apply NoDup_app in Hnd as (Hnd1 & Hdisj & (Hnd2 & _)%NoDup_app).
  eapply wp_bind, wp_handleMsg; [by eexists..|apply Hg|apply Hg|done|done|done|].
  intros h1 d1 o1 es1 Hd1 Hh1 Hl1 Hk1' Hs1.
  assert (∀ ps l, points h ps l → (∀ p, p ∈ ps → p ∉ storageMsgList lists) → points h1 ps l) as Hkeep.
  { intros ps l Hp Hps. apply (points_keep h); [done|]. intros p Hin _. by apply Hh1, Hps. }
  eapply wp_bind, wp_handleNotification; [by eexists..| | |done| |done|].
  { apply Hkeep; [apply Hg|]. intros p Hp Hp'. apply (Hdisj p Hp'). set_solver +Hp. }
  { apply Hkeep; [apply Hg|]. intros p Hp Hp'. apply (Hdisj p Hp'). set_solver +Hp. }
  { rewrite Hk1' by by apply not_eq_sym. exact Hk2. }
  intros h2 d2 es2 Hd2 Hh2 Hl2 Hk2' Hs2.
  pose proof (sg_modify _ _ _ _ Hg) as Hmod.
  destruct (points_exists h2 (modifyMsgList lists)) as [l Hl].
  { intros p Hp. rewrite Hl2, Hl1. destruct (points_elem _ _ _ _ Hmod Hp) as [m Hm].
    by eapply lookup_lt_Some. }
  assert (length l = length (filter is_reaction ms)) as Hll.
  { rewrite <-(points_length _ _ _ Hl), (points_length _ _ _ Hmod). apply length_fmap. }
  apply wp_bind, wp_on_fst, (wp_load_all _ l); [done|]. cbn [fst snd].
  assert (sent_on (uniqueKey v) c1 (ms ≫= stored_chat) (ms ≫= passed_chat) old1 d2.2 es1) as Hs1'.
  { destruct Hs1 as [?|(cs & ? & ? & ? & ? & Hk)]; [by left|]. right. exists cs.
    by rewrite (Hk2' c1) by done. }
  assert (d2.1 = d.1) as Hdocs by (by rewrite Hd2).
  apply wp_bind, wp_try, wp_on_snd, wp_on_snd, wp_on_snd. cbn [fst snd]. unfold MsgToModifyMQ.
  destruct l as [|m l], (filter is_reaction ms) as [|m' l'] eqn:El; try done.
  - apply wp_ret, wp_ret. unfold Q, group_sent. fold ms. rewrite El. split; [done|]. split; [done|].
    exists es1, es2. by rewrite <-app_assoc.
  - assert (0 <? len (m :: l) = true) as -> by (apply Z.ltb_lt; unfold len; cbn [length]; lia).
    apply wp_bind, wp_panic. unfold Q, group_sent. fold ms. rewrite El. split; [done|]. split; [done|].
    exists es1, es2. by rewrite <-app_assoc.
Qed.
End RunProofs.

(** ** The order in which messages reach the handlers *)

Section Order.
Context `{MapRange}.
Context (Unmarshal : string → MsgData + error) (operationID_of : list string → string).
Context (GetHashCode : string → Z).
Abbreviation Channels := (gmap Z (list MsgChannelValue)).

Definition decode (c : ConsumerMessage) : option ContextMsg :=
  match Unmarshal (Value c) with
  | inl m => Some (mkContextMsg m (GetContextWithMQHeader operationID_of (Headers c)))
  | inr _ => None
  end.

(** The messages of a key that decode, in order. *)
Definition by_key (k : string) (l : list ConsumerMessage) : list ContextMsg :=
  omap (λ c, if bool_decide (Key c = k) then decode c else None) l.

(** The messages that arrived. *)
Definition arrivals (es : list claim_event) : list ConsumerMessage :=
  omap (λ e, match e with
             | Arrive msg => if bool_decide (Value msg = "") then None else Some msg
             | Tick => None
             end) es.

(** The channel of a key; the messages of the key that were handed to it. *)
Definition channel_of (k : string) : Z := GetHashCode k `mod` ChannelNum.
Definition handed (k : string) (ch : Channels) : list ContextMsg :=
  default [] (ch !! channel_of k) ≫= λ v,
    if bool_decide (uniqueKey v = k) then ctxMsgList v else [].
Definition well_placed (ch : Channels) : Prop :=
  ∀ i v, v ∈ default [] (ch !! i) → i = channel_of (uniqueKey v) ∧ ctxMsgList v ≠ [].

Lemma by_key_app k l l' : by_key k (l ++ l') = by_key k l ++ by_key k l'.
Proof. apply omap_app. Qed.

Lemma by_key_one k c :
  by_key k [c] = if bool_decide (Key c = k) then match decode c with Some x => [x] | None => [] end else [].
Proof. unfold by_key. cbn. by case_bool_decide. Qed.

Lemma aggregate_spec k l :
  default [] (aggregate Unmarshal operationID_of l !! k) = by_key k l ∧
  aggregate Unmarshal operationID_of l !! k ≠ Some [].
Proof.
  unfold aggregate. induction l as [|c l [IH Hne]] using rev_ind; [done|].
  rewrite foldl_app, by_key_app, by_key_one, <-IH. cbn [foldl]. set (agg := foldl _ _ _) in *.
  unfold add_message, decode. destruct (Unmarshal (Value c)) as [m|].
  - destruct (decide (Key c = k)) as [->|Hk].
    + rewrite bool_decide_eq_true_2, lookup_insert_eq by done. split; [done|].
      cbn. destruct (default [] _); discriminate.
    + rewrite bool_decide_eq_false_2, lookup_insert_ne, app_nil_r by done. done.
  - by case_bool_decide; rewrite app_nil_r.
Qed.

(** What a loop over a map does for one of its keys. *)
Lemma range_pick {A} (m : gmap string (list A)) k :
  (range m ≫= λ '(k', v), if bool_decide (k' = k) then v else []) = default [] (m !! k).
Proof.
  assert (∀ l : list (string * list A), k ∉ l.*1 →
    (l ≫= λ '(k', v), if bool_decide (k' = k) then v else []) = []) as Hnone.
  { induction l as [|[k' v] l IH]; [done|]. cbn. rewrite not_elem_of_cons. intros [Hk Hl].
    rewrite bool_decide_eq_false_2 by congruence. by apply IH. }
  destruct (m !! k) as [v|] eqn:Hm.
  - apply range_lookup in Hm as (l1 & l2 & Hl)%list_elem_of_split.
    pose proof (range_NoDup m) as Hnd. rewrite Hl, fmap_app, fmap_cons in Hnd.
    apply NoDup_app in Hnd as (_ & Hd & [Hn _]%NoDup_cons).
    rewrite Hl, bind_app. cbn [mbind list_bind]. rewrite bool_decide_eq_true_2 by done.
    rewrite (Hnone l1), (Hnone l2), app_nil_r; [done|done|].
    intros Hin. apply (Hd k Hin). by left.
  - apply Hnone. intros [[k' v] [-> Hin%range_lookup]]%list_elem_of_fmap. cbn in Hm. congruence.
Qed.

Lemma handed_send k k' s l ch :
  handed k (send_channel (channel_of k') (mkMsgChannelValue k' s l) ch) =
  handed k ch ++ (if bool_decide (k' = k) then l else []).
Proof.
  unfold handed, send_channel. destruct (decide (channel_of k = channel_of k')) as [->|Hc].
  - rewrite lookup_insert_eq. change (default [] (Some ?x)) with x.
    by rewrite bind_app, bind_singleton.
  - rewrite lookup_insert_ne by done. rewrite bool_decide_eq_false_2 by congruence.
    by rewrite app_nil_r.
Qed.

Lemma well_placed_send k s l ch :
  well_placed ch → l ≠ [] →
  well_placed (send_channel (channel_of k) (mkMsgChannelValue k s l) ch).
Proof.
  intros Hw Hl i v. unfold send_channel. rewrite lookup_insert. case_decide as Hi; [|apply Hw].
  subst i. cbn [default]. intros [Hin| ->%list_elem_of_singleton]%elem_of_app; [by apply Hw|done].
Qed.

Lemma wp_Distribute l ch (Q : outcome () → Channels → Prop) :
  well_placed ch →
  (∀ ch', well_placed ch' → (∀ k, handed k ch' = handed k ch ++ by_key k l) → Q (Ok ()) ch') →
  wp (Distribute Unmarshal operationID_of GetHashCode l) Q ch.
Proof.
  intros Hw HQ. apply (wp_for_each _ _ (λ done ch', well_placed ch' ∧ ∀ k,
    handed k ch' = handed k ch ++ (done ≫= λ '(k', v), if bool_decide (k' = k) then v else []))).
  - split; [done|]. intros k. by rewrite app_nil_r.
  - intros done [k' v] rest ch' Hl [Hw' Hh]. apply wp_modify. fold (channel_of k'). split.
    + apply well_placed_send; [done|]. intros ->.
      apply (proj2 (aggregate_spec k' l)), range_lookup. rewrite Hl. apply elem_of_app. right. by left.
    + intros k. rewrite handed_send, Hh, bind_app, bind_singleton. by rewrite app_assoc.
  - intros ch' [Hw' Hh]. apply HQ; [done|]. intros k.
    by rewrite Hh, range_pick, (proj1 (aggregate_spec k l)).
Qed.

Lemma slices_join l : mjoin (slices l) = l.
Proof.
  unfold slices. set (n := (length l / split)%nat).
  assert (split ≠ 0%nat) as Hs by done.
  assert (∀ j, (j * split ≤ length l)%nat →
    mjoin ((λ i, take split (drop (i * split) l)) <$> seq 0 j) = take (j * split) l) as Hj.
  { induction j as [|j IH]; intros Hj; [done|].
    rewrite seq_S, fmap_app, join_app, IH by lia. cbn [fmap list_fmap mjoin list_join].
    rewrite app_nil_r, Nat.add_0_l. replace (S j * split)%nat with (j * split + split)%nat by lia.
    by rewrite <-take_take_drop. }
  pose proof (Nat.div_mod (length l) split Hs) as Hdm. fold n in Hdm.
  pose proof (Nat.mod_upper_bound (length l) split Hs).
  rewrite join_app, Hj by lia. destruct (0 <? length l mod split)%nat eqn:Hr; cbn [mjoin list_join].
  - rewrite app_nil_r, (Nat.mul_comm split). apply take_drop.
  - apply Nat.ltb_ge in Hr. rewrite app_nil_r. apply take_ge. lia.
Qed.

Lemma wp_for_slices ls ch (Q : outcome () → Channels → Prop) :
  well_placed ch →
  (∀ ch', well_placed ch' → (∀ k, handed k ch' = handed k ch ++ by_key k (mjoin ls)) → Q (Ok ()) ch') →
  wp (for_each ls (Distribute Unmarshal operationID_of GetHashCode)) Q ch.
Proof.
  intros Hw HQ. apply (wp_for_each _ _ (λ done ch', well_placed ch' ∧
    ∀ k, handed k ch' = handed k ch ++ by_key k (mjoin done))).
  - split; [done|]. intros k. by rewrite app_nil_r.
  - intros done l rest ch' _ [Hw' Hh]. apply wp_Distribute; [done|].
    intros ch'' Hw'' Hh''. split; [done|]. intros k.
    rewrite Hh'', Hh, join_app, by_key_app. cbn. by rewrite app_nil_r, app_assoc.
  - intros ch' [Hw' Hh]. by apply HQ.
Qed.

(** However messages arrive and the timer fires, for every key the messages
    handed to the key's channel, followed by those not handed on yet, are those
    that arrived with the key and decode: none is lost, repeated or overtaken;
    and a group never goes to another channel nor is it empty. *)
Theorem ConsumeClaim_in_order es :
  let '(r, (cMsg, ch)) := ConsumeClaim Unmarshal operationID_of GetHashCode es ([], ∅) in
  r = Ok () ∧ well_placed ch ∧
  ∀ k, handed k ch ++ by_key k cMsg = by_key k (arrivals es).
Proof.
  set (Q := λ (r : outcome ()) (s : list ConsumerMessage * Channels), r = Ok () ∧ well_placed s.2 ∧
    ∀ k, handed k s.2 ++ by_key k s.1 = by_key k (arrivals es)).
  assert (wp (ConsumeClaim Unmarshal operationID_of GetHashCode es) Q ([], ∅)) as Hwp.
  2:{ unfold wp in Hwp. by destruct (ConsumeClaim _ _ _ _ _) as [r [cMsg ch]]. }
  apply (wp_for_each _ _ (λ done s, well_placed s.2 ∧
    ∀ k, handed k s.2 ++ by_key k s.1 = by_key k (arrivals done))).
  - split; [|done]. intros i v. cbn. rewrite lookup_empty. cbn. by rewrite elem_of_nil.
  - intros done e rest [cMsg ch] _ [Hw Hk]. unfold arrivals. rewrite omap_app. fold (arrivals done).
    destruct e as [msg|]; cbn [ConsumeClaim_step].
    + apply wp_on_fst, wp_modify. cbn [fst snd]. split; [done|]. intros k. rewrite by_key_app, <-Hk.
      cbn [omap list_omap fst snd]. case_bool_decide; [by rewrite app_nil_r|].
      by rewrite by_key_app, app_assoc.
    + rewrite app_nil_r. apply wp_bind, wp_on_fst, wp_get. cbn [fst snd].
      destruct (0 <? len cMsg) eqn:Hlen; [|by apply wp_ret].
      apply wp_bind, wp_on_fst, wp_modify. cbn [fst snd].
      apply wp_on_snd, wp_for_slices; [done|]. intros ch' Hw' Hh. cbn [fst snd]. split; [done|].
      intros k. by rewrite app_nil_r, Hh, slices_join, <-Hk.
  - intros s [Hw Hk]. by split_and!.
Qed.
End Order.

(** ** Writing to the store *)

Section MongoProofs.
Context {W R : Type} `{MsgCollectionLaws W} `{RedisLaws R} `{ToolsLaws} `{MapRange} `{ProtoLaws}.
Context (Unmarshal : string → (string * list MsgData * Z) + error).
(** Redis carries out deletions. *)
Context (Hdel : ∀ k (r : R), (Redis_Del k r).1 = inl ()).

Definition gone (c : string) (seqs : list Z) (r : R) : Prop :=
  ∀ s, s ∈ seqs → kv r !! getMessageCacheKey c s = None.

Lemma gone_cached c seqs r s : gone c seqs r → s ∈ seqs → cached r c s = None.
Proof.
  intros Hg Hs. unfold cached.
  destruct (Redis_Get (getMessageCacheKey c s) r) as [[v|e] r'] eqn:E; [|done].
  apply Get_some in E. specialize (Hg s Hs). congruence.
Qed.

Lemma wp_Del k r (Q : outcome () → R → Prop) :
  (∀ r', kv r' = delete k (kv r) → Q (Ok ()) r') → wp (run (Redis_Del k)) Q r.
Proof.
  intros HQ. apply wp_run; [intros [] r' E; by eapply HQ, Del_kv|].
  intros e r' E. specialize (Hdel k r). by rewrite E in Hdel.
Qed.

Lemma wp_DeleteMessages c seqs r (Q : outcome () → R → Prop) :
  (∀ r', gone c seqs r' → Q (Ok ()) r') → wp (DeleteMessages c seqs) Q r.
Proof.
  intros HQ. apply (wp_for_each _ _ (λ done r', gone c done r')); [by intros ? ?%elem_of_nil| |done].
  intros done s rest r' _ Hg. apply wp_wrap_error, wp_Del. intros r'' Hr s'.
  rewrite elem_of_app, list_elem_of_singleton, Hr. intros [Hs| ->]; [|apply lookup_delete_eq].
  apply lookup_delete_None. right. by apply Hg.
Qed.

Lemma wp_DelUserDeleteMsgsList c seqs all r (Q : outcome () → R → Prop) :
  gone c all r → (∀ r', gone c all r' → Q (Ok ()) r') → wp (DelUserDeleteMsgsList c seqs) Q r.
Proof.
  intros Hg HQ. apply (wp_for_each _ _ (λ _ r', gone c all r')); [done| |done].
  intros _ s _ r1 _ Hg1. apply wp_bind, wp_try, wp_run; intros x r2 E;
    pose proof (SMembers_keeps (getMessageDelUserListKey c s) r1) as Hr; rewrite E in Hr; cbn in Hr; subst r2;
    [|by apply wp_ret].
  destruct x as [|u us]; [by apply wp_ret|].
  apply wp_bind, (wp_fold_each _ _ _ (λ _ _ r', gone c all r')); [done| |].
  - intros _ u' _ b r2 _ Hg2. apply wp_bind, wp_try.
    assert (∀ x r3, Redis_SRem (getUserDelList c u') (FormatInt s) r2 = (x, r3) → gone c all r3) as Hrem.
    { intros y r3 E3 s' Hs'. pose proof (SRem_kv (getUserDelList c u') (FormatInt s) r2) as Hk.
      rewrite E3 in Hk. cbn in Hk. rewrite Hk. by apply Hg2. }
    apply wp_run; intros y r3 E3; apply wp_ret; by eapply Hrem.
  - intros [] r2 Hg2; [by apply wp_ret|]. apply wp_bind, wp_try, wp_Del. intros r3 Hr3. apply wp_ret.
    intros s' Hs'. rewrite Hr3. apply lookup_delete_None. right. by apply Hg2.
Qed.

(** A batch of the store's topic is removed from the cache whether or not it
    was stored; if it was, its messages can be read back. *)
Theorem handleChatWs2Mongo_moves raw c m0 msgs last (w : W * R) :
  Unmarshal raw = inl (c, m0 :: msgs, last) → wf_docs (docs w.1) →
  1 ≤ Seq m0 → Seq m0 + len (m0 :: msgs) ≤ 2 ^ 63 →
  let '(r, w') := handleChatWs2Mongo Unmarshal raw w in
  let '(stored, d') := BatchInsertChat2DB c (Some <$> m0 :: msgs) last w.1 in
  r = Ok () ∧ w'.1 = d' ∧ (∀ m, m ∈ m0 :: msgs → cached w'.2 c (Seq m) = None) ∧
  match stored with
  | Ok _ => readable c (m0 :: msgs) w'.1
  | Err _ => True
  | Panic | OutOfFuel => False
  end.
Proof.
  intros Hraw Hwf Hq Hend.
  assert (wp (BatchInsertChat2DB c (Some <$> m0 :: msgs) last) (λ r d', match r with
    | Ok _ => readable c (m0 :: msgs) d' | Err _ => True | Panic | OutOfFuel => False end) w.1) as Hst
    by by apply wp_BatchInsertChat2DB.
  unfold wp in Hst. destruct (BatchInsertChat2DB _ _ _ _) as [stored d'] eqn:Est.
  match goal with |- let '(r, w') := _ in @?P r w' => change (wp (handleChatWs2Mongo Unmarshal raw) P w) end.
  unfold handleChatWs2Mongo. rewrite Hraw.
  assert (len (m0 :: msgs) =? 0 = false) as -> by (apply Z.eqb_neq; unfold len; cbn [length]; lia).
  apply wp_bind, wp_try, wp_on_fst. unfold wp at 1. rewrite Est.
  assert (wp (_ ← try (commonMsgDatabase_DeleteMessagesFromCache c (Seq <$> m0 :: msgs));
      commonMsgDatabase_DelUserDeleteMsgsList c (Seq <$> m0 :: msgs))
    (λ r w', r = Ok () ∧ w'.1 = d' ∧ gone c (Seq <$> m0 :: msgs) w'.2) (d', w.2)) as Hrest.
  { apply wp_bind, wp_try, wp_on_snd, wp_DeleteMessages. intros r' Hg. cbn [fst snd].
    apply wp_on_snd, (wp_DelUserDeleteMsgsList _ _ _ _ _ Hg). intros r'' Hg'. by split_and!. }
  destruct stored as [[]|e| |]; [| |done..];
    (eapply wp_mono; [|exact Hrest]; intros r w' (-> & -> & Hg); split_and!; try done;
     intros m Hm; by eapply gone_cached, list_elem_of_fmap_2).
Qed.
End MongoProofs.

(** * The message transfer at work

    Two users' messages from the sender's request to the topic of the store,
    and the theorems of TransferProofs.v on a group of two messages. *)

Import Sample.

#[local] Open Scope Z_scope.
#[local] Existing Instances model_msg_tools model_msg_tools_laws sample_services.

(** A message to keep: without options, which all count as set. *)
Definition kept (t : Z) (from to : string) : MsgData := set_Options None (sample_chat t from to).

(** A notification to keep that is a message of the chat too, without push. *)
Definition noted (from to : string) : MsgData :=
  set_Options (Some (WithOptions ∅ [WithNotNotification false; WithOfflinePush false]))
    (sample_chat SingleChatType from to).

Definition accept_all {A B} (_ : A) (_ : B) : option error := None.
Definition no_hook (_ : CommonCallbackReq) (_ : list Effect) : CallbackMsgModifyCommandResp + error :=
  inr (Bare ErrCallbackContinue).

(** What a request to send puts on the queue. *)
Definition queue_of (m : MsgData) : list (string * MsgData) :=
  omap (λ e, match e with MQ_Send k m => Some (k, m) | _ => None end)
    (SendMsg sample_config 1000 "2023" 7 "op" accept_all no_hook (λ s, s) (λ _, "") (Some m) []).2.

Definition group (k : string) (ms : list MsgData) : MsgChannelValue :=
  mkMsgChannelValue k "" ((λ m, mkContextMsg m "") <$> ms).

Definition transfer (v : MsgChannelValue) :=
  Run (W:=mem_docs) (R:=mem_redis) (NewCommonMsgDatabase "toRedis" "toMongo" "toPush") accept_all 60
    false v ((∅, redis_empty), (mkCounters 0 0, [])).

(** The conversation each message was handed to the store under. *)
Definition filed (es : list TransferEffect) : list (string * MsgData) :=
  es ≫= λ e, match e with MQ_Mongo _ c ms _ => (c,.) <$> ms | _ => [] end.

(** A system notification chat and a single chat between the same two users are
    queued under one key, so they can be in one group; the group is filed under
    the conversation of its first message, which is not the other's. *)
Theorem mixed_sessions_misfiled :
  let q1 := queue_of (kept SingleChatType "alice" "bob") in
  let q2 := queue_of (kept NotificationChatType "alice" "bob") in
  ∃ k m1 m2, q1 = [(k, m1)] ∧ q2 = [(k, m2)] ∧
    GetConversationIDByMsg m2 = "sn_alice_bob" ∧
    (transfer (group k [m1; m2])).1 = Ok () ∧
    filed (transfer (group k [m1; m2])).2.2.2 =
      [("si_alice_bob", set_Seq 1 m1); ("si_alice_bob", set_Seq 2 m2)].
Proof.
  cbv zeta. do 3 eexists. repeat (split; [vm_compute; reflexivity|]). vm_compute. reflexivity.
Qed.

(** A chat message and a notification that is a message too: both are kept. *)
Lemma Run_sends_witness :
  let v := group "alice_bob" [kept SingleChatType "alice" "bob"; noted "alice" "bob"] in
  (filed (transfer v).2.2.2).*1 = ["si_alice_bob"; "si_alice_bob"; "n_alice_bob"] ∧
  let '(r, s) := transfer v in
  group_sent v (kept SingleChatType "alice" "bob") None None (∅, redis_empty) [] r s.
Proof.
  cbv zeta. split; [vm_compute; reflexivity|].
  apply (Run_sends accept_all 60 false "toRedis" "toMongo" "toPush"
    (group "alice_bob" [kept SingleChatType "alice" "bob"; noted "alice" "bob"])
    (kept SingleChatType "alice" "bob") None None (∅, redis_empty) (mkCounters 0 0) []);
    [reflexivity|left; reflexivity|reflexivity|reflexivity|discriminate|discriminate].
Defined.

(** A batch of one message. *)
Definition sample_batch (_ : string) : (string * list MsgData * Z) + error :=
  inl ("si_alice_bob", [set_Seq 1 (kept SingleChatType "alice" "bob")], 0).

Lemma handleChatWs2Mongo_moves_witness :
  let w : mem_docs * mem_redis := (∅, redis_empty) in
  let m := set_Seq 1 (kept SingleChatType "alice" "bob") in
  let '(r, w') := handleChatWs2Mongo sample_batch "" w in
  let '(stored, d') := BatchInsertChat2DB "si_alice_bob" (Some <$> [m]) 0 w.1 in
  r = Ok () ∧ w'.1 = d' ∧ (∀ m', m' ∈ [m] → cached w'.2 "si_alice_bob" (Seq m') = None) ∧
  match stored with
  | Ok _ => readable "si_alice_bob" [m] w'.1
  | Err _ => True
  | Panic | OutOfFuel => False
  end.
Proof.
  assert (∀ k (r : mem_redis), (Redis_Del k r).1 = inl ()) as Hdel by done.
  apply (handleChatWs2Mongo_moves sample_batch Hdel "" "si_alice_bob"
    (set_Seq 1 (kept SingleChatType "alice" "bob")) [] 0 (∅, redis_empty));
    [reflexivity|apply wf_docs_empty|cbn; lia|unfold len; cbn; lia].
Defined.
