(* ===== verification/GroupTypes.v ===== *)
(** * Data of the group service

    The rows of the tables (pkg/common/db/table/relation), the messages of the
    protocol (pkg/protocol/group, pkg/protocol/sdkws) with the checks a request
    passes before it reaches a handler, and the conversions between them
    (pkg/common/convert/group.go, [convert.go] and [db_map.go] of
    internal/rpc/group).  Times are milliseconds; a wrapped value or a pointer
    that may be nil is an option. *)

From S2P Require Import Prelude.
From S2P Require Import Constants.
From S2P Require Import Notification.
From S2P Require Import RpcClient.
From stdpp Require Import options.

#[local] Open Scope Z_scope.

(** ** Rows *)

Record GroupModel := mkGroupModel {
  Group_GroupID : string; Group_GroupName : string; Group_Notification : string;
  Group_Introduction : string; Group_FaceURL : string; Group_CreateTime : Z;
  Group_Ex : string; Group_Status : Z; Group_CreatorUserID : string;
  Group_GroupType : Z; Group_NeedVerification : Z; Group_LookMemberInfo : Z;
  Group_ApplyMemberFriend : Z; Group_NotificationUpdateTime : Z;
  Group_NotificationUserID : string }.

Record GroupMemberModel := mkGroupMemberModel {
  Member_GroupID : string; Member_UserID : string; Member_Nickname : string;
  Member_FaceURL : string; Member_RoleLevel : Z; Member_JoinTime : Z;
  Member_JoinSource : Z; Member_InviterUserID : string; Member_OperatorUserID : string;
  Member_MuteEndTime : Z; Member_Ex : string }.

Record GroupRequestModel := mkGroupRequestModel {
  Request_UserID : string; Request_GroupID : string; Request_HandleResult : Z;
  Request_ReqMsg : string; Request_HandledMsg : string; Request_ReqTime : Z;
  Request_HandleUserID : string; Request_HandledTime : Z; Request_JoinSource : Z;
  Request_InviterUserID : string; Request_Ex : string }.

Record SuperGroupModel := mkSuperGroupModel { Super_GroupID : string; Super_MemberIDs : list string }.
Record UserToSuperGroupModel := mkUserToSuperGroup { User_UserID : string; User_GroupIDs : list string }.
Record GroupSimpleUserID := mkGroupSimpleUserID { Simple_Hash : N; Simple_MemberNum : Z }.

#[export] Instance GroupModel_eq_dec : EqDecision GroupModel.
Proof. solve_decision. Defined.
#[export] Instance GroupMemberModel_eq_dec : EqDecision GroupMemberModel.
Proof. solve_decision. Defined.
#[export] Instance GroupRequestModel_eq_dec : EqDecision GroupRequestModel.
Proof. solve_decision. Defined.

(** The primary keys. *)
Definition member_key (m : GroupMemberModel) : string * string := (Member_GroupID m, Member_UserID m).
Definition request_key (r : GroupRequestModel) : string * string := (Request_GroupID r, Request_UserID r).

(** *** Updates of columns

    A [map[string]any] from columns to values. *)

Inductive group_column :=
  | col_name (v : string) | col_notification (v : string) | col_notification_update_time (v : Z)
  | col_notification_user_id (v : string) | col_introduction (v : string) | col_face_url (v : string)
  | col_need_verification (v : Z) | col_look_member_info (v : Z) | col_apply_member_friend (v : Z)
  | col_group_ex (v : string) | col_status (v : Z).

Definition set_group_column (g : GroupModel) (c : group_column) : GroupModel :=
  let '(mkGroupModel id name ntf intro face create ex status creator type need look apply ntime nuser) := g in
  match c with
  | col_name v => mkGroupModel id v ntf intro face create ex status creator type need look apply ntime nuser
  | col_notification v => mkGroupModel id name v intro face create ex status creator type need look apply ntime nuser
  | col_notification_update_time v => mkGroupModel id name ntf intro face create ex status creator type need look apply v nuser
  | col_notification_user_id v => mkGroupModel id name ntf intro face create ex status creator type need look apply ntime v
  | col_introduction v => mkGroupModel id name ntf v face create ex status creator type need look apply ntime nuser
  | col_face_url v => mkGroupModel id name ntf intro v create ex status creator type need look apply ntime nuser
  | col_need_verification v => mkGroupModel id name ntf intro face create ex status creator type v look apply ntime nuser
  | col_look_member_info v => mkGroupModel id name ntf intro face create ex status creator type need v apply ntime nuser
  | col_apply_member_friend v => mkGroupModel id name ntf intro face create ex status creator type need look v ntime nuser
  | col_group_ex v => mkGroupModel id name ntf intro face create v status creator type need look apply ntime nuser
  | col_status v => mkGroupModel id name ntf intro face create ex v creator type need look apply ntime nuser
  end.

Inductive member_column :=
  | col_nickname (v : string) | col_user_group_face_url (v : string) | col_role_level (v : Z)
  | col_mute_end_time (v : Z) | col_member_ex (v : string).

Definition set_member_column (m : GroupMemberModel) (c : member_column) : GroupMemberModel :=
  let '(mkGroupMemberModel g u nick face role join source inviter operator mute ex) := m in
  match c with
  | col_nickname v => mkGroupMemberModel g u v face role join source inviter operator mute ex
  | col_user_group_face_url v => mkGroupMemberModel g u nick v role join source inviter operator mute ex
  | col_role_level v => mkGroupMemberModel g u nick face v join source inviter operator mute ex
  | col_mute_end_time v => mkGroupMemberModel g u nick face role join source inviter operator v ex
  | col_member_ex v => mkGroupMemberModel g u nick face role join source inviter operator mute v
  end.

Definition set_Handled (handledMsg : string) (handleResult : Z) (r : GroupRequestModel) : GroupRequestModel :=
  let '(mkGroupRequestModel u g _ req _ rtime huser htime source inviter ex) := r in
  mkGroupRequestModel u g handleResult req handledMsg rtime huser htime source inviter ex.

Definition set_group_columns (cs : list group_column) (g : GroupModel) : GroupModel :=
  foldl set_group_column g cs.
Definition set_member_columns (cs : list member_column) (m : GroupMemberModel) : GroupMemberModel :=
  foldl set_member_column m cs.

Record BatchUpdateGroupMember := mkBatchUpdate {
  Batch_GroupID : string; Batch_UserID : string; Batch_Map : list member_column }.

(** ** Messages of the protocol *)

Record PublicUserInfo := mkPublicUserInfo {
  PU_UserID : string; PU_Nickname : string; PU_FaceURL : string; PU_Ex : string }.

Record RequestPagination := mkPagination { PageNumber : Z; ShowNumber : Z }.

Record GroupRequest := mkGroupRequest {
  GRq_UserInfo : option PublicUserInfo; GRq_GroupInfo : option GroupInfo; GRq_HandleResult : Z;
  GRq_ReqMsg : string; GRq_HandleMsg : string; GRq_ReqTime : Z; GRq_HandleUserID : string;
  GRq_HandleTime : Z; GRq_Ex : string; GRq_JoinSource : Z; GRq_InviterUserID : string }.

Record GroupInfoForSet := mkGroupInfoForSet {
  Set_GroupID : string; Set_GroupName : string; Set_Notification : string;
  Set_Introduction : string; Set_FaceURL : string; Set_Ex : option string;
  Set_NeedVerification : option Z; Set_LookMemberInfo : option Z;
  Set_ApplyMemberFriend : option Z }.

Record CMSGroup := mkCMSGroup {
  CMS_GroupInfo : GroupInfo; CMS_GroupOwnerUserName : string; CMS_GroupOwnerUserID : string }.
Record GroupAbstractInfo := mkGroupAbstractInfo {
  Abs_GroupID : string; Abs_GroupMemberNumber : Z; Abs_GroupMemberListHash : N }.

Record CreateGroupReq := mkCreateGroupReq {
  Create_MemberUserIDs : list string; Create_GroupInfo : option GroupInfo;
  Create_AdminUserIDs : list string; Create_OwnerUserID : string }.
Record JoinGroupReq := mkJoinGroupReq {
  Join_GroupID : string; Join_ReqMessage : string; Join_JoinSource : Z; Join_InviterUserID : string }.
Record InviteUserToGroupReq := mkInviteReq {
  Invite_GroupID : string; Invite_Reason : string; Invite_InvitedUserIDs : list string }.
Record KickGroupMemberReq := mkKickReq {
  Kick_GroupID : string; Kick_KickedUserIDs : list string; Kick_Reason : string }.
Record QuitGroupReq := mkQuitReq { Quit_GroupID : string; Quit_UserID : string }.
Record GroupApplicationResponseReq := mkResponseReq {
  Response_GroupID : string; Response_FromUserID : string; Response_HandledMsg : string;
  Response_HandleResult : Z }.
Record TransferGroupOwnerReq := mkTransferReq {
  Transfer_GroupID : string; Transfer_OldOwnerUserID : string; Transfer_NewOwnerUserID : string }.
Record DismissGroupReq := mkDismissReq { Dismiss_GroupID : string; Dismiss_DeleteMember : bool }.
Record MuteGroupMemberReq := mkMuteReq {
  Mute_GroupID : string; Mute_UserID : string; Mute_MutedSeconds : Z }.
Record SetGroupMemberInfo := mkSetMember {
  SetM_GroupID : string; SetM_UserID : string; SetM_Nickname : option string;
  SetM_FaceURL : option string; SetM_RoleLevel : option Z; SetM_Ex : option string }.

(** *** The contents of the notifications *)

Inductive GroupTips :=
  | GroupCreatedTips (Group : GroupInfo) (OpUser : option GroupMemberFullInfo)
      (MemberList : list GroupMemberFullInfo) (OperationTime : Z) (GroupOwnerUser : GroupMemberFullInfo)
  | GroupInfoSetTips (OpUser : GroupMemberFullInfo) (MuteTime : Z) (Group : GroupInfo)
  | GroupInfoSetNameTips (OpUser : GroupMemberFullInfo) (Group : GroupInfo)
  | GroupInfoSetAnnouncementTips (OpUser : GroupMemberFullInfo) (Group : GroupInfo)
  | JoinGroupApplicationTips (Group : GroupInfo) (Applicant : PublicUserInfo) (ReqMsg : string)
  | MemberQuitTips (Group : GroupInfo) (QuitUser : GroupMemberFullInfo)
  | GroupApplicationAcceptedTips (Group : GroupInfo) (OpUser : GroupMemberFullInfo)
      (HandleMsg : string) (ReceiverAs : Z)
  | GroupApplicationRejectedTips (Group : GroupInfo) (OpUser : GroupMemberFullInfo)
      (HandleMsg : string)
  | GroupOwnerTransferredTips (Group : GroupInfo) (OpUser : GroupMemberFullInfo)
      (NewGroupOwner : option GroupMemberFullInfo)
  | MemberKickedTips (Group : GroupInfo) (OpUser : option GroupMemberFullInfo)
      (KickedUserList : list GroupMemberFullInfo)
  | MemberInvitedTips (Group : GroupInfo) (OpUser : GroupMemberFullInfo)
      (InvitedUserList : list GroupMemberFullInfo)
  | MemberEnterTips (Group : GroupInfo) (EntrantUser : GroupMemberFullInfo)
  | GroupDismissedTips (Group : GroupInfo) (OpUser : GroupMemberFullInfo)
  | GroupMemberMutedTips (Group : GroupInfo) (OpUser : GroupMemberFullInfo)
      (MutedUser : option GroupMemberFullInfo) (MutedSeconds : Z)
  | GroupMemberCancelMutedTips (Group : GroupInfo) (OpUser : GroupMemberFullInfo)
      (MutedUser : option GroupMemberFullInfo)
  | GroupMutedTips (Group : GroupInfo) (OpUser : GroupMemberFullInfo)
  | GroupCancelMutedTips (Group : GroupInfo) (OpUser : GroupMemberFullInfo)
  | GroupMemberInfoSetTips (Group : GroupInfo) (OpUser : GroupMemberFullInfo)
      (ChangedUser : option GroupMemberFullInfo)
  | nil_tips.

(** ** The checks of a request (group.go of the protocol)

    A repeated field without elements is nil when it has been decoded. *)

Definition check (b : bool) (text : string) (k : () + error) : () + error :=
  if b then inr (Bare (ErrText text)) else k.

Definition CreateGroupReq_Check (x : CreateGroupReq) : () + error :=
  check (bool_decide (Create_MemberUserIDs x = [])) "memberUserIDS is empty" (
  match Create_GroupInfo x with
  | None => inr (Bare (ErrText "groupInfo is empty"))
  | Some g =>
      check ((2 <? GI_GroupType g) || (GI_GroupType g <? 0)) "GroupType is invalid" (
      check (bool_decide (Create_OwnerUserID x = "")) "ownerUserID" (inl ()))
  end).

Definition JoinGroupReq_Check (x : JoinGroupReq) : () + error :=
  check (bool_decide (Join_GroupID x = "")) "groupID is empty" (
  check ((Join_JoinSource x <? 2) || (4 <? Join_JoinSource x)) "joinSource is invalid" (
  check ((Join_JoinSource x =? 2) && bool_decide (Join_InviterUserID x = "")) "inviterUserID is empty"
    (inl ()))).

Definition GroupApplicationResponseReq_Check (x : GroupApplicationResponseReq) : () + error :=
  check (bool_decide (Response_GroupID x = "")) "groupID is empty" (
  check (bool_decide (Response_FromUserID x = "")) "fromUserID is empty" (
  check ((1 <? Response_HandleResult x) || (Response_HandleResult x <? -1)) "handleResult is invalid"
    (inl ()))).

Definition TransferGroupOwnerReq_Check (x : TransferGroupOwnerReq) : () + error :=
  check (bool_decide (Transfer_GroupID x = "")) "groupID is empty" (
  check (bool_decide (Transfer_OldOwnerUserID x = "")) "oldOwnerUserID is empty" (
  check (bool_decide (Transfer_NewOwnerUserID x = "")) "newOwnerUserID is empty" (inl ()))).

Definition InviteUserToGroupReq_Check (x : InviteUserToGroupReq) : () + error :=
  check (bool_decide (Invite_GroupID x = "")) "groupID is empty" (
  check (bool_decide (Invite_InvitedUserIDs x = [])) "invitedUserIDs is empty" (inl ())).

Definition KickGroupMemberReq_Check (x : KickGroupMemberReq) : () + error :=
  check (bool_decide (Kick_GroupID x = "")) "groupID is empty" (
  check (bool_decide (Kick_KickedUserIDs x = [])) "kickUserIDs is empty" (inl ())).

Definition MuteGroupMemberReq_Check (x : MuteGroupMemberReq) : () + error :=
  check (bool_decide (Mute_GroupID x = "")) "groupID is empty" (
  check (bool_decide (Mute_UserID x = "")) "userID is empty" (
  check (Mute_MutedSeconds x <=? 0) "mutedSeconds is empty" (inl ()))).

Definition SetGroupInfoReq_Check (x : option GroupInfoForSet) : () + error :=
  match x with
  | None => inr (Bare (ErrText "GroupInfoForSets is empty"))
  | Some s => check (bool_decide (Set_GroupID s = "")) "GroupID is empty" (inl ())
  end.

Definition check_page (p : option RequestPagination) : () + error :=
  match p with
  | None => inr (Bare (ErrText "pagination is empty"))
  | Some p => check (PageNumber p <? 1) "pageNumber is invalid" (inl ())
  end.

Definition GetGroupMemberListReq_Check (groupID : string) (pagination : option RequestPagination)
    (filter : Z) : () + error :=
  check (bool_decide (groupID = "")) "groupID is empty"
    (match check_page pagination with
     | inr e => inr e
     | inl _ => check ((filter <? 0) || (5 <? filter)) "filter is invalid" (inl ())
     end).

Definition GetGroupsReq_Check (pagination : option RequestPagination) : () + error :=
  check_page pagination.

Definition GetGroupApplicationListReq_Check (pagination : option RequestPagination)
    (fromUserID : string) : () + error :=
  match check_page pagination with
  | inr e => inr e
  | inl _ => check (bool_decide (fromUserID = "")) "fromUserID is empty" (inl ())
  end.

Definition GetGroupMembersCMSReq_Check (groupID : string) (pagination : option RequestPagination) :
    () + error :=
  check (bool_decide (groupID = "")) "groupID is empty" (check_page pagination).

(** ** Conversions *)

Definition Db2PbGroupInfo (m : GroupModel) (ownerUserID : string) (memberCount : Z) : GroupInfo :=
  {| GI_GroupID := Group_GroupID m; GI_GroupName := Group_GroupName m;
     GI_Notification := Group_Notification m; GI_Introduction := Group_Introduction m;
     GI_FaceURL := Group_FaceURL m; GI_OwnerUserID := ownerUserID;
     GI_CreateTime := Group_CreateTime m; GI_MemberCount := memberCount; GI_Ex := Group_Ex m;
     GI_Status := Group_Status m; GI_CreatorUserID := Group_CreatorUserID m;
     GI_GroupType := Group_GroupType m; GI_NeedVerification := Group_NeedVerification m;
     GI_LookMemberInfo := Group_LookMemberInfo m; GI_ApplyMemberFriend := Group_ApplyMemberFriend m;
     GI_NotificationUpdateTime := Group_NotificationUpdateTime m;
     GI_NotificationUserID := Group_NotificationUserID m |}.

Definition groupDB2PB (group : GroupModel) (ownerUserID : string) (memberCount : Z) : GroupInfo :=
  {| GI_GroupID := Group_GroupID group; GI_GroupName := Group_GroupName group;
     GI_Notification := Group_Notification group; GI_Introduction := Group_Introduction group;
     GI_FaceURL := Group_FaceURL group; GI_OwnerUserID := ownerUserID;
     GI_CreateTime := Group_CreateTime group; GI_MemberCount := memberCount; GI_Ex := Group_Ex group;
     GI_Status := Group_Status group; GI_CreatorUserID := Group_CreatorUserID group;
     GI_GroupType := Group_GroupType group; GI_NeedVerification := Group_NeedVerification group;
     GI_LookMemberInfo := Group_LookMemberInfo group;
     GI_ApplyMemberFriend := Group_ApplyMemberFriend group;
     GI_NotificationUpdateTime := Group_NotificationUpdateTime group;
     GI_NotificationUserID := Group_NotificationUserID group |}.

Definition groupMemberDB2PB (member : GroupMemberModel) (appMangerLevel : Z) : GroupMemberFullInfo :=
  {| GM_GroupID := Member_GroupID member; GM_UserID := Member_UserID member;
     GM_RoleLevel := Member_RoleLevel member; GM_JoinTime := Member_JoinTime member;
     GM_Nickname := Member_Nickname member; GM_FaceURL := Member_FaceURL member;
     GM_AppMangerLevel := appMangerLevel; GM_JoinSource := Member_JoinSource member;
     GM_OperatorUserID := Member_OperatorUserID member; GM_Ex := Member_Ex member;
     GM_MuteEndTime := Member_MuteEndTime member; GM_InviterUserID := Member_InviterUserID member |}.

(** The level of the user in the application is left out. *)
Definition Db2PbGroupMember (m : GroupMemberModel) : GroupMemberFullInfo :=
  {| GM_GroupID := Member_GroupID m; GM_UserID := Member_UserID m;
     GM_RoleLevel := Member_RoleLevel m; GM_JoinTime := Member_JoinTime m;
     GM_Nickname := Member_Nickname m; GM_FaceURL := Member_FaceURL m;
     GM_AppMangerLevel := 0; GM_JoinSource := Member_JoinSource m;
     GM_OperatorUserID := Member_OperatorUserID m; GM_Ex := Member_Ex m;
     GM_MuteEndTime := Member_MuteEndTime m; GM_InviterUserID := Member_InviterUserID m |}.

Definition Db2PbGroupRequest (m : GroupRequestModel) (user : option PublicUserInfo)
    (group : option GroupInfo) : GroupRequest :=
  {| GRq_UserInfo := user; GRq_GroupInfo := group; GRq_HandleResult := Request_HandleResult m;
     GRq_ReqMsg := Request_ReqMsg m; GRq_HandleMsg := Request_HandledMsg m;
     GRq_ReqTime := Request_ReqTime m; GRq_HandleUserID := Request_HandleUserID m;
     GRq_HandleTime := Request_HandledTime m; GRq_Ex := Request_Ex m;
     GRq_JoinSource := Request_JoinSource m; GRq_InviterUserID := Request_InviterUserID m |}.

Definition Db2PbCMSGroup (m : GroupModel) (ownerUserID ownerUserName : string) (memberCount : Z) :
    CMSGroup :=
  {| CMS_GroupInfo := Db2PbGroupInfo m ownerUserID memberCount;
     CMS_GroupOwnerUserName := ownerUserName; CMS_GroupOwnerUserID := ownerUserID |}.

Definition Db2PbGroupAbstractInfo (groupID : string) (groupMemberNumber : Z)
    (groupMemberListHash : N) : GroupAbstractInfo :=
  mkGroupAbstractInfo groupID groupMemberNumber groupMemberListHash.

Definition Pb2DBGroupInfo (now : Z) (m : GroupInfo) : GroupModel :=
  {| Group_GroupID := GI_GroupID m; Group_GroupName := GI_GroupName m;
     Group_Notification := GI_Notification m; Group_Introduction := GI_Introduction m;
     Group_FaceURL := GI_FaceURL m; Group_CreateTime := now; Group_Ex := GI_Ex m;
     Group_Status := GI_Status m; Group_CreatorUserID := GI_CreatorUserID m;
     Group_GroupType := GI_GroupType m; Group_NeedVerification := GI_NeedVerification m;
     Group_LookMemberInfo := GI_LookMemberInfo m; Group_ApplyMemberFriend := GI_ApplyMemberFriend m;
     Group_NotificationUpdateTime := GI_NotificationUpdateTime m;
     Group_NotificationUserID := GI_NotificationUserID m |}.

(** [if x != nil { m[col] = x.Value }], [if s != "" { m[col] = s }] *)
Definition column_if {C A} (col : A → C) (v : option A) : list C :=
  match v with Some v => [col v] | None => [] end.
Definition nonempty (s : string) : option string := if bool_decide (s = "") then None else Some s.

Definition UpdateGroupInfoMap (now : Z) (opUserID : string) (group : GroupInfoForSet) :
    list group_column :=
  column_if col_name (nonempty (Set_GroupName group)) ++
  (if bool_decide (Set_Notification group = "") then []
   else [col_notification (Set_Notification group); col_notification_update_time now;
         col_notification_user_id opUserID]) ++
  column_if col_introduction (nonempty (Set_Introduction group)) ++
  column_if col_face_url (nonempty (Set_FaceURL group)) ++
  column_if col_need_verification (Set_NeedVerification group) ++
  column_if col_look_member_info (Set_LookMemberInfo group) ++
  column_if col_apply_member_friend (Set_ApplyMemberFriend group) ++
  column_if col_group_ex (Set_Ex group).

Definition UpdateGroupStatusMap (status : Z) : list group_column := [col_status status].
Definition UpdateGroupMemberMutedTimeMap (t : Z) : list member_column := [col_mute_end_time t].

Definition UpdateGroupMemberMap (req : SetGroupMemberInfo) : list member_column :=
  column_if col_nickname (SetM_Nickname req) ++
  column_if col_user_group_face_url (SetM_FaceURL req) ++
  column_if col_role_level (SetM_RoleLevel req) ++
  column_if col_member_ex (SetM_Ex req).

(** ** Facts *)

Lemma set_group_columns_id cs g : Group_GroupID (set_group_columns cs g) = Group_GroupID g.
Proof.
  unfold set_group_columns. revert g. induction cs as [|c cs IH]; intros g; [done|].
  cbn [foldl]. rewrite IH. by destruct g, c.
Qed.

Lemma set_member_columns_key cs m : member_key (set_member_columns cs m) = member_key m.
Proof.
  unfold set_member_columns. revert m. induction cs as [|c cs IH]; intros m; [done|].
  cbn [foldl]. rewrite IH. by destruct m, c.
Qed.

Lemma set_Handled_key msg res r : request_key (set_Handled msg res r) = request_key r.
Proof. by destruct r. Qed.

(** The role a row has after an update: the last one the update sets. *)
Definition sets_role (cs : list member_column) : option Z :=
  foldl (λ o c, match c with col_role_level v => Some v | _ => o end) None cs.

Lemma set_member_columns_role cs m :
  Member_RoleLevel (set_member_columns cs m) = default (Member_RoleLevel m) (sets_role cs).
Proof.
  unfold set_member_columns, sets_role.
  induction cs as [|c cs IH] using rev_ind; [done|].
  rewrite !foldl_app. cbn [foldl]. revert IH.
  generalize (foldl set_member_column m cs). intros [] IH. destruct c; cbn in *; done.
Qed.

Lemma UpdateGroupMemberMap_role req : sets_role (UpdateGroupMemberMap req) = SetM_RoleLevel req.
Proof. by destruct req as [? ? [] [] [] []]. Qed.
