(* ===== verification/Sql.v ===== *)
(** * Tables of a relational database

    What the server uses of gorm over MySQL, for one table: [Table] gives the
    statements and the rows they work on, [TableLaws] what a statement does.  A
    statement that fails changes nothing (the engine rolls it back); an update
    counts the rows it changes.  Strings compare exactly: the folding of the
    collation is not modelled.  [mem_table] is a table in memory. *)

From S2P Require Import Prelude.
From stdpp Require Import options.
#[local] Set Default Proof Using "Type*".

#[local] Open Scope Z_scope.

(** The failure of an engine is none of the server's own errors. *)
Definition external (e : error) : Prop := ∃ n, Unwrap e = ErrExternal n.

Class Table (T K R : Type) `{EqDecision R} `{Countable K} := {
  table_key : R → K;
  (** The rows, by primary key. *)
  rows : T → gmap K R;
  (** [Create(&rows)] *)
  sql_Create : list R → T → (() + error) * T;
  (** [Where(p).Delete] *)
  sql_Delete : (R → bool) → T → (() + error) * T;
  (** [Where(p).Updates], with [RowsAffected] *)
  sql_Updates : (R → bool) → (R → R) → T → (Z + error) * T;
  (** [Where(p).Find]; [Pluck] and [Count] read the same rows *)
  sql_Find : (R → bool) → T → list R + error;
  (** [Where(p).Take] *)
  sql_Take : (R → bool) → T → R + error;
  (** [ormutil.GormSearch], [ormutil.GormPage]: the columns searched, the keyword, the page *)
  sql_Search : (R → bool) → list (R → string) → string → Z → Z → T → (Z * list R) + error;
  (** [Where(p).Limit(n).Offset(m).Find] *)
  sql_Limit : (R → bool) → Z → Z → T → list R + error;
}.

Definition insert_rows `{Table T K R} (l : list R) (m : gmap K R) : gmap K R :=
  foldr (λ r, <[table_key r := r]>) m l.

Class TableLaws (T K R : Type) `{Table T K R} : Prop := {
  rows_key t k r : rows t !! k = Some r → table_key r = k;
  Create_ok l t t' : sql_Create l t = (inl (), t') →
    NoDup (table_key <$> l) ∧ (∀ r, r ∈ l → rows t !! table_key r = None) ∧
    rows t' = insert_rows l (rows t);
  Create_err l t e t' : sql_Create l t = (inr e, t') → external e ∧ rows t' = rows t;
  Delete_ok p t t' : sql_Delete p t = (inl (), t') →
    rows t' = filter (λ kr, p kr.2 = false) (rows t);
  Delete_err p t e t' : sql_Delete p t = (inr e, t') → external e ∧ rows t' = rows t;
  Updates_ok p f t n t' : (∀ r, table_key (f r) = table_key r) →
    sql_Updates p f t = (inl n, t') →
    rows t' = (λ r, if p r then f r else r) <$> rows t ∧
    n = Z.of_nat (size (filter (λ kr, p kr.2 = true ∧ f kr.2 ≠ kr.2) (rows t)));
  Updates_err p f t e t' : sql_Updates p f t = (inr e, t') → external e ∧ rows t' = rows t;
  Find_ok p t l : sql_Find p t = inl l →
    l ≡ₚ (map_to_list (filter (λ kr, p kr.2 = true) (rows t))).*2;
  Find_err p t e : sql_Find p t = inr e → external e;
  Take_ok p t r : sql_Take p t = inl r → p r = true ∧ rows t !! table_key r = Some r;
  Take_err p t e : sql_Take p t = inr e →
    (e = Bare GormNotFound ∧ ∀ k r, rows t !! k = Some r → p r = false) ∨ external e;
  Search_ok p cs kw pg n t c l : sql_Search p cs kw pg n t = inl (c, l) →
    ∀ r, r ∈ l → p r = true ∧ rows t !! table_key r = Some r;
  Search_err p cs kw pg n t e : sql_Search p cs kw pg n t = inr e → external e;
  Limit_ok p n m t l : sql_Limit p n m t = inl l →
    ∀ r, r ∈ l → p r = true ∧ rows t !! table_key r = Some r;
  Limit_err p n m t e : sql_Limit p n m t = inr e → external e;
}.

Lemma lookup_alter_fmap `{Countable K} {R} (f : R → R) (m : gmap K R) k k' :
  alter f k m !! k' = (λ r, if decide (k' = k) then f r else r) <$> m !! k'.
Proof.
  destruct (decide (k' = k)) as [->|Hk]; [by rewrite lookup_alter_eq|].
  rewrite lookup_alter_ne by done. by destruct (m !! k').
Qed.

Section Facts.
Context {T K R : Type} `{TableLaws T K R}.

Lemma Find_elem p t l r :
  sql_Find p t = inl l → r ∈ l ↔ p r = true ∧ rows t !! table_key r = Some r.
Proof.
  intros ->%Find_ok. rewrite list_elem_of_fmap. split.
  - intros ([k r'] & -> & Hr). apply elem_of_map_to_list, map_lookup_filter_Some in Hr as [Hr Hp].
    cbn in *. by rewrite (rows_key _ _ _ Hr).
  - intros [Hp Hr]. exists (table_key r, r). split; [done|].
    by apply elem_of_map_to_list, map_lookup_filter_Some.
Qed.

Lemma Find_NoDup p t l : sql_Find p t = inl l → NoDup (table_key <$> l).
Proof.
  intros Hperm%Find_ok. rewrite Hperm.
  replace (table_key <$> _) with (map_to_list (filter (λ kr, p kr.2 = true) (rows t))).*1;
    [apply NoDup_fst_map_to_list|].
  rewrite <-list_fmap_compose. apply list_fmap_ext. intros i [k r] Hk%list_elem_of_lookup_2. cbn.
  by apply elem_of_map_to_list, map_lookup_filter_Some in Hk as [Hk%rows_key _].
Qed.

Lemma Find_length p t l :
  sql_Find p t = inl l → len l = Z.of_nat (size (filter (λ kr, p kr.2 = true) (rows t))).
Proof. intros Hl%Find_ok. unfold len. by rewrite Hl, length_fmap, length_map_to_list. Qed.

Lemma Take_some p t r k : sql_Take p t = inl r → (∀ r, p r = true → table_key r = k) →
  rows t !! k = Some r.
Proof. intros [Hp Hr]%Take_ok Hk. by rewrite <-(Hk r Hp). Qed.

(** Inserting rows with new keys: the new rows and the old ones. *)
Lemma lookup_insert_rows l (m : gmap K R) k :
  insert_rows l m !! k = match list_find (λ r, table_key r = k) l with
                         | Some (_, r) => Some r | None => m !! k end.
Proof.
  unfold insert_rows. induction l as [|r l IH]; [done|]. cbn [foldr list_find].
  rewrite lookup_insert, IH. repeat case_decide; try congruence.
  by destruct (list_find _ l) as [[]|].
Qed.

Lemma lookup_insert_rows_elem l (m : gmap K R) r :
  NoDup (table_key <$> l) → r ∈ l → insert_rows l m !! table_key r = Some r.
Proof.
  unfold insert_rows. induction l as [|x l IH]; [by rewrite elem_of_nil|]. cbn.
  intros [Hx Hn]%NoDup_cons [->|Hr]%elem_of_cons; [by rewrite lookup_insert_eq|].
  rewrite lookup_insert_ne; [auto|]. intros E. apply Hx. rewrite E. by apply list_elem_of_fmap_2.
Qed.

Lemma lookup_insert_rows_ne l (m : gmap K R) k :
  (∀ r, r ∈ l → table_key r ≠ k) → insert_rows l m !! k = m !! k.
Proof.
  unfold insert_rows. induction l as [|x l IH]; [done|]. cbn. intros Hl.
  rewrite lookup_insert_ne by (apply Hl; left). apply IH. intros r Hr. apply Hl. by right.
Qed.

Lemma lookup_insert_rows_some l (m : gmap K R) k r :
  insert_rows l m !! k = Some r → (r ∈ l ∧ table_key r = k) ∨ m !! k = Some r.
Proof.
  unfold insert_rows. induction l as [|x l IH]; cbn; [auto|]. rewrite lookup_insert. case_decide.
  - intros [= ->]. left. split; [by left|done].
  - intros [[]|]%IH; [left|right]; [split; [by right|done]|done].
Qed.
End Facts.

(** ** Statements and transactions as computations *)

Definition stmt {S A} (call : S → (A + error) * S) : M S A :=
  λ s, let '(r, s') := call s in (of_sum r, s').
(** A query. *)
Definition query {S A} (call : S → A + error) : S → (A + error) * S := λ s, (call s, s).

Lemma wp_stmt {S A} (call : S → (A + error) * S) (Q : outcome A → S → Prop) s :
  (∀ r s', call s = (r, s') → Q (of_sum r) s') → wp (stmt call) Q s.
Proof. intros HQ. unfold wp, stmt. destruct (call s) eqn:E. by apply HQ. Qed.

Lemma wp_query {S A} (f : S → A + error) (Q : outcome A → S → Prop) s :
  (∀ a, f s = inl a → Q (Ok a) s) → (∀ e, f s = inr e → Q (Err e) s) → wp (stmt (query f)) Q s.
Proof. intros Ha He. apply wp_stmt. intros r s' [= <- <-]. destruct (f s); cbn; auto. Qed.

#[export] Instance read_only_query {S A} (f : S → A + error) : ReadOnly (stmt (query f)).
Proof. by intros s. Qed.

Section StatementRules.
Context {T K R : Type} `{TableLaws T K R}.
Implicit Types (t : T).

Lemma wp_sql_Create l (Q : outcome () → T → Prop) t :
  (∀ t', NoDup (table_key (T:=T) <$> l) → (∀ r, r ∈ l → rows t !! table_key (T:=T) r = None) →
     rows t' = insert_rows (T:=T) l (rows t) → Q (Ok ()) t') →
  (∀ t' e, external e → rows t' = rows t → Q (Err e) t') →
  wp (stmt (sql_Create l)) Q t.
Proof.
  intros Hok Herr. apply wp_stmt. intros [[]|e] t' E; cbn.
  - apply Create_ok in E as (? & ? & ?). by apply Hok.
  - apply Create_err in E as [? ?]. by apply Herr.
Qed.

Lemma wp_sql_Delete p (Q : outcome () → T → Prop) t :
  (∀ t', rows t' = filter (λ kr, p kr.2 = false) (rows t) → Q (Ok ()) t') →
  (∀ t' e, external e → rows t' = rows t → Q (Err e) t') →
  wp (stmt (sql_Delete p)) Q t.
Proof.
  intros Hok Herr. apply wp_stmt. intros [[]|e] t' E; cbn.
  - apply Delete_ok in E. by apply Hok.
  - apply Delete_err in E as [? ?]. by apply Herr.
Qed.

Lemma wp_sql_Updates (p : R → bool) (f : R → R) (Q : outcome Z → T → Prop) t :
  (∀ r, table_key (T:=T) (f r) = table_key (T:=T) r) →
  (∀ t' n, rows t' = (λ r, if p r then f r else r) <$> rows t → Q (Ok n) t') →
  (∀ t' e, external e → rows t' = rows t → Q (Err e) t') →
  wp (stmt (sql_Updates p f)) Q t.
Proof.
  intros Hf Hok Herr. apply wp_stmt. intros [n|e] t' E; cbn.
  - apply Updates_ok in E as [? ?]; [|done]. by apply Hok.
  - apply Updates_err in E as [? ?]. by apply Herr.
Qed.

(** The row with a key: a predicate that holds of it alone. *)
Lemma wp_sql_Take p k (Q : outcome R → T → Prop) t :
  (∀ r, p r = true ↔ table_key (T:=T) r = k) →
  (∀ r, rows t !! k = Some r → Q (Ok r) t) →
  (rows t !! k = None → Q (Err (Bare GormNotFound)) t) →
  (∀ e, external e → Q (Err e) t) →
  wp (stmt (query (sql_Take p))) Q t.
Proof.
  intros Hp Hs Hn He. apply wp_query.
  - intros r [Hr Hk]%Take_ok. apply Hp in Hr as Hr'. subst k. by apply Hs.
  - intros e [[-> Hnone]|Hx]%Take_err; [|by apply He]. apply Hn, eq_None_not_Some. intros [r Hr].
    pose proof (Hnone _ _ Hr) as Hf. apply rows_key in Hr. apply Hp in Hr. congruence.
Qed.

(** Updates and deletions by key. *)
Lemma fmap_key_alter (p : R → bool) f k (m : gmap K R) :
  (∀ k r, m !! k = Some r → table_key (T:=T) r = k) → (∀ r, p r = true ↔ table_key (T:=T) r = k) →
  (λ r, if p r then f r else r) <$> m = alter f k m.
Proof.
  intros Hm Hp. apply map_eq. intros k'. rewrite lookup_fmap, lookup_alter_fmap.
  destruct (m !! k') as [r|] eqn:Hr; [|done]. cbn. apply Hm in Hr. subst k'. f_equal.
  destruct (p r) eqn:E; case_decide as Hk; try done.
  - by apply Hp in E.
  - apply Hp in Hk. congruence.
Qed.
Lemma filter_key_delete (p : R → bool) k (m : gmap K R) :
  (∀ k r, m !! k = Some r → table_key (T:=T) r = k) → (∀ r, p r = true ↔ table_key (T:=T) r = k) →
  filter (λ kr, p kr.2 = false) m = delete k m.
Proof.
  intros Hm Hp. apply map_eq. intros k'. apply option_eq. intros r.
  rewrite map_lookup_filter_Some, lookup_delete_Some. cbn. split.
  - intros [Hr Hf]. split; [|done]. intros <-. apply Hm in Hr. apply Hp in Hr. congruence.
  - intros [Hne Hr]. split; [done|]. apply not_true_is_false. intros Ht%Hp. apply Hm in Hr. congruence.
Qed.
End StatementRules.

(** *** Where errors come from

    The errors of [m] are those of the engine. *)
Class ExternalErrors {S A} (m : M S A) : Prop := external_errors s e : (m s).1 = Err e → external e.

Section ExternalErrors.
Context {S : Type}.
#[export] Instance external_ret {A} (a : A) : ExternalErrors (mret a : M S A).
Proof. by intros s e [=]. Qed.
#[export] Instance external_bind {A B} (m : M S A) (k : A → M S B) :
  ExternalErrors m → (∀ a, ExternalErrors (k a)) → ExternalErrors (m ≫= k).
Proof.
  intros Hm Hk s e. unfold mbind, M_bind. specialize (Hm s). destruct (m s) as [[a|e'| |] s']; cbn; try done.
  - apply Hk.
  - intros [= <-]. by apply Hm.
Qed.
#[export] Instance external_wrap_error {A} (m : M S A) : ExternalErrors m → ExternalErrors (wrap_error m).
Proof.
  intros Hm s e. unfold wrap_error, try, mbind, M_bind. specialize (Hm s).
  destruct (m s) as [[a|e'| |] s']; cbn; try done. intros [= <-]. by apply (Hm e').
Qed.
#[export] Instance external_zoom {T A} get put (m : M T A) : ExternalErrors m → ExternalErrors (zoom (W:=S) get put m).
Proof. intros Hm s e. unfold zoom. specialize (Hm (get s)). destruct (m _) as [r t]. apply Hm. Qed.
#[export] Instance external_on_fst {R A} (m : M S A) : ExternalErrors m → ExternalErrors (on_fst (R:=R) m).
Proof. intros Hm [s r] e. unfold on_fst. specialize (Hm s). destruct (m s) as [x s']. apply Hm. Qed.
#[export] Instance external_Find `{TableLaws S K R} p : ExternalErrors (stmt (query (sql_Find (T:=S) p))).
Proof. intros t e. unfold stmt, query. destruct (sql_Find p t) eqn:E; cbn; [done|]. intros [= <-]. by eapply Find_err. Qed.
#[export] Instance external_Create `{TableLaws S K R} l : ExternalErrors (stmt (sql_Create (T:=S) l)).
Proof.
  intros t e. unfold stmt. destruct (sql_Create l t) as [[]t'] eqn:E; cbn; [done|]. intros [= <-].
  by apply Create_err in E as [? _].
Qed.
End ExternalErrors.

(** *** A judgement on the rows

    On a table with the rows [m], a computation answers and changes the rows as
    [Q] says, or fails with an error of [X] and leaves the rows. *)
Definition on_rows {T K R A} `{Table T K R} (m : gmap K R) (c : M T A) (Q : A → gmap K R → Prop) (X : error → Prop) : Prop :=
  ∀ t : T, rows t = m → wp c (λ r t', match r with
    | Ok a => Q a (rows t') | Err e => X e ∧ rows t' = m | _ => False end) t.

Section RowRules.
Context {T K R : Type} `{TableLaws T K R}.
Implicit Types (m : gmap K R) (X : error → Prop).

Lemma on_rows_Create l m (Q : () → gmap K R → Prop) X :
  (NoDup (table_key (T:=T) <$> l) → (∀ r, r ∈ l → m !! table_key (T:=T) r = None) → Q () (insert_rows (T:=T) l m)) →
  (∀ e, external e → X e) → on_rows (T:=T) m (stmt (sql_Create l)) Q X.
Proof.
  intros HQ HX t <-. apply wp_sql_Create; [|by auto]. intros t' Hn Hf ->. by apply HQ.
Qed.
Lemma on_rows_Delete p m (Q : () → gmap K R → Prop) X :
  Q () (filter (λ kr, p kr.2 = false) m) → (∀ e, external e → X e) → on_rows (T:=T) m (stmt (sql_Delete p)) Q X.
Proof. intros HQ HX t <-. apply wp_sql_Delete; [|by auto]. by intros t' ->. Qed.
Lemma on_rows_Updates (p : R → bool) f m (Q : Z → gmap K R → Prop) X :
  (∀ r, table_key (T:=T) (f r) = table_key (T:=T) r) →
  (∀ n, Q n ((λ r, if p r then f r else r) <$> m)) → (∀ e, external e → X e) →
  on_rows (T:=T) m (stmt (sql_Updates p f)) Q X.
Proof. intros Hf HQ HX t <-. apply wp_sql_Updates; [done| |by auto]. by intros t' n ->. Qed.
Lemma on_rows_Find p m (Q : list R → gmap K R → Prop) X :
  (∀ l, (∀ r, r ∈ l ↔ p r = true ∧ m !! table_key (T:=T) r = Some r) → NoDup (table_key (T:=T) <$> l) → Q l m) →
  (∀ e, external e → X e) → on_rows (T:=T) m (stmt (query (sql_Find p))) Q X.
Proof.
  intros HQ HX t <-. apply wp_query; [|by intros e ?%Find_err; auto]. intros l Hl. apply HQ.
  - intros r. by apply Find_elem.
  - by eapply Find_NoDup.
Qed.

(** Composition. *)
Lemma on_rows_map {A B} (c : M T A) (f : A → B) m (Q : B → gmap K R → Prop) X :
  on_rows (T:=T) m c (λ a, Q (f a)) X → on_rows (T:=T) m (a ← c; mret (f a)) Q X.
Proof. intros Hc t Ht. apply wp_bind. eapply wp_mono; [|by apply Hc]. by intros []. Qed.
Lemma on_rows_wrap {A} (c : M T A) m (Q : A → gmap K R → Prop) X :
  on_rows (T:=T) m c Q (λ e, X (WrapErr "" e)) → on_rows (T:=T) m (wrap_error c) Q X.
Proof. intros Hc t Ht. apply wp_wrap_error. eapply wp_mono; [|by apply Hc]. by intros []. Qed.

Lemma on_rows_mono {A} m (c : M T A) (Q Q' : A → gmap K R → Prop) X :
  on_rows (T:=T) m c Q X → (∀ a m', Q a m' → Q' a m') → on_rows (T:=T) m c Q' X.
Proof. intros Hc HQ t Ht. eapply wp_mono; [|by apply Hc]. intros []; auto. Qed.

(** Statements on the row of a key. *)
Lemma on_rows_Delete_key p k m (Q : () → gmap K R → Prop) X : (∀ r, p r = true ↔ table_key (T:=T) r = k) →
  Q () (delete k m) → (∀ e, external e → X e) → on_rows (T:=T) m (stmt (sql_Delete p)) Q X.
Proof.
  intros Hp HQ HX t Ht. eapply on_rows_Delete; [|done|done].
  erewrite filter_key_delete; [done| |done]. rewrite <-Ht. apply rows_key.
Qed.
Lemma on_rows_Updates_key p f k m (Q : Z → gmap K R → Prop) X : (∀ r, p r = true ↔ table_key (T:=T) r = k) →
  (∀ r, table_key (T:=T) (f r) = table_key (T:=T) r) → (∀ n, Q n (alter f k m)) → (∀ e, external e → X e) →
  on_rows (T:=T) m (stmt (sql_Updates p f)) Q X.
Proof.
  intros Hp Hf HQ HX t Ht. eapply on_rows_Updates; [done| |done|done]. intros n.
  erewrite fmap_key_alter; [done| |done]. rewrite <-Ht. apply rows_key.
Qed.
Lemma on_rows_Take_key p k m (Q : R → gmap K R → Prop) X : (∀ r, p r = true ↔ table_key (T:=T) r = k) →
  (∀ r, m !! k = Some r → Q r m) → (m !! k = None → X (Bare GormNotFound)) → (∀ e, external e → X e) →
  on_rows (T:=T) m (stmt (query (sql_Take p))) Q X.
Proof. intros Hp HQ Hn HX t <-. eapply wp_sql_Take; [done|by auto..]. Qed.
End RowRules.

(** A transaction on the tables of a world: the body works on its own view of
    them, beside the world, whose tables stay as they were until the commit.  A
    body that fails, or panics, is rolled back. *)
Section Tx.
Context {W T : Type} (get : W → T) (put : T → W → W) (begin_ commit : T → option error).

Definition transaction {A} (body : M (T * W) A) : M W A := λ w,
  match begin_ (get w) with
  | Some e => (Err e, w)
  | None =>
      let '(r, (t', w')) := body (get w, w) in
      match r with
      | Ok a =>
          match commit t' with
          | None => (Ok a, put t' w')
          | Some e => (Err e, w')
          end
      | Err e => (Err e, w')
      | Panic => (Panic, w')
      | OutOfFuel => (OutOfFuel, w')
      end
  end.

Lemma wp_transaction {A} (body : M (T * W) A) (Q : outcome A → W → Prop) w :
  (∀ e, begin_ (get w) = Some e → Q (Err e) w) →
  wp body (λ r '(t', w'), match r with
    | Ok a => (∀ e, commit t' = Some e → Q (Err e) w') ∧ Q (Ok a) (put t' w')
    | Err e => Q (Err e) w' | Panic => Q Panic w' | OutOfFuel => Q OutOfFuel w' end) (get w, w) →
  wp (transaction body) Q w.
Proof.
  unfold transaction, wp. intros He. destruct (begin_ _); [auto|].
  destruct (body _) as [[] [t' w']]; auto. intros [Hc Ho]. destruct (commit _); auto.
Qed.

#[export] Instance keeps_transaction {A B} (f : W → B) (body : M (T * W) A) :
  Keeps (f ∘ snd) body → Apart f put → Keeps f (transaction body).
Proof.
  intros Hb Hp w. unfold transaction. destruct (begin_ _); [done|]. specialize (Hb (get w, w)). cbn in Hb.
  destruct (body _) as [[] [t' w']]; try done. destruct (commit _); [done|]. cbn. by rewrite Hp.
Qed.
End Tx.

(** A transaction whose body also makes statements that do not use it: they work on
    the tables of the world at once, and stay whatever becomes of the transaction;
    what the commit publishes is [merge start end world]: the rows that the
    transaction changed, in the tables as they are then. *)
Section MergeTx.
Context {W T : Type} (get : W → T) (put : T → W → W) (begin_ commit : T → option error) (merge : T → T → T → T).

Definition merging_transaction {A} (body : M (T * W) A) : M W A := λ w,
  match begin_ (get w) with
  | Some e => (Err e, w)
  | None =>
      let '(r, (t', w')) := body (get w, w) in
      match r with
      | Ok a =>
          match commit t' with
          | None => (Ok a, put (merge (get w) t' (get w')) w')
          | Some e => (Err e, w')
          end
      | Err e => (Err e, w')
      | Panic => (Panic, w')
      | OutOfFuel => (OutOfFuel, w')
      end
  end.

Lemma wp_merging_transaction {A} (body : M (T * W) A) (Q : outcome A → W → Prop) w :
  (∀ e, begin_ (get w) = Some e → Q (Err e) w) →
  wp body (λ r '(t', w'), match r with
    | Ok a => (∀ e, commit t' = Some e → Q (Err e) w') ∧ Q (Ok a) (put (merge (get w) t' (get w')) w')
    | Err e => Q (Err e) w' | Panic => Q Panic w' | OutOfFuel => Q OutOfFuel w' end) (get w, w) →
  wp (merging_transaction body) Q w.
Proof.
  unfold merging_transaction, wp. intros He. destruct (begin_ _); [auto|].
  destruct (body _) as [[] [t' w']]; auto. intros [Hc Ho]. destruct (commit _); auto.
Qed.
End MergeTx.

(** The rows that are not as they were at the start. *)
Definition merged {K R} `{Countable K} `{EqDecision R} (m0 m1 m2 : gmap K R) : gmap K R :=
  merge (λ a b, match b with Some (x, y) => if decide (x = y) then a else y | None => a end)
    m2 (merge (λ x y, Some (x, y)) m0 m1).

Lemma lookup_merged {K R} `{Countable K} `{EqDecision R} (m0 m1 m2 : gmap K R) k :
  merged m0 m1 m2 !! k = if decide (m0 !! k = m1 !! k) then m2 !! k else m1 !! k.
Proof.
  unfold merged. rewrite !lookup_merge. unfold diag_None. destruct (m2 !! k), (m0 !! k), (m1 !! k); cbn; repeat case_decide; try done; congruence.
Qed.
(** Without statements beside it the transaction's rows replace the world's. *)
Lemma merged_alone {K R} `{Countable K} `{EqDecision R} (m m' : gmap K R) : merged m m' m = m'.
Proof. apply map_eq. intros k. rewrite lookup_merged. by case_decide. Qed.
Lemma merged_beside {K R} `{Countable K} `{EqDecision R} (m m' : gmap K R) : merged m m m' = m'.
Proof. apply map_eq. intros k. rewrite lookup_merged. by rewrite decide_True. Qed.

(** ** A table in memory *)

Section MemTable.
Context {K R : Type} `{EqDecision R} `{Countable K} (key : R → K).

(** Entries under a wrong key do not count. *)
Definition mem_rows (t : gmap K R) : gmap K R := filter (λ kr, key kr.2 = kr.1) t.

Definition mem_find (p : R → bool) (t : gmap K R) : list R :=
  (map_to_list (filter (λ kr, p kr.2 = true) (mem_rows t))).*2.

Definition mem_page (page n : Z) (l : list R) : list R :=
  take (Z.to_nat n) (drop (Z.to_nat ((page - 1) * n)) l).

Definition mem_table : Table (gmap K R) K R := {|
  table_key := key;
  rows := mem_rows;
  sql_Create l t :=
    if bool_decide (NoDup (key <$> l) ∧ Forall (λ r, mem_rows t !! key r = None) l)
    then (inl (), foldr (λ r, <[key r := r]>) (mem_rows t) l)
    else (inr (Bare (ErrExternal 1062)), t);
  sql_Delete p t := (inl (), filter (λ kr, p kr.2 = false) (mem_rows t));
  sql_Updates p f t :=
    (inl (Z.of_nat (size (filter (λ kr, p kr.2 = true ∧ f kr.2 ≠ kr.2) (mem_rows t)))),
     (λ r, if p r then f r else r) <$> mem_rows t);
  sql_Find p t := inl (mem_find p t);
  sql_Take p t := match mem_find p t with r :: _ => inl r | [] => inr (Bare GormNotFound) end;
  sql_Search p cs kw page n t := inl (len (mem_find p t), mem_page page n (mem_find p t));
  sql_Limit p n m t := inl (take (Z.to_nat n) (drop (Z.to_nat m) (mem_find p t)));
|}.

Lemma mem_rows_keyed (t : gmap K R) : (∀ k r, t !! k = Some r → key r = k) → mem_rows t = t.
Proof. intros Ht. apply map_filter_id. intros k r Hr. by apply Ht. Qed.

Lemma mem_rows_key (t : gmap K R) k r : mem_rows t !! k = Some r → key r = k.
Proof. by intros [_ ?]%map_lookup_filter_Some. Qed.

Lemma mem_rows_idemp t : mem_rows (mem_rows t) = mem_rows t.
Proof. apply mem_rows_keyed, mem_rows_key. Qed.

Lemma mem_find_elem p t r : r ∈ mem_find p t → p r = true ∧ mem_rows t !! key r = Some r.
Proof.
  unfold mem_find. intros ([k r'] & -> & Hr)%list_elem_of_fmap.
  apply elem_of_map_to_list, map_lookup_filter_Some in Hr as [Hr Hp].
  cbn in *. by rewrite (mem_rows_key _ _ _ Hr).
Qed.

Lemma mem_table_laws : @TableLaws _ _ _ _ _ _ mem_table.
Proof.
  split; cbn.
  - apply mem_rows_key.
  - intros l t t'. case_bool_decide as Hl; intros [= <-]. destruct Hl as [Hn Hf].
    split; [done|]. split; [by rewrite Forall_forall in Hf|]. unfold insert_rows. cbn.
    apply mem_rows_keyed. intros k r. clear Hn Hf. induction l as [|x l IH]; cbn; [apply mem_rows_key|].
    rewrite lookup_insert. case_decide; [congruence|done].
  - intros l t e t'. case_bool_decide; intros [= <- <-]. split; [by eexists|done].
  - intros p t t' [= <-]. apply mem_rows_keyed. intros k r [Hr _]%map_lookup_filter_Some.
    by eapply mem_rows_key.
  - done.
  - intros p f t n t' Hf [= <- <-]. split; [|done]. apply mem_rows_keyed. intros k r.
    rewrite lookup_fmap_Some. intros (r' & <- & Hr%mem_rows_key). case_match; [by rewrite Hf|done].
  - done.
  - by intros p t l [= <-].
  - done.
  - intros p t r. case_match eqn:E; intros [= <-]. apply mem_find_elem. rewrite E. by left.
  - intros p t e. case_match eqn:E; intros [= <-]. left. split; [done|]. intros k r Hr.
    destruct (p r) eqn:Hp; [exfalso|done]. apply (not_elem_of_nil r). rewrite <-E. unfold mem_find.
    apply list_elem_of_fmap. exists (k, r). split; [done|].
    by apply elem_of_map_to_list, map_lookup_filter_Some.
  - intros p cs kw pg n t c l [= <- <-] r Hr. apply mem_find_elem.
    unfold mem_page in Hr. by apply subseteq_take, subseteq_drop in Hr.
  - done.
  - intros p n m t l [= <-] r Hr. apply mem_find_elem. by apply subseteq_take, subseteq_drop in Hr.
  - done.
Qed.
End MemTable.
