(* ===== verification/RowCache.v ===== *)
(** * The cache of rows (pkg/common/db/cache/meta_cache.go)

    Rows and lists of ids are cached in Redis as JSON, through the library
    rockscache: [Rocks] is what the code uses of it, [Json] the encoding of one
    type.  A cached value may expire at any moment, so the laws bound what the
    cache holds from above.  [getCache] asks the cache, and on a miss the
    function it is given; [ExecDel] drops the keys that a change has made
    stale. *)

From S2P Require Import Prelude.
From S2P Require Import Sql.
From stdpp Require Import options.
#[local] Set Default Proof Using "Type*".

#[local] Open Scope Z_scope.

Class Json (T : Type) := {
  Marshal : T → string + error;
  Unmarshal : string → T + error;
}.

Class JsonLaws (T : Type) `{Json T} : Prop := {
  Unmarshal_Marshal t s : Marshal t = inl s → s ≠ "" ∧ Unmarshal s = inl t;
  Marshal_err t e : Marshal t = inr e → external e;
}.

Class Rocks (C : Type) := {
  cache_view : C → gmap string string;
  (** The two halves of [Fetch2]: the value of a key; the value computed on a miss. *)
  rc_Lookup : string → C → (option string + error) * C;
  rc_Store : string → string → C → (() + error) * C;
  rc_TagAsDeleted : string → C → (() + error) * C;
}.

Class RocksLaws (C : Type) `{Rocks C} : Prop := {
  Lookup_ok k c v c' : rc_Lookup k c = (inl (Some v), c') → cache_view c !! k = Some v;
  Lookup_view k c : cache_view (rc_Lookup k c).2 ⊆ cache_view c;
  Lookup_err k c e c' : rc_Lookup k c = (inr e, c') → external e;
  Store_view k v c : cache_view (rc_Store k v c).2 ⊆ <[k := v]> (cache_view c);
  Store_err k v c e c' : rc_Store k v c = (inr e, c') → external e;
  Tag_ok k c c' : rc_TagAsDeleted k c = (inl (), c') → cache_view c' ⊆ delete k (cache_view c);
  Tag_view k c : cache_view (rc_TagAsDeleted k c).2 ⊆ cache_view c;
}.

Definition maxRetryTimes : nat := 5.

(** One of [n] attempts in a row to delete a key succeeds. *)
Fixpoint tag_within {C} `{Rocks C} (n : nat) (k : string) (c : C) : Prop :=
  match n with
  | O => False
  | S n => (rc_TagAsDeleted k c).1 = inl () ∨ tag_within n k (rc_TagAsDeleted k c).2
  end.

(** What a cache needs besides to stay true to the tables: a key is deleted
    within the retries.  A change whose keys could not be deleted answers no
    error, and the cache goes on with the old rows. *)
Class TagSucceeds (C : Type) `{Rocks C} : Prop :=
  tag_succeeds k c : tag_within maxRetryTimes k c.

(** ** [errs.ErrRecordNotFound.Is(specialerror.ErrCode(errs.Unwrap(err)))]

    The root causes that the start-up code registers as missing records, and
    the codes that are special cases of it. *)

Class SpecialError := {
  (** [errs.ErrRecordNotFound.Is] on a root cause *)
  RecordNotFound_Is : errcode → bool;
  ErrCode : errcode → errcode;
}.

Class SpecialErrorLaws `{SpecialError} : Prop := {
  Is_self : RecordNotFound_Is ErrRecordNotFound = true;
  Is_external n : RecordNotFound_Is (ErrExternal n) = false;
  ErrCode_gorm : ErrCode GormNotFound = ErrRecordNotFound;
  ErrCode_self : ErrCode ErrRecordNotFound = ErrRecordNotFound;
  ErrCode_external n : ErrCode (ErrExternal n) = ErrExternal n;
}.

Definition group_IsNotFound `{SpecialError} (err : error) : bool :=
  RecordNotFound_Is (ErrCode (Unwrap err)).

Section SpecialFacts.
Context `{SpecialErrorLaws}.
Lemma IsNotFound_gorm e : Unwrap e = GormNotFound → group_IsNotFound e = true.
Proof. unfold group_IsNotFound. intros ->. rewrite ErrCode_gorm. apply Is_self. Qed.
Lemma IsNotFound_record e : Unwrap e = ErrRecordNotFound → group_IsNotFound e = true.
Proof. unfold group_IsNotFound. intros ->. rewrite ErrCode_self. apply Is_self. Qed.
Lemma IsNotFound_external e : external e → group_IsNotFound e = false.
Proof. unfold group_IsNotFound. intros [n ->]. rewrite ErrCode_external. apply Is_external. Qed.
End SpecialFacts.

(** ** The operations *)

Section MetaCache.
Context {W C : Type} `{Rocks C} `{SpecialError} (cache_of : W → C) (with_cache : C → W → W).

(** A call of the library. *)
Definition rocks {A} (call : C → (A + error) * C) : M W A :=
  zoom cache_of with_cache (λ c, let '(r, c') := call c in (of_sum r, c')).

(** On a miss, [fn] gives the value and its encoding, which is stored. *)
Definition Fetch2 {T} (key : string) (fn : M W (string * T)) : M W (string + T) :=
  v ← rocks (rc_Lookup key);
  match v with
  | Some s => mret (inl s)
  | None =>
      st ← fn;
      _ ← rocks (rc_Store key st.1);
      mret (inr st.2)
  end.

Definition getCache {T} `{Json T} (key : string) (fn : M W T) : M W T :=
  v ← Fetch2 key
    (t ← fn;
     bs ← wrap_error (lift (Marshal t));
     mret (bs, t));
  match v with
  | inr t => mret t
  | inl s =>
      _ ← guard (bool_decide (s = "")) (Wrap ErrRecordNotFound "cache is not found");
      wrap_error (lift (Unmarshal s))
  end.

(** The keys whose record is missing are left out. *)
Definition batchGetCache2 {T} `{Json T} (keys : list string) (keyFn : string → string)
    (fns : string → M W T) : M W (list T) :=
  fold_each keys [] (λ res key,
    r ← try (getCache (keyFn key) (fns key));
    match r with
    | inl val => mret (res ++ [val])
    | inr err => if group_IsNotFound err then mret res else fail err
    end).

Fixpoint delete_retry (retries : nat) (key : string) : M W () :=
  match retries with
  | O => mret ()
  | S n =>
      r ← try (rocks (rc_TagAsDeleted key));
      match r with inl _ => mret () | inr _ => delete_retry n key end
  end.

(** A key that cannot be deleted is given up, without an error. *)
Definition ExecDel (keys : list string) : M W () :=
  for_each keys (delete_retry maxRetryTimes).
End MetaCache.

(** ** Facts *)

Section MetaCacheFacts.
Context {W C : Type} `{RocksLaws C} `{SpecialErrorLaws}.
Context (cache_of : W → C) (with_cache : C → W → W).
Context (get_with : ∀ c w, cache_of (with_cache c w) = c).
Abbreviation view w := (cache_view (cache_of w)).

(** Only the cache changes, and only by losing entries. *)
Definition forgets (w w' : W) : Prop := ∃ c, w' = with_cache c w ∧ cache_view c ⊆ view w.

Lemma wp_rocks {A} (call : C → (A + error) * C) (Q : outcome A → W → Prop) w :
  (∀ r c, call (cache_of w) = (r, c) → Q (of_sum r) (with_cache c w)) → wp (rocks cache_of with_cache call) Q w.
Proof.
  intros HQ. apply wp_zoom. unfold wp. destruct (call (cache_of w)) as [r c] eqn:E. auto.
Qed.

Context (with_with : ∀ c c' w, with_cache c (with_cache c' w) = with_cache c w).
Context (with_get : ∀ w, with_cache (cache_of w) w = w).

Lemma forgets_refl w : forgets w w.
Proof. exists (cache_of w). by rewrite with_get. Qed.

Lemma forgets_trans w1 w2 w3 : forgets w1 w2 → forgets w2 w3 → forgets w1 w3.
Proof.
  intros (c1 & -> & Hc1) (c2 & -> & Hc2). exists c2. rewrite with_with. split; [done|].
  rewrite get_with in Hc2. by etrans.
Qed.

#[export] Instance forgets_preorder : PreOrder forgets.
Proof. split; [exact forgets_refl|exact forgets_trans]. Qed.

(** One of the attempts succeeds, and removes the key. *)
Lemma wp_delete_retry_within n k (Q : outcome () → W → Prop) w :
  tag_within n k (cache_of w) →
  (∀ w', forgets w w' → view w' !! k = None → Q (Ok ()) w') →
  wp (delete_retry cache_of with_cache n k) Q w.
Proof.
  revert w. induction n as [|n IH]; intros w Hw HQ; [done|]. cbn [delete_retry tag_within] in *.
  apply wp_bind, wp_try, wp_rocks. intros r c E. rewrite E in Hw. cbn in Hw.
  destruct r as [[]|e]; cbn [of_sum].
  - apply Tag_ok in E. apply wp_ret, HQ.
    + exists c. split; [done|]. etrans; [exact E|]. apply delete_subseteq.
    + rewrite get_with. apply eq_None_not_Some. intros [s Hs].
      eapply lookup_weaken in Hs; [|exact E]. by rewrite lookup_delete_eq in Hs.
  - destruct Hw as [Hw|Hw]; [done|]. apply IH; [by rewrite get_with|]. intros w' Hf. apply HQ.
    eapply forgets_trans; [|exact Hf]. exists c. split; [done|].
    pose proof (Tag_view k (cache_of w)) as Hv. by rewrite E in Hv.
Qed.

Lemma wp_delete_retry `{!TagSucceeds C} k (Q : outcome () → W → Prop) w :
  (∀ w', forgets w w' → view w' !! k = None → Q (Ok ()) w') →
  wp (delete_retry cache_of with_cache maxRetryTimes k) Q w.
Proof. apply wp_delete_retry_within, tag_succeeds. Qed.

Lemma wp_ExecDel `{!TagSucceeds C} ks (Q : outcome () → W → Prop) w :
  (∀ w', forgets w w' → (∀ k, k ∈ ks → view w' !! k = None) → Q (Ok ()) w') →
  wp (ExecDel cache_of with_cache ks) Q w.
Proof.
  intros HQ. unfold ExecDel.
  apply wp_for_each with (I := λ done w', forgets w w' ∧ ∀ k, k ∈ done → view w' !! k = None).
  - split; [apply forgets_refl|]. intros k Hk. by apply elem_of_nil in Hk.
  - intros ls x rest w' -> [Hf Hd]. apply wp_delete_retry. intros w'' Hf' Hx. split.
    + by eapply forgets_trans.
    + intros k [Hk|Hk%list_elem_of_singleton]%elem_of_app; [|by subst].
      destruct Hf' as (c & -> & Hc). rewrite get_with. apply eq_None_not_Some. intros [s Hs].
      eapply lookup_weaken in Hs; [|exact Hc]. by rewrite Hd in Hs.
  - intros w' [Hf Hd]. by apply HQ.
Qed.

(** Without that, entries are only lost. *)
Lemma ExecDel_forgets ks w : forgets w (ExecDel cache_of with_cache ks w).2.
Proof.
  assert (∀ k n w, forgets w (delete_retry cache_of with_cache n k w).2) as Hn.
  { intros k n. induction n as [|n IH]; intros v; [apply forgets_refl|]. cbn [delete_retry].
    apply (wp_eq _ (λ _ w', forgets v w')). apply wp_bind, wp_try, wp_rocks. intros r c E.
    assert (forgets v (with_cache c v)) as Hf.
    { exists c. split; [done|]. pose proof (Tag_view k (cache_of v)) as Hv. by rewrite E in Hv. }
    destruct r; cbn [of_sum]; [by apply wp_ret|]. apply wp_eq. by eapply forgets_trans. }
  apply (wp_eq _ (λ _ w', forgets w w')). unfold ExecDel.
  apply wp_for_each with (I := λ _ w', forgets w w'); [apply forgets_refl| |done].
  intros ls x rest w' _ Hf. apply wp_eq.
  assert (forgets w (delete_retry cache_of with_cache maxRetryTimes x w').2) by (eapply forgets_trans; [done|apply Hn]).
  by destruct (delete_retry cache_of with_cache maxRetryTimes x w').1.
Qed.

(** [getCache] answers what the cache holds or what the function answers. *)
Lemma wp_getCache {T} `{Json T} key (fn : M W T) (Q : outcome T → W → Prop) w :
  (∀ w' s, forgets w w' → view w !! key = Some s → s ≠ "" →
     Q (match Unmarshal s with inl t => Ok t | inr e => Err (WrapErr "" e) end) w') →
  (∀ w', forgets w w' → view w !! key = Some "" →
     Q (Err (Wrap ErrRecordNotFound "cache is not found")) w') →
  (∀ w' e, forgets w w' → external e → Q (Err e) w') →
  (∀ w', forgets w w' →
     wp fn (λ r w1, match r with
       | Ok t => match Marshal t with
           | inl s => ∀ r2 c, cache_view c ⊆ <[key := s]> (view w1) →
               (r2 = Ok t ∨ ∃ e, external e ∧ r2 = Err e) → Q r2 (with_cache c w1)
           | inr e => Q (Err (WrapErr "" e)) w1
           end
       | Err e => Q (Err e) w1 | Panic => Q Panic w1 | OutOfFuel => Q OutOfFuel w1 end) w') →
  wp (getCache cache_of with_cache key fn) Q w.
Proof.
  intros Hhit Hempty Herr Hmiss. unfold getCache, Fetch2.
  apply wp_bind, wp_bind, wp_rocks. intros r c E.
  assert (forgets w (with_cache c w)) as Hf.
  { exists c. split; [done|]. pose proof (Lookup_view key (cache_of w)) as Hv. by rewrite E in Hv. }
  destruct r as [[s|]|e]; cbn [of_sum].
  - apply Lookup_ok in E. apply wp_ret, wp_bind, wp_guard; intros Hs; bool_facts.
    + subst. by apply Hempty.
    + apply wp_wrap_error, wp_lift; intros x Hx; specialize (Hhit _ s Hf E Hs); by rewrite Hx in Hhit.
  - apply wp_bind, wp_bind. eapply wp_mono; [|apply Hmiss, Hf].
    intros [t|e| |] w1 HQ; auto.
    apply wp_bind, wp_wrap_error, wp_lift; intros x Hx; rewrite Hx in HQ; [|done].
    apply wp_ret, wp_bind, wp_rocks. intros r c1 E1. cbn in E1.
    pose proof (Store_view key x (cache_of w1)) as Hv. rewrite E1 in Hv. cbn in Hv.
    destruct r as [[]|e]; cbn [of_sum]; [apply wp_ret, wp_ret|]; apply HQ; try done; [by left|].
    right. exists e. split; [|done]. by eapply Store_err.
  - apply Herr; [done|]. by eapply Lookup_err.
Qed.
End MetaCacheFacts.

(** ** What the cache does not touch *)

Section OffCache.
Context {W C B : Type} `{Rocks C} `{SpecialError} (cache_of : W → C) (with_cache : C → W → W) (f : W → B).
Context (off : ∀ c w, f (with_cache c w) = f w).

Lemma off_cache_rocks {A} (call : C → (A + error) * C) : Keeps f (rocks cache_of with_cache call).
Proof using off. intros w. unfold rocks, zoom. destruct (call _) as [[] ?]; apply off. Qed.
Lemma off_cache_get {A} `{Json A} k (m : M W A) : Keeps f m → Keeps f (getCache cache_of with_cache k m).
Proof using off.
  intros Hm. unfold getCache, Fetch2.
  repeat first [apply keeps_bind; [|intros ?]|apply off_cache_rocks|case_match|apply _].
Qed.
Lemma off_cache_batch {A} `{Json A} ks kf (m : string → M W A) :
  (∀ x, Keeps f (m x)) → Keeps f (batchGetCache2 cache_of with_cache ks kf m).
Proof using off.
  intros Hm. apply keeps_fold_each. intros l x. apply keeps_bind; [by apply keeps_try, off_cache_get|].
  intros [a|e]; [apply _|]. case_match; apply _.
Qed.
Lemma off_cache_ExecDel ks : Keeps f (ExecDel cache_of with_cache ks).
Proof using off.
  apply keeps_for_each. intros k. generalize maxRetryTimes. intros n.
  induction n as [|n IH]; cbn; [apply _|]. apply keeps_bind; [by apply keeps_try, off_cache_rocks|]. intros []; [apply _|apply IH].
Qed.
End OffCache.

(** * Calls whose error is not minded

    [unminded m] runs [m] for what it does; a computation made of such calls
    [Succeeds], which instance search finds along its structure. *)

(** A call whose error is not looked at, or only logged. *)
Definition unminded {W A} (m : M W A) : M W () := _ ← try m; mret ().

Class Succeeds {W} (m : M W ()) : Prop := succeeds w : (m w).1 = Ok ().

Section SucceedsInstances.
Context {W : Type}.

#[export] Instance succeeds_ret : Succeeds (W:=W) (mret ()).
Proof. done. Qed.
#[export] Instance succeeds_unminded {A} (m : M W A) : Ends m → Succeeds (unminded m).
Proof. intros Hm w. unfold unminded, mbind, M_bind, try. specialize (Hm w). by destruct (m w) as [[a|e| |] w']. Qed.
#[export] Instance succeeds_bind (m k : M W ()) : Succeeds m → Succeeds k → Succeeds (_ ← m; k).
Proof. intros Hm Hk w. unfold mbind, M_bind. specialize (Hm w). destruct (m w) as [r w']. cbn in Hm. subst r. apply Hk. Qed.
#[export] Instance succeeds_for_each {A} (l : list A) (body : A → M W ()) :
  (∀ x, Succeeds (body x)) → Succeeds (for_each l body).
Proof. intros ?. induction l; simpl; apply _. Qed.

#[export] Instance keeps_unminded {A B} (f : W → B) (m : M W A) : Keeps f m → Keeps f (unminded m).
Proof. unfold unminded. intros ?. apply _. Qed.

(** Statements, and deletions of keys, end. *)
#[export] Instance ends_stmt {A} (call : W → (A + error) * W) : Ends (stmt call).
Proof. intros w. unfold stmt. destruct (call w) as [r w']. by destruct r. Qed.
#[export] Instance ends_ExecDel {C} `{Rocks C} (cache_of : W → C) (with_cache : C → W → W) ks :
  Ends (ExecDel cache_of with_cache ks).
Proof.
  apply ends_for_each. intros k. generalize maxRetryTimes. intros n. induction n as [|n IH]; cbn; [apply _|].
  apply ends_bind; [|by intros []; apply _]. apply ends_try. intros w. unfold rocks, zoom.
  destruct (rc_TagAsDeleted k _) as [r c']. by destruct r.
Qed.
End SucceedsInstances.
