(* ===== verification/RowCoherence.v ===== *)
(** * A cache of rows that agrees with the tables

    The rules of RowCache.v for any world that holds tables and a cache:
    [entry_ok t k s] says that the text [s] may stand under the key [k] while the
    tables are [t].  A read through the cache answers what the tables say
    ([wp_cached]); a change of the tables keeps the agreement when the keys it
    makes stale are deleted ([wp_evict]). *)

From S2P Require Import Prelude.
From S2P Require Import Sql.
From S2P Require Import RowCache.
From stdpp Require Import options.
#[local] Set Default Proof Using "Type*".

#[local] Open Scope Z_scope.

(** ** Lists of ids

    What the caches of ids hold: the ids of a set, each once. *)

Definition is_list_of (s : gset string) (l : list string) : Prop := NoDup l ∧ list_to_set l = s.

Lemma is_list_of_elem s l x : is_list_of s l → x ∈ l ↔ x ∈ s.
Proof. intros [_ <-]. by rewrite elem_of_list_to_set. Qed.

(** The second halves of the keys with a given first half. *)
Definition seconds {R} (m : gmap (string * string) R) (u : string) : gset string :=
  set_map snd (filter (λ k : string * string, k.1 = u) (dom m)).

Lemma elem_of_seconds {R} (m : gmap (string * string) R) u v : v ∈ seconds m u ↔ is_Some (m !! (u, v)).
Proof.
  unfold seconds. rewrite elem_of_map. setoid_rewrite elem_of_filter. setoid_rewrite elem_of_dom.
  split; [by intros ([u' v'] & -> & <- & ?)|]. intros ?. by exists (u, v).
Qed.

(** What a search by the first half answers. *)
Lemma find_seconds {T R} `{!EqDecision R, !Table T (string * string) R, !TableLaws T (string * string) R}
    (p : R → bool) u (t : T) l :
  (∀ r : R, p r = true ↔ (table_key (T:=T) r).1 = u) → sql_Find p t = inl l →
  is_list_of (seconds (rows (T:=T) (R:=R) t) u) ((λ r : R, (table_key (T:=T) r).2) <$> l).
Proof.
  intros Hp Hl. pose proof (λ r, Find_elem _ _ _ r Hl) as Hin.
  pose proof (Find_NoDup _ _ _ Hl) as Hn.
  split.
  - apply NoDup_fmap_2_strong; [|by eapply NoDup_fmap_1].
    intros x y [Hpx Hx]%Hin [Hpy Hy]%Hin Hv. apply Hp in Hpx, Hpy. destruct (table_key (T:=T) x) eqn:Ex, (table_key (T:=T) y) eqn:Ey.
    cbn in *. congruence.
  - apply set_eq. intros v. rewrite elem_of_list_to_set, elem_of_seconds, list_elem_of_fmap. split.
    + intros (r & -> & [Hpr Hr]%Hin). apply Hp in Hpr. subst u. rewrite <-surjective_pairing. by exists r.
    + intros [r Hr]. exists r. pose proof Hr as Hk%(rows_key (T:=T)). split; [by rewrite Hk|]. apply Hin. rewrite Hk.
      split; [|done]. apply Hp. by rewrite Hk.
Qed.

(** ** The cache

    A world with tables and a cache. *)
Class Cached (W C T : Type) := {
  world_cache : W → C;
  set_world_cache : C → W → W;
  world_tables : W → T;
}.

Class CachedLaws (W C T : Type) `{Cached W C T} : Prop := {
  cache_get_set c w : world_cache (set_world_cache c w) = c;
  cache_set_set c c' w : set_world_cache c (set_world_cache c' w) = set_world_cache c w;
  cache_set_get w : set_world_cache (world_cache w) w = w;
  tables_set_cache c w : world_tables (set_world_cache c w) = world_tables w;
}.

Section Coherence.
Context {W C T : Type} `{CachedLaws W C T} `{RocksLaws C}.
Context (entry_ok : T → string → string → Prop).
Context (entry_nonempty : ∀ t k s, entry_ok t k s → s ≠ "").
Implicit Types (w : W) (t : T).

Abbreviation view w := (cache_view (world_cache w)).

Definition agrees w : Prop := ∀ k s, view w !! k = Some s → entry_ok (world_tables w) k s.

(** Only the cache changes, and goes on agreeing. *)
Definition peeks w w' : Prop := (∃ c, w' = set_world_cache c w) ∧ (agrees w → agrees w').

#[export] Instance peeks_preorder : PreOrder peeks.
Proof using Type* - entry_nonempty.
  split.
  - intros w. split; [|done]. exists (world_cache w). by rewrite cache_set_get.
  - intros w1 w2 w3 [[c ->] Hc] [[c' ->] Hc']. split; [|auto]. exists c'. by rewrite cache_set_set.
Qed.

Lemma peeks_tables w w' : peeks w w' → world_tables w' = world_tables w.
Proof using Type* - entry_nonempty. intros [[c ->] _]. apply tables_set_cache. Qed.

Lemma forgets_peeks w w' : forgets world_cache set_world_cache w w' → peeks w w'.
Proof using Type* - entry_nonempty.
  intros (c & -> & Hc). split; [by exists c|]. intros Ha k s. rewrite tables_set_cache, cache_get_set.
  intros Hs. apply Ha. by eapply lookup_weaken.
Qed.

(** A function that reads the tables, perhaps through the cache: it may be asked on a
    miss.  [P] is what it answers, and what the entries of the key hold. *)
Lemma wp_cached_deep {A} `{JsonLaws A} key (f : M W A) (P : T → A → Prop) (X : T → error → Prop) w :
  (∀ t a s, P t a → Marshal a = inl s → s ≠ "" → entry_ok t key s) →
  (∀ t s, entry_ok t key s → ∃ a, Unmarshal s = inl a ∧ P t a) →
  (∀ t e, external e → X t e) →
  (∀ w, agrees w → wp f (λ r w', peeks w w' ∧ match r with
     | Ok a => P (world_tables w) a | Err e => X (world_tables w) e | _ => False end) w) →
  agrees w →
  wp (getCache world_cache set_world_cache key f) (λ r w', peeks w w' ∧ match r with
     | Ok a => P (world_tables w) a | Err e => X (world_tables w) e | _ => False end) w.
Proof.
  intros Hst Hhit Hx Hf Ha.
  apply (wp_getCache world_cache set_world_cache); [exact cache_get_set|exact cache_set_set|exact cache_set_get|..].
  - intros w' s Hw Hs _. split; [by apply forgets_peeks|]. apply Ha in Hs. by destruct (Hhit _ _ Hs) as (a & -> & ?).
  - intros w' Hw Hs%Ha. by apply entry_nonempty in Hs.
  - intros w' e Hw He. split; [by apply forgets_peeks|]. by apply Hx.
  - intros w' Hw. apply forgets_peeks in Hw. pose proof (peeks_tables _ _ Hw) as Ht.
    eapply wp_mono; [|apply Hf; by apply Hw]. intros [a|e| |] w1 [Hw1 HP]; try done; rewrite Ht in HP;
      pose proof (transitivity Hw Hw1) as Hw2; [|by split].
    pose proof (peeks_tables _ _ Hw2) as Ht1.
    destruct (Marshal a) as [s|e] eqn:Em.
    + intros r c Hc Hr. split.
      * etrans; [exact Hw2|]. split; [by exists c|]. intros Ha' k s'. rewrite tables_set_cache, cache_get_set.
        intros Hs. eapply lookup_weaken in Hs; [|exact Hc]. rewrite lookup_insert in Hs. case_decide; [|by apply Ha'].
        injection Hs as <-. subst k. rewrite Ht1. eapply Hst; [exact HP|done|]. by eapply Unmarshal_Marshal.
      * destruct Hr as [->|(e & He & ->)]; [done|by apply Hx].
    + split; [done|]. apply Hx. apply Marshal_err in Em as [n Hn]. by exists n.
Qed.
(** A function that asks the tables alone. *)
Lemma wp_cached {A} `{JsonLaws A} key (f : M W A) (P : T → A → Prop) (X : T → error → Prop) w :
  (∀ t a s, P t a → Marshal a = inl s → s ≠ "" → entry_ok t key s) →
  (∀ t s, entry_ok t key s → ∃ a, Unmarshal s = inl a ∧ P t a) →
  (∀ t e, external e → X t e) →
  (∀ w, wp f (λ r w', w' = w ∧ match r with
     | Ok a => P (world_tables w) a | Err e => X (world_tables w) e | _ => False end) w) →
  agrees w →
  wp (getCache world_cache set_world_cache key f) (λ r w', peeks w w' ∧ match r with
     | Ok a => P (world_tables w) a | Err e => X (world_tables w) e | _ => False end) w.
Proof.
  intros Hst Hhit Hx Hf. apply wp_cached_deep; [done..|]. intros w' _. eapply wp_mono; [|apply Hf].
  intros r w1 [-> Hr]. by split.
Qed.

(** Several keys: the answers for those that are found, in their order. *)
Lemma wp_batch_cached {A} `{JsonLaws A} `{SpecialErrorLaws} ks keyFn (f : string → M W A) (found : T → string → option A) w :
  (∀ t x a s, found t x = Some a → Marshal a = inl s → s ≠ "" → entry_ok t (keyFn x) s) →
  (∀ t x s, entry_ok t (keyFn x) s → ∃ a, Unmarshal s = inl a ∧ found t x = Some a) →
  (∀ x w, wp (f x) (λ r w', w' = w ∧ match r with
     | Ok a => found (world_tables w) x = Some a
     | Err e => (group_IsNotFound e = true ∧ found (world_tables w) x = None) ∨ external e
     | _ => False end) w) →
  agrees w →
  wp (batchGetCache2 world_cache set_world_cache ks keyFn f) (λ r w', peeks w w' ∧ match r with
     | Ok l => l = omap (found (world_tables w)) ks | Err e => external e | _ => False end) w.
Proof.
  intros Hst Hhit Hf Ha. unfold batchGetCache2.
  apply wp_fold_each with (I := λ done l w', peeks w w' ∧ l = omap (found (world_tables w)) done); [by split| |done].
  intros ls x rest l w' _ [Hw ->]. apply wp_bind, wp_try.
  eapply wp_mono; [|apply (wp_cached (keyFn x) (f x) (λ t a, found t x = Some a)
    (λ t e, (group_IsNotFound e = true ∧ found t x = None) ∨ external e))]; [|by eauto|by auto..|by apply Hw].
  intros r w2 [Hw2 Hr]. rewrite (peeks_tables _ _ Hw) in Hr.
  assert (peeks w w2) as Hw' by by etrans.
  destruct r as [a|e| |]; try done.
  - apply wp_ret. split; [done|]. rewrite omap_app. cbn. by rewrite Hr.
  - destruct Hr as [[Hn Hr]|He].
    + rewrite Hn. apply wp_ret. split; [done|]. rewrite omap_app. cbn. by rewrite Hr, app_nil_r.
    + rewrite (IsNotFound_external _ He). apply wp_fail. by split.
Qed.

(** Deleting keys: what is left agrees with any tables under which the other
    keys keep their entries. *)
Definition evicted (ks : list string) w w' : Prop :=
  ∃ c, w' = set_world_cache c w ∧ cache_view c ⊆ view w ∧ ∀ k, k ∈ ks → cache_view c !! k = None.

Lemma wp_evict `{!TagSucceeds C} ks (Q : outcome () → W → Prop) w :
  (∀ w', evicted ks w w' → Q (Ok ()) w') → wp (ExecDel world_cache set_world_cache ks) Q w.
Proof.
  intros HQ. apply (wp_ExecDel world_cache set_world_cache);
    [exact cache_get_set|exact cache_set_set|exact cache_set_get|done|].
  intros w' (c & -> & Hc) Hk. apply HQ. exists c. split; [done|]. split; [done|]. intros k Hin.
  specialize (Hk k Hin). by rewrite cache_get_set in Hk.
Qed.

(** The entries that a change of the tables leaves right. *)
Definition stale_only (ks : list string) t t' : Prop := ∀ k s, k ∉ ks → entry_ok t k s → entry_ok t' k s.

Lemma evicted_agrees ks w w' t : agrees w → evicted ks w w' → stale_only ks (world_tables w) t →
  ∀ k s, view w' !! k = Some s → entry_ok t k s.
Proof using Type* - entry_nonempty.
  intros Ha (c & -> & Hc & Hk) Hst k s. rewrite cache_get_set. intros Hs. apply Hst.
  - intros Hin. rewrite Hk in Hs by done. done.
  - apply Ha. by eapply lookup_weaken.
Qed.
Lemma evicted_tables ks w w' : evicted ks w w' → world_tables w' = world_tables w.
Proof using Type* - entry_nonempty. intros (c & -> & _). apply tables_set_cache. Qed.
End Coherence.
