(* ===== verification/GroupStore.v ===== *)
(** * Storage of groups (pkg/common/db/relation, pkg/common/db/unrelation/super_group.go)

    Three tables of MySQL hold the groups, their members and the requests to
    join; two collections of MongoDB hold the members of super groups and the
    super groups of a user.  [Engine] bundles the interfaces of these stores and
    of the row cache; [World] is their state with the list of what a handler
    asked of the rest of the system.  The file has the statements of
    [group_model.go], [group_member_model.go], [group_request_model.go] and
    [super_group.go], and transactions. *)

From S2P Require Import Prelude.
From S2P Require Import Constants.
From S2P Require Import GroupTypes.
From S2P Require Import Sql.
From S2P Require Import RowCache.
From stdpp Require Import options.
#[local] Set Default Proof Using "Type*".

#[local] Open Scope Z_scope.

(** ** A collection of sets

    A document per key with a list of ids, and the updates the code makes. *)

Class SetDocs (C : Type) := {
  docs : C → gmap string (list string);
  (** [InsertOne{key, list}] *)
  doc_Insert : string → list string → C → (() + error) * C;
  (** [UpdateOne({key}, $addToSet: $each, upsert)] *)
  doc_AddToSet : bool → string → list string → C → (() + error) * C;
  (** [UpdateOne({key: $in keys}, $pull: $in xs)]: one document at most *)
  doc_PullOne : list string → list string → C → (() + error) * C;
  doc_FindOne : string → C → list string + error;
  doc_Find : list string → C → list (string * list string) + error;
  doc_DeleteOne : string → C → (() + error) * C;
}.

Class SetDocsLaws (C : Type) `{SetDocs C} : Prop := {
  Insert_ok k l c c' : doc_Insert k l c = (inl (), c') → docs c !! k = None ∧ docs c' = <[k := l]> (docs c);
  AddToSet_ok up k xs c c' : doc_AddToSet up k xs c = (inl (), c') →
    match docs c !! k with
    | None => docs c' = if up then <[k := remove_dups xs]> (docs c) else docs c
    | Some l => ∃ l', docs c' = <[k := l']> (docs c) ∧ ∀ x, x ∈ l' ↔ x ∈ l ∨ x ∈ xs
    end;
  PullOne_ok ks xs c c' : doc_PullOne ks xs c = (inl (), c') →
    (∃ k l, k ∈ ks ∧ docs c !! k = Some l ∧ docs c' = <[k := filter (.∉ xs) l]> (docs c)) ∨
    (∀ k, k ∈ ks → docs c !! k = None) ∧ docs c' = docs c;
  FindOne_ok k c l : doc_FindOne k c = inl l → docs c !! k = Some l;
  DeleteOne_ok k c c' : doc_DeleteOne k c = (inl (), c') → docs c' = delete k (docs c);
}.

(** ** The stores *)

Class Engine := {
  TG : Type; TM : Type; TR : Type; SG : Type; SU : Type; RC : Type;
  groups_table :: Table TG string GroupModel;
  members_table :: Table TM (string * string) GroupMemberModel;
  requests_table :: Table TR (string * string) GroupRequestModel;
  super_groups :: SetDocs SG;
  user_super_groups :: SetDocs SU;
  row_cache :: Rocks RC;
  json_group :: Json GroupModel;
  json_member :: Json GroupMemberModel;
  json_super :: Json SuperGroupModel;
  json_ids :: Json (list string);
  json_num :: Json Z;
  json_hash :: Json N;
  special_error :: SpecialError;
  (** Whether a transaction can begin on, or commit, these tables. *)
  sql_Begin : TG → TM → TR → option error;
  sql_Commit : TG → TM → TR → option error;
  (** Whether the deployment of MongoDB has transactions. *)
  mongo_transactions : bool;
}.

Class EngineLaws `{Engine} : Prop := {
  groups_laws :: TableLaws TG string GroupModel;
  members_laws :: TableLaws TM (string * string) GroupMemberModel;
  requests_laws :: TableLaws TR (string * string) GroupRequestModel;
  groups_key : table_key (T:=TG) = Group_GroupID;
  members_key : table_key (T:=TM) = member_key;
  requests_key : table_key (T:=TR) = request_key;
  super_laws :: SetDocsLaws SG;
  user_super_laws :: SetDocsLaws SU;
  cache_laws :: RocksLaws RC;
  json_group_laws :: JsonLaws GroupModel;
  json_member_laws :: JsonLaws GroupMemberModel;
  json_ids_laws :: JsonLaws (list string);
  json_num_laws :: JsonLaws Z;
  json_hash_laws :: JsonLaws N;
  json_super_laws :: JsonLaws SuperGroupModel;
  special_error_laws :: SpecialErrorLaws;
  Commit_err a b c e : sql_Commit a b c = Some e → external e;
  Begin_err a b c e : sql_Begin a b c = Some e → external e;
}.

Record Tables `{Engine} := mkTables { t_groups : TG; t_members : TM; t_requests : TR }.
Record SuperDocs `{Engine} := mkSuperDocs { sd_groups : SG; sd_users : SU }.
Record World `{Engine} (E : Type) := mkWorld {
  w_tables : Tables; w_super : SuperDocs; w_cache : RC; w_env : E }.
Arguments mkTables {_} _ _ _.
Arguments mkSuperDocs {_} _ _.
Arguments mkWorld {_ E} _ _ _ _.
Arguments w_tables {_ E} _.
Arguments w_super {_ E} _.
Arguments w_cache {_ E} _.
Arguments w_env {_ E} _.

Section Statements.
Context `{Engine} {E : Type}.
Abbreviation W := (World E).

Definition put_tables (t : Tables) (w : W) : W := mkWorld t (w_super w) (w_cache w) (w_env w).
Definition put_super (s : SuperDocs) (w : W) : W := mkWorld (w_tables w) s (w_cache w) (w_env w).
Definition put_cache (c : RC) (w : W) : W := mkWorld (w_tables w) (w_super w) c (w_env w).
Definition put_env (e : E) (w : W) : W := mkWorld (w_tables w) (w_super w) (w_cache w) e.

Definition on_tables {A} (m : M Tables A) : M W A := zoom w_tables put_tables m.
Definition on_super {A} (m : M SuperDocs A) : M W A := zoom w_super put_super m.
Definition on_env {A} (m : M E A) : M W A := zoom w_env put_env m.

(** A statement on one table. *)
Definition groups_stmt {A} (call : TG → (A + error) * TG) : M Tables A :=
  zoom t_groups (λ g t, mkTables g (t_members t) (t_requests t))
    (λ s, let '(r, s') := call s in (of_sum r, s')).
Definition members_stmt {A} (call : TM → (A + error) * TM) : M Tables A :=
  zoom t_members (λ m t, mkTables (t_groups t) m (t_requests t))
    (λ s, let '(r, s') := call s in (of_sum r, s')).
Definition requests_stmt {A} (call : TR → (A + error) * TR) : M Tables A :=
  zoom t_requests (λ r t, mkTables (t_groups t) (t_members t) r)
    (λ s, let '(r, s') := call s in (of_sum r, s')).

(** *** group_model.go *)

Definition has_group (groupID : string) (g : GroupModel) : bool := bool_decide (Group_GroupID g = groupID).

Definition GroupGorm_Create (groups : list GroupModel) : M Tables () :=
  wrap_error (groups_stmt (sql_Create groups)).
Definition GroupGorm_UpdateMap (groupID : string) (args : list group_column) : M Tables () :=
  wrap_error (_ ← groups_stmt (sql_Updates (has_group groupID) (set_group_columns args)); mret ()).
Definition GroupGorm_UpdateStatus (groupID : string) (status : Z) : M Tables () :=
  wrap_error (_ ← groups_stmt (sql_Updates (has_group groupID) (set_group_columns [col_status status]));
              mret ()).
Definition GroupGorm_Find (groupIDs : list string) : M Tables (list GroupModel) :=
  wrap_error (groups_stmt (query (sql_Find (λ g, bool_decide (Group_GroupID g ∈ groupIDs))))).
Definition GroupGorm_Take (groupID : string) : M Tables GroupModel :=
  wrap_error (groups_stmt (query (sql_Take (has_group groupID)))).
Definition GroupGorm_Search (keyword : string) (pageNumber showNumber : Z) :
    M Tables (Z * list GroupModel) :=
  groups_stmt (query (sql_Search (λ g, negb (Group_Status g =? GroupStatusDismissed))
    [Group_GroupName] keyword pageNumber showNumber)).
Definition GroupGorm_GetGroupIDsByGroupType (groupType : Z) : M Tables (list string) :=
  wrap_error (gs ← groups_stmt (query (sql_Find (λ g, Group_GroupType g =? groupType)));
              mret (Group_GroupID <$> gs)).
Definition GroupGorm_CountTotal (before : option Z) : M Tables Z :=
  gs ← groups_stmt (query (sql_Find (λ g, match before with
    | Some t => Group_CreateTime g <? t | None => true end)));
  mret (len gs).
Definition GroupGorm_FindNotDismissedGroup (groupIDs : list string) : M Tables (list GroupModel) :=
  wrap_error (groups_stmt (query (sql_Find (λ g,
    bool_decide (Group_GroupID g ∈ groupIDs) && negb (Group_Status g =? GroupStatusDismissed))))).

(** *** group_member_model.go *)

Definition has_member (groupID userID : string) (m : GroupMemberModel) : bool :=
  bool_decide (Member_GroupID m = groupID) && bool_decide (Member_UserID m = userID).
(** [if len(l) > 0 { db = db.Where("col in (?)", l) }] *)
Definition where_in {A} `{EqDecision A} (x : A) (l : list A) : bool :=
  if 0 <? len l then bool_decide (x ∈ l) else true.

Definition GroupMemberGorm_Create (groupMemberList : list GroupMemberModel) : M Tables () :=
  wrap_error (members_stmt (sql_Create groupMemberList)).
Definition GroupMemberGorm_Delete (groupID : string) (userIDs : list string) : M Tables () :=
  wrap_error (members_stmt (sql_Delete (λ m,
    bool_decide (Member_GroupID m = groupID) && bool_decide (Member_UserID m ∈ userIDs)))).
Definition GroupMemberGorm_DeleteGroup (groupIDs : list string) : M Tables () :=
  wrap_error (members_stmt (sql_Delete (λ m, bool_decide (Member_GroupID m ∈ groupIDs)))).
Definition GroupMemberGorm_Update (groupID userID : string) (data : list member_column) : M Tables () :=
  wrap_error (_ ← members_stmt (sql_Updates (has_member groupID userID) (set_member_columns data));
              mret ()).
Definition UpdateRoleLevel (groupID userID : string) (roleLevel : Z) : M Tables Z :=
  wrap_error (members_stmt (sql_Updates (has_member groupID userID)
    (set_member_columns [col_role_level roleLevel]))).
Definition GroupMemberGorm_Find (groupIDs userIDs : list string) (roleLevels : list Z) :
    M Tables (list GroupMemberModel) :=
  wrap_error (members_stmt (query (sql_Find (λ m,
    where_in (Member_GroupID m) groupIDs && where_in (Member_UserID m) userIDs &&
    where_in (Member_RoleLevel m) roleLevels)))).
Definition GroupMemberGorm_Take (groupID userID : string) : M Tables GroupMemberModel :=
  wrap_error (members_stmt (query (sql_Take (has_member groupID userID)))).
Definition TakeOwner (groupID : string) : M Tables GroupMemberModel :=
  wrap_error (members_stmt (query (sql_Take (λ m,
    bool_decide (Member_GroupID m = groupID) && (Member_RoleLevel m =? GroupOwner))))).
Definition SearchMember (keyword : string) (groupIDs userIDs : list string) (roleLevels : list Z)
    (pageNumber showNumber : Z) : M Tables (Z * list GroupMemberModel) :=
  members_stmt (query (sql_Search (λ m,
    where_in (Member_GroupID m) groupIDs && where_in (Member_UserID m) userIDs &&
    where_in (Member_RoleLevel m) roleLevels) [Member_Nickname] keyword pageNumber showNumber)).
Definition FindMemberUserID (groupID : string) : M Tables (list string) :=
  wrap_error (ms ← members_stmt (query (sql_Find (λ m, bool_decide (Member_GroupID m = groupID))));
              mret (Member_UserID <$> ms)).
Definition FindUserJoinedGroupID (userID : string) : M Tables (list string) :=
  wrap_error (ms ← members_stmt (query (sql_Find (λ m, bool_decide (Member_UserID m = userID))));
              mret (Member_GroupID <$> ms)).
Definition TakeGroupMemberNum (groupID : string) : M Tables Z :=
  wrap_error (ms ← members_stmt (query (sql_Find (λ m, bool_decide (Member_GroupID m = groupID))));
              mret (len ms)).
(** The user ids of each group, in the order of the rows. *)
Definition FindJoinUserID (groupIDs : list string) : M Tables (gmap string (list string)) :=
  groupMembers ← wrap_error (members_stmt (query (sql_Find (λ m, bool_decide (Member_GroupID m ∈ groupIDs)))));
  mret (foldl (λ groupUsers item,
    match groupUsers !! Member_GroupID item with
    | None => <[Member_GroupID item := [Member_UserID item]]> groupUsers
    | Some v => <[Member_GroupID item := v ++ [Member_UserID item]]> groupUsers
    end) ∅ groupMembers).
Definition FindUsersJoinedGroupID (userIDs : list string) : M Tables (gmap string (list string)) :=
  groupMembers ← members_stmt (query (sql_Find (λ m, bool_decide (Member_UserID m ∈ userIDs))));
  mret (foldl (λ result m,
    match result !! Member_UserID m with
    | None => <[Member_UserID m := [Member_GroupID m]]> result
    | Some v => <[Member_UserID m := v ++ [Member_GroupID m]]> result
    end) ∅ groupMembers).
Definition GroupMemberGorm_FindUserManagedGroupID (userID : string) : M Tables (list string) :=
  wrap_error (ms ← members_stmt (query (sql_Find (λ m, bool_decide (Member_UserID m = userID) &&
                ((Member_RoleLevel m =? GroupOwner) || (Member_RoleLevel m =? GroupAdmin)))));
              mret (Member_GroupID <$> ms)).

(** *** group_request_model.go *)

Definition has_request (groupID userID : string) (r : GroupRequestModel) : bool :=
  bool_decide (Request_GroupID r = groupID) && bool_decide (Request_UserID r = userID).

Definition GroupRequestGorm_Create (groupRequests : list GroupRequestModel) : M Tables () :=
  wrap_error (requests_stmt (sql_Create groupRequests)).
Definition GroupRequestGorm_Delete (groupID userID : string) : M Tables () :=
  wrap_error (requests_stmt (sql_Delete (has_request groupID userID))).
Definition UpdateHandler (groupID userID handledMsg : string) (handleResult : Z) : M Tables () :=
  wrap_error (_ ← requests_stmt (sql_Updates (has_request groupID userID)
                (set_Handled handledMsg handleResult)); mret ()).
Definition GroupRequestGorm_Take (groupID userID : string) : M Tables GroupRequestModel :=
  wrap_error (requests_stmt (query (sql_Take (has_request groupID userID)))).
Definition GroupRequestGorm_Page (userID : string) (pageNumber showNumber : Z) :
    M Tables (Z * list GroupRequestModel) :=
  requests_stmt (query (sql_Search (λ r, bool_decide (Request_UserID r = userID)) [] ""
    pageNumber showNumber)).
Definition PageGroup (groupIDs : list string) (pageNumber showNumber : Z) :
    M Tables (Z * list GroupRequestModel) :=
  requests_stmt (query (sql_Search (λ r, bool_decide (Request_GroupID r ∈ groupIDs)) [] ""
    pageNumber showNumber)).
Definition GroupRequestGorm_FindGroupRequests (groupID : string) (userIDs : list string) :
    M Tables (Z * list GroupRequestModel) :=
  rs ← wrap_error (requests_stmt (query (sql_Find (λ r,
         bool_decide (Request_GroupID r = groupID) && bool_decide (Request_UserID r ∈ userIDs)))));
  mret (len rs, rs).

(** *** super_group.go *)

Definition groups_doc {A} (call : SG → (A + error) * SG) : M SuperDocs A :=
  zoom sd_groups (λ g s, mkSuperDocs g (sd_users s)) (λ s, let '(r, s') := call s in (of_sum r, s')).
Definition users_doc {A} (call : SU → (A + error) * SU) : M SuperDocs A :=
  zoom sd_users (λ u s, mkSuperDocs (sd_groups s) u) (λ s, let '(r, s') := call s in (of_sum r, s')).

Definition SuperGroupMongo_CreateSuperGroup (groupID : string) (initMemberIDs : list string) :
    M SuperDocs () :=
  _ ← groups_doc (doc_Insert groupID initMemberIDs);
  for_each initMemberIDs (λ userID, users_doc (doc_AddToSet true userID [groupID])).

Definition TakeSuperGroup (groupID : string) : M SuperDocs SuperGroupModel :=
  ids ← wrap_error (groups_doc (query (doc_FindOne groupID)));
  mret (mkSuperGroupModel groupID ids).

Definition SuperGroupMongo_FindSuperGroup (groupIDs : list string) : M SuperDocs (list SuperGroupModel) :=
  gs ← groups_doc (query (doc_Find groupIDs));
  mret ((λ '(g, ids), mkSuperGroupModel g ids) <$> gs).

Definition AddUserToSuperGroup (groupID : string) (userIDs : list string) : M SuperDocs () :=
  _ ← groups_doc (doc_AddToSet false groupID userIDs);
  for_each userIDs (λ userID, wrap_error (users_doc (doc_AddToSet true userID [groupID]))).

(** The update reaches one of the users. *)
Definition RemoveGroupFromUser (groupID : string) (userIDs : list string) : M SuperDocs () :=
  wrap_error (users_doc (doc_PullOne userIDs [groupID])).

Definition RemoverUserFromSuperGroup (groupID : string) (userIDs : list string) : M SuperDocs () :=
  _ ← groups_doc (doc_PullOne [groupID] userIDs);
  RemoveGroupFromUser groupID userIDs.

Definition GetSuperGroupByUserID (userID : string) : M SuperDocs UserToSuperGroupModel :=
  ids ← wrap_error (users_doc (query (doc_FindOne userID)));
  mret (mkUserToSuperGroup userID ids).

Definition SuperGroupMongo_DeleteSuperGroup (groupID : string) : M SuperDocs () :=
  group ← TakeSuperGroup groupID;
  _ ← wrap_error (groups_doc (doc_DeleteOne groupID));
  RemoveGroupFromUser groupID (Super_MemberIDs group).

(** ** Transactions *)

Definition in_tx {A} (m : M Tables A) : M (Tables * W) A := on_fst m.
Definition outside {A} (m : M W A) : M (Tables * W) A := on_snd m.

Definition Transaction {A} : M (Tables * W) A → M W A :=
  transaction w_tables put_tables
    (λ t, sql_Begin (t_groups t) (t_members t) (t_requests t))
    (λ t, sql_Commit (t_groups t) (t_members t) (t_requests t)).

(** [tx.CtxTx] of MongoDB: without transactions the body just runs. *)
Definition CtxTransaction {A} (body : M W A) : M W A := λ w,
  let '(r, w') := body w in
  match r with
  | Ok _ => (r, w')
  | _ => (r, if mongo_transactions then put_super (w_super w) w' else w')
  end.

Lemma wp_Transaction {A} (body : M (Tables * W) A) (Q : outcome A → W → Prop) w :
  (∀ e, sql_Begin (t_groups (w_tables w)) (t_members (w_tables w)) (t_requests (w_tables w)) = Some e →
     Q (Err e) w) →
  wp body (λ r '(t', w'), match r with
    | Ok a => (∀ e, sql_Commit (t_groups t') (t_members t') (t_requests t') = Some e → Q (Err e) w') ∧
        Q (Ok a) (put_tables t' w')
    | Err e => Q (Err e) w' | Panic => Q Panic w' | OutOfFuel => Q OutOfFuel w' end) (w_tables w, w) →
  wp (Transaction body) Q w.
Proof. intros He Hb. by apply (wp_transaction w_tables put_tables). Qed.
End Statements.

(** ** What a statement does to the rows *)

Abbreviation group_rows t := (rows (t_groups t)).
Abbreviation member_rows t := (rows (t_members t)).
Abbreviation request_rows t := (rows (t_requests t)).

Section StatementFacts.
Context `{EngineLaws} {E : Type}.

(** The rows of the three tables, which is all that a query can see. *)
Definition same_rows (t t' : Tables) : Prop :=
  group_rows t' = group_rows t ∧ member_rows t' = member_rows t ∧ request_rows t' = request_rows t.

#[export] Instance same_rows_equivalence : Equivalence same_rows.
Proof.
  split.
  - by intros t.
  - intros t t' (? & ? & ?). by repeat split.
  - intros t1 t2 t3 (? & ? & ?) (? & ? & ?). repeat split; congruence.
Qed.

#[export] Instance on_tables_read_only {A} (m : M Tables A) :
  ReadOnly m → ReadOnly (on_tables (E:=E) m).
Proof.
  intros Hm w. unfold on_tables, zoom. specialize (Hm (w_tables w)).
  destruct (m (w_tables w)) as [r t]. cbn in *. subst. by destruct w.
Qed.
#[export] Instance groups_query_read_only {A} (f : TG → A + error) : ReadOnly (groups_stmt (query f)).
Proof. by intros []. Qed.
#[export] Instance members_query_read_only {A} (f : TM → A + error) : ReadOnly (members_stmt (query f)).
Proof. by intros []. Qed.
#[export] Instance requests_query_read_only {A} (f : TR → A + error) : ReadOnly (requests_stmt (query f)).
Proof. by intros []. Qed.
#[export] Instance wrap_error_read_only {W A} (m : M W A) : ReadOnly m → ReadOnly (wrap_error m).
Proof. intros Hm. apply read_only_bind; [apply _|]. intros []; apply _. Qed.

Lemma wp_groups_stmt {A} (call : TG → (A + error) * TG) (Q : outcome A → Tables → Prop) t :
  (∀ r g, call (t_groups t) = (r, g) → Q (of_sum r) (mkTables g (t_members t) (t_requests t))) →
  wp (groups_stmt call) Q t.
Proof. intros HQ. apply wp_zoom. unfold wp. destruct (call _) as [r g] eqn:Ec. auto. Qed.
Lemma wp_members_stmt {A} (call : TM → (A + error) * TM) (Q : outcome A → Tables → Prop) t :
  (∀ r m, call (t_members t) = (r, m) → Q (of_sum r) (mkTables (t_groups t) m (t_requests t))) →
  wp (members_stmt call) Q t.
Proof. intros HQ. apply wp_zoom. unfold wp. destruct (call _) as [r g] eqn:Ec. auto. Qed.
Lemma wp_requests_stmt {A} (call : TR → (A + error) * TR) (Q : outcome A → Tables → Prop) t :
  (∀ r q, call (t_requests t) = (r, q) → Q (of_sum r) (mkTables (t_groups t) (t_members t) q)) →
  wp (requests_stmt call) Q t.
Proof. intros HQ. apply wp_zoom. unfold wp. destruct (call _) as [r g] eqn:Ec. auto. Qed.

Lemma wrap_external e : external e → external (WrapErr "" e).
Proof. intros [n Hn]. exists n. done. Qed.

(** The rules: what a statement that succeeds does; a failure changes no row. *)
Lemma wp_Group_Create l (Q : outcome () → Tables → Prop) t :
  (∀ t', NoDup (Group_GroupID <$> l) → (∀ g, g ∈ l → group_rows t !! Group_GroupID g = None) →
     group_rows t' = insert_rows (T:=TG) l (group_rows t) → member_rows t' = member_rows t →
     request_rows t' = request_rows t → Q (Ok ()) t') →
  (∀ t' e, same_rows t t' → external e → Q (Err e) t') →
  wp (GroupGorm_Create l) Q t.
Proof.
  intros Hok Herr. apply wp_wrap_error, wp_groups_stmt. intros [[]|e] g Ec; cbn [of_sum].
  - apply Create_ok in Ec. rewrite groups_key in Ec. destruct Ec as (? & ? & ?). by apply Hok.
  - apply Create_err in Ec as [? ?]. apply Herr; [by repeat split|by apply wrap_external].
Qed.

Lemma wp_groups_update groupID cs (Q : outcome () → Tables → Prop) t :
  (∀ t', group_rows t' = alter (set_group_columns cs) groupID (group_rows t) →
     member_rows t' = member_rows t → request_rows t' = request_rows t → Q (Ok ()) t') →
  (∀ t' e, same_rows t t' → external e → Q (Err e) t') →
  wp (GroupGorm_UpdateMap groupID cs) Q t.
Proof.
  intros Hok Herr. apply wp_wrap_error, wp_bind, wp_groups_stmt.
  intros [n|e] g Ec; cbn [of_sum].
  - apply Updates_ok in Ec as [Ec _]; [|intros r; rewrite groups_key; apply set_group_columns_id].
    apply wp_ret, Hok; [|done..]. cbn. rewrite Ec. apply map_eq. intros k.
    rewrite lookup_fmap, lookup_alter_fmap. destruct (group_rows t !! k) as [r|] eqn:Hr; [|done].
    apply rows_key in Hr. rewrite groups_key in Hr. subst k. cbn. unfold has_group.
    by case_decide; case_bool_decide.
  - apply Updates_err in Ec as [? ?]. apply Herr; [by repeat split|by apply wrap_external].
Qed.

Lemma wp_Member_Create l (Q : outcome () → Tables → Prop) t :
  (∀ t', NoDup (member_key <$> l) → (∀ m, m ∈ l → member_rows t !! member_key m = None) →
     member_rows t' = insert_rows (T:=TM) l (member_rows t) → group_rows t' = group_rows t →
     request_rows t' = request_rows t → Q (Ok ()) t') →
  (∀ t' e, same_rows t t' → external e → Q (Err e) t') →
  wp (GroupMemberGorm_Create l) Q t.
Proof.
  intros Hok Herr. apply wp_wrap_error, wp_members_stmt. intros [[]|e] g Ec; cbn [of_sum].
  - apply Create_ok in Ec. rewrite members_key in Ec. destruct Ec as (? & ? & ?). by apply Hok.
  - apply Create_err in Ec as [? ?]. apply Herr; [by repeat split|by apply wrap_external].
Qed.

Lemma wp_members_delete (p : GroupMemberModel → bool) (Q : outcome () → Tables → Prop) t :
  (∀ t', member_rows t' = filter (λ kr, p kr.2 = false) (member_rows t) →
     group_rows t' = group_rows t → request_rows t' = request_rows t → Q (Ok ()) t') →
  (∀ t' e, same_rows t t' → external e → Q (Err e) t') →
  wp (wrap_error (members_stmt (sql_Delete p))) Q t.
Proof.
  intros Hok Herr. apply wp_wrap_error, wp_members_stmt. intros [[]|e] g Ec; cbn [of_sum].
  - apply Delete_ok in Ec. by apply Hok.
  - apply Delete_err in Ec as [? ?]. apply Herr; [by repeat split|by apply wrap_external].
Qed.

(** The number of rows changed: whether the row is there and changes. *)
Definition row_changes (cs : list member_column) (o : option GroupMemberModel) : Z :=
  match o with Some m => if bool_decide (set_member_columns cs m = m) then 0 else 1 | None => 0 end.

Lemma has_member_key g u m : has_member g u m = bool_decide (member_key m = (g, u)).
Proof.
  unfold has_member, member_key. destruct m; cbn. repeat case_bool_decide; cbn; congruence.
Qed.

Lemma wp_members_updates g u cs (Q : outcome Z → Tables → Prop) t :
  (∀ t', member_rows t' = alter (set_member_columns cs) (g, u) (member_rows t) →
     group_rows t' = group_rows t → request_rows t' = request_rows t →
     Q (Ok (row_changes cs (member_rows t !! (g, u)))) t') →
  (∀ t' e, same_rows t t' → external e → Q (Err e) t') →
  wp (wrap_error (members_stmt (sql_Updates (has_member g u) (set_member_columns cs)))) Q t.
Proof.
  intros Hok Herr. apply wp_wrap_error, wp_members_stmt. intros [n|e] m Ec; cbn [of_sum].
  - apply Updates_ok in Ec as [Ec ->]; [|intros r; rewrite members_key; apply set_member_columns_key].
    assert (∀ k r, member_rows t !! k = Some r → member_key r = k) as Hk.
    { intros k r Hr. apply rows_key in Hr. by rewrite members_key in Hr. }
    replace (Z.of_nat _) with (row_changes cs (member_rows t !! (g, u))).
    + apply Hok; [|done..]. cbn. rewrite Ec. apply map_eq. intros k.
      rewrite lookup_fmap, lookup_alter_fmap. destruct (member_rows t !! k) as [r|] eqn:Hr; [|done].
      cbn. rewrite has_member_key, (Hk _ _ Hr). by case_decide; case_bool_decide.
    + unfold row_changes. destruct (member_rows t !! (g, u)) as [r|] eqn:Hr.
      * case_bool_decide as Hs.
        -- replace (filter _ _) with (∅ : gmap (string*string) GroupMemberModel); [done|]. symmetry. apply map_empty_filter_2. intros k r' Hr' [Hp Hc]. cbn in *.
           rewrite has_member_key, (Hk _ _ Hr') in Hp. bool_facts. subst. congruence.
        -- replace (filter _ _) with ({[(g, u) := r]} : gmap (string*string) GroupMemberModel);
             [by rewrite map_size_singleton|]. apply map_eq. intros k. apply option_eq. intros r'.
           rewrite map_lookup_filter_Some, lookup_singleton_Some. cbn. rewrite has_member_key. split.
           ++ intros [<- <-]. split; [done|]. split; [|done]. rewrite (Hk _ _ Hr). by apply bool_decide_eq_true_2.
           ++ intros (Hr' & Hp & Hc). rewrite (Hk _ _ Hr') in Hp. bool_facts. subst. split; congruence.
      * replace (filter _ _) with (∅ : gmap (string*string) GroupMemberModel); [done|]. symmetry.
        apply map_empty_filter_2. intros k r' Hr' [Hp _]. cbn in *.
        rewrite has_member_key, (Hk _ _ Hr') in Hp. bool_facts. congruence.
  - apply Updates_err in Ec as [? ?]. apply Herr; [by repeat split|by apply wrap_external].
Qed.
End StatementFacts.
