(* ===== verification/GroupCache.v ===== *)
(** * The cache of groups (pkg/common/db/cache/group.go)

    Each function reads one kind of key through [getCache], with the statement
    of GroupStore.v that computes the value on a miss.  The keys to delete
    after a change are collected in a list, the state of a [GroupCache] of the
    code.  [hashCode] is the function of the group service that hashes the
    members of a group. *)

From Stdlib Require Import Ascii.
From S2P Require Import Prelude.
From S2P Require Import GroupTypes.
From S2P Require Import Sql.
From S2P Require Import RowCache.
From S2P Require Import GroupStore.
From stdpp Require Import options.
#[local] Set Default Proof Using "Type*".

#[local] Open Scope Z_scope.

Definition groupInfoKey : string := "GROUP_INFO:".
Definition groupMemberIDsKey : string := "GROUP_MEMBER_IDS:".
Definition groupMembersHashKey : string := "GROUP_MEMBERS_HASH2:".
Definition groupMemberInfoKey : string := "GROUP_MEMBER_INFO:".
Definition joinedSuperGroupsKey : string := "JOIN_SUPER_GROUPS:".
Definition SuperGroupMemberIDsKey : string := "SUPER_GROUP_MEMBER_IDS:".
Definition joinedGroupsKey : string := "JOIN_GROUPS_KEY:".
Definition groupMemberNumKey : string := "GROUP_MEMBER_NUM_CACHE:".

Definition getGroupInfoKey (groupID : string) : string := groupInfoKey +:+ groupID.
Definition getJoinedSuperGroupsIDKey (userID : string) : string := joinedSuperGroupsKey +:+ userID.
Definition getJoinedGroupsKey (userID : string) : string := joinedGroupsKey +:+ userID.
Definition getSuperGroupMemberIDsKey (groupID : string) : string := SuperGroupMemberIDsKey +:+ groupID.
Definition getGroupMembersHashKey (groupID : string) : string := groupMembersHashKey +:+ groupID.
Definition getGroupMemberIDsKey (groupID : string) : string := groupMemberIDsKey +:+ groupID.
Definition getGroupMemberInfoKey (groupID userID : string) : string :=
  groupMemberInfoKey +:+ groupID +:+ "-" +:+ userID.
Definition getGroupMemberNumKey (groupID : string) : string := groupMemberNumKey +:+ groupID.

(** ** Keys to delete *)

Abbreviation Keys := (list string).

Definition DelGroupsInfo (groupIDs : list string) (c : Keys) : Keys :=
  c ++ (getGroupInfoKey <$> groupIDs).
Definition DelJoinedSuperGroupIDs (userIDs : list string) (c : Keys) : Keys :=
  c ++ (getJoinedSuperGroupsIDKey <$> userIDs).
Definition DelSuperGroupMemberIDs (groupIDs : list string) (c : Keys) : Keys :=
  c ++ (getSuperGroupMemberIDsKey <$> groupIDs).
Definition DelGroupMembersHash (groupID : string) (c : Keys) : Keys :=
  c ++ [getGroupMembersHashKey groupID].
Definition DelGroupMemberIDs (groupID : string) (c : Keys) : Keys :=
  c ++ [getGroupMemberIDsKey groupID].
Definition DelJoinedGroupID (userIDs : list string) (c : Keys) : Keys :=
  c ++ (getJoinedGroupsKey <$> userIDs).
Definition DelGroupMembersInfo (groupID : string) (userIDs : list string) (c : Keys) : Keys :=
  c ++ (getGroupMemberInfoKey groupID <$> userIDs).
Definition DelGroupsMemberNum (groupID : list string) (c : Keys) : Keys :=
  c ++ (getGroupMemberNumKey <$> groupID).

(** ** Reading *)

Section GroupCache.
Context `{Engine} {E : Type}.
Abbreviation W := (World E).

Definition get_cache {T} `{Json T} (key : string) (fn : M W T) : M W T :=
  getCache w_cache put_cache key fn.
Definition exec_del (keys : Keys) : M W () := ExecDel w_cache put_cache keys.

Definition GetGroupsInfo (groupIDs : list string) : M W (list GroupModel) :=
  batchGetCache2 w_cache put_cache groupIDs getGroupInfoKey (λ groupID, on_tables (GroupGorm_Take groupID)).
Definition GetGroupInfo (groupID : string) : M W GroupModel :=
  get_cache (getGroupInfoKey groupID) (on_tables (GroupGorm_Take groupID)).

Definition GetJoinedSuperGroupIDs (userID : string) : M W (list string) :=
  get_cache (getJoinedSuperGroupsIDKey userID)
    (userGroup ← on_super (GetSuperGroupByUserID userID); mret (User_GroupIDs userGroup)).
Definition GetSuperGroupMemberIDs (groupIDs : list string) : M W (list SuperGroupModel) :=
  batchGetCache2 w_cache put_cache groupIDs getSuperGroupMemberIDsKey
    (λ groupID, on_super (TakeSuperGroup groupID)).

Definition GetGroupMemberIDs (groupID : string) : M W (list string) :=
  get_cache (getGroupMemberIDsKey groupID) (on_tables (FindMemberUserID groupID)).
Definition GetGroupsMemberIDs (groupIDs : list string) : M W (gmap string (list string)) :=
  fold_each groupIDs ∅ (λ m groupID,
    userIDs ← GetGroupMemberIDs groupID;
    mret (<[groupID := userIDs]> m)).
Definition GetJoinedGroupIDs (userID : string) : M W (list string) :=
  get_cache (getJoinedGroupsKey userID) (on_tables (FindUserJoinedGroupID userID)).
Definition GetGroupMemberInfo (groupID userID : string) : M W GroupMemberModel :=
  get_cache (getGroupMemberInfoKey groupID userID) (on_tables (GroupMemberGorm_Take groupID userID)).
Definition GetGroupMembersInfo (groupID : string) (userIDs : list string) : M W (list GroupMemberModel) :=
  batchGetCache2 w_cache put_cache userIDs (getGroupMemberInfoKey groupID)
    (λ userID, on_tables (GroupMemberGorm_Take groupID userID)).
Definition GetAllGroupMembersInfo (groupID : string) : M W (list GroupMemberModel) :=
  groupMemberIDs ← GetGroupMemberIDs groupID;
  GetGroupMembersInfo groupID groupMemberIDs.
Definition GetAllGroupMemberInfo (groupID : string) : M W (list GroupMemberModel) :=
  groupMemberIDs ← GetGroupMemberIDs groupID;
  GetGroupMembersInfo groupID groupMemberIDs.
Definition GetGroupMemberNum (groupID : string) : M W Z :=
  get_cache (getGroupMemberNumKey groupID) (on_tables (TakeGroupMemberNum groupID)).

Context (hashCode : string → M W N).

Definition GetGroupMembersHash (groupID : string) : M W N :=
  get_cache (getGroupMembersHashKey groupID) (hashCode groupID).

(** [uint32(num)] *)
Definition uint32 (z : Z) : Z := z `mod` 2 ^ 32.

Definition GetGroupMemberHashMap (groupIDs : list string) : M W (gmap string GroupSimpleUserID) :=
  fold_each groupIDs ∅ (λ res groupID,
    hash ← GetGroupMembersHash groupID;
    num ← GetGroupMemberNum groupID;
    mret (<[groupID := mkGroupSimpleUserID hash (uint32 num)]> res)).
End GroupCache.

(** ** The keys are distinct

    Keys of different kinds never meet.  The key of a member joins two ids with
    a dash, and tells them apart only if the group's id has none. *)

Definition dash_free (s : string) : Prop := ∀ a b, s ≠ a +:+ String "-"%char b.

Lemma string_app_inv (a b c : string) : a +:+ b = a +:+ c → b = c.
Proof. induction a as [|x a IH]; cbn; [done|]. intros [= E]. auto. Qed.

Lemma dash_split (a b c d : string) :
  dash_free a → dash_free c → a +:+ String "-"%char b = c +:+ String "-"%char d → a = c ∧ b = d.
Proof.
  revert c. induction a as [|x a IH]; intros [|y c] Ha Hc; cbn.
  - by intros [= ->].
  - intros [= <- E]. destruct (Hc "" c). done.
  - intros [= -> E]. destruct (Ha "" a). done.
  - intros [= -> E]. destruct (IH c) as [-> ->]; try done.
    + intros a' b' ->. by apply (Ha (String y a') b').
    + intros a' b' ->. by apply (Hc (String y a') b').
Qed.

Lemma member_info_key_inj g u g' u' : dash_free g → dash_free g' →
  getGroupMemberInfoKey g u = getGroupMemberInfoKey g' u' → g = g' ∧ u = u'.
Proof. intros Hg Hg' E%string_app_inv. by apply dash_split. Qed.

#[export] Instance getGroupInfoKey_inj : Inj (=) (=) getGroupInfoKey.
Proof. intros a b. apply string_app_inv. Qed.
#[export] Instance getGroupMemberIDsKey_inj : Inj (=) (=) getGroupMemberIDsKey.
Proof. intros a b. apply string_app_inv. Qed.
#[export] Instance getGroupMemberNumKey_inj : Inj (=) (=) getGroupMemberNumKey.
Proof. intros a b. apply string_app_inv. Qed.
#[export] Instance getJoinedGroupsKey_inj : Inj (=) (=) getJoinedGroupsKey.
Proof. intros a b. apply string_app_inv. Qed.
