(* ===== verification/GroupDatabase.v ===== *)
(** * The group database (pkg/common/db/controller/group.go)

    The operations the service calls, over the tables, the super groups and the
    cache: reads go through the cache, changes go to the tables, some of them in
    a transaction, and then delete the keys they have made stale. *)

From S2P Require Import Prelude.
From S2P Require Import Constants.
From S2P Require Import GroupTypes.
From S2P Require Import Sql.
From S2P Require Import RowCache.
From S2P Require Import GroupStore.
From S2P Require Import GroupCache.
From S2P Require Import Tools.
From stdpp Require Import options.
#[local] Set Default Proof Using "Type*".

#[local] Open Scope Z_scope.

(** ** Functions of the tool library on lists *)

Class ListTools := {
  (** [utils.Paginate(list, pageNumber, showNumber)] *)
  Paginate : ∀ {A}, list A → Z → Z → list A;
  (** [utils.Order(keys, elements, key)]: the elements in the order of the keys *)
  Order : ∀ {A}, list string → list A → (A → string) → list A;
  (** [utils.Sort(list, asc)] *)
  SortStrings : list string → list string;
}.

Class ListToolsLaws `{ListTools} : Prop := {
  Paginate_elem {A} (l : list A) p n x : x ∈ Paginate l p n → x ∈ l;
  Order_elem {A} ks (l : list A) f x : x ∈ Order ks l f → x ∈ l;
  SortStrings_perm l : SortStrings l ≡ₚ l;
}.

Definition model_list_tools : ListTools := {|
  Paginate A l p n := take (Z.to_nat n) (drop (Z.to_nat ((p - 1) * n)) l);
  Order A ks l f := k ← ks; filter (λ x, f x = k) l;
  SortStrings l := l;
|}.

Lemma model_list_tools_laws : @ListToolsLaws model_list_tools.
Proof.
  split; cbn.
  - intros A l p n x Hx. by apply subseteq_take, subseteq_drop in Hx.
  - intros A ks l f x (k & Hk & _)%list_elem_of_bind. by apply list_elem_of_filter in Hk as [_ ?].
  - done.
Qed.

Section GroupDatabase.
Context `{Engine} `{Tools} `{ListTools} {E : Type}.
Abbreviation W := (World E).
Context (hashCode : string → M W N).

(** *** Reads *)

Definition GetGroupIDsByGroupType (groupType : Z) : M W (list string) :=
  on_tables (GroupGorm_GetGroupIDsByGroupType groupType).
Definition FindGroupMemberUserID (groupID : string) : M W (list string) := GetGroupMemberIDs groupID.
Definition FindGroupMemberNum (groupID : string) : M W Z :=
  num ← GetGroupMemberNum groupID; mret (uint32 num).
Definition TakeGroup (groupID : string) : M W GroupModel := GetGroupInfo groupID.
Definition FindGroup (groupIDs : list string) : M W (list GroupModel) := GetGroupsInfo groupIDs.
Definition SearchGroup (keyword : string) (pageNumber showNumber : Z) : M W (Z * list GroupModel) :=
  on_tables (GroupGorm_Search keyword pageNumber showNumber).
Definition TakeGroupMember (groupID userID : string) : M W GroupMemberModel :=
  GetGroupMemberInfo groupID userID.
Definition TakeGroupOwner (groupID : string) : M W GroupMemberModel := on_tables (TakeOwner groupID).
Definition FindUserManagedGroupID (userID : string) : M W (list string) :=
  on_tables (GroupMemberGorm_FindUserManagedGroupID userID).
Definition PageGroupRequest (groupIDs : list string) (pageNumber showNumber : Z) :
    M W (Z * list GroupRequestModel) := on_tables (PageGroup groupIDs pageNumber showNumber).

Definition FindGroupMember (groupIDs userIDs : list string) (roleLevels : list Z) :
    M W (list GroupMemberModel) :=
  match groupIDs, userIDs, roleLevels with
  | [], [userID], [] =>
      gIDs ← GetJoinedGroupIDs userID;
      fold_each gIDs [] (λ res groupID,
        v ← GetGroupMemberInfo groupID userID;
        mret (res ++ [v]))
  | _, _, [] =>
      fold_each groupIDs [] (λ totalGroupMembers groupID,
        groupMembers ← GetGroupMembersInfo groupID userIDs;
        mret (totalGroupMembers ++ groupMembers))
  | _, _, _ => on_tables (GroupMemberGorm_Find groupIDs userIDs roleLevels)
  end.

Definition PageGetJoinGroup (userID : string) (pageNumber showNumber : Z) :
    M W (Z * list GroupMemberModel) :=
  groupIDs ← GetJoinedGroupIDs userID;
  totalGroupMembers ← fold_each (Paginate groupIDs pageNumber showNumber) []
    (λ totalGroupMembers groupID,
       groupMembers ← GetGroupMembersInfo groupID [userID];
       mret (totalGroupMembers ++ groupMembers));
  mret (uint32 (len groupIDs), totalGroupMembers).

Definition PageGetGroupMember (groupID : string) (pageNumber showNumber : Z) :
    M W (Z * list GroupMemberModel) :=
  groupMemberIDs ← GetGroupMemberIDs groupID;
  let pageIDs := Paginate groupMemberIDs pageNumber showNumber in
  if len pageIDs =? 0 then mret (uint32 (len groupMemberIDs), [])
  else
    members ← GetGroupMembersInfo groupID pageIDs;
    mret (uint32 (len groupMemberIDs), members).

Definition SearchGroupMember (keyword : string) (groupIDs userIDs : list string)
    (roleLevels : list Z) (pageNumber showNumber : Z) : M W (Z * list GroupMemberModel) :=
  on_tables (SearchMember keyword groupIDs userIDs roleLevels pageNumber showNumber).
Definition MapGroupMemberUserID (groupIDs : list string) : M W (gmap string GroupSimpleUserID) :=
  GetGroupMemberHashMap hashCode groupIDs.
Definition MapGroupMemberNum (groupIDs : list string) : M W (gmap string Z) :=
  fold_each groupIDs ∅ (λ m groupID,
    num ← GetGroupMemberNum groupID;
    mret (<[groupID := uint32 num]> m)).
Definition TakeGroupRequest (groupID userID : string) : M W GroupRequestModel :=
  on_tables (GroupRequestGorm_Take groupID userID).
Definition PageGroupRequestUser (userID : string) (pageNumber showNumber : Z) :
    M W (Z * list GroupRequestModel) := on_tables (GroupRequestGorm_Page userID pageNumber showNumber).
Definition FindGroupRequests (groupID : string) (userIDs : list string) :
    M W (Z * list GroupRequestModel) := on_tables (GroupRequestGorm_FindGroupRequests groupID userIDs).
Definition FindNotDismissedGroup (groupIDs : list string) : M W (list GroupModel) :=
  on_tables (GroupGorm_FindNotDismissedGroup groupIDs).
Definition CountTotal (before : option Z) : M W Z := on_tables (GroupGorm_CountTotal before).
Definition FindSuperGroup (groupIDs : list string) : M W (list SuperGroupModel) :=
  GetSuperGroupMemberIDs groupIDs.
Definition FindJoinSuperGroup (userID : string) : M W (list string) := GetJoinedSuperGroupIDs userID.

(** *** Changes *)

(** The keys of the members' groups, once per group, and of the members. *)
Definition created_members_keys (groupMembers : list GroupMemberModel) (c : Keys) : Keys :=
  (foldl (λ '(c, m) groupMember,
     let g := Member_GroupID groupMember in
     let u := Member_UserID groupMember in
     let '(c, m) := if Contain g m then (c, m)
       else (DelGroupsMemberNum [g] (DelGroupMembersHash g (DelGroupMemberIDs g c)), m ++ [g]) in
     (DelGroupMembersInfo g [u] (DelJoinedGroupID [u] c), m)) (c, []) groupMembers).1.

Definition groupDatabase_CreateGroup (groups : list GroupModel) (groupMembers : list GroupMemberModel) :
    M W () :=
  cache ← Transaction (
    _ ← (if 0 <? len groups then in_tx (GroupGorm_Create groups) else mret ());
    _ ← (if 0 <? len groupMembers then in_tx (GroupMemberGorm_Create groupMembers) else mret ());
    let createGroupIDs := Distinct (Group_GroupID <$> groups) in
    mret (DelGroupsInfo createGroupIDs (created_members_keys groupMembers [])));
  exec_del cache.

Definition UpdateGroup (groupID : string) (data : list group_column) : M W () :=
  _ ← on_tables (GroupGorm_UpdateMap groupID data);
  exec_del (DelGroupsInfo [groupID] []).

(** The members are read outside the transaction, where they still are. *)
Definition groupDatabase_DismissGroup (groupID : string) (deleteMember : bool) : M W () :=
  cache ← Transaction (
    _ ← in_tx (GroupGorm_UpdateStatus groupID GroupStatusDismissed);
    cache ← (if deleteMember then
      _ ← in_tx (GroupMemberGorm_DeleteGroup [groupID]);
      userIDs ← outside (GetGroupMemberIDs groupID);
      mret (DelGroupMembersHash groupID (DelGroupsMemberNum [groupID]
             (DelGroupMemberIDs groupID (DelJoinedGroupID userIDs []))))
    else mret []);
    mret (DelGroupsInfo [groupID] cache));
  exec_del cache.

(** The keys are deleted before the commit. *)
Definition HandlerGroupRequest (groupID userID handledMsg : string) (handleResult : Z)
    (member : option GroupMemberModel) : M W () :=
  Transaction (
    _ ← in_tx (UpdateHandler groupID userID handledMsg handleResult);
    match member with
    | Some member =>
        _ ← in_tx (GroupMemberGorm_Create [member]);
        outside (exec_del (DelJoinedGroupID [Member_UserID member] (DelGroupsMemberNum [groupID]
          (DelGroupMemberIDs groupID (DelGroupMembersInfo groupID [Member_UserID member]
            (DelGroupMembersHash groupID []))))))
    | None => mret ()
    end).

Definition DeleteGroupMember (groupID : string) (userIDs : list string) : M W () :=
  _ ← on_tables (GroupMemberGorm_Delete groupID userIDs);
  exec_del (DelGroupMembersInfo groupID userIDs (DelJoinedGroupID userIDs
    (DelGroupsMemberNum [groupID] (DelGroupMemberIDs groupID (DelGroupMembersHash groupID []))))).

(** [utils.Wrap(fmt.Errorf("%s %s rowsAffected = %d"), "")] *)
Definition rows_affected_error (who userID : string) (n : Z) : error :=
  Wrap (ErrText (who +:+ " " +:+ userID +:+ " rowsAffected = " +:+ pretty n)) "".

Definition groupDatabase_TransferGroupOwner (groupID oldOwnerUserID newOwnerUserID : string)
    (roleLevel : Z) : M W () :=
  Transaction (
    rowsAffected ← in_tx (UpdateRoleLevel groupID oldOwnerUserID roleLevel);
    _ ← guard (negb (rowsAffected =? 1)) (rows_affected_error "oldOwnerUserID" oldOwnerUserID rowsAffected);
    rowsAffected ← in_tx (UpdateRoleLevel groupID newOwnerUserID GroupOwner);
    _ ← guard (negb (rowsAffected =? 1)) (rows_affected_error "newOwnerUserID" newOwnerUserID rowsAffected);
    outside (exec_del (DelGroupMembersHash groupID
      (DelGroupMembersInfo groupID [oldOwnerUserID; newOwnerUserID] [])))).

Definition UpdateGroupMember (groupID userID : string) (data : list member_column) : M W () :=
  _ ← on_tables (GroupMemberGorm_Update groupID userID data);
  exec_del (DelGroupMembersInfo groupID [userID] []).

Definition UpdateGroupMembers (data : list BatchUpdateGroupMember) : M W () :=
  cache ← Transaction (fold_each data [] (λ cache item,
    _ ← in_tx (GroupMemberGorm_Update (Batch_GroupID item) (Batch_UserID item) (Batch_Map item));
    mret (DelGroupMembersInfo (Batch_GroupID item) [Batch_UserID item] cache)));
  exec_del cache.

Definition CreateGroupRequest (requests : list GroupRequestModel) : M W () :=
  Transaction (
    _ ← for_each requests (λ request,
      in_tx (GroupRequestGorm_Delete (Request_GroupID request) (Request_UserID request)));
    in_tx (GroupRequestGorm_Create requests)).

Definition CreateSuperGroup (groupID : string) (initMemberIDs : list string) : M W () :=
  _ ← on_super (SuperGroupMongo_CreateSuperGroup groupID initMemberIDs);
  exec_del (DelJoinedSuperGroupIDs initMemberIDs (DelSuperGroupMemberIDs [groupID] [])).

Definition DeleteSuperGroup (groupID : string) : M W () :=
  cache ← CtxTransaction (
    _ ← on_super (SuperGroupMongo_DeleteSuperGroup groupID);
    models ← GetSuperGroupMemberIDs [groupID];
    let cache := DelSuperGroupMemberIDs [groupID] [] in
    mret (match models with
          | m :: _ => DelJoinedSuperGroupIDs (Super_MemberIDs m) cache
          | [] => cache
          end));
  exec_del cache.

Definition DeleteSuperGroupMember (groupID : string) (userIDs : list string) : M W () :=
  _ ← on_super (RemoverUserFromSuperGroup groupID userIDs);
  exec_del (DelJoinedSuperGroupIDs userIDs (DelSuperGroupMemberIDs [groupID] [])).

Definition CreateSuperGroupMember (groupID : string) (userIDs : list string) : M W () :=
  _ ← on_super (AddUserToSuperGroup groupID userIDs);
  exec_del (DelJoinedSuperGroupIDs userIDs (DelSuperGroupMemberIDs [groupID] [])).

Definition DeleteGroupMemberHash (groupIDs : list string) : M W () :=
  if len groupIDs =? 0 then mret ()
  else exec_del (foldl (λ c groupID, DelGroupMembersHash groupID c) [] groupIDs).
End GroupDatabase.
