(* ===== verification/GroupNotification.v ===== *)
(** * Notifications of groups (pkg/rpcclient/notification/group.go)

    The messages the system sends when a group changes.  Each function reads
    what it tells from the group database and the user service, and hands a
    message to the message service: a [SendMsg] among the effects.
    [GroupEffect] is all that the group service asks of the rest of the system. *)

From S2P Require Import Prelude.
From S2P Require Import Constants.
From S2P Require Import MsgTypes.
From S2P Require Import Tools.
From S2P Require Import Notification.
From S2P Require Import RpcClient.
From S2P Require Import Auth.
From S2P Require Import GroupTypes.
From S2P Require Import Sql.
From S2P Require Import RowCache.
From S2P Require Import GroupStore.
From S2P Require Import GroupCache.
From S2P Require Import GroupDatabase.
From stdpp Require Import options.
#[local] Set Default Proof Using "Type*".

#[local] Open Scope Z_scope.

(** The posts to the webhook (pkg/callbackstruct/group.go). *)
Inductive GroupCallbackReq :=
  | CallbackBeforeCreateGroupReq (OperationID : string) (Info : GroupInfo)
      (InitMemberList : list (string * Z))
  | CallbackBeforeMemberJoinGroupReq (OperationID GroupID UserID Ex GroupEx : string)
  | CallbackBeforeSetGroupMemberInfoReq (OperationID GroupID UserID : string)
      (Nickname FaceURL : option string) (RoleLevel : option Z) (Ex : option string).

(** What is asked of the message service, of the conversation service and of
    the webhook, and the goroutines that a handler leaves behind. *)
Inductive GroupEffect :=
  | SendMsg (m : MsgData)
  | CreateGroupChatConversations (groupID : string) (userIDs : list string)
  | SetConversationMaxSeq (ownerUserIDs : list string) (conversationID : string) (maxSeq : Z)
  | SetGroupConversations (userIDs : list string) (conversation : ConversationReq)
  | GroupCallbackPost (req : GroupCallbackReq)
  | Go_SuperGroupNotifications (userIDs : list string)
  | Go_AnnouncementConversations (groupID : string).

(** [utils.SliceToMap]: the last element of a key stays. *)
Definition SliceToMap {A} `{Countable K} (key : A → K) (l : list A) : gmap K A :=
  foldl (λ m x, <[key x := x]> m) ∅ l.

Lemma SliceToMap_some {A} `{Countable K} (key : A → K) l k x :
  SliceToMap key l !! k = Some x → x ∈ l ∧ key x = k.
Proof.
  unfold SliceToMap. induction l as [|y l IH] using rev_ind; [done|].
  rewrite foldl_app. cbn [foldl]. rewrite lookup_insert, elem_of_app, list_elem_of_singleton.
  case_decide as Hy; [intros [= <-]; auto|]. intros [? ?]%IH. auto.
Qed.

Lemma SliceToMap_is_some {A} `{Countable K} (key : A → K) l x :
  x ∈ l → is_Some (SliceToMap key l !! key x).
Proof.
  unfold SliceToMap. induction l as [|y l IH] using rev_ind; [by intros ?%elem_of_nil|].
  rewrite foldl_app. cbn [foldl]. rewrite elem_of_app, list_elem_of_singleton, lookup_insert.
  case_decide; [eauto|]. intros [?| ->]; [auto|done].
Qed.

(** ** Parts of user.go of the clients *)

Definition public_user (e : UserInfo) : PublicUserInfo :=
  mkPublicUserInfo (UI_UserID e) (UI_Nickname e) (UI_FaceURL e) (UI_Ex e).

Section UserClient.
Context {Wr : Type} `{Services Wr} `{MsgTools}.
Definition GetUsersInfoMap (userIDs : list string) : M (list Wr) (gmap string UserInfo) :=
  users ← GetUsersInfo userIDs; mret (SliceToMap UI_UserID users).
Definition GetPublicUserInfos (userIDs : list string) (complete : bool) :
    M (list Wr) (list PublicUserInfo) :=
  users ← GetUsersInfo userIDs; mret (public_user <$> users).
Definition GetPublicUserInfo (userID : string) : M (list Wr) PublicUserInfo :=
  users ← GetPublicUserInfos [userID] true; deref (head users).
Definition UserClient_GetPublicUserInfoMap (userIDs : list string) (complete : bool) :
    M (list Wr) (gmap string PublicUserInfo) :=
  users ← GetPublicUserInfos userIDs complete; mret (SliceToMap PU_UserID users).
End UserClient.

(** ** The sender *)

Section GroupNotificationSender.
Context `{Engine} `{Tools} `{MsgTools} `{ListTools} `{Services GroupEffect}.
Abbreviation W := (World (list GroupEffect)).
(** [opUserID] is the user of the call. *)
Context (managers : list string) (Config : notification) (now : Z) (opUserID : string).
Context (StructToJsonString : GroupTips → string) (Marshal_elem : string → string + error).
(** What the other services answer to a change. *)
Context (answers : list GroupEffect → GroupEffect → option error).

Definition send (m : MsgData) : M W (option SendMsgResp) :=
  _ ← on_env (tell answers (SendMsg m)); mret None.

Definition notify (sendID recvID : string) (contentType : Z) (m : GroupTips)
    (WithRpcGetUsername : bool) : M W () :=
  Notification Config now StructToJsonString Marshal_elem utils_GetMsgID send
    (Some (λ u, on_env (GetUserInfo u))) sendID recvID contentType m WithRpcGetUsername.

Definition getUser (userID : string) : M W PublicUserInfo :=
  users ← on_env (GetUsersInfo [userID]);
  match users with
  | [] => fail (Wrap ErrUserIDNotFound ("user " +:+ userID +:+ " not found"))
  | u :: _ => mret (public_user u)
  end.

Definition getGroupInfo (groupID : string) : M W GroupInfo :=
  gm ← TakeGroup groupID;
  num ← FindGroupMemberNum groupID;
  owner ← TakeGroupOwner groupID;
  mret {| GI_GroupID := Group_GroupID gm; GI_GroupName := Group_GroupName gm;
          GI_Notification := Group_Notification gm; GI_Introduction := Group_Introduction gm;
          GI_FaceURL := Group_FaceURL gm; GI_OwnerUserID := Member_UserID owner;
          GI_CreateTime := Group_CreateTime gm; GI_MemberCount := num; GI_Ex := Group_Ex gm;
          GI_Status := Group_Status gm; GI_CreatorUserID := Group_CreatorUserID gm;
          GI_GroupType := Group_GroupType gm; GI_NeedVerification := Group_NeedVerification gm;
          GI_LookMemberInfo := Group_LookMemberInfo gm;
          GI_ApplyMemberFriend := Group_ApplyMemberFriend gm;
          GI_NotificationUpdateTime := Group_NotificationUpdateTime gm;
          GI_NotificationUserID := Group_NotificationUserID gm |}.

Definition getUsersInfoMap (userIDs : list string) : M W (gmap string UserInfo) :=
  users ← on_env (GetUsersInfo userIDs); mret (SliceToMap UI_UserID users).

Definition set_Member_names (nickname faceURL : string) (m : GroupMemberModel) : GroupMemberModel :=
  let '(mkGroupMemberModel g u _ _ role join source inviter operator mute ex) := m in
  mkGroupMemberModel g u nickname faceURL role join source inviter operator mute ex.

(** A user taken once is deleted from the map. *)
Definition getGroupMembers (groupID : string) (userIDs : list string) :
    M W (list GroupMemberFullInfo) :=
  members ← FindGroupMember [groupID] userIDs [];
  users ← getUsersInfoMap userIDs;
  r ← fold_each members ([], users) (λ '(res, users) member,
    match users !! Member_UserID member with
    | None => fail (Wrap ErrUserIDNotFound ("group " +:+ Member_GroupID member +:+ " member " +:+
                      Member_UserID member +:+ " not in user"))
    | Some user =>
        let member := if bool_decide (Member_Nickname member = "")
                      then set_Member_names (UI_Nickname user) (Member_FaceURL member) member
                      else member in
        mret (res ++ [groupMemberDB2PB member (UI_AppMangerLevel user)],
              delete (Member_UserID member) users)
    end);
  mret r.1.

Definition getGroupMemberMap (groupID : string) (userIDs : list string) :
    M W (gmap string GroupMemberFullInfo) :=
  members ← getGroupMembers groupID userIDs; mret (SliceToMap GM_UserID members).

Definition getGroupMember (groupID userID : string) : M W GroupMemberFullInfo :=
  members ← getGroupMembers groupID [userID];
  match members with
  | [] => fail (Wrap ErrInternalServer ("group " +:+ groupID +:+ " member " +:+ userID +:+ " not found"))
  | m :: _ => mret m
  end.

Definition getGroupOwnerAndAdminUserID (groupID : string) : M W (list string) :=
  members ← FindGroupMember [groupID] [] [GroupOwner; GroupAdmin];
  mret (Member_UserID <$> members).

Definition set_GM_names (nickname faceURL : string) (m : GroupMemberFullInfo) : GroupMemberFullInfo :=
  let '(mkGroupMember g u role join _ _ level source operator ex mute inviter) := m in
  mkGroupMember g u role join nickname faceURL level source operator ex mute inviter.

Definition fill_names (user : PublicUserInfo) (m : GroupMemberFullInfo) : GroupMemberFullInfo :=
  set_GM_names (if bool_decide (GM_Nickname m = "") then PU_Nickname user else GM_Nickname m)
    (if bool_decide (GM_FaceURL m = "") then PU_FaceURL user else GM_FaceURL m) m.

(** What the operator's pointer points to afterwards. *)
Definition fillOpUser (opUser : option GroupMemberFullInfo) (groupID : string) :
    M W GroupMemberFullInfo :=
  match opUser with
  | Some u => mret u
  | None =>
      let userID := opUserID in
      opUser ←
        (if bool_decide (groupID = "") then mret None
         else if IsManagerUserID managers userID then
           mret (Some (mkGroupMember groupID userID GroupAdmin 0 "" "" AppAdmin 0 "" "" 0 ""))
         else
           r ← try (TakeGroupMember groupID userID);
           match r with
           | inl member => mret (Some (groupMemberDB2PB member 0))
           | inr err => if RecordNotFound_Is (Unwrap err) then mret None else fail err
           end);
      user ← getUser userID;
      mret (match opUser with
            | None => mkGroupMember groupID userID 0 0 (PU_Nickname user) (PU_FaceURL user) 0 0 userID "" 0 ""
            | Some m => fill_names user m
            end)
  end.

(** *** The notifications *)

Definition GroupCreatedNotification_send (group : GroupInfo) (opUser : option GroupMemberFullInfo)
    (memberList : list GroupMemberFullInfo) (operationTime : Z) (owner : GroupMemberFullInfo) : M W () :=
  opUser ← fillOpUser opUser (GI_GroupID group);
  notify opUserID (GI_GroupID group) GroupCreatedNotification
    (GroupCreatedTips group (Some opUser) memberList operationTime owner) false.

Definition GroupInfoSetNotification_send (opUser : GroupMemberFullInfo) (group : GroupInfo) : M W () :=
  opUser ← fillOpUser (Some opUser) (GI_GroupID group);
  notify opUserID (GI_GroupID group) GroupInfoSetNotification (GroupInfoSetTips opUser 0 group) true.

Definition GroupInfoSetNameNotification_send (opUser : GroupMemberFullInfo) (group : GroupInfo) : M W () :=
  opUser ← fillOpUser (Some opUser) (GI_GroupID group);
  notify opUserID (GI_GroupID group) GroupInfoSetNameNotification (GroupInfoSetNameTips opUser group) false.

Definition GroupInfoSetAnnouncementNotification_send (opUser : GroupMemberFullInfo)
    (group : GroupInfo) : M W () :=
  opUser ← fillOpUser (Some opUser) (GI_GroupID group);
  notify opUserID (GI_GroupID group) GroupInfoSetAnnouncementNotification
    (GroupInfoSetAnnouncementTips opUser group) true.

(** To each user; a failure is only logged. *)
Definition notify_each (userIDs : list string) (contentType : Z) (tips : GroupTips) : M W () :=
  for_each userIDs (λ userID, _ ← try (notify opUserID userID contentType tips false); mret ()).

Definition JoinGroupApplicationNotification_send (req : JoinGroupReq) : M W () :=
  group ← getGroupInfo (Join_GroupID req);
  user ← getUser (Join_InviterUserID req);
  userIDs ← getGroupOwnerAndAdminUserID (Join_GroupID req);
  notify_each (Distinct (userIDs ++ [Join_InviterUserID req; opUserID]))
    JoinGroupApplicationNotification (JoinGroupApplicationTips group user (Join_ReqMessage req)).

Definition MemberQuitNotification_send (member : GroupMemberFullInfo) : M W () :=
  group ← getGroupInfo (GM_GroupID member);
  notify opUserID (GM_GroupID member) MemberQuitNotification (MemberQuitTips group member) false.

Definition GroupApplicationAcceptedNotification_send (req : GroupApplicationResponseReq) : M W () :=
  group ← getGroupInfo (Response_GroupID req);
  userIDs ← getGroupOwnerAndAdminUserID (Response_GroupID req);
  opUser ← fillOpUser None (GI_GroupID group);
  notify_each (userIDs ++ [opUserID]) GroupApplicationAcceptedNotification
    (GroupApplicationAcceptedTips group opUser (Response_HandledMsg req) 1).

Definition GroupApplicationRejectedNotification_send (req : GroupApplicationResponseReq) : M W () :=
  group ← getGroupInfo (Response_GroupID req);
  userIDs ← getGroupOwnerAndAdminUserID (Response_GroupID req);
  opUser ← fillOpUser None (GI_GroupID group);
  notify_each (userIDs ++ [opUserID]) GroupApplicationRejectedNotification
    (GroupApplicationRejectedTips group opUser (Response_HandledMsg req)).

Definition GroupOwnerTransferredNotification_send (req : TransferGroupOwnerReq) : M W () :=
  group ← getGroupInfo (Transfer_GroupID req);
  member ← getGroupMemberMap (Transfer_GroupID req) [opUserID; Transfer_NewOwnerUserID req];
  opUser ← fillOpUser (member !! opUserID) (GI_GroupID group);
  notify opUserID (GI_GroupID group) GroupOwnerTransferredNotification
    (GroupOwnerTransferredTips group opUser (member !! Transfer_NewOwnerUserID req)) false.

Definition MemberKickedNotification_send (group : GroupInfo) (opUser : option GroupMemberFullInfo)
    (kickedUserList : list GroupMemberFullInfo) : M W () :=
  opUser ← fillOpUser opUser (GI_GroupID group);
  notify opUserID (GI_GroupID group) MemberKickedNotification
    (MemberKickedTips group (Some opUser) kickedUserList) false.

Definition MemberInvitedNotification_send (groupID reason : string) (invitedUserIDList : list string) :
    M W () :=
  group ← getGroupInfo groupID;
  users ← getGroupMembers groupID invitedUserIDList;
  opUser ← fillOpUser None (GI_GroupID group);
  notify opUserID (GI_GroupID group) MemberInvitedNotification (MemberInvitedTips group opUser users) false.

Definition MemberEnterNotification_send (groupID entrantUserID : string) : M W () :=
  group ← getGroupInfo groupID;
  user ← getGroupMember groupID entrantUserID;
  notify opUserID (GI_GroupID group) MemberEnterNotification (MemberEnterTips group user) false.

Definition GroupDismissedNotification_send (group : GroupInfo) (opUser : GroupMemberFullInfo) : M W () :=
  opUser ← fillOpUser (Some opUser) (GI_GroupID group);
  notify opUserID (GI_GroupID group) GroupDismissedNotification (GroupDismissedTips group opUser) false.

Definition GroupMemberMutedNotification_send (groupID groupMemberUserID : string) (mutedSeconds : Z) :
    M W () :=
  group ← getGroupInfo groupID;
  user ← getGroupMemberMap groupID [opUserID; groupMemberUserID];
  opUser ← fillOpUser (user !! opUserID) (GI_GroupID group);
  notify opUserID (GI_GroupID group) GroupMemberMutedNotification
    (GroupMemberMutedTips group opUser (user !! groupMemberUserID) mutedSeconds) false.

Definition GroupMemberCancelMutedNotification_send (groupID groupMemberUserID : string) : M W () :=
  group ← getGroupInfo groupID;
  user ← getGroupMemberMap groupID [opUserID; groupMemberUserID];
  opUser ← fillOpUser (user !! opUserID) (GI_GroupID group);
  notify opUserID (GI_GroupID group) GroupMemberCancelMutedNotification
    (GroupMemberCancelMutedTips group opUser (user !! groupMemberUserID)) false.

Definition GroupMutedNotification_send (groupID : string) : M W () :=
  group ← getGroupInfo groupID;
  users ← getGroupMembers groupID [opUserID];
  opUser ← fillOpUser (head users) (GI_GroupID group);
  notify opUserID (GI_GroupID group) GroupMutedNotification (GroupMutedTips group opUser) false.

Definition GroupCancelMutedNotification_send (groupID : string) : M W () :=
  group ← getGroupInfo groupID;
  users ← getGroupMembers groupID [opUserID];
  opUser ← fillOpUser (head users) (GI_GroupID group);
  notify opUserID (GI_GroupID group) GroupCancelMutedNotification (GroupCancelMutedTips group opUser) false.

Definition GroupMemberInfoSetNotification_send (groupID groupMemberUserID : string) : M W () :=
  group ← getGroupInfo groupID;
  user ← getGroupMemberMap groupID [groupMemberUserID];
  opUser ← fillOpUser (user !! opUserID) (GI_GroupID group);
  notify opUserID (GI_GroupID group) GroupMemberInfoSetNotification
    (GroupMemberInfoSetTips group opUser (user !! groupMemberUserID)) false.

Definition GroupMemberSetToAdminNotification_send (groupID groupMemberUserID : string) : M W () :=
  group ← getGroupInfo groupID;
  user ← getGroupMemberMap groupID [opUserID; groupMemberUserID];
  opUser ← fillOpUser (user !! opUserID) (GI_GroupID group);
  notify opUserID (GI_GroupID group) GroupMemberSetToAdminNotification
    (GroupMemberInfoSetTips group opUser (user !! groupMemberUserID)) false.

Definition GroupMemberSetToOrdinaryUserNotification_send (groupID groupMemberUserID : string) : M W () :=
  group ← getGroupInfo groupID;
  user ← getGroupMemberMap groupID [opUserID; groupMemberUserID];
  opUser ← fillOpUser (user !! opUserID) (GI_GroupID group);
  notify opUserID (GI_GroupID group) GroupMemberSetToOrdinaryUserNotification
    (GroupMemberInfoSetTips group opUser (user !! groupMemberUserID)) false.

Definition SuperGroupNotification_send (sendID recvID : string) : M W () :=
  notify sendID recvID SuperGroupUpdateNotification nil_tips false.
End GroupNotificationSender.
