(* ===== verification/GroupServer.v ===== *)
(** * The group service: changes (internal/rpc/group)

    The handlers that change groups ([group.go]), with the completion of rows by
    user data ([fill.go]) and the webhook ([callback.go]).  A handler runs on the
    [World]: the tables, the super groups and the cache, and the list of the
    effects it asked of other services; notifications are sent as
    GroupNotification.v says, and their errors dropped as in the code.
    GroupQuery.v has the handlers that only read. *)

From S2P Require Import Prelude.
From S2P Require Import Constants.
From S2P Require Import MsgTypes.
From S2P Require Import MsgProcessor.
From S2P Require Import MsgDoc.
From S2P Require Import Tools.
From S2P Require Import Notification.
From S2P Require Import RpcClient.
From S2P Require Import Auth.
From S2P Require Import GroupTypes.
From S2P Require Import Sql.
From S2P Require Import RowCache.
From S2P Require Import GroupStore.
From S2P Require Import GroupCache.
From S2P Require Import GroupDatabase.
From S2P Require Import GroupNotification.
From stdpp Require Import options.
#[local] Set Default Proof Using "Type*".

#[local] Open Scope Z_scope.

(** What the service reads of the configuration. *)
Record GroupConfig := mkGroupConfig {
  Group_Manager_UserID : list string;
  BeforeCreateGroup_Enable : bool;
  BeforeMemberJoinGroup_Enable : bool;
  BeforeSetGroupMemberInfo_Enable : bool;
  Group_Config_Notification : notification }.

(** The webhook's answers; nil leaves a field alone. *)
Record CallbackBeforeCreateGroupResp := mkCreateGroupResp {
  CBG_GroupID : option string; CBG_GroupName : option string; CBG_Notification : option string;
  CBG_Introduction : option string; CBG_FaceURL : option string; CBG_OwnerUserID : option string;
  CBG_Ex : option string; CBG_Status : option Z; CBG_CreatorUserID : option string;
  CBG_GroupType : option Z; CBG_NeedVerification : option Z; CBG_LookMemberInfo : option Z;
  CBG_ApplyMemberFriend : option Z }.
Record CallbackBeforeMemberJoinGroupResp := mkMemberJoinResp {
  CBJ_Nickname : option string; CBJ_FaceURL : option string; CBJ_RoleLevel : option Z;
  CBJ_MuteEndTime : option Z; CBJ_Ex : option string }.
Record CallbackBeforeSetGroupMemberInfoResp := mkSetMemberResp {
  CBS_Ex : option string; CBS_Nickname : option string; CBS_FaceURL : option string;
  CBS_RoleLevel : option Z }.

Class Webhook := {
  webhook_create : GroupCallbackReq → list GroupEffect → CallbackBeforeCreateGroupResp + error;
  webhook_join : GroupCallbackReq → list GroupEffect → CallbackBeforeMemberJoinGroupResp + error;
  webhook_set : GroupCallbackReq → list GroupEffect → CallbackBeforeSetGroupMemberInfoResp + error;
}.

(** A call: who calls, the clock, the identifiers drawn for it. *)
Record CallContext := mkCall {
  opUserID : string; operationID : string; now : Z; UnixNano : nat → Z; rand_Int : nat → Z }.

Section GroupServer.
Context `{Engine} `{Tools} `{MsgTools} `{ListTools} `{MapRange} `{Services GroupEffect} `{Webhook}.
Abbreviation W := (World (list GroupEffect)).
Context (config : GroupConfig) (ctx : CallContext).
Context (StructToJsonString : GroupTips → string) (Marshal_elem : string → string + error).
(** What the other services answer to a change; the message service's number. *)
Context (answers : list GroupEffect → GroupEffect → option error).
Context (GetConversationMaxSeq : string → list GroupEffect → Z + error).

Abbreviation managers := (Group_Manager_UserID config).
Abbreviation op := (opUserID ctx).
(** Applied to a notification's function. *)
Abbreviation notifying f :=
  (f (Group_Config_Notification config) (now ctx) op StructToJsonString Marshal_elem answers) (only parsing).

Definition is_manager : bool := IsAppManagerUid managers op.
Definition is_admin_role (role : Z) : bool := (role =? GroupOwner) || (role =? GroupAdmin).
(** A notification whose error is not looked at. *)
Definition quietly {A} (m : M W A) : M W () := _ ← try m; mret ().

Definition GroupChatFirstCreateConversation (groupID : string) (userIDs : list string) : M W () :=
  on_env (tell answers (CreateGroupChatConversations groupID userIDs)).

(** ** fill.go *)

Definition fill_member (nickname faceURL : string) (m : GroupMemberModel) : GroupMemberModel :=
  set_Member_names (if bool_decide (Member_Nickname m = "") then nickname else Member_Nickname m)
    (if bool_decide (Member_FaceURL m = "") then faceURL else Member_FaceURL m) m.

(** [member.Nickname == "" || member.FaceURL == ""] *)
Definition lacks_names (m : GroupMemberModel) : bool :=
  bool_decide (Member_Nickname m = "") || bool_decide (Member_FaceURL m = "").

Definition fill_members (members : list GroupMemberModel) : M W (list GroupMemberModel) :=
  let emptyUserIDs : gmap string () :=
    list_to_map ((λ m, (Member_UserID m, ())) <$> filter (λ m, lacks_names m = true) members) in
  if (0 <? size emptyUserIDs)%nat then
    users ← on_env (UserClient_GetPublicUserInfoMap (range emptyUserIDs).*1 true);
    mret ((λ m, match users !! Member_UserID m with
                | Some user => fill_member (PU_Nickname user) (PU_FaceURL user) m
                | None => m
                end) <$> members)
  else mret members.

Definition groupServer_FindGroupMember (groupIDs userIDs : list string) (roleLevels : list Z) :
    M W (list GroupMemberModel) :=
  members ← FindGroupMember groupIDs userIDs roleLevels;
  fill_members members.

Definition groupServer_TakeGroupMember (groupID userID : string) : M W GroupMemberModel :=
  member ← TakeGroupMember groupID userID;
  if lacks_names member then
    user ← on_env (GetPublicUserInfo userID);
    mret (fill_member (PU_Nickname user) (PU_FaceURL user) member)
  else mret member.

Definition groupServer_TakeGroupOwner (groupID : string) : M W GroupMemberModel :=
  owner ← TakeGroupOwner groupID;
  if lacks_names owner then
    user ← on_env (GetUserInfo (Member_UserID owner));
    mret (fill_member (UI_Nickname user) (UI_FaceURL user) owner)
  else mret owner.

Definition groupServer_PageGetGroupMember (groupID : string) (pageNumber showNumber : Z) :
    M W (Z * list GroupMemberModel) :=
  r ← PageGetGroupMember groupID pageNumber showNumber;
  members ← fill_members r.2;
  mret (r.1, members).

(** ** callback.go *)

Definition post {A} (webhook : GroupCallbackReq → list GroupEffect → A + error)
    (req : GroupCallbackReq) : M W A :=
  on_env (λ h, (of_sum (webhook req h), h ++ [GroupCallbackPost req])).

(** [None]: the webhook lets the call continue. *)
Definition callback {A} (webhook : GroupCallbackReq → list GroupEffect → A + error)
    (req : GroupCallbackReq) : M W (option A) :=
  r ← try (post webhook req);
  match r with
  | inl resp => mret (Some resp)
  | inr err => if bool_decide (err = Bare ErrCallbackContinue) then mret None else fail err
  end.

(** [utils.NotNilReplace(&x, y)] *)
Definition replace {A} (old : A) (new : option A) : M W A :=
  p ← deref (NotNilReplace (Some old) new); deref p.

(** The group's information afterwards; the friend setting is not replaced. *)
Definition CallbackBeforeCreateGroup (req : CreateGroupReq) (g : GroupInfo) : M W GroupInfo :=
  if negb (BeforeCreateGroup_Enable config) then mret g
  else
    resp ← callback webhook_create (CallbackBeforeCreateGroupReq (operationID ctx) g
      ((Create_OwnerUserID req, GroupOwner) :: ((λ u, (u, GroupAdmin)) <$> Create_AdminUserIDs req) ++
       ((λ u, (u, GroupOrdinaryUsers)) <$> Create_MemberUserIDs req)));
    match resp with
    | None => mret g
    | Some resp =>
        groupID ← replace (GI_GroupID g) (CBG_GroupID resp);
        groupName ← replace (GI_GroupName g) (CBG_GroupName resp);
        notif ← replace (GI_Notification g) (CBG_Notification resp);
        introduction ← replace (GI_Introduction g) (CBG_Introduction resp);
        faceURL ← replace (GI_FaceURL g) (CBG_FaceURL resp);
        ownerUserID ← replace (GI_OwnerUserID g) (CBG_OwnerUserID resp);
        ex ← replace (GI_Ex g) (CBG_Ex resp);
        status ← replace (GI_Status g) (CBG_Status resp);
        creatorUserID ← replace (GI_CreatorUserID g) (CBG_CreatorUserID resp);
        groupType ← replace (GI_GroupType g) (CBG_GroupType resp);
        needVerification ← replace (GI_NeedVerification g) (CBG_NeedVerification resp);
        lookMemberInfo ← replace (GI_LookMemberInfo g) (CBG_LookMemberInfo resp);
        mret {| GI_GroupID := groupID; GI_GroupName := groupName; GI_Notification := notif;
                GI_Introduction := introduction; GI_FaceURL := faceURL;
                GI_OwnerUserID := ownerUserID; GI_CreateTime := GI_CreateTime g;
                GI_MemberCount := GI_MemberCount g; GI_Ex := ex; GI_Status := status;
                GI_CreatorUserID := creatorUserID; GI_GroupType := groupType;
                GI_NeedVerification := needVerification; GI_LookMemberInfo := lookMemberInfo;
                GI_ApplyMemberFriend := GI_ApplyMemberFriend g;
                GI_NotificationUpdateTime := GI_NotificationUpdateTime g;
                GI_NotificationUserID := GI_NotificationUserID g |}
    end.

(** The member afterwards. *)
Definition CallbackBeforeMemberJoinGroup (groupMember : GroupMemberModel) (groupEx : string) :
    M W GroupMemberModel :=
  if negb (BeforeMemberJoinGroup_Enable config) then mret groupMember
  else
    let '(mkGroupMemberModel g u nick face role join source inviter operator mute ex) := groupMember in
    resp ← callback webhook_join (CallbackBeforeMemberJoinGroupReq (operationID ctx) g u ex groupEx);
    match resp with
    | None => mret groupMember
    | Some resp =>
        let mute := default mute (CBJ_MuteEndTime resp) in
        face ← replace face (CBJ_FaceURL resp);
        ex ← replace ex (CBJ_Ex resp);
        nick ← replace nick (CBJ_Nickname resp);
        role ← replace role (CBJ_RoleLevel resp);
        mret (mkGroupMemberModel g u nick face role join source inviter operator mute ex)
    end.

Definition option_or {A} (new old : option A) : option A := match new with Some _ => new | None => old end.

(** The request for one member afterwards. *)
Definition CallbackBeforeSetGroupMemberInfo (req : SetGroupMemberInfo) : M W SetGroupMemberInfo :=
  if negb (BeforeSetGroupMemberInfo_Enable config) then mret req
  else
    resp ← callback webhook_set (CallbackBeforeSetGroupMemberInfoReq (operationID ctx)
      (SetM_GroupID req) (SetM_UserID req) (SetM_Nickname req) (SetM_FaceURL req)
      (SetM_RoleLevel req) (SetM_Ex req));
    mret (match resp with
          | None => req
          | Some resp => mkSetMember (SetM_GroupID req) (SetM_UserID req)
              (option_or (CBS_Nickname resp) (SetM_Nickname req))
              (option_or (CBS_FaceURL resp) (SetM_FaceURL req))
              (option_or (CBS_RoleLevel resp) (SetM_RoleLevel req))
              (option_or (CBS_Ex resp) (SetM_Ex req))
          end).

(** ** group.go *)

Definition CheckGroupAdmin (groupID : string) : M W () :=
  if negb is_manager then
    groupMember ← TakeGroupMember groupID op;
    guard (negb (is_admin_role (Member_RoleLevel groupMember)))
      (Wrap ErrNoPermission "no group owner or admin")
  else mret ().

(** The id drawn at the [i]-th attempt. *)
Definition random_id (i : nat) : M W string :=
  let id := Md5 (strings_Join [operationID ctx; FormatInt (UnixNano ctx i); FormatInt (rand_Int ctx i)] ",;,") in
  n ← deref (hex_value 0 8 id);
  mret (pretty n).

(** [todo] attempts are left, [i] were made. *)
Fixpoint gen_loop (todo i : nat) : M W string :=
  match todo with
  | O => fail (Wrap ErrData "group id gen error")
  | S todo =>
      id ← random_id i;
      r ← try (TakeGroup id);
      match r with
      | inl _ => gen_loop todo (S i)
      | inr err => if group_IsNotFound err then mret id else fail err
      end
  end.

Definition GenGroupID (groupID : string) : M W string :=
  if negb (bool_decide (groupID = "")) then
    r ← try (TakeGroup groupID);
    match r with
    | inl _ => fail (Wrap ErrGroupIDExisted ("group id existed " +:+ groupID))
    | inr err => if group_IsNotFound err then mret groupID else fail err
    end
  else gen_loop 10 0.

Definition set_Group_GroupID (id : string) (g : GroupModel) : GroupModel :=
  let '(mkGroupModel _ name ntf intro face create ex status creator type need look apply ntime nuser) := g in
  mkGroupModel id name ntf intro face create ex status creator type need look apply ntime nuser.

(** The row of a member who is added by the operator. *)
Definition new_member (groupID userID : string) (roleLevel : Z) : GroupMemberModel :=
  {| Member_GroupID := groupID; Member_UserID := userID; Member_Nickname := "";
     Member_FaceURL := ""; Member_RoleLevel := roleLevel; Member_JoinTime := now ctx;
     Member_JoinSource := JoinByInvitation; Member_InviterUserID := op;
     Member_OperatorUserID := op; Member_MuteEndTime := 0; Member_Ex := "" |}.

Definition set_Member_Nickname (v : string) (m : GroupMemberModel) : GroupMemberModel :=
  set_Member_names v (Member_FaceURL m) m.

(** The list of members told to the group stops at the operator. *)
Fixpoint created_tips (userMap : gmap string UserInfo) (members : list GroupMemberModel) :
    M W (list GroupMemberFullInfo * option GroupMemberFullInfo) :=
  match members with
  | [] => mret ([], None)
  | member :: rest =>
      user ← deref (userMap !! Member_UserID member);
      let m := groupMemberDB2PB (set_Member_Nickname (UI_Nickname user) member) (UI_AppMangerLevel user) in
      if bool_decide (Member_UserID member = op) then mret ([m], Some m)
      else
        r ← created_tips userMap rest;
        mret (m :: r.1, r.2)
  end.

Definition created_notification (userMap : gmap string UserInfo) (group : GroupModel)
    (info : GroupInfo) (groupMembers : list GroupMemberModel) : M W () :=
  owner ← deref (head groupMembers);
  user ← deref (userMap !! Member_UserID owner);
  r ← created_tips userMap groupMembers;
  quietly (notifying (GroupCreatedNotification_send managers) info r.2 r.1 (Group_CreateTime group)
    (groupMemberDB2PB owner (UI_AppMangerLevel user))).

Definition joinGroup (groupID groupEx : string) (roleLevel : Z) (groupMembers : list GroupMemberModel)
    (userID : string) : M W (list GroupMemberModel) :=
  groupMember ← CallbackBeforeMemberJoinGroup (new_member groupID userID roleLevel) groupEx;
  mret (groupMembers ++ [groupMember]).

Definition CreateGroup (req : CreateGroupReq) : M W GroupInfo :=
  _ ← guard (bool_decide (Create_OwnerUserID req = "")) (Wrap ErrArgs "no group owner");
  info ← deref (Create_GroupInfo req);
  _ ← guard (negb (GI_GroupType info =? WorkingGroup))
        (Wrap ErrArgs ("group type " +:+ FormatInt (GI_GroupType info) +:+ " not support"));
  _ ← lift (CheckAccessV3 managers op (Create_OwnerUserID req));
  let userIDs := (Create_MemberUserIDs req ++ Create_AdminUserIDs req) ++ [Create_OwnerUserID req] in
  let userIDs := if Contain op userIDs then userIDs else userIDs ++ [op] in
  _ ← guard (Duplicate userIDs) (Wrap ErrArgs "group member repeated");
  userMap ← on_env (GetUsersInfoMap userIDs);
  _ ← guard (negb (Z.of_nat (size userMap) =? len userIDs)) (Wrap ErrUserIDNotFound "user not found");
  info ← CallbackBeforeCreateGroup req info;
  let group := Pb2DBGroupInfo (now ctx) info in
  groupID ← GenGroupID (Group_GroupID group);
  let group := set_Group_GroupID groupID group in
  groupMembers ← joinGroup groupID (Group_Ex group) GroupOwner [] (Create_OwnerUserID req);
  groupMembers ←
    (if GI_GroupType info =? SuperGroup then
       _ ← CreateSuperGroup groupID userIDs; mret groupMembers
     else
       groupMembers ← fold_each (Create_AdminUserIDs req) groupMembers
         (joinGroup groupID (Group_Ex group) GroupAdmin);
       fold_each (Create_MemberUserIDs req) groupMembers
         (joinGroup groupID (Group_Ex group) GroupOrdinaryUsers));
  _ ← groupDatabase_CreateGroup [group] groupMembers;
  let resp := Db2PbGroupInfo group (Create_OwnerUserID req) (uint32 (len userIDs)) in
  _ ← (if GI_GroupType info =? SuperGroup then
         on_env (modify (λ h, h ++ [Go_SuperGroupNotifications userIDs]))
       else created_notification userMap group resp groupMembers);
  mret resp.

(** The request that an ordinary member's invitation becomes. *)
Definition invite_request (groupID inviter userID : string) : GroupRequestModel :=
  {| Request_UserID := userID; Request_GroupID := groupID; Request_HandleResult := 0;
     Request_ReqMsg := ""; Request_HandledMsg := ""; Request_ReqTime := now ctx;
     Request_HandleUserID := ""; Request_HandledTime := 0; Request_JoinSource := JoinByInvitation;
     Request_InviterUserID := inviter; Request_Ex := "" |}.

Definition invite_requests (req : InviteUserToGroupReq) : M W () :=
  let requests := invite_request (Invite_GroupID req) op <$> Invite_InvitedUserIDs req in
  _ ← CreateGroupRequest requests;
  for_each requests (λ request,
    quietly (notifying JoinGroupApplicationNotification_send (mkJoinGroupReq (Request_GroupID request)
      (Request_ReqMsg request) (Request_JoinSource request) (Request_InviterUserID request)))).

Definition invite_members (req : InviteUserToGroupReq) (group : GroupModel) : M W () :=
  if Group_GroupType group =? SuperGroup then
    _ ← CreateSuperGroupMember (Invite_GroupID req) (Invite_InvitedUserIDs req);
    _ ← GroupChatFirstCreateConversation (Invite_GroupID req) (Invite_InvitedUserIDs req);
    for_each (Invite_InvitedUserIDs req) (λ userID,
      quietly (SuperGroupNotification_send (Group_Config_Notification config) (now ctx)
        StructToJsonString Marshal_elem answers userID userID))
  else
    groupMembers ← fold_each (Invite_InvitedUserIDs req) []
      (joinGroup (Invite_GroupID req) (Group_Ex group) GroupOrdinaryUsers);
    _ ← groupDatabase_CreateGroup [] groupMembers;
    _ ← GroupChatFirstCreateConversation (Invite_GroupID req) (Invite_InvitedUserIDs req);
    quietly (notifying (MemberInvitedNotification_send managers) (Invite_GroupID req)
      (Invite_Reason req) (Invite_InvitedUserIDs req)).

Definition InviteUserToGroup (req : InviteUserToGroupReq) : M W () :=
  _ ← guard (len (Invite_InvitedUserIDs req) =? 0) (Wrap ErrArgs "user empty");
  _ ← guard (Duplicate (Invite_InvitedUserIDs req)) (Wrap ErrArgs "userID duplicate");
  group ← TakeGroup (Invite_GroupID req);
  _ ← guard (Group_Status group =? GroupStatusDismissed) (Wrap ErrDismissedAlready "");
  userMap ← on_env (GetUsersInfoMap (Invite_InvitedUserIDs req));
  _ ← guard (negb (Z.of_nat (size userMap) =? len (Invite_InvitedUserIDs req)))
        (Wrap ErrRecordNotFound "user not found");
  groupMember ← (if is_manager then mret None
    else
      groupMembers ← groupServer_FindGroupMember [Invite_GroupID req] [op] [];
      _ ← guard (len groupMembers <=? 0) (Wrap ErrNoPermission "not in group");
      m ← deref (head groupMembers);
      mret (Some m));
  match groupMember with
  | Some m =>
      if (Group_NeedVerification group =? AllNeedVerification) && negb (is_admin_role (Member_RoleLevel m))
      then invite_requests req
      else invite_members req group
  | None => invite_members req group
  end.

Definition deleteMemberAndSetConversationSeq (groupID : string) (userIDs : list string) : M W () :=
  let conversationID := GetConversationIDBySessionType SuperGroupChatType [groupID] in
  maxSeq ← on_env (ask (GetConversationMaxSeq conversationID));
  on_env (tell answers (SetConversationMaxSeq userIDs conversationID maxSeq)).

(** Whether the operator may remove the members, one by one. *)
Definition check_kick (memberMap : gmap string GroupMemberModel) (userID : string) : M W () :=
  match memberMap !! userID with
  | None => fail (Wrap ErrUserIDNotFound userID)
  | Some member =>
      if is_manager then mret ()
      else match memberMap !! op with
      | None => fail (Wrap ErrNoPermission "opUserID no in group")
      | Some opMember =>
          if Member_RoleLevel opMember =? GroupOwner then mret ()
          else if Member_RoleLevel opMember =? GroupAdmin then
            guard (is_admin_role (Member_RoleLevel member))
              (Wrap ErrNoPermission "group admins cannot remove the group owner and other admins")
          else if Member_RoleLevel opMember =? GroupOrdinaryUsers then
            fail (Wrap ErrNoPermission "opUserID no permission")
          else fail (Wrap ErrNoPermission "opUserID roleLevel unknown")
      end
  end.

Definition KickGroupMember (req : KickGroupMemberReq) : M W () :=
  group ← TakeGroup (Kick_GroupID req);
  _ ← guard (len (Kick_KickedUserIDs req) =? 0) (Wrap ErrArgs "KickedUserIDs empty");
  _ ← guard (Duplicate (Kick_KickedUserIDs req)) (Wrap ErrArgs "KickedUserIDs duplicate");
  _ ← guard (Contain op (Kick_KickedUserIDs req)) (Wrap ErrArgs "opUserID in KickedUserIDs");
  _ ← (if Group_GroupType group =? SuperGroup then
         _ ← DeleteSuperGroupMember (Kick_GroupID req) (Kick_KickedUserIDs req);
         on_env (modify (λ h, h ++ [Go_SuperGroupNotifications (Kick_KickedUserIDs req)]))
       else
         members ← groupServer_FindGroupMember [Kick_GroupID req] (Kick_KickedUserIDs req ++ [op]) [];
         let memberMap := SliceToMap Member_UserID members in
         _ ← for_each (Kick_KickedUserIDs req) (check_kick memberMap);
         num ← FindGroupMemberNum (Kick_GroupID req);
         owner ← groupServer_FindGroupMember [Kick_GroupID req] [] [GroupOwner];
         _ ← DeleteGroupMember (Group_GroupID group) (Kick_KickedUserIDs req);
         let info := groupDB2PB group (from_option Member_UserID "" (head owner)) num in
         kicked ← fold_each (Kick_KickedUserIDs req) [] (λ l userID,
           m ← deref (memberMap !! userID); mret (l ++ [Db2PbGroupMember m]));
         quietly (notifying (MemberKickedNotification_send managers) info
           (Db2PbGroupMember <$> memberMap !! op) kicked));
  deleteMemberAndSetConversationSeq (Kick_GroupID req) (Kick_KickedUserIDs req).

Definition GroupApplicationResponse (req : GroupApplicationResponseReq) : M W () :=
  _ ← guard (negb (Contain (Response_HandleResult req) [GroupResponseAgree; GroupResponseRefuse]))
        (Wrap ErrArgs "HandleResult unknown");
  _ ← CheckGroupAdmin (Response_GroupID req);
  group ← TakeGroup (Response_GroupID req);
  groupRequest ← TakeGroupRequest (Response_GroupID req) (Response_FromUserID req);
  _ ← guard (negb (Request_HandleResult groupRequest =? 0))
        (Wrap ErrGroupRequestHandled "group request already processed");
  r ← try (TakeGroupMember (Response_GroupID req) (Response_FromUserID req));
  inGroup ← (match r with
    | inl _ => mret true
    | inr err => if group_IsNotFound err then mret false else fail err
    end);
  _ ← on_env (GetPublicUserInfo (Response_FromUserID req));
  member ← (if negb inGroup && (Response_HandleResult req =? GroupResponseAgree) then
      m ← CallbackBeforeMemberJoinGroup
        {| Member_GroupID := Response_GroupID req; Member_UserID := Response_FromUserID req;
           Member_Nickname := ""; Member_FaceURL := ""; Member_RoleLevel := GroupOrdinaryUsers;
           Member_JoinTime := now ctx; Member_JoinSource := Request_JoinSource groupRequest;
           Member_InviterUserID := Request_InviterUserID groupRequest;
           Member_OperatorUserID := op; Member_MuteEndTime := 0;
           Member_Ex := Request_Ex groupRequest |} (Group_Ex group);
      mret (Some m)
    else mret None);
  _ ← HandlerGroupRequest (Response_GroupID req) (Response_FromUserID req) (Response_HandledMsg req)
        (Response_HandleResult req) member;
  if Response_HandleResult req =? GroupResponseAgree then
    _ ← GroupChatFirstCreateConversation (Response_GroupID req) [Response_FromUserID req];
    _ ← quietly (notifying (GroupApplicationAcceptedNotification_send managers) req);
    match member with
    | None => mret ()
    | Some _ => quietly (notifying MemberEnterNotification_send (Response_GroupID req)
                  (Response_FromUserID req))
    end
  else if Response_HandleResult req =? GroupResponseRefuse then
    quietly (notifying (GroupApplicationRejectedNotification_send managers) req)
  else mret ().

(** The user who joins is the one the request names as inviter. *)
Definition JoinGroup (req : JoinGroupReq) : M W () :=
  user ← on_env (GetUserInfo (Join_InviterUserID req));
  group ← TakeGroup (Join_GroupID req);
  _ ← guard (Group_Status group =? GroupStatusDismissed) (Wrap ErrDismissedAlready "");
  r ← try (TakeGroupMember (Join_GroupID req) (Join_InviterUserID req));
  _ ← (match r with
    | inl _ => fail (Wrap ErrArgs "already in group")
    | inr err => guard (negb (group_IsNotFound err) && negb (bool_decide (Unwrap err = ErrRecordNotFound))) err
    end);
  if Group_NeedVerification group =? Directly then
    _ ← guard (Group_GroupType group =? SuperGroup) (Wrap ErrGroupTypeNotSupport "");
    groupMember ← CallbackBeforeMemberJoinGroup
      {| Member_GroupID := Group_GroupID group; Member_UserID := UI_UserID user;
         Member_Nickname := ""; Member_FaceURL := ""; Member_RoleLevel := GroupOrdinaryUsers;
         Member_JoinTime := now ctx; Member_JoinSource := 0;
         Member_InviterUserID := Join_InviterUserID req; Member_OperatorUserID := op;
         Member_MuteEndTime := 0; Member_Ex := "" |} (Group_Ex group);
    _ ← groupDatabase_CreateGroup [] [groupMember];
    _ ← GroupChatFirstCreateConversation (Join_GroupID req) [Join_InviterUserID req];
    quietly (notifying MemberEnterNotification_send (Join_GroupID req) (Join_InviterUserID req))
  else
    _ ← CreateGroupRequest
      [{| Request_UserID := Join_InviterUserID req; Request_GroupID := Join_GroupID req;
          Request_HandleResult := 0; Request_ReqMsg := Join_ReqMessage req;
          Request_HandledMsg := ""; Request_ReqTime := now ctx; Request_HandleUserID := "";
          Request_HandledTime := 0; Request_JoinSource := Join_JoinSource req;
          Request_InviterUserID := ""; Request_Ex := "" |}];
    quietly (notifying JoinGroupApplicationNotification_send req).

Definition QuitGroup (req : QuitGroupReq) : M W () :=
  userID ← (if bool_decide (Quit_UserID req = "") then mret op
    else
      _ ← lift (CheckAccessV3 managers op (Quit_UserID req));
      mret (Quit_UserID req));
  group ← TakeGroup (Quit_GroupID req);
  _ ← (if Group_GroupType group =? SuperGroup then
         _ ← DeleteSuperGroupMember (Quit_GroupID req) [userID];
         quietly (SuperGroupNotification_send (Group_Config_Notification config) (now ctx)
           StructToJsonString Marshal_elem answers userID userID)
       else
         info ← groupServer_TakeGroupMember (Quit_GroupID req) userID;
         _ ← guard (Member_RoleLevel info =? GroupOwner) (Wrap ErrNoPermission "group owner can't quit");
         _ ← DeleteGroupMember (Quit_GroupID req) [userID];
         quietly (notifying MemberQuitNotification_send (groupMemberDB2PB info 0)));
  deleteMemberAndSetConversationSeq (Quit_GroupID req) [userID].

Definition GroupMember_zero : GroupMemberFullInfo := mkGroupMember "" "" 0 0 "" "" 0 0 "" "" 0 "".

(** Which notifications a change of the group's information sends. *)
Definition set_info_notifications (set : GroupInfoForSet) (columns : Z) (group : GroupInfo)
    (opUser : GroupMemberFullInfo) : M W () :=
  num ← (if negb (bool_decide (Set_Notification set = "")) then
      _ ← on_env (modify (λ h, h ++ [Go_AnnouncementConversations (Set_GroupID set)]));
      _ ← quietly (notifying (GroupInfoSetAnnouncementNotification_send managers) opUser group);
      mret 1
    else mret 0);
  if columns - num =? 0 then mret ()
  else if columns - num =? 1 then
    if bool_decide (Set_GroupName set = "")
    then quietly (notifying (GroupInfoSetNotification_send managers) opUser group)
    else quietly (notifying (GroupInfoSetNameNotification_send managers) opUser group)
  else quietly (notifying (GroupInfoSetNotification_send managers) opUser group).

Definition SetGroupInfo (groupInfoForSet : option GroupInfoForSet) : M W () :=
  set ← deref groupInfoForSet;
  opMember ← (if is_manager then mret None
    else
      m ← groupServer_TakeGroupMember (Set_GroupID set) op;
      _ ← guard (negb (is_admin_role (Member_RoleLevel m))) (Wrap ErrNoPermission "no group owner or admin");
      mret (Some m));
  group ← TakeGroup (Set_GroupID set);
  _ ← guard (Group_Status group =? GroupStatusDismissed) (Wrap ErrDismissedAlready "");
  count ← FindGroupMemberNum (Group_GroupID group);
  owner ← groupServer_TakeGroupOwner (Group_GroupID group);
  let data := UpdateGroupInfoMap (now ctx) op set in
  if len data =? 0 then mret ()
  else
    _ ← UpdateGroup (Group_GroupID group) data;
    group ← TakeGroup (Set_GroupID set);
    set_info_notifications set (len data) (groupDB2PB group (Member_UserID owner) count)
      (match opMember with Some m => groupMemberDB2PB m 0 | None => GroupMember_zero end).

(** The goroutine of a new announcement. *)
Definition announcement_conversations (groupID : string) : M W () :=
  r ← try (FindGroupMemberUserID groupID);
  match r with
  | inr _ => mret ()
  | inl userIDs =>
      quietly (on_env (tell answers (SetGroupConversations userIDs
        (mkConversationReq (GetConversationIDBySessionType SuperGroupChatType [groupID])
           SuperGroupChatType "" groupID None None None None None None None None
           (Some GroupNotification) None None))))
  end.

Definition TransferGroupOwner (req : TransferGroupOwnerReq) : M W () :=
  group ← TakeGroup (Transfer_GroupID req);
  _ ← guard (Group_Status group =? GroupStatusDismissed) (Wrap ErrDismissedAlready "");
  _ ← guard (bool_decide (Transfer_OldOwnerUserID req = Transfer_NewOwnerUserID req))
        (Wrap ErrArgs "OldOwnerUserID == NewOwnerUserID");
  members ← groupServer_FindGroupMember [Transfer_GroupID req]
              [Transfer_OldOwnerUserID req; Transfer_NewOwnerUserID req] [];
  let memberMap := SliceToMap Member_UserID members in
  let ids := Single [Transfer_OldOwnerUserID req; Transfer_NewOwnerUserID req] (range memberMap).*1 in
  _ ← guard (0 <? len ids) (Wrap ErrArgs ("user not in group " +:+ strings_Join ids ","));
  match memberMap !! Transfer_OldOwnerUserID req with
  | None => fail (Wrap ErrArgs ("OldOwnerUserID not in group " +:+ Transfer_NewOwnerUserID req))
  | Some oldOwner =>
  match memberMap !! Transfer_NewOwnerUserID req with
  | None => fail (Wrap ErrArgs ("NewOwnerUser not in group " +:+ Transfer_NewOwnerUserID req))
  | Some newOwner =>
      _ ← (if is_manager then mret ()
           else guard (negb (bool_decide (op = Member_UserID oldOwner) &&
                             (Member_RoleLevel oldOwner =? GroupOwner)))
                  (Wrap ErrNoPermission "no permission transfer group owner"));
      _ ← groupDatabase_TransferGroupOwner (Transfer_GroupID req) (Transfer_OldOwnerUserID req)
            (Transfer_NewOwnerUserID req) (Member_RoleLevel newOwner);
      quietly (notifying (GroupOwnerTransferredNotification_send managers) req)
  end end.

Definition DismissGroup (req : DismissGroupReq) : M W () :=
  owner ← groupServer_TakeGroupOwner (Dismiss_GroupID req);
  _ ← (if is_manager then mret ()
       else guard (negb (bool_decide (Member_UserID owner = op))) (Wrap ErrNoPermission "not group owner"));
  group ← TakeGroup (Dismiss_GroupID req);
  _ ← guard (negb (Dismiss_DeleteMember req) && (Group_Status group =? GroupStatusDismissed))
        (Wrap ErrDismissedAlready "group status is dismissed");
  _ ← groupDatabase_DismissGroup (Dismiss_GroupID req) (Dismiss_DeleteMember req);
  if Group_GroupType group =? SuperGroup then DeleteSuperGroup (Group_GroupID group)
  else if negb (Dismiss_DeleteMember req) then
    num ← FindGroupMemberNum (Dismiss_GroupID req);
    quietly (notifying (GroupDismissedNotification_send managers)
      (groupDB2PB group (Member_UserID owner) num)
      (if bool_decide (op = Member_UserID owner) then groupMemberDB2PB owner 0 else GroupMember_zero))
  else mret ().

(** The rights to mute a member and to lift it. *)
Definition check_mute (member : GroupMemberModel) (groupID : string) : M W () :=
  if is_manager then mret ()
  else
    opMember ← groupServer_TakeGroupMember groupID op;
    if Member_RoleLevel member =? GroupOwner then fail (Wrap ErrNoPermission "set group owner mute")
    else if Member_RoleLevel member =? GroupAdmin then
      guard (negb (Member_RoleLevel opMember =? GroupOwner)) (Wrap ErrNoPermission "set group admin mute")
    else if Member_RoleLevel member =? GroupOrdinaryUsers then
      guard (negb ((Member_RoleLevel opMember =? GroupAdmin) || (Member_RoleLevel opMember =? GroupOwner)))
        (Wrap ErrNoPermission "set group ordinary users mute")
    else mret ().

Definition MuteGroupMember (req : MuteGroupMemberReq) : M W () :=
  member ← groupServer_TakeGroupMember (Mute_GroupID req) (Mute_UserID req);
  _ ← check_mute member (Mute_GroupID req);
  let data := UpdateGroupMemberMutedTimeMap (now ctx + 1000 * Mute_MutedSeconds req) in
  _ ← UpdateGroupMember (Member_GroupID member) (Member_UserID member) data;
  quietly (notifying (GroupMemberMutedNotification_send managers) (Mute_GroupID req) (Mute_UserID req)
    (Mute_MutedSeconds req)).

Definition CancelMuteGroupMember (groupID userID : string) : M W () :=
  member ← groupServer_TakeGroupMember groupID userID;
  _ ← check_mute member groupID;
  let data := UpdateGroupMemberMutedTimeMap 0 in
  _ ← UpdateGroupMember (Member_GroupID member) (Member_UserID member) data;
  quietly (notifying (GroupMemberCancelMutedNotification_send managers) groupID userID).

Definition MuteGroup (groupID : string) : M W () :=
  _ ← CheckGroupAdmin groupID;
  _ ← UpdateGroup groupID (UpdateGroupStatusMap GroupStatusMuted);
  quietly (notifying (GroupMutedNotification_send managers) groupID).

Definition CancelMuteGroup (groupID : string) : M W () :=
  _ ← CheckGroupAdmin groupID;
  _ ← UpdateGroup groupID (UpdateGroupStatusMap GroupOk);
  quietly (notifying (GroupCancelMutedNotification_send managers) groupID).

(** *** Setting the information of members *)

Definition without_face (m : SetGroupMemberInfo) : SetGroupMemberInfo :=
  mkSetMember (SetM_GroupID m) (SetM_UserID m) (SetM_Nickname m) None (SetM_RoleLevel m) (SetM_Ex m).
Definition set_key (m : SetGroupMemberInfo) : string * string := (SetM_GroupID m, SetM_UserID m).

(** The rights to change one member, for a user who is not a manager. *)
Definition check_set_member (memberMap : gmap (string * string) GroupMemberModel)
    (member : SetGroupMemberInfo) : M W () :=
  _ ← (match SetM_RoleLevel member with
    | Some v => guard (negb ((v =? GroupOrdinaryUsers) || (v =? GroupAdmin))) (Wrap ErrArgs "invalid role level")
    | None => mret ()
    end);
  match memberMap !! (SetM_GroupID member, op) with
  | None => fail (Wrap ErrArgs ("user " +:+ op +:+ " not in group " +:+ SetM_GroupID member))
  | Some opMember =>
      if bool_decide (SetM_UserID member = op) then
        guard (bool_decide (is_Some (SetM_RoleLevel member)))
          (Wrap ErrNoPermission "can not change self role level")
      else
        _ ← guard (Member_RoleLevel opMember =? GroupOrdinaryUsers)
              (Wrap ErrNoPermission "ordinary users can not change other role level");
        match memberMap !! set_key member with
        | None => fail (Wrap ErrRecordNotFound ("user " +:+ SetM_UserID member +:+ " not in group " +:+
                          SetM_GroupID member))
        | Some dbMember =>
            if Member_RoleLevel opMember =? GroupOrdinaryUsers then
              fail (Wrap ErrNoPermission "ordinary users can not change other role level")
            else if Member_RoleLevel opMember =? GroupAdmin then
              _ ← guard (negb (Member_RoleLevel dbMember =? GroupOrdinaryUsers))
                    (Wrap ErrNoPermission "admin can not change other role level");
              guard (bool_decide (is_Some (SetM_RoleLevel member)))
                (Wrap ErrNoPermission "admin can not change other role level")
            else mret ()
        end
  end.

(** Nobody's role changes from owner. *)
Definition check_not_owner (memberMap : gmap (string * string) GroupMemberModel)
    (member : SetGroupMemberInfo) : M W () :=
  match SetM_RoleLevel member with
  | None => mret ()
  | Some _ =>
      m ← deref (memberMap !! set_key member);
      guard (Member_RoleLevel m =? GroupOwner)
        (Wrap ErrArgs ("group " +:+ SetM_GroupID member +:+ " user " +:+ SetM_UserID member +:+ " is owner"))
  end.

Definition set_member_notifications (member : SetGroupMemberInfo) : M W () :=
  _ ← (match SetM_RoleLevel member with
    | Some v =>
        if v =? GroupAdmin then
          quietly (notifying (GroupMemberSetToAdminNotification_send managers) (SetM_GroupID member)
            (SetM_UserID member))
        else if v =? GroupOrdinaryUsers then
          quietly (notifying (GroupMemberSetToOrdinaryUserNotification_send managers)
            (SetM_GroupID member) (SetM_UserID member))
        else mret ()
    | None => mret ()
    end);
  if bool_decide (is_Some (SetM_Nickname member)) || bool_decide (is_Some (SetM_FaceURL member)) ||
     bool_decide (is_Some (SetM_Ex member))
  then quietly (notifying (GroupMemberInfoSetNotification_send managers) (SetM_GroupID member)
         (SetM_UserID member))
  else mret ().

(** A set of pairs is a map to unit; the text of the error lists what is left
    of it in some order. *)
Definition groupServer_SetGroupMemberInfo (req : list SetGroupMemberInfo) : M W () :=
  _ ← guard (len req =? 0) (Wrap ErrArgs "members empty");
  let req := without_face <$> req in
  _ ← guard (bool_decide (¬ NoDup (set_key <$> req))) (Wrap ErrArgs "group user duplicate");
  let userIDMap : gmap string () := list_to_map ((λ m, (SetM_UserID m, ())) <$> req) in
  let groupIDMap : gmap string () := list_to_map ((λ m, (SetM_GroupID m, ())) <$> req) in
  let groupIDs := (range groupIDMap).*1 in
  let userIDs := (range userIDMap).*1 in
  members ← groupServer_FindGroupMember groupIDs (userIDs ++ [op]) [];
  let missing := filter (.∉ (member_key <$> members)) (set_key <$> req) in
  _ ← guard (0 <? len missing) (Wrap ErrArgs ("user not found" +:+
        strings_Join ((λ e, "[group: " +:+ e.1 +:+ " user: " +:+ e.2 +:+ "]") <$> missing) ","));
  let memberMap := SliceToMap member_key members in
  _ ← (if is_manager then mret () else for_each req (check_set_member memberMap));
  _ ← for_each req (check_not_owner memberMap);
  req ← fold_each req [] (λ l m, m ← CallbackBeforeSetGroupMemberInfo m; mret (l ++ [m]));
  _ ← UpdateGroupMembers ((λ e, mkBatchUpdate (SetM_GroupID e) (SetM_UserID e) (UpdateGroupMemberMap e)) <$> req);
  for_each req set_member_notifications.

(** A user's data have changed: the groups that show them are told. *)
Definition NotificationUserInfoUpdate (userID : string) : M W () :=
  members ← FindGroupMember [] [userID] [];
  let groupIDs := Member_GroupID <$> filter (λ m, lacks_names m = true) members in
  _ ← for_each groupIDs (λ groupID,
        quietly (notifying (GroupMemberInfoSetNotification_send managers) groupID userID));
  quietly (DeleteGroupMemberHash groupIDs).
End GroupServer.
