(* ===== verification/GroupQuery.v ===== *)
(** * The group service: queries (internal/rpc/group)

    The handlers that only read ([group.go], [cache.go], [super_group.go]) and
    the hash of a group's members. *)

From S2P Require Import Prelude.
From S2P Require Import Constants.
From S2P Require Import MsgProcessor.
From S2P Require Import Tools.
From S2P Require Import Notification.
From S2P Require Import RpcClient.
From S2P Require Import Auth.
From S2P Require Import GroupTypes.
From S2P Require Import Sql.
From S2P Require Import RowCache.
From S2P Require Import GroupStore.
From S2P Require Import GroupCache.
From S2P Require Import GroupDatabase.
From S2P Require Import GroupNotification.
From S2P Require Import GroupServer.
From stdpp Require Import options.
#[local] Set Default Proof Using "Type*".

#[local] Open Scope Z_scope.

Section GroupQuery.
Context `{Engine} `{Tools} `{MsgTools} `{ListTools} `{MapRange} `{Services GroupEffect}.
Abbreviation W := (World (list GroupEffect)).
Context (managers : list string) (opUserID : string).
(** [json.Marshal] of the members; the first eight bytes of the MD5 sum. *)
Context (Marshal_members : list GroupMemberFullInfo → string + error) (md5_Uint64 : string → N).

(** [utils.Slice(l, f)], for a function that may panic. *)
Definition map_each {A B} (f : A → M W B) (l : list A) : M W (list B) :=
  fold_each l [] (λ acc x, y ← f x; mret (acc ++ [y])).

Definition groupServer_GetPublicUserInfoMap (userIDs : list string) (complete : bool) :
    M W (gmap string PublicUserInfo) :=
  if len userIDs =? 0 then mret ∅
  else
    users ← on_env (GetPublicUserInfos userIDs complete);
    mret (SliceToMap PU_UserID users).

(** The members with the names and pictures of their users where they have none. *)
Definition public_members (members : list GroupMemberModel) : M W (list GroupMemberFullInfo) :=
  publicUserInfoMap ← groupServer_GetPublicUserInfoMap
    (Member_UserID <$> filter (λ m, lacks_names m = true) members) true;
  mret ((λ e, Db2PbGroupMember (match publicUserInfoMap !! Member_UserID e with
    | Some userInfo => fill_member (PU_Nickname userInfo) (PU_FaceURL userInfo) e
    | None => e
    end)) <$> members).

(** The owner of each group. *)
Definition owner_map (groupIDs : list string) : M W (gmap string GroupMemberModel) :=
  owners ← groupServer_FindGroupMember groupIDs [] [GroupOwner];
  mret (SliceToMap Member_GroupID owners).

Definition group_info (ownerMap : gmap string GroupMemberModel) (nums : gmap string Z)
    (group : GroupModel) : GroupInfo :=
  Db2PbGroupInfo group (from_option Member_UserID "" (ownerMap !! Group_GroupID group))
    (default 0 (nums !! Group_GroupID group)).

Definition page_of (p : option RequestPagination) : Z * Z :=
  match p with Some p => (PageNumber p, ShowNumber p) | None => (0, 0) end.

Definition GetJoinedGroupList (fromUserID : string) (pagination : option RequestPagination) :
    M W (Z * list GroupInfo) :=
  _ ← lift (CheckAccessV3 managers opUserID fromUserID);
  r ← PageGetJoinGroup fromUserID (page_of pagination).1 (page_of pagination).2;
  let '(total, members) := r in
  if len members =? 0 then mret (total, [])
  else
    let groupIDs := Member_GroupID <$> members in
    groups ← FindGroup groupIDs;
    groupMemberNum ← MapGroupMemberNum groupIDs;
    ownerMap ← owner_map groupIDs;
    mret (total, group_info ownerMap groupMemberNum <$> Order groupIDs groups Group_GroupID).

Definition GetGroupAllMember (groupID : string) : M W (list GroupMemberFullInfo) :=
  group ← TakeGroup groupID;
  _ ← guard (Group_GroupType group =? SuperGroup) (Wrap ErrArgs "unsupported super group");
  members ← groupServer_FindGroupMember [groupID] [] [];
  public_members members.

Definition GetGroupMemberList (groupID : string) (pagination : option RequestPagination) :
    M W (Z * list GroupMemberFullInfo) :=
  p ← deref pagination;
  r ← groupServer_PageGetGroupMember groupID (PageNumber p) (ShowNumber p);
  mret (r.1, Db2PbGroupMember <$> r.2).

Definition groupServer_GetGroupMembersInfo (groupID : string) (userIDs : list string) :
    M W (list GroupMemberFullInfo) :=
  _ ← guard (len userIDs =? 0) (Wrap ErrArgs "userIDs empty");
  _ ← guard (bool_decide (groupID = "")) (Wrap ErrArgs "groupID empty");
  members ← groupServer_FindGroupMember [groupID] userIDs [];
  public_members members.

Definition GetGroupApplicationList (fromUserID : string) (pagination : option RequestPagination) :
    M W (Z * list GroupRequest) :=
  groupIDs ← FindUserManagedGroupID fromUserID;
  if len groupIDs =? 0 then mret (0, [])
  else
    p ← deref pagination;
    r ← PageGroupRequest groupIDs (PageNumber p) (ShowNumber p);
    let '(total, groupRequests) := r in
    if len groupRequests =? 0 then mret (total, [])
    else
      let userIDs := Distinct (Request_UserID <$> groupRequests) in
      userMap ← on_env (UserClient_GetPublicUserInfoMap userIDs true);
      groups ← FindGroup (Distinct groupIDs);
      let groupMap := SliceToMap Group_GroupID groups in
      let ids := Single (range groupMap).*1 groupIDs in
      _ ← guard (0 <? len ids) (Wrap ErrGroupIDNotFound (strings_Join ids ","));
      groupMemberNumMap ← MapGroupMemberNum groupIDs;
      ownerMap ← owner_map groupIDs;
      requests ← map_each (λ e,
        group ← deref (groupMap !! Request_GroupID e);
        mret (Db2PbGroupRequest e (userMap !! Request_UserID e)
               (Some (group_info ownerMap groupMemberNumMap group)))) groupRequests;
      mret (total, requests).

Definition groupServer_GetGroupsInfo (groupIDs : list string) : M W (list GroupInfo) :=
  _ ← guard (len groupIDs =? 0) (Wrap ErrArgs "groupID is empty");
  groups ← FindGroup groupIDs;
  groupMemberNumMap ← MapGroupMemberNum groupIDs;
  ownerMap ← owner_map groupIDs;
  mret (group_info ownerMap groupMemberNumMap <$> groups).

Definition GetGroups (groupID groupName : string) (pagination : option RequestPagination) :
    M W (Z * list CMSGroup) :=
  r ← (if negb (bool_decide (groupID = "")) then
         groups ← FindGroup [groupID]; mret (uint32 (len groups), groups)
       else
         p ← deref pagination;
         SearchGroup groupName (PageNumber p) (ShowNumber p));
  let '(total, groups) := r in
  let groupIDs := Group_GroupID <$> groups in
  ownerMemberMap ← owner_map groupIDs;
  groupMemberNumMap ← MapGroupMemberNum groupIDs;
  mret (total, (λ group,
    let member := ownerMemberMap !! Group_GroupID group in
    Db2PbCMSGroup group (from_option Member_UserID "" member) (from_option Member_Nickname "" member)
      (default 0 (groupMemberNumMap !! Group_GroupID group))) <$> groups).

Definition GetGroupMembersCMS (groupID userName : string) (pagination : option RequestPagination) :
    M W (Z * list GroupMemberFullInfo) :=
  p ← deref pagination;
  r ← SearchGroupMember userName [groupID] [] [] (PageNumber p) (ShowNumber p);
  members ← public_members r.2;
  mret (r.1, members).

Definition GetUserReqApplicationList (userID : string) (pagination : option RequestPagination) :
    M W (Z * list GroupRequest) :=
  user ← on_env (GetPublicUserInfo userID);
  r ← PageGroupRequestUser userID (page_of pagination).1 (page_of pagination).2;
  let '(total, requests) := r in
  if len requests =? 0 then mret (total, [])
  else
    let groupIDs := Distinct (Request_GroupID <$> requests) in
    groups ← FindGroup groupIDs;
    let groupMap := SliceToMap Group_GroupID groups in
    ownerMap ← owner_map groupIDs;
    groupMemberNum ← MapGroupMemberNum groupIDs;
    requests ← map_each (λ e,
      group ← deref (groupMap !! Request_GroupID e);
      mret (Db2PbGroupRequest e (Some user) (Some (group_info ownerMap groupMemberNum group)))) requests;
    mret (total, requests).

Definition GetGroupUsersReqApplicationList (groupID : string) (userIDs : list string) :
    M W (Z * list GroupRequest) :=
  r ← FindGroupRequests groupID userIDs;
  let '(total, requests) := r in
  if len requests =? 0 then mret (0, [])
  else
    let groupIDs := Distinct (Request_GroupID <$> requests) in
    groups ← FindGroup groupIDs;
    let groupMap := SliceToMap Group_GroupID groups in
    let ids := Single groupIDs (range groupMap).*1 in
    _ ← guard (0 <? len ids) (Wrap ErrGroupIDNotFound (strings_Join ids ","));
    ownerMap ← owner_map groupIDs;
    groupMemberNum ← MapGroupMemberNum groupIDs;
    requests ← map_each (λ e,
      group ← deref (groupMap !! Request_GroupID e);
      mret (Db2PbGroupRequest e None (Some (group_info ownerMap groupMemberNum group)))) requests;
    mret (total, requests).

(** The user's id is passed for the groups and the groups for the users. *)
Definition GetUserInGroupMembers (userID : string) (groupIDs : list string) :
    M W (list GroupMemberFullInfo) :=
  _ ← guard (len groupIDs =? 0) (Wrap ErrArgs "groupIDs empty");
  members ← groupServer_FindGroupMember [userID] groupIDs [];
  public_members members.

Definition GetGroupMemberUserIDs (groupID : string) : M W (list string) := FindGroupMemberUserID groupID.

Definition GetGroupMemberRoleLevel (groupID : string) (roleLevels : list Z) :
    M W (list GroupMemberFullInfo) :=
  _ ← guard (len roleLevels =? 0) (Wrap ErrArgs "RoleLevels empty");
  members ← groupServer_FindGroupMember [groupID] [] roleLevels;
  public_members members.

(** The members in the order of their ids, without their level. *)
Definition groupMemberHashCode (groupID : string) : M W N :=
  userIDs ← FindGroupMemberUserID groupID;
  r ← (if 0 <? len userIDs then
         members ← groupServer_GetGroupMembersInfo groupID userIDs;
         mret (members, SortStrings userIDs)
       else mret ([], userIDs));
  let '(members, userIDs) := r in
  let memberMap := SliceToMap GM_UserID members in
  let res := omap (λ userID, (λ m, let '(mkGroupMember g u role join nick face _ source operator ex mute inviter) := m in
                 mkGroupMember g u role join nick face 0 source operator ex mute inviter)
               <$> memberMap !! userID) userIDs in
  data ← lift (Marshal_members res);
  mret (md5_Uint64 data).

Definition GetGroupAbstractInfo (groupIDs : list string) : M W (list GroupAbstractInfo) :=
  _ ← guard (len groupIDs =? 0) (Wrap ErrArgs "groupIDs empty");
  _ ← guard (Duplicate groupIDs) (Wrap ErrArgs "groupIDs duplicate");
  groups ← FindGroup groupIDs;
  let ids := Single groupIDs (Group_GroupID <$> groups) in
  _ ← guard (0 <? len ids) (Wrap ErrGroupIDNotFound ("not found group " +:+ strings_Join ids ","));
  groupUserMap ← MapGroupMemberUserID groupMemberHashCode groupIDs;
  let ids := Single groupIDs (range groupUserMap).*1 in
  _ ← guard (0 <? len ids) (Wrap ErrGroupIDNotFound ("group " +:+ strings_Join ids "," +:+ " not found member"));
  map_each (λ group,
    users ← deref (groupUserMap !! Group_GroupID group);
    mret (Db2PbGroupAbstractInfo (Group_GroupID group) (Simple_MemberNum users) (Simple_Hash users))) groups.

(** *** cache.go *)

Definition groupServer_GetGroupInfoCache (groupID : string) : M W GroupInfo :=
  group ← TakeGroup groupID; mret (Db2PbGroupInfo group "" 0).
Definition groupServer_GetGroupMemberCache (groupID groupMemberID : string) : M W GroupMemberFullInfo :=
  members ← TakeGroupMember groupID groupMemberID; mret (Db2PbGroupMember members).

(** *** super_group.go *)

Definition super_member_map (models : list SuperGroupModel) : gmap string (list string) :=
  Super_MemberIDs <$> SliceToMap Super_GroupID models.

(** Each group is given the number of groups as its number of members. *)
Definition GetJoinedSuperGroupList (userID : string) : M W (list GroupInfo) :=
  groupIDs ← FindJoinSuperGroup userID;
  if len groupIDs =? 0 then mret []
  else
    ownerMap ← owner_map groupIDs;
    let ids := Single groupIDs (range ownerMap).*1 in
    _ ← guard (0 <? len ids) (Wrap ErrData ("super group " +:+ strings_Join ids "," +:+ " not owner"));
    groups ← FindGroup groupIDs;
    let groupMap := SliceToMap Group_GroupID groups in
    let ids := Single groupIDs (range groupMap).*1 in
    _ ← guard (0 <? len ids) (Wrap ErrData ("super group info " +:+ strings_Join ids "," +:+ " not found"));
    superGroupMembers ← FindSuperGroup groupIDs;
    let superGroupMemberMap := super_member_map superGroupMembers in
    map_each (λ groupID,
      group ← deref (groupMap !! groupID);
      owner ← deref (ownerMap !! groupID);
      mret (Db2PbGroupInfo group (Member_UserID owner) (uint32 (Z.of_nat (size superGroupMemberMap))))) groupIDs.

Definition GetSuperGroupsInfo (groupIDs : list string) : M W (list GroupInfo) :=
  _ ← guard (len groupIDs =? 0) (Wrap ErrArgs "groupIDs empty");
  groups ← FindGroup groupIDs;
  superGroupMembers ← FindSuperGroup groupIDs;
  let superGroupMemberMap := super_member_map superGroupMembers in
  ownerMap ← owner_map groupIDs;
  map_each (λ e,
    owner ← deref (ownerMap !! Group_GroupID e);
    mret (Db2PbGroupInfo e (Member_UserID owner)
      (uint32 (len (default [] (superGroupMemberMap !! Group_GroupID e)))))) groups.
End GroupQuery.
