(* ===== verification/GroupSpec.v ===== *)
(** * What the group service promises

    The state of the service is the rows of its three tables ([Rows]); a call
    takes it from one state to another by a step of [group_step], which says
    when the caller may make the call and exactly which rows change.  The step
    knows neither the cache, nor the order of the statements, nor transactions,
    nor the other services: GroupProofs.v shows that the handlers implement it.
    The invariants of the rows are proved here, of the steps. *)

From S2P Require Import Prelude.
From S2P Require Import Constants.
From S2P Require Import GroupTypes.
From stdpp Require Import options.
#[local] Set Default Proof Using "Type*".

#[local] Open Scope Z_scope.

Abbreviation MemberRows := (gmap (string * string) GroupMemberModel).

Record Rows := mkRows {
  r_groups : gmap string GroupModel;
  r_members : MemberRows;
  r_requests : gmap (string * string) GroupRequestModel }.

(** ** Rights *)

Definition role_in (ms : MemberRows) (g u : string) : option Z := Member_RoleLevel <$> ms !! (g, u).

Definition administers (ms : MemberRows) (g u : string) : Prop :=
  role_in ms g u = Some GroupOwner ∨ role_in ms g u = Some GroupAdmin.

(** Whether [op] may mute [u], or lift it: the owner everybody but himself,
    an administrator the ordinary members. *)
Definition may_mute (ms : MemberRows) (op g u : string) : Prop :=
  ∃ m o, ms !! (g, u) = Some m ∧ ms !! (g, op) = Some o ∧
    Member_RoleLevel m ≠ GroupOwner ∧
    (Member_RoleLevel m = GroupAdmin → Member_RoleLevel o = GroupOwner) ∧
    (Member_RoleLevel m = GroupOrdinaryUsers →
       Member_RoleLevel o = GroupAdmin ∨ Member_RoleLevel o = GroupOwner).

(** Whether [op] may remove [us]. *)
Definition may_kick (ms : MemberRows) (op g : string) (us : list string) : Prop :=
  role_in ms g op = Some GroupOwner ∨
  role_in ms g op = Some GroupAdmin ∧ ∀ u, u ∈ us → ¬ administers ms g u.

(** Whether [op] may change a member as [e] says. *)
Definition may_set (ms : MemberRows) (op : string) (e : SetGroupMemberInfo) : Prop :=
  (∀ v, SetM_RoleLevel e = Some v → v = GroupOrdinaryUsers ∨ v = GroupAdmin) ∧
  (SetM_UserID e = op → SetM_RoleLevel e = None) ∧
  (SetM_UserID e ≠ op →
     ∃ r, role_in ms (SetM_GroupID e) op = Some r ∧ r ≠ GroupOrdinaryUsers ∧
       (r = GroupAdmin → SetM_RoleLevel e = None ∧
          role_in ms (SetM_GroupID e) (SetM_UserID e) = Some GroupOrdinaryUsers)).

(** ** Changes of rows *)

Definition insert_members (l : list GroupMemberModel) (ms : MemberRows) : MemberRows :=
  foldr (λ m, <[member_key m := m]>) ms l.

Definition remove_members (g : string) (us : list string) (ms : MemberRows) : MemberRows :=
  filter (λ km, ¬ (km.1.1 = g ∧ km.1.2 ∈ us)) ms.

Definition insert_requests (l : list GroupRequestModel) (rq : gmap (string * string) GroupRequestModel) :=
  foldr (λ r, <[request_key r := r]>) rq l.

Definition update_member (g u : string) (cs : list member_column) (ms : MemberRows) : MemberRows :=
  alter (set_member_columns cs) (g, u) ms.

Definition update_members (es : list SetGroupMemberInfo) (ms : MemberRows) : MemberRows :=
  foldl (λ ms e, update_member (SetM_GroupID e) (SetM_UserID e) (UpdateGroupMemberMap e) ms) ms es.

(** The group, the user and the role of a row. *)
Definition placed (m : GroupMemberModel) : string * string * Z :=
  (Member_GroupID m, Member_UserID m, Member_RoleLevel m).

(** The rows added: none was there before. *)
Definition new_members (ms : MemberRows) (l : list GroupMemberModel) (places : list (string * string * Z)) : Prop :=
  placed <$> l = places ∧ NoDup (member_key <$> l) ∧ ∀ m, m ∈ l → ms !! member_key m = None.

(** The first members of a group. *)
Definition created_places (req : CreateGroupReq) (g : GroupModel) : list (string * string * Z) :=
  (Group_GroupID g, Create_OwnerUserID req, GroupOwner) ::
  if Group_GroupType g =? SuperGroup then []
  else ((λ u, (Group_GroupID g, u, GroupAdmin)) <$> Create_AdminUserIDs req) ++
       ((λ u, (Group_GroupID g, u, GroupOrdinaryUsers)) <$> Create_MemberUserIDs req).

Definition ordinary_places (g : string) (us : list string) : list (string * string * Z) :=
  (λ u, (g, u, GroupOrdinaryUsers)) <$> us.

Definition pending (r : GroupRequestModel) : Prop := Request_HandleResult r = 0.

(** ** The calls *)

Inductive group_call :=
  | Call_CreateGroup (req : CreateGroupReq)
  | Call_JoinGroup (req : JoinGroupReq)
  | Call_InviteUserToGroup (req : InviteUserToGroupReq)
  | Call_GroupApplicationResponse (req : GroupApplicationResponseReq)
  | Call_KickGroupMember (req : KickGroupMemberReq)
  | Call_QuitGroup (req : QuitGroupReq)
  | Call_TransferGroupOwner (req : TransferGroupOwnerReq)
  | Call_DismissGroup (req : DismissGroupReq)
  | Call_MuteGroupMember (req : MuteGroupMemberReq)
  | Call_CancelMuteGroupMember (groupID userID : string)
  | Call_MuteGroup (groupID : string)
  | Call_CancelMuteGroup (groupID : string)
  | Call_SetGroupInfo (set : option GroupInfoForSet)
  | Call_SetGroupMemberInfo (req : list SetGroupMemberInfo).

(** Who calls, whether he is a manager of the application, and when. *)
Record caller := mkCaller { c_user : string; c_manager : bool; c_now : Z }.

(** A step on the members of a group, on its row, on both tables. *)
Definition set_members (ms : MemberRows) (rs : Rows) : Rows := mkRows (r_groups rs) ms (r_requests rs).
Definition set_group (g : string) (cs : list group_column) (rs : Rows) : Rows :=
  mkRows (alter (set_group_columns cs) g (r_groups rs)) (r_members rs) (r_requests rs).
Definition set_requests (rq : gmap (string * string) GroupRequestModel) (rs : Rows) : Rows :=
  mkRows (r_groups rs) (r_members rs) rq.

Inductive group_step (c : caller) (rs : Rows) : group_call → Rows → Prop :=
  (** A new group with its owner, administrators and members. *)
  | step_CreateGroup req g l :
      c_manager c = true ∨ c_user c = Create_OwnerUserID req →
      r_groups rs !! Group_GroupID g = None →
      new_members (r_members rs) l (created_places req g) →
      group_step c rs (Call_CreateGroup req)
        (mkRows (<[Group_GroupID g := g]> (r_groups rs)) (insert_members l (r_members rs)) (r_requests rs))
  (** A user joins a group that is open to all, or leaves a request. *)
  | step_JoinGroup_directly req g m :
      r_groups rs !! Join_GroupID req = Some g → Group_Status g ≠ GroupStatusDismissed →
      Group_NeedVerification g = Directly → Group_GroupType g ≠ SuperGroup →
      new_members (r_members rs) [m] (ordinary_places (Join_GroupID req) [Join_InviterUserID req]) →
      group_step c rs (Call_JoinGroup req) (set_members (insert_members [m] (r_members rs)) rs)
  | step_JoinGroup_request req g r :
      r_groups rs !! Join_GroupID req = Some g → Group_Status g ≠ GroupStatusDismissed →
      Group_NeedVerification g ≠ Directly →
      r_members rs !! (Join_GroupID req, Join_InviterUserID req) = None →
      request_key r = (Join_GroupID req, Join_InviterUserID req) → pending r →
      group_step c rs (Call_JoinGroup req) (set_requests (insert_requests [r] (r_requests rs)) rs)
  (** A member invites others: they become members, or requests are left. *)
  | step_Invite_members req g l :
      r_groups rs !! Invite_GroupID req = Some g → Group_Status g ≠ GroupStatusDismissed →
      Group_GroupType g ≠ SuperGroup →
      c_manager c = true ∨
      is_Some (r_members rs !! (Invite_GroupID req, c_user c)) ∧
      (Group_NeedVerification g = AllNeedVerification → administers (r_members rs) (Invite_GroupID req) (c_user c)) →
      new_members (r_members rs) l (ordinary_places (Invite_GroupID req) (Invite_InvitedUserIDs req)) →
      group_step c rs (Call_InviteUserToGroup req) (set_members (insert_members l (r_members rs)) rs)
  | step_Invite_super req g :
      r_groups rs !! Invite_GroupID req = Some g → Group_Status g ≠ GroupStatusDismissed →
      Group_GroupType g = SuperGroup →
      c_manager c = true ∨
      is_Some (r_members rs !! (Invite_GroupID req, c_user c)) ∧
      (Group_NeedVerification g = AllNeedVerification → administers (r_members rs) (Invite_GroupID req) (c_user c)) →
      group_step c rs (Call_InviteUserToGroup req) rs
  | step_Invite_requests req g l :
      r_groups rs !! Invite_GroupID req = Some g → Group_Status g ≠ GroupStatusDismissed →
      Group_NeedVerification g = AllNeedVerification →
      is_Some (r_members rs !! (Invite_GroupID req, c_user c)) →
      ¬ administers (r_members rs) (Invite_GroupID req) (c_user c) →
      request_key <$> l = (λ u, (Invite_GroupID req, u)) <$> Invite_InvitedUserIDs req →
      Forall pending l →
      group_step c rs (Call_InviteUserToGroup req) (set_requests (insert_requests l (r_requests rs)) rs)
  (** A pending request is answered; the user becomes a member if he was not. *)
  | step_GroupApplicationResponse req g r l :
      r_groups rs !! Response_GroupID req = Some g →
      c_manager c = true ∨ administers (r_members rs) (Response_GroupID req) (c_user c) →
      r_requests rs !! (Response_GroupID req, Response_FromUserID req) = Some r → pending r →
      (Response_HandleResult req = GroupResponseAgree ∨ Response_HandleResult req = GroupResponseRefuse) →
      new_members (r_members rs) l
        (if (Response_HandleResult req =? GroupResponseAgree) &&
            bool_decide (r_members rs !! (Response_GroupID req, Response_FromUserID req) = None)
         then ordinary_places (Response_GroupID req) [Response_FromUserID req] else []) →
      group_step c rs (Call_GroupApplicationResponse req)
        (mkRows (r_groups rs) (insert_members l (r_members rs))
           (<[(Response_GroupID req, Response_FromUserID req) :=
               set_Handled (Response_HandledMsg req) (Response_HandleResult req) r]> (r_requests rs)))
  (** Members are removed: by a manager, the owner, an administrator. *)
  | step_KickGroupMember req g :
      r_groups rs !! Kick_GroupID req = Some g → Group_GroupType g ≠ SuperGroup →
      c_user c ∉ Kick_KickedUserIDs req →
      (∀ u, u ∈ Kick_KickedUserIDs req → is_Some (r_members rs !! (Kick_GroupID req, u))) →
      c_manager c = true ∨ may_kick (r_members rs) (c_user c) (Kick_GroupID req) (Kick_KickedUserIDs req) →
      group_step c rs (Call_KickGroupMember req)
        (set_members (remove_members (Kick_GroupID req) (Kick_KickedUserIDs req) (r_members rs)) rs)
  | step_KickGroupMember_super req g :
      r_groups rs !! Kick_GroupID req = Some g → Group_GroupType g = SuperGroup →
      group_step c rs (Call_KickGroupMember req) rs
  (** A member other than the owner leaves. *)
  | step_QuitGroup req g u r :
      u = (if bool_decide (Quit_UserID req = "") then c_user c else Quit_UserID req) →
      u = c_user c ∨ c_manager c = true →
      r_groups rs !! Quit_GroupID req = Some g → Group_GroupType g ≠ SuperGroup →
      role_in (r_members rs) (Quit_GroupID req) u = Some r → r ≠ GroupOwner →
      group_step c rs (Call_QuitGroup req)
        (set_members (remove_members (Quit_GroupID req) [u] (r_members rs)) rs)
  | step_QuitGroup_super req g :
      r_groups rs !! Quit_GroupID req = Some g → Group_GroupType g = SuperGroup →
      group_step c rs (Call_QuitGroup req) rs
  (** The owner and another member exchange their roles. *)
  | step_TransferGroupOwner req g ro rn :
      r_groups rs !! Transfer_GroupID req = Some g → Group_Status g ≠ GroupStatusDismissed →
      Transfer_OldOwnerUserID req ≠ Transfer_NewOwnerUserID req →
      role_in (r_members rs) (Transfer_GroupID req) (Transfer_OldOwnerUserID req) = Some ro →
      role_in (r_members rs) (Transfer_GroupID req) (Transfer_NewOwnerUserID req) = Some rn →
      rn ≠ GroupOwner → ro ≠ rn →
      c_manager c = true ∨ c_user c = Transfer_OldOwnerUserID req ∧ ro = GroupOwner →
      group_step c rs (Call_TransferGroupOwner req)
        (set_members
           (update_member (Transfer_GroupID req) (Transfer_NewOwnerUserID req) [col_role_level GroupOwner]
             (update_member (Transfer_GroupID req) (Transfer_OldOwnerUserID req) [col_role_level rn]
               (r_members rs))) rs)
  (** The owner dismisses the group; its members stay. *)
  | step_DismissGroup req g u :
      Dismiss_DeleteMember req = false →
      r_groups rs !! Dismiss_GroupID req = Some g → Group_Status g ≠ GroupStatusDismissed →
      role_in (r_members rs) (Dismiss_GroupID req) u = Some GroupOwner →
      c_manager c = true ∨ u = c_user c →
      group_step c rs (Call_DismissGroup req)
        (set_group (Dismiss_GroupID req) [col_status GroupStatusDismissed] rs)
  | step_MuteGroupMember req :
      is_Some (r_members rs !! (Mute_GroupID req, Mute_UserID req)) →
      c_manager c = true ∨ may_mute (r_members rs) (c_user c) (Mute_GroupID req) (Mute_UserID req) →
      group_step c rs (Call_MuteGroupMember req)
        (set_members (update_member (Mute_GroupID req) (Mute_UserID req)
           [col_mute_end_time (c_now c + 1000 * Mute_MutedSeconds req)] (r_members rs)) rs)
  | step_CancelMuteGroupMember g u :
      is_Some (r_members rs !! (g, u)) →
      c_manager c = true ∨ may_mute (r_members rs) (c_user c) g u →
      group_step c rs (Call_CancelMuteGroupMember g u)
        (set_members (update_member g u [col_mute_end_time 0] (r_members rs)) rs)
  | step_MuteGroup g :
      c_manager c = true ∨ administers (r_members rs) g (c_user c) →
      group_step c rs (Call_MuteGroup g) (set_group g [col_status GroupStatusMuted] rs)
  | step_CancelMuteGroup g :
      c_manager c = true ∨ administers (r_members rs) g (c_user c) →
      group_step c rs (Call_CancelMuteGroup g) (set_group g [col_status GroupOk] rs)
  | step_SetGroupInfo set g :
      r_groups rs !! Set_GroupID set = Some g → Group_Status g ≠ GroupStatusDismissed →
      c_manager c = true ∨ administers (r_members rs) (Set_GroupID set) (c_user c) →
      group_step c rs (Call_SetGroupInfo (Some set))
        (set_group (Set_GroupID set) (UpdateGroupInfoMap (c_now c) (c_user c) set) rs)
  (** The members' rows are updated; no owner's role is set. *)
  | step_SetGroupMemberInfo req es :
      NoDup ((λ e, (SetM_GroupID e, SetM_UserID e)) <$> req) →
      Forall2 (λ e e', SetM_GroupID e' = SetM_GroupID e ∧ SetM_UserID e' = SetM_UserID e ∧
                       SetM_RoleLevel e' = SetM_RoleLevel e) req es →
      (∀ e, e ∈ req → ∃ r, role_in (r_members rs) (SetM_GroupID e) (SetM_UserID e) = Some r ∧
         (is_Some (SetM_RoleLevel e) → r ≠ GroupOwner)) →
      c_manager c = true ∨ (∀ e, e ∈ req → may_set (r_members rs) (c_user c) e) →
      group_step c rs (Call_SetGroupMemberInfo req) (set_members (update_members es (r_members rs)) rs).

(** The steps of one call, as formulas. *)
Lemma step_kick c rs req rs' : group_step c rs (Call_KickGroupMember req) rs' →
  ∃ g, r_groups rs !! Kick_GroupID req = Some g ∧
    (Group_GroupType g = SuperGroup ∧ rs' = rs ∨
     Group_GroupType g ≠ SuperGroup ∧ c_user c ∉ Kick_KickedUserIDs req ∧
     (∀ u, u ∈ Kick_KickedUserIDs req → is_Some (r_members rs !! (Kick_GroupID req, u))) ∧
     (c_manager c = true ∨ may_kick (r_members rs) (c_user c) (Kick_GroupID req) (Kick_KickedUserIDs req)) ∧
     rs' = set_members (remove_members (Kick_GroupID req) (Kick_KickedUserIDs req) (r_members rs)) rs).
Proof. inversion 1; subst; eauto 10. Qed.

Lemma step_transfer c rs req rs' : group_step c rs (Call_TransferGroupOwner req) rs' →
  ∃ g ro rn, r_groups rs !! Transfer_GroupID req = Some g ∧ Group_Status g ≠ GroupStatusDismissed ∧
    Transfer_OldOwnerUserID req ≠ Transfer_NewOwnerUserID req ∧
    role_in (r_members rs) (Transfer_GroupID req) (Transfer_OldOwnerUserID req) = Some ro ∧
    role_in (r_members rs) (Transfer_GroupID req) (Transfer_NewOwnerUserID req) = Some rn ∧
    rn ≠ GroupOwner ∧ ro ≠ rn ∧
    (c_manager c = true ∨ c_user c = Transfer_OldOwnerUserID req ∧ ro = GroupOwner) ∧
    rs' = set_members
      (update_member (Transfer_GroupID req) (Transfer_NewOwnerUserID req) [col_role_level GroupOwner]
        (update_member (Transfer_GroupID req) (Transfer_OldOwnerUserID req) [col_role_level rn]
          (r_members rs))) rs.
Proof. inversion 1; subst; eauto 20. Qed.

Lemma step_response c rs req rs' : group_step c rs (Call_GroupApplicationResponse req) rs' →
  ∃ g r l, r_groups rs !! Response_GroupID req = Some g ∧
    (c_manager c = true ∨ administers (r_members rs) (Response_GroupID req) (c_user c)) ∧
    r_requests rs !! (Response_GroupID req, Response_FromUserID req) = Some r ∧ pending r ∧
    (Response_HandleResult req = GroupResponseAgree ∨ Response_HandleResult req = GroupResponseRefuse) ∧
    new_members (r_members rs) l
        (if (Response_HandleResult req =? GroupResponseAgree) &&
            bool_decide (r_members rs !! (Response_GroupID req, Response_FromUserID req) = None)
         then ordinary_places (Response_GroupID req) [Response_FromUserID req] else []) ∧
    rs' = mkRows (r_groups rs) (insert_members l (r_members rs))
           (<[(Response_GroupID req, Response_FromUserID req) :=
               set_Handled (Response_HandledMsg req) (Response_HandleResult req) r]> (r_requests rs)).
Proof. inversion 1; subst; eauto 20. Qed.

Lemma step_mute c rs req rs' : group_step c rs (Call_MuteGroupMember req) rs' →
  is_Some (r_members rs !! (Mute_GroupID req, Mute_UserID req)) ∧
  (c_manager c = true ∨ may_mute (r_members rs) (c_user c) (Mute_GroupID req) (Mute_UserID req)) ∧
  rs' = set_members (update_member (Mute_GroupID req) (Mute_UserID req)
           [col_mute_end_time (c_now c + 1000 * Mute_MutedSeconds req)] (r_members rs)) rs.
Proof. inversion 1; subst; eauto. Qed.

Lemma step_set_member c rs req rs' : group_step c rs (Call_SetGroupMemberInfo req) rs' →
  ∃ es, NoDup ((λ e, (SetM_GroupID e, SetM_UserID e)) <$> req) ∧
    Forall2 (λ e e', SetM_GroupID e' = SetM_GroupID e ∧ SetM_UserID e' = SetM_UserID e ∧
                     SetM_RoleLevel e' = SetM_RoleLevel e) req es ∧
    (∀ e, e ∈ req → ∃ r, role_in (r_members rs) (SetM_GroupID e) (SetM_UserID e) = Some r ∧
       (is_Some (SetM_RoleLevel e) → r ≠ GroupOwner)) ∧
    (c_manager c = true ∨ (∀ e, e ∈ req → may_set (r_members rs) (c_user c) e)) ∧
    rs' = set_members (update_members es (r_members rs)) rs.
Proof. inversion 1; subst; eauto 20. Qed.

Lemma step_join c rs req rs' : group_step c rs (Call_JoinGroup req) rs' →
  ∃ g, r_groups rs !! Join_GroupID req = Some g ∧ Group_Status g ≠ GroupStatusDismissed ∧
    ((∃ m, Group_NeedVerification g = Directly ∧ Group_GroupType g ≠ SuperGroup ∧
        new_members (r_members rs) [m] (ordinary_places (Join_GroupID req) [Join_InviterUserID req]) ∧
        rs' = set_members (insert_members [m] (r_members rs)) rs) ∨
     (∃ r, Group_NeedVerification g ≠ Directly ∧
        r_members rs !! (Join_GroupID req, Join_InviterUserID req) = None ∧
        request_key r = (Join_GroupID req, Join_InviterUserID req) ∧ pending r ∧
        rs' = set_requests (insert_requests [r] (r_requests rs)) rs)).
Proof. inversion 1; subst; eauto 20. Qed.

(** ** Facts on changed rows *)

Lemma lookup_insert_members_some l ms k m :
  insert_members l ms !! k = Some m → m ∈ l ∧ member_key m = k ∨ ms !! k = Some m.
Proof.
  unfold insert_members. induction l as [|x l IH]; cbn; [auto|]. rewrite lookup_insert. case_decide.
  - intros [= ->]. left. split; [by left|done].
  - intros [[]|]%IH; [left|right]; [split; [by right|done]|done].
Qed.

Lemma lookup_insert_members_new l ms m :
  NoDup (member_key <$> l) → m ∈ l → insert_members l ms !! member_key m = Some m.
Proof.
  unfold insert_members. induction l as [|x l IH]; [by rewrite elem_of_nil|]. cbn.
  intros [Hx Hn]%NoDup_cons [->|Hr]%elem_of_cons; [by rewrite lookup_insert_eq|].
  rewrite lookup_insert_ne; [auto|]. intros E. apply Hx. rewrite E. by apply list_elem_of_fmap_2.
Qed.

Lemma lookup_insert_members_old l ms k :
  (∀ m, m ∈ l → member_key m ≠ k) → insert_members l ms !! k = ms !! k.
Proof.
  unfold insert_members. induction l as [|x l IH]; [done|]. cbn. intros Hl.
  rewrite lookup_insert_ne by (apply Hl; left). apply IH. intros r Hr. apply Hl. by right.
Qed.

Lemma lookup_insert_members ms l places k m : new_members ms l places →
  insert_members l ms !! k = Some m ↔ m ∈ l ∧ member_key m = k ∨ ms !! k = Some m.
Proof.
  intros (_ & Hn & Hf). split; [apply lookup_insert_members_some|].
  intros [[Hm <-]|Hm]; [by apply lookup_insert_members_new|].
  rewrite lookup_insert_members_old; [done|]. intros m' Hm' <-. by rewrite Hf in Hm.
Qed.

Lemma role_in_insert ms l places g u r : new_members ms l places →
  role_in (insert_members l ms) g u = Some r ↔ (g, u, r) ∈ places ∨ role_in ms g u = Some r.
Proof.
  intros Hnew. unfold role_in. rewrite !fmap_Some. setoid_rewrite (lookup_insert_members _ _ _ _ _ Hnew).
  destruct Hnew as (<- & _ & _). rewrite list_elem_of_fmap. unfold placed, member_key. split.
  - intros (m & [[Hm [= <- <-]]|Hm] & ->); eauto.
  - intros [(m & [= -> -> ->] & Hm)|(m & Hm & ->)]; eauto 6.
Qed.

Lemma member_role ms g u : is_Some (ms !! (g, u)) ↔ ∃ r, role_in ms g u = Some r.
Proof. unfold role_in. split; [intros [m ->]; by eexists|]. intros [r (m & -> & _)%fmap_Some]. by eexists. Qed.

Lemma member_insert ms l places g u : new_members ms l places →
  is_Some (insert_members l ms !! (g, u)) ↔ (∃ r, (g, u, r) ∈ places) ∨ is_Some (ms !! (g, u)).
Proof.
  intros Hnew. rewrite !member_role. setoid_rewrite (role_in_insert _ _ _ _ _ _ Hnew). naive_solver.
Qed.

Lemma role_in_remove ms g us g' u r :
  role_in (remove_members g us ms) g' u = Some r ↔ role_in ms g' u = Some r ∧ ¬ (g' = g ∧ u ∈ us).
Proof.
  unfold role_in, remove_members. rewrite !fmap_Some. setoid_rewrite map_lookup_filter_Some. cbn. naive_solver.
Qed.

Lemma role_in_update ms g u cs g' u' :
  role_in (update_member g u cs ms) g' u' =
    (λ r, if decide ((g', u') = (g, u)) then default r (sets_role cs) else r) <$> role_in ms g' u'.
Proof.
  unfold role_in, update_member. destruct (decide ((g', u') = (g, u))) as [E|Hne].
  - rewrite E, lookup_alter_eq, <-!option_fmap_compose. apply option_fmap_ext. intros m.
    apply set_member_columns_role.
  - rewrite lookup_alter_ne by congruence. by destruct (ms !! (g', u')).
Qed.

Lemma role_in_update_none ms g u cs g' u' : sets_role cs = None →
  role_in (update_member g u cs ms) g' u' = role_in ms g' u'.
Proof. intros E. rewrite role_in_update, E. by destruct (role_in ms g' u'); cbn; [case_decide|]. Qed.

Lemma update_members_dom es ms k : is_Some (update_members es ms !! k) ↔ is_Some (ms !! k).
Proof.
  unfold update_members. revert ms. induction es as [|e es IH]; intros ms; [done|]. cbn.
  rewrite IH. unfold update_member. apply lookup_alter_is_Some.
Qed.

(** The role after a list of updates: unchanged, or one that an update sets. *)
Lemma role_in_updates es ms g u r :
  role_in (update_members es ms) g u = Some r →
  role_in ms g u = Some r ∨
  ∃ e, e ∈ es ∧ (SetM_GroupID e, SetM_UserID e) = (g, u) ∧ SetM_RoleLevel e = Some r ∧
    is_Some (role_in ms g u).
Proof.
  unfold update_members. revert ms. induction es as [|e es IH]; intros ms; [by left|]. cbn.
  intros [Hr|(e' & He & Hk & Hv & Hs)]%IH; rewrite role_in_update, UpdateGroupMemberMap_role in *.
  - apply fmap_Some in Hr as (r0 & Hr & ->). rewrite Hr. case_decide as Hk; [|by left].
    destruct (SetM_RoleLevel e) as [v|] eqn:Hv; [right|by left].
    exists e. split; [by left|]. split; [by symmetry|]. split; [by rewrite Hv|by eexists].
  - right. exists e'. split; [by right|]. split; [done|]. split; [done|].
    by destruct (role_in ms g u).
Qed.

(** A member whose role no update sets keeps it. *)
Lemma role_in_updates_other es ms g u :
  (∀ e, e ∈ es → (SetM_GroupID e, SetM_UserID e) = (g, u) → SetM_RoleLevel e = None) →
  role_in (update_members es ms) g u = role_in ms g u.
Proof.
  unfold update_members. revert ms. induction es as [|e es IH]; intros ms He; [done|]. cbn.
  rewrite IH by (intros e' He'; apply He; by right). rewrite role_in_update, UpdateGroupMemberMap_role.
  destruct (role_in ms g u); [|done]. cbn. case_decide as Hk; [|done]. by rewrite He by (done || by left).
Qed.

Lemma new_members_nil ms l : new_members ms l [] → l = [].
Proof. by intros (?%fmap_nil_inv & _). Qed.

(** ** The owner

    Every group has exactly one. *)

Definition one_owner (rs : Rows) : Prop :=
  ∀ g, is_Some (r_groups rs !! g) → ∃ o, ∀ u, role_in (r_members rs) g u = Some GroupOwner ↔ u = o.

(** A member is in a group that exists. *)
Definition members_of_groups (rs : Rows) : Prop :=
  ∀ g u, is_Some (r_members rs !! (g, u)) → is_Some (r_groups rs !! g).

Lemma one_owner_same rs rs' :
  (∀ g, is_Some (r_groups rs' !! g) ↔ is_Some (r_groups rs !! g)) →
  (∀ g u, role_in (r_members rs') g u = Some GroupOwner ↔ role_in (r_members rs) g u = Some GroupOwner) →
  one_owner rs → one_owner rs'.
Proof. intros Hg Hr Ho g [o Hs]%Hg%Ho. exists o. intros u. by rewrite Hr. Qed.

(** New ordinary members are no owners. *)
Lemma ordinary_not_owner ms l g us g' u : new_members ms l (ordinary_places g us) →
  role_in (insert_members l ms) g' u = Some GroupOwner ↔ role_in ms g' u = Some GroupOwner.
Proof.
  intros Hnew. rewrite (role_in_insert _ _ _ _ _ _ Hnew). split; [|by right].
  intros [(? & E & _)%list_elem_of_fmap|?]; [discriminate E|done].
Qed.

Lemma role_in_some ms g u r : role_in ms g u = Some r → is_Some (ms !! (g, u)).
Proof. unfold role_in. rewrite fmap_Some. intros (m & -> & _). by eexists. Qed.

(** The places of a new group: one of them is the owner's. *)
Lemma created_owner req g u :
  (Group_GroupID g, u, GroupOwner) ∈ created_places req g ↔ u = Create_OwnerUserID req.
Proof.
  unfold created_places. rewrite elem_of_cons. split; [|intros ->; by left].
  intros [[= ->]|Hin]; [done|]. case_match; [by apply elem_of_nil in Hin|].
  by apply elem_of_app in Hin as [(? & [=] & _)%list_elem_of_fmap|(? & [=] & _)%list_elem_of_fmap].
Qed.

Lemma created_places_group req g g' u r : (g', u, r) ∈ created_places req g → g' = Group_GroupID g.
Proof.
  unfold created_places. intros [[= -> _ _]|Hin]%elem_of_cons; [done|].
  case_match; [by apply elem_of_nil in Hin|].
  by apply elem_of_app in Hin as [(? & [= -> _] & _)%list_elem_of_fmap|(? & [= -> _] & _)%list_elem_of_fmap].
Qed.

Lemma step_members_of_groups c rs call rs' :
  members_of_groups rs → group_step c rs call rs' → members_of_groups rs'.
Proof.
  intros Hm Hs. unfold members_of_groups in *.
  assert (∀ cs g k, is_Some (alter (set_group_columns cs) g (r_groups rs) !! k) ↔ is_Some (r_groups rs !! k))
    as Halt by (intros; apply lookup_alter_is_Some).
  assert (∀ l g us, new_members (r_members rs) l (ordinary_places g us) → is_Some (r_groups rs !! g) →
    ∀ g' u, is_Some (insert_members l (r_members rs) !! (g', u)) → is_Some (r_groups rs !! g')) as Hins.
  { intros l g us Hnew Hg g' u [m [[Hl Hk]|Ho]%lookup_insert_members_some]; [|by eapply Hm].
    assert (placed m ∈ ordinary_places g us) as Hp by (rewrite <-(proj1 Hnew); by apply list_elem_of_fmap_2).
    apply list_elem_of_fmap in Hp as (u' & E & _). injection E as <- _ _. by injection Hk as <- _. }
  assert (∀ g us g' u, is_Some (remove_members g us (r_members rs) !! (g', u)) → is_Some (r_groups rs !! g')) as Hrem.
  { intros g us g' u [m [Ho _]%map_lookup_filter_Some]. eauto. }
  assert (∀ g us cs g' u, is_Some (update_member g us cs (r_members rs) !! (g', u)) → is_Some (r_groups rs !! g')) as Hupd.
  { intros g us cs g' u. unfold update_member. rewrite lookup_alter_is_Some. eauto. }
  destruct Hs; cbn; try (by eauto); try (setoid_rewrite Halt; by eauto).
  - intros g' u [m [[Hl Hk]|Ho]%lookup_insert_members_some].
    + assert (placed m ∈ created_places req g) as Hp by (rewrite <-(proj1 H1); by apply list_elem_of_fmap_2).
      apply created_places_group in Hp. rewrite lookup_insert_is_Some'. left. injection Hk as <- _. done.
    + rewrite lookup_insert_is_Some'. right. eauto.
  - intros g' u Hi. case_match; [eauto|].
    apply new_members_nil in H4 as ->. eauto.
  - intros g' u. unfold update_member. rewrite !lookup_alter_is_Some. eauto.
  - intros g' u Ho%update_members_dom. eauto.
Qed.

Lemma may_kick_not_owner ms op g us u : may_kick ms op g us → op ∉ us →
  (∃ o, ∀ v, role_in ms g v = Some GroupOwner ↔ v = o) → u ∈ us → role_in ms g u ≠ Some GroupOwner.
Proof.
  intros Hk Hop [o Ho] Hu Hr. destruct Hk as [Hown|[_ Hadm]].
  - apply Ho in Hown, Hr. congruence.
  - apply (Hadm u Hu). by left.
Qed.

(** The owner and another member exchange their roles. *)
Lemma exchange_owner ms g old new rn o :
  (∀ u, role_in ms g u = Some GroupOwner ↔ u = o) → role_in ms g old = Some GroupOwner →
  role_in ms g new = Some rn → rn ≠ GroupOwner →
  ∀ u, role_in (update_member g new [col_role_level GroupOwner]
                 (update_member g old [col_role_level rn] ms)) g u = Some GroupOwner ↔ u = new.
Proof.
  intros Hown Hold Hnew Hrn u. assert (old = o) as -> by (by apply Hown).
  assert (new ≠ o) as Hne by (intros ->; congruence).
  rewrite !role_in_update. cbn. destruct (decide (u = new)) as [->|Hu].
  { rewrite Hnew. cbn. by rewrite decide_True. }
  split; [|done]. intros Hr. exfalso. destruct (role_in ms g u) as [r|] eqn:Hru; [|done]. cbn in Hr.
  rewrite (decide_False (P:=(g, u) = (g, new))) in Hr by congruence.
  case_decide as Hk; injection Hr as Hr; [done|]. apply Hk. f_equal. apply Hown. congruence.
Qed.

Lemma role_in_update_other ms g u cs g' u' : (g', u') ≠ (g, u) →
  role_in (update_member g u cs ms) g' u' = role_in ms g' u'.
Proof.
  intros Hne. rewrite role_in_update. destruct (role_in ms g' u'); [|done]. cbn. by rewrite decide_False.
Qed.

(** Updates that may not set an owner's role, or the role of an owner. *)
Lemma updates_owner ms es g u :
  (∀ e, e ∈ es → SetM_RoleLevel e ≠ Some GroupOwner ∧
     (is_Some (SetM_RoleLevel e) → role_in ms (SetM_GroupID e) (SetM_UserID e) ≠ Some GroupOwner)) →
  role_in (update_members es ms) g u = Some GroupOwner ↔ role_in ms g u = Some GroupOwner.
Proof.
  intros He. split.
  - intros [?|(e & [Hn _]%He & _ & Hv & _)]%role_in_updates; done.
  - intros Hr. rewrite role_in_updates_other; [done|]. intros e [_ Hn]%He [= <- <-].
    destruct (SetM_RoleLevel e); [|done]. by destruct Hn.
Qed.

Lemma step_one_owner c rs call rs' :
  c_manager c = false → members_of_groups rs → one_owner rs → group_step c rs call rs' → one_owner rs'.
Proof.
  intros Hc Hm Ho Hs.
  assert (∀ cs g, one_owner (set_group g cs rs)) as Hset.
  { intros cs g. apply (one_owner_same rs); [|done|exact Ho]. intros g'. cbn. apply lookup_alter_is_Some. }
  assert (∀ ms, (∀ g u, role_in ms g u = Some GroupOwner ↔ role_in (r_members rs) g u = Some GroupOwner) →
    one_owner (set_members ms rs)) as Hms by (intros ms Hr; by apply (one_owner_same rs)).
  assert (∀ g us, (∀ u, u ∈ us → role_in (r_members rs) g u ≠ Some GroupOwner) →
    one_owner (set_members (remove_members g us (r_members rs)) rs)) as Hrem.
  { intros g us Hno. apply Hms. intros g' u. rewrite role_in_remove. naive_solver. }
  assert (∀ g u cs, sets_role cs = None → one_owner (set_members (update_member g u cs (r_members rs)) rs)) as Hupd.
  { intros g u cs Hn. apply Hms. intros. by rewrite role_in_update_none. }
  destruct Hs; try (by eauto using ordinary_not_owner); try congruence.
  - intros g' Hg'. cbn in *. apply lookup_insert_is_Some' in Hg' as [<-|Hg'].
    + exists (Create_OwnerUserID req). intros u. rewrite (role_in_insert _ _ _ _ _ _ H1), created_owner.
      split; [|by left]. intros [?|Hr%role_in_some%Hm]; [done|]. rewrite H0 in Hr. by destruct Hr.
    + destruct (Ho g' Hg') as [o Hown]. exists o. intros u. rewrite (role_in_insert _ _ _ _ _ _ H1), Hown.
      split; [|by right]. intros [Hp%created_places_group|?]; [|done]. subst. rewrite H0 in Hg'. by destruct Hg'.
  - apply (one_owner_same rs); [done| |exact Ho]. intros g' u. cbn. case_match; [by eapply ordinary_not_owner|].
    by apply new_members_nil in H4 as ->.
  - apply Hrem. intros u Hu. destruct H3 as [?|Hk]; [congruence|]. eapply may_kick_not_owner; eauto.
  - apply Hrem. intros v ->%list_elem_of_singleton. congruence.
  - destruct H6 as [?|[_ ->]]; [congruence|]. intros g' Hg'. destruct (Ho g' Hg') as [o Hown].
    destruct (decide (g' = Transfer_GroupID req)) as [->|Hne].
    + eexists. by eapply exchange_owner.
    + exists o. intros u. cbn. rewrite !role_in_update_other by congruence. apply Hown.
  - apply Hms. intros g' u. destruct H2 as [?|Hmay]; [congruence|]. apply updates_owner.
    intros e' (i & Hi)%list_elem_of_lookup. destruct (Forall2_lookup_r _ _ _ _ _ H0 Hi) as (e & He & -> & -> & ->).
    apply list_elem_of_lookup_2 in He. destruct (Hmay e He) as [Hval _], (H1 e He) as (r & -> & Hno). split.
    + intros E%Hval. by destruct E.
    + intros Hs. apply Hno in Hs. congruence.
Qed.

(** ** The type of a state

    Every row stands under its own key; a role is one of the three, the result
    of a request one of the three. *)

Definition valid_role (r : Z) : Prop := r = GroupOwner ∨ r = GroupAdmin ∨ r = GroupOrdinaryUsers.
Definition valid_result (r : Z) : Prop := r = 0 ∨ r = GroupResponseAgree ∨ r = GroupResponseRefuse.

Record well_typed (rs : Rows) : Prop := {
  groups_keyed g r : r_groups rs !! g = Some r → Group_GroupID r = g;
  members_keyed k m : r_members rs !! k = Some m → member_key m = k;
  requests_keyed k r : r_requests rs !! k = Some r → request_key r = k;
  roles_valid g u r : role_in (r_members rs) g u = Some r → valid_role r;
  results_valid k r : r_requests rs !! k = Some r → valid_result (Request_HandleResult r) }.

Lemma insert_members_keyed l ms :
  (∀ k m, ms !! k = Some m → member_key m = k) →
  ∀ k m, insert_members l ms !! k = Some m → member_key m = k.
Proof. intros Hk k m [[_ ?]|?]%lookup_insert_members_some; eauto. Qed.

Lemma update_member_keyed g u cs ms :
  (∀ k m, ms !! k = Some m → member_key m = k) →
  ∀ k m, update_member g u cs ms !! k = Some m → member_key m = k.
Proof.
  unfold update_member. intros Hk k m. destruct (decide (k = (g, u))) as [->|Hne].
  - rewrite lookup_alter_eq, fmap_Some. intros (m' & Hm & ->). rewrite set_member_columns_key. by apply Hk.
  - rewrite lookup_alter_ne by done. apply Hk.
Qed.

Lemma update_members_keyed es ms :
  (∀ k m, ms !! k = Some m → member_key m = k) →
  ∀ k m, update_members es ms !! k = Some m → member_key m = k.
Proof.
  unfold update_members. revert ms. induction es as [|e es IH]; intros ms Hk; [done|]. cbn.
  apply IH. by apply update_member_keyed.
Qed.

(** What keeps the type: of the groups, of the members, of the requests. *)
Lemma well_typed_members ms rs :
  (∀ k m, ms !! k = Some m → member_key m = k) →
  (∀ g u r, role_in ms g u = Some r → valid_role r) →
  well_typed rs → well_typed (set_members ms rs).
Proof. intros Hk Hr []. by split. Qed.

Lemma well_typed_group g cs rs : well_typed rs → well_typed (set_group g cs rs).
Proof.
  intros []. split; try done. cbn. intros g' r. destruct (decide (g' = g)) as [->|Hne].
  - rewrite lookup_alter_eq, fmap_Some. intros (r' & Hr & ->). rewrite set_group_columns_id. auto.
  - rewrite lookup_alter_ne by done. auto.
Qed.

Lemma well_typed_requests l rs : Forall pending l → well_typed rs →
  well_typed (set_requests (insert_requests l (r_requests rs)) rs).
Proof.
  intros Hl []. assert (∀ k r, insert_requests l (r_requests rs) !! k = Some r →
    request_key r = k ∧ valid_result (Request_HandleResult r)) as Hall.
  { unfold insert_requests. induction Hl as [|r l Hp Hl IH]; cbn; [by eauto|]. intros k r'.
    rewrite lookup_insert. case_decide; [|apply IH]. intros [= <-]. split; [done|by left]. }
  split; try done; intros k r Hr; destruct (Hall k r Hr); done.
Qed.

Lemma well_typed_insert rs l places : well_typed rs → new_members (r_members rs) l places →
  (∀ g u r, (g, u, r) ∈ places → valid_role r) →
  well_typed (set_members (insert_members l (r_members rs)) rs).
Proof.
  intros Ht Hnew Hv. pose proof Ht as []. apply well_typed_members; [by apply insert_members_keyed| |done].
  intros g u r. rewrite (role_in_insert _ _ _ _ _ _ Hnew). naive_solver.
Qed.

Lemma ordinary_valid g us g' u r : (g', u, r) ∈ ordinary_places g us → valid_role r.
Proof. intros (? & [= _ _ ->] & _)%list_elem_of_fmap. unfold valid_role. auto. Qed.

Lemma created_valid req g g' u r : (g', u, r) ∈ created_places req g → valid_role r.
Proof.
  unfold created_places, valid_role. intros [[= _ _ ->]|Hin]%elem_of_cons; [auto|].
  case_match; [by apply elem_of_nil in Hin|].
  apply elem_of_app in Hin as [(? & [= _ _ ->] & _)%list_elem_of_fmap|(? & [= _ _ ->] & _)%list_elem_of_fmap]; auto.
Qed.

Lemma well_typed_update rs g u cs : well_typed rs → (∀ r, sets_role cs = Some r → valid_role r) →
  well_typed (set_members (update_member g u cs (r_members rs)) rs).
Proof.
  intros Ht Hv. pose proof Ht as []. apply well_typed_members; [by apply update_member_keyed| |done].
  intros g' u' r. rewrite role_in_update, fmap_Some. intros (r' & Hr & ->).
  case_decide; [|by eauto]. destruct (sets_role cs); cbn; eauto.
Qed.

Lemma step_well_typed c rs call rs' :
  c_manager c = false → well_typed rs → group_step c rs call rs' → well_typed rs'.
Proof.
  intros Hc Ht Hs.
  assert (∀ l g us, new_members (r_members rs) l (ordinary_places g us) →
    well_typed (set_members (insert_members l (r_members rs)) rs)) as Hins.
  { intros l g us Hnew. eapply well_typed_insert; eauto using ordinary_valid. }
  assert (∀ g us, well_typed (set_members (remove_members g us (r_members rs)) rs)) as Hrem.
  { intros g us. pose proof Ht as []. apply well_typed_members; [|intros g' u r; rewrite role_in_remove; naive_solver|done].
    intros k m [? _]%map_lookup_filter_Some. auto. }
  destruct Hs; try congruence; try (by eauto using well_typed_group).
  - assert (well_typed (set_members (insert_members l (r_members rs)) rs)) as [].
    { eapply well_typed_insert; eauto using created_valid. }
    split; try done. cbn. intros g' r. rewrite lookup_insert. case_decide; [congruence|auto].
  - apply well_typed_requests; [by constructor|done].
  - by apply well_typed_requests.
  - assert (well_typed (set_members (insert_members l (r_members rs)) rs)) as [].
    { case_match; [eauto|]. by apply new_members_nil in H4 as ->; destruct rs. }
    split; try done; cbn; intros k r'; rewrite lookup_insert; case_decide as Hk; subst; eauto; intros [= <-].
    + rewrite set_Handled_key. by eapply requests_keyed.
    + destruct r. cbn in *. unfold valid_result. destruct H3; auto.
  - apply (well_typed_update (set_members (update_member _ _ _ _) rs)); [|intros r [= <-]; unfold valid_role; auto].
    apply well_typed_update; [done|]. intros r [= <-]. by eapply roles_valid.
  - apply well_typed_update; [done|]. by intros r [=].
  - apply well_typed_update; [done|]. by intros r [=].
  - pose proof Ht as []. apply well_typed_members; [by apply update_members_keyed| |done].
    intros g u r [?|(e' & (i & Hi)%list_elem_of_lookup & _ & Hv & _)]%role_in_updates; [eauto|].
    destruct (Forall2_lookup_r _ _ _ _ _ H0 Hi) as (e & He%list_elem_of_lookup_2 & _ & _ & Hr).
    destruct H2 as [?|Hmay]; [congruence|]. destruct (Hmay e He) as [Hval _].
    destruct (Hval r) as [->| ->]; [congruence|unfold valid_role; auto..].
Qed.
