(* ===== verification/GroupMemory.v ===== *)
(** * The stores of groups in memory

    An [Engine] that keeps everything in finite maps and satisfies
    [EngineLaws]: the witnesses of the group service run on it.  A value is
    encoded as a string by the binary digits of stdpp's encoding of it as a
    positive number, a row as the list of its encoded columns. *)

From Stdlib Require Import Ascii.
From S2P Require Import Prelude.
From S2P Require Import Constants.
From S2P Require Import GroupTypes.
From S2P Require Import Sql.
From S2P Require Import RowCache.
From S2P Require Import GroupStore.
From stdpp Require Import options.
#[local] Set Default Proof Using "Type*".

#[local] Open Scope Z_scope.

(** ** Encoding *)

Fixpoint digits_of (p : positive) : string :=
  match p with
  | xH => ";"
  | xO p => String "0" (digits_of p)
  | xI p => String "1" (digits_of p)
  end.

Fixpoint of_digits (s : string) : option positive :=
  match s with
  | EmptyString => None
  | String c s =>
      if Ascii.eqb c ";" then Some xH
      else p ← of_digits s; Some (if Ascii.eqb c "0" then xO p else xI p)
  end.

Lemma of_digits_of p : of_digits (digits_of p) = Some p.
Proof. induction p as [p IH|p IH|]; cbn; [| |done]; by rewrite IH. Qed.

Section CodeJson.
Context {T : Type} (code : T → positive) (decode : positive → option T).

Definition code_json : Json T := {|
  Marshal t := inl (digits_of (code t));
  Unmarshal s := match of_digits s ≫= decode with Some t => inl t | None => inr (Bare (ErrExternal 400)) end |}.

Lemma code_json_laws : (∀ t, decode (code t) = Some t) → @JsonLaws T code_json.
Proof.
  intros Hd. split; [|done]. intros t s [= <-]. split; [by destruct (code t)|]. cbn.
  rewrite of_digits_of. cbn. by rewrite Hd.
Qed.
End CodeJson.

(** A row as the list of its columns. *)
Definition group_code (g : GroupModel) : positive :=
  let '(mkGroupModel id name ntf intro face create ex status creator type need look apply ntime nuser) := g in
  encode [encode id; encode name; encode ntf; encode intro; encode face; encode create; encode ex;
          encode status; encode creator; encode type; encode need; encode look; encode apply; encode ntime;
          encode nuser].
Definition group_decode (p : positive) : option GroupModel :=
  l ← decode p;
  match l with
  | [a; b; c; d; e; f; g; h; i; j; k; l; m; n; o] =>
      a ← decode a; b ← decode b; c ← decode c; d ← decode d; e ← decode e; f ← decode f; g ← decode g;
      h ← decode h; i ← decode i; j ← decode j; k ← decode k; l ← decode l; m ← decode m; n ← decode n;
      o ← decode o; Some (mkGroupModel a b c d e f g h i j k l m n o)
  | _ => None
  end.
Definition member_code (m : GroupMemberModel) : positive :=
  let '(mkGroupMemberModel g u nick face role join source inviter operator mute ex) := m in
  encode [encode g; encode u; encode nick; encode face; encode role; encode join; encode source;
          encode inviter; encode operator; encode mute; encode ex].
Definition member_decode (p : positive) : option GroupMemberModel :=
  l ← decode p;
  match l with
  | [a; b; c; d; e; f; g; h; i; j; k] =>
      a ← decode a; b ← decode b; c ← decode c; d ← decode d; e ← decode e; f ← decode f; g ← decode g;
      h ← decode h; i ← decode i; j ← decode j; k ← decode k;
      Some (mkGroupMemberModel a b c d e f g h i j k)
  | _ => None
  end.
Definition super_code (s : SuperGroupModel) : positive := encode [encode (Super_GroupID s); encode (Super_MemberIDs s)].
Definition super_decode (p : positive) : option SuperGroupModel :=
  l ← decode p;
  match l with [a; b] => a ← decode a; b ← decode b; Some (mkSuperGroupModel a b) | _ => None end.

Lemma group_decode_code g : group_decode (group_code g) = Some g.
Proof. unfold group_decode, group_code. destruct g. by repeat (rewrite decode_encode; cbn [mbind option_bind]). Qed.
Lemma member_decode_code m : member_decode (member_code m) = Some m.
Proof. unfold member_decode, member_code. destruct m. by repeat (rewrite decode_encode; cbn [mbind option_bind]). Qed.
Lemma super_decode_code s : super_decode (super_code s) = Some s.
Proof. unfold super_decode, super_code. destruct s. by repeat (rewrite decode_encode; cbn [mbind option_bind]). Qed.

(** ** Collections and the cache *)

Definition mem_set_docs : SetDocs (gmap string (list string)) := {|
  docs c := c;
  doc_Insert k l c := match c !! k with
    | None => (inl (), <[k := l]> c) | Some _ => (inr (Bare (ErrExternal 11000)), c) end;
  doc_AddToSet up k xs c := match c !! k with
    | None => (inl (), if up then <[k := remove_dups xs]> c else c)
    | Some l => (inl (), <[k := l ++ remove_dups (filter (.∉ l) xs)]> c)
    end;
  doc_PullOne ks xs c := match filter (λ k, is_Some (c !! k)) ks with
    | [] => (inl (), c)
    | k :: _ => (inl (), <[k := filter (.∉ xs) (default [] (c !! k))]> c)
    end;
  doc_FindOne k c := match c !! k with Some l => inl l | None => inr (Bare MongoNoDocuments) end;
  doc_Find ks c := inl (omap (λ k, pair k <$> c !! k) ks);
  doc_DeleteOne k c := (inl (), delete k c) |}.

Lemma mem_set_docs_laws : @SetDocsLaws _ mem_set_docs.
Proof.
  split; cbn.
  - intros k l c c'. destruct (c !! k) eqn:E; by intros [= <-].
  - intros up k xs c c'. destruct (c !! k) as [l|] eqn:E; intros [= <-]; [|done].
    eexists. split; [done|]. intros x. rewrite elem_of_app, elem_of_remove_dups, list_elem_of_filter.
    destruct (decide (x ∈ l)); tauto.
  - intros ks xs c c'. destruct (filter _ ks) as [|k ks'] eqn:E; intros [= <-].
    + right. split; [|done]. intros k Hk. apply eq_None_not_Some. intros Hs.
      apply (not_elem_of_nil k). rewrite <-E. by apply list_elem_of_filter.
    + left. assert (k ∈ filter (λ k, is_Some (c !! k)) ks) as [[l Hl] Hk]%list_elem_of_filter
        by (rewrite E; by left). exists k, l. by rewrite Hl.
  - intros k c l. destruct (c !! k); by intros [= <-].
  - by intros k c c' [= <-].
Qed.

Definition mem_rocks : Rocks (gmap string string) := {|
  cache_view c := c;
  rc_Lookup k c := (inl (c !! k), c);
  rc_Store k v c := (inl (), <[k := v]> c);
  rc_TagAsDeleted k c := (inl (), delete k c) |}.

Lemma mem_rocks_laws : @RocksLaws _ mem_rocks.
Proof.
  split; cbn.
  - by intros k c v c' [= ? <-].
  - done.
  - done.
  - done.
  - done.
  - by intros k c c' [= <-].
  - intros. apply delete_subseteq.
Qed.

Lemma mem_rocks_tags : @TagSucceeds _ mem_rocks.
Proof. by left. Qed.

Definition mem_special : SpecialError := {|
  RecordNotFound_Is c := bool_decide (c = ErrRecordNotFound ∨ c = ErrUserIDNotFound ∨ c = ErrGroupIDNotFound);
  ErrCode c := match c with GormNotFound | MongoNoDocuments => ErrRecordNotFound | _ => c end |}.

Lemma mem_special_laws : @SpecialErrorLaws mem_special.
Proof. by split. Qed.

(** ** The engine *)

Definition mem_engine : Engine := {|
  groups_table := mem_table Group_GroupID;
  members_table := mem_table member_key;
  requests_table := mem_table request_key;
  super_groups := mem_set_docs;
  user_super_groups := mem_set_docs;
  row_cache := mem_rocks;
  json_group := code_json group_code group_decode;
  json_member := code_json member_code member_decode;
  json_super := code_json super_code super_decode;
  json_ids := code_json encode decode;
  json_num := code_json encode decode;
  json_hash := code_json encode decode;
  special_error := mem_special;
  sql_Begin _ _ _ := None;
  sql_Commit _ _ _ := None;
  mongo_transactions := true |}.

Lemma mem_engine_laws : @EngineLaws mem_engine.
Proof.
  split; try done; try apply mem_table_laws; try apply mem_set_docs_laws.
  - apply mem_rocks_laws.
  - apply code_json_laws, group_decode_code.
  - apply code_json_laws, member_decode_code.
  - apply code_json_laws, decode_encode.
  - apply code_json_laws, decode_encode.
  - apply code_json_laws, decode_encode.
  - apply code_json_laws, super_decode_code.
Qed.
