(* ===== verification/GroupCoherence.v ===== *)
(** * Coherence of the cache of groups

    [Inv w]: what the cache of [w] holds agrees with the tables: the row of a
    group or of a member, the ids and the number of a group's members, the groups
    of a user.  The functions that read keep the tables and [Inv] ([still]); in a
    state with [Inv] they answer what the tables hold.  A change of the tables
    keeps [Inv] when the keys it makes stale are deleted ([Inv_change]), which is
    what the changes of the group database do. *)

From Stdlib Require Import Ascii.
From S2P Require Import Prelude.
From S2P Require Import Constants.
From S2P Require Import GroupTypes.
From S2P Require Import Sql.
From S2P Require Import RowCache.
From S2P Require Import RowCoherence.
From S2P Require Import GroupStore.
From S2P Require Import GroupCache.
From S2P Require Import GroupDatabase.
From S2P Require Import Tools.
From stdpp Require Import options.
#[local] Set Default Proof Using "Type*".

#[local] Open Scope Z_scope.

Section Coherence.
Context `{EngineLaws} {E : Type}.
Abbreviation W := (World E).
Implicit Types (t : Tables) (w : W).

(** The members of a group, the groups of a user. *)
Definition group_users t (g : string) : gset string :=
  set_map snd (filter (λ k : string * string, k.1 = g) (dom (member_rows t))).
Definition user_groups t (u : string) : gset string :=
  set_map fst (filter (λ k : string * string, k.2 = u) (dom (member_rows t))).

Lemma elem_of_group_users t g u : u ∈ group_users t g ↔ is_Some (member_rows t !! (g, u)).
Proof.
  unfold group_users. rewrite elem_of_map. setoid_rewrite elem_of_filter. setoid_rewrite elem_of_dom.
  split; [by intros ([g' u'] & -> & <- & ?)|]. intros ?. by exists (g, u).
Qed.
Lemma elem_of_user_groups t g u : g ∈ user_groups t u ↔ is_Some (member_rows t !! (g, u)).
Proof.
  unfold user_groups. rewrite elem_of_map. setoid_rewrite elem_of_filter. setoid_rewrite elem_of_dom.
  split; [by intros ([g' u'] & -> & <- & ?)|]. intros ?. by exists (g, u).
Qed.

Record entry_ok t (k s : string) : Prop := {
  entry_nonempty : s ≠ "";
  entry_group g : k = getGroupInfoKey g → ∃ r, Unmarshal s = inl r ∧ group_rows t !! g = Some r;
  entry_member g u : dash_free g → k = getGroupMemberInfoKey g u →
    ∃ r, Unmarshal s = inl r ∧ member_rows t !! (g, u) = Some r;
  entry_ids g : k = getGroupMemberIDsKey g →
    ∃ l, Unmarshal s = inl l ∧ is_list_of (group_users t g) l;
  entry_num g : k = getGroupMemberNumKey g →
    Unmarshal s = inl (Z.of_nat (size (group_users t g)));
  entry_joined u : k = getJoinedGroupsKey u →
    ∃ l, Unmarshal s = inl l ∧ is_list_of (user_groups t u) l }.

Definition coherent w : Prop := ∀ k s, cache_view (w_cache w) !! k = Some s → entry_ok (w_tables w) k s.

(** A member is in a group that exists, and the ids of groups have no dash, so
    that the keys of members are told apart. *)
Record ids_ok t : Prop := {
  member_of_group g u : is_Some (member_rows t !! (g, u)) → is_Some (group_rows t !! g);
  group_dash_free g : is_Some (group_rows t !! g) → dash_free g }.

Definition Inv w : Prop := coherent w ∧ ids_ok (w_tables w).

(** ** Reading *)

(** The tables stay, and so does [Inv]. *)
Definition still w w' : Prop := w_tables w' = w_tables w ∧ (Inv w → Inv w').

#[export] Instance still_preorder : PreOrder still.
Proof. split; [by intros w|]. intros w1 w2 w3 [Ht Hi] [Ht' Hi']. split; [congruence|auto]. Qed.

(** Only the cache has changed. *)
Definition looks w w' : Prop := still w w' ∧ w_super w' = w_super w ∧ w_env w' = w_env w.

#[export] Instance looks_preorder : PreOrder looks.
Proof.
  split; [by intros w|]. intros w1 w2 w3 (? & Hs & He) (? & Hs' & He').
  split; [by etrans|]. split; congruence.
Qed.

Lemma looks_still w w' : looks w w' → still w w'.
Proof. by intros [? _]. Qed.
#[export] Instance moves_looks {A} (m : M W A) : Moves looks m → Moves still m | 10.
Proof. intros Hm w. apply looks_still, Hm. Qed.

Lemma looks_put_cache c w : cache_view c ⊆ cache_view (w_cache w) → looks w (put_cache c w).
Proof.
  intros Hc. split; [|done]. split; [done|]. intros [Hco Hid]. split; [|done].
  intros k s Hs. apply Hco. by eapply lookup_weaken.
Qed.

Lemma forgets_looks w w' : forgets w_cache put_cache w w' → looks w w'.
Proof. intros (c & -> & Hc). by apply looks_put_cache. Qed.

Lemma get_put_cache c w : w_cache (put_cache c w) = c.
Proof. done. Qed.
Lemma put_put_cache c c' w : put_cache c (put_cache c' w) = put_cache c w.
Proof. done. Qed.
Lemma put_get_cache w : put_cache (w_cache w) w = w.
Proof. by destruct w. Qed.

#[export] Instance moves_on_env {A} (m : M E A) : Moves still (on_env m).
Proof. intros w. unfold on_env, zoom. by destruct (m (w_env w)), w. Qed.
#[export] Instance moves_on_super {A} (m : M SuperDocs A) : Moves still (on_super m).
Proof. intros w. unfold on_super, zoom. by destruct (m (w_super w)), w. Qed.
#[export] Instance moves_exec_del ks : Moves looks (exec_del ks).
Proof.
  intros w. eapply forgets_looks, ExecDel_forgets;
    eauto using get_put_cache, put_put_cache, put_get_cache.
Qed.

Lemma looks_Inv w w' : looks w w' → Inv w → Inv w'.
Proof. intros [[_ ?] _]. auto. Qed.
Lemma looks_tables w w' : looks w w' → w_tables w' = w_tables w.
Proof. by intros [[? _] _]. Qed.

Lemma coherent_store w key s c :
  Inv w → entry_ok (w_tables w) key s → cache_view c ⊆ <[key := s]> (cache_view (w_cache w)) →
  Inv (put_cache c w).
Proof.
  intros [Hco Hid] He Hc. split; [|done]. intros k s' Hs. cbn in Hs.
  eapply lookup_weaken in Hs; [|exact Hc]. rewrite lookup_insert in Hs. case_decide as Hk.
  - by injection Hs as <-; subst.
  - by apply Hco.
Qed.

(** A read through the cache of a query whose answers may be stored. *)
Definition storable {T} `{Json T} (key : string) (f : M Tables T) : Prop :=
  ∀ t, ids_ok t → wp f (λ r _, match r with
    | Ok a => ∀ s, Marshal a = inl s → entry_ok t key s | _ => True end) t.

Lemma wp_get_cache_any {T} `{JsonLaws T} key (f : M Tables T) `{!ReadOnly f}
    (Q : outcome T → W → Prop) w :
  storable key f →
  (∀ w' s, looks w w' → cache_view (w_cache w) !! key = Some s →
     Q (if bool_decide (s = "") then Err (Wrap ErrRecordNotFound "cache is not found")
        else match Unmarshal s with inl t => Ok t | inr e => Err (WrapErr "" e) end) w') →
  (∀ w', looks w w' → wp f (λ r _, Q r w') (w_tables w)) →
  (∀ w' e, looks w w' → external e → Q (Err e) w') →
  wp (get_cache key (on_tables f)) Q w.
Proof.
  intros Hst Hhit Hmiss Herr.
  eapply (wp_getCache w_cache put_cache get_put_cache put_put_cache put_get_cache).
  - intros w' s Hf Hs Hn. specialize (Hhit _ _ (forgets_looks _ _ Hf) Hs).
    by rewrite bool_decide_eq_false_2 in Hhit.
  - intros w' Hf Hs. exact (Hhit _ _ (forgets_looks _ _ Hf) Hs).
  - intros w' e Hf He. apply Herr; [by apply forgets_looks|done].
  - intros w' Hf. pose proof (forgets_looks _ _ Hf) as Hl.
    assert (w_tables w' = w_tables w) as Ht by apply (looks_tables _ _ Hl).
    apply wp_eq. assert ((on_tables (E:=E) f w') = ((f (w_tables w)).1, w')) as ->.
    { pose proof (read_only (m:=on_tables (E:=E) f) w') as Hr. unfold on_tables, zoom in *.
      rewrite Ht in *. destruct (f (w_tables w)) as [r t]. cbn in *. by rewrite Hr. }
    cbn [fst snd]. setoid_rewrite wp_eq in Hmiss. specialize (Hst (w_tables w)). rewrite wp_eq in Hst.
    destruct (f (w_tables w)).1 as [a|e| |]; auto.
    destruct (Marshal a) as [s|e] eqn:Em.
    + intros r2 c Hc Hr2. assert (looks w (put_cache c w')) as Hl'.
      { split; [|apply Hl]. destruct Hl as [[Ht' Hi] _]. split; [done|].
        intros HI'. eapply coherent_store; [by apply Hi| |exact Hc]. rewrite Ht.
        apply Hst; [apply HI'|done]. }
      destruct Hr2 as [->|(e & He & ->)]; [by apply Hmiss|by apply Herr].
    + apply Herr; [done|]. apply wrap_external. by eapply Marshal_err.
Qed.

Lemma moves_get_cache {T} `{JsonLaws T} key (f : M Tables T) `{!ReadOnly f} :
  storable key f → Moves looks (get_cache key (on_tables f)).
Proof.
  intros Hst. apply moves_wp. intros w. apply wp_get_cache_any; auto. intros w' Hl. by apply wp_val.
Qed.

Lemma wp_get_cache {T} `{JsonLaws T} key (f : M Tables T) `{!ReadOnly f}
    (Q : outcome T → W → Prop) w :
  storable key f → Inv w →
  (∀ w' s, looks w w' → entry_ok (w_tables w) key s →
     Q (match Unmarshal s with inl t => Ok t | inr e => Err (WrapErr "" e) end) w') →
  (∀ w', looks w w' → wp f (λ r _, Q r w') (w_tables w)) →
  (∀ w' e, looks w w' → external e → Q (Err e) w') →
  wp (get_cache key (on_tables f)) Q w.
Proof.
  intros Hst HI Hhit Hmiss Herr. apply wp_get_cache_any; auto.
  intros w' s Hl Hs. apply HI in Hs. pose proof (entry_nonempty _ _ _ Hs).
  rewrite bool_decide_eq_false_2 by done. by apply Hhit.
Qed.

(** A key that holds no data of the tables. *)
Lemma moves_get_cache_other {T} `{JsonLaws T} key (fn : M W T) :
  (∀ t s, s ≠ "" → entry_ok t key s) → Moves still fn → Moves still (get_cache key fn).
Proof.
  intros Hk Hfn. apply moves_wp. intros w.
  apply (wp_getCache w_cache put_cache get_put_cache put_put_cache put_get_cache).
  - intros w' s Hf _ _. by apply looks_still, forgets_looks.
  - intros w' Hf _. by apply looks_still, forgets_looks.
  - intros w' e Hf _. by apply looks_still, forgets_looks.
  - intros w' Hf%forgets_looks%looks_still. apply (wp_moves still fn).
    intros [t|e| |] w1 Hs; try (by etrans). destruct (Marshal t) as [s|e] eqn:Em; [|by etrans].
    intros r2 c Hc _. etrans; [exact Hf|]. etrans; [exact Hs|]. split; [done|]. intros HI.
    eapply coherent_store; [exact HI| |exact Hc]. apply Hk. by eapply Unmarshal_Marshal.
Qed.

(** ** The queries behind the cache *)

Lemma wp_groups_query {A} (f : TG → A + error) (Q : outcome A → Tables → Prop) t :
  (∀ a, f (t_groups t) = inl a → Q (Ok a) t) → (∀ e, f (t_groups t) = inr e → Q (Err e) t) →
  wp (groups_stmt (query f)) Q t.
Proof. intros Ha He. apply wp_groups_stmt. intros r g [= <- <-]. destruct t as [tg tm tr]. cbn in *. destruct (f tg); cbn; auto. Qed.
Lemma wp_members_query {A} (f : TM → A + error) (Q : outcome A → Tables → Prop) t :
  (∀ a, f (t_members t) = inl a → Q (Ok a) t) → (∀ e, f (t_members t) = inr e → Q (Err e) t) →
  wp (members_stmt (query f)) Q t.
Proof. intros Ha He. apply wp_members_stmt. intros r g [= <- <-]. destruct t as [tg tm tr]. cbn in *. destruct (f tm); cbn; auto. Qed.
Lemma wp_requests_query {A} (f : TR → A + error) (Q : outcome A → Tables → Prop) t :
  (∀ a, f (t_requests t) = inl a → Q (Ok a) t) → (∀ e, f (t_requests t) = inr e → Q (Err e) t) →
  wp (requests_stmt (query f)) Q t.
Proof. intros Ha He. apply wp_requests_stmt. intros r g [= <- <-]. destruct t as [tg tm tr]. cbn in *. destruct (f tr); cbn; auto. Qed.

Lemma wp_on_tables {A} (f : M Tables A) (Q : outcome A → W → Prop) w :
  wp f (λ r t, Q r (put_tables t w)) (w_tables w) → wp (on_tables f) Q w.
Proof. apply wp_zoom. Qed.
Lemma put_get_tables w : put_tables (w_tables w) w = w.
Proof. by destruct w. Qed.

(** The error of a record that is not there. *)
Definition not_found : error := Wrap GormNotFound "".

Lemma wp_Take_group g (Q : outcome GroupModel → Tables → Prop) t :
  (∀ r, group_rows t !! g = Some r → Group_GroupID r = g → Q (Ok r) t) →
  (group_rows t !! g = None → Q (Err not_found) t) →
  (∀ e, external e → Q (Err e) t) →
  wp (GroupGorm_Take g) Q t.
Proof.
  intros Hs Hn He. apply wp_wrap_error, wp_groups_query.
  - intros r [Hp Hr]%Take_ok. unfold has_group in Hp. bool_facts. rewrite groups_key in Hr. subst g. by apply Hs.
  - intros e [[-> Hnone]|Hx]%Take_err; [|by apply He, wrap_external]. apply Hn.
    apply eq_None_not_Some. intros [r Hr]. pose proof (Hnone _ _ Hr) as Hp.
    apply rows_key in Hr. rewrite groups_key in Hr. unfold has_group in Hp. bool_facts. done.
Qed.

Lemma wp_Take_member g u (Q : outcome GroupMemberModel → Tables → Prop) t :
  (∀ r, member_rows t !! (g, u) = Some r → member_key r = (g, u) → Q (Ok r) t) →
  (member_rows t !! (g, u) = None → Q (Err not_found) t) →
  (∀ e, external e → Q (Err e) t) →
  wp (GroupMemberGorm_Take g u) Q t.
Proof.
  intros Hs Hn He. apply wp_wrap_error, wp_members_query.
  - intros r [Hp Hr]%Take_ok. rewrite has_member_key in Hp. bool_facts. rewrite members_key, Hp in Hr. by apply Hs.
  - intros e [[-> Hnone]|Hx]%Take_err; [|by apply He, wrap_external]. apply Hn.
    apply eq_None_not_Some. intros [r Hr]. pose proof (Hnone _ _ Hr) as Hp.
    apply rows_key in Hr. rewrite members_key in Hr. rewrite has_member_key in Hp. bool_facts. done.
Qed.

(** The rows of a group, or of a user, have distinct users, or groups. *)
Lemma find_members_key t p l : sql_Find p (t_members t) = inl l →
  NoDup (member_key <$> l) ∧ ∀ m, m ∈ l ↔ p m = true ∧ member_rows t !! member_key m = Some m.
Proof.
  intros Hl. split.
  - pose proof Hl as Hp%Find_ok. rewrite Hp.
    replace (member_key <$> _) with (map_to_list (filter (λ kr, p kr.2 = true) (member_rows t))).*1;
      [apply NoDup_fst_map_to_list|].
    rewrite <-list_fmap_compose. apply list_fmap_ext. intros i [k r] Hk%list_elem_of_lookup_2. cbn.
    apply elem_of_map_to_list, map_lookup_filter_Some in Hk as [Hk%rows_key _]. by rewrite members_key in Hk.
  - intros m. rewrite (Find_elem _ _ _ _ Hl). by rewrite members_key.
Qed.

Lemma find_group_users t g l :
  sql_Find (λ m, bool_decide (Member_GroupID m = g)) (t_members t) = inl l →
  is_list_of (group_users t g) (Member_UserID <$> l).
Proof.
  intros [Hn Hl]%find_members_key. split.
  - apply NoDup_fmap_2_strong; [|by eapply NoDup_fmap_1].
    intros x y [Hpx Hx]%Hl [Hpy Hy]%Hl Hu. bool_facts. unfold member_key in *. congruence.
  - apply set_eq. intros u. rewrite elem_of_list_to_set, elem_of_group_users, list_elem_of_fmap. split.
    + intros (m & -> & [Hp Hm]%Hl). bool_facts. subst g. by exists m.
    + intros [m Hm]. exists m. pose proof Hm as Hk%rows_key. rewrite members_key in Hk.
      split; [by injection Hk|]. apply Hl. rewrite Hk. injection Hk as Hg _. by rewrite bool_decide_eq_true_2.
Qed.
Lemma find_user_groups t u l :
  sql_Find (λ m, bool_decide (Member_UserID m = u)) (t_members t) = inl l →
  is_list_of (user_groups t u) (Member_GroupID <$> l).
Proof.
  intros [Hn Hl]%find_members_key. split.
  - apply NoDup_fmap_2_strong; [|by eapply NoDup_fmap_1].
    intros x y [Hpx Hx]%Hl [Hpy Hy]%Hl Hu. bool_facts. unfold member_key in *. congruence.
  - apply set_eq. intros g. rewrite elem_of_list_to_set, elem_of_user_groups, list_elem_of_fmap. split.
    + intros (m & -> & [Hp Hm]%Hl). bool_facts. subst u. by exists m.
    + intros [m Hm]. exists m. pose proof Hm as Hk%rows_key. rewrite members_key in Hk.
      split; [by injection Hk|]. apply Hl. rewrite Hk. injection Hk as _ Hu. by rewrite bool_decide_eq_true_2.
Qed.

Lemma is_list_of_length s l : is_list_of s l → len l = Z.of_nat (size s).
Proof. intros [Hn <-]. unfold len. by rewrite size_list_to_set. Qed.

Lemma wp_FindMemberUserID g (Q : outcome (list string) → Tables → Prop) t :
  (∀ l, is_list_of (group_users t g) l → Q (Ok l) t) → (∀ e, external e → Q (Err e) t) →
  wp (FindMemberUserID g) Q t.
Proof.
  intros Hl He. apply wp_wrap_error, wp_bind, wp_members_query.
  - intros l E1%find_group_users. by apply wp_ret, Hl.
  - intros e E1%Find_err. by apply He, wrap_external.
Qed.

Lemma wp_FindUserJoinedGroupID u (Q : outcome (list string) → Tables → Prop) t :
  (∀ l, is_list_of (user_groups t u) l → Q (Ok l) t) → (∀ e, external e → Q (Err e) t) →
  wp (FindUserJoinedGroupID u) Q t.
Proof.
  intros Hl He. apply wp_wrap_error, wp_bind, wp_members_query.
  - intros l E1%find_user_groups. by apply wp_ret, Hl.
  - intros e E1%Find_err. by apply He, wrap_external.
Qed.

Lemma wp_TakeGroupMemberNum g (Q : outcome Z → Tables → Prop) t :
  Q (Ok (Z.of_nat (size (group_users t g)))) t → (∀ e, external e → Q (Err e) t) →
  wp (TakeGroupMemberNum g) Q t.
Proof.
  intros Hl He. apply wp_wrap_error, wp_bind, wp_members_query.
  - intros l E1%find_group_users%is_list_of_length. apply wp_ret. unfold len in *.
    rewrite length_fmap in E1. by rewrite E1.
  - intros e E1%Find_err. by apply He, wrap_external.
Qed.

(** ** What may be stored under each kind of key *)

Ltac other_key := intros; exfalso; match goal with
  | Hk : _ = _ |- _ => discriminate Hk
  end.

Lemma storable_group g : storable (getGroupInfoKey g) (GroupGorm_Take g).
Proof.
  intros t _. apply wp_Take_group; [|done..]. intros r Hr _ s Hs.
  apply Unmarshal_Marshal in Hs as [Hn Hs]. split; [done| |other_key..].
  intros g' ->%(inj _). eauto.
Qed.

Lemma storable_member g u : storable (getGroupMemberInfoKey g u) (GroupMemberGorm_Take g u).
Proof.
  intros t Hid. apply wp_Take_member; [|done..]. intros r Hr _ s Hs.
  apply Unmarshal_Marshal in Hs as [Hn Hs]. split; [done|other_key| |other_key..].
  intros g' u' Hg' [-> ->]%member_info_key_inj; [eauto| |done].
  eapply group_dash_free, member_of_group; eauto.
Qed.

Lemma storable_ids g : storable (getGroupMemberIDsKey g) (FindMemberUserID g).
Proof.
  intros t _. apply wp_FindMemberUserID; [|done]. intros l Hl s Hs.
  apply Unmarshal_Marshal in Hs as [Hn Hs]. split; [done|other_key|other_key| |other_key..].
  intros g' ->%(inj _). eauto.
Qed.

Lemma storable_num g : storable (getGroupMemberNumKey g) (TakeGroupMemberNum g).
Proof.
  intros t _. apply wp_TakeGroupMemberNum; [|done]. intros s Hs.
  apply Unmarshal_Marshal in Hs as [Hn Hs]. split; [done|other_key|other_key|other_key| |other_key].
  intros g' ->%(inj _). eauto.
Qed.

Lemma storable_joined u : storable (getJoinedGroupsKey u) (FindUserJoinedGroupID u).
Proof.
  intros t _. apply wp_FindUserJoinedGroupID; [|done]. intros l Hl s Hs.
  apply Unmarshal_Marshal in Hs as [Hn Hs]. split; [done|other_key..|].
  intros g' ->%(inj _). eauto.
Qed.

(** ** Reading through the cache *)

#[export] Instance read_only_GroupGorm_Take g : ReadOnly (GroupGorm_Take g).
Proof. unfold GroupGorm_Take. apply _. Qed.
#[export] Instance read_only_GroupMemberGorm_Take g u : ReadOnly (GroupMemberGorm_Take g u).
Proof. unfold GroupMemberGorm_Take. apply _. Qed.
#[export] Instance moves_GetGroupInfo g : Moves looks (GetGroupInfo g).
Proof. apply moves_get_cache; [apply _|apply storable_group]. Qed.
#[export] Instance moves_GetGroupMemberInfo g u : Moves looks (GetGroupMemberInfo g u).
Proof. apply moves_get_cache; [apply _|apply storable_member]. Qed.
#[export] Instance read_only_FindMemberUserID g : ReadOnly (FindMemberUserID g).
Proof. unfold FindMemberUserID. apply _. Qed.
#[export] Instance read_only_FindUserJoinedGroupID u : ReadOnly (FindUserJoinedGroupID u).
Proof. unfold FindUserJoinedGroupID. apply _. Qed.
#[export] Instance read_only_TakeGroupMemberNum g : ReadOnly (TakeGroupMemberNum g).
Proof. unfold TakeGroupMemberNum. apply _. Qed.
#[export] Instance moves_GetGroupMemberIDs g : Moves looks (GetGroupMemberIDs g).
Proof. apply moves_get_cache; [apply _|apply storable_ids]. Qed.
#[export] Instance moves_GetJoinedGroupIDs u : Moves looks (GetJoinedGroupIDs u).
Proof. apply moves_get_cache; [apply _|apply storable_joined]. Qed.
#[export] Instance moves_GetGroupMemberNum g : Moves looks (GetGroupMemberNum g).
Proof. apply moves_get_cache; [apply _|apply storable_num]. Qed.

Lemma wp_GetGroupInfo g (Q : outcome GroupModel → W → Prop) w :
  Inv w →
  (∀ w' r, looks w w' → group_rows (w_tables w) !! g = Some r → Group_GroupID r = g → Q (Ok r) w') →
  (∀ w', looks w w' → group_rows (w_tables w) !! g = None → Q (Err not_found) w') →
  (∀ w' e, looks w w' → external e → Q (Err e) w') →
  wp (GetGroupInfo g) Q w.
Proof.
  intros HI Hs Hn He. apply wp_get_cache; [apply _|apply storable_group|done| | |done].
  - intros w' s Hl Hk. destruct (entry_group _ _ _ Hk g eq_refl) as (r & -> & Hr).
    apply Hs; [done..|]. apply rows_key in Hr. by rewrite groups_key in Hr.
  - intros w' Hl. apply wp_Take_group; auto.
Qed.

Lemma wp_GetGroupMemberInfo g u (Q : outcome GroupMemberModel → W → Prop) w :
  Inv w → dash_free g →
  (∀ w' r, looks w w' → member_rows (w_tables w) !! (g, u) = Some r → member_key r = (g, u) →
     Q (Ok r) w') →
  (∀ w', looks w w' → member_rows (w_tables w) !! (g, u) = None → Q (Err not_found) w') →
  (∀ w' e, looks w w' → external e → Q (Err e) w') →
  wp (GetGroupMemberInfo g u) Q w.
Proof.
  intros HI Hg Hs Hn He. apply wp_get_cache; [apply _|apply storable_member|done| | |done].
  - intros w' s Hl Hk. destruct (entry_member _ _ _ Hk g u Hg eq_refl) as (r & -> & Hr).
    apply Hs; [done..|]. apply rows_key in Hr. by rewrite members_key in Hr.
  - intros w' Hl. apply wp_Take_member; auto.
Qed.

Lemma wp_GetGroupMemberIDs g (Q : outcome (list string) → W → Prop) w :
  Inv w →
  (∀ w' l, looks w w' → is_list_of (group_users (w_tables w) g) l → Q (Ok l) w') →
  (∀ w' e, looks w w' → external e → Q (Err e) w') →
  wp (GetGroupMemberIDs g) Q w.
Proof.
  intros HI Hs He. apply wp_get_cache; [apply _|apply storable_ids|done| | |done].
  - intros w' s Hl Hk. destruct (entry_ids _ _ _ Hk g eq_refl) as (l & -> & Hr). by apply Hs.
  - intros w' Hl. apply wp_FindMemberUserID; auto.
Qed.

Lemma wp_GetJoinedGroupIDs u (Q : outcome (list string) → W → Prop) w :
  Inv w →
  (∀ w' l, looks w w' → is_list_of (user_groups (w_tables w) u) l → Q (Ok l) w') →
  (∀ w' e, looks w w' → external e → Q (Err e) w') →
  wp (GetJoinedGroupIDs u) Q w.
Proof.
  intros HI Hs He. apply wp_get_cache; [apply _|apply storable_joined|done| | |done].
  - intros w' s Hl Hk. destruct (entry_joined _ _ _ Hk u eq_refl) as (l & -> & Hr). by apply Hs.
  - intros w' Hl. apply wp_FindUserJoinedGroupID; auto.
Qed.

Lemma wp_GetGroupMemberNum g (Q : outcome Z → W → Prop) w :
  Inv w →
  (∀ w', looks w w' → Q (Ok (Z.of_nat (size (group_users (w_tables w) g)))) w') →
  (∀ w' e, looks w w' → external e → Q (Err e) w') →
  wp (GetGroupMemberNum g) Q w.
Proof.
  intros HI Hs He. apply wp_get_cache; [apply _|apply storable_num|done| | |done].
  - intros w' s Hl Hk. rewrite (entry_num _ _ _ Hk g eq_refl). by apply Hs.
  - intros w' Hl. apply wp_TakeGroupMemberNum; auto.
Qed.

(** *** Several keys *)

#[export] Instance moves_batch {T} `{Json T} (ks : list string) kf (fns : string → M W T) (R : relation W) `{!PreOrder R} :
  (∀ k, Moves R (getCache w_cache put_cache (kf k) (fns k))) →
  Moves R (batchGetCache2 w_cache put_cache ks kf fns).
Proof. intros Hm. unfold batchGetCache2. apply _. Qed.
#[export] Instance moves_GetGroupsInfo gs : Moves looks (GetGroupsInfo gs).
Proof. unfold GetGroupsInfo. apply moves_batch; [apply _|]. intros g. apply moves_GetGroupInfo. Qed.
#[export] Instance moves_GetGroupMembersInfo g us : Moves looks (GetGroupMembersInfo g us).
Proof. unfold GetGroupMembersInfo. apply moves_batch; [apply _|]. intros u. apply moves_GetGroupMemberInfo. Qed.

(** The members among some users, in the order asked for: all of them. *)
Lemma wp_GetGroupMembersInfo g us (Q : outcome (list GroupMemberModel) → W → Prop) w :
  Inv w → dash_free g →
  (∀ w', looks w w' → Q (Ok (omap (λ u, member_rows (w_tables w) !! (g, u)) us)) w') →
  (∀ w' e, looks w w' → external e → Q (Err e) w') →
  wp (GetGroupMembersInfo g us) Q w.
Proof.
  intros HI Hg Hs He. unfold GetGroupMembersInfo, batchGetCache2.
  apply wp_fold_each with (I := λ us' res w', looks w w' ∧
    res = omap (λ u, member_rows (w_tables w) !! (g, u)) us'); [done| |].
  - intros us' u rest res w' -> [Hl ->]. apply wp_bind, wp_try.
    assert (∀ o w'', looks w' w'' → member_rows (w_tables w) !! (g, u) = o →
      looks w w'' ∧ omap (λ u, member_rows (w_tables w) !! (g, u)) us' ++ option_list o
        = omap (λ u, member_rows (w_tables w) !! (g, u)) (us' ++ [u])) as Hstep.
    { intros o w'' Hl' Ho. split; [by etrans|]. rewrite omap_app. cbn. rewrite Ho. by destruct o. }
    apply (wp_GetGroupMemberInfo g u); [by eapply looks_Inv|done|..]; rewrite ?(looks_tables _ _ Hl).
    + intros w'' r Hl' Hr _. apply wp_ret. by apply (Hstep (Some r)).
    + intros w'' Hl' Hr. rewrite IsNotFound_gorm by done. apply wp_ret.
      rewrite <-(app_nil_r (omap _ us')). by apply (Hstep None).
    + intros w'' e Hl' Hx. rewrite IsNotFound_external by done. apply wp_fail, He; [by etrans|done].
  - intros res w' [Hl ->]. by apply Hs.
Qed.

(** *** Keys without data of the tables *)

Lemma super_members_entry g t s : s ≠ "" → entry_ok t (getSuperGroupMemberIDsKey g) s.
Proof. intros Hs. split; [done|other_key..]. Qed.
Lemma joined_super_entry u t s : s ≠ "" → entry_ok t (getJoinedSuperGroupsIDKey u) s.
Proof. intros Hs. split; [done|other_key..]. Qed.
Lemma members_hash_entry g t s : s ≠ "" → entry_ok t (getGroupMembersHashKey g) s.
Proof. intros Hs. split; [done|other_key..]. Qed.

#[export] Instance moves_GetSuperGroupMemberIDs gs : Moves still (GetSuperGroupMemberIDs gs).
Proof.
  unfold GetSuperGroupMemberIDs. apply moves_batch; [apply _|]. intros g.
  apply moves_get_cache_other; [apply super_members_entry|apply _].
Qed.
#[export] Instance moves_GetJoinedSuperGroupIDs u : Moves still (GetJoinedSuperGroupIDs u).
Proof. apply moves_get_cache_other; [apply joined_super_entry|apply _]. Qed.
Lemma moves_GetGroupMembersHash hashCode g : (∀ g, Moves still (hashCode g)) →
  Moves still (GetGroupMembersHash hashCode g).
Proof. intros Hh. apply moves_get_cache_other; [apply members_hash_entry|apply Hh]. Qed.

#[export] Instance moves_CtxTransaction {A} (m : M W A) : Moves still m → Moves still (CtxTransaction m).
Proof.
  intros Hm w. specialize (Hm w). unfold CtxTransaction. destruct (m w) as [r w']. cbn in Hm.
  assert (still w (put_super (w_super w) w')) as Hp.
  { destruct Hm as [Ht Hi]. split; [done|]. intros HI. by destruct (Hi HI). }
  destruct r; cbn; try done; by destruct mongo_transactions.
Qed.
End Coherence.
