(* ===== verification/GroupChanges.v ===== *)
(** * The changes of the group database

    What each change of GroupDatabase.v does to the rows, and that it keeps the
    cache coherent: the keys it deletes are those that the change makes stale.
    A change that fails leaves the rows as they were. *)

From S2P Require Import Prelude.
From S2P Require Import Constants.
From S2P Require Import GroupTypes.
From S2P Require Import Sql.
From S2P Require Import RowCache.
From S2P Require Import GroupStore.
From S2P Require Import GroupCache.
From S2P Require Import GroupDatabase.
From S2P Require Import GroupSpec.
From S2P Require Import GroupCoherence.
From S2P Require Import Tools.
From stdpp Require Import options.
#[local] Set Default Proof Using "Type*".

#[local] Open Scope Z_scope.

Section CreatedKeys.
Context `{ToolsLaws}.

(** The keys of the groups and of the users of new members. *)
Lemma created_members_keys_spec l m : m ∈ l → ∀ k,
  k ∈ [getGroupMemberIDsKey (Member_GroupID m); getGroupMemberNumKey (Member_GroupID m);
       getJoinedGroupsKey (Member_UserID m)] → k ∈ created_members_keys l [].
Proof.
  unfold created_members_keys. set (step := λ '(c, m) groupMember, _).
  assert (∀ l m, (m ∈ l → ∀ k, k ∈ [getGroupMemberIDsKey (Member_GroupID m);
      getGroupMemberNumKey (Member_GroupID m); getJoinedGroupsKey (Member_UserID m)] →
      k ∈ (foldl step ([], []) l).1) ∧
    (∀ g, g ∈ (foldl step ([], []) l).2 → getGroupMemberIDsKey g ∈ (foldl step ([], []) l).1 ∧
      getGroupMemberNumKey g ∈ (foldl step ([], []) l).1)) as Hall; [|by intros Hm; apply Hall].
  clear l m. intros l m. induction l as [|x l [IH1 IH2]] using rev_ind.
  { split; [by intros ?%elem_of_nil|]. by intros g ?%elem_of_nil. }
  rewrite foldl_app. cbn [foldl]. destruct (foldl step ([], []) l) as [c seen]. unfold step. cbn in *.
  rewrite Contain_spec. unfold DelGroupsMemberNum, DelGroupMembersHash, DelGroupMemberIDs,
    DelGroupMembersInfo, DelJoinedGroupID. case_bool_decide as Hin; cbn.
  - split; [|set_solver]. intros [Hm| ->%list_elem_of_singleton]%elem_of_app k Hk; [set_solver|].
    destruct (IH2 _ Hin). set_solver.
  - split; [|set_solver]. intros [Hm| ->%list_elem_of_singleton]%elem_of_app k Hk; set_solver.
Qed.
End CreatedKeys.

Section Changes.
Context `{EngineLaws} `{!TagSucceeds RC} {E : Type}.
Abbreviation W := (World E).
Implicit Types (t : Tables) (w : W).

Definition rows_of t : Rows := mkRows (group_rows t) (member_rows t) (request_rows t).

Lemma same_rows_of t t' : same_rows t t' → rows_of t' = rows_of t.
Proof. unfold rows_of. by intros (-> & -> & ->). Qed.

(** The keys that a change of the tables makes stale are among [ks]. *)
Record stale_in t t' (ks : list string) : Prop := {
  stale_group g : group_rows t' !! g = group_rows t !! g ∨ group_rows t !! g = None ∨ getGroupInfoKey g ∈ ks;
  stale_member g u : dash_free g → member_rows t' !! (g, u) = member_rows t !! (g, u) ∨
    member_rows t !! (g, u) = None ∨ getGroupMemberInfoKey g u ∈ ks;
  stale_users g : group_users t' g = group_users t g ∨
    getGroupMemberIDsKey g ∈ ks ∧ getGroupMemberNumKey g ∈ ks;
  stale_joined u : user_groups t' u = user_groups t u ∨ getJoinedGroupsKey u ∈ ks }.

Lemma entry_ok_change t t' ks k s :
  stale_in t t' ks → k ∉ ks → entry_ok t k s → entry_ok t' k s.
Proof.
  intros Hst Hk Hok. split; [apply Hok|..].
  - intros g ->. destruct (entry_group _ _ _ Hok g eq_refl) as (r & Hs & Hr).
    destruct (stale_group _ _ _ Hst g) as [Hsame|[Hnone|Hin]]; [|congruence|done].
    exists r. by rewrite Hsame.
  - intros g u Hg ->. destruct (entry_member _ _ _ Hok g u Hg eq_refl) as (r & Hs & Hr).
    destruct (stale_member _ _ _ Hst g u Hg) as [Hsame|[Hnone|Hin]]; [|congruence|done].
    exists r. by rewrite Hsame.
  - intros g ->. destruct (stale_users _ _ _ Hst g) as [->|[Hin _]]; [|done]. by apply Hok.
  - intros g ->. destruct (stale_users _ _ _ Hst g) as [->|[_ Hin]]; [|done]. by apply Hok.
  - intros u ->. destruct (stale_joined _ _ _ Hst u) as [->|Hin]; [|done]. by apply Hok.
Qed.

(** What [exec_del] leaves: the tables as they are, the cache without the keys. *)
Definition shrunk (ks : list string) w w' : Prop :=
  w_tables w' = w_tables w ∧ cache_view (w_cache w') ⊆ cache_view (w_cache w) ∧
  ∀ k, k ∈ ks → cache_view (w_cache w') !! k = None.

Lemma Inv_change ks w w1 w' :
  Inv w → shrunk ks w w1 → w_cache w' = w_cache w1 →
  stale_in (w_tables w) (w_tables w') ks → ids_ok (w_tables w') → Inv w'.
Proof.
  intros [Hco _] (_ & Hsub & Hdel) Hc Hst Hid. split; [|done]. intros k s Hs. rewrite Hc in Hs.
  eapply entry_ok_change; [exact Hst| |apply Hco; by eapply lookup_weaken].
  intros Hin%Hdel. congruence.
Qed.

Lemma wp_exec_del ks (Q : outcome () → W → Prop) w :
  (∀ w', shrunk ks w w' → Q (Ok ()) w') → wp (exec_del ks) Q w.
Proof.
  intros HQ. apply (wp_ExecDel w_cache put_cache get_put_cache put_put_cache put_get_cache).
  intros w' (c & -> & Hc) Hdel. apply HQ. split; [done|]. by split.
Qed.

Lemma ids_ok_rows t t' : rows_of t' = rows_of t → ids_ok t → ids_ok t'.
Proof. intros [= Hg Hm Hr] []. split; [intros g u; rewrite Hg, Hm|intros g; rewrite Hg]; eauto. Qed.

Lemma group_users_rows t t' g : member_rows t' = member_rows t → group_users t' g = group_users t g.
Proof. unfold group_users. by intros ->. Qed.
Lemma user_groups_rows t t' u : member_rows t' = member_rows t → user_groups t' u = user_groups t u.
Proof. unfold user_groups. by intros ->. Qed.

Lemma stale_in_rows t t' ks : group_rows t' = group_rows t → member_rows t' = member_rows t → stale_in t t' ks.
Proof.
  intros Hg Hm. split; intros; left; [by rewrite Hg|by rewrite Hm|by apply group_users_rows|by apply user_groups_rows].
Qed.

(** A failure of the engine changes no row. *)
Lemma Inv_same w t' : Inv w → rows_of t' = rows_of (w_tables w) → Inv (put_tables t' w).
Proof.
  intros HI Hr. apply (Inv_change [] w w); [done| |done| |].
  - split; [done|]. split; [done|]. intros k Hk. by apply elem_of_nil in Hk.
  - injection Hr as Hg Hm _. by apply stale_in_rows.
  - eapply ids_ok_rows; [exact Hr|apply HI].
Qed.

(** The outcome of a change: it happened, or it failed and no row changed. *)
Definition changes w (P : Rows → Prop) (r : outcome ()) w' : Prop :=
  Inv w' ∧ ((r = Ok () ∧ P (rows_of (w_tables w'))) ∨
            ((∃ e, r = Err e) ∧ rows_of (w_tables w') = rows_of (w_tables w))).

(** A statement, then the deletion of its keys. *)
Lemma wp_stmt_then_del (m : M Tables ()) ks P w :
  Inv w →
  wp m (λ r t', (r = Ok () ∧ P (rows_of t') ∧ stale_in (w_tables w) t' ks ∧ ids_ok t') ∨
                (∃ e, r = Err e) ∧ same_rows (w_tables w) t') (w_tables w) →
  wp (_ ← on_tables m; exec_del ks) (changes w P) w.
Proof.
  intros HI Hm. apply wp_bind, wp_on_tables. eapply wp_mono; [|exact Hm].
  intros r t' [(-> & Hrs & Hst & Hid)|[[e ->] Hs]].
  - apply wp_exec_del. intros w' Hsh. destruct Hsh as (Ht & Hsub & Hdel). cbn in Ht.
    split; [|left; split; [done|by rewrite Ht]].
    apply (Inv_change ks w (put_cache (w_cache w') w) w'); [done|by split|done|by rewrite Ht|by rewrite Ht].
  - split; [|right; split; [by eexists|by apply same_rows_of]]. apply Inv_same; [done|by apply same_rows_of].
Qed.

(** *** Which keys a change makes stale *)

Lemma group_users_ext t t' g :
  (∀ u, is_Some (member_rows t' !! (g, u)) ↔ is_Some (member_rows t !! (g, u))) →
  group_users t' g = group_users t g.
Proof. intros Hs. apply set_eq. intros u. by rewrite !elem_of_group_users. Qed.
Lemma user_groups_ext t t' u :
  (∀ g, is_Some (member_rows t' !! (g, u)) ↔ is_Some (member_rows t !! (g, u))) →
  user_groups t' u = user_groups t u.
Proof. intros Hs. apply set_eq. intros g. by rewrite !elem_of_user_groups. Qed.

(** Members of one group come or go. *)
Lemma stale_in_members t t' g us ks :
  (∀ g', group_rows t' !! g' = group_rows t !! g' ∨ group_rows t !! g' = None ∨ getGroupInfoKey g' ∈ ks) →
  (∀ g' u, ¬ (g' = g ∧ u ∈ us) → member_rows t' !! (g', u) = member_rows t !! (g', u)) →
  (∀ u, u ∈ us → getGroupMemberInfoKey g u ∈ ks ∧ getJoinedGroupsKey u ∈ ks) →
  (us ≠ [] → getGroupMemberIDsKey g ∈ ks ∧ getGroupMemberNumKey g ∈ ks) → stale_in t t' ks.
Proof.
  intros Hg Hm Hu Hk. split; [done|..].
  - intros g' u _. destruct (decide (g' = g ∧ u ∈ us)) as [[-> Hin]|Hn]; [|left; auto].
    right; right. by apply Hu.
  - intros g'. destruct (decide (g' = g)) as [->|Hne].
    + destruct us as [|u0 us]; [|right; by apply Hk]. left. apply group_users_ext. intros u.
      by rewrite Hm by (intros [_ []%not_elem_of_nil]).
    + left. apply group_users_ext. intros u. rewrite Hm; naive_solver.
  - intros u. destruct (decide (u ∈ us)) as [Hin|Hn]; [right; by apply Hu|].
    left. apply user_groups_ext. intros g'. rewrite Hm; naive_solver.
Qed.

(** Rows of members change, and none comes or goes. *)
Lemma stale_in_updates t t' ks :
  group_rows t' = group_rows t →
  (∀ k, is_Some (member_rows t' !! k) ↔ is_Some (member_rows t !! k)) →
  (∀ g u, member_rows t' !! (g, u) = member_rows t !! (g, u) ∨ getGroupMemberInfoKey g u ∈ ks) →
  stale_in t t' ks.
Proof.
  intros Hg Hd Hm. split.
  - intros g. left. by rewrite Hg.
  - intros g u _. destruct (Hm g u); auto.
  - intros g. left. by apply group_users_ext.
  - intros u. left. by apply user_groups_ext.
Qed.

Lemma ids_ok_sub t t' : group_rows t' = group_rows t →
  (∀ k, is_Some (member_rows t' !! k) → is_Some (member_rows t !! k)) → ids_ok t → ids_ok t'.
Proof. intros Hg Hm []. split; [intros g u|intros g]; rewrite Hg; eauto. Qed.

(** *** The changes *)

Lemma wp_DeleteGroupMember g us w : Inv w →
  wp (DeleteGroupMember g us)
    (changes w (eq (set_members (remove_members g us (member_rows (w_tables w))) (rows_of (w_tables w))))) w.
Proof.
  intros HI. apply wp_stmt_then_del; [done|]. apply wp_members_delete.
  - intros t' Hm Hg Hr. left.
    assert (member_rows t' = remove_members g us (member_rows (w_tables w))) as Hm'.
    { rewrite Hm. apply map_filter_ext. intros [g' u'] m Hk%rows_key. rewrite members_key in Hk.
      injection Hk as <- <-. cbn. by rewrite <-not_true_iff_false, andb_true_iff, !bool_decide_eq_true. }
    split; [done|]. split; [unfold rows_of, set_members; by rewrite Hm', Hg, Hr|]. split.
    + apply (stale_in_members _ _ g us).
      * intros g'. left. by rewrite Hg.
      * intros g' u Hn. rewrite Hm'. unfold remove_members. apply option_eq. intros m.
        rewrite map_lookup_filter_Some. cbn. naive_solver.
      * intros u Hu. unfold DelGroupMembersInfo, DelJoinedGroupID. rewrite !elem_of_app, !list_elem_of_fmap.
        split; [right; eauto|left; right; eauto].
      * intros _. unfold DelGroupMembersInfo, DelJoinedGroupID, DelGroupsMemberNum, DelGroupMemberIDs, DelGroupMembersHash.
        cbn. set_solver.
    + eapply ids_ok_sub; [exact Hg| |apply HI]. intros k [m Hk]. rewrite Hm' in Hk.
      apply map_lookup_filter_Some in Hk as [Hk _]. eauto.
  - intros t' e Hs _. right. split; [by eexists|done].
Qed.

Lemma wp_UpdateGroup g cs w : Inv w →
  wp (UpdateGroup g cs) (changes w (eq (set_group g cs (rows_of (w_tables w))))) w.
Proof.
  intros HI. apply wp_stmt_then_del; [done|]. apply wp_groups_update.
  - intros t' Hg Hm Hr. left. split; [done|]. split; [unfold rows_of, set_group; by rewrite Hm, Hg, Hr|]. split.
    + split.
      * intros g'. destruct (decide (g' = g)) as [->|Hne].
        -- right; right. unfold DelGroupsInfo. set_solver.
        -- left. by rewrite Hg, lookup_alter_ne.
      * intros g' u _. left. by rewrite Hm.
      * intros g'. left. by apply group_users_rows.
      * intros u. left. by apply user_groups_rows.
    + destruct HI as [_ []]. split; [intros g' u|intros g']; rewrite Hg, ?Hm, lookup_alter_is_Some; eauto.
  - intros t' e Hs _. right. split; [by eexists|done].
Qed.

Lemma wp_wrap_discard {S A} (m : M S A) (Q : outcome () → S → Prop) s :
  wp (wrap_error m) (λ r s', match r with
    | Ok _ => Q (Ok ()) s' | Err e => Q (Err e) s' | Panic => Q Panic s' | OutOfFuel => Q OutOfFuel s' end) s →
  wp (wrap_error (_ ← m; mret ())) Q s.
Proof.
  rewrite !wp_eq. unfold wrap_error, try, mbind, M_bind. by destruct (m s) as [[] ?].
Qed.

Lemma wp_Member_Update g u cs (Q : outcome () → Tables → Prop) t :
  (∀ t', member_rows t' = update_member g u cs (member_rows t) → group_rows t' = group_rows t →
     request_rows t' = request_rows t → Q (Ok ()) t') →
  (∀ t' e, same_rows t t' → Q (Err e) t') →
  wp (GroupMemberGorm_Update g u cs) Q t.
Proof. intros Hok Herr. apply wp_wrap_discard, wp_members_updates; auto. Qed.

Lemma wp_UpdateGroupMember g u cs w : Inv w →
  wp (UpdateGroupMember g u cs)
    (changes w (eq (set_members (update_member g u cs (member_rows (w_tables w))) (rows_of (w_tables w))))) w.
Proof.
  intros HI. apply wp_stmt_then_del; [done|]. apply wp_Member_Update.
  - intros t' Hm Hg Hr. left. split; [done|]. split; [unfold rows_of, set_members; by rewrite Hm, Hg, Hr|].
    assert (∀ k, is_Some (member_rows t' !! k) ↔ is_Some (member_rows (w_tables w) !! k)) as Hdom.
    { intros k. rewrite Hm. unfold update_member. apply lookup_alter_is_Some. }
    split; [|eapply ids_ok_sub; [exact Hg|apply Hdom|apply HI]]. apply stale_in_updates; [done|done|].
    intros g' u'. rewrite Hm. unfold update_member. destruct (decide ((g', u') = (g, u))) as [[= -> ->]|Hne].
    + right. unfold DelGroupMembersInfo. set_solver.
    + left. by apply lookup_alter_ne.
  - intros t' e Hs. right. split; [by eexists|done].
Qed.

(** *** Changes in a transaction *)

Lemma wp_in_tx {A} (m : M Tables A) (Q : outcome A → Tables * W → Prop) t w :
  wp m (λ r t', Q r (t', w)) t → wp (in_tx m) Q (t, w).
Proof. apply (wp_on_fst m Q (t, w)). Qed.
Lemma wp_outside {A} (m : M W A) (Q : outcome A → Tables * W → Prop) t w :
  wp m (λ r w', Q r (t, w')) w → wp (outside m) Q (t, w).
Proof. apply (wp_on_snd m Q (t, w)). Qed.

(** The keys are deleted in the transaction, *)
Lemma wp_tx P w (body : M (Tables * W) ()) :
  Inv w →
  wp body (λ r '(t', w'), match r with
    | Ok _ => P (rows_of t') ∧ ids_ok t' ∧ ∃ ks, shrunk ks w w' ∧ stale_in (w_tables w) t' ks
    | Err _ => w' = w | _ => False end) (w_tables w, w) →
  wp (Transaction body) (changes w P) w.
Proof.
  intros HI Hb. assert (∀ e, changes w P (Err e) w) as Herr.
  { intros e. split; [done|]. right. split; [by eexists|done]. }
  apply wp_Transaction; [intros e _; apply Herr|]. eapply wp_mono; [|exact Hb].
  intros [[]|e| |] [t' w']; try done; [|by intros ->]. intros (HP & Hid & ks & Hsh & Hst). split.
  - intros e _. destruct Hsh as (Ht & Hsub & Hdel). split; [|right; split; [by eexists|by rewrite Ht]].
    apply (Inv_change ks w w'); [done|by split|done|by rewrite Ht; apply stale_in_rows|rewrite Ht; apply HI].
  - split; [|by left]. by apply (Inv_change ks w w').
Qed.

(** or after it. *)
Lemma wp_tx_then_del P w (body : M (Tables * W) Keys) :
  Inv w →
  wp body (λ r '(t', w'), w' = w ∧ match r with
    | Ok ks => P (rows_of t') ∧ stale_in (w_tables w) t' ks ∧ ids_ok t'
    | Err _ => True | _ => False end) (w_tables w, w) →
  wp (ks ← Transaction body; exec_del ks) (changes w P) w.
Proof.
  intros HI Hb. assert (∀ e, changes w P (Err e) w) as Herr.
  { intros e. split; [done|]. right. split; [by eexists|done]. }
  apply wp_bind, wp_Transaction; [intros e _; apply Herr|]. eapply wp_mono; [|exact Hb].
  intros [ks|e| |] [t' w'] [-> HQ]; try done. destruct HQ as (HP & Hst & Hid). split; [intros e _; apply Herr|].
  apply wp_exec_del. intros w1 (Ht & Hsub & Hdel). cbn in Ht, Hsub.
  split; [|left; split; [done|by rewrite Ht]].
  apply (Inv_change ks w (put_cache (w_cache w1) w)); [done|by split|done|by rewrite Ht|by rewrite Ht].
Qed.

Lemma insert_rows_members l ms : insert_rows (T:=TM) l ms = insert_members l ms.
Proof. unfold insert_rows, insert_members. by rewrite members_key. Qed.
Lemma insert_rows_requests l rq : insert_rows (T:=TR) l rq = insert_requests l rq.
Proof. unfold insert_rows, insert_requests. by rewrite requests_key. Qed.

Definition insert_groups (l : list GroupModel) (gs : gmap string GroupModel) : gmap string GroupModel :=
  foldr (λ g, <[Group_GroupID g := g]>) gs l.
Lemma insert_rows_groups l gs : insert_rows (T:=TG) l gs = insert_groups l gs.
Proof. unfold insert_rows, insert_groups. by rewrite groups_key. Qed.


(** [if len(groups) > 0 { Create }]: an empty list changes nothing. *)
Lemma wp_create_groups_if gs (Q : outcome () → Tables * W → Prop) t w :
  (∀ t', rows_of t' = mkRows (insert_groups gs (group_rows t)) (member_rows t) (request_rows t) →
     (∀ g, g ∈ gs → group_rows t !! Group_GroupID g = None) → Q (Ok ()) (t', w)) →
  (∀ t' e, Q (Err e) (t', w)) →
  wp (if 0 <? len gs then in_tx (GroupGorm_Create gs) else mret ()) Q (t, w).
Proof.
  intros Hok Herr. destruct gs as [|g0 gs].
  - apply wp_ret, Hok; [done|]. by intros g ?%elem_of_nil.
  - apply wp_in_tx, wp_Group_Create; [|by intros]. intros t' _ Hn Hg Hm Hr. apply Hok; [|done].
    unfold rows_of. by rewrite Hg, Hm, Hr, insert_rows_groups.
Qed.

Lemma wp_create_members_if ms (Q : outcome () → Tables * W → Prop) t w :
  (∀ t', rows_of t' = set_members (insert_members ms (member_rows t)) (rows_of t) →
     NoDup (member_key <$> ms) → (∀ m, m ∈ ms → member_rows t !! member_key m = None) → Q (Ok ()) (t', w)) →
  (∀ t' e, Q (Err e) (t', w)) →
  wp (if 0 <? len ms then in_tx (GroupMemberGorm_Create ms) else mret ()) Q (t, w).
Proof.
  intros Hok Herr. destruct ms as [|m0 ms].
  - apply wp_ret, Hok; [done|constructor|]. by intros m ?%elem_of_nil.
  - apply wp_in_tx, wp_Member_Create; [|by intros]. intros t' Hnd Hn Hm Hg Hr. apply Hok; [|done..].
    unfold rows_of, set_members. cbn. by rewrite Hg, Hm, Hr, insert_rows_members.
Qed.

Lemma lookup_insert_groups_some gs m g r :
  insert_groups gs m !! g = Some r → (∃ x, x ∈ gs ∧ Group_GroupID x = g) ∨ m !! g = Some r.
Proof.
  unfold insert_groups. induction gs as [|x gs IH]; cbn; [auto|]. rewrite lookup_insert. case_decide as Hx.
  - intros _. left. exists x. split; [by left|done].
  - intros [(y & Hy & ?)|?]%IH; [left; exists y; split; [by right|done]|by right].
Qed.
Lemma lookup_insert_groups_old gs m g :
  (∀ x, x ∈ gs → Group_GroupID x ≠ g) → insert_groups gs m !! g = m !! g.
Proof.
  unfold insert_groups. induction gs as [|x gs IH]; [done|]. cbn. intros Hl.
  rewrite lookup_insert_ne by (apply Hl; left). apply IH. intros r Hr. apply Hl. by right.
Qed.

(** New groups and new members: no cached row becomes stale, and the lists of
    the groups and users of the new members are dropped. *)
Lemma stale_in_create `{!Tools, !ToolsLaws} t t' gs ms :
  rows_of t' = mkRows (insert_groups gs (group_rows t)) (insert_members ms (member_rows t)) (request_rows t) →
  (∀ g, g ∈ gs → group_rows t !! Group_GroupID g = None) →
  (∀ m, m ∈ ms → member_rows t !! member_key m = None) →
  stale_in t t' (DelGroupsInfo (Distinct (Group_GroupID <$> gs)) (created_members_keys ms [])).
Proof.
  intros [= Hg Hm _] Hng Hnm. unfold DelGroupsInfo.
  assert (∀ k, (∀ m, m ∈ ms → member_key m ≠ k) → member_rows t' !! k = member_rows t !! k) as Hsame.
  { intros k Hk. by rewrite Hm, lookup_insert_members_old. }
  split.
  - intros g. destruct (decide (g ∈ Group_GroupID <$> gs)) as [(x & -> & Hx)%list_elem_of_fmap|Hn].
    + right; left. by apply Hng.
    + left. rewrite Hg. apply lookup_insert_groups_old. intros x Hx <-. apply Hn. by apply list_elem_of_fmap_2.
  - intros g u _. destruct (decide ((g, u) ∈ member_key <$> ms)) as [(m & Hk & Hmm)%list_elem_of_fmap|Hn].
    + right; left. rewrite Hk. by apply Hnm.
    + left. apply Hsame. intros m Hmm Hk. apply Hn. rewrite <-Hk. by apply list_elem_of_fmap_2.
  - intros g. destruct (decide (g ∈ Member_GroupID <$> ms)) as [(m & -> & Hmm)%list_elem_of_fmap|Hn].
    + right. split; apply elem_of_app; left; eapply created_members_keys_spec; set_solver.
    + left. apply group_users_ext. intros u. rewrite Hsame; [done|]. intros m Hmm [= <- _].
      apply Hn. by apply list_elem_of_fmap_2.
  - intros u. destruct (decide (u ∈ Member_UserID <$> ms)) as [(m & -> & Hmm)%list_elem_of_fmap|Hn].
    + right. apply elem_of_app; left. eapply created_members_keys_spec; set_solver.
    + left. apply user_groups_ext. intros g. rewrite Hsame; [done|]. intros m Hmm [= _ <-].
      apply Hn. by apply list_elem_of_fmap_2.
Qed.

Lemma ids_ok_create t t' gs ms rq :
  rows_of t' = mkRows (insert_groups gs (group_rows t)) (insert_members ms (member_rows t)) rq →
  (∀ g, g ∈ gs → dash_free (Group_GroupID g) ∧ group_rows t !! Group_GroupID g = None) →
  (∀ m, m ∈ ms → is_Some (insert_groups gs (group_rows t) !! Member_GroupID m)) →
  ids_ok t → ids_ok t'.
Proof.
  intros [= Hg Hm _] Hgs Hms [Hfk Hd]. split.
  - intros g u. rewrite Hg, Hm. intros [m [[Hin Hk]|Ho]%lookup_insert_members_some].
    + injection Hk as <- _. auto.
    + destruct (Hfk g u) as [r Hr]; [by eexists|]. rewrite lookup_insert_groups_old; [by eexists|].
      intros x [_ Hx]%Hgs <-. congruence.
  - intros g. rewrite Hg. intros [r [(x & [Hx _]%Hgs & <-)|Ho]%lookup_insert_groups_some]; [done|].
    apply Hd. by eexists.
Qed.

Lemma wp_groupDatabase_CreateGroup `{!Tools, !ToolsLaws} gs ms w :
  Inv w → (∀ g, g ∈ gs → dash_free (Group_GroupID g)) →
  (∀ m, m ∈ ms → is_Some (insert_groups gs (group_rows (w_tables w)) !! Member_GroupID m)) →
  wp (groupDatabase_CreateGroup gs ms) (changes w (λ rs',
    rs' = mkRows (insert_groups gs (group_rows (w_tables w))) (insert_members ms (member_rows (w_tables w)))
            (request_rows (w_tables w)) ∧
    (∀ g, g ∈ gs → group_rows (w_tables w) !! Group_GroupID g = None) ∧
    NoDup (member_key <$> ms) ∧ ∀ m, m ∈ ms → member_rows (w_tables w) !! member_key m = None)) w.
Proof.
  intros HI Hdash Hfk. apply wp_tx_then_del; [done|].
  apply wp_bind, wp_create_groups_if; [|done]. intros t1 [= Hg1 Hm1 Hr1] Hng.
  apply wp_bind, wp_create_members_if; [|done]. intros t2 Hrows Hnd Hnm.
  unfold rows_of, set_members in Hrows. cbn in Hrows. rewrite Hm1 in *. rewrite Hg1, Hr1 in Hrows.
  apply wp_ret. split; [done|]. split; [done|]. split; [by apply stale_in_create|].
  eapply ids_ok_create; [exact Hrows|auto|done|apply HI].
Qed.

(** A change of members' rows only. *)
Lemma updated_members t t' ks ms :
  rows_of t' = set_members ms (rows_of t) →
  (∀ k, is_Some (ms !! k) ↔ is_Some (member_rows t !! k)) →
  (∀ g u, ms !! (g, u) = member_rows t !! (g, u) ∨ getGroupMemberInfoKey g u ∈ ks) →
  ids_ok t → stale_in t t' ks ∧ ids_ok t'.
Proof.
  intros [= Hg Hm _] Hd Hks Hid. split.
  - apply stale_in_updates; [done|by intros k; rewrite Hm|by intros g u; rewrite Hm].
  - eapply ids_ok_sub; [exact Hg| |exact Hid]. intros k. rewrite Hm. apply Hd.
Qed.

Lemma update_member_dom g u cs ms k : is_Some (update_member g u cs ms !! k) ↔ is_Some (ms !! k).
Proof. unfold update_member. apply lookup_alter_is_Some. Qed.

Lemma update_member_lookup g u cs ms g' u' :
  update_member g u cs ms !! (g', u') = ms !! (g', u') ∨ (g', u') = (g, u).
Proof.
  unfold update_member. destruct (decide ((g', u') = (g, u))); [by right|]. left. by apply lookup_alter_ne.
Qed.

(** *** Several members at once *)

Definition update_batches (data : list BatchUpdateGroupMember) (ms : MemberRows) : MemberRows :=
  foldl (λ ms b, update_member (Batch_GroupID b) (Batch_UserID b) (Batch_Map b) ms) ms data.

Lemma update_batches_dom data ms k : is_Some (update_batches data ms !! k) ↔ is_Some (ms !! k).
Proof.
  unfold update_batches. revert ms. induction data as [|b data IH]; intros ms; [done|]. cbn.
  by rewrite IH, update_member_dom.
Qed.

Lemma update_batches_lookup data ms g u :
  update_batches data ms !! (g, u) = ms !! (g, u) ∨ ∃ b, b ∈ data ∧ (g, u) = (Batch_GroupID b, Batch_UserID b).
Proof.
  unfold update_batches. revert ms. induction data as [|b data IH]; intros ms; [by left|]. cbn.
  destruct (IH (update_member (Batch_GroupID b) (Batch_UserID b) (Batch_Map b) ms)) as [->|(b' & Hb & Hk)].
  - destruct (update_member_lookup (Batch_GroupID b) (Batch_UserID b) (Batch_Map b) ms g u); [by left|].
    right. exists b. split; [by left|done].
  - right. exists b'. split; [by right|done].
Qed.

Lemma wp_UpdateGroupMembers data w : Inv w →
  wp (UpdateGroupMembers data)
    (changes w (eq (set_members (update_batches data (member_rows (w_tables w))) (rows_of (w_tables w))))) w.
Proof.
  intros HI. apply wp_tx_then_del; [done|].
  apply wp_fold_each with (I := λ done ks '(t', w'), w' = w ∧
    rows_of t' = set_members (update_batches done (member_rows (w_tables w))) (rows_of (w_tables w)) ∧
    ∀ b, b ∈ done → getGroupMemberInfoKey (Batch_GroupID b) (Batch_UserID b) ∈ ks).
  - split; [done|]. split; [done|]. by intros e ?%elem_of_nil.
  - intros done b rest ks [t' w'] _ (-> & Hrows & Hks).
    apply wp_bind, wp_in_tx, wp_Member_Update; [|by intros]. intros t1 Hm Hg Hr. apply wp_ret.
    split; [done|]. injection Hrows as Hg' Hm' Hr'. split.
    + unfold rows_of, set_members. cbn. rewrite Hg, Hr, Hm, Hg', Hr', Hm'.
      unfold update_batches. by rewrite foldl_app.
    + intros e' Hin. unfold DelGroupMembersInfo. apply elem_of_app in Hin as [Hin| ->%list_elem_of_singleton]; set_solver.
  - intros ks [t' w'] (-> & Hrows & Hks). split; [done|]. split; [done|].
    eapply updated_members; [exact Hrows|intros k; apply update_batches_dom| |apply HI]. intros g u.
    destruct (update_batches_lookup data (member_rows (w_tables w)) g u) as [?|(b & Hb & [= -> ->])]; auto.
Qed.

(** *** The transfer of a group *)

Lemma wp_UpdateRoleLevel g u role (Q : outcome Z → Tables → Prop) t :
  (∀ t', rows_of t' = set_members (update_member g u [col_role_level role] (member_rows t)) (rows_of t) →
     Q (Ok (row_changes [col_role_level role] (member_rows t !! (g, u)))) t') →
  (∀ t' e, Q (Err e) t') →
  wp (UpdateRoleLevel g u role) Q t.
Proof.
  intros Hok Herr. apply wp_members_updates; [|by intros]. intros t' Hm Hg Hr. apply Hok.
  unfold rows_of, set_members. cbn. by rewrite Hm, Hg, Hr.
Qed.

(** A role that changes in one row. *)
Lemma row_changes_role role o : row_changes [col_role_level role] o = 1 →
  ∃ r, Member_RoleLevel <$> o = Some r ∧ r ≠ role.
Proof.
  unfold row_changes. destruct o as [m|]; [|done]. case_bool_decide as Hs; [done|]. intros _.
  exists (Member_RoleLevel m). split; [done|]. intros <-. apply Hs. by destruct m.
Qed.

Lemma wp_groupDatabase_TransferGroupOwner g old new role w : Inv w → old ≠ new →
  wp (groupDatabase_TransferGroupOwner g old new role) (changes w (λ rs',
    rs' = set_members (update_member g new [col_role_level GroupOwner]
            (update_member g old [col_role_level role] (member_rows (w_tables w)))) (rows_of (w_tables w)) ∧
    (∃ ro, role_in (member_rows (w_tables w)) g old = Some ro ∧ ro ≠ role) ∧
    (∃ rn, role_in (member_rows (w_tables w)) g new = Some rn ∧ rn ≠ GroupOwner))) w.
Proof.
  intros HI Hne. apply wp_tx; [done|].
  apply wp_bind, wp_in_tx, wp_UpdateRoleLevel; [|done]. intros t1 [= Hg1 Hm1 Hr1].
  apply wp_bind, wp_guard; intros Ho; bool_facts; [done|].
  apply wp_bind, wp_in_tx, wp_UpdateRoleLevel; [|done]. intros t2 [= Hg2 Hm2 Hr2].
  apply wp_bind, wp_guard; intros Hn; bool_facts; [done|].
  apply wp_outside, wp_exec_del. intros w' Hsh.
  apply row_changes_role in Ho, Hn. fold (role_in (member_rows t1) g new) in Hn.
  rewrite Hm1 in Hn, Hm2. rewrite role_in_update_other in Hn by congruence.
  assert (rows_of t2 = set_members (update_member g new [col_role_level GroupOwner]
    (update_member g old [col_role_level role] (member_rows (w_tables w)))) (rows_of (w_tables w))) as Hrows.
  { unfold rows_of, set_members. cbn. by rewrite Hm2, Hg2, Hr2, Hg1, Hr1. }
  split; [done|].
  edestruct (updated_members (w_tables w) t2) as [Hst Hid]; [exact Hrows|..|apply HI|].
  - intros k. by rewrite !update_member_dom.
  - intros g' u. instantiate (1 := DelGroupMembersHash g (DelGroupMembersInfo g [old; new] [])).
    unfold DelGroupMembersHash, DelGroupMembersInfo. cbn.
    destruct (update_member_lookup g new [col_role_level GroupOwner]
      (update_member g old [col_role_level role] (member_rows (w_tables w))) g' u) as [->|[= -> ->]]; [|set_solver].
    destruct (update_member_lookup g old [col_role_level role] (member_rows (w_tables w)) g' u) as [->|[= -> ->]];
      [by left|set_solver].
  - split; [done|]. eauto.
Qed.

(** *** Dismissal; the members stay *)

Lemma wp_groupDatabase_DismissGroup g w : Inv w →
  wp (groupDatabase_DismissGroup g false)
    (changes w (eq (set_group g [col_status GroupStatusDismissed] (rows_of (w_tables w))))) w.
Proof.
  intros HI. apply wp_tx_then_del; [done|].
  apply wp_bind, wp_in_tx, (wp_groups_update g [col_status GroupStatusDismissed]); [|by intros].
  intros t' Hg Hm Hr. apply wp_bind, wp_ret, wp_ret. split; [done|].
  split; [unfold rows_of, set_group; by rewrite Hm, Hg, Hr|]. split.
  - split.
    + intros g'. destruct (decide (g' = g)) as [->|Hne]; [right; right; unfold DelGroupsInfo; set_solver|].
      left. by rewrite Hg, lookup_alter_ne.
    + intros g' u _. left. by rewrite Hm.
    + intros g'. left. by apply group_users_rows.
    + intros u. left. by apply user_groups_rows.
  - destruct HI as [_ []]. split; [intros g' u|intros g']; rewrite Hg, ?Hm, lookup_alter_is_Some; eauto.
Qed.

(** *** Requests *)

Lemma wp_Request_Create l (Q : outcome () → Tables → Prop) t :
  (∀ t', rows_of t' = set_requests (insert_requests l (request_rows t)) (rows_of t) →
     NoDup (request_key <$> l) → Q (Ok ()) t') →
  (∀ t' e, Q (Err e) t') →
  wp (GroupRequestGorm_Create l) Q t.
Proof.
  intros Hok Herr. apply wp_wrap_error, wp_requests_stmt. intros [[]|e] q Ec; cbn [of_sum]; [|done].
  apply Create_ok in Ec as (Hn & _ & Hr). rewrite insert_rows_requests in Hr. rewrite requests_key in Hn.
  apply Hok; [|done]. unfold rows_of, set_requests. cbn. by rewrite Hr.
Qed.

Lemma has_request_key g u r : has_request g u r = bool_decide (request_key r = (g, u)).
Proof.
  unfold has_request, request_key. destruct r; cbn. repeat case_bool_decide; cbn; congruence.
Qed.

Lemma request_row_key t k r : request_rows t !! k = Some r → request_key r = k.
Proof. intros Hr%rows_key. by rewrite requests_key in Hr. Qed.

Lemma wp_Request_Delete g u (Q : outcome () → Tables → Prop) t :
  (∀ t', rows_of t' = set_requests (delete (g, u) (request_rows t)) (rows_of t) → Q (Ok ()) t') →
  (∀ t' e, Q (Err e) t') →
  wp (GroupRequestGorm_Delete g u) Q t.
Proof.
  intros Hok Herr. apply wp_wrap_error, wp_requests_stmt. intros [[]|e] q Ec; cbn [of_sum]; [|done].
  apply Delete_ok in Ec. apply Hok. unfold rows_of, set_requests. cbn. rewrite Ec. f_equal.
  apply map_eq. intros k. apply option_eq. intros r.
  rewrite map_lookup_filter_Some, lookup_delete_Some. cbn. rewrite has_request_key, bool_decide_eq_false. split.
  - intros [Hr Hk]. split; [|done]. by rewrite (request_row_key _ _ _ Hr) in Hk.
  - intros [Hk Hr]. split; [done|]. by rewrite (request_row_key _ _ _ Hr).
Qed.

Lemma wp_UpdateHandler g u msg res (Q : outcome () → Tables → Prop) t :
  (∀ t', rows_of t' = set_requests (alter (set_Handled msg res) (g, u) (request_rows t)) (rows_of t) →
     Q (Ok ()) t') →
  (∀ t' e, Q (Err e) t') →
  wp (UpdateHandler g u msg res) Q t.
Proof.
  intros Hok Herr. apply wp_wrap_error, wp_bind, wp_requests_stmt. intros [n|e] q Ec; cbn [of_sum]; [|done].
  apply Updates_ok in Ec as [Ec _]; [|intros r; rewrite requests_key; apply set_Handled_key].
  apply wp_ret, Hok. unfold rows_of, set_requests. cbn. rewrite Ec. f_equal.
  apply map_eq. intros k. rewrite lookup_fmap, lookup_alter_fmap.
  destruct (request_rows t !! k) as [r|] eqn:Hr; [|done]. cbn.
  rewrite has_request_key, (request_row_key _ _ _ Hr). by case_decide; case_bool_decide.
Qed.

Lemma insert_requests_ext l rq rq' : (∀ k, k ∉ request_key <$> l → rq' !! k = rq !! k) →
  insert_requests l rq' = insert_requests l rq.
Proof.
  intros Hr. apply map_eq. intros k. unfold insert_requests. destruct (decide (k ∈ request_key <$> l)) as [Hk|Hk].
  - clear Hr. induction l as [|r l IH]; [by apply elem_of_nil in Hk|]. cbn in *.
    rewrite !lookup_insert. case_decide; [done|]. apply IH. apply elem_of_cons in Hk as [->|]; done.
  - specialize (Hr k Hk). induction l as [|r l IH]; [done|]. cbn in *.
    apply not_elem_of_cons in Hk as [Hne Hk]. rewrite !lookup_insert_ne by done. auto.
Qed.

Lemma wp_CreateGroupRequest l w : Inv w →
  wp (CreateGroupRequest l)
    (changes w (eq (set_requests (insert_requests l (request_rows (w_tables w))) (rows_of (w_tables w))))) w.
Proof.
  intros HI. apply wp_tx; [done|]. apply wp_bind.
  apply wp_for_each with (I := λ done '(t', w'), w' = w ∧ group_rows t' = group_rows (w_tables w) ∧
    member_rows t' = member_rows (w_tables w) ∧
    ∀ k, k ∉ request_key <$> done → request_rows t' !! k = request_rows (w_tables w) !! k); [done|..].
  - intros done r rest [t' w'] _ (-> & Hg & Hm & Hr). apply wp_in_tx, wp_Request_Delete; [|done].
    intros t1 [= Hg1 Hm1 Hr1]. split; [done|]. split; [congruence|]. split; [congruence|].
    intros k. rewrite fmap_app, elem_of_app. intros Hk. rewrite Hr1, lookup_delete_ne; [set_solver|].
    intros <-. apply Hk. right. by left.
  - intros [t' w'] (-> & Hg & Hm & Hr). apply wp_in_tx, wp_Request_Create; [|done].
    intros t2 [= Hg2 Hm2 Hr2] _. rewrite Hg in Hg2. rewrite Hm in Hm2. split; [|split].
    + unfold rows_of, set_requests. cbn. by rewrite Hg2, Hm2, Hr2, (insert_requests_ext _ _ _ Hr).
    + eapply ids_ok_sub; [exact Hg2| |apply (proj2 HI)]. intros k. by rewrite Hm2.
    + exists []. split; [|by apply stale_in_rows]. split; [done|]. split; [done|]. by intros k ?%elem_of_nil.
Qed.

(** The answer to a request, with the new member. *)
Lemma wp_HandlerGroupRequest g u msg res member w :
  Inv w → (∀ m, member = Some m → Member_GroupID m = g ∧ is_Some (group_rows (w_tables w) !! g)) →
  wp (HandlerGroupRequest g u msg res member) (changes w (λ rs',
    rs' = mkRows (group_rows (w_tables w)) (insert_members (option_list member) (member_rows (w_tables w)))
            (alter (set_Handled msg res) (g, u) (request_rows (w_tables w))) ∧
    ∀ m, member = Some m → member_rows (w_tables w) !! member_key m = None)) w.
Proof.
  intros HI Hmem. apply wp_tx; [done|]. apply wp_bind, wp_in_tx, wp_UpdateHandler; [|done].
  intros t1 [= Hg1 Hm1 Hr1]. destruct member as [m|].
  - destruct (Hmem m eq_refl) as [Hg Hs].
    apply wp_bind, wp_in_tx, wp_Member_Create; [|done]. intros t2 Hnd Hnew Hm2 Hg2 Hr2.
    rewrite insert_rows_members, Hm1 in Hm2. rewrite Hg1 in Hg2. rewrite Hr1 in Hr2. rewrite Hm1 in Hnew.
    assert (member_rows (w_tables w) !! member_key m = None) as Hfresh by (apply Hnew; by left).
    apply wp_outside, wp_exec_del. intros w' Hsh. split; [|split].
    + split; [unfold rows_of; cbn; by rewrite Hm2, Hg2, Hr2|]. by intros ? [= <-].
    + apply (ids_ok_create (w_tables w) t2 [] [m] (request_rows t2)); [|by intros ? ?%elem_of_nil| |apply HI].
      * unfold rows_of. by rewrite Hm2, Hg2.
      * intros m' ->%list_elem_of_singleton. cbn. by rewrite Hg.
    + eexists. split; [exact Hsh|]. apply (stale_in_members _ _ g [Member_UserID m]).
      * intros g'. left. by rewrite Hg2.
      * intros g' v Hn. rewrite Hm2, lookup_insert_members_old; [done|].
        intros m' ->%list_elem_of_singleton [= <- <-]. apply Hn. split; [done|by left].
      * intros v ->%list_elem_of_singleton. unfold DelJoinedGroupID, DelGroupsMemberNum, DelGroupMemberIDs,
          DelGroupMembersInfo, DelGroupMembersHash. cbn. set_solver.
      * intros _. unfold DelJoinedGroupID, DelGroupsMemberNum, DelGroupMemberIDs,
          DelGroupMembersInfo, DelGroupMembersHash. cbn. set_solver.
  - apply wp_ret. split; [|split].
    + split; [unfold rows_of; cbn; by rewrite Hm1, Hg1, Hr1|done].
    + eapply ids_ok_sub; [exact Hg1| |apply (proj2 HI)]. intros k. by rewrite Hm1.
    + exists []. split; [|by apply stale_in_rows]. split; [done|]. split; [done|]. by intros k ?%elem_of_nil.
Qed.
End Changes.
