(* ===== verification/GroupReads.v ===== *)
(** * What the handlers of the group service read

    Reading changes the cache and the list of effects only ([still]): the
    instances say so of every function that reads or tells.  [answers_with m P w]
    says what an answer of [m] tells of the tables, in a state with [Inv]; rows
    filled with the names of their users are the tables' but for the names. *)

From S2P Require Import Prelude.
From S2P Require Import Constants.
From S2P Require Import MsgTypes.
From S2P Require Import Tools.
From S2P Require Import Notification.
From S2P Require Import RpcClient.
From S2P Require Import Auth.
From S2P Require Import GroupTypes.
From S2P Require Import Sql.
From S2P Require Import RowCache.
From S2P Require Import GroupStore.
From S2P Require Import GroupCache.
From S2P Require Import GroupDatabase.
From S2P Require Import GroupNotification.
From S2P Require Import GroupServer.
From S2P Require Import GroupSpec.
From S2P Require Import GroupCoherence.
From S2P Require Import GroupChanges.
From stdpp Require Import options.
#[local] Set Default Proof Using "Type*".

#[local] Open Scope Z_scope.

Section Reads.
Context `{EngineLaws} `{!Tools, !MsgTools, !ListTools, !MapRange} `{!Services GroupEffect, !Webhook}.
Abbreviation W := (World (list GroupEffect)).
Context (config : GroupConfig) (ctx : CallContext).
Context (StructToJsonString : GroupTips → string) (Marshal_elem : string → string + error).
Context (answers : list GroupEffect → GroupEffect → option error).
Context (GetConversationMaxSeq : string → list GroupEffect → Z + error).
Implicit Types w : W.
Abbreviation notifies f := (f (Group_Config_Notification config) (now ctx) (opUserID ctx)
  StructToJsonString Marshal_elem answers) (only parsing).
Abbreviation managers := (Group_Manager_UserID config).

(** A function is looked for by its name, not by its body. *)
#[local] Typeclasses Opaque
  created_tips created_notification DeleteSuperGroupMember CreateSuperGroupMember CreateSuperGroup DeleteSuperGroup
  TakeGroup FindGroup FindGroupMemberNum FindGroupMemberUserID TakeGroupMember send getUser
  getGroupInfo getUsersInfoMap getGroupMemberMap getGroupMember getGroupOwnerAndAdminUserID
  fillOpUser GroupCreatedNotification_send GroupInfoSetNotification_send
  GroupInfoSetNameNotification_send GroupInfoSetAnnouncementNotification_send notify_each
  JoinGroupApplicationNotification_send MemberQuitNotification_send
  GroupApplicationAcceptedNotification_send GroupApplicationRejectedNotification_send
  GroupOwnerTransferredNotification_send MemberKickedNotification_send
  MemberInvitedNotification_send MemberEnterNotification_send GroupDismissedNotification_send
  GroupMemberMutedNotification_send GroupMemberCancelMutedNotification_send
  GroupMutedNotification_send GroupCancelMutedNotification_send
  GroupMemberInfoSetNotification_send GroupMemberSetToAdminNotification_send
  GroupMemberSetToOrdinaryUserNotification_send SuperGroupNotification_send
  GroupChatFirstCreateConversation fill_members groupServer_FindGroupMember
  groupServer_TakeGroupMember groupServer_TakeGroupOwner post callback replace
  CallbackBeforeCreateGroup CallbackBeforeMemberJoinGroup CallbackBeforeSetGroupMemberInfo
  CheckGroupAdmin random_id joinGroup deleteMemberAndSetConversationSeq check_kick
  set_info_notifications check_mute check_set_member check_not_owner set_member_notifications
  FindGroupMember getGroupMembers notify.

(** ** Functions of the database *)

#[export] Instance moves_TakeGroup g : Moves looks (TakeGroup (E:=list GroupEffect) g).
Proof. unfold TakeGroup. apply _. Qed.
#[export] Instance moves_FindGroup gs : Moves looks (FindGroup (E:=list GroupEffect) gs).
Proof. unfold FindGroup. apply _. Qed.
#[export] Instance moves_FindGroupMemberNum g : Moves looks (FindGroupMemberNum (E:=list GroupEffect) g).
Proof. unfold FindGroupMemberNum. apply _. Qed.
#[export] Instance moves_FindGroupMemberUserID g : Moves looks (FindGroupMemberUserID (E:=list GroupEffect) g).
Proof. unfold FindGroupMemberUserID. apply _. Qed.
#[export] Instance moves_TakeGroupMember g u : Moves looks (TakeGroupMember (E:=list GroupEffect) g u).
Proof. unfold TakeGroupMember. apply _. Qed.
#[export] Instance moves_TakeGroupOwner g : Moves looks (TakeGroupOwner (E:=list GroupEffect) g).
Proof. unfold TakeGroupOwner, TakeOwner. apply _. Qed.
#[export] Instance moves_TakeGroupRequest g u : Moves looks (TakeGroupRequest (E:=list GroupEffect) g u).
Proof. unfold TakeGroupRequest, GroupRequestGorm_Take. apply _. Qed.
#[export] Instance moves_FindGroupMember gs us rs : Moves looks (FindGroupMember (E:=list GroupEffect) gs us rs).
Proof.
  unfold FindGroupMember, GroupMemberGorm_Find.
  destruct gs as [|g gs], us as [|u [|u' us]], rs; apply _.
Qed.

(** *** Super groups: their members are in no table *)

#[export] Instance moves_DeleteSuperGroupMember g us :
  Moves still (DeleteSuperGroupMember (E:=list GroupEffect) g us).
Proof. unfold DeleteSuperGroupMember. apply _. Qed.
#[export] Instance moves_CreateSuperGroupMember g us :
  Moves still (CreateSuperGroupMember (E:=list GroupEffect) g us).
Proof. unfold CreateSuperGroupMember. apply _. Qed.
#[export] Instance moves_CreateSuperGroup g us : Moves still (CreateSuperGroup (E:=list GroupEffect) g us).
Proof. unfold CreateSuperGroup. apply _. Qed.
#[export] Instance moves_DeleteSuperGroup g : Moves still (DeleteSuperGroup (E:=list GroupEffect) g).
Proof. unfold DeleteSuperGroup. apply _. Qed.

(** ** Notifications *)

#[export] Instance moves_match_list {W' A B} (R : relation W') (l : list A) (m1 : M W' B) (m2 : A → list A → M W' B) :
  Moves R m1 → (∀ x l, Moves R (m2 x l)) → Moves R (match l with [] => m1 | x :: l => m2 x l end).
Proof. by destruct l. Qed.

#[export] Instance moves_quietly {A} (m : M W A) : Moves still m → Moves still (quietly m).
Proof. intros ?. unfold quietly. apply _. Qed.

#[export] Instance moves_send m : Moves still (send answers m).
Proof. unfold send. apply _. Qed.
#[export] Instance moves_notify sendID recvID ct tips b :
  Moves still (notify (Group_Config_Notification config) (now ctx) StructToJsonString Marshal_elem answers
    sendID recvID ct tips b).
Proof. unfold notify, Notification, NotificationWithSesstionType, sender_names. destruct b; apply _. Qed.
#[export] Instance moves_getUser u : Moves still (getUser u).
Proof. unfold getUser. apply _. Qed.
#[export] Instance moves_getGroupInfo g : Moves still (getGroupInfo g).
Proof. unfold getGroupInfo. apply _. Qed.
#[export] Instance moves_getUsersInfoMap us : Moves still (getUsersInfoMap us).
Proof. unfold getUsersInfoMap. apply _. Qed.
#[export] Instance moves_getGroupMembers g us : Moves still (getGroupMembers g us).
Proof.
  unfold getGroupMembers. apply moves_bind; [apply _..|]. intros ms. apply moves_bind; [apply _..|]. intros users.
  apply moves_bind; [apply _| |apply _]. apply moves_fold_each; [apply _|]. intros [] x. apply _.
Qed.
#[export] Instance moves_getGroupMemberMap g us : Moves still (getGroupMemberMap g us).
Proof. unfold getGroupMemberMap. apply _. Qed.
#[export] Instance moves_getGroupMember g u : Moves still (getGroupMember g u).
Proof. unfold getGroupMember. apply _. Qed.
#[export] Instance moves_getGroupOwnerAndAdminUserID g : Moves still (getGroupOwnerAndAdminUserID g).
Proof. unfold getGroupOwnerAndAdminUserID. apply _. Qed.
#[export] Instance moves_fillOpUser o g : Moves still (fillOpUser managers (opUserID ctx) o g).
Proof. unfold fillOpUser. apply _. Qed.
#[export] Instance moves_GroupCreatedNotification_send group o l t owner : Moves still (notifies (GroupCreatedNotification_send managers) group o l t owner).
Proof. unfold GroupCreatedNotification_send. apply _. Qed.
#[export] Instance moves_GroupInfoSetNotification_send o group : Moves still (notifies (GroupInfoSetNotification_send managers) o group).
Proof. unfold GroupInfoSetNotification_send. apply _. Qed.
#[export] Instance moves_GroupInfoSetNameNotification_send o group : Moves still (notifies (GroupInfoSetNameNotification_send managers) o group).
Proof. unfold GroupInfoSetNameNotification_send. apply _. Qed.
#[export] Instance moves_GroupInfoSetAnnouncementNotification_send o group : Moves still (notifies (GroupInfoSetAnnouncementNotification_send managers) o group).
Proof. unfold GroupInfoSetAnnouncementNotification_send. apply _. Qed.
#[export] Instance moves_notify_each us ct tips : Moves still (notifies notify_each us ct tips).
Proof. unfold notify_each. apply _. Qed.
#[export] Instance moves_JoinGroupApplicationNotification_send req : Moves still (notifies JoinGroupApplicationNotification_send req).
Proof. unfold JoinGroupApplicationNotification_send. apply _. Qed.
#[export] Instance moves_MemberQuitNotification_send m : Moves still (notifies MemberQuitNotification_send m).
Proof. unfold MemberQuitNotification_send. apply _. Qed.
#[export] Instance moves_GroupApplicationAcceptedNotification_send req : Moves still (notifies (GroupApplicationAcceptedNotification_send managers) req).
Proof. unfold GroupApplicationAcceptedNotification_send. apply _. Qed.
#[export] Instance moves_GroupApplicationRejectedNotification_send req : Moves still (notifies (GroupApplicationRejectedNotification_send managers) req).
Proof. unfold GroupApplicationRejectedNotification_send. apply _. Qed.
#[export] Instance moves_GroupOwnerTransferredNotification_send req : Moves still (notifies (GroupOwnerTransferredNotification_send managers) req).
Proof. unfold GroupOwnerTransferredNotification_send. apply _. Qed.
#[export] Instance moves_MemberKickedNotification_send group o l : Moves still (notifies (MemberKickedNotification_send managers) group o l).
Proof. unfold MemberKickedNotification_send. apply _. Qed.
#[export] Instance moves_MemberInvitedNotification_send g r us : Moves still (notifies (MemberInvitedNotification_send managers) g r us).
Proof. unfold MemberInvitedNotification_send. apply _. Qed.
#[export] Instance moves_MemberEnterNotification_send g u : Moves still (notifies MemberEnterNotification_send g u).
Proof. unfold MemberEnterNotification_send. apply _. Qed.
#[export] Instance moves_GroupDismissedNotification_send group o : Moves still (notifies (GroupDismissedNotification_send managers) group o).
Proof. unfold GroupDismissedNotification_send. apply _. Qed.
#[export] Instance moves_GroupMemberMutedNotification_send g u t : Moves still (notifies (GroupMemberMutedNotification_send managers) g u t).
Proof. unfold GroupMemberMutedNotification_send. apply _. Qed.
#[export] Instance moves_GroupMemberCancelMutedNotification_send g u : Moves still (notifies (GroupMemberCancelMutedNotification_send managers) g u).
Proof. unfold GroupMemberCancelMutedNotification_send. apply _. Qed.
#[export] Instance moves_GroupMutedNotification_send g : Moves still (notifies (GroupMutedNotification_send managers) g).
Proof. unfold GroupMutedNotification_send. apply _. Qed.
#[export] Instance moves_GroupCancelMutedNotification_send g : Moves still (notifies (GroupCancelMutedNotification_send managers) g).
Proof. unfold GroupCancelMutedNotification_send. apply _. Qed.
#[export] Instance moves_GroupMemberInfoSetNotification_send g u : Moves still (notifies (GroupMemberInfoSetNotification_send managers) g u).
Proof. unfold GroupMemberInfoSetNotification_send. apply _. Qed.
#[export] Instance moves_GroupMemberSetToAdminNotification_send g u : Moves still (notifies (GroupMemberSetToAdminNotification_send managers) g u).
Proof. unfold GroupMemberSetToAdminNotification_send. apply _. Qed.
#[export] Instance moves_GroupMemberSetToOrdinaryUserNotification_send g u : Moves still (notifies (GroupMemberSetToOrdinaryUserNotification_send managers) g u).
Proof. unfold GroupMemberSetToOrdinaryUserNotification_send. apply _. Qed.
#[export] Instance moves_SuperGroupNotification_send u v :
  Moves still (SuperGroupNotification_send (Group_Config_Notification config) (now ctx) StructToJsonString
    Marshal_elem answers u v).
Proof. unfold SuperGroupNotification_send. apply _. Qed.

(** ** The service *)

#[export] Instance moves_GroupChatFirstCreateConversation g us : Moves still (GroupChatFirstCreateConversation answers g us).
Proof. unfold GroupChatFirstCreateConversation. apply _. Qed.
#[export] Instance moves_fill_members l : Moves still (fill_members l).
Proof. unfold fill_members. apply _. Qed.
#[export] Instance moves_groupServer_FindGroupMember gs us rs : Moves still (groupServer_FindGroupMember gs us rs).
Proof. unfold groupServer_FindGroupMember. apply _. Qed.
#[export] Instance moves_groupServer_TakeGroupMember g u : Moves still (groupServer_TakeGroupMember g u).
Proof. unfold groupServer_TakeGroupMember. apply _. Qed.
#[export] Instance moves_groupServer_TakeGroupOwner g : Moves still (groupServer_TakeGroupOwner g).
Proof. unfold groupServer_TakeGroupOwner. apply _. Qed.
#[export] Instance moves_post {A} (hook : GroupCallbackReq → list GroupEffect → A + error) req : Moves still (post hook req).
Proof. unfold post. apply _. Qed.
#[export] Instance moves_callback {A} (hook : GroupCallbackReq → list GroupEffect → A + error) req : Moves still (callback hook req).
Proof. unfold callback. apply _. Qed.
#[export] Instance moves_replace {A} (o : A) n : Moves still (replace (H:=_) o n).
Proof. unfold replace. apply _. Qed.
#[export] Instance moves_CallbackBeforeCreateGroup req g : Moves still (CallbackBeforeCreateGroup config ctx req g).
Proof. unfold CallbackBeforeCreateGroup. apply _. Qed.
#[export] Instance moves_CallbackBeforeMemberJoinGroup m ex : Moves still (CallbackBeforeMemberJoinGroup config ctx m ex).
Proof. unfold CallbackBeforeMemberJoinGroup. destruct m. apply _. Qed.
#[export] Instance moves_CallbackBeforeSetGroupMemberInfo e : Moves still (CallbackBeforeSetGroupMemberInfo config ctx e).
Proof. unfold CallbackBeforeSetGroupMemberInfo. apply _. Qed.
#[export] Instance moves_CheckGroupAdmin g : Moves still (CheckGroupAdmin config ctx g).
Proof. unfold CheckGroupAdmin. apply _. Qed.
#[export] Instance moves_random_id i : Moves still (random_id ctx i).
Proof. unfold random_id. apply _. Qed.
#[export] Instance moves_created_tips users ms : Moves still (created_tips ctx users ms).
Proof. induction ms as [|m ms IH]; cbn [created_tips]; apply _. Qed.
#[export] Instance moves_created_notification users group info ms :
  Moves still (created_notification config ctx StructToJsonString Marshal_elem answers users group info ms).
Proof. unfold created_notification. apply _. Qed.
#[export] Instance moves_joinGroup g ex role l u : Moves still (joinGroup config ctx g ex role l u).
Proof. unfold joinGroup. apply _. Qed.
#[export] Instance moves_deleteMemberAndSetConversationSeq g us : Moves still (deleteMemberAndSetConversationSeq answers GetConversationMaxSeq g us).
Proof. unfold deleteMemberAndSetConversationSeq. apply _. Qed.
#[export] Instance moves_check_kick ms u : Moves still (check_kick config ctx ms u).
Proof. unfold check_kick. apply _. Qed.
#[export] Instance moves_set_info_notifications set n group o : Moves still (set_info_notifications config ctx StructToJsonString Marshal_elem answers set n group o).
Proof. unfold set_info_notifications. apply _. Qed.
#[export] Instance moves_check_mute m g : Moves still (check_mute config ctx m g).
Proof. unfold check_mute. apply _. Qed.
#[export] Instance moves_check_set_member ms m : Moves still (check_set_member ctx ms m).
Proof. unfold check_set_member. apply _. Qed.
#[export] Instance moves_check_not_owner ms m : Moves still (check_not_owner ms m).
Proof. unfold check_not_owner. apply _. Qed.
#[export] Instance moves_set_member_notifications m : Moves still (set_member_notifications config ctx StructToJsonString Marshal_elem answers m).
Proof. unfold set_member_notifications. apply _. Qed.
End Reads.

#[export] Typeclasses Opaque
  created_tips created_notification DeleteSuperGroupMember CreateSuperGroupMember CreateSuperGroup DeleteSuperGroup
  TakeGroup FindGroup FindGroupMemberNum FindGroupMemberUserID TakeGroupMember send getUser
  getGroupInfo getUsersInfoMap getGroupMemberMap getGroupMember getGroupOwnerAndAdminUserID
  fillOpUser GroupCreatedNotification_send GroupInfoSetNotification_send
  GroupInfoSetNameNotification_send GroupInfoSetAnnouncementNotification_send notify_each
  JoinGroupApplicationNotification_send MemberQuitNotification_send
  GroupApplicationAcceptedNotification_send GroupApplicationRejectedNotification_send
  GroupOwnerTransferredNotification_send MemberKickedNotification_send
  MemberInvitedNotification_send MemberEnterNotification_send GroupDismissedNotification_send
  GroupMemberMutedNotification_send GroupMemberCancelMutedNotification_send
  GroupMutedNotification_send GroupCancelMutedNotification_send
  GroupMemberInfoSetNotification_send GroupMemberSetToAdminNotification_send
  GroupMemberSetToOrdinaryUserNotification_send SuperGroupNotification_send
  GroupChatFirstCreateConversation fill_members groupServer_FindGroupMember
  groupServer_TakeGroupMember groupServer_TakeGroupOwner post callback replace
  CallbackBeforeCreateGroup CallbackBeforeMemberJoinGroup CallbackBeforeSetGroupMemberInfo
  CheckGroupAdmin random_id joinGroup deleteMemberAndSetConversationSeq check_kick
  set_info_notifications check_mute check_set_member check_not_owner set_member_notifications
  FindGroupMember getGroupMembers notify.

(** ** What the answers say *)

(** The answer and the state of a computation that only reads. *)
Definition answers_with `{Engine} {E A} (m : M (World E) A) (P : A → Prop) (w : World E) : Prop :=
  wp m (λ r w', still w w' ∧ match r with Ok a => P a | _ => True end) w.

Section AnswersWith.
Context `{EngineLaws} {E : Type}.
Abbreviation W := (World E).
Implicit Types w : W.

Lemma answers_any {A} (m : M W A) w : Moves still m → answers_with m (λ _, True) w.
Proof. intros Hm. apply (wp_moves still m). intros [] w' Hs; auto. Qed.

Lemma answers_mono {A} (m : M W A) (P P' : A → Prop) w :
  answers_with m P w → (∀ a, P a → P' a) → answers_with m P' w.
Proof. intros Hm HP. eapply wp_mono; [|exact Hm]. intros [] w' [? ?]; auto. Qed.

Lemma answers_ret {A} (a : A) (P : A → Prop) w : P a → answers_with (mret a) P w.
Proof. intros HP. apply wp_ret. by split. Qed.

Lemma answers_fail {A} e (P : A → Prop) w : answers_with (fail e) P w.
Proof. by apply wp_fail. Qed.

Lemma answers_bind {A B} (m : M W A) (k : A → M W B) P P' w :
  answers_with m P w → (∀ a w', still w w' → P a → answers_with (k a) P' w') →
  answers_with (m ≫= k) P' w.
Proof.
  intros Hm Hk. apply wp_bind. eapply wp_mono; [|exact Hm]. intros [a|e| |] w' [Hs HP]; auto.
  eapply wp_mono; [|by apply Hk]. intros [] w'' [? ?]; (split; [by etrans|done]).
Qed.

Lemma answers_guard b e w : answers_with (guard b e) (λ _, b = false) w.
Proof. apply wp_guard; intros; by split. Qed.

Lemma answers_lift {A} (r : A + error) w : answers_with (lift r) (λ a, r = inl a) w.
Proof. apply wp_lift; intros; by split. Qed.

Lemma answers_deref {A} (p : option A) w : answers_with (deref p) (λ a, p = Some a) w.
Proof. apply wp_deref; intros; by split. Qed.

Lemma answers_fold {A B} (l : list A) (acc : B) (body : B → A → M W B) (I : list A → B → Prop) w :
  I [] acc →
  (∀ done x rest b w', l = done ++ x :: rest → still w w' → I done b →
     answers_with (body b x) (I (done ++ [x])) w') →
  answers_with (fold_each l acc body) (I l) w.
Proof.
  intros H0' Hstep. apply wp_fold_each with (I := λ done b w', still w w' ∧ I done b); [by split| |by intros].
  intros ls x rest b w' Hl [Hs HI]. eapply wp_mono; [|by eapply Hstep].
  intros [] w'' [? ?]; (split; [by etrans|done]).
Qed.

Lemma answers_for_each {A} (l : list A) (body : A → M W ()) (P : A → Prop) w :
  (∀ x w', x ∈ l → still w w' → answers_with (body x) (λ _, P x) w') →
  answers_with (for_each l body) (λ _, ∀ x, x ∈ l → P x) w.
Proof.
  intros Hstep. apply wp_for_each with (I := λ done w', still w w' ∧ ∀ x, x ∈ done → P x).
  - split; [done|]. by intros x ?%elem_of_nil.
  - intros ls x rest w' -> [Hs HP]. eapply wp_mono; [|eapply (Hstep x); [set_solver|done]].
    intros [[]|e| |] w'' [? HP']; (split; [by etrans|]); [|done..].
    intros y [?| ->%list_elem_of_singleton]%elem_of_app; auto.
  - by intros.
Qed.

(** One read of a handler, then the rest; an error of the read ends the handler. *)
Lemma wp_read {A B} (m : M W A) (k : A → M W B) P (Q : outcome B → W → Prop) w :
  answers_with m P w →
  (∀ a w', still w w' → P a → wp (k a) Q w') →
  (∀ r w', still w w' → is_ok r = false → Q r w') →
  wp (m ≫= k) Q w.
Proof.
  intros Hm Hk Herr. apply wp_bind. eapply wp_mono; [|exact Hm]. intros [a|e| |] w' [Hs HP]; auto.
Qed.
End AnswersWith.

Section Rules.
Context `{EngineLaws} `{!Tools, !ToolsLaws, !MsgTools, !MsgToolsLaws, !ListTools, !MapRange}.
Context `{!Services GroupEffect, !Webhook}.
Abbreviation W := (World (list GroupEffect)).
Context (config : GroupConfig) (ctx : CallContext).
Implicit Types w : W.

(** A row whose empty names are filled in. *)
Definition named (m m' : GroupMemberModel) : Prop := ∃ nickname face, m' = set_Member_names nickname face m.

Lemma named_refl m : named m m.
Proof. exists (Member_Nickname m), (Member_FaceURL m). by destruct m. Qed.
Lemma named_fill n f m : named m (fill_member n f m).
Proof. eexists _, _. done. Qed.
Lemma named_placed m m' : named m m' → placed m' = placed m.
Proof. intros (n & f & ->). by destruct m. Qed.
Lemma named_key m m' : named m m' → member_key m' = member_key m.
Proof. intros (n & f & ->). by destruct m. Qed.
Lemma named_role m m' : named m m' → Member_RoleLevel m' = Member_RoleLevel m.
Proof. intros (n & f & ->). by destruct m. Qed.
Lemma Forall2_named_refl l : Forall2 named l l.
Proof. apply Forall_Forall2_diag, Forall_forall. intros m _. apply named_refl. Qed.

Lemma answers_TakeGroup g w : Inv w →
  answers_with (TakeGroup g) (λ r, group_rows (w_tables w) !! g = Some r ∧ Group_GroupID r = g) w.
Proof.
  intros HI. apply wp_GetGroupInfo; [done|..].
  - intros w' r Hl Hr Hk. split; [by apply looks_still|done].
  - intros w' Hl _. split; [by apply looks_still|done].
  - intros w' e Hl _. split; [by apply looks_still|done].
Qed.

Lemma answers_TakeGroupMember g u w : Inv w → dash_free g →
  answers_with (TakeGroupMember g u)
    (λ m, member_rows (w_tables w) !! (g, u) = Some m ∧ member_key m = (g, u)) w.
Proof.
  intros HI Hg. apply wp_GetGroupMemberInfo; [done|done|..].
  - intros w' r Hl Hr Hk. split; [by apply looks_still|done].
  - intros w' Hl _. split; [by apply looks_still|done].
  - intros w' e Hl _. split; [by apply looks_still|done].
Qed.

Lemma answers_fill_members l w : answers_with (fill_members l) (λ l', Forall2 named l l') w.
Proof.
  unfold fill_members. case_match; [|apply answers_ret, Forall2_named_refl].
  eapply answers_bind; [by apply answers_any, _|]. intros users w' _ _. apply answers_ret.
  apply Forall2_fmap_r, Forall_Forall2_diag, Forall_forall. intros m _. cbn.
  case_match; [apply named_fill|apply named_refl].
Qed.

Lemma answers_member g u w : Inv w → dash_free g →
  answers_with (groupServer_TakeGroupMember g u)
    (λ m', ∃ m, member_rows (w_tables w) !! (g, u) = Some m ∧ member_key m = (g, u) ∧ named m m') w.
Proof.
  intros HI Hg. eapply answers_bind; [by apply answers_TakeGroupMember|]. intros m w' _ [Hm Hk].
  case_match; [|apply answers_ret; eauto using named_refl].
  eapply answers_bind; [by apply answers_any, _|]. intros user w'' _ _. apply answers_ret.
  eauto using named_fill.
Qed.

Lemma answers_GetGroupMembersInfo g us w : Inv w → dash_free g →
  answers_with (GetGroupMembersInfo g us) (eq (omap (λ u, member_rows (w_tables w) !! (g, u)) us)) w.
Proof.
  intros HI Hg. apply wp_GetGroupMembersInfo; [done|done|..].
  - intros w' Hl. split; [by apply looks_still|done].
  - intros w' e Hl _. split; [by apply looks_still|done].
Qed.

Lemma answers_filled (m : M W (list GroupMemberModel)) (l : list GroupMemberModel) w :
  answers_with m (eq l) w →
  answers_with (members ← m; fill_members members) (λ l', Forall2 named l l') w.
Proof. intros Hm. eapply answers_bind; [exact Hm|]. intros ? w' _ <-. apply answers_fill_members. Qed.

(** Some members of some groups, group by group. *)
Lemma answers_FindGroupMember gs us w : Inv w → (∀ g, g ∈ gs → dash_free g) → gs ≠ [] →
  answers_with (FindGroupMember gs us [])
    (eq (g ← gs; omap (λ u, member_rows (w_tables w) !! (g, u)) us)) w.
Proof.
  intros HI Hg Hne. destruct gs as [|g0 gs]; [done|].
  assert (answers_with (fold_each (g0 :: gs) [] (λ totalGroupMembers groupID,
    groupMembers ← GetGroupMembersInfo groupID us; mret (totalGroupMembers ++ groupMembers)))
    (eq (g ← g0 :: gs; omap (λ u, member_rows (w_tables w) !! (g, u)) us)) w) as Hfold; [|by destruct us as [|? []]].
  apply (answers_fold _ _ _ (λ done, eq (g ← done; omap (λ u, member_rows (w_tables w) !! (g, u)) us))); [done|].
  intros done g rest b w' Heq [Ht Hi] <-. eapply answers_bind.
  - apply answers_GetGroupMembersInfo; [auto|]. apply Hg. rewrite Heq. apply elem_of_app. right. by left.
  - intros l w'' _ <-. apply answers_ret. rewrite Ht, bind_app. cbn. by rewrite app_nil_r.
Qed.

Lemma answers_members g us w : Inv w → dash_free g →
  answers_with (groupServer_FindGroupMember [g] us [])
    (λ l, Forall2 named (omap (λ u, member_rows (w_tables w) !! (g, u)) us) l) w.
Proof.
  intros HI Hg. apply answers_filled. eapply answers_mono; [apply answers_FindGroupMember; [done| |done]|].
  - by intros g' ->%list_elem_of_singleton.
  - intros l <-. cbn. by rewrite app_nil_r.
Qed.

Lemma answers_owner g w : 
  answers_with (groupServer_TakeGroupOwner g) (λ m', ∃ m, member_rows (w_tables w) !! member_key m = Some m ∧
    Member_GroupID m = g ∧ Member_RoleLevel m = GroupOwner ∧ named m m') w.
Proof.
  eapply (answers_bind _ _ (λ m, member_rows (w_tables w) !! member_key m = Some m ∧
    Member_GroupID m = g ∧ Member_RoleLevel m = GroupOwner)).
  - apply wp_on_tables, wp_wrap_error, wp_members_query; [|by intros; split; rewrite ?put_get_tables].
    intros m [Hp Hm]%Take_ok. rewrite members_key in Hm. bool_facts. split; [by rewrite put_get_tables|done].
  - intros m w' _ (Hm & Hg & Hr). case_match; [|apply answers_ret; eauto 6 using named_refl].
    eapply answers_bind; [by apply answers_any, _|]. intros user w'' _ _. apply answers_ret.
    eauto 6 using named_fill.
Qed.

Lemma answers_request g u w :
  answers_with (TakeGroupRequest g u) (λ r, request_rows (w_tables w) !! (g, u) = Some r) w.
Proof.
  apply wp_on_tables, wp_wrap_error, wp_requests_query; [|by intros; split; rewrite ?put_get_tables].
  intros r [Hp Hr]%Take_ok. rewrite has_request_key in Hp. bool_facts. rewrite requests_key, Hp in Hr.
  split; [by rewrite put_get_tables|done].
Qed.

Definition the_caller : caller := mkCaller (opUserID ctx) (is_manager config ctx) (now ctx).

Lemma is_admin_role_spec ms g u m : ms !! (g, u) = Some m →
  is_admin_role (Member_RoleLevel m) = true → administers ms g u.
Proof.
  intros Hm Hr. unfold is_admin_role in Hr. unfold administers, role_in. rewrite Hm. cbn.
  bool_facts; [left|right]; congruence.
Qed.

Lemma answers_CheckGroupAdmin g w : Inv w → dash_free g →
  answers_with (CheckGroupAdmin config ctx g)
    (λ _, is_manager config ctx = true ∨ administers (member_rows (w_tables w)) g (opUserID ctx)) w.
Proof.
  intros HI Hg. unfold CheckGroupAdmin. destruct (is_manager config ctx) eqn:Em; cbn [negb].
  - apply answers_ret. by left.
  - eapply answers_bind; [by apply answers_TakeGroupMember|]. intros m w' _ [Hm _].
    eapply answers_mono; [apply answers_guard|]. intros _ Hr%negb_false_iff. right. by eapply is_admin_role_spec.
Qed.

Lemma answers_CheckAccess u w :
  answers_with (E:=list GroupEffect) (lift (CheckAccessV3 (Group_Manager_UserID config) (opUserID ctx) u))
    (λ _, is_manager config ctx = true ∨ opUserID ctx = u) w.
Proof.
  eapply answers_mono; [apply answers_lift|]. intros []. unfold CheckAccessV3, is_manager, IsAppManagerUid.
  case_match; [by left|]. case_bool_decide; [by right|done].
Qed.

(** *** The webhook

    It leaves the roles alone, and gives no group an id with a dash. *)

Class WebhookKeeps : Prop := {
  join_keeps_role req h resp : webhook_join req h = inl resp → CBJ_RoleLevel resp = None;
  set_keeps_role req h resp : webhook_set req h = inl resp → CBS_RoleLevel resp = None;
  create_dash_free req h resp g : webhook_create req h = inl resp → CBG_GroupID resp = Some g → dash_free g }.

Lemma answers_post {A} (hook : GroupCallbackReq → list GroupEffect → A + error) req w :
  answers_with (try (post hook req)) (λ r, match r with inl resp => ∃ h, hook req h = inl resp | _ => True end) w.
Proof.
  apply wp_and_moves with (R := still); [apply _|]. unfold post. apply wp_try, wp_zoom.
  unfold wp. destruct (hook req (w_env w)) as [resp|e] eqn:Eh; cbn [of_sum]; [|by auto].
  intros Hs. split; [done|]. by eexists.
Qed.

Lemma answers_callback {A} (hook : GroupCallbackReq → list GroupEffect → A + error) req w :
  answers_with (callback hook req) (λ o, ∀ resp, o = Some resp → ∃ h, hook req h = inl resp) w.
Proof.
  eapply answers_bind; [apply answers_post|]. intros [resp|e] w' _ Hr.
  - apply answers_ret. by intros ? [= <-].
  - case_bool_decide; [by apply answers_ret|apply answers_fail].
Qed.

Lemma replace_run {A} (old : A) new : replace (H:=_) old new = (mret (default old new) : M W A).
Proof. unfold replace. destruct new; [by rewrite NotNilReplace_some|by rewrite NotNilReplace_nil]. Qed.

Lemma answers_join_callback `{!WebhookKeeps} m ex w :
  answers_with (CallbackBeforeMemberJoinGroup config ctx m ex) (λ m', placed m' = placed m) w.
Proof.
  unfold CallbackBeforeMemberJoinGroup. case_match; [by apply answers_ret|]. destruct m.
  eapply answers_bind; [apply answers_callback|]. intros [resp|] w' _ Hr; [|by apply answers_ret].
  destruct (Hr resp eq_refl) as [h Hh%join_keeps_role]. rewrite !replace_run, Hh. by apply answers_ret.
Qed.

(** What a request for a member keeps of it. *)
Definition same_place (e e' : SetGroupMemberInfo) : Prop :=
  SetM_GroupID e' = SetM_GroupID e ∧ SetM_UserID e' = SetM_UserID e ∧ SetM_RoleLevel e' = SetM_RoleLevel e.

Lemma answers_set_callback `{!WebhookKeeps} e w :
  answers_with (CallbackBeforeSetGroupMemberInfo config ctx e) (same_place e) w.
Proof.
  unfold CallbackBeforeSetGroupMemberInfo. case_match; [by apply answers_ret|].
  eapply answers_bind; [apply answers_callback|]. intros [resp|] w' _ Hr; apply answers_ret; [|done].
  destruct (Hr resp eq_refl) as [h Hh%set_keeps_role]. split; [done|]. split; [done|]. cbn. by rewrite Hh.
Qed.

Lemma answers_create_callback `{!WebhookKeeps} req g w : dash_free (GI_GroupID g) →
  answers_with (CallbackBeforeCreateGroup config ctx req g) (λ g', dash_free (GI_GroupID g')) w.
Proof.
  intros Hg. unfold CallbackBeforeCreateGroup. case_match; [by apply answers_ret|].
  eapply answers_bind; [apply answers_callback|]. intros [resp|] w' _ Hr; [|by apply answers_ret].
  destruct (Hr resp eq_refl) as [h Hh]. rewrite !replace_run. apply answers_ret. cbn.
  destruct (CBG_GroupID resp) eqn:Eg; [|done]. cbn. by eapply create_dash_free.
Qed.

(** *** Generated ids *)

Lemma digits_dash_free s acc z : digits_value acc s = Some z → dash_free s.
Proof.
  revert acc. induction s as [|c s IH]; intros acc Hs a b E; [by destruct a|].
  cbn in Hs. destruct a as [|x a]; injection E as -> ->; [done|].
  destruct (digit_value x); [|done]. by eapply (IH _ Hs a b).
Qed.

Lemma pretty_dash_free (n : N) : dash_free (pretty n).
Proof. eapply digits_dash_free, digits_value_pretty. Qed.

(** Whether a group of the id is there. *)
Lemma answers_try_group g w : Inv w →
  answers_with (try (TakeGroup g)) (λ r, match r with
    | inl r => group_rows (w_tables w) !! g = Some r
    | inr e => group_IsNotFound e = true → group_rows (w_tables w) !! g = None end) w.
Proof.
  intros HI. apply wp_try, wp_GetGroupInfo; [done|..].
  - intros w' r Hl Hr _. split; [by apply looks_still|done].
  - intros w' Hl Hr. split; [by apply looks_still|done].
  - intros w' e Hl Hx. split; [by apply looks_still|]. by rewrite IsNotFound_external.
Qed.

Lemma answers_try_member g u w : Inv w → dash_free g →
  answers_with (try (TakeGroupMember g u)) (λ r, match r with
    | inl m => member_rows (w_tables w) !! (g, u) = Some m
    | inr e => group_IsNotFound e = true ∨ Unwrap e = ErrRecordNotFound → member_rows (w_tables w) !! (g, u) = None end) w.
Proof.
  intros HI Hg. apply wp_try, wp_GetGroupMemberInfo; [done|done|..].
  - intros w' r Hl Hr _. split; [by apply looks_still|done].
  - intros w' Hl Hr. split; [by apply looks_still|done].
  - intros w' e Hl Hx. split; [by apply looks_still|]. rewrite IsNotFound_external by done.
    intros [?|Hu]; [done|]. destruct Hx as [n Hn]. congruence.
Qed.

Lemma answers_gen_loop todo i w : Inv w →
  answers_with (gen_loop ctx todo i) (λ id, dash_free id ∧ group_rows (w_tables w) !! id = None) w.
Proof.
  revert i w. induction todo as [|todo IH]; intros i w HI; [apply answers_fail|]. cbn [gen_loop].
  eapply (answers_bind _ _ dash_free).
  { eapply answers_bind; [apply answers_deref|]. intros n w' _ _. apply answers_ret, pretty_dash_free. }
  intros id w1 [Ht1 Hi1] Hid. eapply answers_bind; [apply answers_try_group; auto|].
  intros [r|e] w2 [Ht2 Hi2] Hr.
  - rewrite <-Ht1, <-Ht2. apply IH. auto.
  - destruct (group_IsNotFound e); [|apply answers_fail]. apply answers_ret. split; [done|].
    rewrite <-Ht1. by apply Hr.
Qed.

Lemma answers_GenGroupID g w : Inv w → dash_free g →
  answers_with (GenGroupID ctx g) (λ id, dash_free id ∧ group_rows (w_tables w) !! id = None) w.
Proof.
  intros HI Hg. unfold GenGroupID. case_match; [|by apply answers_gen_loop].
  eapply answers_bind; [by apply answers_try_group|]. intros [r|e] w' _ Hr; [apply answers_fail|].
  destruct (group_IsNotFound e); [|apply answers_fail]. apply answers_ret. auto.
Qed.
End Rules.
