(* ===== verification/GroupProofs.v ===== *)
(** * The group service implements its promise

    Every handler of GroupServer.v that changes groups, called in a state whose
    cache is coherent, takes the rows of the tables along a step of GroupSpec.v,
    or leaves them alone; it answers without an error only after the step; and
    the cache is coherent afterwards.  This holds whatever the other services
    and the webhook answer, whichever statement fails and whenever a cached value
    expires, provided that the webhook leaves roles alone ([WebhookKeeps]), that
    a deletion of a cached key succeeds within its retries ([TagSucceeds]) and
    that no dismissal deletes the members ([call_ok]). *)

From S2P Require Import Prelude.
From S2P Require Import Constants.
From S2P Require Import MsgTypes.
From S2P Require Import Tools.
From S2P Require Import Notification.
From S2P Require Import RpcClient.
From S2P Require Import Auth.
From S2P Require Import GroupTypes.
From S2P Require Import Sql.
From S2P Require Import RowCache.
From S2P Require Import GroupStore.
From S2P Require Import GroupCache.
From S2P Require Import GroupDatabase.
From S2P Require Import GroupNotification.
From S2P Require Import GroupServer.
From S2P Require Import GroupSpec.
From S2P Require Import GroupCoherence.
From S2P Require Import GroupChanges.
From S2P Require Import GroupReads.
From stdpp Require Import options.
#[local] Set Default Proof Using "Type*".

#[local] Open Scope Z_scope.

Section Handlers.
Context `{EngineLaws} `{!TagSucceeds RC}.
Context `{!Tools, !ToolsLaws, !MsgTools, !MsgToolsLaws, !ListTools, !MapRange}.
Context `{!Services GroupEffect, !Webhook, !WebhookKeeps}.
Abbreviation W := (World (list GroupEffect)).
Context (config : GroupConfig) (ctx : CallContext).
Context (StructToJsonString : GroupTips → string) (Marshal_elem : string → string + error).
Context (answers : list GroupEffect → GroupEffect → option error).
Context (GetConversationMaxSeq : string → list GroupEffect → Z + error).
Implicit Types (t : Tables) (w : W).
Abbreviation op := (opUserID ctx).
Abbreviation step t call rs' := (group_step (the_caller config ctx) (rows_of t) call rs').

(** *** Running a handler *)

(** What a call leaves: the tables were [t] when it began. *)
Definition done_by {A} t (call : group_call) (r : outcome A) w' : Prop :=
  Inv w' ∧
  (rows_of (w_tables w') = rows_of t ∨ step t call (rows_of (w_tables w'))) ∧
  (is_ok r = true → step t call (rows_of (w_tables w'))).

Lemma wp_reading {A B} (m : M W A) (k : A → M W B) P t call w :
  w_tables w = t → Inv w → answers_with m P w →
  (∀ a w', P a → w_tables w' = t → Inv w' → wp (k a) (done_by t call) w') →
  wp (m ≫= k) (done_by t call) w.
Proof.
  intros Ht HI Hm Hk. eapply wp_read; [exact Hm|..].
  - intros a w' [Ht' HI'] HP. apply Hk; [done|congruence|auto].
  - intros r w' [Ht' HI'] Hr. split; [auto|]. split; [left; congruence|]. by rewrite Hr.
Qed.

Lemma wp_changing {A} (m : M W ()) (k : () → M W A) P t call w :
  w_tables w = t → wp m (changes w P) w →
  (∀ w', Inv w' → P (rows_of (w_tables w')) → wp (k ()) (done_by t call) w') →
  wp (m ≫= k) (done_by t call) w.
Proof.
  intros Ht Hm Hk. apply wp_bind. eapply wp_mono; [|exact Hm].
  intros r w' [HI [[-> HP]|[[e ->] Hr]]]; [by apply Hk|].
  split; [done|]. split; [left; congruence|done].
Qed.

(** The step is done, and what follows only tells others. *)
Lemma wp_afterwards {A} (m : M W A) t call w :
  Moves still m → Inv w → step t call (rows_of (w_tables w)) → wp m (done_by t call) w.
Proof.
  intros Hm HI Hs. apply (wp_moves still m). intros r w' [Ht Hi]. rewrite <-Ht in Hs. split; auto.
Qed.

(** The handler ends with an error, and nothing has changed. *)
Lemma wp_refused {A} (m : M W A) P t call w :
  w_tables w = t → Inv w → answers_with m P w → (∀ a, ¬ P a) → wp m (done_by t call) w.
Proof.
  intros Ht HI Hm HP. eapply wp_mono; [|exact Hm]. intros r w' [[Ht' Hi] Hr].
  split; [auto|]. split; [left; congruence|]. destruct r; [|done..]. by destruct (HP a).
Qed.

(** [reading L] runs the next read of a handler, which [L] answers. *)
Ltac reading L :=
  lazymatch goal with
  | Ht : w_tables ?w = ?t, HI : Inv ?w |- wp _ _ ?w =>
      eapply (wp_reading _ _ _ _ _ _ Ht HI); [L|rewrite ?Ht; clear Ht HI; try clear w; cbv beta]
  end.

Lemma wp_assoc {A B C} (m : M W A) (k : A → M W B) (k' : B → M W C) Q w :
  wp (m ≫= λ a, k a ≫= k') Q w → wp ((m ≫= k) ≫= k') Q w.
Proof. rewrite !wp_eq. unfold mbind, M_bind. by destruct (m w) as [[] ?]. Qed.

Lemma refine_QuitGroup req t w : w_tables w = t → Inv w → dash_free (Quit_GroupID req) →
  wp (QuitGroup config ctx StructToJsonString Marshal_elem answers GetConversationMaxSeq req)
    (done_by t (Call_QuitGroup req)) w.
Proof.
  intros Ht HI Hg. unfold QuitGroup.
  eapply (wp_reading _ _ (λ u, u = (if bool_decide (Quit_UserID req = "") then op else Quit_UserID req) ∧
    (u = op ∨ is_manager config ctx = true))); [exact Ht|exact HI| |].
  { case_bool_decide; [apply answers_ret; auto|]. eapply answers_bind; [apply answers_CheckAccess|].
    intros [] w' _ Hc. apply answers_ret. naive_solver. }
  clear HI Ht w. intros u w [Hu Hop] Ht HI.
  reading ltac:(by apply answers_TakeGroup). intros g w [Hrow Hid] Ht HI.
  destruct (Group_GroupType g =? SuperGroup) eqn:Hsuper; bool_facts.
  - by apply wp_afterwards; [apply _|done|rewrite Ht; eapply step_QuitGroup_super].
  - apply wp_assoc. reading ltac:(by apply answers_member). intros m' w (m & Hm & Hk & Hn) Ht HI.
    apply wp_assoc. reading ltac:(by apply answers_guard). intros [] w Hrole Ht HI. bool_facts.
    apply wp_assoc. eapply wp_changing; [exact Ht|by apply wp_DeleteGroupMember|]. intros w' HI' Hrows.
    apply wp_afterwards; [apply _|done|]. rewrite <-Hrows, Ht. rewrite (named_role _ _ Hn) in Hrole.
    eapply step_QuitGroup; [done|done|done|done| |exact Hrole]. unfold role_in. cbn. by rewrite Hm.
Qed.

(** *** Members by their user *)

Lemma member_row_key t k m : member_rows t !! k = Some m → member_key m = k.
Proof. intros Hm%rows_key. by rewrite members_key in Hm. Qed.

Lemma member_map_lookup t g us l u m' :
  Forall2 named (omap (λ u, member_rows t !! (g, u)) us) l →
  SliceToMap Member_UserID l !! u = Some m' →
  ∃ m, member_rows t !! (g, u) = Some m ∧ named m m'.
Proof.
  intros Hl [Hin Hu]%SliceToMap_some. apply list_elem_of_lookup in Hin as [i Hi].
  destruct (Forall2_lookup_r _ _ _ _ _ Hl Hi) as (m & Hm%list_elem_of_lookup_2 & Hn).
  apply list_elem_of_omap in Hm as (u' & _ & Hm). pose proof (member_row_key _ _ _ Hm) as Hk.
  exists m. split; [|done]. rewrite <-(named_key _ _ Hn) in Hk. injection Hk as _ <-. by rewrite Hu in Hm.
Qed.

Lemma answers_check_kick ms u w :
  answers_with (check_kick config ctx ms u) (λ _, ∃ m, ms !! u = Some m ∧ (is_manager config ctx = true ∨
    ∃ o, ms !! op = Some o ∧ (Member_RoleLevel o = GroupOwner ∨
      Member_RoleLevel o = GroupAdmin ∧ is_admin_role (Member_RoleLevel m) = false))) w.
Proof.
  unfold check_kick. destruct (ms !! u) as [m|]; [|apply answers_fail].
  destruct (is_manager config ctx); [apply answers_ret; eauto|].
  destruct (ms !! op) as [o|] eqn:Ho; [|apply answers_fail].
  repeat case_match; bool_facts; try apply answers_fail; [apply answers_ret; eauto 8|].
  eapply answers_mono; [apply answers_guard|]. intros; eauto 8.
Qed.

Lemma is_admin_role_false ms g u m : ms !! (g, u) = Some m → is_admin_role (Member_RoleLevel m) = false →
  ¬ administers ms g u.
Proof.
  intros Hm Hr Ha. unfold is_admin_role in Hr. unfold administers, role_in in Ha. rewrite Hm in Ha. cbn in Ha.
  bool_facts. destruct Ha; congruence.
Qed.

(** What the checks of all the members say of the table. *)
Lemma checked_kick t g us l :
  us ≠ [] →
  Forall2 named (omap (λ u, member_rows t !! (g, u)) (us ++ [op])) l →
  (∀ u, u ∈ us → ∃ m, SliceToMap Member_UserID l !! u = Some m ∧ (is_manager config ctx = true ∨
    ∃ o, SliceToMap Member_UserID l !! op = Some o ∧ (Member_RoleLevel o = GroupOwner ∨
      Member_RoleLevel o = GroupAdmin ∧ is_admin_role (Member_RoleLevel m) = false))) →
  (∀ u, u ∈ us → is_Some (member_rows t !! (g, u))) ∧
  (is_manager config ctx = true ∨ may_kick (member_rows t) op g us).
Proof.
  intros Hne Hl Hcheck. split.
  { intros u (m' & Hm' & _)%Hcheck. destruct (member_map_lookup _ _ _ _ _ _ Hl Hm') as (m & Hm & _). by exists m. }
  destruct (is_manager config ctx); [by left|right].
  destruct us as [|u0 us']; [done|]. destruct (Hcheck u0) as (m0 & Hm0 & [?|(o' & Ho' & Hrole)]); [by left|done|].
  destruct (member_map_lookup _ _ _ _ _ _ Hl Ho') as (o & Ho & Hno). unfold may_kick, role_in. rewrite Ho. cbn.
  rewrite <-(named_role _ _ Hno). destruct Hrole as [->|[Hadm _]]; [by left|right]. split; [by rewrite Hadm|].
  intros u (m' & Hm' & [?|(o2 & Ho2 & Hrole)])%Hcheck; [done|].
  destruct (member_map_lookup _ _ _ _ _ _ Hl Hm') as (m & Hm & Hn).
  assert (o2 = o') as -> by congruence. destruct Hrole as [Hown|[_ Hno']]; [rewrite Hadm in Hown; discriminate Hown|].
  rewrite (named_role _ _ Hn) in Hno'. by eapply is_admin_role_false.
Qed.

Lemma refine_KickGroupMember req t w : w_tables w = t → Inv w → dash_free (Kick_GroupID req) →
  wp (KickGroupMember config ctx StructToJsonString Marshal_elem answers GetConversationMaxSeq req)
    (done_by t (Call_KickGroupMember req)) w.
Proof.
  intros Ht HI Hg. unfold KickGroupMember.
  reading ltac:(by apply answers_TakeGroup). intros g w [Hrow Hid] Ht HI.
  reading ltac:(by apply answers_guard). intros [] w Hne Ht HI.
  reading ltac:(by apply answers_guard). intros [] w _ Ht HI.
  reading ltac:(by apply answers_guard). intros [] w Hop Ht HI.
  rewrite Contain_spec in Hop. bool_facts.
  destruct (Group_GroupType g =? SuperGroup) eqn:Hsuper; bool_facts.
  { by apply wp_afterwards; [apply _|done|rewrite Ht; eapply step_KickGroupMember_super]. }
  apply wp_assoc. reading ltac:(by apply answers_members). intros l w Hl Ht HI.
  apply wp_assoc. reading ltac:(by apply answers_for_each; intros; apply answers_check_kick). intros [] w Hcheck Ht HI.
  apply wp_assoc. reading ltac:(by apply answers_any, _). intros num w _ Ht HI.
  apply wp_assoc. reading ltac:(by apply answers_any, _). intros owner w _ Ht HI.
  apply wp_assoc. eapply wp_changing; [exact Ht|by apply wp_DeleteGroupMember|]. intros w' HI' Hrows.
  apply wp_afterwards; [apply _|done|]. rewrite <-Hrows, Ht, Hid.
  edestruct checked_kick as [Hall Hmay]; [|exact Hl|exact Hcheck|]; [by intros E; rewrite E in Hne|].
  by eapply step_KickGroupMember.
Qed.

Lemma refine_TransferGroupOwner req t w : w_tables w = t → Inv w → dash_free (Transfer_GroupID req) →
  wp (TransferGroupOwner config ctx StructToJsonString Marshal_elem answers req)
    (done_by t (Call_TransferGroupOwner req)) w.
Proof.
  intros Ht HI Hg. unfold TransferGroupOwner.
  reading ltac:(by apply answers_TakeGroup). intros g w [Hrow Hid] Ht HI.
  reading ltac:(by apply answers_guard). intros [] w Hst Ht HI.
  reading ltac:(by apply answers_guard). intros [] w Hne Ht HI.
  reading ltac:(by apply answers_members). intros l w Hl Ht HI.
  reading ltac:(by apply answers_guard). intros [] w _ Ht HI. bool_facts.
  destruct (SliceToMap Member_UserID l !! Transfer_OldOwnerUserID req) as [mo'|] eqn:Ho;
    [|by eapply wp_refused; [done|done|by apply answers_fail|intros a HF; exact HF]].
  destruct (SliceToMap Member_UserID l !! Transfer_NewOwnerUserID req) as [mn'|] eqn:Hn;
    [|by eapply wp_refused; [done|done|by apply answers_fail|intros a HF; exact HF]].
  destruct (member_map_lookup _ _ _ _ _ _ Hl Ho) as (mo & Hmo & Hno).
  destruct (member_map_lookup _ _ _ _ _ _ Hl Hn) as (mn & Hmn & Hnn).
  eapply (wp_reading _ _ (λ _, is_manager config ctx = true ∨
    op = Transfer_OldOwnerUserID req ∧ Member_RoleLevel mo = GroupOwner)); [exact Ht|exact HI| |].
  { destruct (is_manager config ctx); [apply answers_ret; by left|].
    eapply answers_mono; [apply answers_guard|]. intros [] Hp. bool_facts. right.
    rewrite (named_role _ _ Hno) in *. apply SliceToMap_some in Ho as [_ Ho]. split; congruence. }
  clear w Ht HI. intros [] w Hperm Ht HI.
  eapply wp_changing; [exact Ht|by apply wp_groupDatabase_TransferGroupOwner|].
  intros w' HI' (Hrows & (ro & Hro & Hne1) & (rn & Hrn & Hne2)).
  apply wp_afterwards; [apply _|done|]. rewrite Hrows, Ht in *. rewrite (named_role _ _ Hnn) in *.
  unfold role_in in Hro, Hrn. rewrite Hmo in Hro. rewrite Hmn in Hrn. injection Hro as <-. injection Hrn as <-.
  eapply step_TransferGroupOwner; try done; unfold role_in; cbn; [by rewrite Hmo|by rewrite Hmn].
Qed.

(** A refusal by an error. *)
Lemma wp_fails {A} e t call w : w_tables w = t → Inv w → wp (fail e : M W A) (done_by t call) w.
Proof. intros Ht HI. apply (wp_refused _ (λ _, False) t call w Ht HI); [apply answers_fail|auto]. Qed.

Lemma refine_DismissGroup req t w : w_tables w = t → Inv w → Dismiss_DeleteMember req = false →
  wp (DismissGroup config ctx StructToJsonString Marshal_elem answers req)
    (done_by t (Call_DismissGroup req)) w.
Proof.
  intros Ht HI Hdel. unfold DismissGroup.
  reading ltac:(by apply answers_owner). intros o' w (o & Ho & Hog & Hor & Hn) Ht HI.
  eapply (wp_reading _ _ (λ _, is_manager config ctx = true ∨ Member_UserID o' = op)); [exact Ht|exact HI| |].
  { destruct (is_manager config ctx); [apply answers_ret; by left|].
    eapply answers_mono; [apply answers_guard|]. intros [] Hp. bool_facts. by right. }
  clear w Ht HI. intros [] w Hperm Ht HI.
  reading ltac:(by apply answers_TakeGroup). intros g w [Hrow Hid] Ht HI.
  reading ltac:(by apply answers_guard). intros [] w Hst Ht HI. rewrite Hdel in *. cbn in Hst. bool_facts.
  eapply wp_changing; [exact Ht|by apply wp_groupDatabase_DismissGroup|]. intros w' HI' Hrows.
  apply wp_afterwards; [apply _|done|].
  rewrite <-Hrows, Ht. eapply (step_DismissGroup _ _ req g (Member_UserID o')); try done.
  pose proof (named_key _ _ Hn) as Hk. injection Hk as Hkg Hku. rewrite Hku. unfold role_in.
  replace (Dismiss_GroupID req, Member_UserID o) with (member_key o) by (unfold member_key; by rewrite Hog).
  cbn. rewrite Ho. cbn. by rewrite Hor.
Qed.

(** *** Muting *)

Lemma answers_check_mute t g u m m' w : w_tables w = t → Inv w → dash_free g →
  member_rows t !! (g, u) = Some m → named m m' →
  answers_with (check_mute config ctx m' g)
    (λ _, is_manager config ctx = true ∨ may_mute (member_rows t) op g u) w.
Proof.
  intros Ht HI Hg Hm Hn. unfold check_mute. destruct (is_manager config ctx); [apply answers_ret; by left|].
  eapply answers_bind; [by apply answers_member|]. intros o' w' _ (o & Ho & _ & Hno). rewrite Ht in Ho.
  assert (∀ b e, (b = false → may_mute (member_rows t) op g u) →
    answers_with (guard b e : M W ()) (λ _, false = true ∨ may_mute (member_rows t) op g u) w') as Hguard.
  { intros b e Hb. eapply answers_mono; [apply answers_guard|]. intros [] E. right. auto. }
  rewrite (named_role _ _ Hn), (named_role _ _ Hno).
  destruct (Member_RoleLevel m =? GroupOwner) eqn:E1; [apply answers_fail|].
  destruct (Member_RoleLevel m =? GroupAdmin) eqn:E2; [|destruct (Member_RoleLevel m =? GroupOrdinaryUsers) eqn:E3];
    [apply Hguard; intros E|apply Hguard; intros E|apply answers_ret; right]; bool_facts;
    exists m, o; repeat split; try done; intros E'; rewrite ?E2 in *; try done; try lia; auto.
Qed.

Lemma refine_MuteGroupMember req t w : w_tables w = t → Inv w → dash_free (Mute_GroupID req) →
  wp (MuteGroupMember config ctx StructToJsonString Marshal_elem answers req)
    (done_by t (Call_MuteGroupMember req)) w.
Proof.
  intros Ht HI Hg. unfold MuteGroupMember.
  reading ltac:(by apply answers_member). intros m' w (m & Hm & Hk & Hn) Ht HI.
  reading ltac:(by eapply answers_check_mute). intros [] w Hmay Ht HI.
  pose proof (named_key _ _ Hn) as Hk'. rewrite Hk in Hk'. injection Hk' as -> ->.
  eapply wp_changing; [exact Ht|by apply wp_UpdateGroupMember|]. intros w' HI' Hrows.
  apply wp_afterwards; [apply _|done|]. rewrite <-Hrows, Ht. apply step_MuteGroupMember; [by exists m|done].
Qed.

Lemma refine_CancelMuteGroupMember g u t w : w_tables w = t → Inv w → dash_free g →
  wp (CancelMuteGroupMember config ctx StructToJsonString Marshal_elem answers g u)
    (done_by t (Call_CancelMuteGroupMember g u)) w.
Proof.
  intros Ht HI Hg. unfold CancelMuteGroupMember.
  reading ltac:(by apply answers_member). intros m' w (m & Hm & Hk & Hn) Ht HI.
  reading ltac:(by eapply answers_check_mute). intros [] w Hmay Ht HI.
  pose proof (named_key _ _ Hn) as Hk'. rewrite Hk in Hk'. injection Hk' as -> ->.
  eapply wp_changing; [exact Ht|by apply wp_UpdateGroupMember|]. intros w' HI' Hrows.
  apply wp_afterwards; [apply _|done|]. rewrite <-Hrows, Ht. apply step_CancelMuteGroupMember; [by exists m|done].
Qed.

Lemma refine_MuteGroup g t w : w_tables w = t → Inv w → dash_free g →
  wp (MuteGroup config ctx StructToJsonString Marshal_elem answers g) (done_by t (Call_MuteGroup g)) w.
Proof.
  intros Ht HI Hg. unfold MuteGroup.
  reading ltac:(by apply answers_CheckGroupAdmin). intros [] w Hperm Ht HI.
  eapply wp_changing; [exact Ht|by apply wp_UpdateGroup|]. intros w' HI' Hrows.
  apply wp_afterwards; [apply _|done|]. rewrite <-Hrows, Ht. by apply step_MuteGroup.
Qed.

Lemma refine_CancelMuteGroup g t w : w_tables w = t → Inv w → dash_free g →
  wp (CancelMuteGroup config ctx StructToJsonString Marshal_elem answers g) (done_by t (Call_CancelMuteGroup g)) w.
Proof.
  intros Ht HI Hg. unfold CancelMuteGroup.
  reading ltac:(by apply answers_CheckGroupAdmin). intros [] w Hperm Ht HI.
  eapply wp_changing; [exact Ht|by apply wp_UpdateGroup|]. intros w' HI' Hrows.
  apply wp_afterwards; [apply _|done|]. rewrite <-Hrows, Ht. by apply step_CancelMuteGroup.
Qed.

(** *** The information of a group *)

Lemma set_group_nothing g rs : set_group g [] rs = rs.
Proof.
  destruct rs as [gs ms rq]. unfold set_group. cbn. f_equal. apply map_eq. intros k.
  rewrite lookup_alter_fmap. destruct (gs !! k); cbn; [by case_decide|done].
Qed.

Lemma refine_SetGroupInfo o t w : w_tables w = t → Inv w →
  (∀ set, o = Some set → dash_free (Set_GroupID set)) →
  wp (SetGroupInfo config ctx StructToJsonString Marshal_elem answers o) (done_by t (Call_SetGroupInfo o)) w.
Proof.
  intros Ht HI Hg. unfold SetGroupInfo.
  reading ltac:(by apply answers_deref). intros set w -> Ht HI. specialize (Hg set eq_refl).
  eapply (wp_reading _ _ (λ _, is_manager config ctx = true ∨ administers (member_rows t) (Set_GroupID set) op));
    [exact Ht|exact HI| |].
  { destruct (is_manager config ctx); [apply answers_ret; by left|].
    eapply answers_bind; [by apply answers_member|]. intros m' w' _ (m & Hm & _ & Hn). rewrite Ht in Hm.
    eapply answers_bind; [by apply answers_guard|]. intros [] w2 _ Hp%negb_false_iff. apply answers_ret. right.
    rewrite (named_role _ _ Hn) in Hp. by eapply is_admin_role_spec. }
  clear w Ht HI. intros om w Hperm Ht HI.
  reading ltac:(by apply answers_TakeGroup). intros g w [Hrow Hid] Ht HI.
  reading ltac:(by apply answers_guard). intros [] w Hst Ht HI. bool_facts.
  reading ltac:(by apply answers_any, _). intros num w _ Ht HI.
  reading ltac:(by apply answers_any, _). intros owner w _ Ht HI.
  assert (step t (Call_SetGroupInfo (Some set)) (set_group (Set_GroupID set)
    (UpdateGroupInfoMap (now ctx) op set) (rows_of t))) as Hstep by (by eapply step_SetGroupInfo).
  destruct (len (UpdateGroupInfoMap (now ctx) op set) =? 0) eqn:Elen.
  { bool_facts. destruct (UpdateGroupInfoMap (now ctx) op set) as [|c cs]; [|unfold len in Elen; cbn in Elen; lia].
    apply wp_afterwards; [apply _|done|]. rewrite set_group_nothing in Hstep. by rewrite Ht. }
  eapply wp_changing; [exact Ht|by apply wp_UpdateGroup|]. intros w' HI' Hrows.
  apply wp_afterwards; [apply _|done|]. by rewrite <-Hrows, Ht, Hid.
Qed.

(** *** Joining *)

Lemma answers_on_env {A} (m : M (list GroupEffect) A) (P : A → Prop) w :
  wp m (λ r _, match r with Ok a => P a | _ => True end) (w_env w) → answers_with (on_env m) P w.
Proof.
  intros Hm. apply wp_and_moves with (R := still); [apply _|]. apply wp_zoom.
  eapply wp_mono; [|exact Hm]. intros [] s ?; by split.
Qed.

Lemma answers_GetUserInfo u w : answers_with (on_env (GetUserInfo u)) (λ user, UI_UserID user = u) w.
Proof. apply answers_on_env. eapply wp_mono; [|apply wp_GetUserInfo]. by intros []. Qed.

(** One row that is placed where it should be, and was not there. *)
Lemma new_member_row ms m g u : placed m = (g, u, GroupOrdinaryUsers) → ms !! member_key m = None →
  new_members ms [m] (ordinary_places g [u]).
Proof.
  intros Hp Hn. split; [cbn; by rewrite Hp|]. split; [apply NoDup_singleton|]. by intros ? ->%list_elem_of_singleton.
Qed.

Lemma answers_not_member t g u r w : w_tables w = t →
  match r with
  | inl m => member_rows t !! (g, u) = Some m
  | inr e => group_IsNotFound e = true ∨ Unwrap e = ErrRecordNotFound → member_rows t !! (g, u) = None
  end →
  answers_with (match r with
     | inl _ => fail (Wrap ErrArgs "already in group")
     | inr err => guard (negb (group_IsNotFound err) && negb (bool_decide (Unwrap err = ErrRecordNotFound))) err
     end) (λ _ : (), member_rows t !! (g, u) = None) w.
Proof.
  intros Ht Hr. destruct r as [m|e]; [apply answers_fail|].
  eapply answers_mono; [apply answers_guard|]. intros [] Hn. apply Hr. bool_facts; auto.
Qed.

Lemma refine_JoinGroup req t w : w_tables w = t → Inv w → dash_free (Join_GroupID req) →
  wp (JoinGroup config ctx StructToJsonString Marshal_elem answers req) (done_by t (Call_JoinGroup req)) w.
Proof.
  intros Ht HI Hg. unfold JoinGroup.
  reading ltac:(by apply answers_GetUserInfo). intros user w Huser Ht HI.
  reading ltac:(by apply answers_TakeGroup). intros g w [Hrow Hid] Ht HI.
  reading ltac:(by apply answers_guard). intros [] w Hst Ht HI. bool_facts.
  reading ltac:(by apply answers_try_member). intros r w Hr Ht HI.
  reading ltac:(by eapply answers_not_member). intros [] w Hnone Ht HI.
  destruct (Group_NeedVerification g =? Directly) eqn:Edir; bool_facts.
  - reading ltac:(by apply answers_guard). intros [] w Hsuper Ht HI. bool_facts.
    reading ltac:(by apply answers_join_callback). intros m w Hp Ht HI. unfold placed in Hp at 2. cbn in Hp.
    rewrite Hid, Huser in Hp. pose proof Hp as Hk. injection Hk as Hmg Hmu _.
    eapply wp_changing; [exact Ht|apply wp_groupDatabase_CreateGroup|]; [done|by intros ? ?%elem_of_nil|..].
    { intros m' ->%list_elem_of_singleton. rewrite Hmg, Ht. by exists g. }
    intros w' HI' (Hrows & _ & _ & Hnew). apply wp_afterwards; [apply _|done|]. rewrite Hrows, Ht in *.
    eapply step_JoinGroup_directly; try done. apply new_member_row; [done|]. apply Hnew. by left.
  - eapply wp_changing; [exact Ht|by apply wp_CreateGroupRequest|]. intros w' HI' Hrows.
    apply wp_afterwards; [apply _|done|]. rewrite <-Hrows, Ht. by eapply step_JoinGroup_request.
Qed.

(** *** Answering a request *)

Lemma refine_GroupApplicationResponse req t w : w_tables w = t → Inv w → dash_free (Response_GroupID req) →
  wp (GroupApplicationResponse config ctx StructToJsonString Marshal_elem answers req)
    (done_by t (Call_GroupApplicationResponse req)) w.
Proof.
  intros Ht HI Hg. unfold GroupApplicationResponse.
  reading ltac:(by apply answers_guard). intros [] w Hres Ht HI.
  reading ltac:(by apply answers_CheckGroupAdmin). intros [] w Hperm Ht HI.
  reading ltac:(by apply answers_TakeGroup). intros g w [Hrow Hid] Ht HI.
  reading ltac:(by apply answers_request). intros r w Hreq Ht HI.
  reading ltac:(by apply answers_guard). intros [] w Hpend Ht HI. bool_facts.
  reading ltac:(by apply answers_try_member). intros o w Ho Ht HI.
  eapply (wp_reading _ _ (λ b, b = negb (bool_decide (member_rows t !! (Response_GroupID req, Response_FromUserID req) = None))));
    [exact Ht|exact HI| |].
  { destruct o as [m|e]; [apply answers_ret; by rewrite Ho|].
    destruct (group_IsNotFound e); [|apply answers_fail]. apply answers_ret. rewrite Ho by auto. done. }
  clear w Ht HI. intros inGroup w Hin Ht HI.
  reading ltac:(by apply answers_any, _). intros user w _ Ht HI.
  set (places := if (Response_HandleResult req =? GroupResponseAgree) &&
            bool_decide (member_rows t !! (Response_GroupID req, Response_FromUserID req) = None)
         then ordinary_places (Response_GroupID req) [Response_FromUserID req] else []).
  eapply (wp_reading _ _ (λ om, placed <$> option_list om = places)); [exact Ht|exact HI| |].
  { rewrite Hin, negb_involutive, andb_comm. subst places. rewrite andb_comm.
    destruct (_ && _); [|by apply answers_ret].
    eapply answers_bind; [by apply answers_join_callback|]. intros m w' _ Hp. apply answers_ret. cbn. by rewrite Hp. }
  clear w Ht HI. intros om w Hplaces Ht HI.
  eapply wp_changing; [exact Ht|apply wp_HandlerGroupRequest; [done|]|].
  { intros m ->. assert (placed m ∈ places) as Hp by (rewrite <-Hplaces; by left). subst places.
    destruct (_ && _); [|by apply elem_of_nil in Hp]. apply list_elem_of_singleton in Hp. injection Hp as -> _ _.
    split; [done|]. rewrite Ht. by exists g. }
  intros w' HI' [Hrows Hnew]. apply wp_afterwards; [|done|].
  { destruct (_ =? GroupResponseAgree); apply _. }
  rewrite Hrows, Ht in *. replace (alter _ _ _) with
    (<[(Response_GroupID req, Response_FromUserID req) :=
        set_Handled (Response_HandledMsg req) (Response_HandleResult req) r]> (request_rows t)).
  2:{ apply map_eq. intros k. rewrite lookup_insert, lookup_alter_fmap. case_decide as Hk.
      - rewrite <-Hk, Hreq. cbn. by rewrite decide_True.
      - destruct (request_rows t !! k); [|done]. cbn. by rewrite decide_False. }
  eapply step_GroupApplicationResponse; try done.
  - rewrite Contain_spec in Hres. bool_facts. apply elem_of_cons in Hres as [?|?%list_elem_of_singleton]; auto.
  - split; [exact Hplaces|]. destruct om as [m|]; cbn.
    + split; [apply NoDup_singleton|]. intros m' ->%list_elem_of_singleton. by apply Hnew.
    + split; [constructor|]. by intros m ?%elem_of_nil.
Qed.

(** *** Inviting *)

Lemma answers_joinGroup g ex role l u w :
  answers_with (joinGroup config ctx g ex role l u) (λ l', placed <$> l' = (placed <$> l) ++ [(g, u, role)]) w.
Proof.
  eapply answers_bind; [by apply answers_join_callback|]. intros m w' _ Hm. apply answers_ret.
  by rewrite fmap_app; cbn; rewrite Hm.
Qed.

Lemma answers_join_all g ex role us l w :
  answers_with (fold_each us l (joinGroup config ctx g ex role))
    (λ l', placed <$> l' = (placed <$> l) ++ ((λ u, (g, u, role)) <$> us)) w.
Proof.
  apply (answers_fold _ _ _ (λ done l', placed <$> l' = (placed <$> l) ++ ((λ u, (g, u, role)) <$> done))).
  - by rewrite app_nil_r.
  - intros done u rest b w' _ _ Hb. eapply answers_mono; [apply answers_joinGroup|]. intros l' ->.
    by rewrite Hb, fmap_app, app_assoc.
Qed.

Lemma placed_group (l : list GroupMemberModel) (places : list (string * string * Z)) m g : placed <$> l = places → m ∈ l →
  (∀ g' u r, (g', u, r) ∈ places → g' = g) → Member_GroupID m = g.
Proof. intros <- Hm Hg. eapply Hg. by apply (list_elem_of_fmap_2 placed) in Hm. Qed.

Lemma ordinary_places_group g us g' u r : (g', u, r) ∈ ordinary_places g us → g' = g.
Proof. by intros (? & [= -> _] & _)%list_elem_of_fmap. Qed.

Definition may_invite t (req : InviteUserToGroupReq) (g : GroupModel) : Prop :=
  is_manager config ctx = true ∨ is_Some (member_rows t !! (Invite_GroupID req, op)) ∧
    (Group_NeedVerification g = AllNeedVerification → administers (member_rows t) (Invite_GroupID req) op).

Lemma refine_invite_members req g t w : w_tables w = t → Inv w →
  group_rows t !! Invite_GroupID req = Some g → Group_Status g ≠ GroupStatusDismissed → may_invite t req g →
  wp (invite_members config ctx StructToJsonString Marshal_elem answers req g)
    (done_by t (Call_InviteUserToGroup req)) w.
Proof.
  intros Ht HI Hrow Hst Hmay. unfold invite_members.
  destruct (Group_GroupType g =? SuperGroup) eqn:Hsuper; bool_facts.
  { by apply wp_afterwards; [apply _|done|rewrite Ht; eapply step_Invite_super]. }
  reading ltac:(by apply answers_join_all). intros l w Hl Ht HI. cbn in Hl.
  eapply wp_changing; [exact Ht|apply wp_groupDatabase_CreateGroup|]; [done|by intros ? ?%elem_of_nil|..].
  { intros m Hm. rewrite (placed_group _ _ _ _ Hl Hm (ordinary_places_group _ _)), Ht. by exists g. }
  intros w' HI' (Hrows & _ & Hnd & Hnew). apply wp_afterwards; [apply _|done|]. rewrite Hrows, Ht in *.
  by eapply step_Invite_members.
Qed.

Lemma refine_InviteUserToGroup req t w : w_tables w = t → Inv w → dash_free (Invite_GroupID req) →
  wp (InviteUserToGroup config ctx StructToJsonString Marshal_elem answers req)
    (done_by t (Call_InviteUserToGroup req)) w.
Proof.
  intros Ht HI Hg. unfold InviteUserToGroup.
  reading ltac:(by apply answers_guard). intros [] w _ Ht HI.
  reading ltac:(by apply answers_guard). intros [] w _ Ht HI.
  reading ltac:(by apply answers_TakeGroup). intros g w [Hrow Hid] Ht HI.
  reading ltac:(by apply answers_guard). intros [] w Hst Ht HI. bool_facts.
  reading ltac:(by apply answers_any, _). intros users w _ Ht HI.
  reading ltac:(by apply answers_guard). intros [] w _ Ht HI.
  eapply (wp_reading _ _ (λ om, match om with
    | None => is_manager config ctx = true
    | Some m' => ∃ m, member_rows t !! (Invite_GroupID req, op) = Some m ∧ named m m' end)); [exact Ht|exact HI| |].
  { destruct (is_manager config ctx) eqn:Em; [by apply answers_ret|].
    eapply answers_bind; [by apply answers_members|]. intros l w' _ Hl. rewrite Ht in Hl.
    eapply answers_bind; [by apply answers_guard|]. intros [] w2 _ _.
    eapply answers_bind; [by apply answers_deref|]. intros m' w3 _ Hm'. apply answers_ret.
    destruct l as [|x l]; [done|]. injection Hm' as ->. cbn in Hl.
    destruct (member_rows t !! (Invite_GroupID req, op)) as [m|]; [|by inversion Hl].
    apply Forall2_cons in Hl as [Hn _]. eauto. }
  clear w Ht HI. intros om w Hom Ht HI. destruct om as [m'|].
  - destruct Hom as (m & Hm & Hn). rewrite (named_role _ _ Hn).
    destruct ((Group_NeedVerification g =? AllNeedVerification) && negb (is_admin_role (Member_RoleLevel m))) eqn:Ev.
    + bool_facts. unfold invite_requests.
      eapply wp_changing; [exact Ht|by apply wp_CreateGroupRequest|]. intros w' HI' Hrows.
      apply wp_afterwards; [apply _|done|]. rewrite <-Hrows, Ht. eapply step_Invite_requests; try done.
      * by eapply is_admin_role_false.
      * rewrite <-list_fmap_compose. done.
      * by apply Forall_fmap, Forall_forall.
    + apply refine_invite_members; try done. right. split; [by exists m|]. intros Hneed.
      apply andb_false_iff in Ev as [Ev|Ev%negb_false_iff]; bool_facts; [done|]. by eapply is_admin_role_spec.
  - apply refine_invite_members; try done. by left.
Qed.

(** *** Creating a group *)

Lemma refine_CreateGroup req t w : w_tables w = t → Inv w →
  (∀ g, Create_GroupInfo req = Some g → dash_free (GI_GroupID g)) →
  wp (CreateGroup config ctx StructToJsonString Marshal_elem answers req) (done_by t (Call_CreateGroup req)) w.
Proof.
  intros Ht HI Hg. unfold CreateGroup.
  reading ltac:(by apply answers_guard). intros [] w _ Ht HI.
  reading ltac:(by apply answers_deref). intros info w Hinfo Ht HI. specialize (Hg _ Hinfo).
  reading ltac:(by apply answers_guard). intros [] w _ Ht HI.
  reading ltac:(by apply answers_CheckAccess). intros [] w Hperm Ht HI.
  reading ltac:(by apply answers_guard). intros [] w _ Ht HI.
  reading ltac:(by apply answers_any, _). intros userMap w _ Ht HI.
  reading ltac:(by apply answers_guard). intros [] w _ Ht HI.
  reading ltac:(by apply answers_create_callback). intros info' w Hdash Ht HI.
  reading ltac:(by apply answers_GenGroupID). intros id w [Hid Hnone] Ht HI.
  set (group := set_Group_GroupID id (Pb2DBGroupInfo (now ctx) info')).
  reading ltac:(by apply answers_joinGroup). intros l1 w Hl1 Ht HI. cbn in Hl1.
  eapply (wp_reading _ _ (λ l, placed <$> l = created_places req group)); [exact Ht|exact HI| |].
  { unfold created_places. change (Group_GroupType group) with (GI_GroupType info').
    change (Group_GroupID group) with id.
    destruct (GI_GroupType info' =? SuperGroup).
    - eapply answers_bind; [by apply answers_any, _|]. intros [] w' _ _. by apply answers_ret.
    - eapply answers_bind; [apply answers_join_all|]. intros l2 w' _ Hl2.
      eapply answers_mono; [apply answers_join_all|]. intros l3 ->. by rewrite Hl2, Hl1, <-app_assoc. }
  clear w Ht HI. intros l w Hl Ht HI.
  eapply wp_changing; [exact Ht|apply wp_groupDatabase_CreateGroup|]; [done|..].
  { by intros g ->%list_elem_of_singleton. }
  { intros m Hm. rewrite (placed_group _ _ _ (Group_GroupID group) Hl Hm); [by cbn; rewrite lookup_insert_eq|].
    intros g' u r. apply created_places_group. }
  intros w' HI' (Hrows & _ & Hnd & Hnew). apply wp_afterwards; [|done|].
  { apply moves_bind; [apply _| |apply _]. destruct (_ =? SuperGroup); [apply _|]. apply _. }
  rewrite Hrows, Ht in *.
  change (insert_groups [group] (group_rows t)) with (<[Group_GroupID group := group]> (group_rows t)).
  apply (step_CreateGroup _ (rows_of t) req group l); [|done|by split].
  destruct Hperm as [?|E]; [by left|by right].
Qed.

(** *** Setting members' information *)

Lemma named_map_lookup t (L l : list GroupMemberModel) k m' :
  (∀ m, m ∈ L → member_rows t !! member_key m = Some m) → Forall2 named L l →
  SliceToMap member_key l !! k = Some m' → ∃ m, member_rows t !! k = Some m ∧ named m m'.
Proof.
  intros HL Hl [Hin Hk]%SliceToMap_some. apply list_elem_of_lookup in Hin as [i Hi].
  destruct (Forall2_lookup_r _ _ _ _ _ Hl Hi) as (m & Hm%list_elem_of_lookup_2 & Hn).
  exists m. split; [|done]. rewrite <-Hk, (named_key _ _ Hn). auto.
Qed.

Lemma found_rows t (gs us : list string) (m : GroupMemberModel) : m ∈ (g ← gs; omap (λ u, member_rows t !! (g, u)) us) →
  member_rows t !! member_key m = Some m.
Proof.
  intros (g & Hm & _)%list_elem_of_bind. apply list_elem_of_omap in Hm as (u & _ & Hm).
  by rewrite (member_row_key _ _ _ Hm).
Qed.

(** The map that a handler makes of members agrees with the table. *)
Definition map_of_rows t (memberMap : gmap (string * string) GroupMemberModel) : Prop :=
  ∀ k m', memberMap !! k = Some m' → ∃ m, member_rows t !! k = Some m ∧ named m m'.

Lemma map_role t mm g u m' : map_of_rows t mm → mm !! (g, u) = Some m' →
  role_in (member_rows t) g u = Some (Member_RoleLevel m').
Proof. intros Hmm Hm. destruct (Hmm _ _ Hm) as (m & Hr & Hn). unfold role_in. by rewrite Hr, (named_role _ _ Hn). Qed.

Lemma answers_check_set t mm e w : map_of_rows t mm →
  answers_with (check_set_member ctx mm e) (λ _, may_set (member_rows t) op e) w.
Proof.
  intros Hmm. unfold check_set_member.
  eapply (answers_bind _ _ (λ _, ∀ v, SetM_RoleLevel e = Some v → v = GroupOrdinaryUsers ∨ v = GroupAdmin)).
  { destruct (SetM_RoleLevel e) as [v|]; [|by apply answers_ret]. eapply answers_mono; [apply answers_guard|].
    intros [] Hv ? [= <-]. bool_facts; auto. }
  intros [] w' _ Hval. destruct (mm !! (SetM_GroupID e, op)) as [o|] eqn:Ho; [|apply answers_fail].
  apply (map_role _ _ _ _ _ Hmm) in Ho. case_bool_decide as Hself.
  - eapply answers_mono; [apply answers_guard|]. intros [] Hn. bool_facts. split; [done|]. split; [|done].
    intros _. by apply eq_None_not_Some.
  - eapply answers_bind; [apply answers_guard|]. intros [] w2 _ Hord. bool_facts.
    destruct (mm !! set_key e) as [d|] eqn:Hd; [|apply answers_fail].
    apply (map_role _ _ _ _ _ Hmm) in Hd. destruct (_ =? GroupOrdinaryUsers); [apply answers_fail|].
    assert ((Member_RoleLevel o = GroupAdmin → SetM_RoleLevel e = None ∧ Member_RoleLevel d = GroupOrdinaryUsers) →
      may_set (member_rows t) op e) as Hdone.
    { intros Hadm. split; [done|]. split; [done|]. intros _. exists (Member_RoleLevel o).
      split; [done|]. split; [done|]. intros [? Hd']%Hadm. by rewrite Hd, Hd'. }
    destruct (Member_RoleLevel o =? GroupAdmin) eqn:Ea; bool_facts.
    + eapply answers_bind; [apply answers_guard|]. intros [] w3 _ Hd'.
      eapply answers_mono; [apply answers_guard|]. intros [] Hn. apply Hdone. bool_facts.
      split; [by apply eq_None_not_Some|done].
    + apply answers_ret. by apply Hdone.
Qed.

Lemma answers_check_not_owner t mm e w : map_of_rows t mm →
  answers_with (check_not_owner mm e) (λ _, is_Some (SetM_RoleLevel e) →
    role_in (member_rows t) (SetM_GroupID e) (SetM_UserID e) ≠ Some GroupOwner) w.
Proof.
  intros Hmm. unfold check_not_owner. destruct (SetM_RoleLevel e) as [v|]; [|apply answers_ret; by intros []].
  eapply answers_bind; [apply answers_deref|]. intros m w' _ Hm.
  eapply answers_mono; [apply answers_guard|]. intros [] Hr _. bool_facts.
  rewrite (map_role _ _ _ _ _ Hmm Hm). congruence.
Qed.

Lemma answers_set_callbacks req w :
  answers_with (fold_each req [] (λ l m, m ← CallbackBeforeSetGroupMemberInfo config ctx m; mret (l ++ [m])))
    (Forall2 same_place req) w.
Proof.
  apply (answers_fold _ _ _ (Forall2 same_place)); [constructor|]. intros es e rest b w' _ _ Hb.
  eapply answers_bind; [by apply answers_set_callback|]. intros e' w2 _ He. apply answers_ret.
  apply Forall2_app; [done|]. constructor; [done|constructor].
Qed.

Lemma update_batches_members es ms :
  update_batches ((λ e, mkBatchUpdate (SetM_GroupID e) (SetM_UserID e) (UpdateGroupMemberMap e)) <$> es) ms =
  update_members es ms.
Proof. unfold update_batches, update_members. revert ms. induction es as [|e es IH]; intros ms; [done|]. apply IH. Qed.

(** The groups that the request names. *)
Lemma named_groups (req : list SetGroupMemberInfo) g :
  g ∈ (range (list_to_map ((λ m, (SetM_GroupID m, ())) <$> req) : gmap string ())).*1 ↔
  ∃ e, e ∈ req ∧ SetM_GroupID e = g.
Proof.
  rewrite list_elem_of_fmap. split.
  - intros ([g' []] & -> & Hg%range_lookup%elem_of_list_to_map_2). cbn.
    apply list_elem_of_fmap in Hg as (e & [= ->] & He). eauto.
  - intros (e & He & <-). exists (SetM_GroupID e, ()). split; [done|]. apply range_lookup.
    destruct ((list_to_map _ : gmap string ()) !! SetM_GroupID e) as [[]|] eqn:E; [done|].
    apply not_elem_of_list_to_map in E. destruct E. apply list_elem_of_fmap. exists (SetM_GroupID e, ()).
    split; [done|]. by apply (list_elem_of_fmap_2 (λ m, (SetM_GroupID m, ()))).
Qed.

(** The members of the request are all there. *)
Lemma none_missing t (req : list SetGroupMemberInfo) (l : list GroupMemberModel) e :
  map_of_rows t (SliceToMap member_key l) →
  (0 <? len (filter (.∉ (member_key <$> l)) (set_key <$> req))) = false → e ∈ req →
  is_Some (role_in (member_rows t) (SetM_GroupID e) (SetM_UserID e)).
Proof.
  intros Hmm Hmiss He. assert (set_key e ∈ member_key <$> l) as Hin.
  { apply dec_stable. intros Hn.
    assert (set_key e ∈ filter (.∉ member_key <$> l) (set_key <$> req)) as Hx.
    { apply list_elem_of_filter. split; [done|]. by apply list_elem_of_fmap_2. }
    apply list_elem_of_lookup in Hx as [i Hi%lookup_lt_Some]. bool_facts. unfold len in Hmiss. lia. }
  apply list_elem_of_fmap in Hin as (m' & Hk & Hm').
  destruct (SliceToMap_is_some member_key l m' Hm') as [m2 Hm2]. rewrite <-Hk in Hm2.
  eexists. by apply (map_role _ _ _ _ _ Hmm Hm2).
Qed.

Lemma refine_SetGroupMemberInfo req t w : w_tables w = t → Inv w →
  (∀ e, e ∈ req → dash_free (SetM_GroupID e)) →
  wp (groupServer_SetGroupMemberInfo config ctx StructToJsonString Marshal_elem answers req)
    (done_by t (Call_SetGroupMemberInfo req)) w.
Proof.
  intros Ht HI Hg. unfold groupServer_SetGroupMemberInfo.
  reading ltac:(by apply answers_guard). intros [] w Hne Ht HI.
  reading ltac:(by apply answers_guard). intros [] w Hnd Ht HI. bool_facts. apply dec_stable in Hnd.
  set (gs := (range (list_to_map ((λ m, (SetM_GroupID m, ())) <$> _))).*1).
  set (us := (range (list_to_map ((λ m, (SetM_UserID m, ())) <$> _))).*1).
  assert (∀ g, g ∈ gs ↔ ∃ e, e ∈ without_face <$> req ∧ SetM_GroupID e = g) as Hgs by apply named_groups.
  reading ltac:(apply answers_filled, answers_FindGroupMember; [done|..]).
  { intros g (e & (e0 & -> & He)%list_elem_of_fmap & <-)%Hgs. exact (Hg e0 He). }
  { destruct req as [|e0 req']; [done|]. intros E. apply (not_elem_of_nil (SetM_GroupID e0)). rewrite <-E.
    apply Hgs. exists (without_face e0). split; [by left|done]. }
  intros l w Hl Ht HI.
  assert (map_of_rows t (SliceToMap member_key l)) as Hmm.
  { intros k m' Hk. eapply named_map_lookup; [|exact Hl|exact Hk]. apply found_rows. }
  reading ltac:(by apply answers_guard). intros [] w Hmiss Ht HI.
  eapply (wp_reading _ _ (λ _, is_manager config ctx = true ∨
    ∀ e, e ∈ without_face <$> req → may_set (member_rows t) op e)); [exact Ht|exact HI| |].
  { destruct (is_manager config ctx); [apply answers_ret; by left|].
    eapply answers_mono; [apply answers_for_each; intros; by apply answers_check_set|]. intros [] Hall. by right. }
  clear w Ht HI. intros [] w Hmay Ht HI.
  reading ltac:(apply answers_for_each; intros; by eapply answers_check_not_owner). intros [] w Howner Ht HI.
  reading ltac:(by apply answers_set_callbacks). intros es w Hes Ht HI.
  eapply wp_changing; [exact Ht|by apply wp_UpdateGroupMembers|]. intros w' HI' Hrows.
  apply wp_afterwards; [apply _|done|]. rewrite update_batches_members, Ht in Hrows. rewrite <-Hrows.
  apply step_SetGroupMemberInfo.
  - by rewrite <-list_fmap_compose in Hnd.
  - apply (Forall2_fmap_l without_face) in Hes. eapply Forall2_impl; [exact Hes|]. by intros e e' Hs.
  - intros e He. pose proof (list_elem_of_fmap_2 without_face _ _ He) as He'.
    destruct (none_missing t (without_face <$> req) l (without_face e)) as [r Hr]; [done..|].
    exists r. split; [exact Hr|]. intros Hs ->. by apply (Howner _ He' Hs).
  - destruct Hmay as [Hmgr|Hall]; [by left|right]. intros e He. 
    exact (Hall _ (list_elem_of_fmap_2 without_face _ _ He)).
Qed.

(** ** All the calls *)

Definition run_call (call : group_call) : M W () :=
  match call with
  | Call_CreateGroup req => _ ← CreateGroup config ctx StructToJsonString Marshal_elem answers req; mret ()
  | Call_JoinGroup req => JoinGroup config ctx StructToJsonString Marshal_elem answers req
  | Call_InviteUserToGroup req => InviteUserToGroup config ctx StructToJsonString Marshal_elem answers req
  | Call_GroupApplicationResponse req =>
      GroupApplicationResponse config ctx StructToJsonString Marshal_elem answers req
  | Call_KickGroupMember req =>
      KickGroupMember config ctx StructToJsonString Marshal_elem answers GetConversationMaxSeq req
  | Call_QuitGroup req =>
      QuitGroup config ctx StructToJsonString Marshal_elem answers GetConversationMaxSeq req
  | Call_TransferGroupOwner req => TransferGroupOwner config ctx StructToJsonString Marshal_elem answers req
  | Call_DismissGroup req => DismissGroup config ctx StructToJsonString Marshal_elem answers req
  | Call_MuteGroupMember req => MuteGroupMember config ctx StructToJsonString Marshal_elem answers req
  | Call_CancelMuteGroupMember g u =>
      CancelMuteGroupMember config ctx StructToJsonString Marshal_elem answers g u
  | Call_MuteGroup g => MuteGroup config ctx StructToJsonString Marshal_elem answers g
  | Call_CancelMuteGroup g => CancelMuteGroup config ctx StructToJsonString Marshal_elem answers g
  | Call_SetGroupInfo set => SetGroupInfo config ctx StructToJsonString Marshal_elem answers set
  | Call_SetGroupMemberInfo req =>
      groupServer_SetGroupMemberInfo config ctx StructToJsonString Marshal_elem answers req
  end.

Lemma done_by_bind_ret {A} (m : M W A) t call w :
  wp m (done_by t call) w → wp (_ ← m; mret ()) (done_by t call) w.
Proof. intros Hm. apply wp_bind. eapply wp_mono; [|exact Hm]. by intros [] w' Hd. Qed.
End Handlers.

(** The groups of a call have ids without a dash; a dismissal keeps the members. *)
Definition call_ok (call : group_call) : Prop :=
  match call with
  | Call_CreateGroup req => ∀ g, Create_GroupInfo req = Some g → dash_free (GI_GroupID g)
  | Call_JoinGroup req => dash_free (Join_GroupID req)
  | Call_InviteUserToGroup req => dash_free (Invite_GroupID req)
  | Call_GroupApplicationResponse req => dash_free (Response_GroupID req)
  | Call_KickGroupMember req => dash_free (Kick_GroupID req)
  | Call_QuitGroup req => dash_free (Quit_GroupID req)
  | Call_TransferGroupOwner req => dash_free (Transfer_GroupID req)
  | Call_DismissGroup req => Dismiss_DeleteMember req = false
  | Call_MuteGroupMember req => dash_free (Mute_GroupID req)
  | Call_CancelMuteGroupMember g _ | Call_MuteGroup g | Call_CancelMuteGroup g => dash_free g
  | Call_SetGroupInfo o => ∀ set, o = Some set → dash_free (Set_GroupID set)
  | Call_SetGroupMemberInfo req => ∀ e, e ∈ req → dash_free (SetM_GroupID e)
  end.

Section AllCalls.
Context `{EngineLaws} `{!TagSucceeds RC}.
Context `{!Tools, !ToolsLaws, !MsgTools, !MsgToolsLaws, !ListTools, !MapRange}.
Context `{!Services GroupEffect, !Webhook, !WebhookKeeps}.

Lemma run_call_done config ctx S2J ME answers MaxSeq call w : Inv w → call_ok call →
  wp (run_call config ctx S2J ME answers MaxSeq call) (done_by config ctx (w_tables w) call) w.
Proof.
  intros HI Hok. destruct call; cbn [run_call call_ok] in *;
    eauto using refine_CreateGroup, done_by_bind_ret, refine_JoinGroup, refine_InviteUserToGroup,
      refine_GroupApplicationResponse, refine_KickGroupMember, refine_QuitGroup, refine_TransferGroupOwner,
      refine_DismissGroup, refine_MuteGroupMember, refine_CancelMuteGroupMember, refine_MuteGroup,
      refine_CancelMuteGroup, refine_SetGroupInfo, refine_SetGroupMemberInfo.
Qed.
End AllCalls.
