(* ===== verification/GroupTheorems.v ===== *)
(** * Properties of the group service

    The theorems on the handlers of GroupServer.v and GroupQuery.v, from the
    refinement of GroupProofs.v and the invariants of GroupSpec.v. *)

From S2P Require Import Prelude.
From S2P Require Import Constants.
From S2P Require Import MsgProcessor.
From S2P Require Import MsgDoc.
From S2P Require Import Tools.
From S2P Require Import Notification.
From S2P Require Import RpcClient.
From S2P Require Import Auth.
From S2P Require Import GroupTypes.
From S2P Require Import Sql.
From S2P Require Import RowCache.
From S2P Require Import GroupStore.
From S2P Require Import GroupCache.
From S2P Require Import GroupDatabase.
From S2P Require Import GroupNotification.
From S2P Require Import GroupServer.
From S2P Require Import GroupQuery.
From S2P Require Import GroupSpec.
From S2P Require Import GroupCoherence.
From S2P Require Import GroupChanges.
From S2P Require Import GroupReads.
From S2P Require Import GroupProofs.
From stdpp Require Import options.
#[local] Set Default Proof Using "Type*".

#[local] Open Scope Z_scope.

Lemma wp_ends {W A} (m : M W A) Q w r w' : wp m Q w → m w = (r, w') → Q r w'.
Proof. unfold wp. intros Hm E. by rewrite E in Hm. Qed.

(** Either the step is made, or nothing has changed and the call has failed. *)
Lemma done_either `{EngineLaws} `{!Tools} {A} config ctx (m : M (World (list GroupEffect)) A) call w r w' :
  wp m (done_by config ctx (w_tables w) call) w → m w = (r, w') →
  (rows_of (w_tables w') = rows_of (w_tables w) ∧ is_ok r = false) ∨
  group_step (the_caller config ctx) (rows_of (w_tables w)) call (rows_of (w_tables w')).
Proof.
  unfold wp. intros Hm E. rewrite E in Hm. destruct Hm as (_ & [Hr|Hs] & Hd); [|by right].
  destruct (is_ok r) eqn:Eo; [right; auto|by left].
Qed.

Section Theorems.
Context `{EngineLaws} `{!TagSucceeds RC}.
Context `{!Tools, !ToolsLaws, !MsgTools, !MsgToolsLaws, !ListTools, !MapRange}.
Context `{!Services GroupEffect, !Webhook, !WebhookKeeps}.
Abbreviation W := (World (list GroupEffect)).
Context (config : GroupConfig) (StructToJsonString : GroupTips → string).
Context (Marshal_elem : string → string + error).
Context (answers : list GroupEffect → GroupEffect → option error).
Context (GetConversationMaxSeq : string → list GroupEffect → Z + error).
Implicit Types (w : W) (ctx : CallContext).

Abbreviation run ctx call := (run_call config ctx StructToJsonString Marshal_elem answers GetConversationMaxSeq call).
Abbreviation the_rows w := (rows_of (w_tables w)).

(** A sequence of calls, each made whatever became of the others. *)
Definition serve (calls : list (CallContext * group_call)) w : W :=
  foldl (λ w '(ctx, call), (run ctx call w).2) w calls.

Lemma run_spec ctx call w r w' : Inv w → call_ok call → run ctx call w = (r, w') →
  done_by config ctx (w_tables w) call r w'.
Proof.
  intros HI Hok E. pose proof (run_call_done config ctx StructToJsonString Marshal_elem answers
    GetConversationMaxSeq call w HI Hok) as Hd. unfold wp in Hd. by rewrite E in Hd.
Qed.

(** An invariant of the rows that the steps of the calls keep. *)
Lemma serve_keeps (I : Rows → Prop) calls w :
  (∀ ctx call rs rs', (ctx, call) ∈ calls → members_of_groups rs → I rs →
     group_step (the_caller config ctx) rs call rs' → I rs') →
  (∀ ctx call, (ctx, call) ∈ calls → call_ok call) →
  Inv w → I (the_rows w) → Inv (serve calls w) ∧ I (the_rows (serve calls w)).
Proof.
  unfold serve. revert w. induction calls as [|[ctx call] calls IH]; intros w Hstep Hok HI HR; [done|].
  cbn [foldl]. destruct (run ctx call w) as [r w'] eqn:E.
  destruct (run_spec _ _ _ _ _ HI (Hok _ _ (list_elem_of_here _ _)) E) as (HI' & Hrows & _). cbn.
  apply IH; [|intros ? ? ?; eapply Hok; by right|done|].
  - intros ? ? ? ? ?. eapply Hstep. by right.
  - destruct Hrows as [->|Hs]; [done|]. eapply Hstep; [by left| |exact HR|exact Hs].
    intros g u. apply HI.
Qed.

(** C3: the group service implements its promise.  A call of any of its
    fourteen handlers that change groups, made in a state whose cache agrees with the tables, takes the
    rows along a step of the specification, which says who may make the call and which rows change, or
    leaves every row as it was; it answers without an error only if the step was made; and the cache
    agrees with the tables afterwards.  Statements, commits, reads and writes of the cache and the other
    services may fail at any point, but a key is deleted from the cache within its five attempts, and the
    webhook changes no role.  The call is one whose groups have ids without a dash, and is not the
    dismissal that deletes members ([call_ok]), which leaves a stale cache ([dismissal_leaves_ghosts]). *)
Theorem group_service_refines ctx call w r w' :
  Inv w → call_ok call → run ctx call w = (r, w') →
  Inv w' ∧
  (the_rows w' = the_rows w ∨ group_step (the_caller config ctx) (the_rows w) call (the_rows w')) ∧
  (r = Ok () → group_step (the_caller config ctx) (the_rows w) call (the_rows w')).
Proof.
  intros HI Hok E. destruct (run_spec _ _ _ _ _ HI Hok E) as (HI' & Hr & Hd).
  split; [done|]. split; [done|]. intros ->. by apply Hd.
Qed.

(** C7: whatever calls the users of the service make who are not managers of
    the application, in whatever order and however each ends, every group has exactly one owner
    afterwards if every group had exactly one before: groups are created with their owner, the owner is
    neither removed nor leaves, his role is not set, and the transfer of a group exchanges two roles.
    The calls name groups by ids without a dash and dismiss no group with its members, which leaves a
    group that nobody owns; the cache agrees with the tables at first, a key is deleted from it within
    five attempts, and the webhook changes no role. *)
Theorem groups_keep_one_owner calls w :
  Inv w → one_owner (the_rows w) →
  (∀ ctx call, (ctx, call) ∈ calls → is_manager config ctx = false ∧ call_ok call) →
  one_owner (the_rows (serve calls w)).
Proof.
  intros HI Ho Hc. apply (serve_keeps one_owner); [|naive_solver|done|done].
  intros ctx call rs rs' Hin. apply step_one_owner. by apply (Hc ctx call).
Qed.

(** C22: the rows stay well typed under any sequence of calls by users who are not
    managers, who may set any role: each row stands under its own key, each role is one of the three, and
    the result of a request is pending, agreed or refused.  The calls name groups by ids without a dash
    and dismiss no group with its members; the cache agrees with the tables at first, a key is deleted
    from it within five attempts, and the webhook changes no role. *)
Theorem group_rows_typed calls w :
  Inv w → well_typed (the_rows w) →
  (∀ ctx call, (ctx, call) ∈ calls → is_manager config ctx = false ∧ call_ok call) →
  well_typed (the_rows (serve calls w)).
Proof.
  intros HI Ho Hc. apply (serve_keeps well_typed); [|naive_solver|done|done].
  intros ctx call rs rs' Hin _. apply step_well_typed. by apply (Hc ctx call).
Qed.

(** C23: the cache is transparent.  After any sequence of calls, by whomever, a
    read through the cache answers what the tables hold at that moment, or fails with an error that is
    not the one of a missing row: the row of a group, the row of a member, the ids and the number of the
    members of a group.  The calls name groups by ids without a dash and dismiss no group with its
    members, which leaves their cached rows; the cache agrees with the tables at first, a key is deleted
    from it within five attempts, and the webhook changes no role. *)
Theorem cached_reads_agree calls w g u :
  Inv w → (∀ ctx call, (ctx, call) ∈ calls → call_ok call) → dash_free g →
  let w' := serve calls w in
  (match (TakeGroup g w').1 with
   | Ok r => r_groups (the_rows w') !! g = Some r
   | Err e => group_IsNotFound e = true → r_groups (the_rows w') !! g = None
   | _ => False end) ∧
  (match (TakeGroupMember g u w').1 with
   | Ok m => r_members (the_rows w') !! (g, u) = Some m
   | Err e => group_IsNotFound e = true → r_members (the_rows w') !! (g, u) = None
   | _ => False end) ∧
  (match (FindGroupMemberUserID g w').1 with
   | Ok l => NoDup l ∧ ∀ v, v ∈ l ↔ is_Some (r_members (the_rows w') !! (g, v))
   | Err e => external e
   | _ => False end) ∧
  (match (FindGroupMemberNum g w').1 with
   | Ok n => n = uint32 (Z.of_nat (size (group_users (w_tables w') g)))
   | Err e => external e
   | _ => False end).
Proof.
  intros HI Hc Hg w'. assert (Inv w') as HI'.
  { eapply (serve_keeps (λ _, True)); eauto. }
  split; [|split; [|split]].
  - apply (wp_eq _ (λ r _, match r with Ok _ => _ | _ => _ end)). apply wp_GetGroupInfo; [done|done|done|].
    intros w2 e _ He. by rewrite IsNotFound_external.
  - apply (wp_eq _ (λ r _, match r with Ok _ => _ | _ => _ end)). apply wp_GetGroupMemberInfo; [done|done|done|done|].
    intros w2 e _ He. by rewrite IsNotFound_external.
  - apply (wp_eq _ (λ r _, match r with Ok _ => _ | _ => _ end)). apply wp_GetGroupMemberIDs; [done| |done].
    intros w2 l _ [Hn Hl]. split; [done|]. intros v.
    change (r_members (the_rows w')) with (member_rows (w_tables w')).
    by rewrite <-elem_of_group_users, <-Hl, elem_of_list_to_set.
  - apply (wp_eq _ (λ r _, match r with Ok _ => _ | _ => _ end)).
    apply wp_bind, wp_GetGroupMemberNum; [done| |done]. intros w2 _. by apply wp_ret.
Qed.

(** ** The handlers one by one *)

(** C24: the members of an ordinary group are removed by a manager of the
    application, by the owner, or by an administrator who removes neither the owner nor another
    administrator; nobody removes himself; all of them were members, and exactly their rows go.
    Otherwise the call ends with an error and no row changes. *)
Theorem KickGroupMember_authorised ctx req w r w' g :
  Inv w → dash_free (Kick_GroupID req) →
  r_groups (the_rows w) !! Kick_GroupID req = Some g → Group_GroupType g ≠ SuperGroup →
  KickGroupMember config ctx StructToJsonString Marshal_elem answers GetConversationMaxSeq req w = (r, w') →
  (the_rows w' = the_rows w ∧ is_ok r = false) ∨
  (opUserID ctx ∉ Kick_KickedUserIDs req ∧
   (∀ u, u ∈ Kick_KickedUserIDs req → is_Some (r_members (the_rows w) !! (Kick_GroupID req, u))) ∧
   (is_manager config ctx = true ∨
    may_kick (r_members (the_rows w)) (opUserID ctx) (Kick_GroupID req) (Kick_KickedUserIDs req)) ∧
   the_rows w' = set_members (remove_members (Kick_GroupID req) (Kick_KickedUserIDs req)
                   (r_members (the_rows w))) (the_rows w)).
Proof.
  intros HI Hg Hrow Hty E.
  apply (done_either config ctx _ (Call_KickGroupMember req)) in E as [Hsame|Hs]; [by left|right|by apply refine_KickGroupMember].
  apply step_kick in Hs as (g' & Hrow' & [[Hty' _]|Hs]); assert (g' = g) as -> by congruence; [done|].
  by destruct Hs as (_ & ? & ? & ? & ?).
Qed.

(** the transfer of a group is asked for by its owner, or by a
    manager; the group is not dismissed and both users are members of different roles.  Afterwards the new
    owner has the role of owner and the old one the role the new one had, and no other row has changed;
    otherwise, also when the second update or the commit fails, no row has changed at all. *)
Theorem TransferGroupOwner_exchanges ctx req w r w' :
  Inv w → dash_free (Transfer_GroupID req) →
  TransferGroupOwner config ctx StructToJsonString Marshal_elem answers req w = (r, w') →
  let role u := role_in (r_members (the_rows w)) (Transfer_GroupID req) u in
  let old := Transfer_OldOwnerUserID req in
  let new := Transfer_NewOwnerUserID req in
  (the_rows w' = the_rows w ∧ is_ok r = false) ∨
  (is_manager config ctx = true ∨ opUserID ctx = old ∧ role old = Some GroupOwner) ∧
  (∃ g, r_groups (the_rows w) !! Transfer_GroupID req = Some g ∧ Group_Status g ≠ GroupStatusDismissed) ∧
  old ≠ new ∧ is_Some (role old) ∧ is_Some (role new) ∧ role old ≠ role new ∧
  r_groups (the_rows w') = r_groups (the_rows w) ∧ r_requests (the_rows w') = r_requests (the_rows w) ∧
  role_in (r_members (the_rows w')) (Transfer_GroupID req) new = Some GroupOwner ∧
  role_in (r_members (the_rows w')) (Transfer_GroupID req) old = role new ∧
  (∀ k, k ≠ (Transfer_GroupID req, old) → k ≠ (Transfer_GroupID req, new) →
     r_members (the_rows w') !! k = r_members (the_rows w) !! k).
Proof.
  intros HI Hg E role old new.
  apply (done_either config ctx _ (Call_TransferGroupOwner req)) in E as [Hsame|Hs]; [by left|right|by apply refine_TransferGroupOwner].
  apply step_transfer in Hs as (g & ro & rn & Hrow & Hst & Hne & Hro & Hrn & Hrn' & Hdiff & Hc & ->).
  subst role; cbn beta. fold old new in Hro, Hrn, Hne, Hc |- *. rewrite Hro, Hrn.
  split; [destruct Hc as [?|[? ->]]; [by left|by right]|]. split; [by eauto|]. split; [done|].
  split; [by eexists|]. split; [by eexists|]. split; [congruence|]. do 2 (split; [done|]).
  cbn [set_members r_members]. change (r_members (the_rows w)) with (member_rows (w_tables w)) in *. split; [|split].
  - rewrite role_in_update, role_in_update_other by congruence. rewrite Hrn. cbn. by rewrite decide_True.
  - rewrite role_in_update_other, role_in_update by congruence. rewrite Hro. cbn. by rewrite decide_True.
  - intros k Hk1 Hk2. unfold update_member. by rewrite !lookup_alter_ne.
Qed.

(** What a step that answers a request does: the request was pending and is marked,
    its sender becomes an ordinary member if the answer agrees and he was none, and
    no other row changes. *)
Definition answers_request (c : caller) (req : GroupApplicationResponseReq) (rs rs' : Rows) : Prop :=
  let k := (Response_GroupID req, Response_FromUserID req) in
  (c_manager c = true ∨ administers (r_members rs) (Response_GroupID req) (c_user c)) ∧
  (∃ q, r_requests rs !! k = Some q ∧ pending q ∧
     r_requests rs' = <[k := set_Handled (Response_HandledMsg req) (Response_HandleResult req) q]> (r_requests rs)) ∧
  (Response_HandleResult req = GroupResponseAgree ∨ Response_HandleResult req = GroupResponseRefuse) ∧
  (role_in (r_members rs') k.1 k.2 =
     match role_in (r_members rs) k.1 k.2 with
     | Some role => Some role
     | None => if Response_HandleResult req =? GroupResponseAgree then Some GroupOrdinaryUsers else None
     end) ∧
  (∀ k', k' ≠ k → r_members rs' !! k' = r_members rs !! k') ∧ r_groups rs' = r_groups rs.

Lemma step_answers_request c rs req rs' :
  group_step c rs (Call_GroupApplicationResponse req) rs' → answers_request c req rs rs'.
Proof.
  intros (g & q & l & Hrow & Hperm & Hq & Hpend & Hres & (Hp & _ & _) & ->)%step_response.
  split; [done|]. split; [by exists q|]. split; [done|]. cbn [r_members r_groups fst snd].
  assert (l = [] ∧ (Response_HandleResult req =? GroupResponseAgree = false ∨
                    is_Some (r_members rs !! (Response_GroupID req, Response_FromUserID req))) ∨
          ∃ m, l = [m] ∧ placed m = (Response_GroupID req, Response_FromUserID req, GroupOrdinaryUsers) ∧
            Response_HandleResult req =? GroupResponseAgree = true ∧
            r_members rs !! (Response_GroupID req, Response_FromUserID req) = None) as [[-> Hl]|(m & -> & Hm & Ha & Hn)].
  { destruct (_ =? _); cbn [andb] in Hp; [|apply fmap_nil_inv in Hp; by auto].
    case_bool_decide as Hn; [|apply fmap_nil_inv in Hp; rewrite <-not_eq_None_Some; by auto].
    right. destruct l as [|m [|]]; try done. exists m. split; [done|]. split; [cbn in Hp; congruence|done]. }
  - split; [|done]. change (insert_members [] ?ms) with ms. destruct (role_in _ _ _) eqn:Hro; [done|].
    destruct Hl as [->|[m Hm]]; [done|]. unfold role_in in Hro. by rewrite Hm in Hro.
  - unfold placed in Hm. injection Hm as Hg Hu Hr. cbn. rewrite Ha. unfold member_key. rewrite Hg, Hu. split; [|split; [|done]].
    + unfold role_in. rewrite Hn, lookup_insert_eq. cbn. by rewrite Hr.
    + intros k' Hk. by rewrite lookup_insert_ne.
Qed.

(** The calls that leave a new request of the user to the group. *)
Definition asks_again (k : string * string) (call : group_call) : Prop :=
  match call with
  | Call_JoinGroup req => (Join_GroupID req, Join_InviterUserID req) = k
  | Call_InviteUserToGroup req => Invite_GroupID req = k.1 ∧ k.2 ∈ Invite_InvitedUserIDs req
  | _ => False
  end.
Definition settled (k : string * string) (rs : Rows) : Prop :=
  ∃ q, r_requests rs !! k = Some q ∧ ¬ pending q.

Lemma insert_requests_other l rq k : k ∉ request_key <$> l → insert_requests l rq !! k = rq !! k.
Proof.
  induction l as [|q l IH]; [done|]. cbn. rewrite not_elem_of_cons. intros [Hne Hl].
  rewrite lookup_insert_ne by done. by apply IH.
Qed.

Lemma step_settled c rs call rs' k : group_step c rs call rs' → ¬ asks_again k call → settled k rs → settled k rs'.
Proof.
  intros Hs Ha (q & Hq & Hp). exists q. split; [|done]. destruct Hs; cbn in *; try done.
  - rewrite lookup_insert_ne; [done|]. congruence.
  - rewrite insert_requests_other; [done|].
    match goal with Hk : request_key <$> l = _ |- _ => rewrite Hk end. destruct k as [g' u']. intros (u & [= -> ->] & Hu)%list_elem_of_fmap. by apply Ha.
  - rewrite lookup_insert_ne; [done|]. intros <-. congruence.
Qed.

(** C31: in a state whose cache agrees with the tables, a call that answers a request
    to join a group, whose id has no dash, either fails and changes no row, or does
    all of this, in one transaction: it is made by a manager of the application or
    an administrator of the group, the request was pending and records the answer,
    agreed or refused, the user becomes an ordinary member exactly when the answer
    agrees and he was none, and no other row changes.  After that, whatever calls
    follow that do not ask for the same membership again by joining or inviting,
    and do not dismiss a group with its members, any further answer to the request,
    by whomever, is refused and changes nothing.  (Keys are deleted from the cache
    within five attempts, and the webhook changes no role.) *)
Theorem request_answered_once ctx req w r w' :
  Inv w → dash_free (Response_GroupID req) →
  GroupApplicationResponse config ctx StructToJsonString Marshal_elem answers req w = (r, w') →
  (the_rows w' = the_rows w ∧ is_ok r = false) ∨
  (answers_request (the_caller config ctx) req (the_rows w) (the_rows w') ∧
   ∀ calls ctx' req' r' w'',
     (∀ ctx call, (ctx, call) ∈ calls →
        call_ok call ∧ ¬ asks_again (Response_GroupID req, Response_FromUserID req) call) →
     Response_GroupID req' = Response_GroupID req → Response_FromUserID req' = Response_FromUserID req →
     GroupApplicationResponse config ctx' StructToJsonString Marshal_elem answers req' (serve calls w') = (r', w'') →
     is_ok r' = false ∧ the_rows w'' = the_rows (serve calls w')).
Proof.
  intros HI Hg E. pose proof (run_spec _ (Call_GroupApplicationResponse req) _ _ _ HI Hg E) as (HI' & _).
  apply (done_either config ctx _ (Call_GroupApplicationResponse req)) in E as [?|Hs];
    [by left|right|by apply refine_GroupApplicationResponse].
  apply step_answers_request in Hs as Ha. split; [done|]. intros calls ctx' req' r' w'' Hc Hg' Hu' E'.
  set (k := (Response_GroupID req, Response_FromUserID req)) in *.
  destruct Ha as (_ & (q & _ & _ & Hq) & Hres & _).
  destruct (serve_keeps (settled k) calls w') as [HI2 (q2 & Hq2 & Hp2)]; [|naive_solver|done|..].
  - intros c call rs rs' Hin _ Hk Hstep. eapply step_settled; [exact Hstep|by apply (Hc c)|done].
  - exists (set_Handled (Response_HandledMsg req) (Response_HandleResult req) q). rewrite Hq, lookup_insert_eq. split; [done|].
    unfold pending. destruct q. cbn. by destruct Hres as [->| ->].
  - apply (done_either config ctx' _ (Call_GroupApplicationResponse req')) in E' as [[? ?]|Hs']; [done| |].
    + apply step_response in Hs' as (g2 & q3 & l2 & _ & _ & Hq3 & Hp3 & _). rewrite Hg', Hu' in Hq3. fold k in Hq3.
      exfalso. congruence.
    + apply refine_GroupApplicationResponse; [done|done|by rewrite Hg'].
Qed.

(** Who joins a group by himself was let in.  If a call of JoinGroup makes
    somebody a member who was none, then he is the user the request names as inviter, the group is
    there, is not dismissed, is no super group and lets everybody in, and he becomes an ordinary member.
    Nobody else's row changes; and a group that needs verification gets a pending request instead. *)
Theorem JoinGroup_only_open ctx req w r w' g u :
  Inv w → dash_free (Join_GroupID req) →
  JoinGroup config ctx StructToJsonString Marshal_elem answers req w = (r, w') →
  (r_members (the_rows w) !! (g, u) = None → is_Some (r_members (the_rows w') !! (g, u)) →
     g = Join_GroupID req ∧ u = Join_InviterUserID req ∧
     role_in (r_members (the_rows w')) g u = Some GroupOrdinaryUsers ∧
     ∃ gr, r_groups (the_rows w) !! g = Some gr ∧ Group_Status gr ≠ GroupStatusDismissed ∧
       Group_NeedVerification gr = Directly ∧ Group_GroupType gr ≠ SuperGroup) ∧
  (∀ m, r_members (the_rows w) !! (g, u) = Some m → r_members (the_rows w') !! (g, u) = Some m) ∧
  (is_ok r = true → r_members (the_rows w') = r_members (the_rows w) →
     ∃ q, r_requests (the_rows w') !! (Join_GroupID req, Join_InviterUserID req) = Some q ∧ pending q).
Proof.
  intros HI Hg E.
  apply (done_either config ctx _ (Call_JoinGroup req)) in E as [[-> Hno]|Hs]; [| |by apply refine_JoinGroup].
  { split; [intros -> []; done|]. split; [done|]. by rewrite Hno. }
  apply step_join in Hs as (gr & Hrow & Hst & [(m & Hdir & Hty & Hnew & ->)|(q & _ & _ & Hk & Hp & ->)]).
  - split; [|split].
    + intros Hnone Hs. apply (member_insert _ _ _ _ _ Hnew) in Hs as [[r0 Hr]|Hs];
        [|rewrite Hnone in Hs; by destruct Hs].
      pose proof Hr as E. apply list_elem_of_singleton in E as [= -> -> ->].
      split; [done|]. split; [done|]. split; [|by eauto 10].
      apply (role_in_insert _ _ _ _ _ _ Hnew). by left.
    + intros m0 Hm0. apply (lookup_insert_members _ _ _ _ _ Hnew). by right.
    + intros _ Hsame. cbn in Hsame. destruct Hnew as (_ & Hnd & Hfresh).
      pose proof (lookup_insert_members_new [m] (member_rows (w_tables w)) m Hnd ltac:(by left)) as Hin.
      cbn in Hin, Hfresh. rewrite Hsame, Hfresh in Hin by (by left). done.
  - split; [intros Hnone [m Hm]; cbn in *; congruence|]. split; [done|]. intros _ _.
    exists q. split; [|done]. cbn. by rewrite Hk, lookup_insert_eq.
Qed.

(** A member is muted by a manager of the application, the owner by
    nobody else, an administrator by the owner, an ordinary member by the owner or an administrator.  The
    end of the muting is the only change. *)
Theorem MuteGroupMember_authorised ctx req w r w' :
  Inv w → dash_free (Mute_GroupID req) →
  MuteGroupMember config ctx StructToJsonString Marshal_elem answers req w = (r, w') →
  (the_rows w' = the_rows w ∧ is_ok r = false) ∨
  (is_manager config ctx = true ∨
   may_mute (r_members (the_rows w)) (opUserID ctx) (Mute_GroupID req) (Mute_UserID req)) ∧
  the_rows w' = set_members (alter (set_member_columns [col_mute_end_time (now ctx + 1000 * Mute_MutedSeconds req)])
    (Mute_GroupID req, Mute_UserID req) (r_members (the_rows w))) (the_rows w).
Proof.
  intros HI Hg E.
  apply (done_either config ctx _ (Call_MuteGroupMember req)) in E as [?|Hs];
    [by left|right|by apply refine_MuteGroupMember].
  by apply step_mute in Hs as (_ & ? & ?).
Qed.

(** If a call of SetGroupMemberInfo by a user who is no manager of the
    application changes the role of a member, then that user is in the group with a role above both
    ordinary member and administrator, he does not change his own, the old role was not the owner's and
    the new one is ordinary member or administrator.  The call neither adds nor removes members. *)
Theorem SetGroupMemberInfo_roles ctx req w r w' g u :
  Inv w → (∀ e, e ∈ req → dash_free (SetM_GroupID e)) → is_manager config ctx = false →
  groupServer_SetGroupMemberInfo config ctx StructToJsonString Marshal_elem answers req w = (r, w') →
  let role ws u := role_in (r_members (the_rows ws)) g u in
  (is_Some (role w' u) ↔ is_Some (role w u)) ∧
  (role w' u ≠ role w u →
     u ≠ opUserID ctx ∧ role w u ≠ Some GroupOwner ∧
     (role w' u = Some GroupOrdinaryUsers ∨ role w' u = Some GroupAdmin) ∧
     ∃ ro, role w (opUserID ctx) = Some ro ∧ ro ≠ GroupOrdinaryUsers ∧ ro ≠ GroupAdmin).
Proof.
  intros HI Hg Hm E role.
  apply (done_either config ctx _ (Call_SetGroupMemberInfo req)) in E as [[Hsame _]|Hs];
    [| |by apply refine_SetGroupMemberInfo].
  { subst role; cbn beta. rewrite Hsame. by split. }
  apply step_set_member in Hs as (es & _ & Hes & Hall & Hmay & Hrows). destruct Hmay as [?|Hmay]; [by cbn in *; congruence|].
  subst role; cbn beta. rewrite Hrows. cbn [set_members r_members]. split.
  { unfold role_in. rewrite !fmap_is_Some. apply update_members_dom. }
  intros Hdiff. assert (is_Some (role_in (update_members es (r_members (the_rows w))) g u)) as [v Hv].
  { apply not_eq_None_Some. intros Hn. apply Hdiff. rewrite Hn. symmetry. unfold role_in in *.
    rewrite fmap_None in *. apply eq_None_not_Some. intros Hs%(update_members_dom es). rewrite Hn in Hs. by destruct Hs. }
  rewrite Hv in *. apply role_in_updates in Hv as [Hv|(e' & He' & Hk & Hset & _)]; [congruence|].
  apply list_elem_of_lookup in He' as [i Hi].
  destruct (Forall2_lookup_r _ _ _ _ _ Hes Hi) as (e & He%list_elem_of_lookup_2 & Heg & Heu & Her).
  rewrite Heg, Heu in Hk. injection Hk as <- <-. rewrite Her in Hset.
  destruct (Hall e He) as (r0 & Hr0 & Hno), (Hmay e He) as (Hval & Hself & Hother). rewrite Hr0 in *.
  cbn [the_caller c_user] in *.
  assert (SetM_UserID e ≠ opUserID ctx) as Hne by (intros Hs%Hself; congruence).
  destruct (Hother Hne) as (ro & Hro & Hord & Hadm).
  split; [done|]. split; [intros [= ->]; by apply Hno|]. split; [destruct (Hval v Hset) as [->| ->]; auto|].
  exists ro. split; [done|]. split; [done|]. intros [? _]%Hadm. congruence.
Qed.

(** *** Ids of new groups *)

(** The id of the [i]-th attempt. *)
Definition drawn ctx (i : nat) : option string :=
  pretty <$> hex_value 0 8 (Md5 (MsgProcessor.strings_Join
    [operationID ctx; FormatInt (UnixNano ctx i); FormatInt (rand_Int ctx i)] ",;,")).

Lemma random_id_run ctx i : random_id ctx i = (deref (drawn ctx i) : M W string).
Proof. unfold random_id, drawn. by destruct (hex_value _ _ _). Qed.

(** An id is taken when a group has it. *)
Definition taken w (o : option string) : Prop := ∃ id, o = Some id ∧ is_Some (r_groups (the_rows w) !! id).

Lemma gen_loop_spec ctx t todo i w : Inv w → w_tables w = t →
  wp (gen_loop ctx todo i) (λ r w', still w w' ∧ match r with
    | Ok id => group_rows t !! id = None ∧ ∃ n, (n < todo)%nat ∧ drawn ctx (i + n) = Some id ∧
        ∀ j, (j < n)%nat → taken w (drawn ctx (i + j))
    | Err e => external e ∨ e = Wrap ErrData "group id gen error" ∧ ∀ j, (j < todo)%nat → taken w (drawn ctx (i + j))
    | Panic => ∃ n, (n < todo)%nat ∧ drawn ctx (i + n) = None
    | OutOfFuel => False end) w.
Proof.
  intros HI Ht. revert i w HI Ht. induction todo as [|todo IH]; intros i w HI Ht.
  { apply wp_fail. split; [done|]. right. split; [done|lia]. }
  cbn [gen_loop]. rewrite random_id_run. apply wp_bind, wp_deref; [intros id Hid|intros Hid].
  2:{ split; [done|]. exists 0%nat. rewrite Nat.add_0_r. split; [lia|done]. }
  assert (∀ j, j = 0%nat ∨ (∃ j', j = S j')) as Hcase by (intros [|j]; eauto).
  apply wp_bind, wp_try. apply wp_GetGroupInfo; [done|..].
  - intros w1 r Hl Hr _. pose proof (looks_still _ _ Hl) as [Ht1 Hi1]. rewrite Ht in Hr.
    assert (∀ o, taken w1 o → taken w o) as Hback by (intros o; unfold taken; by rewrite Ht1).
    eapply wp_mono; [|apply (IH (S i) w1); [auto|congruence]].
    assert (taken w (drawn ctx i)) as Htaken by (exists id; split; [done|]; cbn; rewrite Ht; by eexists).
    intros r' w' [Hs HQ]. split; [by etrans; [apply looks_still|]|]. destruct r' as [id'|e| |].
    + destruct HQ as (Hn & n & Hlt & Hdr & Hall). split; [done|]. exists (S n). rewrite Nat.add_succ_r.
      split; [lia|]. split; [done|]. intros j Hj. destruct (Hcase j) as [->|[j' ->]]; [by rewrite Nat.add_0_r|].
      rewrite Nat.add_succ_r. apply Hback, Hall. lia.
    + destruct HQ as [?|[He Hall]]; [by left|right]. split; [done|]. intros j Hj.
      destruct (Hcase j) as [->|[j' ->]]; [by rewrite Nat.add_0_r|]. rewrite Nat.add_succ_r. apply Hback, Hall. lia.
    + destruct HQ as (n & Hlt & Hdr). exists (S n). rewrite Nat.add_succ_r. split; [lia|done].
    + done.
  - intros w1 Hl Hr. rewrite IsNotFound_gorm by done. apply wp_ret. split; [by apply looks_still|].
    rewrite Ht in Hr. split; [done|]. exists 0%nat. rewrite Nat.add_0_r. split; [lia|]. split; [done|]. lia.
  - intros w1 e Hl He. rewrite IsNotFound_external by done. apply wp_fail. split; [by apply looks_still|]. by left.
Qed.

(** C40: the search for the id of a new group ends after at most ten attempts.  An
    id that the caller asks for is answered if no group has it, and refused otherwise; else the answer is
    the first of the ten drawn ids that no group has, and an error if groups have all ten.  Only a failure
    of the database, or a digest too short for eight digits, ends the search otherwise. *)
Theorem GenGroupID_bounded ctx groupID w r w' :
  Inv w → GenGroupID ctx groupID w = (r, w') →
  the_rows w' = the_rows w ∧
  match r with
  | Ok id =>
      r_groups (the_rows w) !! id = None ∧
      if bool_decide (groupID = "")
      then ∃ n, (n < 10)%nat ∧ drawn ctx n = Some id ∧ ∀ j, (j < n)%nat → taken w (drawn ctx j)
      else id = groupID
  | Err e =>
      external e ∨
      if bool_decide (groupID = "")
      then e = Wrap ErrData "group id gen error" ∧ ∀ j, (j < 10)%nat → taken w (drawn ctx j)
      else e = Wrap ErrGroupIDExisted ("group id existed " +:+ groupID) ∧ is_Some (r_groups (the_rows w) !! groupID)
  | Panic => groupID = "" ∧ ∃ n, (n < 10)%nat ∧ drawn ctx n = None
  | OutOfFuel => False
  end.
Proof.
  intros HI E. eapply (wp_ends (GenGroupID ctx groupID)
    (λ r w', the_rows w' = the_rows w ∧ match r with Ok _ => _ | Err _ => _ | Panic => _ | OutOfFuel => _ end));
    [|exact E]. unfold GenGroupID. case_bool_decide as Hid; cbn [negb].
  - eapply wp_mono; [|by apply (gen_loop_spec ctx (w_tables w) 10 0 w)].
    intros r0 w0 [[Ht _] HQ]. split; [by rewrite Ht|]. by destruct r0.
  - apply wp_bind, wp_try. apply wp_GetGroupInfo; [done|..].
    + intros w1 r1 Hl Hr _. apply wp_fail. rewrite (looks_tables _ _ Hl). split; [done|]. right. split; [done|by eexists].
    + intros w1 Hl Hr. rewrite IsNotFound_gorm by done. apply wp_ret. rewrite (looks_tables _ _ Hl). by split.
    + intros w1 e Hl He. rewrite IsNotFound_external by done. apply wp_fail. rewrite (looks_tables _ _ Hl).
      split; [done|]. by left.
Qed.

(** *** An answer and its member are stored together *)

(** The answer to a request and the new member go into the tables
    together or not at all: without an error the request is marked and the member's row, which was not
    there, is inserted; after an error, be it of the second statement or of the commit, no row is
    changed.  Either way the cache agrees with the tables. *)
Theorem HandlerGroupRequest_atomic g u msg res member w r w' :
  Inv w → (∀ m, member = Some m → Member_GroupID m = g) → is_Some (r_groups (the_rows w) !! g) →
  HandlerGroupRequest g u msg res member w = (r, w') →
  Inv w' ∧
  match r with
  | Ok _ => r_groups (the_rows w') = r_groups (the_rows w) ∧
      r_requests (the_rows w') = alter (set_Handled msg res) (g, u) (r_requests (the_rows w)) ∧
      match member with
      | Some m => r_members (the_rows w) !! member_key m = None ∧
          r_members (the_rows w') = <[member_key m := m]> (r_members (the_rows w))
      | None => r_members (the_rows w') = r_members (the_rows w)
      end
  | Err _ => the_rows w' = the_rows w
  | _ => False
  end.
Proof.
  intros HI Hm Hg E.
  assert (∀ m, member = Some m → Member_GroupID m = g ∧ is_Some (group_rows (w_tables w) !! g)) as Hmem by auto.
  destruct (wp_ends _ _ _ _ _ (wp_HandlerGroupRequest g u msg res member w HI Hmem) E)
    as [HI' [[-> [Hrows Hnew]]|[[e ->] Hrows]]]; [|by split].
  rewrite Hrows. split; [done|]. split; [done|]. split; [done|]. destruct member as [m|]; [|done]. split; [by apply Hnew|done].
Qed.

(** *** A query that finds nobody *)

(** The query for all the members of a group names no users to
    the search for members, which takes the empty list for nobody: whatever the tables hold, a call that
    succeeds answers no member. *)
Theorem GetGroupAllMember_answers_nobody groupID w l w' :
  GetGroupAllMember groupID w = (Ok l, w') → l = [].
Proof.
  intros E. refine (wp_ends (GetGroupAllMember groupID) (λ r _, ∀ l, r = Ok l → l = []) w _ _ _ E l eq_refl).
  apply wp_bind, wp_val. intros [g|e| |] w1 _; [|done..].
  apply wp_bind, wp_guard; intros _; [done|].
  assert (groupServer_FindGroupMember [groupID] [] [] w1 = (Ok [], w1)) as Hnone by reflexivity.
  apply wp_bind, wp_eq. rewrite Hnone. cbn [fst snd].
  assert (public_members [] w1 = (Ok [], w1)) as Hpub by reflexivity.
  apply wp_eq. rewrite Hpub. by intros ? [= <-].
Qed.
End Theorems.
