(* ===== verification/GroupSamples.v ===== *)
(** * Sample runs of the group service

    On the stores in memory: the witnesses of the theorems of GroupTheorems.v. *)

From S2P Require Import Prelude.
From S2P Require Import Constants.
From S2P Require Import MsgTypes.
From S2P Require Import Tools.
From S2P Require Import MsgDatabase.
From S2P Require Import Notification.
From S2P Require Import RpcClient.
From S2P Require Import Auth.
From S2P Require Import MsgServerSamples.
From S2P Require Import GroupTypes.
From S2P Require Import Sql.
From S2P Require Import RowCache.
From S2P Require Import GroupStore.
From S2P Require Import GroupMemory.
From S2P Require Import GroupCache.
From S2P Require Import GroupDatabase.
From S2P Require Import GroupNotification.
From S2P Require Import GroupServer.
From S2P Require Import GroupQuery.
From S2P Require Import GroupSpec.
From S2P Require Import GroupCoherence.
From S2P Require Import GroupChanges.
From S2P Require Import GroupReads.
From S2P Require Import GroupProofs.
From S2P Require Import GroupTheorems.
From stdpp Require Import options.

#[local] Open Scope Z_scope.
#[local] Existing Instances model_tools model_tools_laws map_order mem_engine mem_engine_laws mem_rocks_tags model_msg_tools model_msg_tools_laws
  model_list_tools sample_services.

(** The webhook has nothing to say. *)
Definition silent_webhook : Webhook := {|
  webhook_create _ _ := inr (Bare ErrCallbackContinue);
  webhook_join _ _ := inr (Bare ErrCallbackContinue);
  webhook_set _ _ := inr (Bare ErrCallbackContinue) |}.
#[local] Existing Instance silent_webhook.
#[local] Instance silent_webhook_keeps : WebhookKeeps.
Proof. by split. Qed.

Definition group_config : GroupConfig :=
  mkGroupConfig ["admin"] true true true (uniform_notification NotificationConf_zero).
Definition called_by (u : string) : CallContext :=
  mkCall u "operation" 1000 (λ i, 100 + Z.of_nat i) (λ i, 7).
Definition tips_text (_ : GroupTips) : string := "{}".
Definition elem_text (_ : string) : string + error := inl "{}".
Definition no_answer (_ : list GroupEffect) (_ : GroupEffect) : option error := None.
Definition last_seq (_ : string) (_ : list GroupEffect) : Z + error := inl 9.

Definition no_rows : World (list GroupEffect) :=
  mkWorld (mkTables (H:=mem_engine) (∅ : gmap string GroupModel) (∅ : gmap (string * string) GroupMemberModel) (∅ : gmap (string * string) GroupRequestModel))
    (mkSuperDocs (H:=mem_engine) (∅ : gmap string (list string)) (∅ : gmap string (list string))) (∅ : gmap string string) [].

Definition room_info (need : Z) : GroupInfo :=
  {| GI_GroupID := "room"; GI_GroupName := "r"; GI_Notification := ""; GI_Introduction := ""; GI_FaceURL := "";
     GI_OwnerUserID := ""; GI_CreateTime := 0; GI_MemberCount := 0; GI_Ex := ""; GI_Status := 0;
     GI_CreatorUserID := ""; GI_GroupType := WorkingGroup; GI_NeedVerification := need; GI_LookMemberInfo := 0;
     GI_ApplyMemberFriend := 0; GI_NotificationUpdateTime := 0; GI_NotificationUserID := "" |}.
Definition create_room (need : Z) : CreateGroupReq :=
  mkCreateGroupReq ["carol"] (Some (room_info need)) ["bob"] "alice".

Definition run_as (u : string) (call : group_call) : M (World (list GroupEffect)) () :=
  run_call group_config (called_by u) tips_text elem_text no_answer last_seq call.
Definition the_room (need : Z) := run_as "alice" (Call_CreateGroup (create_room need)) no_rows.

Lemma no_rows_inv : Inv no_rows.
Proof.
  split; [intros k s Hs; vm_compute in Hs; discriminate Hs|].
  split; [intros g u [m Hm]; vm_compute in Hm; discriminate Hm|intros g [r Hr]; vm_compute in Hr; discriminate Hr].
Qed.

Definition dash : Ascii.ascii := Ascii.Ascii true false true true false true false false.
Lemma plain_dash_free s :
  forallb (λ c, negb (Ascii.eqb c dash)) (String.list_ascii_of_string s) = true → dash_free s.
Proof.
  intros Hs a b ->. revert Hs. induction a as [|x a IH]; cbn; [done|].
  intros [_ Hs]%andb_true_iff. auto.
Qed.

Lemma room_inv need : Inv (the_room need).2.
Proof.
  pose proof (run_call_done group_config (called_by "alice") tips_text elem_text no_answer last_seq
    (Call_CreateGroup (create_room need)) no_rows no_rows_inv) as Hd.
  rewrite wp_eq in Hd. apply Hd. intros g [= <-]. by apply plain_dash_free.
Qed.

(** The role of a user in the room, as the tables have it. *)
Definition role_of (w : World (list GroupEffect)) (u : string) : option Z :=
  role_in (r_members (rows_of (w_tables w))) "room" u.

Definition transfer_to_bob : TransferGroupOwnerReq := mkTransferReq "room" "alice" "bob".

(** A run of which the result is known. *)
Lemma ran {W A} (m : M W A) w r : (m w).1 = r → m w = (r, (m w).2).
Proof. intros <-. by destruct (m w). Qed.

Lemma group_service_refines_witness :
  let w := (the_room 1).2 in
  let w' := (run_as "alice" (Call_TransferGroupOwner transfer_to_bob) w).2 in
  role_of w' "bob" = Some GroupOwner ∧
  group_step (the_caller group_config (called_by "alice")) (rows_of (w_tables w))
    (Call_TransferGroupOwner transfer_to_bob) (rows_of (w_tables w')).
Proof.
  intros w w'. split; [vm_compute; reflexivity|].
  assert ((run_as "alice" (Call_TransferGroupOwner transfer_to_bob) w).1 = Ok ()) as E by (vm_compute; reflexivity).
  apply ran in E. change (run_as "alice" (Call_TransferGroupOwner transfer_to_bob) w = (Ok (), w')) in E.
  assert (call_ok (Call_TransferGroupOwner transfer_to_bob)) as Hok by by apply plain_dash_free.
  pose proof (room_inv 1 : Inv w) as HI. clearbody w w'.
  apply (group_service_refines group_config tips_text elem_text no_answer last_seq _ _ _ _ _ HI Hok E). reflexivity.
Defined.

(** A life of the room: created, joined, handed over, left by its first owner. *)
Definition room_life : list (CallContext * group_call) :=
  [(called_by "alice", Call_CreateGroup (create_room 1));
   (called_by "dave", Call_JoinGroup (mkJoinGroupReq "room" "hello" 3 "dave"));
   (called_by "bob", Call_GroupApplicationResponse (mkResponseReq "room" "dave" "welcome" 1));
   (called_by "alice", Call_TransferGroupOwner transfer_to_bob);
   (called_by "bob", Call_SetGroupMemberInfo [mkSetMember "room" "dave" None None (Some GroupAdmin) None]);
   (called_by "dave", Call_KickGroupMember (mkKickReq "room" ["bob"] ""));
   (called_by "alice", Call_QuitGroup (mkQuitReq "room" ""))].

Definition after_life : World (list GroupEffect) :=
  serve group_config tips_text elem_text no_answer last_seq room_life no_rows.

Lemma room_life_ok ctx call : (ctx, call) ∈ room_life → is_manager group_config ctx = false ∧ call_ok call.
Proof.
  intros Hin. unfold room_life in Hin.
  repeat (apply elem_of_cons in Hin as [[= -> ->]|Hin];
    [split; [vm_compute; reflexivity|]; cbn [call_ok]; try (by apply plain_dash_free)|]).
  - intros g [= <-]. by apply plain_dash_free.
  - intros e ->%list_elem_of_singleton. by apply plain_dash_free.
  - by apply elem_of_nil in Hin.
Qed.

Lemma groups_keep_one_owner_witness :
  one_owner (rows_of (w_tables after_life)) ∧
  (role_of after_life "alice", role_of after_life "bob", role_of after_life "carol", role_of after_life "dave") =
  (None, Some GroupOwner, Some GroupOrdinaryUsers, Some GroupAdmin).
Proof.
  split; [|vm_compute; reflexivity].
  apply (groups_keep_one_owner group_config tips_text elem_text no_answer last_seq room_life no_rows).
  - exact no_rows_inv.
  - intros g [r Hr]. vm_compute in Hr. discriminate Hr.
  - exact room_life_ok.
Defined.

Lemma no_rows_typed : well_typed (rows_of (w_tables no_rows)).
Proof. split; intros *; vm_compute; discriminate. Qed.

Lemma group_rows_typed_witness :
  well_typed (rows_of (w_tables after_life)) ∧ size (r_members (rows_of (w_tables after_life))) = 3%nat.
Proof.
  split; [|vm_compute; reflexivity].
  apply (group_rows_typed group_config tips_text elem_text no_answer last_seq room_life no_rows).
  - exact no_rows_inv.
  - exact no_rows_typed.
  - exact room_life_ok.
Defined.

Lemma cached_reads_agree_witness :
  is_ok (TakeGroupMember "room" "dave" after_life).1 = true ∧
  match (TakeGroupMember "room" "dave" after_life).1 with
  | Ok m => r_members (rows_of (w_tables after_life)) !! ("room", "dave") = Some m
  | Err e => group_IsNotFound e = true → r_members (rows_of (w_tables after_life)) !! ("room", "dave") = None
  | _ => False end.
Proof.
  split; [vm_compute; reflexivity|].
  pose proof (cached_reads_agree group_config tips_text elem_text no_answer last_seq room_life no_rows "room" "dave"
    no_rows_inv (λ ctx call Hin, proj2 (room_life_ok ctx call Hin)) (plain_dash_free "room" eq_refl)) as H.
  cbv zeta in H. fold after_life in H. generalize dependent after_life. intros w H. exact (proj1 (proj2 H)).
Defined.

(** A call on a state whose cache agrees with its tables leaves such a state. *)
Lemma run_inv u call w : Inv w → call_ok call → Inv (run_as u call w).2.
Proof.
  intros HI Hok. destruct (run_as u call w) as [r w'] eqn:E.
  apply (run_spec group_config tips_text elem_text no_answer last_seq _ _ _ _ _ HI Hok E).
Qed.

Lemma life_inv : Inv after_life.
Proof.
  refine (proj1 (serve_keeps group_config tips_text elem_text no_answer last_seq (λ _, True) room_life no_rows
    _ _ no_rows_inv I)); [done|]. intros ctx call Hin. by apply (room_life_ok ctx call).
Qed.

Definition kick_carol : KickGroupMemberReq := mkKickReq "room" ["carol"] "noise".
Definition kick_run := KickGroupMember group_config (called_by "dave") tips_text elem_text no_answer last_seq kick_carol after_life.
Definition the_group (w : World (list GroupEffect)) : option GroupModel := r_groups (rows_of (w_tables w)) !! "room".
Definition group_after_life : GroupModel := default (set_Group_GroupID "" (mkGroupModel "" "" "" "" "" 0 "" 0 "" 0 0 0 0 0 "")) (the_group after_life).

Lemma KickGroupMember_authorised_witness :
  kick_run.1 = Ok () ∧ role_of kick_run.2 "carol" = None ∧
  may_kick (r_members (rows_of (w_tables after_life))) "dave" "room" ["carol"].
Proof.
  assert (kick_run.1 = Ok ()) as Hr by (vm_compute; reflexivity).
  split; [exact Hr|]. split; [vm_compute; reflexivity|].
  assert (the_group after_life = Some group_after_life) as Hg by (vm_compute; reflexivity).
  assert (Group_GroupType group_after_life ≠ SuperGroup) as Hty by (vm_compute; discriminate).
  apply ran in Hr. pose proof (KickGroupMember_authorised group_config tips_text elem_text no_answer last_seq
    (called_by "dave") kick_carol after_life (Ok ()) kick_run.2 group_after_life life_inv
    (plain_dash_free "room" eq_refl) Hg Hty Hr) as [[_ Hno]|(_ & _ & [Hm|Hk] & _)];
    [discriminate Hno|vm_compute in Hm; discriminate Hm|exact Hk].
Defined.

Definition transfer_run :=
  TransferGroupOwner group_config (called_by "alice") tips_text elem_text no_answer transfer_to_bob (the_room 1).2.

Lemma TransferGroupOwner_exchanges_witness :
  transfer_run.1 = Ok () ∧ role_of transfer_run.2 "bob" = Some GroupOwner ∧
  role_of transfer_run.2 "alice" = role_of (the_room 1).2 "bob".
Proof.
  assert (transfer_run.1 = Ok ()) as Hr by (vm_compute; reflexivity).
  split; [exact Hr|]. apply ran in Hr.
  pose proof (TransferGroupOwner_exchanges group_config tips_text elem_text no_answer (called_by "alice")
    transfer_to_bob (the_room 1).2 (Ok ()) transfer_run.2 (room_inv 1) (plain_dash_free "room" eq_refl) Hr)
    as [[_ Hno]|(_ & _ & _ & _ & _ & _ & _ & _ & Hn & Ho & _)]; [discriminate Hno|]. exact (conj Hn Ho).
Defined.

(** Dave asks to join; alice agrees, and bob cannot answer again. *)
Definition ask_to_join : JoinGroupReq := mkJoinGroupReq "room" "hello" 3 "dave".
Definition asked : World (list GroupEffect) := (run_as "dave" (Call_JoinGroup ask_to_join) (the_room 1).2).2.
Lemma asked_inv : Inv asked.
Proof. apply run_inv; [apply room_inv|by apply plain_dash_free]. Qed.
Definition respond (u : string) (result : Z) :=
  GroupApplicationResponse group_config (called_by u) tips_text elem_text no_answer (mkResponseReq "room" "dave" "ok" result).
Definition agreed := respond "alice" GroupResponseAgree asked.

Definition mute_room : CallContext * group_call := (called_by "alice", Call_MuteGroup "room").

Lemma request_answered_once_witness :
  agreed.1 = Ok () ∧ role_of agreed.2 "dave" = Some GroupOrdinaryUsers ∧
  is_ok (respond "alice" GroupResponseRefuse (serve group_config tips_text elem_text no_answer last_seq [mute_room] agreed.2)).1 = false.
Proof.
  assert (agreed.1 = Ok ()) as Hr by (vm_compute; reflexivity).
  split; [exact Hr|]. apply ran in Hr.
  destruct (request_answered_once group_config tips_text elem_text no_answer last_seq (called_by "alice")
    (mkResponseReq "room" "dave" "ok" GroupResponseAgree) asked (Ok ()) agreed.2
    asked_inv (plain_dash_free "room" eq_refl) Hr) as [[_ Hno]|[Ha Hlater]]; [discriminate Hno|].
  split; [vm_compute; reflexivity|].
  destruct (Hlater [mute_room] (called_by "alice") (mkResponseReq "room" "dave" "ok" GroupResponseRefuse) _ _
    ltac:(intros c call [= -> ->]%list_elem_of_singleton; split; [apply (plain_dash_free "room" eq_refl)|intros []])
    eq_refl eq_refl (ran _ _ _ eq_refl)) as [Hno _]. exact Hno.
Defined.

Definition open_run :=
  JoinGroup group_config (called_by "dave") tips_text elem_text no_answer ask_to_join (the_room Directly).2.

Lemma JoinGroup_only_open_witness :
  open_run.1 = Ok () ∧ role_of (the_room Directly).2 "dave" = None ∧ role_of open_run.2 "dave" = Some GroupOrdinaryUsers.
Proof.
  assert (open_run.1 = Ok ()) as Hr by (vm_compute; reflexivity).
  split; [exact Hr|]. split; [vm_compute; reflexivity|]. apply ran in Hr.
  pose proof (JoinGroup_only_open group_config tips_text elem_text no_answer (called_by "dave") ask_to_join
    (the_room Directly).2 (Ok ()) open_run.2 "room" "dave" (room_inv Directly) (plain_dash_free "room" eq_refl) Hr)
    as [Hj _].
  assert (r_members (rows_of (w_tables (the_room Directly).2)) !! ("room", "dave") = None) as H0
    by (vm_compute; reflexivity).
  assert (bool_decide (is_Some (r_members (rows_of (w_tables open_run.2)) !! ("room", "dave"))) = true) as H1
    by (vm_compute; reflexivity).
  apply bool_decide_eq_true in H1. destruct (Hj H0 H1) as (_ & _ & Hrole & _). exact Hrole.
Defined.

Definition mute_carol : MuteGroupMemberReq := mkMuteReq "room" "carol" 60.
Definition mute_run := MuteGroupMember group_config (called_by "dave") tips_text elem_text no_answer mute_carol after_life.

Lemma MuteGroupMember_authorised_witness :
  mute_run.1 = Ok () ∧
  may_mute (r_members (rows_of (w_tables after_life))) "dave" "room" "carol".
Proof.
  assert (mute_run.1 = Ok ()) as Hr by (vm_compute; reflexivity).
  split; [exact Hr|]. apply ran in Hr.
  pose proof (MuteGroupMember_authorised group_config tips_text elem_text no_answer (called_by "dave") mute_carol
    after_life (Ok ()) mute_run.2 life_inv (plain_dash_free "room" eq_refl) Hr) as [[_ Hno]|[[Hm|Hk] _]];
    [discriminate Hno|vm_compute in Hm; discriminate Hm|exact Hk].
Defined.

Definition promote_carol : list SetGroupMemberInfo := [mkSetMember "room" "carol" None None (Some GroupAdmin) None].
Definition promote_run :=
  groupServer_SetGroupMemberInfo group_config (called_by "bob") tips_text elem_text no_answer promote_carol after_life.

Lemma SetGroupMemberInfo_roles_witness :
  role_of promote_run.2 "carol" = Some GroupAdmin ∧
  ∃ ro, role_of after_life "bob" = Some ro ∧ ro ≠ GroupOrdinaryUsers ∧ ro ≠ GroupAdmin.
Proof.
  assert (role_of promote_run.2 "carol" = Some GroupAdmin) as Hc by (vm_compute; reflexivity).
  split; [exact Hc|].
  assert (∀ e, e ∈ promote_carol → dash_free (SetM_GroupID e)) as Hd
    by (intros e ->%list_elem_of_singleton; apply plain_dash_free; reflexivity).
  assert (role_of promote_run.2 "carol" ≠ role_of after_life "carol") as Hne by (vm_compute; discriminate).
  pose proof (SetGroupMemberInfo_roles group_config tips_text elem_text no_answer (called_by "bob") promote_carol
    after_life promote_run.1 promote_run.2 "room" "carol" life_inv Hd eq_refl (ran _ _ _ eq_refl)) as [_ Hro].
  destruct (Hro Hne) as (_ & _ & _ & Hex). exact Hex.
Defined.

Definition gen_run := GenGroupID (called_by "alice") "" after_life.

Lemma GenGroupID_bounded_witness :
  is_ok gen_run.1 = true ∧
  ∃ n, (n < 10)%nat ∧ drawn (called_by "alice") n = (match gen_run.1 with Ok id => Some id | _ => None end).
Proof.
  assert (is_ok gen_run.1 = true) as Hr by (vm_compute; reflexivity).
  split; [exact Hr|].
  pose proof (GenGroupID_bounded (called_by "alice") "" after_life gen_run.1 gen_run.2 life_inv (ran _ _ _ eq_refl))
    as [_ Hq].
  destruct gen_run.1 as [id|e| |]; [|discriminate Hr..]. destruct Hq as (_ & n & Hn & Hd & _). exists n. split; assumption.
Defined.

Definition dave_row : GroupMemberModel := new_member (called_by "alice") "room" "dave" GroupOrdinaryUsers.
Definition store_run := HandlerGroupRequest "room" "dave" "ok" GroupResponseAgree (Some dave_row) asked.

Lemma HandlerGroupRequest_atomic_witness :
  store_run.1 = Ok () ∧
  r_members (rows_of (w_tables store_run.2)) = <[("room", "dave") := dave_row]> (r_members (rows_of (w_tables asked))).
Proof.
  assert (store_run.1 = Ok ()) as Hr by (vm_compute; reflexivity).
  split; [exact Hr|]. apply ran in Hr.
  assert (∀ m, Some dave_row = Some m → Member_GroupID m = "room") as Hm by (intros m [= <-]; reflexivity).
  assert (bool_decide (is_Some (r_groups (rows_of (w_tables asked)) !! "room")) = true) as Hg
    by (vm_compute; reflexivity).
  apply bool_decide_eq_true in Hg.
  destruct (HandlerGroupRequest_atomic "room" "dave" "ok" GroupResponseAgree (Some dave_row) asked (Ok ()) store_run.2
    asked_inv Hm Hg Hr) as (_ & _ & _ & _ & Hrows). exact Hrows.
Defined.

Definition all_run := GetGroupAllMember "room" after_life.

Lemma GetGroupAllMember_answers_nobody_witness :
  all_run.1 = Ok [] ∧ size (r_members (rows_of (w_tables after_life))) = 3%nat.
Proof.
  split; [|vm_compute; reflexivity].
  assert (is_ok all_run.1 = true) as Hr by (vm_compute; reflexivity).
  destruct all_run.1 as [l|e| |] eqn:E; [|discriminate Hr..].
  f_equal. apply (GetGroupAllMember_answers_nobody "room" after_life l all_run.2). exact (ran _ _ _ E).
Defined.

(** ** What the handlers do not check

    A manager's transfer does not ask whether the old owner owns the group. *)
Theorem manager_makes_two_owners :
  let w := run_as "admin" (Call_TransferGroupOwner (mkTransferReq "room" "carol" "dave")) after_life in
  w.1 = Ok () ∧ role_of w.2 "bob" = Some GroupOwner ∧ role_of w.2 "dave" = Some GroupOwner.
Proof. vm_compute. auto. Qed.

(** A dismissed group whose group row is updated again is no longer dismissed: the muting of a group
    writes the status without looking at it. *)
Theorem dismissed_group_revived :
  let w1 := run_as "bob" (Call_DismissGroup (mkDismissReq "room" false)) after_life in
  let w2 := run_as "bob" (Call_MuteGroup "room") w1.2 in
  w1.1 = Ok () ∧ w2.1 = Ok () ∧
  Group_Status <$> the_group w1.2 = Some GroupStatusDismissed ∧
  Group_Status <$> the_group w2.2 = Some GroupStatusMuted.
Proof. vm_compute. auto. Qed.

(** The dismissal that deletes the members leaves their cached rows: a member who was read before is
    still answered from the cache. *)
Theorem dismissal_leaves_ghosts :
  let w := DismissGroup group_config (called_by "bob") tips_text elem_text no_answer (mkDismissReq "room" true) after_life in
  w.1 = Ok () ∧ role_of w.2 "bob" = None ∧ is_ok (TakeGroupMember "room" "bob" w.2).1 = true.
Proof. vm_compute. auto. Qed.
