(* ===== verification/FriendTypes.v ===== *)
(** * Data of the friend service

    The rows of the three tables (pkg/common/db/table/relation), the requests of
    the protocol with the checks they pass before they reach a handler
    (pkg/protocol/friend), and what the service answers (pkg/protocol/sdkws).
    Times are milliseconds; Go's zero time is [zero_time]. *)

From S2P Require Import Prelude.
From S2P Require Import Constants.
From S2P Require Import Notification.
From S2P Require Import GroupTypes.
From stdpp Require Import options.

#[local] Open Scope Z_scope.

(** ** Rows *)

Record FriendModel := mkFriendModel {
  Friend_OwnerUserID : string; Friend_FriendUserID : string; Friend_Remark : string;
  Friend_CreateTime : Z; Friend_AddSource : Z; Friend_OperatorUserID : string; Friend_Ex : string }.

Record FriendRequestModel := mkFriendRequestModel {
  FReq_FromUserID : string; FReq_ToUserID : string; FReq_HandleResult : Z; FReq_ReqMsg : string;
  FReq_CreateTime : Z; FReq_HandlerUserID : string; FReq_HandleMsg : string; FReq_HandleTime : Z;
  FReq_Ex : string }.

Record BlackModel := mkBlackModel {
  Black_OwnerUserID : string; Black_BlockUserID : string; Black_CreateTime : Z;
  Black_AddSource : Z; Black_OperatorUserID : string; Black_Ex : string }.

#[export] Instance FriendModel_eq_dec : EqDecision FriendModel.
Proof. solve_decision. Defined.
#[export] Instance FriendRequestModel_eq_dec : EqDecision FriendRequestModel.
Proof. solve_decision. Defined.
#[export] Instance BlackModel_eq_dec : EqDecision BlackModel.
Proof. solve_decision. Defined.

(** The primary keys. *)
Definition friend_key (f : FriendModel) : string * string := (Friend_OwnerUserID f, Friend_FriendUserID f).
Definition friend_request_key (r : FriendRequestModel) : string * string := (FReq_FromUserID r, FReq_ToUserID r).
Definition black_key (b : BlackModel) : string * string := (Black_OwnerUserID b, Black_BlockUserID b).

(** [time.Time{}], and the second of a time. *)
Definition zero_time : Z := -62135596800000.
Definition Unix (t : Z) : Z := t / 1000.

(** [autoCreateTime]: the time of the insertion where none is given. *)
Definition auto_time (now t : Z) : Z := if t =? zero_time then now else t.
Definition auto_friend (now : Z) (f : FriendModel) : FriendModel :=
  let '(mkFriendModel o u remark t source op ex) := f in mkFriendModel o u remark (auto_time now t) source op ex.
Definition auto_request (now : Z) (r : FriendRequestModel) : FriendRequestModel :=
  let '(mkFriendRequestModel from to result msg t handler hmsg htime ex) := r in
  mkFriendRequestModel from to result msg (auto_time now t) handler hmsg htime ex.

Definition set_Remark (v : string) (f : FriendModel) : FriendModel :=
  let '(mkFriendModel o u _ t source op ex) := f in mkFriendModel o u v t source op ex.

(** The columns a request is updated by. *)
Inductive request_column :=
  | col_handle_result (v : Z) | col_handle_msg (v : string) | col_req_msg (v : string)
  | col_request_ex (v : string) | col_create_time (v : Z).

Definition set_request_column (r : FriendRequestModel) (c : request_column) : FriendRequestModel :=
  let '(mkFriendRequestModel from to result msg t handler hmsg htime ex) := r in
  match c with
  | col_handle_result v => mkFriendRequestModel from to v msg t handler hmsg htime ex
  | col_handle_msg v => mkFriendRequestModel from to result msg t handler v htime ex
  | col_req_msg v => mkFriendRequestModel from to result v t handler hmsg htime ex
  | col_request_ex v => mkFriendRequestModel from to result msg t handler hmsg htime v
  | col_create_time v => mkFriendRequestModel from to result msg v handler hmsg htime ex
  end.
Definition set_request_columns (cs : list request_column) (r : FriendRequestModel) : FriendRequestModel :=
  foldl set_request_column r cs.

(** [Updates(fr2)] by a row: its columns that are not zero, the keys left out. *)
Definition nonzero_str (new old : string) : string := if bool_decide (new = "") then old else new.
Definition nonzero_int (new old : Z) : Z := if new =? 0 then old else new.
Definition nonzero_time (new old : Z) : Z := if new =? zero_time then old else new.
Definition update_request (fr2 r : FriendRequestModel) : FriendRequestModel :=
  {| FReq_FromUserID := FReq_FromUserID r; FReq_ToUserID := FReq_ToUserID r;
     FReq_HandleResult := nonzero_int (FReq_HandleResult fr2) (FReq_HandleResult r);
     FReq_ReqMsg := nonzero_str (FReq_ReqMsg fr2) (FReq_ReqMsg r);
     FReq_CreateTime := nonzero_time (FReq_CreateTime fr2) (FReq_CreateTime r);
     FReq_HandlerUserID := nonzero_str (FReq_HandlerUserID fr2) (FReq_HandlerUserID r);
     FReq_HandleMsg := nonzero_str (FReq_HandleMsg fr2) (FReq_HandleMsg r);
     FReq_HandleTime := nonzero_time (FReq_HandleTime fr2) (FReq_HandleTime r);
     FReq_Ex := nonzero_str (FReq_Ex fr2) (FReq_Ex r) |}.

Lemma friend_key_auto now f : friend_key (auto_friend now f) = friend_key f.
Proof. by destruct f. Qed.
Lemma friend_key_remark v f : friend_key (set_Remark v f) = friend_key f.
Proof. by destruct f. Qed.
Lemma friend_request_key_auto now r : friend_request_key (auto_request now r) = friend_request_key r.
Proof. by destruct r. Qed.
Lemma friend_request_key_columns cs r : friend_request_key (set_request_columns cs r) = friend_request_key r.
Proof.
  unfold set_request_columns. revert r. induction cs as [|c cs IH]; intros r; [done|]. cbn. rewrite IH. by destruct r, c.
Qed.
Lemma friend_request_key_update fr2 r : friend_request_key (update_request fr2 r) = friend_request_key r.
Proof. done. Qed.

(** ** Requests *)

Record ApplyToAddFriendReq := mkApplyReq {
  Apply_FromUserID : string; Apply_ToUserID : string; Apply_ReqMsg : string; Apply_Ex : string }.
Record ImportFriendReq := mkImportReq { Import_OwnerUserID : string; Import_FriendUserIDs : list string }.
Record RespondFriendApplyReq := mkRespondReq {
  Respond_FromUserID : string; Respond_ToUserID : string; Respond_HandleResult : Z;
  Respond_HandleMsg : string }.
Record DeleteFriendReq := mkDeleteFriendReq { DelF_OwnerUserID : string; DelF_FriendUserID : string }.
Record SetFriendRemarkReq := mkRemarkReq {
  Remark_OwnerUserID : string; Remark_FriendUserID : string; Remark_Remark : string }.
(** [AddBlackReq] and [RemoveBlackReq]. *)
Record AddBlackReq := mkAddBlackReq { AddB_OwnerUserID : string; AddB_BlackUserID : string }.
Record RemoveBlackReq := mkRemoveBlackReq { RemB_OwnerUserID : string; RemB_BlackUserID : string }.

(** A string that must not be empty. *)
Definition nonblank (s text : string) (k : () + error) : () + error := check (bool_decide (s = "")) text k.

Definition GetPaginationFriendsReq_Check (pagination : option RequestPagination) (UserID : string) : () + error :=
  match check_page pagination with inr e => inr e | inl _ => nonblank UserID "userID is empty" (inl ()) end.
Definition ApplyToAddFriendReq_Check (x : ApplyToAddFriendReq) : () + error :=
  nonblank (Apply_ToUserID x) "toUserID is empty" (nonblank (Apply_FromUserID x) "fromUserID is empty" (inl ())).
Definition ImportFriendReq_Check (x : ImportFriendReq) : () + error :=
  nonblank (Import_OwnerUserID x) "ownerUserID is empty" (
  check (bool_decide (Import_FriendUserIDs x = [])) "friendUserIDS is empty" (inl ())).
Definition GetPaginationFriendsApplyToReq_Check (UserID : string) (pagination : option RequestPagination) : () + error :=
  nonblank UserID "userID is empty" (check_page pagination).
Definition GetDesignatedFriendsReq_Check (OwnerUserID : string) (FriendUserIDs : list string) : () + error :=
  nonblank OwnerUserID "ownerUserID is empty" (
  check (bool_decide (FriendUserIDs = [])) "friendUserIDS is empty" (inl ())).
Definition AddBlackReq_Check (x : AddBlackReq) : () + error :=
  nonblank (AddB_OwnerUserID x) "ownerUserID is empty" (nonblank (AddB_BlackUserID x) "BlackUserID is empty" (inl ())).
Definition RemoveBlackReq_Check (x : RemoveBlackReq) : () + error :=
  nonblank (RemB_OwnerUserID x) "ownerUserID is empty" (nonblank (RemB_BlackUserID x) "BlackUserID is empty" (inl ())).
Definition GetPaginationBlacksReq_Check (UserID : string) (pagination : option RequestPagination) : () + error :=
  nonblank UserID "userID is empty" (check_page pagination).
Definition IsFriendReq_Check (UserID1 UserID2 : string) : () + error :=
  nonblank UserID1 "userID1 is empty" (nonblank UserID2 "userID2 is empty" (inl ())).
Definition IsBlackReq_Check (UserID1 UserID2 : string) : () + error :=
  nonblank UserID1 "userID1 is empty" (nonblank UserID2 "userID2 is empty" (inl ())).
Definition DeleteFriendReq_Check (x : DeleteFriendReq) : () + error :=
  nonblank (DelF_OwnerUserID x) "userID1 is empty" (nonblank (DelF_FriendUserID x) "userID2 is empty" (inl ())).
Definition RespondFriendApplyReq_Check (x : RespondFriendApplyReq) : () + error :=
  nonblank (Respond_ToUserID x) "toUserID is empty" (nonblank (Respond_FromUserID x) "fromUserID is empty" (inl ())).
Definition SetFriendRemarkReq_Check (x : SetFriendRemarkReq) : () + error :=
  nonblank (Remark_OwnerUserID x) "ownerUserID is empty" (
  nonblank (Remark_FriendUserID x) "fromUserID is empty" (inl ())).
Definition GetPaginationFriendsApplyFromReq_Check (UserID : string) (pagination : option RequestPagination) : () + error :=
  nonblank UserID "userID is empty" (check_page pagination).
Definition GetFriendIDsReq_Check (UserID : string) : () + error := nonblank UserID "userID is empty" (inl ()).

(** ** Answers *)

Record FriendInfo := mkFriendInfo {
  FI_OwnerUserID : string; FI_Remark : string; FI_CreateTime : Z; FI_FriendUser : option UserInfo;
  FI_AddSource : Z; FI_OperatorUserID : string; FI_Ex : string }.
Record BlackInfo := mkBlackInfo {
  BI_OwnerUserID : string; BI_CreateTime : Z; BI_BlackUserInfo : option PublicUserInfo;
  BI_AddSource : Z; BI_OperatorUserID : string; BI_Ex : string }.
Record FriendRequest := mkFriendRequest {
  FRq_FromUserID : string; FRq_FromNickname : string; FRq_FromFaceURL : string;
  FRq_ToUserID : string; FRq_ToNickname : string; FRq_ToFaceURL : string; FRq_HandleResult : Z;
  FRq_ReqMsg : string; FRq_CreateTime : Z; FRq_HandlerUserID : string; FRq_HandleMsg : string;
  FRq_HandleTime : Z; FRq_Ex : string }.
Record GetSpecifiedFriendsInfoInfo := mkSpecified {
  Spec_UserInfo : UserInfo; Spec_FriendInfo : option FriendInfo; Spec_BlackInfo : option BlackInfo }.

(** The contents of the notifications. *)
Inductive FriendTips :=
  | FriendApplicationTips (FromUserID ToUserID : string)
  | FriendApplicationApprovedTips (FromUserID ToUserID HandleMsg : string)
  | FriendDeletedTips (FromUserID ToUserID : string)
  | FriendInfoChangedTips (FromUserID ToUserID : string)
  | BlackAddedTips (FromUserID ToUserID : string)
  | BlackDeletedTips (FromUserID ToUserID : string)
  | FriendAddedTips (Friend : FriendInfo) (OpUser : PublicUserInfo).
