(* ===== verification/FriendStore.v ===== *)
(** * Storage of friends (pkg/common/db/relation)

    Three tables of MySQL: friendships, one row for each direction; requests,
    one row for each pair of users; and blacklists.  [FriendEngine] bundles the
    interfaces of the tables and of the row cache, [FriendWorld] is their state
    with what the service asked of the others.  The file has the statements of
    [friend_model.go], [friend_request_model.go] and [black_model.go]. *)

From S2P Require Import Prelude.
From S2P Require Import Constants.
From S2P Require Import FriendTypes.
From S2P Require Import Sql.
From S2P Require Import RowCache.
From S2P Require Import RowCoherence.
From stdpp Require Import options.
#[local] Set Default Proof Using "Type*".

#[local] Open Scope Z_scope.

Class FriendEngine := {
  FT : Type; QT : Type; BT : Type; FC : Type;
  friends_table :: Table FT (string * string) FriendModel;
  friend_requests_table :: Table QT (string * string) FriendRequestModel;
  blacks_table :: Table BT (string * string) BlackModel;
  friend_cache :: Rocks FC;
  json_friend :: Json FriendModel;
  json_friend_ids :: Json (list string);
  (** Whether a transaction can begin on, or commit, these tables. *)
  friend_Begin : FT → QT → BT → option error;
  friend_Commit : FT → QT → BT → option error;
  (** What gorm makes of [Where("owner_user_id = ? and friend_user_id", o, u).Take], which
      is given one value too many. *)
  take_two_values : string → string → FT → FriendModel + error;
}.

Class FriendEngineLaws `{FriendEngine} : Prop := {
  friends_laws :: TableLaws FT (string * string) FriendModel;
  friend_requests_laws :: TableLaws QT (string * string) FriendRequestModel;
  blacks_laws :: TableLaws BT (string * string) BlackModel;
  friends_key : table_key (T:=FT) = friend_key;
  friend_requests_key : table_key (T:=QT) = friend_request_key;
  blacks_key : table_key (T:=BT) = black_key;
  friend_cache_laws :: RocksLaws FC;
  json_friend_ids_laws :: JsonLaws (list string);
}.

Record FriendTables `{FriendEngine} := mkFriendTables { t_friends : FT; t_friend_requests : QT; t_blacks : BT }.
Arguments mkFriendTables {_} _ _ _.
Record FriendWorld `{FriendEngine} (E : Type) := mkFriendWorld {
  fw_tables : FriendTables; fw_cache : FC; fw_env : E }.
Arguments mkFriendWorld {_ E} _ _ _.
Arguments fw_tables {_ E} _.
Arguments fw_cache {_ E} _.
Arguments fw_env {_ E} _.

Section Statements.
Context `{FriendEngine} {E : Type}.
Abbreviation W := (FriendWorld E).
Abbreviation T := FriendTables.

Definition put_friend_tables (t : T) (w : W) : W := mkFriendWorld t (fw_cache w) (fw_env w).
Definition put_friend_cache (c : FC) (w : W) : W := mkFriendWorld (fw_tables w) c (fw_env w).
Definition put_friend_env (e : E) (w : W) : W := mkFriendWorld (fw_tables w) (fw_cache w) e.

#[export] Instance friend_cached : Cached W FC T :=
  {| world_cache := fw_cache; set_world_cache := put_friend_cache; world_tables := fw_tables |}.
#[export] Instance friend_cached_laws : CachedLaws W FC T.
Proof. by split; intros; try destruct w. Qed.

Definition on_friend_tables {A} (m : M T A) : M W A := zoom fw_tables put_friend_tables m.
Definition on_friend_env {A} (m : M E A) : M W A := zoom fw_env put_friend_env m.

(** Statements on one table; every model wraps their errors. *)
Definition friends_stmt {A} (m : M FT A) : M T A :=
  zoom t_friends (λ f t, mkFriendTables f (t_friend_requests t) (t_blacks t)) m.
Definition friend_requests_stmt {A} (m : M QT A) : M T A :=
  zoom t_friend_requests (λ q t, mkFriendTables (t_friends t) q (t_blacks t)) m.
Definition blacks_stmt {A} (m : M BT A) : M T A :=
  zoom t_blacks (λ b t, mkFriendTables (t_friends t) (t_friend_requests t) b) m.

(** *** friend_model.go *)

Definition owned (o : string) (f : FriendModel) : bool := bool_decide (Friend_OwnerUserID f = o).
Definition befriends (u : string) (f : FriendModel) : bool := bool_decide (Friend_FriendUserID f = u).
Definition has_friend (o u : string) (f : FriendModel) : bool := owned o f && befriends u f.

Definition FriendGorm_Create (now : Z) (friends : list FriendModel) : M T () :=
  wrap_error (friends_stmt (stmt (sql_Create (auto_friend now <$> friends)))).
Definition FriendGorm_Delete (ownerUserID : string) (friendUserIDs : list string) : M T () :=
  wrap_error (friends_stmt (stmt (sql_Delete (λ f,
    owned ownerUserID f && bool_decide (Friend_FriendUserID f ∈ friendUserIDs))))).
(** Without a remark the condition on the friend is missing. *)
Definition FriendGorm_UpdateRemark (ownerUserID friendUserID remark : string) : M T () :=
  if negb (bool_decide (remark = "")) then
    wrap_error (_ ← friends_stmt (stmt (sql_Updates (has_friend ownerUserID friendUserID) (set_Remark remark)));
                mret ())
  else
    wrap_error (_ ← friends_stmt (stmt (sql_Updates (owned ownerUserID) (set_Remark ""))); mret ()).
(** The condition has one placeholder and two values. *)
Definition FriendGorm_Take (ownerUserID friendUserID : string) : M T FriendModel :=
  wrap_error (friends_stmt (stmt (query (take_two_values ownerUserID friendUserID)))).
Definition FindUserState (userID1 userID2 : string) : M T (list FriendModel) :=
  wrap_error (friends_stmt (stmt (query (sql_Find (λ f,
    has_friend userID1 userID2 f || has_friend userID2 userID1 f))))).
Definition FindFriends (ownerUserID : string) (friendUserIDs : list string) : M T (list FriendModel) :=
  wrap_error (friends_stmt (stmt (query (sql_Find (λ f,
    owned ownerUserID f && bool_decide (Friend_FriendUserID f ∈ friendUserIDs)))))).
Definition FindReversalFriends (friendUserID : string) (ownerUserIDs : list string) : M T (list FriendModel) :=
  wrap_error (friends_stmt (stmt (query (sql_Find (λ f,
    befriends friendUserID f && bool_decide (Friend_OwnerUserID f ∈ ownerUserIDs)))))).
(** A page: the number of rows, and those from the offset on.  The offset is
    computed in 32 bits. *)
Definition page_friends (p : FriendModel → bool) (pageNumber showNumber : Z) : M T (list FriendModel * Z) :=
  all ← wrap_error (friends_stmt (stmt (query (sql_Find p))));
  friends ← wrap_error (friends_stmt (stmt (query (
    sql_Limit p showNumber (wrap32 (wrap32 (pageNumber - 1) * showNumber))))));
  mret (friends, len all).
Definition FindOwnerFriends (ownerUserID : string) : Z → Z → M T (list FriendModel * Z) :=
  page_friends (owned ownerUserID).
Definition FindInWhoseFriends (friendUserID : string) : Z → Z → M T (list FriendModel * Z) :=
  page_friends (befriends friendUserID).
Definition FindFriendUserIDs (ownerUserID : string) : M T (list string) :=
  wrap_error (fs ← friends_stmt (stmt (query (sql_Find (owned ownerUserID))));
              mret (Friend_FriendUserID <$> fs)).

(** *** friend_request_model.go *)

Definition request_from (u : string) (r : FriendRequestModel) : bool := bool_decide (FReq_FromUserID r = u).
Definition request_to (u : string) (r : FriendRequestModel) : bool := bool_decide (FReq_ToUserID r = u).
Definition has_friend_request (from to : string) (r : FriendRequestModel) : bool :=
  request_from from r && request_to to r.

Definition FriendRequestGorm_Create (now : Z) (friendRequests : list FriendRequestModel) : M T () :=
  wrap_error (friend_requests_stmt (stmt (sql_Create (auto_request now <$> friendRequests)))).
Definition FriendRequestGorm_Delete (fromUserID toUserID : string) : M T () :=
  wrap_error (friend_requests_stmt (stmt (sql_Delete (has_friend_request fromUserID toUserID)))).
Definition FriendRequestGorm_UpdateByMap (fromUserID toUserID : string) (args : list request_column) : M T () :=
  wrap_error (_ ← friend_requests_stmt (stmt (sql_Updates (has_friend_request fromUserID toUserID)
                (set_request_columns args))); mret ()).
Definition FriendRequestGorm_Update (friendRequest : FriendRequestModel) : M T () :=
  wrap_error (_ ← friend_requests_stmt (stmt (sql_Updates
                (has_friend_request (FReq_FromUserID friendRequest) (FReq_ToUserID friendRequest))
                (update_request friendRequest))); mret ()).
Definition FriendRequestGorm_Take (fromUserID toUserID : string) : M T FriendRequestModel :=
  wrap_error (friend_requests_stmt (stmt (query (sql_Take (has_friend_request fromUserID toUserID))))).
Definition page_requests (p : FriendRequestModel → bool) (pageNumber showNumber : Z) :
    M T (list FriendRequestModel * Z) :=
  all ← wrap_error (friend_requests_stmt (stmt (query (sql_Find p))));
  friendRequests ← wrap_error (friend_requests_stmt (stmt (query (
    sql_Limit p showNumber (mul64 (wrap32 (pageNumber - 1)) showNumber)))));
  mret (friendRequests, len all).
Definition FindToUserID (toUserID : string) : Z → Z → M T (list FriendRequestModel * Z) :=
  page_requests (request_to toUserID).
Definition FindFromUserID (fromUserID : string) : Z → Z → M T (list FriendRequestModel * Z) :=
  page_requests (request_from fromUserID).
Definition FriendRequestGorm_FindBothFriendRequests (fromUserID toUserID : string) : M T (list FriendRequestModel) :=
  wrap_error (friend_requests_stmt (stmt (query (sql_Find (λ r,
    has_friend_request fromUserID toUserID r || has_friend_request toUserID fromUserID r))))).

(** *** black_model.go *)

Definition black_owned (o : string) (b : BlackModel) : bool := bool_decide (Black_OwnerUserID b = o).

Definition BlackGorm_Create (blacks : list BlackModel) : M T () :=
  wrap_error (blacks_stmt (stmt (sql_Create blacks))).
(** The rows are told by their keys. *)
Definition BlackGorm_Delete (blacks : list BlackModel) : M T () :=
  wrap_error (blacks_stmt (stmt (sql_Delete (λ b, bool_decide (black_key b ∈ (black_key <$> blacks)))))).
Definition BlackGorm_Find (blacks : list BlackModel) : M T (list BlackModel) :=
  wrap_error (blacks_stmt (stmt (query (sql_Find (λ b, bool_decide (black_key b ∈ (black_key <$> blacks))))))).
Definition BlackGorm_Take (ownerUserID blockUserID : string) : M T BlackModel :=
  wrap_error (blacks_stmt (stmt (query (sql_Take (λ b,
    black_owned ownerUserID b && bool_decide (Black_BlockUserID b = blockUserID)))))).
Definition BlackGorm_FindOwnerBlacks (ownerUserID : string) (pageNumber showNumber : Z) : M T (list BlackModel * Z) :=
  _ ← wrap_error (blacks_stmt (stmt (query (sql_Find (λ _, true)))));
  r ← blacks_stmt (stmt (query (sql_Search (black_owned ownerUserID) [] "" pageNumber showNumber)));
  mret (r.2, r.1).
Definition FindBlackUserIDs (ownerUserID : string) : M T (list string) :=
  wrap_error (bs ← blacks_stmt (stmt (query (sql_Find (black_owned ownerUserID))));
              mret (Black_BlockUserID <$> bs)).
Definition FindOwnerBlackInfos (ownerUserID : string) (userIDs : list string) : M T (list BlackModel) :=
  wrap_error (blacks_stmt (stmt (query (sql_Find (λ b,
    black_owned ownerUserID b && bool_decide (Black_BlockUserID b ∈ userIDs)))))).

(** *** Transactions *)

Definition in_friend_tx {A} (m : M T A) : M (T * W) A := on_fst m.
Definition out_friend_tx {A} (m : M W A) : M (T * W) A := on_snd m.
Definition FriendTransaction {A} : M (T * W) A → M W A :=
  transaction fw_tables put_friend_tables
    (λ t, friend_Begin (t_friends t) (t_friend_requests t) (t_blacks t))
    (λ t, friend_Commit (t_friends t) (t_friend_requests t) (t_blacks t)).
End Statements.

(** ** The rows *)

Record FriendRows := mkFriendRows {
  fr_friends : gmap (string * string) FriendModel;
  fr_requests : gmap (string * string) FriendRequestModel;
  fr_blacks : gmap (string * string) BlackModel }.

Section StatementFacts.
Context `{FriendEngineLaws} {E : Type}.
Implicit Types (t : FriendTables).

Definition friend_rows t : FriendRows :=
  mkFriendRows (rows (t_friends t)) (rows (t_friend_requests t)) (rows (t_blacks t)).

(** The rows have their keys. *)
Record keyed (rs : FriendRows) : Prop := {
  friends_keyed k f : fr_friends rs !! k = Some f → friend_key f = k;
  requests_keyed k r : fr_requests rs !! k = Some r → friend_request_key r = k;
  blacks_keyed k b : fr_blacks rs !! k = Some b → black_key b = k }.

Lemma friend_rows_keyed t : keyed (friend_rows t).
Proof.
  split; cbn; intros k r Hr%rows_key.
  - by rewrite friends_key in Hr.
  - by rewrite friend_requests_key in Hr.
  - by rewrite blacks_key in Hr.
Qed.

Definition set_friends fs (rs : FriendRows) := mkFriendRows fs (fr_requests rs) (fr_blacks rs).
Definition set_friend_requests qs (rs : FriendRows) := mkFriendRows (fr_friends rs) qs (fr_blacks rs).
Definition set_blacks bs (rs : FriendRows) := mkFriendRows (fr_friends rs) (fr_requests rs) bs.

Lemma has_friend_key o u f : has_friend o u f = true ↔ friend_key f = (o, u).
Proof. unfold has_friend, owned, befriends, friend_key. rewrite andb_true_iff, !bool_decide_eq_true. naive_solver. Qed.
Lemma has_friend_request_key a b r : has_friend_request a b r = true ↔ friend_request_key r = (a, b).
Proof. unfold has_friend_request, request_from, request_to, friend_request_key. rewrite andb_true_iff, !bool_decide_eq_true. naive_solver. Qed.

(** A change of one table, its errors wrapped. *)
Lemma wp_friends_stmt {A} (m : M FT A) (Q : outcome A → FriendTables → Prop) t :
  wp m (λ r f, match r with
    | Ok a => Q (Ok a) (mkFriendTables f (t_friend_requests t) (t_blacks t))
    | Err e => Q (Err (WrapErr "" e)) (mkFriendTables f (t_friend_requests t) (t_blacks t))
    | Panic => Q Panic (mkFriendTables f (t_friend_requests t) (t_blacks t))
    | OutOfFuel => Q OutOfFuel (mkFriendTables f (t_friend_requests t) (t_blacks t)) end) (t_friends t) →
  wp (wrap_error (friends_stmt m)) Q t.
Proof. intros Hm. by apply wp_wrap_error, wp_zoom. Qed.
Lemma wp_friend_requests_stmt {A} (m : M QT A) (Q : outcome A → FriendTables → Prop) t :
  wp m (λ r q, match r with
    | Ok a => Q (Ok a) (mkFriendTables (t_friends t) q (t_blacks t))
    | Err e => Q (Err (WrapErr "" e)) (mkFriendTables (t_friends t) q (t_blacks t))
    | Panic => Q Panic (mkFriendTables (t_friends t) q (t_blacks t))
    | OutOfFuel => Q OutOfFuel (mkFriendTables (t_friends t) q (t_blacks t)) end) (t_friend_requests t) →
  wp (wrap_error (friend_requests_stmt m)) Q t.
Proof. intros Hm. by apply wp_wrap_error, wp_zoom. Qed.
Lemma wp_blacks_stmt {A} (m : M BT A) (Q : outcome A → FriendTables → Prop) t :
  wp m (λ r b, match r with
    | Ok a => Q (Ok a) (mkFriendTables (t_friends t) (t_friend_requests t) b)
    | Err e => Q (Err (WrapErr "" e)) (mkFriendTables (t_friends t) (t_friend_requests t) b)
    | Panic => Q Panic (mkFriendTables (t_friends t) (t_friend_requests t) b)
    | OutOfFuel => Q OutOfFuel (mkFriendTables (t_friends t) (t_friend_requests t) b) end) (t_blacks t) →
  wp (wrap_error (blacks_stmt m)) Q t.
Proof. intros Hm. by apply wp_wrap_error, wp_zoom. Qed.
End StatementFacts.
