(* ===== verification/FriendDatabase.v ===== *)
(** * The databases of friends and of blacklists

    The caches of ids (pkg/common/db/cache/friend.go, black.go) and the
    operations of pkg/common/db/controller/friend.go and black.go over them and
    the tables. *)

From S2P Require Import Prelude.
From S2P Require Import Constants.
From S2P Require Import Tools.
From S2P Require Import FriendTypes.
From S2P Require Import Sql.
From S2P Require Import RowCache.
From S2P Require Import RowCoherence.
From S2P Require Import FriendStore.
From stdpp Require Import options.
#[local] Set Default Proof Using "Type*".

#[local] Open Scope Z_scope.

(** [utils.DistinctAny(es, fn)]: one element for each value of [fn]. *)
Class DistinctTools := {
  DistinctAny : ∀ {A K} `{EqDecision K}, list A → (A → K) → list A;
}.
Class DistinctToolsLaws `{DistinctTools} : Prop := {
  DistinctAny_sub {A K} `{EqDecision K} (l : list A) (f : A → K) x : x ∈ DistinctAny l f → x ∈ l;
  DistinctAny_keys {A K} `{EqDecision K} (l : list A) (f : A → K) k : k ∈ f <$> DistinctAny l f ↔ k ∈ f <$> l;
  DistinctAny_NoDup {A K} `{EqDecision K} (l : list A) (f : A → K) : NoDup (f <$> DistinctAny l f);
}.

(** ** Keys *)

Definition friendIDsKey : string := "FRIEND_IDS:".
Definition TwoWayFriendsIDsKey : string := "COMMON_FRIENDS_IDS:".
Definition friendKey : string := "FRIEND_INFO:".
Definition blackIDsKey : string := "BLACK_IDS:".
Definition getFriendIDsKey (ownerUserID : string) : string := friendIDsKey +:+ ownerUserID.
Definition getTwoWayFriendsIDsKey (ownerUserID : string) : string := TwoWayFriendsIDsKey +:+ ownerUserID.
Definition getFriendKey (ownerUserID friendUserID : string) : string :=
  friendKey +:+ ownerUserID +:+ "-" +:+ friendUserID.
Definition getBlackIDsKey (ownerUserID : string) : string := blackIDsKey +:+ ownerUserID.

(** The keys a cache object will delete. *)
Definition DelFriendIDs (ownerUserIDs : list string) (c : list string) : list string :=
  c ++ (getFriendIDsKey <$> ownerUserIDs).
Definition DelTwoWayFriendIDs (ownerUserID : string) (c : list string) : list string :=
  c ++ [getTwoWayFriendsIDsKey ownerUserID].
Definition DelFriend (ownerUserID friendUserID : string) (c : list string) : list string :=
  c ++ [getFriendKey ownerUserID friendUserID].
Definition DelBlackIDs (userID : string) (c : list string) : list string := c ++ [getBlackIDsKey userID].

Section FriendDatabase.
Context `{FriendEngine} `{Tools} `{DistinctTools} {E : Type}.
Abbreviation W := (FriendWorld E).
Abbreviation T := FriendTables.
(** The clock, the operation and the user of the call. *)
Context (now : Z) (operationID opUserID : string).

Definition friend_getCache {A} `{Json A} (key : string) (fn : M W A) : M W A :=
  getCache world_cache set_world_cache key fn.
Definition friend_ExecDel (keys : list string) : M W () := ExecDel world_cache set_world_cache keys.

(** ** The caches *)

Definition GetFriendIDs (ownerUserID : string) : M W (list string) :=
  friend_getCache (getFriendIDsKey ownerUserID) (on_friend_tables (FindFriendUserIDs ownerUserID)).
(** For each friend who has the owner for a friend, the owner. *)
Definition GetTwoWayFriendIDs (ownerUserID : string) : M W (list string) :=
  friendIDs ← GetFriendIDs ownerUserID;
  fold_each friendIDs [] (λ twoWayFriendIDs friendID,
    friendFriendID ← GetFriendIDs friendID;
    mret (if Contain ownerUserID friendFriendID then twoWayFriendIDs ++ [ownerUserID] else twoWayFriendIDs)).
Definition GetFriend (ownerUserID friendUserID : string) : M W FriendModel :=
  friend_getCache (getFriendKey ownerUserID friendUserID)
    (on_friend_tables (FriendGorm_Take ownerUserID friendUserID)).
Definition GetBlackIDs (userID : string) : M W (list string) :=
  friend_getCache (getBlackIDsKey userID) (on_friend_tables (FindBlackUserIDs userID)).

(** ** controller/friend.go *)

Definition friendDatabase_CheckIn (userID1 userID2 : string) : M W (bool * bool) :=
  userID1FriendIDs ← GetFriendIDs userID1;
  userID2FriendIDs ← GetFriendIDs userID2;
  mret (Contain userID2 userID1FriendIDs, Contain userID1 userID2FriendIDs).

(** [errs.Unwrap(err) != gorm.ErrRecordNotFound] *)
Definition not_missing (err : error) : bool := negb (bool_decide (Unwrap err = GormNotFound)).

Definition new_request (fromUserID toUserID reqMsg ex : string) : FriendRequestModel :=
  mkFriendRequestModel fromUserID toUserID 0 reqMsg now "" "" 0 ex.

Definition renewed (reqMsg ex : string) : list request_column :=
  [col_handle_result 0; col_handle_msg ""; col_req_msg reqMsg; col_request_ex ex; col_create_time now].

Definition AddFriendRequest (fromUserID toUserID reqMsg ex : string) : M W () :=
  FriendTransaction (
    r ← try (in_friend_tx (FriendRequestGorm_Take fromUserID toUserID));
    match r with
    | inl _ => in_friend_tx (FriendRequestGorm_UpdateByMap fromUserID toUserID (renewed reqMsg ex))
    | inr err =>
        if not_missing err then fail err
        else in_friend_tx (FriendRequestGorm_Create now [new_request fromUserID toUserID reqMsg ex])
    end).

Definition imported (owner friend : string) (addSource : Z) : FriendModel :=
  mkFriendModel owner friend "" zero_time addSource operationID "".

(** The rows that are there are inserted again. *)
Definition import_transaction (ownerUserID : string) (friendUserIDs : list string) (addSource : Z) : M W (list string) :=
  FriendTransaction (
    fs1 ← in_friend_tx (FindFriends ownerUserID friendUserIDs);
    let fs11 := DistinctAny (fs1 ++ ((λ v, imported ownerUserID v addSource) <$> friendUserIDs)) Friend_FriendUserID in
    _ ← in_friend_tx (FriendGorm_Create now fs11);
    fs2 ← in_friend_tx (FindReversalFriends ownerUserID friendUserIDs);
    let fs22 := DistinctAny (fs2 ++ ((λ v, imported v ownerUserID addSource) <$> friendUserIDs)) Friend_OwnerUserID in
    _ ← in_friend_tx (FriendGorm_Create now fs22);
    mret (DelFriendIDs (friendUserIDs ++ [ownerUserID]) [])).

(** An error of the transaction is not returned.  The operation stands for the
    operator. *)
Definition BecomeFriends (ownerUserID : string) (friendUserIDs : list string) (addSource : Z) : M W () :=
  r ← try (import_transaction ownerUserID friendUserIDs addSource);
  match r with
  | inr _ => mret ()
  | inl cache => friend_ExecDel cache
  end.

Definition processed : error := Wrap ErrArgs "the friend request has been processed".

Definition set_handled (result : Z) (handler : string) (r : FriendRequestModel) : FriendRequestModel :=
  let '(mkFriendRequestModel from to _ msg t _ hmsg _ ex) := r in
  mkFriendRequestModel from to result msg t handler hmsg now ex.

Definition RefuseFriendRequest (friendRequest : FriendRequestModel) : M W () :=
  fr ← on_friend_tables (FriendRequestGorm_Take (FReq_FromUserID friendRequest) (FReq_ToUserID friendRequest));
  _ ← guard (negb (FReq_HandleResult fr =? 0)) processed;
  on_friend_tables (FriendRequestGorm_Update
    (set_handled FriendResponseRefuse (FReq_HandlerUserID friendRequest) friendRequest)).

(** The rows of a friendship that are missing. *)
Definition applied (owner friend from : string) : FriendModel :=
  mkFriendModel owner friend "" zero_time BecomeFriendByApply from "".
Definition missing_friends (exists_ : list FriendModel) (from to : string) : list FriendModel :=
  let existsMap := friend_key <$> exists_ in
  (if bool_decide ((to, from) ∈ existsMap) then [] else [applied to from from]) ++
  (if bool_decide ((from, to) ∈ existsMap) then [] else [applied from to from]).

Definition AgreeFriendRequest (friendRequest : FriendRequestModel) : M W () :=
  let from := FReq_FromUserID friendRequest in let to := FReq_ToUserID friendRequest in
  FriendTransaction (
    fr ← in_friend_tx (FriendRequestGorm_Take from to);
    _ ← guard (negb (FReq_HandleResult fr =? 0)) processed;
    _ ← in_friend_tx (FriendRequestGorm_Update (set_handled FriendResponseAgree opUserID friendRequest));
    r ← try (in_friend_tx (FriendRequestGorm_Take to from));
    _ ← (match r with
      | inl fr2 =>
          if FReq_HandleResult fr2 =? FriendResponseNotHandle
          then in_friend_tx (FriendRequestGorm_Update (set_handled FriendResponseAgree opUserID fr2))
          else mret ()
      | inr err => guard (not_missing err) err
      end);
    exists_ ← in_friend_tx (FindUserState from to);
    let adds := missing_friends exists_ from to in
    _ ← (if 0 <? len adds then in_friend_tx (FriendGorm_Create now adds) else mret ());
    out_friend_tx (friend_ExecDel (DelFriendIDs [to; from] []))).

Definition friendDatabase_Delete (ownerUserID : string) (friendUserIDs : list string) : M W () :=
  _ ← on_friend_tables (FriendGorm_Delete ownerUserID friendUserIDs);
  friend_ExecDel (DelFriendIDs (friendUserIDs ++ [ownerUserID]) []).
Definition UpdateRemark (ownerUserID friendUserID remark : string) : M W () :=
  _ ← on_friend_tables (FriendGorm_UpdateRemark ownerUserID friendUserID remark);
  friend_ExecDel (DelFriend ownerUserID friendUserID []).
Definition PageOwnerFriends (ownerUserID : string) (pageNumber showNumber : Z) : M W (list FriendModel * Z) :=
  on_friend_tables (FindOwnerFriends ownerUserID pageNumber showNumber).
Definition PageInWhoseFriends (friendUserID : string) (pageNumber showNumber : Z) : M W (list FriendModel * Z) :=
  on_friend_tables (FindInWhoseFriends friendUserID pageNumber showNumber).
Definition PageFriendRequestFromMe (userID : string) (pageNumber showNumber : Z) : M W (list FriendRequestModel * Z) :=
  on_friend_tables (FindFromUserID userID pageNumber showNumber).
Definition PageFriendRequestToMe (userID : string) (pageNumber showNumber : Z) : M W (list FriendRequestModel * Z) :=
  on_friend_tables (FindToUserID userID pageNumber showNumber).
Definition FindFriendsWithError (ownerUserID : string) (friendUserIDs : list string) : M W (list FriendModel) :=
  friends ← on_friend_tables (FindFriends ownerUserID friendUserIDs);
  _ ← guard (negb (len friends =? len friendUserIDs)) (Wrap ErrRecordNotFound "");
  mret friends.
Definition friendDatabase_FindFriendUserIDs (ownerUserID : string) : M W (list string) := GetFriendIDs ownerUserID.
Definition FindBothFriendRequests (fromUserID toUserID : string) : M W (list FriendRequestModel) :=
  on_friend_tables (FriendRequestGorm_FindBothFriendRequests fromUserID toUserID).

(** ** controller/black.go *)

Definition deleteBlackIDsCache (blacks : list BlackModel) : M W () :=
  friend_ExecDel (foldl (λ cache black, DelBlackIDs (Black_OwnerUserID black) cache) [] blacks).
Definition blackDatabase_Create (blacks : list BlackModel) : M W () :=
  _ ← on_friend_tables (BlackGorm_Create blacks);
  deleteBlackIDsCache blacks.
Definition blackDatabase_Delete (blacks : list BlackModel) : M W () :=
  _ ← on_friend_tables (BlackGorm_Delete blacks);
  deleteBlackIDsCache blacks.
Definition FindOwnerBlacks (ownerUserID : string) (pageNumber showNumber : Z) : M W (list BlackModel * Z) :=
  on_friend_tables (BlackGorm_FindOwnerBlacks ownerUserID pageNumber showNumber).
Definition blackDatabase_CheckIn (userID1 userID2 : string) : M W (bool * bool) :=
  userID1BlackIDs ← GetBlackIDs userID1;
  userID2BlackIDs ← GetBlackIDs userID2;
  mret (Contain userID2 userID1BlackIDs, Contain userID1 userID2BlackIDs).
Definition FindBlackIDs (ownerUserID : string) : M W (list string) := GetBlackIDs ownerUserID.
Definition FindBlackInfos (ownerUserID : string) (userIDs : list string) : M W (list BlackModel) :=
  on_friend_tables (FindOwnerBlackInfos ownerUserID userIDs).
End FriendDatabase.
