(* ===== verification/FriendServer.v ===== *)
(** * The friend service (internal/rpc/friend)

    The handlers of [friend.go] and [black.go] with the webhook of
    [callback.go], the notifications of pkg/rpcclient/notification/friend.go and
    the conversions of pkg/common/convert/friend.go and black.go.  Errors of
    notifications are dropped, as in the code. *)

From S2P Require Import Prelude.
From S2P Require Import Constants.
From S2P Require Import MsgTypes.
From S2P Require Import Tools.
From S2P Require Import Notification.
From S2P Require Import RpcClient.
From S2P Require Import Auth.
From S2P Require Import GroupTypes.
From S2P Require Import GroupNotification.
From S2P Require Import FriendTypes.
From S2P Require Import Sql.
From S2P Require Import RowCache.
From S2P Require Import RowCoherence.
From S2P Require Import FriendStore.
From S2P Require Import FriendDatabase.
From stdpp Require Import options.
#[local] Set Default Proof Using "Type*".

#[local] Open Scope Z_scope.

(** The post to the webhook (pkg/callbackstruct/friend.go). *)
Record CallbackBeforeAddFriendReq := mkBeforeAddFriend {
  CBF_CallbackCommand : string; CBF_FromUserID : string; CBF_ToUserID : string; CBF_ReqMsg : string; CBF_OperationID : string }.

(** What the service asks of the message service and of the webhook. *)
Inductive FriendEffect :=
  | FriendSendMsg (m : MsgData)
  | FriendCallbackPost (req : CallbackBeforeAddFriendReq).

Class FriendWebhook := { webhook_add_friend : CallbackBeforeAddFriendReq → list FriendEffect → () + error }.

Record FriendConfig := mkFriendConfig {
  Friend_Manager_UserID : list string;
  BeforeAddFriend_Enable : bool;
  Friend_Config_Notification : notification }.

Section FriendServer.
Context `{FriendEngine} `{Tools} `{MsgTools} `{DistinctTools} `{MapRange} `{Services FriendEffect} `{FriendWebhook}.
Abbreviation W := (FriendWorld (list FriendEffect)).
Abbreviation E := (list FriendEffect).
Context (config : FriendConfig) (now : Z) (operationID opUserID : string).
Context (StructToJsonString : FriendTips → string) (Marshal_elem : string → string + error).
(** What the message service answers. *)
Context (answers : list FriendEffect → FriendEffect → option error).

Abbreviation managers := (Friend_Manager_UserID config).

(** ** Clients *)

Definition Access (ownerUserID : string) : M W () :=
  _ ← on_friend_env (GetUserInfo ownerUserID);
  lift (CheckAccessV3 managers opUserID ownerUserID).

(** ** convert/friend.go, convert/black.go

    [getUsers] is [GetUsersInfoMap] of the client; a user it does not have is a
    nil pointer. *)

Definition friend_user (u : UserInfo) : UserInfo :=
  mkUserInfo (UI_UserID u) (UI_Nickname u) (UI_FaceURL u) (UI_Ex u) 0 0 0.
Definition friend_info (f : FriendModel) (u : UserInfo) : FriendInfo :=
  {| FI_OwnerUserID := Friend_OwnerUserID f; FI_Remark := Friend_Remark f;
     FI_CreateTime := Unix (Friend_CreateTime f); FI_FriendUser := Some (friend_user u);
     FI_AddSource := Friend_AddSource f; FI_OperatorUserID := Friend_OperatorUserID f; FI_Ex := Friend_Ex f |}.

Definition FriendDB2Pb (friendDB : FriendModel) : M W FriendInfo :=
  users ← on_friend_env (GetUsersInfoMap [Friend_FriendUserID friendDB]);
  u ← deref (users !! Friend_FriendUserID friendDB);
  mret (friend_info friendDB u).

Definition FriendsDB2Pb (friendsDB : list FriendModel) : M W (list FriendInfo) :=
  match friendsDB with
  | [] => mret []
  | _ =>
      users ← on_friend_env (GetUsersInfoMap (Friend_FriendUserID <$> friendsDB));
      fold_each friendsDB [] (λ friendsPb friend,
        u ← deref (users !! Friend_FriendUserID friend);
        mret (friendsPb ++ [friend_info friend u]))
  end.

Definition friend_request_pb (r : FriendRequestModel) (fromUser toUser : UserInfo) : FriendRequest :=
  {| FRq_FromUserID := FReq_FromUserID r; FRq_FromNickname := UI_Nickname fromUser;
     FRq_FromFaceURL := UI_FaceURL fromUser; FRq_ToUserID := FReq_ToUserID r;
     FRq_ToNickname := UI_Nickname toUser; FRq_ToFaceURL := UI_FaceURL toUser;
     FRq_HandleResult := FReq_HandleResult r; FRq_ReqMsg := FReq_ReqMsg r;
     FRq_CreateTime := FReq_CreateTime r; FRq_HandlerUserID := FReq_HandlerUserID r;
     FRq_HandleMsg := FReq_HandleMsg r; FRq_HandleTime := FReq_HandleTime r; FRq_Ex := FReq_Ex r |}.

(** The ids of a map, in the order of a loop over it. *)
Definition request_users (friendRequests : list FriendRequestModel) : list string :=
  (range (foldl (λ m r, <[FReq_FromUserID r := ()]> (<[FReq_ToUserID r := ()]> m))
            (∅ : gmap string ()) friendRequests)).*1.

Definition FriendRequestDB2Pb (friendRequests : list FriendRequestModel) : M W (list FriendRequest) :=
  match friendRequests with
  | [] => mret []
  | _ =>
      users ← on_friend_env (GetUsersInfoMap (request_users friendRequests));
      fold_each friendRequests [] (λ res r,
        fromUser ← deref (users !! FReq_FromUserID r);
        toUser ← deref (users !! FReq_ToUserID r);
        mret (res ++ [friend_request_pb r fromUser toUser]))
  end.

Definition BlackDB2Pb (blackDBs : list BlackModel) : M W (list BlackInfo) :=
  match blackDBs with
  | [] => mret []
  | _ =>
      userInfos ← on_friend_env (GetUsersInfoMap (Black_BlockUserID <$> blackDBs));
      fold_each blackDBs [] (λ blackPbs b,
        u ← deref (userInfos !! Black_BlockUserID b);
        mret (blackPbs ++ [mkBlackInfo (Black_OwnerUserID b) (Unix (Black_CreateTime b)) (Some (public_user u))
                             (Black_AddSource b) (Black_OperatorUserID b) (Black_Ex b)]))
  end.

(** ** notification/friend.go *)

Definition friend_send (m : MsgData) : M W (option SendMsgResp) :=
  _ ← on_friend_env (tell answers (FriendSendMsg m)); mret None.

Definition friend_notify (sendID recvID : string) (contentType : Z) (m : FriendTips) : M W () :=
  Notification (Friend_Config_Notification config) now StructToJsonString Marshal_elem utils_GetMsgID
    friend_send None sendID recvID contentType m false.

Definition FriendSender_getUsersInfoMap (userIDs : list string) : M W (gmap string UserInfo) :=
  users ← on_friend_env (GetUsersInfo userIDs); mret (SliceToMap UI_UserID users).

(** An error is not returned; a user who is missing is a nil pointer. *)
Definition getFromToUserNickname (fromUserID toUserID : string) : M W (string * string) :=
  r ← try (FriendSender_getUsersInfoMap [fromUserID; toUserID]);
  match r with
  | inr _ => mret ("", "")
  | inl users =>
      from ← deref (users !! fromUserID);
      to ← deref (users !! toUserID);
      mret (UI_Nickname from, UI_Nickname to)
  end.

Definition FriendApplicationAddNotification (req : ApplyToAddFriendReq) : M W () :=
  friend_notify (Apply_FromUserID req) (Apply_ToUserID req) FriendApplicationNotification
    (FriendApplicationTips (Apply_FromUserID req) (Apply_ToUserID req)).
Definition FriendApplicationAgreedNotification (req : RespondFriendApplyReq) : M W () :=
  friend_notify (Respond_ToUserID req) (Respond_FromUserID req) FriendApplicationApprovedNotification
    (FriendApplicationApprovedTips (Respond_FromUserID req) (Respond_ToUserID req) (Respond_HandleMsg req)).
Definition FriendApplicationRefusedNotification (req : RespondFriendApplyReq) : M W () :=
  friend_notify (Respond_ToUserID req) (Respond_FromUserID req) FriendApplicationRejectedNotification
    (FriendApplicationApprovedTips (Respond_FromUserID req) (Respond_ToUserID req) (Respond_HandleMsg req)).
Definition FriendAddedNotification (opID fromUserID toUserID : string) : M W () :=
  users ← on_friend_env (GetUsersInfo [opID]);
  user ← deref (head users);
  friends ← FindFriendsWithError fromUserID [toUserID];
  friend ← deref (head friends);
  info ← FriendDB2Pb friend;
  friend_notify fromUserID toUserID Constants.FriendAddedNotification (FriendAddedTips info (public_user user)).
Definition FriendDeletedNotification (req : DeleteFriendReq) : M W () :=
  friend_notify (DelF_OwnerUserID req) (DelF_FriendUserID req) Constants.FriendDeletedNotification
    (FriendDeletedTips (DelF_OwnerUserID req) (DelF_FriendUserID req)).
Definition FriendRemarkSetNotification (fromUserID toUserID : string) : M W () :=
  friend_notify fromUserID toUserID Constants.FriendRemarkSetNotification (FriendInfoChangedTips fromUserID toUserID).
Definition BlackAddedNotification (req : AddBlackReq) : M W () :=
  friend_notify (AddB_OwnerUserID req) (AddB_BlackUserID req) Constants.BlackAddedNotification
    (BlackAddedTips (AddB_OwnerUserID req) (AddB_BlackUserID req)).
Definition BlackDeletedNotification (req : RemoveBlackReq) : M W () :=
  friend_notify (RemB_OwnerUserID req) (RemB_BlackUserID req) Constants.BlackDeletedNotification
    (BlackDeletedTips (RemB_OwnerUserID req) (RemB_BlackUserID req)).

Definition unheard {A} (m : M W A) : M W () := _ ← try m; mret ().

(** ** callback.go *)

Definition CallbackBeforeAddFriend (req : ApplyToAddFriendReq) : M W () :=
  if negb (BeforeAddFriend_Enable config) then mret ()
  else
    let cbReq := mkBeforeAddFriend CallbackBeforeAddFriendCommand (Apply_FromUserID req) (Apply_ToUserID req)
      (Apply_ReqMsg req) operationID in
    r ← try (on_friend_env (λ h, (of_sum (webhook_add_friend cbReq h), h ++ [FriendCallbackPost cbReq])));
    match r with
    | inl _ => mret ()
    | inr err => guard (negb (bool_decide (err = Bare ErrCallbackContinue))) err
    end.

(** ** friend.go: changes *)

Definition ApplyToAddFriend (req : ApplyToAddFriendReq) : M W () :=
  let from := Apply_FromUserID req in let to := Apply_ToUserID req in
  _ ← lift (CheckAccessV3 managers opUserID from);
  _ ← guard (bool_decide (to = from)) (Wrap ErrCanNotAddYourself "");
  _ ← CallbackBeforeAddFriend req;
  _ ← on_friend_env (GetUsersInfoMap [to; from]);
  '(in1, in2) ← friendDatabase_CheckIn from to;
  _ ← guard (in1 && in2) (Wrap ErrRelationshipAlready "");
  _ ← AddFriendRequest now from to (Apply_ReqMsg req) (Apply_Ex req);
  unheard (FriendApplicationAddNotification req).

Definition ImportFriends (req : ImportFriendReq) : M W () :=
  let owner := Import_OwnerUserID req in let friends := Import_FriendUserIDs req in
  _ ← lift (CheckAdmin managers opUserID);
  _ ← on_friend_env (GetUsersInfo (owner :: friends));
  _ ← guard (Contain owner friends) (Wrap ErrCanNotAddYourself "");
  _ ← guard (Duplicate friends) (Wrap ErrArgs "friend userID repeated");
  _ ← BecomeFriends now operationID owner friends BecomeFriendByImport;
  for_each friends (λ userID,
    unheard (FriendApplicationAgreedNotification (mkRespondReq owner userID FriendResponseAgree ""))).

Definition respond_row (req : RespondFriendApplyReq) : FriendRequestModel :=
  mkFriendRequestModel (Respond_FromUserID req) (Respond_ToUserID req) (Respond_HandleResult req) "" zero_time ""
    (Respond_HandleMsg req) zero_time "".

Definition RespondFriendApply (req : RespondFriendApplyReq) : M W () :=
  _ ← lift (CheckAccessV3 managers opUserID (Respond_ToUserID req));
  if Respond_HandleResult req =? FriendResponseAgree then
    _ ← AgreeFriendRequest now opUserID (respond_row req);
    unheard (FriendApplicationAgreedNotification req)
  else if Respond_HandleResult req =? FriendResponseRefuse then
    _ ← RefuseFriendRequest now (respond_row req);
    unheard (FriendApplicationRefusedNotification req)
  else fail (Wrap ErrArgs "req.HandleResult != -1/1").

Definition DeleteFriend (req : DeleteFriendReq) : M W () :=
  _ ← Access (DelF_OwnerUserID req);
  _ ← FindFriendsWithError (DelF_OwnerUserID req) [DelF_FriendUserID req];
  _ ← friendDatabase_Delete (DelF_OwnerUserID req) [DelF_FriendUserID req];
  unheard (FriendDeletedNotification req).

Definition SetFriendRemark (req : SetFriendRemarkReq) : M W () :=
  _ ← Access (Remark_OwnerUserID req);
  _ ← FindFriendsWithError (Remark_OwnerUserID req) [Remark_FriendUserID req];
  _ ← UpdateRemark (Remark_OwnerUserID req) (Remark_FriendUserID req) (Remark_Remark req);
  unheard (FriendRemarkSetNotification (Remark_OwnerUserID req) (Remark_FriendUserID req)).

(** ** black.go: changes *)

Definition RemoveBlack (req : RemoveBlackReq) : M W () :=
  _ ← Access (RemB_OwnerUserID req);
  _ ← blackDatabase_Delete [mkBlackModel (RemB_OwnerUserID req) (RemB_BlackUserID req) zero_time 0 "" ""];
  unheard (BlackDeletedNotification req).

Definition AddBlack (req : AddBlackReq) : M W () :=
  _ ← lift (CheckAccessV3 managers opUserID (AddB_OwnerUserID req));
  _ ← on_friend_env (GetUsersInfo [AddB_OwnerUserID req; AddB_BlackUserID req]);
  _ ← blackDatabase_Create [mkBlackModel (AddB_OwnerUserID req) (AddB_BlackUserID req) now 0 opUserID ""];
  unheard (BlackAddedNotification req).

(** ** Queries *)

Definition GetDesignatedFriends (OwnerUserID : string) (FriendUserIDs : list string) : M W (list FriendInfo) :=
  _ ← guard (Duplicate FriendUserIDs) (Wrap ErrArgs "friend userID repeated");
  friends ← FindFriendsWithError OwnerUserID FriendUserIDs;
  FriendsDB2Pb friends.
Definition GetDesignatedFriendsApply (FromUserID ToUserID : string) : M W (list FriendRequest) :=
  friendRequests ← FindBothFriendRequests FromUserID ToUserID;
  FriendRequestDB2Pb friendRequests.
(** [int32(total)]; a nil pagination is dereferenced. *)
Definition GetPaginationFriendsApplyTo (UserID : string) (pagination : option RequestPagination) :
    M W (list FriendRequest * Z) :=
  _ ← Access UserID;
  p ← deref pagination;
  '(friendRequests, total) ← PageFriendRequestToMe UserID (PageNumber p) (ShowNumber p);
  rs ← FriendRequestDB2Pb friendRequests;
  mret (rs, wrap32 total).
Definition GetPaginationFriendsApplyFrom (UserID : string) (pagination : option RequestPagination) :
    M W (list FriendRequest * Z) :=
  _ ← Access UserID;
  p ← deref pagination;
  '(friendRequests, total) ← PageFriendRequestFromMe UserID (PageNumber p) (ShowNumber p);
  rs ← FriendRequestDB2Pb friendRequests;
  mret (rs, wrap32 total).
Definition friendServer_IsFriend (UserID1 UserID2 : string) : M W (bool * bool) :=
  friendDatabase_CheckIn UserID1 UserID2.
Definition GetPaginationFriends (UserID : string) (pagination : option RequestPagination) :
    M W (list FriendInfo * Z) :=
  _ ← Access UserID;
  p ← deref pagination;
  '(friends, total) ← PageOwnerFriends UserID (PageNumber p) (ShowNumber p);
  fs ← FriendsDB2Pb friends;
  mret (fs, wrap32 total).
Definition friendServer_GetFriendIDs (UserID : string) : M W (list string) :=
  _ ← Access UserID;
  friendDatabase_FindFriendUserIDs UserID.

(** The times are in milliseconds here. *)
Definition specified_friend (f : FriendModel) : FriendInfo :=
  mkFriendInfo (Friend_OwnerUserID f) (Friend_Remark f) (Friend_CreateTime f) None (Friend_AddSource f)
    (Friend_OperatorUserID f) (Friend_Ex f).
Definition specified_black (b : BlackModel) : BlackInfo :=
  mkBlackInfo (Black_OwnerUserID b) (Black_CreateTime b) None (Black_AddSource b) (Black_OperatorUserID b) (Black_Ex b).

Definition GetSpecifiedFriendsInfo (OwnerUserID : string) (UserIDList : list string) :
    M W (list GetSpecifiedFriendsInfoInfo) :=
  _ ← guard (len UserIDList =? 0) (Wrap ErrArgs "userIDList is empty");
  _ ← guard (Duplicate UserIDList) (Wrap ErrArgs "userIDList repeated");
  userMap ← on_friend_env (GetUsersInfoMap UserIDList);
  friends ← FindFriendsWithError OwnerUserID UserIDList;
  blacks ← FindBlackInfos OwnerUserID UserIDList;
  let friendMap := SliceToMap Friend_FriendUserID friends in
  let blackMap := SliceToMap Black_BlockUserID blacks in
  mret (omap (λ userID, user ← userMap !! userID;
    Some (mkSpecified user (specified_friend <$> friendMap !! userID) (specified_black <$> blackMap !! userID)))
    UserIDList).

Definition GetPaginationBlacks (UserID : string) (pagination : option RequestPagination) :
    M W (list BlackInfo * Z) :=
  _ ← Access UserID;
  let '(pageNumber, showNumber) := match pagination with
    | Some p => (PageNumber p, ShowNumber p) | None => (0, 0) end in
  '(blacks, total) ← FindOwnerBlacks UserID pageNumber showNumber;
  bs ← BlackDB2Pb blacks;
  mret (bs, wrap32 total).
Definition friendServer_IsBlack (UserID1 UserID2 : string) : M W (bool * bool) :=
  blackDatabase_CheckIn UserID1 UserID2.
End FriendServer.
