(* ===== verification/FriendSpec.v ===== *)
(** * What the friend service promises

    The state of the service is the rows of its three tables; a call takes it
    from one state to another by a step of [friend_step], which says who may make
    the call and exactly which rows change.  The step knows neither the cache, nor
    the order of the statements, nor transactions: FriendRefinement.v shows that the
    handlers implement it.  The invariants of the rows are proved here, of the
    steps. *)

From S2P Require Import Prelude.
From S2P Require Import Constants.
From S2P Require Import FriendTypes.
From S2P Require Import Sql.
From S2P Require Import FriendStore.
From S2P Require Import FriendDatabase.
From S2P Require Import FriendServer.
From stdpp Require Import options.
#[local] Set Default Proof Using "Type*".

#[local] Open Scope Z_scope.

Abbreviation FriendMap := (gmap (string * string) FriendModel).
Abbreviation RequestMap := (gmap (string * string) FriendRequestModel).

Inductive friend_call :=
  | Call_ApplyToAddFriend (req : ApplyToAddFriendReq)
  | Call_ImportFriends (req : ImportFriendReq)
  | Call_RespondFriendApply (req : RespondFriendApplyReq)
  | Call_DeleteFriend (req : DeleteFriendReq)
  | Call_SetFriendRemark (req : SetFriendRemarkReq)
  | Call_AddBlack (req : AddBlackReq)
  | Call_RemoveBlack (req : RemoveBlackReq).

(** Who calls, whether he is a manager, when, in which operation. *)
Record friend_caller := mkFriendCaller {
  fc_user : string; fc_manager : bool; fc_now : Z; fc_operation : string }.

Definition acts_for (c : friend_caller) (u : string) : Prop := fc_manager c = true ∨ fc_user c = u.

(** Each has the other for a friend. *)
Definition mutual (fs : FriendMap) (a b : string) : Prop := is_Some (fs !! (a, b)) ∧ is_Some (fs !! (b, a)).

Definition pending_request (qs : RequestMap) (from to : string) : Prop :=
  ∃ r, qs !! (from, to) = Some r ∧ FReq_HandleResult r = 0.

(** ** Changes of rows *)

(** A request, new or renewed. *)
Definition requested (now : Z) (req : ApplyToAddFriendReq) (qs : RequestMap) : RequestMap :=
  let from := Apply_FromUserID req in let to := Apply_ToUserID req in
  match qs !! (from, to) with
  | Some r => <[(from, to) := set_request_columns (renewed now (Apply_ReqMsg req) (Apply_Ex req)) r]> qs
  | None => <[(from, to) := auto_request now (new_request now from to (Apply_ReqMsg req) (Apply_Ex req))]> qs
  end.

(** A request answered, *)
Definition answered (now : Z) (result : Z) (handler : string) (req : RespondFriendApplyReq) (qs : RequestMap) : RequestMap :=
  alter (update_request (set_handled now result handler (respond_row req)))
    (Respond_FromUserID req, Respond_ToUserID req) qs.
(** and the pending request in the other direction, if any. *)
Definition answered_back (now : Z) (handler : string) (req : RespondFriendApplyReq) (qs : RequestMap) : RequestMap :=
  match qs !! (Respond_ToUserID req, Respond_FromUserID req) with
  | Some r => if FReq_HandleResult r =? 0
      then <[(Respond_ToUserID req, Respond_FromUserID req) :=
               update_request (set_handled now FriendResponseAgree handler r) r]> qs
      else qs
  | None => qs
  end.

(** A friendship in one direction, unless it is there. *)
Definition add_friend (now : Z) (owner friend from : string) (fs : FriendMap) : FriendMap :=
  match fs !! (owner, friend) with
  | Some _ => fs
  | None => <[(owner, friend) := auto_friend now (applied owner friend from)]> fs
  end.
Definition befriended (now : Z) (from to : string) (fs : FriendMap) : FriendMap :=
  add_friend now to from from (add_friend now from to from fs).

(** Friendships in both directions with all of a list. *)
Definition import_row (c : friend_caller) (a b : string) : FriendModel :=
  auto_friend (fc_now c) (imported (fc_operation c) a b BecomeFriendByImport).
Definition imported_pairs (owner : string) (us : list string) : list (string * string) :=
  ((λ u, (owner, u)) <$> us) ++ ((λ u, (u, owner)) <$> us).
Definition imports (c : friend_caller) (owner : string) (us : list string) (fs fs' : FriendMap) : Prop :=
  (∀ k, k ∈ imported_pairs owner us → fs !! k = None ∧ fs' !! k = Some (import_row c k.1 k.2)) ∧
  (∀ k, k ∉ imported_pairs owner us → fs' !! k = fs !! k).

(** An empty remark is written to all the friends. *)
Definition remarked (req : SetFriendRemarkReq) (fs : FriendMap) : FriendMap :=
  if bool_decide (Remark_Remark req = "")
  then map_imap (λ k f, Some (if bool_decide (k.1 = Remark_OwnerUserID req) then set_Remark "" f else f)) fs
  else alter (set_Remark (Remark_Remark req)) (Remark_OwnerUserID req, Remark_FriendUserID req) fs.

(** ** The calls *)

Inductive friend_step (c : friend_caller) (rs : FriendRows) : friend_call → FriendRows → Prop :=
  | step_apply req :
      acts_for c (Apply_FromUserID req) → Apply_FromUserID req ≠ Apply_ToUserID req →
      ¬ mutual (fr_friends rs) (Apply_FromUserID req) (Apply_ToUserID req) →
      friend_step c rs (Call_ApplyToAddFriend req)
        (set_friend_requests (requested (fc_now c) req (fr_requests rs)) rs)
  | step_agree req :
      acts_for c (Respond_ToUserID req) → Respond_HandleResult req = FriendResponseAgree →
      pending_request (fr_requests rs) (Respond_FromUserID req) (Respond_ToUserID req) →
      friend_step c rs (Call_RespondFriendApply req)
        (mkFriendRows (befriended (fc_now c) (Respond_FromUserID req) (Respond_ToUserID req) (fr_friends rs))
           (answered_back (fc_now c) (fc_user c) req
              (answered (fc_now c) FriendResponseAgree (fc_user c) req (fr_requests rs)))
           (fr_blacks rs))
  | step_refuse req :
      acts_for c (Respond_ToUserID req) → Respond_HandleResult req = FriendResponseRefuse →
      pending_request (fr_requests rs) (Respond_FromUserID req) (Respond_ToUserID req) →
      friend_step c rs (Call_RespondFriendApply req)
        (set_friend_requests (answered (fc_now c) FriendResponseRefuse "" req (fr_requests rs)) rs)
  | step_import req fs' :
      fc_manager c = true → Import_OwnerUserID req ∉ Import_FriendUserIDs req → NoDup (Import_FriendUserIDs req) →
      imports c (Import_OwnerUserID req) (Import_FriendUserIDs req) (fr_friends rs) fs' →
      friend_step c rs (Call_ImportFriends req) (set_friends fs' rs)
  | step_delete req :
      acts_for c (DelF_OwnerUserID req) → is_Some (fr_friends rs !! (DelF_OwnerUserID req, DelF_FriendUserID req)) →
      friend_step c rs (Call_DeleteFriend req)
        (set_friends (delete (DelF_OwnerUserID req, DelF_FriendUserID req) (fr_friends rs)) rs)
  | step_remark req :
      acts_for c (Remark_OwnerUserID req) →
      is_Some (fr_friends rs !! (Remark_OwnerUserID req, Remark_FriendUserID req)) →
      friend_step c rs (Call_SetFriendRemark req) (set_friends (remarked req (fr_friends rs)) rs)
  | step_add_black req :
      acts_for c (AddB_OwnerUserID req) → fr_blacks rs !! (AddB_OwnerUserID req, AddB_BlackUserID req) = None →
      friend_step c rs (Call_AddBlack req)
        (set_blacks (<[(AddB_OwnerUserID req, AddB_BlackUserID req) :=
           mkBlackModel (AddB_OwnerUserID req) (AddB_BlackUserID req) (fc_now c) 0 (fc_user c) ""]> (fr_blacks rs)) rs)
  | step_remove_black req :
      acts_for c (RemB_OwnerUserID req) →
      friend_step c rs (Call_RemoveBlack req)
        (set_blacks (delete (RemB_OwnerUserID req, RemB_BlackUserID req) (fr_blacks rs)) rs).

Lemma step_remark_inv c rs req rs' : friend_step c rs (Call_SetFriendRemark req) rs' →
  rs' = set_friends (remarked req (fr_friends rs)) rs.
Proof. by inversion 1. Qed.
Lemma step_add_black_inv c rs req rs' : friend_step c rs (Call_AddBlack req) rs' →
  is_Some (fr_blacks rs' !! (AddB_OwnerUserID req, AddB_BlackUserID req)).
Proof. inversion 1; subst; cbn. by rewrite lookup_insert_eq. Qed.

(** Only its owner, or a manager, takes a user off a blacklist. *)
Lemma step_unblocked c rs call rs' a b : friend_step c rs call rs' →
  is_Some (fr_blacks rs !! (a, b)) → is_Some (fr_blacks rs' !! (a, b)) ∨
  ∃ req, call = Call_RemoveBlack req ∧ acts_for c a ∧ a = RemB_OwnerUserID req ∧ b = RemB_BlackUserID req.
Proof.
  intros Hs Hy. destruct Hs; cbn; auto.
  - left. rewrite lookup_insert. by case_decide.
  - destruct (decide ((a, b) = (RemB_OwnerUserID req, RemB_BlackUserID req))) as [[= -> ->]|Hne]; [right; by exists req|].
    left. by rewrite lookup_delete_ne.
Qed.

(** ** Where friendships come from *)

Lemma add_friend_lookup now o u from fs k :
  add_friend now o u from fs !! k =
  if decide (k = (o, u)) then Some (default (auto_friend now (applied o u from)) (fs !! k)) else fs !! k.
Proof.
  unfold add_friend. destruct (fs !! (o, u)) eqn:E; case_decide as Hk; subst; simplify_map_eq; by rewrite ?E.
Qed.

Lemma befriended_lookup now from to fs k :
  is_Some (befriended now from to fs !! k) ↔ is_Some (fs !! k) ∨ k = (from, to) ∨ k = (to, from).
Proof.
  unfold befriended. rewrite !add_friend_lookup. repeat case_decide; subst; rewrite ?is_Some_alt; naive_solver.
Qed.

Lemma remarked_dom req fs k : is_Some (remarked req fs !! k) ↔ is_Some (fs !! k).
Proof.
  unfold remarked. case_bool_decide.
  - rewrite map_lookup_imap. destruct (fs !! k); cbn; rewrite !is_Some_alt; done.
  - apply lookup_alter_is_Some.
Qed.

Lemma elem_of_imported_pairs owner us a b :
  (a, b) ∈ imported_pairs owner us ↔ (a = owner ∧ b ∈ us) ∨ (b = owner ∧ a ∈ us).
Proof. unfold imported_pairs. rewrite elem_of_app, !list_elem_of_fmap. naive_solver. Qed.

Lemma imports_dom c owner us fs fs' k : imports c owner us fs fs' →
  is_Some (fs' !! k) ↔ is_Some (fs !! k) ∨ k ∈ imported_pairs owner us.
Proof.
  intros [Hin Hout]. destruct (decide (k ∈ imported_pairs owner us)) as [Hk|Hk].
  - destruct (Hin k Hk) as [_ ->]. naive_solver.
  - rewrite (Hout k Hk). naive_solver.
Qed.

(** A new row of the friendships: an import, or the answer to a request. *)
Lemma step_new_friend c rs call rs' a b : friend_step c rs call rs' →
  fr_friends rs !! (a, b) = None → is_Some (fr_friends rs' !! (a, b)) →
  (∃ req, call = Call_ImportFriends req ∧ fc_manager c = true ∧
     (a, b) ∈ imported_pairs (Import_OwnerUserID req) (Import_FriendUserIDs req)) ∨
  (∃ req, call = Call_RespondFriendApply req ∧ Respond_HandleResult req = FriendResponseAgree ∧
     acts_for c (Respond_ToUserID req) ∧
     pending_request (fr_requests rs) (Respond_FromUserID req) (Respond_ToUserID req) ∧
     ((a, b) = (Respond_FromUserID req, Respond_ToUserID req) ∨
      (a, b) = (Respond_ToUserID req, Respond_FromUserID req))).
Proof.
  intros Hs Hn Hy. assert (¬ is_Some (fr_friends rs !! (a, b))) as Hns by (rewrite Hn; by intros []).
  destruct Hs; cbn in Hy; try done.
  - apply befriended_lookup in Hy. right. exists req. naive_solver.
  - apply (imports_dom _ _ _ _ _ _ H2) in Hy. left. exists req. naive_solver.
  - apply lookup_delete_is_Some in Hy. naive_solver.
  - by apply remarked_dom in Hy.
Qed.

(** A row of the friendships that goes: its owner, or a manager, deleted it. *)
Lemma step_lost_friend c rs call rs' a b : friend_step c rs call rs' →
  is_Some (fr_friends rs !! (a, b)) → fr_friends rs' !! (a, b) = None →
  ∃ req, call = Call_DeleteFriend req ∧ acts_for c a ∧ a = DelF_OwnerUserID req ∧ b = DelF_FriendUserID req.
Proof.
  intros Hs Hy Hn. assert (¬ is_Some (fr_friends rs' !! (a, b))) as Hns by (rewrite Hn; by intros []).
  destruct Hs; cbn in *; try done.
  - destruct Hns. apply befriended_lookup. by left.
  - destruct Hns. apply (imports_dom _ _ _ _ _ _ H2). by left.
  - exists req. destruct (decide ((a, b) = (DelF_OwnerUserID req, DelF_FriendUserID req))) as [[= -> ->]|Hne]; [done|].
    rewrite lookup_delete_ne in Hns by done. done.
  - destruct Hns. by apply remarked_dom.
Qed.

(** A new request: its sender asked, or a manager for him. *)
Lemma answered_dom now result handler req qs k : is_Some (answered now result handler req qs !! k) ↔ is_Some (qs !! k).
Proof. apply lookup_alter_is_Some. Qed.
Lemma answered_back_dom now handler req qs k : is_Some (answered_back now handler req qs !! k) ↔ is_Some (qs !! k).
Proof.
  unfold answered_back. destruct (qs !! (_, _)) as [r|] eqn:Hr; [|done]. destruct (_ =? 0); [|done].
  rewrite lookup_insert. case_decide; [|done]. subst. by rewrite Hr.
Qed.
Lemma step_new_request c rs call rs' a b : friend_step c rs call rs' →
  is_Some (fr_requests rs' !! (a, b)) → is_Some (fr_requests rs !! (a, b)) ∨
  ∃ req, call = Call_ApplyToAddFriend req ∧ acts_for c a ∧ a = Apply_FromUserID req ∧ b = Apply_ToUserID req.
Proof.
  intros Hs Hy. destruct Hs; cbn in Hy; auto.
  - unfold requested in Hy. destruct (decide ((a, b) = (Apply_FromUserID req, Apply_ToUserID req))) as [[= -> ->]|Hne]; [right; by exists req|].
    left. revert Hy. case_match; by rewrite lookup_insert_ne by done.
  - left. by apply answered_back_dom, answered_dom in Hy.
  - left. by apply answered_dom in Hy.
Qed.

(** ** Invariants *)

(** Nobody is his own friend or asks himself; requests have one of three
    results; rows stand under their keys. *)
Record friends_typed (rs : FriendRows) : Prop := {
  friends_irreflexive a : fr_friends rs !! (a, a) = None;
  requests_irreflexive a : fr_requests rs !! (a, a) = None;
  results_valid k r : fr_requests rs !! k = Some r → FReq_HandleResult r ∈ [0; FriendResponseAgree; FriendResponseRefuse];
  rows_keyed : keyed rs }.

Lemma valid_updated fr2 r : FReq_HandleResult r ∈ [0; FriendResponseAgree; FriendResponseRefuse] →
  FReq_HandleResult fr2 ∈ [0; FriendResponseAgree; FriendResponseRefuse] →
  FReq_HandleResult (update_request fr2 r) ∈ [0; FriendResponseAgree; FriendResponseRefuse].
Proof. intros Hr H2. cbn. unfold nonzero_int. by case_match. Qed.

Lemma set_handled_result now result handler r : FReq_HandleResult (set_handled now result handler r) = result.
Proof. by destruct r. Qed.

(** A map of requests with its part of the invariant. *)
Record requests_typed (qs : RequestMap) : Prop := {
  no_self a : qs !! (a, a) = None;
  valid_result k r : qs !! k = Some r → FReq_HandleResult r ∈ [0; FriendResponseAgree; FriendResponseRefuse];
  request_keyed k r : qs !! k = Some r → friend_request_key r = k }.

Lemma requests_typed_insert qs k r : requests_typed qs → k.1 ≠ k.2 → friend_request_key r = k →
  FReq_HandleResult r ∈ [0; FriendResponseAgree; FriendResponseRefuse] → requests_typed (<[k := r]> qs).
Proof.
  intros [Hs Hv Hk] Hne Hr Hval. split.
  - intros a. rewrite lookup_insert_ne; [done|]. intros ->. done.
  - intros k' r'. rewrite lookup_insert. case_decide; [intros [= <-]; by subst|apply Hv].
  - intros k' r'. rewrite lookup_insert. case_decide; [intros [= <-]; by subst|apply Hk].
Qed.

Lemma requests_typed_requested now req qs : requests_typed qs → Apply_FromUserID req ≠ Apply_ToUserID req →
  requests_typed (requested now req qs).
Proof.
  intros Ht Hne. unfold requested. destruct (qs !! _) as [r|] eqn:Hr; (apply requests_typed_insert; [done|done|..]).
  - rewrite friend_request_key_columns. by apply (request_keyed _ Ht).
  - destruct r. left.
  - done.
  - left.
Qed.

Lemma requests_typed_answered now result handler req qs : requests_typed qs →
  result ∈ [FriendResponseAgree; FriendResponseRefuse] → requests_typed (answered now result handler req qs).
Proof.
  intros [Hs Hv Hk] Hres. unfold answered. split.
  - intros a. rewrite lookup_alter_fmap. by rewrite Hs.
  - intros k r. rewrite lookup_alter_fmap, fmap_Some. intros (r' & Hr' & ->). case_decide; [|by eapply Hv].
    apply valid_updated; [by eapply Hv|]. rewrite set_handled_result. by right.
  - intros k r. rewrite lookup_alter_fmap, fmap_Some. intros (r' & Hr' & ->). apply Hk in Hr'. by case_decide.
Qed.

Lemma requests_typed_back now handler req qs : requests_typed qs → requests_typed (answered_back now handler req qs).
Proof.
  intros Ht. unfold answered_back. destruct (qs !! _) as [r|] eqn:Hr; [|done]. destruct (_ =? 0); [|done].
  apply requests_typed_insert; [done| | |].
  - cbn. intros Heq. rewrite Heq, (no_self _ Ht) in Hr. done.
  - rewrite friend_request_key_update. by apply (request_keyed _ Ht).
  - apply valid_updated; [by eapply (valid_result _ Ht)|]. rewrite set_handled_result. right. left.
Qed.

Lemma friends_typed_requests qs rs : friends_typed rs → requests_typed qs → friends_typed (set_friend_requests qs rs).
Proof. by intros [Hf _ _ [Hk1 _ Hk3]] [Hs Hv Hk]. Qed.
Lemma friends_typed_get rs : friends_typed rs → requests_typed (fr_requests rs).
Proof. intros [_ Hs Hv [_ Hk _]]. by split. Qed.

Lemma friends_typed_friends fs rs : friends_typed rs → (∀ a, fs !! (a, a) = None) →
  (∀ k f, fs !! k = Some f → friend_key f = k) → friends_typed (set_friends fs rs).
Proof. by intros [_ Hs Hv [_ Hk2 Hk3]] Hf Hk. Qed.

Lemma keyed_add_friend now o u from fs : (∀ k f, fs !! k = Some f → friend_key f = k) →
  ∀ k f, add_friend now o u from fs !! k = Some f → friend_key f = k.
Proof.
  intros Hk k f. rewrite add_friend_lookup. case_decide; [|apply Hk]. subst. intros [= <-].
  destruct (fs !! (o, u)) eqn:E; cbn; [by apply Hk|done].
Qed.

(** The invariant is kept by every call, whoever makes it. *)
Lemma step_friends_typed c rs call rs' : friends_typed rs → friend_step c rs call rs' → friends_typed rs'.
Proof.
  intros Ht Hs. pose proof (friends_typed_get _ Ht) as Hq. pose proof Ht as [Hirr _ _ [Hk1 _ Hk3]].
  destruct Hs.
  - by apply friends_typed_requests, requests_typed_requested.
  - assert (Respond_FromUserID req ≠ Respond_ToUserID req) as Hne.
    { intros Heq. destruct H1 as (r & Hr & _). by rewrite Heq, (no_self _ Hq) in Hr. }
    apply (friends_typed_requests _ (set_friends (befriended _ _ _ _) rs)).
    + apply friends_typed_friends; [done| |by repeat apply keyed_add_friend].
      intros a. apply eq_None_not_Some. rewrite befriended_lookup, Hirr. naive_solver.
    + apply requests_typed_back, requests_typed_answered; [done|left].
  - apply friends_typed_requests, requests_typed_answered; [done|done|right; left].
  - apply friends_typed_friends; [done|..].
    + intros a. apply eq_None_not_Some. rewrite (imports_dom _ _ _ _ _ _ H2), Hirr, elem_of_imported_pairs. naive_solver.
    + intros k f Hf. destruct H2 as [Hin Hout]. destruct (decide (k ∈ imported_pairs (Import_OwnerUserID req) (Import_FriendUserIDs req))) as [Hk|Hk].
      * destruct (Hin k Hk) as [_ Heq]. rewrite Hf in Heq. injection Heq as ->. by destruct k.
      * rewrite (Hout k Hk) in Hf. auto.
  - apply friends_typed_friends; [done|..].
    + intros a. apply lookup_delete_None. by right.
    + intros k f [_ Hf]%lookup_delete_Some. auto.
  - apply friends_typed_friends; [done|..].
    + intros a. apply eq_None_not_Some. rewrite remarked_dom, Hirr. by intros [].
    + intros k f. unfold remarked. case_bool_decide.
      * rewrite map_lookup_imap. destruct (fr_friends rs !! k) as [f'|] eqn:Hf; cbn; [|done]. intros [= <-].
        apply Hk1 in Hf. case_bool_decide; [by rewrite friend_key_remark|done].
      * rewrite lookup_alter_fmap, fmap_Some. intros (f' & Hf & ->). apply Hk1 in Hf.
        case_decide; [by rewrite friend_key_remark|done].
  - destruct Ht as [? ? ? []]. split; try done. split; try done. intros k b. cbn. rewrite lookup_insert.
    case_decide; [intros [= <-]; by subst|auto].
  - destruct Ht as [? ? ? []]. split; try done. split; try done. intros k b. cbn. intros [_ ?]%lookup_delete_Some. auto.
Qed.
