(* ===== verification/FriendProofs.v ===== *)
(** * The friend service implements its specification

    The cache of ids agrees with the tables after every call, each statement
    changes the rows as it should, and each handler makes a step of [friend_step]
    or leaves the rows as they were. *)

From S2P Require Import Prelude.
From S2P Require Import Constants.
From S2P Require Import MsgTypes.
From S2P Require Import Tools.
From S2P Require Import Notification.
From S2P Require Import RpcClient.
From S2P Require Import Auth.
From S2P Require Import GroupTypes.
From S2P Require Import Sql.
From S2P Require Import RowCache.
From S2P Require Import RowCoherence.
From S2P Require Import GroupNotification.
From S2P Require Import FriendTypes.
From S2P Require Import FriendStore.
From S2P Require Import FriendDatabase.
From S2P Require Import FriendServer.
From S2P Require Import FriendSpec.
From stdpp Require Import options.
#[local] Set Default Proof Using "Type*".

#[local] Open Scope Z_scope.

(** ** What the cache may hold *)

Lemma friend_keys_inj : Inj (=) (=) getFriendIDsKey.
Proof. intros a b E. by apply (inj (String.append friendIDsKey)). Qed.
Lemma black_keys_inj : Inj (=) (=) getBlackIDsKey.
Proof. intros a b E. by apply (inj (String.append blackIDsKey)). Qed.
#[export] Existing Instances friend_keys_inj black_keys_inj.

Section FriendCoherence.
Context `{FriendEngineLaws} `{!TagSucceeds FC} {E : Type}.
Abbreviation W := (FriendWorld E).
Implicit Types (t : FriendTables) (w : W) (rs : FriendRows).

Abbreviation rows_of w := (friend_rows (fw_tables w)).

Record ids_entry rs (k s : string) : Prop := {
  ids_nonempty : s ≠ "";
  ids_friends u : k = getFriendIDsKey u → ∃ l, Unmarshal s = inl l ∧ is_list_of (seconds (fr_friends rs) u) l;
  ids_blacks u : k = getBlackIDsKey u → ∃ l, Unmarshal s = inl l ∧ is_list_of (seconds (fr_blacks rs) u) l }.

Definition friend_entry t k s : Prop := ids_entry (friend_rows t) k s.
Lemma friend_entry_nonempty t k s : friend_entry t k s → s ≠ "".
Proof. apply ids_nonempty. Qed.

(** The cache agrees with the tables. *)
Definition Agrees w : Prop := agrees friend_entry w.
Abbreviation glimpses := (peeks (W:=W) friend_entry).

(** The keys whose entries a change of the rows makes stale. *)
Definition stale_ids (ks : list string) rs rs' : Prop :=
  (∀ u, getFriendIDsKey u ∈ ks ∨ seconds (fr_friends rs') u = seconds (fr_friends rs) u) ∧
  (∀ u, getBlackIDsKey u ∈ ks ∨ seconds (fr_blacks rs') u = seconds (fr_blacks rs) u).

Lemma stale_ids_entry ks rs rs' k s : stale_ids ks rs rs' → k ∉ ks → ids_entry rs k s → ids_entry rs' k s.
Proof.
  intros [Hf Hb] Hk [He Hef Heb]. split; [done|..].
  - intros u ->. destruct (Hf u) as [?| ->]; [done|auto].
  - intros u ->. destruct (Hb u) as [?| ->]; [done|auto].
Qed.

Lemma stale_ids_refl ks rs : stale_ids ks rs rs.
Proof. split; auto. Qed.

Lemma evicted_Agrees ks w w' t : Agrees w → evicted ks w w' → stale_ids ks (rows_of w) (friend_rows t) →
  Agrees (put_friend_tables t w').
Proof.
  intros Ha He Hst k s Hs. eapply (evicted_agrees friend_entry ks w w' t); [done|done| |exact Hs].
  intros k' s' Hk' Hok. by eapply stale_ids_entry.
Qed.
Lemma evicted_still ks w w' : Agrees w → evicted ks w w' → Agrees w' ∧ rows_of w' = rows_of w.
Proof.
  intros Ha He. pose proof (evicted_tables friend_entry _ _ _ He) as Ht. cbn in Ht.
  split; [|by rewrite Ht]. assert (w' = put_friend_tables (fw_tables w) w') as -> by (rewrite <-Ht; by destruct w').
  eapply evicted_Agrees; [done|done|apply stale_ids_refl].
Qed.
Lemma evicted_none w : evicted [] w w.
Proof. exists (fw_cache w). split; [by destruct w|]. split; [done|]. by intros k ?%elem_of_nil. Qed.

(** ** Reading *)

Lemma wp_on_friend_tables {A} (f : M FriendTables A) (Q : outcome A → W → Prop) w :
  wp f (λ r t, Q r (put_friend_tables t w)) (fw_tables w) → wp (on_friend_tables f) Q w.
Proof. apply wp_zoom. Qed.
Lemma put_get_friend_tables w : put_friend_tables (fw_tables w) w = w.
Proof. by destruct w. Qed.

(** A query changes nothing. *)
Lemma wp_friend_query {A} (f : FT → A + error) (Q : outcome A → FriendTables → Prop) t :
  (∀ a, f (t_friends t) = inl a → Q (Ok a) t) → (∀ e, Q (Err e) t) →
  wp (wrap_error (friends_stmt (stmt (query f)))) Q t.
Proof.
  intros Ha He. apply wp_friends_stmt, wp_query; destruct t; cbn in *; auto.
Qed.
Lemma wp_request_query {A} (f : QT → A + error) (Q : outcome A → FriendTables → Prop) t :
  (∀ a, f (t_friend_requests t) = inl a → Q (Ok a) t) →
  (∀ e, f (t_friend_requests t) = inr e → Q (Err (WrapErr "" e)) t) →
  wp (wrap_error (friend_requests_stmt (stmt (query f)))) Q t.
Proof.
  intros Ha He. apply wp_friend_requests_stmt, wp_query; destruct t; cbn in *; auto.
Qed.
Lemma wp_black_query {A} (f : BT → A + error) (Q : outcome A → FriendTables → Prop) t :
  (∀ a, f (t_blacks t) = inl a → Q (Ok a) t) → (∀ e, Q (Err e) t) →
  wp (wrap_error (blacks_stmt (stmt (query f)))) Q t.
Proof.
  intros Ha He. apply wp_blacks_stmt, wp_query; destruct t; cbn in *; auto.
Qed.

Lemma owned_key o f : owned o f = true ↔ (friend_key f).1 = o.
Proof. unfold owned. by rewrite bool_decide_eq_true. Qed.
Lemma black_owned_key o b : black_owned o b = true ↔ (black_key b).1 = o.
Proof. unfold black_owned. by rewrite bool_decide_eq_true. Qed.

Lemma wp_wrap_map {S A B} (m : M S A) (f : A → B) (Q : outcome B → S → Prop) s :
  wp (wrap_error m) (λ r s', match r with
    | Ok a => Q (Ok (f a)) s' | Err e => Q (Err e) s' | Panic => Q Panic s' | OutOfFuel => Q OutOfFuel s' end) s →
  wp (wrap_error (a ← m; mret (f a))) Q s.
Proof. rewrite !wp_eq. unfold wrap_error, try, mbind, M_bind. by destruct (m s) as [[] ?]. Qed.

Lemma wp_FindFriendUserIDs u (Q : outcome (list string) → FriendTables → Prop) t :
  (∀ l, is_list_of (seconds (rows (t_friends t)) u) l → Q (Ok l) t) → (∀ e, Q (Err e) t) →
  wp (FindFriendUserIDs u) Q t.
Proof.
  intros Hl He. apply wp_wrap_map, wp_friend_query; [|auto]. intros fs Hfs. apply Hl.
  replace (Friend_FriendUserID <$> fs) with ((λ r, (table_key (T:=FT) r).2) <$> fs) by by rewrite friends_key.
  eapply find_seconds; [|exact Hfs]. intros r. rewrite friends_key. apply owned_key.
Qed.
Lemma wp_FindBlackUserIDs u (Q : outcome (list string) → FriendTables → Prop) t :
  (∀ l, is_list_of (seconds (rows (t_blacks t)) u) l → Q (Ok l) t) → (∀ e, Q (Err e) t) →
  wp (FindBlackUserIDs u) Q t.
Proof.
  intros Hl He. apply wp_wrap_map, wp_black_query; [|auto]. intros bs Hbs. apply Hl.
  replace (Black_BlockUserID <$> bs) with ((λ r, (table_key (T:=BT) r).2) <$> bs) by by rewrite blacks_key.
  eapply find_seconds; [|exact Hbs]. intros r. rewrite blacks_key. apply black_owned_key.
Qed.

(** A cached list of ids is that of the tables. *)
Definition ids_read w (s : gset string) (r : outcome (list string)) w' : Prop :=
  glimpses w w' ∧ match r with Ok l => is_list_of s l | Err _ => True | _ => False end.

Lemma wp_GetFriendIDs u w : Agrees w → wp (GetFriendIDs u) (ids_read w (seconds (fr_friends (rows_of w)) u)) w.
Proof.
  intros Ha. unfold GetFriendIDs, friend_getCache, ids_read.
  refine (wp_cached (W:=W) friend_entry friend_entry_nonempty (getFriendIDsKey u) (on_friend_tables (FindFriendUserIDs u))
    (λ t l, is_list_of (seconds (fr_friends (friend_rows t)) u) l) (λ _ _, True) w _ _ _ _ _); try done.
  - intros t l s Hl Hm Hne. split; [done|..].
    + intros u' <-%(inj getFriendIDsKey). exists l. split; [by apply Unmarshal_Marshal|done].
    + by intros u' [=].
  - intros t s He. by apply (ids_friends _ _ _ He).
  - intros w'. apply wp_on_friend_tables, wp_FindFriendUserIDs; intros; rewrite put_get_friend_tables; done.
Qed.
Lemma wp_GetBlackIDs u w : Agrees w → wp (GetBlackIDs u) (ids_read w (seconds (fr_blacks (rows_of w)) u)) w.
Proof.
  intros Ha. unfold GetBlackIDs, friend_getCache, ids_read.
  refine (wp_cached (W:=W) friend_entry friend_entry_nonempty (getBlackIDsKey u) (on_friend_tables (FindBlackUserIDs u))
    (λ t l, is_list_of (seconds (fr_blacks (friend_rows t)) u) l) (λ _ _, True) w _ _ _ _ _); try done.
  - intros t l s Hl Hm Hne. split; [done|..].
    + by intros u' [=].
    + intros u' <-%(inj getBlackIDsKey). exists l. split; [by apply Unmarshal_Marshal|done].
  - intros t s He. by apply (ids_blacks _ _ _ He).
  - intros w'. apply wp_on_friend_tables, wp_FindBlackUserIDs; intros; rewrite put_get_friend_tables; done.
Qed.

Lemma glimpses_Agrees w w' : glimpses w w' → Agrees w → Agrees w' ∧ rows_of w' = rows_of w.
Proof. intros Hw Ha. pose proof (peeks_tables friend_entry _ _ Hw) as Ht. cbn in Ht. rewrite Ht. split; [by apply Hw|done]. Qed.

Context `{ToolsLaws}.

(** Whether each has the other, as the tables say. *)
Definition both_ways {R} (m : gmap (string * string) R) (a b : string) : bool * bool :=
  (bool_decide (is_Some (m !! (a, b))), bool_decide (is_Some (m !! (b, a)))).

Lemma wp_CheckIn a b w : Agrees w → wp (friendDatabase_CheckIn a b) (λ r w', glimpses w w' ∧ match r with
  | Ok p => p = both_ways (fr_friends (rows_of w)) a b | Err _ => True | _ => False end) w.
Proof.
  intros Ha. unfold friendDatabase_CheckIn. apply wp_bind. eapply wp_mono; [|by apply wp_GetFriendIDs].
  intros [l1|e| |] w1 [Hw1 Hl1]; try done. destruct (glimpses_Agrees _ _ Hw1 Ha) as [Ha1 Hr1].
  apply wp_bind. eapply wp_mono; [|by apply wp_GetFriendIDs]. rewrite Hr1.
  intros [l2|e| |] w2 [Hw2 Hl2]; try done; [|by split; [etrans|]]. apply wp_ret. split; [by etrans|].
  rewrite !Contain_spec. unfold both_ways. f_equal; apply bool_decide_ext.
  - by rewrite (is_list_of_elem _ _ _ Hl1), elem_of_seconds.
  - by rewrite (is_list_of_elem _ _ _ Hl2), elem_of_seconds.
Qed.
Lemma wp_black_CheckIn a b w : Agrees w → wp (blackDatabase_CheckIn a b) (λ r w', glimpses w w' ∧ match r with
  | Ok p => p = both_ways (fr_blacks (rows_of w)) a b | Err _ => True | _ => False end) w.
Proof.
  intros Ha. unfold blackDatabase_CheckIn. apply wp_bind. eapply wp_mono; [|by apply wp_GetBlackIDs].
  intros [l1|e| |] w1 [Hw1 Hl1]; try done. destruct (glimpses_Agrees _ _ Hw1 Ha) as [Ha1 Hr1].
  apply wp_bind. eapply wp_mono; [|by apply wp_GetBlackIDs]. rewrite Hr1.
  intros [l2|e| |] w2 [Hw2 Hl2]; try done; [|by split; [etrans|]]. apply wp_ret. split; [by etrans|].
  rewrite !Contain_spec. unfold both_ways. f_equal; apply bool_decide_ext.
  - by rewrite (is_list_of_elem _ _ _ Hl1), elem_of_seconds.
  - by rewrite (is_list_of_elem _ _ _ Hl2), elem_of_seconds.
Qed.
End FriendCoherence.

(** * The changes of the friend and blacklist databases

    What each change of FriendDatabase.v does to the rows, and that the keys it
    deletes are those that the change makes stale: a change that fails leaves the
    rows as they were.  Judgements about the rows ([stm], [in_tx], [looks],
    [refines]) with one rule for each way of composing. *)

Section FriendChanges.
Context `{FriendEngineLaws} `{!TagSucceeds FC} {E : Type}.
Abbreviation W := (FriendWorld E).
Abbreviation T := FriendTables.
Implicit Types (t : T) (w : W) (rs : FriendRows).

Abbreviation rows_of w := (friend_rows (fw_tables w)).

(** ** Statements

    On tables with the rows [rs], a statement answers and changes the rows as
    [Q] says, or fails with an error of [X] and changes nothing. *)
Definition stm {A} rs (m : M T A) (Q : A → FriendRows → Prop) (X : error → Prop) : Prop :=
  ∀ t, friend_rows t = rs → wp m (λ r t', match r with
    | Ok a => Q a (friend_rows t') | Err e => X e ∧ friend_rows t' = rs | _ => False end) t.

Definition any_error : error → Prop := λ _, True.

Lemma stm_ret {A} rs (a : A) (Q : A → FriendRows → Prop) X : Q a rs → stm rs (mret a) Q X.
Proof. intros HQ t <-. by apply wp_ret. Qed.
Lemma stm_guard rs b e (Q : () → FriendRows → Prop) X : (b = false → Q () rs) → X e → stm rs (guard b e) Q X.
Proof. intros HQ HX t <-. apply wp_guard; auto. Qed.
Lemma stm_mono {A} rs (m : M T A) (Q Q' : A → FriendRows → Prop) X : stm rs m Q X →
  (∀ a rs', Q a rs' → Q' a rs') → stm rs m Q' X.
Proof. intros Hm HQ t Ht. eapply wp_mono; [|by apply Hm]. intros []; auto. Qed.

Lemma stm_keyed {A} rs (m : M T A) (Q : A → FriendRows → Prop) X : (keyed rs → stm rs m Q X) → stm rs m Q X.
Proof. intros Hm t Ht. apply Hm; [|done]. rewrite <-Ht. apply friend_rows_keyed. Qed.
Lemma stm_map {A B} rs (m : M T A) (f : A → B) (Q : B → FriendRows → Prop) X :
  stm rs (wrap_error m) (λ a, Q (f a)) X → stm rs (wrap_error (a ← m; mret (f a))) Q X.
Proof. intros Hm t Ht. apply wp_wrap_map. eapply wp_mono; [|by apply Hm]. by intros []. Qed.
Lemma stm_friends {A} rs (m : M FT A) (Q : A → FriendRows → Prop) X :
  on_rows (fr_friends rs) m (λ a fs, Q a (set_friends fs rs)) (λ e, X (WrapErr "" e)) →
  stm rs (wrap_error (friends_stmt m)) Q X.
Proof.
  intros Hm t <-. apply wp_friends_stmt. eapply wp_mono; [|by apply Hm].
  intros [a|e| |] t' Hr; try done. destruct Hr as [? Hr]. split; [done|]. unfold friend_rows. cbn. by rewrite Hr.
Qed.
Lemma stm_requests {A} rs (m : M QT A) (Q : A → FriendRows → Prop) X :
  on_rows (fr_requests rs) m (λ a qs, Q a (set_friend_requests qs rs)) (λ e, X (WrapErr "" e)) →
  stm rs (wrap_error (friend_requests_stmt m)) Q X.
Proof.
  intros Hm t <-. apply wp_friend_requests_stmt. eapply wp_mono; [|by apply Hm].
  intros [a|e| |] t' Hr; try done. destruct Hr as [? Hr]. split; [done|]. unfold friend_rows. cbn. by rewrite Hr.
Qed.
Lemma stm_blacks {A} rs (m : M BT A) (Q : A → FriendRows → Prop) X :
  on_rows (fr_blacks rs) m (λ a bs, Q a (set_blacks bs rs)) (λ e, X (WrapErr "" e)) →
  stm rs (wrap_error (blacks_stmt m)) Q X.
Proof.
  intros Hm t <-. apply wp_blacks_stmt. eapply wp_mono; [|by apply Hm].
  intros [a|e| |] t' Hr; try done. destruct Hr as [? Hr]. split; [done|]. unfold friend_rows. cbn. by rewrite Hr.
Qed.

(** *** The statements of the service *)

Lemma friends_table_key (f : FriendModel) : table_key (T:=FT) f = friend_key f.
Proof. by rewrite friends_key. Qed.
Lemma requests_table_key (r : FriendRequestModel) : table_key (T:=QT) r = friend_request_key r.
Proof. by rewrite friend_requests_key. Qed.
Lemma blacks_table_key (b : BlackModel) : table_key (T:=BT) b = black_key b.
Proof. by rewrite blacks_key. Qed.

Lemma stm_FindFriends o us rs (Q : list FriendModel → FriendRows → Prop) :
  (∀ l, (∀ f, f ∈ l ↔ Friend_OwnerUserID f = o ∧ Friend_FriendUserID f ∈ us ∧ fr_friends rs !! friend_key f = Some f) →
     NoDup (friend_key <$> l) → Q l rs) → stm rs (FindFriends o us) Q any_error.
Proof.
  intros HQ. apply stm_friends, on_rows_Find; [|done]. intros l Hl Hn. rewrite friends_key in Hn.
  replace (set_friends _ rs) with rs by by destruct rs. apply HQ; [|done]. intros f. rewrite Hl, friends_table_key.
  unfold owned. rewrite andb_true_iff, !bool_decide_eq_true. naive_solver.
Qed.
Lemma stm_FindReversal u os rs (Q : list FriendModel → FriendRows → Prop) :
  (∀ l, (∀ f, f ∈ l ↔ Friend_FriendUserID f = u ∧ Friend_OwnerUserID f ∈ os ∧ fr_friends rs !! friend_key f = Some f) →
     NoDup (friend_key <$> l) → Q l rs) → stm rs (FindReversalFriends u os) Q any_error.
Proof.
  intros HQ. apply stm_friends, on_rows_Find; [|done]. intros l Hl Hn. rewrite friends_key in Hn.
  replace (set_friends _ rs) with rs by by destruct rs. apply HQ; [|done]. intros f. rewrite Hl, friends_table_key.
  unfold befriends. rewrite andb_true_iff, !bool_decide_eq_true. naive_solver.
Qed.
Lemma stm_FindUserState a b rs (Q : list FriendModel → FriendRows → Prop) :
  (∀ l, (∀ k, k ∈ friend_key <$> l ↔ (k = (a, b) ∨ k = (b, a)) ∧ is_Some (fr_friends rs !! k)) → Q l rs) →
  stm rs (FindUserState a b) Q any_error.
Proof.
  intros HQ. apply stm_keyed. intros Hkd. apply stm_friends, on_rows_Find; [|done]. intros l Hl _.
  replace (set_friends _ rs) with rs by by destruct rs. apply HQ. intros k. rewrite list_elem_of_fmap. split.
  - intros (f & -> & Hf%Hl). rewrite orb_true_iff, !has_friend_key, friends_table_key in Hf. naive_solver.
  - intros [Hk [f Hf]]. exists f. pose proof (friends_keyed _ Hkd _ _ Hf) as <-. split; [done|]. apply Hl.
    rewrite orb_true_iff, !has_friend_key, friends_table_key. done.
Qed.
Lemma stm_Friend_Create now l rs (Q : () → FriendRows → Prop) :
  (NoDup (friend_key <$> l) → (∀ f, f ∈ l → fr_friends rs !! friend_key f = None) → ∀ fs',
     (∀ f, f ∈ l → fs' !! friend_key f = Some (auto_friend now f)) →
     (∀ k, k ∉ friend_key <$> l → fs' !! k = fr_friends rs !! k) → Q () (set_friends fs' rs)) →
  stm rs (FriendGorm_Create now l) Q any_error.
Proof.
  intros HQ. apply stm_friends, on_rows_Create; [|done]. intros Hn Hnone.
  assert (table_key (T:=FT) <$> (auto_friend now <$> l) = friend_key <$> l) as Hkeys.
  { rewrite <-list_fmap_compose. apply list_fmap_ext. intros i f _. cbn. by rewrite friends_table_key, friend_key_auto. }
  rewrite Hkeys in Hn. apply HQ; [done|..].
  - intros f Hf. rewrite <-(friend_key_auto now f), <-friends_table_key. by apply Hnone, list_elem_of_fmap_2.
  - intros f Hf. rewrite <-(friend_key_auto now f), <-friends_table_key.
    apply lookup_insert_rows_elem; [by rewrite Hkeys|by apply list_elem_of_fmap_2].
  - intros k Hk. apply lookup_insert_rows_ne. intros r Hr <-. apply Hk. rewrite <-Hkeys. by apply list_elem_of_fmap_2.
Qed.
Lemma stm_Friend_Delete o u rs (Q : () → FriendRows → Prop) :
  Q () (set_friends (delete (o, u) (fr_friends rs)) rs) → stm rs (FriendGorm_Delete o [u]) Q any_error.
Proof.
  intros HQ. apply stm_friends, on_rows_Delete_key with (k := (o, u)); [|done|done]. intros f.
  rewrite friends_table_key, <-has_friend_key. unfold has_friend, befriends.
  rewrite !andb_true_iff, !bool_decide_eq_true, list_elem_of_singleton. done.
Qed.
Lemma stm_UpdateRemark req rs (Q : () → FriendRows → Prop) :
  Q () (set_friends (remarked req (fr_friends rs)) rs) →
  stm rs (FriendGorm_UpdateRemark (Remark_OwnerUserID req) (Remark_FriendUserID req) (Remark_Remark req)) Q any_error.
Proof.
  intros HQ. apply stm_keyed. intros Hkd. unfold FriendGorm_UpdateRemark, remarked in *.
  case_bool_decide as Hr; cbn [negb]; apply stm_map, stm_friends.
  - apply on_rows_Updates; [intros f; by rewrite !friends_table_key, friend_key_remark| |done]. intros _.
    replace (_ <$> fr_friends rs) with (map_imap (λ k f,
      Some (if bool_decide (k.1 = Remark_OwnerUserID req) then set_Remark "" f else f)) (fr_friends rs)); [done|].
    apply map_eq. intros k. rewrite map_lookup_imap, lookup_fmap. destruct (fr_friends rs !! k) as [f|] eqn:Hf; [|done].
    cbn. pose proof (friends_keyed _ Hkd _ _ Hf) as <-. done.
  - eapply on_rows_Updates_key; [| |done|done].
    + intros f. rewrite friends_table_key. apply has_friend_key.
    + intros f. by rewrite !friends_table_key, friend_key_remark.
Qed.
Lemma stm_Request_Create now from to msg ex rs (Q : () → FriendRows → Prop) :
  let r := auto_request now (new_request now from to msg ex) in
  Q () (set_friend_requests (<[(from, to) := r]> (fr_requests rs)) rs) →
  stm rs (FriendRequestGorm_Create now [new_request now from to msg ex]) Q any_error.
Proof.
  intros r HQ. apply stm_requests, on_rows_Create; [|done]. intros _ _. unfold insert_rows. cbn.
  rewrite requests_table_key. done.
Qed.
Lemma stm_Request_UpdateByMap from to args rs (Q : () → FriendRows → Prop) :
  Q () (set_friend_requests (alter (set_request_columns args) (from, to) (fr_requests rs)) rs) →
  stm rs (FriendRequestGorm_UpdateByMap from to args) Q any_error.
Proof.
  intros HQ. apply stm_map, stm_requests. eapply on_rows_Updates_key; [| |done|done].
  - intros r. rewrite requests_table_key. apply has_friend_request_key.
  - intros r. by rewrite !requests_table_key, friend_request_key_columns.
Qed.
Lemma stm_Request_Update req rs (Q : () → FriendRows → Prop) :
  Q () (set_friend_requests (alter (update_request req) (FReq_FromUserID req, FReq_ToUserID req) (fr_requests rs)) rs) →
  stm rs (FriendRequestGorm_Update req) Q any_error.
Proof.
  intros HQ. apply stm_map, stm_requests. eapply on_rows_Updates_key; [| |done|done].
  - intros r. rewrite requests_table_key. apply has_friend_request_key.
  - intros r. by rewrite !requests_table_key, friend_request_key_update.
Qed.
(** A request that is missing, or an error of the engine. *)
Definition missing_request rs (from to : string) (e : error) : Prop :=
  not_missing e = false → fr_requests rs !! (from, to) = None.
Lemma stm_Request_Take from to rs (Q : FriendRequestModel → FriendRows → Prop) :
  (∀ r, fr_requests rs !! (from, to) = Some r → Q r rs) →
  stm rs (FriendRequestGorm_Take from to) Q (missing_request rs from to).
Proof.
  intros HQ. apply stm_requests, on_rows_Take_key with (k := (from, to)).
  - intros r. rewrite requests_table_key. apply has_friend_request_key.
  - intros r Hr. replace (set_friend_requests _ rs) with rs by by destruct rs. auto.
  - by intros Hn _.
  - intros e [n He]. unfold missing_request, not_missing. cbn. rewrite He. done.
Qed.
Lemma stm_Black_Create b rs (Q : () → FriendRows → Prop) :
  (fr_blacks rs !! black_key b = None → Q () (set_blacks (<[black_key b := b]> (fr_blacks rs)) rs)) →
  stm rs (BlackGorm_Create [b]) Q any_error.
Proof.
  intros HQ. apply stm_blacks, on_rows_Create; [|done]. intros _ Hnone. unfold insert_rows. cbn.
  rewrite blacks_table_key. apply HQ. rewrite <-blacks_table_key. apply Hnone. by left.
Qed.
Lemma stm_Black_Delete b rs (Q : () → FriendRows → Prop) :
  Q () (set_blacks (delete (black_key b) (fr_blacks rs)) rs) → stm rs (BlackGorm_Delete [b]) Q any_error.
Proof.
  intros HQ. apply stm_blacks, on_rows_Delete_key with (k := black_key b); [|done|done]. intros b'.
  rewrite blacks_table_key, bool_decide_eq_true. cbn. by rewrite list_elem_of_singleton.
Qed.

(** ** Computations on the world *)

(** The rows are [rs], and the cache agrees with them. *)
Definition holds rs w : Prop := Agrees w ∧ rows_of w = rs.

(** The answer is as [X] says; nothing changes, but for entries of the cache. *)
Definition looks {A} rs (X : A → Prop) (m : M W A) : Prop :=
  ∀ w, holds rs w → wp m (λ r w', holds rs w' ∧ match r with Ok a => X a | Err _ => True | _ => False end) w.

(** The rows change as [P] says, or the call fails and they do not. *)
Definition refines rs (P : FriendRows → Prop) (m : M W ()) : Prop :=
  ∀ w, holds rs w → wp m (λ r w',
    (r = Ok () ∧ Agrees w' ∧ P (rows_of w')) ∨ ((∃ e, r = Err e) ∧ holds rs w')) w.

(** After a call that changed the rows, nothing does. *)
Definition quiet (m : M W ()) : Prop := ∀ rs w, holds rs w → wp m (λ r w', r = Ok () ∧ holds rs w') w.

Lemma looks_ret {A} rs (X : A → Prop) a : X a → looks rs X (mret a).
Proof. intros HX w Hw. by apply wp_ret. Qed.
Lemma looks_lift {A} rs (X : A → Prop) (r : A + error) : (∀ a, r = inl a → X a) → looks rs X (lift r).
Proof. intros HX w Hw. apply wp_lift; intros; split; auto. Qed.
Lemma looks_guard rs (X : () → Prop) b e : (b = false → X ()) → looks rs X (guard b e).
Proof. intros HX w Hw. apply wp_guard; intros; split; auto. Qed.
Lemma looks_bind {A B} rs (X : A → Prop) (Y : B → Prop) (m : M W A) k :
  looks rs X m → (∀ a, X a → looks rs Y (k a)) → looks rs Y (m ≫= k).
Proof.
  intros Hm Hk w Hw. apply wp_bind. eapply wp_mono; [|by apply Hm].
  intros [a|e| |] w' [Hw' HX]; try done. by apply Hk.
Qed.
Lemma refines_bind {A} rs (X : A → Prop) P (m : M W A) k :
  looks rs X m → (∀ a, X a → refines rs P (k a)) → refines rs P (m ≫= k).
Proof.
  intros Hm Hk w Hw. apply wp_bind. eapply wp_mono; [|by apply Hm].
  intros [a|e| |] w' [Hw' HX]; try done; [by apply Hk|]. right. by split; [eexists|].
Qed.
Lemma refines_then rs P (m k : M W ()) : refines rs P m → quiet k → refines rs P (_ ← m; k).
Proof.
  intros Hm Hk w Hw. apply wp_bind. eapply wp_mono; [|by apply Hm].
  intros r w' [(-> & Ha & HP)|[[e ->] Hw']]; [|right; by split; [eexists|]].
  eapply wp_mono; [|apply (Hk (rows_of w') w'); by split]. intros r w2 (-> & Ha2 & Hr2). left. by rewrite Hr2.
Qed.
Lemma refines_mono rs (P P' : FriendRows → Prop) m : refines rs P m → (∀ rs', P rs' → P' rs') → refines rs P' m.
Proof. intros Hm HP w Hw. eapply wp_mono; [|by apply Hm]. naive_solver. Qed.
Lemma refines_fail rs P e : refines rs P (fail e).
Proof. intros w Hw. apply wp_fail. right. by split; [eexists|]. Qed.

Lemma wp_friend_del ks (Q : outcome () → W → Prop) w : (∀ w', evicted ks w w' → Q (Ok ()) w') →
  wp (friend_ExecDel ks) Q w.
Proof. apply (wp_evict friend_entry friend_entry_nonempty). Qed.
Lemma evicted_put ks t w w' : evicted ks (put_friend_tables t w) w' →
  ∃ w1, evicted ks w w1 ∧ w' = put_friend_tables t w1.
Proof. intros (c & -> & Hc & Hk). exists (put_friend_cache c w). split; [|done]. by exists c. Qed.

Lemma evicted_holds ks t w w' : Agrees w → stale_ids ks (rows_of w) (friend_rows t) →
  evicted ks (put_friend_tables t w) w' → Agrees w' ∧ rows_of w' = friend_rows t.
Proof.
  intros Ha Hst (w1 & He & ->)%evicted_put. split; [by eapply evicted_Agrees|done].
Qed.
Lemma put_holds rs t w : holds rs w → friend_rows t = rs → holds rs (put_friend_tables t w).
Proof.
  intros [Ha Hr] Ht. split; [|done]. eapply evicted_Agrees; [exact Ha|apply evicted_none|].
  rewrite Hr, Ht. apply stale_ids_refl.
Qed.

Lemma looks_stm {A} rs (X : A → Prop) (m : M T A) Y :
  stm rs m (λ a rs', rs' = rs ∧ X a) Y → looks rs X (on_friend_tables m).
Proof.
  intros Hm w Hw. apply wp_on_friend_tables. eapply wp_mono; [|apply Hm, Hw].
  intros [a|e| |] t; try done.
  - intros [Ht HX]. split; [by apply put_holds|done].
  - intros [_ Ht]. split; [by apply put_holds|done].
Qed.
Lemma refines_stm_del rs P (m : M T ()) ks Y :
  stm rs m (λ _ rs', P rs' ∧ stale_ids ks rs rs') Y → refines rs P (_ ← on_friend_tables m; friend_ExecDel ks).
Proof.
  intros Hm w Hw. apply wp_bind, wp_on_friend_tables. eapply wp_mono; [|apply Hm, Hw].
  intros [[]|e| |] t; try done.
  - intros [HP Hst]. apply wp_friend_del. intros w' He. left. split; [done|]. destruct Hw as [Ha Hr].
    rewrite <-Hr in Hst. destruct (evicted_holds _ _ _ _ Ha Hst He) as [Ha' ->]. done.
  - intros [_ Ht]. right. split; [by eexists|by apply put_holds].
Qed.
Lemma refines_stm rs P (m : M T ()) Y :
  stm rs m (λ _ rs', P rs' ∧ stale_ids [] rs rs') Y → refines rs P (on_friend_tables m).
Proof.
  intros Hm w Hw. apply wp_on_friend_tables. eapply wp_mono; [|apply Hm, Hw].
  intros [[]|e| |] t; try done.
  - intros [HP Hst]. left. split; [done|]. split; [|done]. destruct Hw as [Ha Hr].
    eapply evicted_Agrees; [exact Ha|apply evicted_none|by rewrite Hr].
  - intros [_ Ht]. right. split; [by eexists|by apply put_holds].
Qed.

(** ** Inside a transaction

    The tables of the transaction have the rows [rs], the world is [w]. *)
Definition during {A} w rs (m : M (T * W) A) (Q : A → FriendRows → W → Prop) : Prop :=
  ∀ t, friend_rows t = rs → wp m (λ r tw, match r with
    | Ok a => Q a (friend_rows tw.1) tw.2 | Err _ => tw.2 = w | _ => False end) (t, w).

Lemma during_ret {A} w rs (a : A) (Q : A → FriendRows → W → Prop) : Q a rs w → during w rs (mret a) Q.
Proof. intros HQ t <-. by apply wp_ret. Qed.
Lemma during_fail {A} w rs e (Q : A → FriendRows → W → Prop) : during w rs (fail e) Q.
Proof. intros t Ht. by apply wp_fail. Qed.
Lemma during_guard w rs b e (Q : () → FriendRows → W → Prop) : (b = false → Q () rs w) → during w rs (guard b e) Q.
Proof. intros HQ t <-. by apply wp_guard; auto. Qed.
Lemma during_bind {A B} w rs (m : M (T * W) A) k (Q1 : A → FriendRows → Prop) (Q : B → FriendRows → W → Prop) :
  during w rs m (λ a rs' w', w' = w ∧ Q1 a rs') → (∀ a rs', Q1 a rs' → during w rs' (k a) Q) →
  during w rs (m ≫= k) Q.
Proof.
  intros Hm Hk t Ht. apply wp_bind. eapply wp_mono; [|by apply Hm]. intros [a|e| |] [t' w']; try done.
  cbn. intros [-> HQ]. by eapply Hk.
Qed.
Lemma during_bind_assoc {A B C} w rs (m : M (T * W) A) (f : A → M (T * W) B) (k : B → M (T * W) C)
    (Q1 : B → FriendRows → Prop) (Q : C → FriendRows → W → Prop) :
  during w rs (a ← m; f a) (λ a rs' w', w' = w ∧ Q1 a rs') → (∀ a rs', Q1 a rs' → during w rs' (k a) Q) →
  during w rs (a ← m; b ← f a; k b) Q.
Proof.
  intros Hm Hk t Ht. eapply (during_bind _ _ _ _ _ _ Hm Hk) in Ht. revert Ht. rewrite !wp_eq.
  unfold mbind, M_bind. by destruct (m (t, w)) as [[] ?].
Qed.
Lemma during_keyed {A} w rs (m : M (T * W) A) (Q : A → FriendRows → W → Prop) :
  (keyed rs → during w rs m Q) → during w rs m Q.
Proof. intros Hm t Ht. apply Hm; [|done]. rewrite <-Ht. apply friend_rows_keyed. Qed.
Lemma during_stm {A} w rs (m : M T A) (Q : A → FriendRows → W → Prop) X :
  stm rs m (λ a rs', Q a rs' w) X → during w rs (in_friend_tx m) Q.
Proof. intros Hm t Ht. apply wp_on_fst. eapply wp_mono; [|by apply Hm]. by intros []. Qed.
Lemma during_try {A} w rs (m : M T A) (Q : A + error → FriendRows → W → Prop) X :
  stm rs m (λ a rs', Q (inl a) rs' w) X → (∀ e, X e → Q (inr e) rs w) → during w rs (try (in_friend_tx m)) Q.
Proof.
  intros Hm He t Ht. apply wp_try, wp_on_fst. eapply wp_mono; [|by apply Hm].
  intros [] t'; try done. intros [HX Ht']. cbn. rewrite Ht'. auto.
Qed.
Lemma during_del w rs ks (Q : () → FriendRows → W → Prop) : (∀ w', evicted ks w w' → Q () rs w') →
  during w rs (out_friend_tx (friend_ExecDel ks)) Q.
Proof. intros HQ t <-. apply wp_on_snd, wp_friend_del. auto. Qed.

Lemma refines_tx rs P body :
  (∀ w, holds rs w → during w rs body (λ _ rs' w', P rs' ∧ ∃ ks, evicted ks w w' ∧ stale_ids ks rs rs')) →
  refines rs P (FriendTransaction body).
Proof.
  intros Hb w Hw. apply wp_transaction; [intros e _; right; by split; [eexists|]|].
  eapply wp_mono; [|apply (Hb w Hw), Hw]. intros [[]|e| |] [t w']; try done; cbn.
  - intros (HP & ks & He & Hst). destruct Hw as [Ha Hr]. rewrite <-Hr in Hst. split.
    + intros e _. right. split; [by eexists|]. rewrite <-Hr. by eapply evicted_still.
    + left. split; [done|]. split; [by eapply evicted_Agrees|done].
  - intros ->. right. by split; [eexists|].
Qed.
End FriendChanges.
