(* ===== verification/FriendRefinement.v ===== *)
(** * The friend service implements its specification

    Each handler of FriendServer.v makes a step of [friend_step], or fails and
    leaves the rows as they were; an import whose transaction fails succeeds and
    leaves them too; either way the cache agrees with the tables
    afterwards. *)

From S2P Require Import Prelude.
From S2P Require Import Constants.
From S2P Require Import MsgTypes.
From S2P Require Import Tools.
From S2P Require Import Notification.
From S2P Require Import RpcClient.
From S2P Require Import Auth.
From S2P Require Import GroupTypes.
From S2P Require Import GroupNotification.
From S2P Require Import FriendTypes.
From S2P Require Import Sql.
From S2P Require Import RowCache.
From S2P Require Import RowCoherence.
From S2P Require Import FriendStore.
From S2P Require Import FriendDatabase.
From S2P Require Import FriendServer.
From S2P Require Import FriendSpec.
From S2P Require Import FriendProofs.
From stdpp Require Import options.
#[local] Set Default Proof Using "Type*".

#[local] Open Scope Z_scope.

(** ** Which lists of ids a change makes stale *)

Lemma seconds_ext {R} (m m' : gmap (string * string) R) u :
  (∀ v, is_Some (m' !! (u, v)) ↔ is_Some (m !! (u, v))) → seconds m' u = seconds m u.
Proof. intros Hm. apply set_eq. intros v. by rewrite !elem_of_seconds. Qed.

(** Altering a row that is there. *)
Lemma alter_insert_some {K R} `{Countable K} (f : R → R) (m : gmap K R) k r : m !! k = Some r → alter f k m = <[k := f r]> m.
Proof. intros Hr. by rewrite <-(insert_id m k r Hr) at 1; rewrite alter_insert_eq. Qed.

Section Stale.
Implicit Types (rs : FriendRows).

(** Friendships whose owners have their keys deleted. *)
Lemma stale_friends ks rs fs' :
  (∀ o u, getFriendIDsKey o ∈ ks ∨ (is_Some (fs' !! (o, u)) ↔ is_Some (fr_friends rs !! (o, u)))) →
  stale_ids ks rs (set_friends fs' rs).
Proof.
  intros Hk. split; [|by right]. intros o. destruct (decide (getFriendIDsKey o ∈ ks)) as [|Hn]; [by left|].
  right. apply seconds_ext. intros u. by destruct (Hk o u).
Qed.
Lemma stale_requests rs qs : stale_ids [] rs (set_friend_requests qs rs).
Proof. split; by right. Qed.
Lemma stale_blacks ks rs bs' :
  (∀ o u, getBlackIDsKey o ∈ ks ∨ (is_Some (bs' !! (o, u)) ↔ is_Some (fr_blacks rs !! (o, u)))) →
  stale_ids ks rs (set_blacks bs' rs).
Proof.
  intros Hk. split; [by right|]. intros o. destruct (decide (getBlackIDsKey o ∈ ks)) as [|Hn]; [by left|].
  right. apply seconds_ext. intros u. by destruct (Hk o u).
Qed.
Lemma stale_trans ks rs rs1 rs2 : stale_ids ks rs rs1 → stale_ids ks rs1 rs2 → stale_ids ks rs rs2.
Proof. intros [Hf1 Hb1] [Hf2 Hb2]. split; intros u; [destruct (Hf1 u), (Hf2 u)|destruct (Hb1 u), (Hb2 u)]; eauto using eq_trans. Qed.
End Stale.

Section Databases.
Context `{FriendEngineLaws} `{!TagSucceeds FC} {E : Type}.
Abbreviation W := (FriendWorld E).
Abbreviation rows_of w := (friend_rows (fw_tables w)).
Implicit Types (w : W) (rs : FriendRows).

Lemma refines_AddFriendRequest now req rs :
  refines rs (eq (set_friend_requests (requested now req (fr_requests rs)) rs))
    (AddFriendRequest (E:=E) now (Apply_FromUserID req) (Apply_ToUserID req) (Apply_ReqMsg req) (Apply_Ex req)).
Proof.
  unfold requested. apply refines_tx. intros w Hw.
  assert (∀ qs, ∃ ks, evicted ks w w ∧ stale_ids ks rs (set_friend_requests qs rs)) as Hst.
  { intros qs. exists []. split; [apply evicted_none|apply stale_requests]. }
  apply during_bind with (Q1 := λ r rs', rs' = rs ∧ match r with
    | inl q => fr_requests rs !! (Apply_FromUserID req, Apply_ToUserID req) = Some q
    | inr e => missing_request rs (Apply_FromUserID req) (Apply_ToUserID req) e end).
  { eapply during_try; [by apply stm_Request_Take|done]. }
  intros [q|e] ? [-> Hq]; cbn.
  - eapply during_stm, stm_Request_UpdateByMap. by rewrite Hq, (alter_insert_some _ _ _ _ Hq).
  - destruct (not_missing e) eqn:He; [apply during_fail|]. specialize (Hq He).
    eapply during_stm, stm_Request_Create. rewrite Hq. by split.
Qed.

Lemma refines_RefuseFriendRequest now req rs :
  refines rs (λ rs', pending_request (fr_requests rs) (Respond_FromUserID req) (Respond_ToUserID req) ∧
      rs' = set_friend_requests (answered now FriendResponseRefuse "" req (fr_requests rs)) rs)
    (RefuseFriendRequest (E:=E) now (respond_row req)).
Proof.
  eapply refines_bind with (X := λ q, fr_requests rs !! (Respond_FromUserID req, Respond_ToUserID req) = Some q).
  { eapply looks_stm, stm_Request_Take. by split. }
  intros q Hq. eapply refines_bind with (X := λ _, FReq_HandleResult q = 0).
  { apply looks_guard. intros He. bool_facts. done. }
  intros [] Hz. eapply refines_stm, stm_Request_Update. split; [|apply stale_requests].
  split; [by exists q|done].
Qed.

Lemma refines_friend_Delete o u rs :
  refines rs (eq (set_friends (delete (o, u) (fr_friends rs)) rs)) (friendDatabase_Delete (E:=E) o [u]).
Proof.
  eapply refines_stm_del, stm_Friend_Delete. split; [done|]. apply stale_friends. intros o' u'.
  destruct (decide (o' = o)) as [->|Hne]; [left; set_solver|right]. rewrite lookup_delete_ne by congruence. done.
Qed.

Lemma refines_UpdateRemark req rs :
  refines rs (eq (set_friends (remarked req (fr_friends rs)) rs))
    (UpdateRemark (E:=E) (Remark_OwnerUserID req) (Remark_FriendUserID req) (Remark_Remark req)).
Proof.
  eapply refines_stm_del, stm_UpdateRemark. split; [done|]. apply stale_friends. intros o' u'.
  right. apply remarked_dom.
Qed.

Lemma refines_black_Create b rs :
  refines rs (λ rs', fr_blacks rs !! black_key b = None ∧ rs' = set_blacks (<[black_key b := b]> (fr_blacks rs)) rs)
    (blackDatabase_Create (E:=E) [b]).
Proof.
  eapply refines_stm_del, stm_Black_Create. intros Hn. split; [done|]. apply stale_blacks. intros o' u'.
  destruct (decide (o' = Black_OwnerUserID b)) as [->|Hne]; [left; set_solver|right].
  rewrite lookup_insert_ne; [done|]. intros [=]. congruence.
Qed.
Lemma refines_black_Delete b rs :
  refines rs (eq (set_blacks (delete (black_key b) (fr_blacks rs)) rs)) (blackDatabase_Delete (E:=E) [b]).
Proof.
  eapply refines_stm_del, stm_Black_Delete. split; [done|]. apply stale_blacks. intros o' u'.
  destruct (decide (o' = Black_OwnerUserID b)) as [->|Hne]; [left; set_solver|right].
  rewrite lookup_delete_ne; [done|]. intros [=]. congruence.
Qed.

(** *** Agreeing to a request *)

Lemma elem_missing (exists_ : list FriendModel) (from to : string) (f : FriendModel) : f ∈ missing_friends exists_ from to ↔
  (f = applied to from from ∧ (to, from) ∉ friend_key <$> exists_) ∨
  (f = applied from to from ∧ (from, to) ∉ friend_key <$> exists_).
Proof.
  unfold missing_friends. rewrite elem_of_app. do 2 case_bool_decide; rewrite ?elem_of_nil, ?list_elem_of_singleton; naive_solver.
Qed.

(** The rows that were created are the missing ones of the friendship. *)
Lemma missing_befriended (now : Z) (exists_ : list FriendModel) (from to : string) (fs fs' : FriendMap) :
  (∀ k, k ∈ friend_key <$> exists_ ↔ (k = (from, to) ∨ k = (to, from)) ∧ is_Some (fs !! k)) →
  (∀ f, f ∈ missing_friends exists_ from to → fs' !! friend_key f = Some (auto_friend now f)) →
  (∀ k, k ∉ friend_key <$> missing_friends exists_ from to → fs' !! k = fs !! k) →
  fs' = befriended now from to fs.
Proof.
  intros Hex Hin Hout. apply map_eq. intros k. unfold befriended. rewrite !add_friend_lookup.
  assert (∀ a b, (a, b) = (from, to) ∨ (a, b) = (to, from) →
    fs' !! (a, b) = Some (default (auto_friend now (applied a b from)) (fs !! (a, b)))) as Hboth.
  { intros a b Hab. destruct (fs !! (a, b)) as [f|] eqn:Hf; cbn.
    - rewrite Hout; [done|]. intros (g & Hg & [[-> Hn]|[-> Hn]]%elem_missing)%list_elem_of_fmap;
        injection Hg as -> ->; apply Hn, Hex; (split; [by auto|by exists f]).
    - apply (Hin (applied a b from)). apply elem_missing. assert ((a, b) ∉ friend_key <$> exists_) as Hn.
      { intros [_ [f Hs]]%Hex. congruence. }
      destruct Hab as [[= -> ->]|[= -> ->]]; auto. }
  repeat case_decide; subst.
  - simplify_eq. by rewrite Hboth by auto.
  - by rewrite Hboth by auto.
  - by rewrite Hboth by auto.
  - apply Hout. intros (g & -> & [[-> _]|[-> _]]%elem_missing)%list_elem_of_fmap; done.
Qed.

Lemma during_answer_back now op req w rs (r : FriendRequestModel + error) :
  let to := Respond_ToUserID req in let from := Respond_FromUserID req in
  match r with
  | inl q => fr_requests rs !! (to, from) = Some q
  | inr e => missing_request rs to from e
  end →
  during w rs (match r with
    | inl fr2 => if FReq_HandleResult fr2 =? FriendResponseNotHandle
        then in_friend_tx (FriendRequestGorm_Update (set_handled now FriendResponseAgree op fr2)) else mret ()
    | inr err => guard (not_missing err) err end)
    (λ _ rs' w', w' = w ∧ rs' = set_friend_requests (answered_back now op req (fr_requests rs)) rs).
Proof.
  intros to from Hr. subst to from. unfold answered_back. apply during_keyed. intros Hk. destruct r as [q|e].
  - rewrite Hr. change FriendResponseNotHandle with 0. destruct (FReq_HandleResult q =? 0) eqn:Hz.
    + eapply during_stm, stm_Request_Update. split; [done|]. f_equal.
      apply (requests_keyed _ Hk) in Hr as Hq. destruct q. injection Hq as -> ->. symmetry.
      by rewrite <-(alter_insert_some _ _ _ _ Hr).
    + apply during_ret. split; [done|]. by destruct rs.
  - apply during_guard. intros He. rewrite (Hr He). split; [done|]. by destruct rs.
Qed.

Lemma during_add_missing (now : Z) (from to : string) w rs :
  during w rs (exists_ ← in_friend_tx (FindUserState from to);
     let adds := missing_friends exists_ from to in
     if 0 <? len adds then in_friend_tx (FriendGorm_Create now adds) else mret ())
    (λ _ rs' w', w' = w ∧ rs' = set_friends (befriended now from to (fr_friends rs)) rs).
Proof.
  apply during_bind with (Q1 := λ l rs', rs' = rs ∧
    ∀ k, k ∈ friend_key <$> l ↔ (k = (from, to) ∨ k = (to, from)) ∧ is_Some (fr_friends rs !! k)).
  { eapply during_stm, stm_FindUserState. done. }
  intros l ? [-> Hl]. cbn zeta. destruct (0 <? len (missing_friends l from to)) eqn:Elen.
  - eapply during_stm, stm_Friend_Create. intros _ _ fs' Hin Hout. split; [done|]. f_equal.
    by eapply missing_befriended.
  - apply during_ret. split; [done|]. assert (missing_friends l from to = []) as Hnil.
    { destruct (missing_friends l from to); [done|]. apply Z.ltb_ge in Elen. unfold len in Elen. cbn in Elen. lia. }
    rewrite <-(missing_befriended now l from to (fr_friends rs) (fr_friends rs)); [by destruct rs|done| |done].
    rewrite Hnil. by intros f ?%elem_of_nil.
Qed.

Lemma refines_AgreeFriendRequest now op req rs :
  refines rs (λ rs', pending_request (fr_requests rs) (Respond_FromUserID req) (Respond_ToUserID req) ∧
      rs' = mkFriendRows (befriended now (Respond_FromUserID req) (Respond_ToUserID req) (fr_friends rs))
        (answered_back now op req (answered now FriendResponseAgree op req (fr_requests rs))) (fr_blacks rs))
    (AgreeFriendRequest (E:=E) now op (respond_row req)).
Proof.
  apply refines_tx. intros w Hw. cbn [respond_row FReq_FromUserID FReq_ToUserID].
  eapply during_bind with (Q1 := λ q rs', rs' = rs ∧ fr_requests rs !! (Respond_FromUserID req, Respond_ToUserID req) = Some q).
  { eapply during_stm, stm_Request_Take. done. }
  intros q ? [-> Hq]. eapply during_bind with (Q1 := λ _ rs', rs' = rs ∧ FReq_HandleResult q = 0).
  { apply during_guard. intros He. by bool_facts. }
  intros [] ? [-> Hz]. set (qs1 := answered now FriendResponseAgree op req (fr_requests rs)).
  eapply during_bind with (Q1 := λ _ rs', rs' = set_friend_requests qs1 rs).
  { eapply during_stm, stm_Request_Update. done. }
  intros [] ? ->. eapply during_bind with (Q1 := λ r rs', rs' = set_friend_requests qs1 rs ∧ match r with
    | inl q => qs1 !! (Respond_ToUserID req, Respond_FromUserID req) = Some q
    | inr e => missing_request (set_friend_requests qs1 rs) (Respond_ToUserID req) (Respond_FromUserID req) e end).
  { eapply during_try; [by apply stm_Request_Take|done]. }
  intros r ? [-> Hr]. eapply during_bind; [apply (during_answer_back now op req _ (set_friend_requests qs1 rs)); exact Hr|].
  intros [] ? ->. eapply during_bind_assoc; [apply during_add_missing|].
  intros [] ? ->. cbn [fr_friends fr_requests fr_blacks set_friend_requests set_friends]. apply during_del. intros w' He. split; [by split; [exists q|]|]. eexists. split; [exact He|].
  eapply stale_trans with (rs1 := set_friend_requests _ rs); [split; by right|]. apply stale_friends. intros o u.
  destruct (decide (o = Respond_ToUserID req ∨ o = Respond_FromUserID req)) as [Ho|Hne].
  - left. unfold DelFriendIDs. set_solver.
  - right. rewrite befriended_lookup. naive_solver.
Qed.

(** *** Importing friends *)

Context `{DistinctToolsLaws}.

(** Rows of one direction: an import inserts the rows it found again, so it
    succeeds only where there are none. *)
Lemma stm_import now (pr : FriendModel → string) (key : string → string * string) (mk : string → FriendModel)
    (found : list FriendModel) us rs (Q : () → FriendRows → Prop) :
  (∀ u, friend_key (mk u) = key u) → (∀ f u, friend_key f = key u → pr f = u) →
  (∀ f, f ∈ found ↔ (∃ u, u ∈ us ∧ friend_key f = key u) ∧ fr_friends rs !! friend_key f = Some f) →
  (∀ fs', (∀ u, u ∈ us → fr_friends rs !! key u = None ∧ fs' !! key u = Some (auto_friend now (mk u))) →
     (∀ k, (∀ u, u ∈ us → k ≠ key u) → fs' !! k = fr_friends rs !! k) → Q () (set_friends fs' rs)) →
  stm rs (FriendGorm_Create now (DistinctAny (found ++ (mk <$> us)) pr)) Q any_error.
Proof.
  intros Hmk Hpr Hfound HQ. apply stm_Friend_Create. intros _ Hnone fs' Hin Hout.
  set (l := DistinctAny (found ++ (mk <$> us)) pr) in *.
  assert (∀ f, f ∈ l → ∃ u, u ∈ us ∧ friend_key f = key u ∧ (f ∈ found ∨ f = mk u)) as Hl.
  { intros f [Hf|(u & -> & Hu)%list_elem_of_fmap]%DistinctAny_sub%elem_of_app.
    - apply Hfound in Hf as Hf'. destruct Hf' as [(u & Hu & Hk) _]. eauto.
    - exists u. auto. }
  assert (∀ u, u ∈ us → mk u ∈ l) as Hmem.
  { intros u Hu. assert (u ∈ pr <$> l) as (f & Hf & Hfl)%list_elem_of_fmap.
    { apply DistinctAny_keys. rewrite fmap_app, elem_of_app. right. apply list_elem_of_fmap. exists (mk u).
      split; [symmetry; by apply Hpr|by apply list_elem_of_fmap_2]. }
    destruct (Hl f Hfl) as (u' & _ & Hk & [Hf'| ->]).
    - apply Hfound in Hf' as [_ Hs]. rewrite (Hnone _ Hfl) in Hs. done.
    - rewrite (Hpr _ _ (Hmk u')) in Hf. by subst. }
  apply HQ.
  - intros u Hu. rewrite <-Hmk. auto.
  - intros k Hk. apply Hout. intros (f & -> & Hf)%list_elem_of_fmap. destruct (Hl f Hf) as (u & Hu & Hkey & _).
    by apply (Hk u).
Qed.

Lemma during_imports c owner us w rs : owner ∉ us →
  during w rs (fs1 ← in_friend_tx (FindFriends owner us);
    let fs11 := DistinctAny (fs1 ++ ((λ v, imported (fc_operation c) owner v BecomeFriendByImport) <$> us)) Friend_FriendUserID in
    _ ← in_friend_tx (FriendGorm_Create (fc_now c) fs11);
    fs2 ← in_friend_tx (FindReversalFriends owner us);
    let fs22 := DistinctAny (fs2 ++ ((λ v, imported (fc_operation c) v owner BecomeFriendByImport) <$> us)) Friend_OwnerUserID in
    _ ← in_friend_tx (FriendGorm_Create (fc_now c) fs22);
    mret (DelFriendIDs (us ++ [owner]) []))
    (λ ks rs' w', w' = w ∧ ks = DelFriendIDs (us ++ [owner]) [] ∧
       ∃ fs', rs' = set_friends fs' rs ∧ imports c owner us (fr_friends rs) fs').
Proof.
  intros Hnot. eapply during_bind with (Q1 := λ l rs', rs' = rs ∧ ∀ f, f ∈ l ↔
    (∃ u, u ∈ us ∧ friend_key f = (owner, u)) ∧ fr_friends rs !! friend_key f = Some f).
  { eapply during_stm, stm_FindFriends. intros l Hl _. split; [done|]. split; [done|]. intros f. rewrite Hl.
    unfold friend_key at 2. naive_solver. }
  intros l1 ? [-> Hl1]. cbn zeta. eapply during_bind with (Q1 := λ _ rs', ∃ fs1, rs' = set_friends fs1 rs ∧
    (∀ u, u ∈ us → fr_friends rs !! (owner, u) = None ∧ fs1 !! (owner, u) = Some (import_row c owner u)) ∧
    (∀ k, (∀ u, u ∈ us → k ≠ (owner, u)) → fs1 !! k = fr_friends rs !! k)).
  { eapply during_stm, (stm_import _ _ (λ u, (owner, u))); [done|by intros f u [=]|exact Hl1|]. intros fs1 Hin Hout. eauto. }
  intros [] ? (fs1 & -> & Hin1 & Hout1). eapply during_bind with (Q1 := λ l rs', rs' = set_friends fs1 rs ∧ ∀ f, f ∈ l ↔
    (∃ u, u ∈ us ∧ friend_key f = (u, owner)) ∧ fs1 !! friend_key f = Some f).
  { eapply during_stm, stm_FindReversal. intros l Hl _. split; [done|]. split; [done|]. intros f. rewrite Hl.
    unfold friend_key at 2. naive_solver. }
  intros l2 ? [-> Hl2]. eapply during_bind with (Q1 := λ _ rs', ∃ fs', rs' = set_friends fs' rs ∧ imports c owner us (fr_friends rs) fs').
  { eapply during_stm, (stm_import _ _ (λ u, (u, owner))); [done|by intros f u [=]|exact Hl2|]. intros fs' Hin Hout.
    split; [done|]. exists fs'. split; [done|]. cbn in Hin, Hout.
    split; intros [a b]; rewrite elem_of_imported_pairs.
    - intros [[-> Hb]|[-> Ha]].
      + destruct (Hin1 b Hb) as [Hn Hs]. split; [done|]. rewrite Hout; [done|]. intros u Hu [= -> _]. done.
      + destruct (Hin a Ha) as [Hn Hs]. split; [|done]. rewrite <-Hout1; [done|]. intros u Hu [= -> _]. done.
    - intros Hk. rewrite Hout by naive_solver. apply Hout1. naive_solver. }
  intros [] ? (fs' & -> & Him). apply during_ret. eauto.
Qed.

(** The errors of the database: a statement that fails, as one that inserts a row
    that is there does, or a transaction that cannot begin or be committed. *)
Definition from_database (e : error) : Prop :=
  external e ∨ ∃ f q b, friend_Begin f q b = Some e ∨ friend_Commit f q b = Some e.

(** The database does not carry out the transaction of an import. *)
Definition import_fails (c : friend_caller) (owner : string) (us : list string) w : Prop :=
  ∃ e, from_database e ∧
    (import_transaction (E:=E) (fc_now c) (fc_operation c) owner us BecomeFriendByImport w).1 = Err e.

Lemma import_transaction_fails now op owner us source w e :
  (import_transaction (E:=E) now op owner us source w).1 = Err e → from_database e.
Proof.
  unfold import_transaction, FriendTransaction, transaction. destruct (friend_Begin _ _ _) as [e'|] eqn:Hb.
  { cbn. intros [= <-]. right. eauto. }
  match goal with |- context [let '(r, _) := ?m (fw_tables w, w) in _] =>
    assert (ExternalErrors m) as Hm by (unfold in_friend_tx, FindFriends, FriendGorm_Create, FindReversalFriends, friends_stmt; cbn zeta; apply _);
    specialize (Hm (fw_tables w, w)); destruct (m _) as [[ks|e'| |] [t' w']] end; cbn in *; try done.
  - destruct (friend_Commit _ _ _) as [e'|] eqn:Hc; [|done]. intros [= <-]. right. eauto 10.
  - intros [= <-]. left. by apply Hm.
Qed.

(** The error of the transaction is dropped. *)
Lemma wp_BecomeFriends c owner us rs w : owner ∉ us → holds rs w →
  wp (BecomeFriends (E:=E) (fc_now c) (fc_operation c) owner us BecomeFriendByImport) (λ r w',
    r = Ok () ∧ Agrees w' ∧ ((rows_of w' = rs ∧ import_fails c owner us w) ∨
      ∃ fs', rows_of w' = set_friends fs' rs ∧ imports c owner us (fr_friends rs) fs')) w.
Proof.
  intros Hnot Hw. apply wp_bind, wp_try.
  assert (∀ e w', (import_transaction (fc_now c) (fc_operation c) owner us BecomeFriendByImport w).1 = Err e → w' = w →
    wp (mret ()) (λ r w', r = Ok () ∧ Agrees w' ∧ ((rows_of w' = rs ∧ import_fails c owner us w) ∨
      ∃ fs', rows_of w' = set_friends fs' rs ∧ imports c owner us (fr_friends rs) fs')) w') as Hfail.
  { intros e w' He ->. apply wp_ret. destruct Hw as [Ha Hr]. split; [done|]. split; [done|]. left. split; [done|].
    exists e. split; [by eapply import_transaction_fails|done]. }
  assert (wp (import_transaction (fc_now c) (fc_operation c) owner us BecomeFriendByImport) (λ r w', match r with
    | Ok ks => ∃ fs' t, w' = put_friend_tables t w ∧ ks = DelFriendIDs (us ++ [owner]) [] ∧
        friend_rows t = set_friends fs' rs ∧ imports c owner us (fr_friends rs) fs'
    | Err _ => w' = w | _ => False end) w) as Htx.
  { apply wp_transaction; [done|]. eapply wp_mono; [|apply during_imports; [exact Hnot|apply Hw]].
    intros [ks|e| |] [t w']; try done; cbn [fst snd]. intros (-> & -> & fs' & Ht & Him). split; [done|]. eauto 10. }
  rewrite wp_eq in *. destruct (import_transaction _ _ _ _ _ w) as [[ks|e| |] w']; try done; cbn in *; [|by eapply Hfail].
  destruct Htx as (fs' & t & -> & -> & Ht & Him). apply wp_friend_del. intros w' He. split; [done|]. destruct Hw as [Ha Hr].
  destruct (evicted_holds (DelFriendIDs (us ++ [owner]) []) t w w' Ha) as [Ha' ->]; [|done|].
  - rewrite Hr, Ht. apply stale_friends. intros o u. destruct (decide (o ∈ us ++ [owner])) as [Ho|Hn].
    + left. unfold DelFriendIDs. cbn. by apply list_elem_of_fmap_2.
    + right. rewrite (imports_dom _ _ _ _ _ _ Him), elem_of_imported_pairs. set_solver.
  - split; [done|]. right. eauto.
Qed.
End Databases.

(** ** Reads of the handlers, and their notifications *)

(** Neither the tables nor the cache change. *)
Definition calm `{FriendEngine} {E} : relation (FriendWorld E) := λ w w',
  fw_tables w' = fw_tables w ∧ fw_cache w' = fw_cache w.
#[export] Instance calm_preorder `{FriendEngine} {E} : PreOrder (calm (E:=E)).
Proof. split; [done|]. intros w1 w2 w3 [Ht Hc] [Ht' Hc']. unfold calm. by rewrite Ht', Hc'. Qed.
#[export] Instance moves_on_friend_env `{FriendEngine} {E A} (m : M E A) : Moves calm (on_friend_env m).
Proof. intros w. unfold on_friend_env, zoom. by destruct (m (fw_env w)). Qed.

#[export] Instance moves_unheard `{FriendEngine} {A} (m : M (FriendWorld (list FriendEffect)) A) :
  Moves calm m → Moves calm (unheard m).
Proof. intros Hm. apply moves_bind; apply _. Qed.

Section Handlers.
Context `{FriendEngineLaws} `{!TagSucceeds FC} `{ToolsLaws} `{MsgToolsLaws} `{DistinctToolsLaws}
  `{Services FriendEffect} `{FriendWebhook}.
Abbreviation W := (FriendWorld (list FriendEffect)).
Context (config : FriendConfig) (now : Z) (operationID opUserID : string).
Context (StructToJsonString : FriendTips → string) (Marshal_elem : string → string + error).
Context (answers : list FriendEffect → FriendEffect → option error).
Implicit Types (w : W) (rs : FriendRows).
Abbreviation the_rows w := (friend_rows (fw_tables w)).

Definition caller_of : friend_caller :=
  mkFriendCaller opUserID (bool_decide (opUserID ∈ Friend_Manager_UserID config)) now operationID.

Lemma calm_holds rs w w' : calm w w' → holds rs w → holds rs w'.
Proof.
  intros [Ht Hc] [Ha Hr]. split; [|by rewrite Ht]. intros k s. cbn. rewrite Hc, Ht. apply Ha.
Qed.

#[local] Instance friend_notify_ends sendID recvID t m :
  Ends (friend_notify config now StructToJsonString Marshal_elem answers sendID recvID t m).
Proof. unfold friend_notify, Notification, NotificationWithSesstionType, sender_names, friend_send, on_friend_env. apply _. Qed.
#[local] Instance friend_notify_calm sendID recvID t m :
  Moves calm (friend_notify config now StructToJsonString Marshal_elem answers sendID recvID t m).
Proof. unfold friend_notify, Notification, NotificationWithSesstionType, sender_names, friend_send. apply _. Qed.

Lemma quiet_unheard {A} (m : M W A) `{!Ends m, !Moves calm m} : quiet (unheard m).
Proof.
  intros rs w Hw. apply wp_and_moves with (R := calm); [apply _|]. apply wp_bind, wp_try.
  apply wp_eq. pose proof (ends (m:=m) w) as He. destruct (m w) as [[] w']; try done; apply wp_ret;
    (split; [done|by eapply calm_holds]).
Qed.
Lemma quiet_for_each {A} (l : list A) (body : A → M W ()) : (∀ x, quiet (body x)) → quiet (for_each l body).
Proof.
  intros Hb rs w Hw. apply wp_for_each with (I := λ _ w', holds rs w'); [done| |done].
  intros ls x rest w' _ Hw'. eapply wp_mono; [|by apply Hb]. by intros r w2 [-> Hw2].
Qed.

Lemma looks_env {A} rs (X : A → Prop) (m : M (list FriendEffect) A) :
  (∀ h, wp m (λ r _, match r with Ok a => X a | Err _ => True | _ => False end) h) → looks rs X (on_friend_env m).
Proof.
  intros Hm w Hw. apply wp_and_moves with (R := calm); [apply _|]. apply wp_zoom. eapply wp_mono; [|apply Hm].
  intros r h HX Hc. split; [by eapply calm_holds|done].
Qed.
Lemma looks_ends {A} rs (m : M (list FriendEffect) A) : Ends m → looks rs (λ _, True) (on_friend_env m).
Proof. intros Hm. apply looks_env. intros h. apply wp_eq. specialize (Hm h). by destruct (m h) as [[] ?]. Qed.

Lemma looks_CheckAccess rs u :
  looks (E:=list FriendEffect) rs (λ _, acts_for caller_of u) (lift (CheckAccessV3 (Friend_Manager_UserID config) opUserID u)).
Proof.
  apply looks_lift. intros []. unfold CheckAccessV3, acts_for. cbn. rewrite Contain_spec.
  case_bool_decide; [by left|]. case_bool_decide; [by right|done].
Qed.
Lemma looks_Access rs u : looks rs (λ _, acts_for caller_of u) (Access config opUserID u).
Proof.
  eapply looks_bind with (X := λ _, True); [|intros user _; apply looks_CheckAccess].
  apply looks_env. intros h. eapply wp_mono; [|apply wp_GetUserInfo]. by intros [].
Qed.
Lemma looks_friend_row rs o u : looks rs (λ _, is_Some (fr_friends rs !! (o, u))) (FindFriendsWithError (E:=list FriendEffect) o [u]).
Proof.
  eapply looks_bind with (X := λ l, ∀ f, f ∈ l → is_Some (fr_friends rs !! (o, u))).
  { eapply looks_stm, stm_FindFriends. intros l Hl _. split; [done|]. intros f Hf. apply Hl in Hf as (Ho & Hu & Hs).
    apply list_elem_of_singleton in Hu. exists f. by rewrite <-Ho, <-Hu. }
  intros l Hl. eapply looks_bind with (X := λ _, is_Some (fr_friends rs !! (o, u))).
  { apply looks_guard. intros Hg. bool_facts. destruct l as [|f l]; [done|]. apply (Hl f). by left. }
  intros [] Hs. by apply looks_ret.
Qed.
Lemma looks_CheckIn rs a b :
  looks (E:=list FriendEffect) rs (λ p, p = both_ways (fr_friends rs) a b) (friendDatabase_CheckIn a b).
Proof.
  intros w [Ha Hr]. eapply wp_mono; [|by apply wp_CheckIn]. intros r w' [Hg HX].
  destruct (glimpses_Agrees _ _ Hg Ha) as [Ha' Hr']. rewrite Hr in Hr', HX. by split.
Qed.
Lemma looks_callback rs req : looks rs (λ _, True) (CallbackBeforeAddFriend config operationID req).
Proof.
  intros w Hw. eapply wp_and_moves with (R := calm).
  { unfold CallbackBeforeAddFriend. destruct (negb _); [apply _|]. apply moves_bind; [apply _|apply _|]. intros []; apply _. }
  apply wp_eq. assert (Ends (CallbackBeforeAddFriend config operationID req)) as He.
  { unfold CallbackBeforeAddFriend. apply ends_if; [apply _|]. apply ends_bind; [|intros []; apply _].
    apply ends_try, ends_zoom. intros h. cbn. by destruct (webhook_add_friend _ h). }
  specialize (He w). intros Hc. split; [by eapply calm_holds|]. by destruct (CallbackBeforeAddFriend _ _ _ w) as [[] ?].
Qed.

(** ** The handlers *)

Definition friend_handle (call : friend_call) : M W () :=
  match call with
  | Call_ApplyToAddFriend req =>
      ApplyToAddFriend config now operationID opUserID StructToJsonString Marshal_elem answers req
  | Call_ImportFriends req =>
      ImportFriends config now operationID opUserID StructToJsonString Marshal_elem answers req
  | Call_RespondFriendApply req => RespondFriendApply config now opUserID StructToJsonString Marshal_elem answers req
  | Call_DeleteFriend req => DeleteFriend config now opUserID StructToJsonString Marshal_elem answers req
  | Call_SetFriendRemark req => SetFriendRemark config now opUserID StructToJsonString Marshal_elem answers req
  | Call_AddBlack req => AddBlack config now opUserID StructToJsonString Marshal_elem answers req
  | Call_RemoveBlack req => RemoveBlack config now opUserID StructToJsonString Marshal_elem answers req
  end.

(** Then a notification, whose fate is not looked at. *)
Lemma refines_notify {A} rs P m (n : M W A) `{!Ends n, !Moves calm n} : refines rs P m → refines rs P (_ ← m; unheard n).
Proof. intros Hm. apply refines_then; [done|by apply quiet_unheard]. Qed.

Lemma refines_ApplyToAddFriend req rs :
  refines rs (friend_step caller_of rs (Call_ApplyToAddFriend req)) (friend_handle (Call_ApplyToAddFriend req)).
Proof.
  eapply refines_bind; [apply looks_CheckAccess|]. intros [] Hacts.
  eapply refines_bind with (X := λ _, Apply_FromUserID req ≠ Apply_ToUserID req).
  { apply looks_guard. intros Hg. by bool_facts. }
  intros [] Hne. eapply refines_bind; [apply looks_callback|]. intros [] _.
  eapply refines_bind; [apply looks_ends; apply _|]. intros users _.
  eapply refines_bind; [apply looks_CheckIn|]. intros [in1 in2] [= -> ->].
  eapply refines_bind with (X := λ _, ¬ mutual (fr_friends rs) (Apply_FromUserID req) (Apply_ToUserID req)).
  { apply looks_guard. intros Hg [H1' H2']. by rewrite !bool_decide_true in Hg. }
  intros [] Hmut. apply refines_notify; try apply _. eapply refines_mono; [apply refines_AddFriendRequest|].
  intros rs' <-. by apply (step_apply caller_of).
Qed.

(** An import that is lost: a manager asks for it, and the database does not carry
    it out; he is not told. *)
Definition import_lost (call : friend_call) w : Prop :=
  fc_manager caller_of = true ∧ ∃ req w1, call = Call_ImportFriends req ∧ calm w w1 ∧
    import_fails caller_of (Import_OwnerUserID req) (Import_FriendUserIDs req) w1.

(** What a call does: a step, nothing with an error, or nothing. *)
Definition handled call rs w (r : outcome ()) w' : Prop :=
  (r = Ok () ∧ Agrees w' ∧ friend_step caller_of rs call (the_rows w')) ∨
  ((∃ e, r = Err e) ∧ holds rs w') ∨ (r = Ok () ∧ holds rs w' ∧ import_lost call w).

Lemma wp_ImportFriends req rs w : holds rs w →
  wp (friend_handle (Call_ImportFriends req)) (handled (Call_ImportFriends req) rs w) w.
Proof.
  intros Hw. assert (∀ e w', holds rs w' → handled (Call_ImportFriends req) rs w (Err e) w') as Herr.
  { intros e w' Hw'. right. left. by split; [eexists|]. }
  cbn [friend_handle]. unfold ImportFriends. cbn zeta. apply wp_bind, wp_lift; [|by auto]. intros [] Hadm.
  assert (fc_manager caller_of = true) as Hman.
  { revert Hadm. unfold CheckAdmin. rewrite Contain_spec. cbn. by case_bool_decide. }
  apply wp_bind, wp_and_moves with (R := calm); [apply _|].
  apply wp_eq. pose proof (ends (m:=on_friend_env (GetUsersInfo (Import_OwnerUserID req :: Import_FriendUserIDs req))) w) as He.
  destruct (on_friend_env _ w) as [[users|e| |] w1]; try done; cbn [fst snd] in *; intros Hc;
    assert (holds rs w1) as Hw1 by (by eapply calm_holds); [|by auto].
  apply wp_bind, wp_guard; [by auto|]. rewrite Contain_spec. intros Hnot%bool_decide_eq_false.
  apply wp_bind, wp_guard; [by auto|]. rewrite Duplicate_spec. intros Hnd. apply bool_decide_eq_false, dec_stable in Hnd.
  apply wp_bind. eapply wp_mono; [|by apply (wp_BecomeFriends caller_of)]. intros r w' (-> & Ha & Hrs).
  eapply wp_mono; [|apply (quiet_for_each _ _ (λ u, quiet_unheard _) (the_rows w') w'); done].
  intros r w2 (-> & Ha2 & Hr2). destruct Hrs as [[Hr Hlost]|(fs' & Hr & Him)].
  - right. right. split; [done|]. rewrite Hr in Hr2. split; [done|]. split; [done|]. by exists req, w1.
  - left. split; [done|]. split; [done|]. rewrite Hr2, Hr. by apply step_import.
Qed.

Lemma refines_RespondFriendApply req rs :
  refines rs (friend_step caller_of rs (Call_RespondFriendApply req)) (friend_handle (Call_RespondFriendApply req)).
Proof.
  eapply refines_bind; [apply looks_CheckAccess|]. intros [] Hacts.
  destruct (_ =? FriendResponseAgree) eqn:Ha; [|destruct (_ =? FriendResponseRefuse) eqn:Hr; [|apply refines_fail]]; bool_facts;
    (apply refines_notify; [apply _..|]).
  - eapply refines_mono; [apply refines_AgreeFriendRequest|]. intros rs' [Hp ->]. by apply (step_agree caller_of).
  - eapply refines_mono; [apply refines_RefuseFriendRequest|]. intros rs' [Hp ->]. by apply (step_refuse caller_of).
Qed.

Lemma refines_DeleteFriend req rs :
  refines rs (friend_step caller_of rs (Call_DeleteFriend req)) (friend_handle (Call_DeleteFriend req)).
Proof.
  eapply refines_bind; [apply looks_Access|]. intros [] Hacts.
  eapply refines_bind; [apply looks_friend_row|]. intros found Hs. apply refines_notify; try apply _.
  eapply refines_mono; [apply refines_friend_Delete|]. intros rs' <-. by apply step_delete.
Qed.

Lemma refines_SetFriendRemark req rs :
  refines rs (friend_step caller_of rs (Call_SetFriendRemark req)) (friend_handle (Call_SetFriendRemark req)).
Proof.
  eapply refines_bind; [apply looks_Access|]. intros [] Hacts.
  eapply refines_bind; [apply looks_friend_row|]. intros found Hs. apply refines_notify; try apply _.
  eapply refines_mono; [apply refines_UpdateRemark|]. intros rs' <-. by apply step_remark.
Qed.

Lemma refines_AddBlack req rs :
  refines rs (friend_step caller_of rs (Call_AddBlack req)) (friend_handle (Call_AddBlack req)).
Proof.
  eapply refines_bind; [apply looks_CheckAccess|]. intros [] Hacts.
  eapply refines_bind; [apply looks_ends; apply _|]. intros users _. apply refines_notify; try apply _.
  eapply refines_mono; [apply refines_black_Create|]. intros rs' [Hn ->]. by apply (step_add_black caller_of).
Qed.

Lemma refines_RemoveBlack req rs :
  refines rs (friend_step caller_of rs (Call_RemoveBlack req)) (friend_handle (Call_RemoveBlack req)).
Proof.
  eapply refines_bind; [apply looks_Access|]. intros [] Hacts. apply refines_notify; try apply _.
  eapply refines_mono; [apply refines_black_Delete|]. intros rs' <-. by apply step_remove_black.
Qed.

Lemma wp_friend_handle call rs w : holds rs w → wp (friend_handle call) (handled call rs w) w.
Proof.
  intros Hw. assert (∀ call, refines rs (friend_step caller_of rs call) (friend_handle call) →
    wp (friend_handle call) (handled call rs w) w) as Hrefines.
  { intros call' Hr. eapply wp_mono; [|by apply Hr]. intros r w' [?|?]; [by left|by right; left]. }
  destruct call.
  - apply Hrefines, refines_ApplyToAddFriend.
  - by apply wp_ImportFriends.
  - apply Hrefines, refines_RespondFriendApply.
  - apply Hrefines, refines_DeleteFriend.
  - apply Hrefines, refines_SetFriendRemark.
  - apply Hrefines, refines_AddBlack.
  - apply Hrefines, refines_RemoveBlack.
Qed.
End Handlers.
