(* ===== verification/FriendTheorems.v ===== *)
(** * The properties of the friend service

    The handlers implement [friend_step]; what follows for any sequence of calls:
    where friendships come from, what the rows keep, what the queries answer, and
    what the message service lets pass when it asks this service. *)

From S2P Require Import Prelude.
From S2P Require Import Constants.
From S2P Require Import MsgTypes.
From S2P Require Import Tools.
From S2P Require Import Notification.
From S2P Require Import RpcClient.
From S2P Require Import Auth.
From S2P Require Import MsgServer.
From S2P Require Import SendProofs.
From S2P Require Import GroupTypes.
From S2P Require Import GroupNotification.
From S2P Require Import FriendTypes.
From S2P Require Import Sql.
From S2P Require Import RowCache.
From S2P Require Import RowCoherence.
From S2P Require Import FriendStore.
From S2P Require Import FriendDatabase.
From S2P Require Import FriendServer.
From S2P Require Import FriendSpec.
From S2P Require Import FriendProofs.
From S2P Require Import FriendRefinement.
From stdpp Require Import options.
#[local] Set Default Proof Using "Type*".

#[local] Open Scope Z_scope.

(** A call with the user who makes it, at a time, in an operation. *)
Record friend_visit := mkVisit { v_now : Z; v_operation : string; v_user : string; v_call : friend_call }.

(** Whether the first user asked the second for friendship, *)
Definition asked (h : list friend_visit) (a b : string) : Prop :=
  ∃ v req, v ∈ h ∧ v_user v = a ∧ v_call v = Call_ApplyToAddFriend req ∧
    Apply_FromUserID req = a ∧ Apply_ToUserID req = b.
(** and the second agreed after that. *)
Definition agreed (h : list friend_visit) (a b : string) : Prop :=
  ∃ h1 v h2 req, h = h1 ++ v :: h2 ∧ asked h1 a b ∧ v_user v = b ∧ v_call v = Call_RespondFriendApply req ∧
    Respond_FromUserID req = a ∧ Respond_ToUserID req = b ∧ Respond_HandleResult req = FriendResponseAgree.

Lemma asked_app h h' a b : asked h a b → asked (h ++ h') a b.
Proof. intros (v & req & Hv & ?). exists v, req. split; [apply elem_of_app; by left|done]. Qed.
Lemma agreed_app h h' a b : agreed h a b → agreed (h ++ h') a b.
Proof. intros (h1 & v & h2 & req & -> & ?). exists h1, v, (h2 ++ h'), req. by rewrite <-app_assoc. Qed.

Section FriendTheorems.
Context `{FriendEngineLaws} `{!TagSucceeds FC} `{ToolsLaws} `{MsgToolsLaws} `{DistinctToolsLaws}
  `{Services FriendEffect} `{FriendWebhook}.
Abbreviation W := (FriendWorld (list FriendEffect)).
Context (config : FriendConfig).
Context (StructToJsonString : FriendTips → string) (Marshal_elem : string → string + error).
Context (answers : list FriendEffect → FriendEffect → option error).
Implicit Types (w : W) (rs : FriendRows).

Abbreviation the_rows w := (friend_rows (fw_tables w)).
Definition visitor (v : friend_visit) : friend_caller := caller_of config (v_now v) (v_operation v) (v_user v).
Definition visit (v : friend_visit) : M W () :=
  friend_handle config (v_now v) (v_operation v) (v_user v) StructToJsonString Marshal_elem answers (v_call v).

(** A sequence of calls, each made whatever became of the others. *)
Definition serve_friends (vs : list friend_visit) w : W := foldl (λ w v, (visit v w).2) w vs.

(** An import whose transaction the database does not carry out. *)
Definition loses_import (v : friend_visit) w : Prop :=
  import_lost config (v_now v) (v_operation v) (v_user v) (v_call v) w.

Lemma visit_done v w r w' : Agrees w → visit v w = (r, w') →
  Agrees w' ∧ ((r = Ok () ∧ friend_step (visitor v) (the_rows w) (v_call v) (the_rows w')) ∨
               (((∃ e, r = Err e) ∨ (r = Ok () ∧ loses_import v w)) ∧ the_rows w' = the_rows w)).
Proof.
  intros Ha E. pose proof (wp_friend_handle config (v_now v) (v_operation v) (v_user v) StructToJsonString
    Marshal_elem answers (v_call v) (the_rows w) w (conj Ha eq_refl)) as Hw.
  unfold visit in E. rewrite wp_eq, E in Hw. cbn in Hw. destruct Hw as [(-> & ? & ?)|[(? & ? & ?)|(-> & [? ?] & ?)]]; auto 10.
Qed.

(** C4: where a key is deleted from the cache within five attempts and the cached
    lists of ids agree with the tables, each call of the friend service either
    succeeds with a step of the specification, made by a caller who may make it, or
    fails and changes no row; a success that is no step is an import by a manager
    whose transaction the database refused or failed to carry out, and changes no
    row.  The cached lists agree with the tables afterwards. *)
Theorem friend_service_refines v w r w' : Agrees w → visit v w = (r, w') →
  Agrees w' ∧ ((r = Ok () ∧ friend_step (visitor v) (the_rows w) (v_call v) (the_rows w')) ∨
               (((∃ e, r = Err e) ∨ (r = Ok () ∧ loses_import v w)) ∧ the_rows w' = the_rows w)).
Proof. apply visit_done. Qed.

Lemma visit_spec v w : Agrees w → Agrees (visit v w).2 ∧
  (friend_step (visitor v) (the_rows w) (v_call v) (the_rows (visit v w).2) ∨ the_rows (visit v w).2 = the_rows w).
Proof.
  intros Ha. destruct (visit v w) as [r w'] eqn:E. apply visit_done in E as (? & [[_ ?]|[_ ?]]); auto.
Qed.

(** What the steps keep, of the calls so far and the rows. *)
Lemma serve_friends_keeps (I : list friend_visit → FriendRows → Prop) vs w :
  (∀ h v rs, v ∈ vs → I h rs → I (h ++ [v]) rs) →
  (∀ h v rs rs', v ∈ vs → I h rs → friend_step (visitor v) rs (v_call v) rs' → I (h ++ [v]) rs') →
  Agrees w → I [] (the_rows w) → Agrees (serve_friends vs w) ∧ I vs (the_rows (serve_friends vs w)).
Proof.
  intros Hsame Hstep Ha HI. unfold serve_friends. induction vs as [|v vs IH] using rev_ind; [done|].
  rewrite foldl_app. cbn [foldl]. destruct IH as [Ha' HI'].
  - intros h v' rs Hv'. apply Hsame, elem_of_app. by left.
  - intros h v' rs rs' Hv'. apply Hstep, elem_of_app. by left.
  - assert (v ∈ vs ++ [v]) as Hv by (apply elem_of_app; right; by left).
    destruct (visit_spec v _ Ha') as [Ha2 [Hs|Heq]]; (split; [done|]).
    + by eapply Hstep.
    + rewrite Heq. by apply Hsame.
Qed.

(** Whoever calls, in whatever order, nobody becomes his own
    friend, no one asks himself, the results of requests are one of three, and rows stand under
    their keys. *)
Theorem friends_stay_typed vs w : Agrees w → friends_typed (the_rows w) → friends_typed (the_rows (serve_friends vs w)).
Proof.
  intros Ha Ht. apply (serve_friends_keeps (λ _, friends_typed)); [done| |done|done].
  intros h v rs rs' _. apply step_friends_typed.
Qed.

(** C8: starting from no friendship and no request, and with no manager
    among the callers, two users are friends only if one of them asked the other and the other
    agreed afterwards. *)
Theorem friends_by_consent vs w a b : Agrees w →
  fr_friends (the_rows w) = ∅ → fr_requests (the_rows w) = ∅ →
  (∀ v, v ∈ vs → v_user v ∉ Friend_Manager_UserID config) →
  is_Some (fr_friends (the_rows (serve_friends vs w)) !! (a, b)) → agreed vs a b ∨ agreed vs b a.
Proof.
  intros Ha Hf Hq Hman. set (I := λ h rs,
    (∀ a b, is_Some (fr_friends rs !! (a, b)) → agreed h a b ∨ agreed h b a) ∧
    (∀ a b, is_Some (fr_requests rs !! (a, b)) → asked h a b)).
  assert (I vs (the_rows (serve_friends vs w))) as HI; [|by apply HI].
  apply serve_friends_keeps; [..|done|].
  - intros h v rs _ [HIf HIq]. split; [|by eauto using asked_app]. intros x y [?|?]%HIf; eauto using agreed_app.
  - intros h v rs rs' Hv [HIf HIq] Hs. assert (∀ u, acts_for (visitor v) u → v_user v = u) as Hact.
    { intros u [Hm|?]; [|done]. cbn in Hm. apply bool_decide_eq_true in Hm. by apply Hman in Hm. }
    split; intros x y Hy.
    + destruct (fr_friends rs !! (x, y)) as [f|] eqn:Hn.
      { destruct (HIf x y); eauto using agreed_app. }
      destruct (step_new_friend _ _ _ _ _ _ Hs Hn Hy) as [(req & _ & Hm & _)|(req & Hcall & Hres & Hacts & (q & Hq' & _) & Hxy)].
      { cbn in Hm. apply bool_decide_eq_true in Hm. by apply Hman in Hm. }
      assert (agreed (h ++ [v]) (Respond_FromUserID req) (Respond_ToUserID req)) as Hagree.
      { exists h, v, [], req. split; [done|]. split; [apply HIq; by exists q|]. split; [by apply Hact|done]. }
      destruct Hxy as [[= -> ->]|[= -> ->]]; auto.
    + destruct (step_new_request _ _ _ _ _ _ Hs Hy) as [Hold|(req & Hcall & Hacts & -> & ->)]; [by apply asked_app, HIq|].
      exists v, req. split; [apply elem_of_app; right; by left|]. split; [by apply Hact|done].
  - split; intros x y; rewrite ?Hf, ?Hq, lookup_empty; by intros [].
Qed.

(** ** Importing *)

(** Importing friends of whom one is a friend already is a success
    that imports nobody: the rows found are inserted again, the transaction fails, and its error is
    not returned. *)
Theorem BecomeFriends_swallows c owner us w u : Agrees w → owner ∉ us → u ∈ us →
  is_Some (fr_friends (the_rows w) !! (owner, u)) ∨ is_Some (fr_friends (the_rows w) !! (u, owner)) →
  let run := BecomeFriends (fc_now c) (fc_operation c) owner us BecomeFriendByImport w in
  run.1 = Ok () ∧ the_rows run.2 = the_rows w.
Proof.
  intros Ha Hnot Hu Hs run. pose proof (wp_BecomeFriends c owner us _ w Hnot (conj Ha eq_refl)) as Hw.
  rewrite wp_eq in Hw. destruct Hw as (Hr & _ & [[Heq _]|(fs' & _ & [Hin _])]); [done|]. exfalso.
  destruct (Hin (owner, u)) as [Hn1 _]; [apply elem_of_imported_pairs; auto|].
  destruct (Hin (u, owner)) as [Hn2 _]; [apply elem_of_imported_pairs; auto|].
  rewrite Hn1, Hn2 in Hs. by destruct Hs as [[]|[]].
Qed.

(** ** Remarks *)

(** Setting an empty remark for one friend clears the remarks of
    all the friends of the user. *)
Theorem empty_remark_clears_all v req w w' u f : Agrees w → v_call v = Call_SetFriendRemark req →
  Remark_Remark req = "" → visit v w = (Ok (), w') →
  fr_friends (the_rows w) !! (Remark_OwnerUserID req, u) = Some f →
  fr_friends (the_rows w') !! (Remark_OwnerUserID req, u) = Some (set_Remark "" f).
Proof.
  intros Ha Hv Hr E Hf. apply visit_done in E as (_ & [[_ Hs]|[[[e He]|(_ & _ & req' & ? & Hi & _)] _]]); [|congruence|congruence|done].
  rewrite Hv in Hs. rewrite (step_remark_inv _ _ _ _ Hs). cbn [set_friends fr_friends]. unfold remarked.
  rewrite Hr, bool_decide_true, map_lookup_imap, Hf by done. cbn. by rewrite bool_decide_true.
Qed.

(** ** Queries *)

(** After any calls, the queries about a pair of users answer what
    the tables say, through the cache as without it, and change no row. *)
Theorem friend_queries_agree vs w a b : Agrees w → let w1 := serve_friends vs w in
  (∀ p w2, friendServer_IsFriend a b w1 = (Ok p, w2) →
     p = both_ways (fr_friends (the_rows w1)) a b ∧ the_rows w2 = the_rows w1) ∧
  (∀ p w2, friendServer_IsBlack a b w1 = (Ok p, w2) →
     p = both_ways (fr_blacks (the_rows w1)) a b ∧ the_rows w2 = the_rows w1).
Proof.
  intros Ha w1. destruct (serve_friends_keeps (λ _ _, True) vs w) as [Ha1 _]; try done. fold w1 in Ha1.
  split; intros p w2 E.
  - pose proof (wp_CheckIn a b w1 Ha1) as Hw. unfold friendServer_IsFriend in E. rewrite wp_eq, E in Hw.
    destruct Hw as [Hg ->]. by destruct (glimpses_Agrees _ _ Hg Ha1).
  - pose proof (wp_black_CheckIn a b w1 Ha1) as Hw. unfold friendServer_IsBlack in E. rewrite wp_eq, E in Hw.
    destruct Hw as [Hg ->]. by destruct (glimpses_Agrees _ _ Hg Ha1).
Qed.

(** ** The message service asks the friend service *)

(** The services of the message service, of which the friend service is this one. *)
Definition with_friends (w : W) (others : Services Effect) : Services Effect := {|
  svc_IsFriend a b _ := answer_of (friendServer_IsFriend a b w).1;
  svc_IsBlack a b _ := answer_of (friendServer_IsBlack a b w).1;
  svc_GetGroupsInfo := svc_GetGroupsInfo; svc_GetGroupMembersInfo := svc_GetGroupMembersInfo;
  svc_GetGroupMemberUserIDs := svc_GetGroupMemberUserIDs; svc_GetGroupInfoCache := svc_GetGroupInfoCache;
  svc_GetGroupMemberCache := svc_GetGroupMemberCache; svc_GetDesignateUsers := svc_GetDesignateUsers;
  svc_GetGlobalRecvMessageOpt := svc_GetGlobalRecvMessageOpt; svc_GetConversation := svc_GetConversation;
  svc_GetConversations := svc_GetConversations;
  svc_GetConversationsByConversationID := svc_GetConversationsByConversationID;
  svc_GetConversationIDs := svc_GetConversationIDs;
  svc_GetUserConversationIDsHash := svc_GetUserConversationIDsHash |}.

Lemma IsFriend_answer w a b p : Agrees w → answer_of (friendServer_IsFriend a b w).1 = inl p →
  p = both_ways (fr_friends (the_rows w)) a b.
Proof.
  intros Ha E%answer_ok. pose proof (wp_CheckIn a b w Ha) as Hw. unfold friendServer_IsFriend in E.
  rewrite wp_eq, E in Hw. by destruct Hw.
Qed.
Lemma IsBlack_answer w a b p : Agrees w → answer_of (friendServer_IsBlack a b w).1 = inl p →
  p = both_ways (fr_blacks (the_rows w)) a b.
Proof.
  intros Ha E%answer_ok. pose proof (wp_black_CheckIn a b w Ha) as Hw. unfold friendServer_IsBlack in E.
  rewrite wp_eq, E in Hw. by destruct Hw.
Qed.

Context (msg_config : MsgConfig) (Error : error → string).

(** A message between two users that the rules apply to. *)
Definition private_message (m : MsgData) : Prop :=
  SessionType m = SingleChatType ∧ Contain (SendID m) (Manager_UserID msg_config) = false ∧
  ¬ is_notification (ContentType m).

Lemma verified_friends w others now m h : Agrees w → private_message m →
  (messageVerification (H1:=with_friends w others) msg_config now Error m h).1 = Ok () →
  fr_blacks (the_rows w) !! (RecvID m, SendID m) = None ∧
  (FriendVerify msg_config = Some true → is_Some (fr_friends (the_rows w) !! (RecvID m, SendID m))).
Proof.
  intros Ha (Hs & Hman & Hnot) E.
  assert (allowed (H1:=with_friends w others) msg_config now h m) as [Hsingle _].
  { assert (wp (messageVerification (H1:=with_friends w others) msg_config now Error m)
      (λ r _, r = Ok () → allowed (H1:=with_friends w others) msg_config now h m) h) as Hw
      by (apply wp_verification; auto; discriminate).
    rewrite wp_eq in Hw. auto. }
  destruct (Hsingle Hs) as [Hm|[[? _]|[[b Hb] Hf]]]; [unfold is_manager in Hm; congruence|done|].
  cbn in Hb. apply IsBlack_answer in Hb; [|done]. injection Hb as _ Hb. symmetry in Hb. apply bool_decide_eq_false in Hb.
  split; [by apply eq_None_not_Some|]. intros Hv. destruct Hf as [?|[_ [b' Hb']]]; [congruence|].
  cbn in Hb'. apply IsFriend_answer in Hb'; [|done]. injection Hb' as Hb' _. symmetry in Hb'.
  by apply bool_decide_eq_true in Hb'.
Qed.

(** A message between users that the message service accepts, with
    this friend service to ask after any calls, is one whose receiver does not have the sender on his
    blacklist and, where only friends may write, has the sender for a friend. *)
Theorem accepted_by_friends vs w others now m h : Agrees w → private_message m →
  let w' := serve_friends vs w in
  (messageVerification (H1:=with_friends w' others) msg_config now Error m h).1 = Ok () →
  fr_blacks (the_rows w') !! (RecvID m, SendID m) = None ∧
  (FriendVerify msg_config = Some true → is_Some (fr_friends (the_rows w') !! (RecvID m, SendID m))).
Proof.
  intros Ha Hm w' E. destruct (serve_friends_keeps (λ _ _, True) vs w) as [Ha' _]; try done.
  by eapply verified_friends.
Qed.

(** C11: where a key is deleted from the cache within five attempts and the cached
    lists agree with the tables at first, once a user has put another on his
    blacklist, the message service lets no private message of that other pass to him,
    until the user, or a manager, takes him off it: no other call of anybody changes
    that. *)
Theorem blocked_stay_silent v req vs w w1 others now m h : Agrees w →
  v_call v = Call_AddBlack req → visit v w = (Ok (), w1) →
  (∀ v' req', v' ∈ vs → v_call v' = Call_RemoveBlack req' → acts_for (visitor v') (AddB_OwnerUserID req) →
     RemB_OwnerUserID req' = AddB_OwnerUserID req → RemB_BlackUserID req' ≠ AddB_BlackUserID req) →
  private_message m → SendID m = AddB_BlackUserID req → RecvID m = AddB_OwnerUserID req →
  (messageVerification (H1:=with_friends (serve_friends vs w1) others) msg_config now Error m h).1 ≠ Ok ().
Proof.
  intros Ha Hcall E Hvs Hm Hsend Hrecv Hok.
  apply visit_done in E as (Ha1 & [[_ Hs]|[[[e He]|(_ & _ & req' & ? & Hi & _)] _]]); [|congruence|congruence|done].
  rewrite Hcall in Hs. apply step_add_black_inv in Hs.
  set (I := λ (_ : list friend_visit) rs, is_Some (fr_blacks rs !! (AddB_OwnerUserID req, AddB_BlackUserID req))).
  destruct (serve_friends_keeps I vs w1) as [Ha2 HI]; [done| |done|done|].
  - intros h' v' rs rs' Hv' HI Hstep. destruct (step_unblocked _ _ _ _ _ _ Hstep HI) as [?|(req' & Hc & Hacts & Ho & Hb)]; [done|].
    exfalso. by apply (Hvs v' req').
  - apply (verified_friends _ _ _ _ _ Ha2 Hm) in Hok as [Hn _]. rewrite Hsend, Hrecv in Hn. unfold I in HI.
    rewrite Hn in HI. by destruct HI.
Qed.
End FriendTheorems.
