(* ===== verification/FriendSamples.v ===== *)
(** * Sample runs of the friend service

    On the stores in memory: the witnesses of the theorems of FriendTheorems.v. *)

From S2P Require Import Prelude.
From S2P Require Import Constants.
From S2P Require Import MsgTypes.
From S2P Require Import MsgProcessor.
From S2P Require Import Tools.
From S2P Require Import Notification.
From S2P Require Import RpcClient.
From S2P Require Import Auth.
From S2P Require Import MsgServer.
From S2P Require Import SendProofs.
From S2P Require Import MsgServerSamples.
From S2P Require Import FriendTypes.
From S2P Require Import Sql.
From S2P Require Import RowCache.
From S2P Require Import RowCoherence.
From S2P Require Import GroupMemory.
From S2P Require Import FriendStore.
From S2P Require Import FriendDatabase.
From S2P Require Import FriendServer.
From S2P Require Import FriendSpec.
From S2P Require Import FriendProofs.
From S2P Require Import FriendRefinement.
From S2P Require Import FriendTheorems.
From stdpp Require Import options.

#[local] Open Scope Z_scope.

Definition friend_code (f : FriendModel) : positive :=
  let '(mkFriendModel o u remark t source op ex) := f in
  encode [encode o; encode u; encode remark; encode t; encode source; encode op; encode ex].
Definition friend_decode (p : positive) : option FriendModel :=
  l ← decode p;
  match l with
  | [o; u; remark; t; source; op; ex] =>
      o ← decode o; u ← decode u; remark ← decode remark; t ← decode t; source ← decode source;
      op ← decode op; ex ← decode ex; Some (mkFriendModel o u remark t source op ex)
  | _ => None
  end.

Definition mem_friends : FriendEngine := {|
  friends_table := mem_table friend_key;
  friend_requests_table := mem_table friend_request_key;
  blacks_table := mem_table black_key;
  friend_cache := mem_rocks;
  json_friend := code_json friend_code friend_decode;
  json_friend_ids := code_json encode decode;
  friend_Begin _ _ _ := None;
  friend_Commit _ _ _ := None;
  take_two_values _ _ _ := inr (Bare (ErrExternal 1210)) |}.

#[local] Existing Instance mem_friends.
Lemma mem_friends_laws : FriendEngineLaws.
Proof.
  split; try done; try apply mem_table_laws.
  - apply mem_rocks_laws.
  - apply code_json_laws, decode_encode.
Qed.
Lemma mem_friends_tags : TagSucceeds FC.
Proof. apply mem_rocks_tags. Qed.

(** The first element for each value. *)
Definition model_distinct : DistinctTools := {|
  DistinctAny A K _ l f := foldr (λ x acc, if bool_decide (f x ∈ f <$> acc) then acc else x :: acc) [] l |}.
#[local] Existing Instance model_distinct.
Lemma model_distinct_laws : DistinctToolsLaws.
Proof.
  split; intros A K ? l f; cbn.
  - intros x. induction l as [|y l IH]; cbn; [done|]. case_bool_decide; rewrite !elem_of_cons; naive_solver.
  - intros k. induction l as [|y l IH]; cbn; [done|]. case_bool_decide as Hy; cbn; rewrite !elem_of_cons, IH in *; [|done].
    split; [by right|]. intros [->|?]; [by apply IH in Hy|done].
  - induction l as [|y l IH]; cbn; [constructor|]. case_bool_decide; [done|]. cbn. by constructor.
Qed.

#[local] Existing Instances model_tools model_tools_laws model_msg_tools model_msg_tools_laws
  sample_services mem_friends_laws mem_friends_tags model_distinct_laws.

Definition silent_friend_webhook : FriendWebhook := {| webhook_add_friend _ _ := inr (Bare ErrCallbackContinue) |}.
#[local] Existing Instance silent_friend_webhook.

Definition friend_config : FriendConfig :=
  mkFriendConfig ["admin"] true (uniform_notification NotificationConf_zero).
Definition friend_text (_ : FriendTips) : string := "{}".
Definition friend_elem (_ : string) : string + error := inl "{}".
Definition friend_answer (_ : list FriendEffect) (_ : FriendEffect) : option error := None.

Definition no_friends : FriendWorld (list FriendEffect) :=
  mkFriendWorld (mkFriendTables (H:=mem_friends) (∅ : gmap (string * string) FriendModel)
    (∅ : gmap (string * string) FriendRequestModel) (∅ : gmap (string * string) BlackModel)) (∅ : gmap string string) [].
Lemma no_friends_agree : Agrees no_friends.
Proof. intros k s Hs. vm_compute in Hs. discriminate Hs. Qed.

Abbreviation a_visit := (visit friend_config friend_text friend_elem friend_answer).
Abbreviation visits := (serve_friends friend_config friend_text friend_elem friend_answer).

(** Alice asks Bob, who agrees; later he puts her on his blacklist. *)
Definition alice_asks : friend_visit := mkVisit 100 "op1" "alice" (Call_ApplyToAddFriend (mkApplyReq "alice" "bob" "hello" "")).
Definition bob_agrees : friend_visit := mkVisit 200 "op2" "bob" (Call_RespondFriendApply (mkRespondReq "alice" "bob" 1 "welcome")).
Definition bob_remarks (remark : string) : friend_visit :=
  mkVisit 300 "op3" "bob" (Call_SetFriendRemark (mkRemarkReq "bob" "alice" remark)).
Definition bob_blocks : friend_visit := mkVisit 400 "op4" "bob" (Call_AddBlack (mkAddBlackReq "bob" "alice")).
Definition admin_imports (us : list string) : friend_visit :=
  mkVisit 500 "op5" "admin" (Call_ImportFriends (mkImportReq "bob" us)).

Definition befriended_world := visits [alice_asks; bob_agrees; bob_remarks "al"] no_friends.
Abbreviation rows_in w := (friend_rows (fw_tables w)).

Lemma ran_visit v w r : (a_visit v w).1 = r → a_visit v w = (r, (a_visit v w).2).
Proof. intros <-. by destruct (a_visit v w). Qed.
Lemma serve_agree vs : Agrees (visits vs no_friends).
Proof. by apply (serve_friends_keeps _ _ _ _ (λ _ _, True)). Qed.

Lemma friend_service_refines_witness :
  let w := visits [alice_asks] no_friends in
  let w' := (a_visit bob_agrees w).2 in
  fr_friends (rows_in w) = ∅ ∧ mutual (fr_friends (rows_in w')) "alice" "bob" ∧
  friend_step (visitor friend_config bob_agrees) (rows_in w) (v_call bob_agrees) (rows_in w').
Proof.
  intros w w'. split; [vm_compute; reflexivity|]. split; [split; vm_compute; eexists; reflexivity|].
  assert ((a_visit bob_agrees w).1 = Ok ()) as E by (vm_compute; reflexivity). apply ran_visit in E.
  change (a_visit bob_agrees w = (Ok (), w')) in E.
  destruct (friend_service_refines _ _ _ _ _ _ _ _ (serve_agree [alice_asks]) E)
    as (_ & [[_ Hs]|[[[e He]|(_ & _ & req & w1 & Hi & _)] _]]); [exact Hs|discriminate He|discriminate Hi].
Defined.

Lemma friends_stay_typed_witness : friends_typed (rows_in befriended_world).
Proof.
  apply (friends_stay_typed friend_config friend_text friend_elem friend_answer); [apply no_friends_agree|].
  split; [by intros a; vm_compute..| |split]; intros k r Hr; vm_compute in Hr; discriminate Hr.
Defined.

Lemma friends_by_consent_witness :
  let vs := [alice_asks; bob_agrees; bob_remarks "al"] in agreed vs "alice" "bob" ∨ agreed vs "bob" "alice".
Proof.
  intros vs. apply (friends_by_consent friend_config friend_text friend_elem friend_answer vs no_friends).
  - apply no_friends_agree.
  - vm_compute. reflexivity.
  - vm_compute. reflexivity.
  - intros v Hv. repeat (apply elem_of_cons in Hv as [->|Hv]; [vm_compute; intros [=]%list_elem_of_singleton|]).
    by apply elem_of_nil in Hv.
  - vm_compute. eexists. reflexivity.
Defined.

Definition admin_caller : friend_caller := mkFriendCaller "admin" true 500 "op5".

(** Carol is not imported, since Alice is a friend of Bob's already. *)
Lemma BecomeFriends_swallows_witness :
  let run := BecomeFriends 500 "op5" "bob" ["carol"; "alice"] BecomeFriendByImport befriended_world in
  run.1 = Ok () ∧ rows_in run.2 = rows_in befriended_world ∧ fr_friends (rows_in run.2) !! ("bob", "carol") = None.
Proof.
  intros run. destruct (BecomeFriends_swallows admin_caller "bob" ["carol"; "alice"] befriended_world "alice") as [Hr Hs].
  - apply serve_agree.
  - rewrite !not_elem_of_cons. split; [done|]. split; [done|]. apply not_elem_of_nil.
  - right. left.
  - left. vm_compute. eexists. reflexivity.
  - split; [exact Hr|]. split; [exact Hs|]. vm_compute. reflexivity.
Defined.

(** Bob has two friends with remarks; he empties one. *)
Definition two_friends := visits [admin_imports ["alice"; "carol"]; bob_remarks "al";
  mkVisit 310 "op3" "bob" (Call_SetFriendRemark (mkRemarkReq "bob" "carol" "ca"))] no_friends.

Lemma empty_remark_clears_all_witness :
  let w' := (a_visit (bob_remarks "") two_friends).2 in
  (Friend_Remark <$> fr_friends (rows_in two_friends) !! ("bob", "carol")) = Some "ca" ∧
  (Friend_Remark <$> fr_friends (rows_in w') !! ("bob", "carol")) = Some "".
Proof.
  intros w'. split; [vm_compute; reflexivity|].
  assert ((a_visit (bob_remarks "") two_friends).1 = Ok ()) as E by (vm_compute; reflexivity). apply ran_visit in E.
  change (a_visit (bob_remarks "") two_friends = (Ok (), w')) in E.
  destruct (fr_friends (rows_in two_friends) !! ("bob", "carol")) as [f|] eqn:Hf; [|vm_compute in Hf; discriminate Hf].
  pose proof (empty_remark_clears_all friend_config friend_text friend_elem friend_answer (bob_remarks "")
    (mkRemarkReq "bob" "alice" "") two_friends w' "carol" f (serve_agree _) eq_refl eq_refl E Hf) as Hc.
  change (fr_friends (rows_in w') !! ("bob", "carol") = Some (set_Remark "" f)) in Hc. rewrite Hc. by destruct f.
Defined.

Lemma friend_queries_agree_witness :
  (friendServer_IsFriend "alice" "bob" befriended_world).1 = Ok (true, true) ∧
  both_ways (fr_friends (rows_in befriended_world)) "alice" "bob" = (true, true).
Proof.
  destruct (friend_queries_agree friend_config friend_text friend_elem friend_answer
    [alice_asks; bob_agrees; bob_remarks "al"] no_friends "alice" "bob" no_friends_agree) as [Hf _].
  assert ((friendServer_IsFriend "alice" "bob" befriended_world).1 = Ok (true, true)) as E by (vm_compute; reflexivity).
  split; [exact E|]. destruct (friendServer_IsFriend "alice" "bob" befriended_world) as [r w2] eqn:Er. cbn in E. subst r.
  symmetry. by apply (Hf (true, true) w2).
Defined.

(** Only friends may write. *)
Definition friends_only : MsgConfig := mkMsgConfig ["admin"] true true (Some true) false false false false false
  (uniform_notification NotificationConf_zero).
Definition alice_writes : MsgData := sample_chat SingleChatType "alice" "bob".
Definition error_text (_ : error) : string := "".

Lemma alice_writes_privately : private_message friends_only alice_writes.
Proof. split; [reflexivity|]. split; [reflexivity|]. intros [H _]. vm_compute in H. by apply H. Qed.

Lemma accepted_by_friends_witness :
  (messageVerification (H1:=with_friends befriended_world sample_services) friends_only 0 error_text alice_writes []).1 = Ok () ∧
  is_Some (fr_friends (rows_in befriended_world) !! ("bob", "alice")).
Proof.
  assert ((messageVerification (H1:=with_friends befriended_world sample_services) friends_only 0 error_text
    alice_writes []).1 = Ok ()) as E by (vm_compute; reflexivity). split; [exact E|].
  eapply (accepted_by_friends friend_config friend_text friend_elem friend_answer friends_only error_text _ no_friends
    sample_services 0 alice_writes []); [apply no_friends_agree|apply alice_writes_privately|exact E|reflexivity].
Defined.

Lemma blocked_stay_silent_witness :
  (messageVerification (H1:=with_friends (visits [alice_asks] (a_visit bob_blocks befriended_world).2) sample_services)
     friends_only 0 error_text alice_writes []).1 ≠ Ok ().
Proof.
  eapply (blocked_stay_silent friend_config friend_text friend_elem friend_answer friends_only error_text bob_blocks
    (mkAddBlackReq "bob" "alice") [alice_asks] befriended_world); [apply serve_agree|reflexivity| | |
    apply alice_writes_privately|reflexivity|reflexivity].
  - apply ran_visit. vm_compute. reflexivity.
  - intros v req ->%list_elem_of_singleton [=].
Defined.

(** ** What the theorems do not promise *)

(** A cache that refuses to delete a key. *)
Definition stubborn_rocks : Rocks (gmap string string) := {|
  cache_view c := c;
  rc_Lookup k c := (inl (c !! k), c);
  rc_Store k v c := (inl (), <[k := v]> c);
  rc_TagAsDeleted _ c := (inr (Bare (ErrExternal 6379)), c) |}.

Lemma stubborn_rocks_laws : @RocksLaws _ stubborn_rocks.
Proof.
  split; cbn; try done.
  - by intros k c v c' [= ? <-].
Qed.

Definition stubborn_friends : FriendEngine := {|
  friends_table := mem_table friend_key;
  friend_requests_table := mem_table friend_request_key;
  blacks_table := mem_table black_key;
  friend_cache := stubborn_rocks;
  json_friend := code_json friend_code friend_decode;
  json_friend_ids := code_json encode decode;
  friend_Begin _ _ _ := None;
  friend_Commit _ _ _ := None;
  take_two_values _ _ _ := inr (Bare (ErrExternal 1210)) |}.

Section Stubborn.
#[local] Existing Instance stubborn_friends.

Definition nobody_blocked : FriendWorld (list FriendEffect) :=
  mkFriendWorld (mkFriendTables (H:=stubborn_friends) (∅ : gmap (string * string) FriendModel)
    (∅ : gmap (string * string) FriendRequestModel) (∅ : gmap (string * string) BlackModel)) (∅ : gmap string string) [].

(** Bob's blacklist is read, and cached, before he puts Alice on it.  None of the
    five deletions of the key succeeds, the call answers a success, the row is
    there, and Alice's message passes. *)
Lemma block_without_effect :
  let w := (friendServer_IsBlack "alice" "bob" nobody_blocked).2 in
  let run := a_visit bob_blocks w in
  run.1 = Ok () ∧ is_Some (fr_blacks (rows_in run.2) !! ("bob", "alice")) ∧
  (messageVerification (H1:=with_friends run.2 sample_services)
     (mkMsgConfig ["admin"] true true (Some false) false false false false false (uniform_notification NotificationConf_zero))
     0 error_text alice_writes []).1 = Ok ().
Proof. intros w run. split; [vm_compute; reflexivity|]. split; [vm_compute; by eexists|vm_compute; reflexivity]. Qed.
End Stubborn.
