(* ===== verification/UserTypes.v ===== *)
(** * Data of the user service

    The row of a user (pkg/common/db/table/relation/user.go), the online status
    kept in Redis, the requests with the checks they pass before they reach a
    handler (pkg/protocol/user), the conversions of pkg/common/convert/user.go and
    the contents of the notifications.  Times are milliseconds. *)

From S2P Require Import Prelude.
From S2P Require Import Constants.
From S2P Require Import Notification.
From S2P Require Import GroupTypes.
From S2P Require Import FriendTypes.
From stdpp Require Import options.

#[local] Open Scope Z_scope.

(** ** Rows *)

Record UserModel := mkUserModel {
  User_UserID : string; User_Nickname : string; User_FaceURL : string; User_Ex : string;
  User_CreateTime : Z; User_AppMangerLevel : Z; User_GlobalRecvMsgOpt : Z }.

#[export] Instance UserModel_eq_dec : EqDecision UserModel.
Proof. solve_decision. Defined.

(** What an insertion makes of a row: the creation time where none is given, and
    the default of the column [app_manger_level] in place of zero. *)
Definition auto_user (now : Z) (u : UserModel) : UserModel :=
  let '(mkUserModel id name face ex t level opt) := u in
  mkUserModel id name face ex (auto_time now t) (if level =? 0 then 1 else level) opt.

(** [Updates] by a row: its columns that are not zero. *)
Definition update_user (new old : UserModel) : UserModel :=
  {| User_UserID := User_UserID old;
     User_Nickname := nonzero_str (User_Nickname new) (User_Nickname old);
     User_FaceURL := nonzero_str (User_FaceURL new) (User_FaceURL old);
     User_Ex := nonzero_str (User_Ex new) (User_Ex old);
     User_CreateTime := nonzero_time (User_CreateTime new) (User_CreateTime old);
     User_AppMangerLevel := nonzero_int (User_AppMangerLevel new) (User_AppMangerLevel old);
     User_GlobalRecvMsgOpt := nonzero_int (User_GlobalRecvMsgOpt new) (User_GlobalRecvMsgOpt old) |}.

(** The columns a user is updated by. *)
Inductive user_column := col_global_recv_msg_opt (v : Z).

Definition set_user_column (u : UserModel) (c : user_column) : UserModel :=
  let '(mkUserModel id name face ex t level _) := u in
  match c with col_global_recv_msg_opt v => mkUserModel id name face ex t level v end.
Definition set_user_columns (cs : list user_column) (u : UserModel) : UserModel := foldl set_user_column u cs.

Lemma user_key_auto now u : User_UserID (auto_user now u) = User_UserID u.
Proof. by destruct u. Qed.
Lemma user_key_columns cs u : User_UserID (set_user_columns cs u) = User_UserID u.
Proof.
  unfold set_user_columns. revert u. induction cs as [|c cs IH]; intros u; [done|]. cbn. rewrite IH. by destruct u, c.
Qed.

(** ** Online status *)

Record OnlineStatus := mkOnlineStatus { OS_UserID : string; OS_Status : Z; OS_PlatformIDs : list Z }.
(** The zero value of the struct. *)
Definition OnlineStatus_zero : OnlineStatus := mkOnlineStatus "" 0 [].

(** ** Conversions (pkg/common/convert/user.go) *)

Definition UserDB2Pb (user : UserModel) : UserInfo :=
  {| UI_UserID := User_UserID user; UI_Nickname := User_Nickname user; UI_FaceURL := User_FaceURL user;
     UI_Ex := User_Ex user; UI_CreateTime := User_CreateTime user;
     UI_AppMangerLevel := User_AppMangerLevel user; UI_GlobalRecvMsgOpt := User_GlobalRecvMsgOpt user |}.
Definition UsersDB2Pb (users : list UserModel) : list UserInfo :=
  foldl (λ result user, result ++ [UserDB2Pb user]) [] users.
Definition UserPb2DB (user : UserInfo) : UserModel :=
  {| User_UserID := UI_UserID user; User_Nickname := UI_Nickname user; User_FaceURL := UI_FaceURL user;
     User_Ex := UI_Ex user; User_CreateTime := UI_CreateTime user;
     User_AppMangerLevel := UI_AppMangerLevel user; User_GlobalRecvMsgOpt := UI_GlobalRecvMsgOpt user |}.

Lemma UserPb2DB_UserDB2Pb u : UserPb2DB (UserDB2Pb u) = u.
Proof. by destruct u. Qed.
Lemma UsersDB2Pb_map us : UsersDB2Pb us = UserDB2Pb <$> us.
Proof.
  unfold UsersDB2Pb. induction us as [|u us IH] using rev_ind; [done|].
  by rewrite foldl_app, IH, fmap_app.
Qed.

(** ** Requests *)

Record UserRegisterReq := mkUserRegisterReq { Reg_Secret : string; Reg_Users : list UserInfo }.
Record SetGlobalRecvMessageOptReq := mkSetGlobalReq { SetG_UserID : string; SetG_GlobalRecvMsgOpt : Z }.
Record SetUserStatusReq := mkSetUserStatusReq {
  SetS_UserID : string; SetS_Status : Z; SetS_PlatformID : Z }.
Record SubscribeOrCancelUsersStatusReq := mkSubscribeReq {
  Sub_UserID : string; Sub_UserIDs : list string; Sub_Genre : Z }.
Record AccountCheckRespSingleUserStatus := mkAccountStatus { AC_UserID : string; AC_AccountStatus : string }.
Record UserRegisterCountResp := mkRegisterCount {
  URC_Total : Z; URC_Before : Z; URC_Count : gmap string Z }.

Definition MaxUsersStatusList : Z := 500.

(** A slice that is nil; what arrives empty is nil. *)
Abbreviation is_nil l := (bool_decide (l = [])).

Definition GetAllUserIDReq_Check (pagination : option RequestPagination) : () + error := check_page pagination.
Definition AccountCheckReq_Check (CheckUserIDs : list string) : () + error :=
  check (is_nil CheckUserIDs) "CheckUserIDs is empty" (inl ()).
Definition GetDesignateUsersReq_Check (UserIDs : list string) : () + error :=
  check (is_nil UserIDs) "UserIDs is empty" (inl ()).
Definition UpdateUserInfoReq_Check (userInfo : option UserInfo) : () + error :=
  match userInfo with
  | None => inr (Bare (ErrText "UserInfo is empty"))
  | Some u => nonblank (UI_UserID u) "UserID is empty" (inl ())
  end.
Definition SetGlobalRecvMessageOptReq_Check (x : SetGlobalRecvMessageOptReq) : () + error :=
  check ((2 <? SetG_GlobalRecvMsgOpt x) || (SetG_GlobalRecvMsgOpt x <? 0)) "GlobalRecvMsgOpt is invalid" (
  nonblank (SetG_UserID x) "UserID is empty" (inl ())).
Definition GetPaginationUsersReq_Check (pagination : option RequestPagination) : () + error :=
  check_page pagination.
Definition UserRegisterReq_Check (x : UserRegisterReq) : () + error :=
  check (is_nil (Reg_Users x)) "Users is empty" (inl ()).
Definition GetGlobalRecvMessageOptReq_Check (UserID : string) : () + error :=
  nonblank UserID "UserID is empty" (inl ()).
Definition UserRegisterCountReq_Check (Start End_ : Z) : () + error :=
  check (Start <=? 0) "start is invalid" (check (End_ <=? 0) "end is invalid" (inl ())).
Definition SubscribeOrCancelUsersStatusReq_Check (x : SubscribeOrCancelUsersStatusReq) : () + error :=
  nonblank (Sub_UserID x) "UserID is empty" (
  check (is_nil (Sub_UserIDs x)) "subscription User-list is empty" (
  check ((Sub_Genre x <=? 0) || (3 <=? Sub_Genre x)) "invalid subscription type parameter" (inl ()))).
Definition GetUserStatusReq_Check (UserID : string) (UserIDs : list string) : () + error :=
  nonblank UserID "UserID is empty" (
  check (is_nil UserIDs) "user-list is empty" (
  check (MaxUsersStatusList <? len UserIDs) "user-list is Limit Exceeded" (inl ()))).

(** ** Notifications *)

(** [UserInfoUpdatedTips] and [UserStatusChangeTips] of pkg/protocol/sdkws. *)
Inductive UserTips :=
  | UserInfoUpdatedTips (UserID : string)
  | UserStatusChangeTips (FromUserID ToUserID : string) (Status PlatformID : Z).
