(* ===== verification/UserStore.v ===== *)
(** * Storage of users (pkg/common/db/relation, pkg/common/db/unrelation)

    The table of users in MySQL and the collection of subscriptions in MongoDB,
    whose documents are lists of ids.  [UserEngine] bundles the interfaces of the
    stores, [UserWorld] is their state with what the service asked of the others.
    The file has the statements of [user_model.go] and the driver of
    unrelation/[user.go]. *)

From S2P Require Import Prelude.
From S2P Require Import Constants.
From S2P Require Import GroupTypes.
From S2P Require Import FriendTypes.
From S2P Require Import Redis.
From S2P Require Import Sql.
From S2P Require Import RowCache.
From S2P Require Import RowCoherence.
From S2P Require Import GroupStore.
From S2P Require Import UserTypes.
From stdpp Require Import options.
#[local] Set Default Proof Using "Type*".

#[local] Open Scope Z_scope.

Class UserEngine := {
  UT : Type; UC : Type; UD : Type; UR : Type;
  users_table :: Table UT string UserModel;
  user_row_cache :: Rocks UC;
  json_user :: Json UserModel;
  json_opt :: Json Z;
  json_online :: Json OnlineStatus;
  (** What [json.Unmarshal] leaves in the struct when it fails. *)
  online_partial : string → OnlineStatus;
  subscribe_docs :: SetDocs UD;
  (** The aggregation that counts the ids of a document, 0 without one; [$set] of the list. *)
  doc_Count : string → UD → Z + error;
  doc_Set : string → list string → UD → (() + error) * UD;
  online_redis :: Redis UR;
  user_Begin : UT → option error;
  user_Commit : UT → option error;
  (** [DATE(create_time)], formatted. *)
  sql_DATE : Z → string;
}.

Class UserEngineLaws `{UserEngine} : Prop := {
  users_laws :: TableLaws UT string UserModel;
  users_key : table_key (T:=UT) = User_UserID;
  user_row_cache_laws :: RocksLaws UC;
  json_user_laws :: JsonLaws UserModel;
  json_online_laws :: JsonLaws OnlineStatus;
  subscribe_laws :: SetDocsLaws UD;
  FindOne_missing k (c : UD) e :
    doc_FindOne k c = inr e → Unwrap e = MongoNoDocuments → docs c !! k = None;
  Count_ok k c n : doc_Count k c = inl n → n = len (default [] (docs c !! k));
  (** [$addToSet] with [$each] adds each value once, unless it is there. *)
  AddToSet_length k xs (c c' : UD) : doc_AddToSet true k xs c = (inl (), c') →
    (length (default [] (docs c' !! k)) ≤ length (default [] (docs c !! k)) + length xs)%nat;
  AddToSet_nodup k xs (c c' : UD) : doc_AddToSet true k xs c = (inl (), c') →
    NoDup (default [] (docs c !! k)) → NoDup (default [] (docs c' !! k));
  Set_doc_ok k l c c' : doc_Set k l c = (inl (), c') → docs c' = alter (λ _, l) k (docs c);
  online_redis_laws :: RedisLaws UR;
}.

(** A deployment of MongoDB that answers. *)
Class DocsWork `{UserEngine} : Prop := {
  AddToSet_works k xs (c : UD) : (doc_AddToSet true k xs c).1 = inl ();
  PullOne_works ks xs (c : UD) : (doc_PullOne ks xs c).1 = inl ();
  Set_works k l c : (doc_Set k l c).1 = inl ();
  Count_works k c : ∃ n, doc_Count k c = inl n;
  FindOne_works k (c : UD) : (∃ l, doc_FindOne k c = inl l) ∨ doc_FindOne k c = inr (Bare MongoNoDocuments);
}.

Record UserWorld `{UserEngine} (E : Type) := mkUserWorld {
  uw_users : UT; uw_cache : UC; uw_subs : UD; uw_online : UR; uw_env : E }.
Arguments mkUserWorld {_ E} _ _ _ _ _.
Arguments uw_users {_ E} _.
Arguments uw_cache {_ E} _.
Arguments uw_subs {_ E} _.
Arguments uw_online {_ E} _.
Arguments uw_env {_ E} _.

Section Statements.
Context `{UserEngine}.

(** ** user_model.go *)

Definition has_user_id (userID : string) (u : UserModel) : bool := bool_decide (User_UserID u = userID).

Definition UserGorm_Create (now : Z) (users : list UserModel) : M UT () :=
  wrap_error (stmt (sql_Create (auto_user now <$> users))).
Definition UserGorm_UpdateByMap (userID : string) (args : list user_column) : M UT () :=
  wrap_error (_ ← stmt (sql_Updates (has_user_id userID) (set_user_columns args)); mret ()).
(** The row is told by its key, which is not empty. *)
Definition UserGorm_Update (user : UserModel) : M UT () :=
  wrap_error (_ ← stmt (sql_Updates (has_user_id (User_UserID user)) (update_user user)); mret ()).
Definition UserGorm_Find (userIDs : list string) : M UT (list UserModel) :=
  wrap_error (stmt (query (sql_Find (λ u, bool_decide (User_UserID u ∈ userIDs))))).
Definition UserGorm_Take (userID : string) : M UT UserModel :=
  wrap_error (stmt (query (sql_Take (has_user_id userID)))).

(** The offset is computed in 32 bits; the order is asked for after the rows are read. *)
Definition page_offset (pageNumber showNumber : Z) : Z := wrap32 (wrap32 (pageNumber - 1) * showNumber).
Definition UserGorm_Page (pageNumber showNumber : Z) : M UT (list UserModel * Z) :=
  all ← wrap_error (stmt (query (sql_Find (λ _, true))));
  users ← wrap_error (stmt (query (sql_Limit (λ _, true) showNumber (page_offset pageNumber showNumber))));
  mret (users, len all).
Definition UserGorm_GetAllUserID (pageNumber showNumber : Z) : M UT (list string) :=
  users ← wrap_error (stmt (query (
    if (pageNumber =? 0) || (showNumber =? 0) then sql_Find (λ _, true)
    else sql_Limit (λ _, true) showNumber (page_offset pageNumber showNumber))));
  mret (User_UserID <$> users).
(** No row leaves the variable at zero. *)
Definition UserGorm_GetUserGlobalRecvMsgOpt (userID : string) : M UT Z :=
  users ← stmt (query (sql_Find (has_user_id userID)));
  mret (default 0 (User_GlobalRecvMsgOpt <$> last users)).
Definition UserGorm_CountTotal (before : option Z) : M UT Z :=
  users ← stmt (query (sql_Find (λ u,
    match before with Some t => User_CreateTime u <? t | None => true end)));
  mret (len users).
(** The rows of each day, counted. *)
Definition count_days (users : list UserModel) : gmap string Z :=
  foldl (λ v u, partial_alter (λ n, Some (default 0 n + 1)) (sql_DATE (User_CreateTime u)) v) ∅ users.
Definition UserGorm_CountRangeEverydayTotal (start end_ : Z) : M UT (gmap string Z) :=
  users ← wrap_error (stmt (query (sql_Find (λ u, (start <=? User_CreateTime u) && (User_CreateTime u <? end_)))));
  mret (count_days users).

(** ** unrelation/user.go *)

Definition SubscriptionPrefix : string := "subscription_prefix".
Definition SubscribedPrefix : string := "subscribed_prefix".
Definition MaximumSubscription : Z := 3000.

Definition find_list (key : string) : M UD (list string) :=
  r ← try (stmt (query (doc_FindOne key)));
  match r with
  | inl l => mret l
  | inr err => if bool_decide (err = Bare MongoNoDocuments) then mret [] else fail (WrapErr "" err)
  end.
Definition UserMongo_GetAllSubscribeList (userID : string) : M UD (list string) :=
  find_list (SubscriptionPrefix +:+ userID).
Definition UserMongo_GetSubscribedList (userID : string) : M UD (list string) :=
  find_list (SubscribedPrefix +:+ userID).

(** [l[low:]] *)
Definition slice_from {W A} (low : Z) (l : list A) : M W (list A) :=
  if (low <? 0) || (len l <? low) then panic else mret (drop (Z.to_nat low) l).

Definition AddSubscriptionList (userID : string) (userIDList : list string) : M UD () :=
  count ← wrap_error (stmt (query (doc_Count (SubscriptionPrefix +:+ userID))));
  _ ← (if MaximumSubscription <? count + len userIDList then
         newUserIDList ← UserMongo_GetAllSubscribeList userID;
         newUserIDList ← slice_from (MaximumSubscription - len userIDList) newUserIDList;
         stmt (doc_Set (SubscriptionPrefix +:+ userID) newUserIDList)
       else mret ());
  _ ← wrap_error (stmt (doc_AddToSet true (SubscriptionPrefix +:+ userID) userIDList));
  for_each userIDList (λ user,
    r ← try (stmt (doc_AddToSet true (SubscribedPrefix +:+ user) [userID]));
    match r with inl _ => mret () | inr err => fail (WrapErr "transaction failed" err) end).

(** Only the last error counts. *)
Definition RemoveSubscribedListFromUser (userID : string) (userIDList : list string) : M UD () :=
  err ← fold_each userIDList None (λ _ userIDTemp,
    r ← try (stmt (doc_PullOne [SubscribedPrefix +:+ userIDTemp] [userID]));
    mret (match r with inl _ => None | inr err => Some err end));
  match err with Some err => fail (WrapErr "" err) | None => mret () end.

Definition UnsubscriptionList (userID : string) (userIDList : list string) : M UD () :=
  _ ← wrap_error (stmt (doc_PullOne [SubscriptionPrefix +:+ userID] userIDList));
  wrap_error (RemoveSubscribedListFromUser userID userIDList).

(** ** The world *)

Context {E : Type}.
Abbreviation W := (UserWorld E).

Definition put_users (t : UT) (w : W) : W := mkUserWorld t (uw_cache w) (uw_subs w) (uw_online w) (uw_env w).
Definition put_user_cache (c : UC) (w : W) : W := mkUserWorld (uw_users w) c (uw_subs w) (uw_online w) (uw_env w).
Definition put_subs (d : UD) (w : W) : W := mkUserWorld (uw_users w) (uw_cache w) d (uw_online w) (uw_env w).
Definition put_online (r : UR) (w : W) : W := mkUserWorld (uw_users w) (uw_cache w) (uw_subs w) r (uw_env w).
Definition put_user_env (e : E) (w : W) : W := mkUserWorld (uw_users w) (uw_cache w) (uw_subs w) (uw_online w) e.

#[export] Instance user_cached : Cached W UC UT :=
  {| world_cache := uw_cache; set_world_cache := put_user_cache; world_tables := uw_users |}.
#[export] Instance user_cached_laws : CachedLaws W UC UT.
Proof. by split; intros; try destruct w. Qed.

Definition on_users {A} (m : M UT A) : M W A := zoom uw_users put_users m.
Definition on_subs {A} (m : M UD A) : M W A := zoom uw_subs put_subs m.
Definition on_online {A} (m : M UR A) : M W A := zoom uw_online put_online m.
Definition on_user_env {A} (m : M E A) : M W A := zoom uw_env put_user_env m.

#[export] Instance read_only_on_online {A} (m : M UR A) : ReadOnly m → ReadOnly (on_online m).
Proof. intros Hm w. unfold on_online, zoom. specialize (Hm (uw_online w)). destruct (m _), w. cbn in *. by subst. Qed.
#[export] Instance read_only_on_subs {A} (m : M UD A) : ReadOnly m → ReadOnly (on_subs m).
Proof. intros Hm w. unfold on_subs, zoom. specialize (Hm (uw_subs w)). destruct (m _), w. cbn in *. by subst. Qed.
#[export] Instance read_only_find_list key : ReadOnly (find_list key).
Proof. unfold find_list. apply _. Qed.

(** A transaction whose body does not use it: its statements stay when the
    commit fails. *)
Definition beside_transaction {A} (m : M W A) : M W A := λ w,
  match user_Begin (uw_users w) with
  | Some e => (Err e, w)
  | None =>
      match m w with
      | (Ok a, w') => match user_Commit (uw_users w') with None => (Ok a, w') | Some e => (Err e, w') end
      | (r, w') => (r, w')
      end
  end.
End Statements.
