(* ===== verification/UserPresence.v ===== *)
(** * Who is online (pkg/common/db/cache/user.go)

    The platforms a user is connected on are a JSON text in a field of one of 501
    hashes of Redis, chosen by a checksum of the user's id.  The file has the two
    operations on them and shows that they implement a map from users to
    platforms. *)

From Stdlib Require Import Ascii.
From S2P Require Import Prelude.
From S2P Require Import Constants.
From S2P Require Import MsgProcessor.
From S2P Require Import MsgDoc.
From S2P Require Import Redis.
From S2P Require Import RowCache.
From S2P Require Import UserTypes.
From S2P Require Import UserStore.
From stdpp Require Import options.
#[local] Set Default Proof Using "Type*".

#[local] Open Scope Z_scope.

(** ** [crc32.ChecksumIEEE] *)

Definition crc_step (c : N) : N :=
  if N.odd c then N.lxor (N.shiftr c 1) 0xEDB88320 else N.shiftr c 1.
Definition crc_byte (c : N) (b : ascii) : N := Nat.iter 8 crc_step (N.lxor c (N_of_ascii b)).
Definition ChecksumIEEE (data : string) : N :=
  N.lxor (foldl crc_byte 0xFFFFFFFF%N (String.list_ascii_of_string data)) 0xFFFFFFFF.

Example checksum_of_digits : ChecksumIEEE "123456789" = 0xCBF43926%N.
Proof. vm_compute. reflexivity. Qed.

(** ** The operations *)

Definition olineStatusKey : string := "ONLINE_STATUS:".
Definition statusMod : N := 501.
Definition userOlineStatusExpireTime : Z := 86400.

(** The hash that a user's field is in. *)
Definition online_key (userID : string) : string :=
  olineStatusKey +:+ FormatInt (Z.of_N (ChecksumIEEE userID `mod` statusMod)).

(** The first occurrence of each element stays. *)
Definition RemoveRepeatedElementsInList {T} `{EqDecision T} (slc : list T) : list T :=
  foldl (λ result e, if bool_decide (e ∈ result) then result else result ++ [e]) [] slc.

Section Presence.
Context `{UserEngine}.

Definition offline_status (userID : string) : OnlineStatus := mkOnlineStatus userID Offline [].

Definition UserCache_GetUserStatus (userIDs : list string) : M UR (list OnlineStatus) :=
  fold_each userIDs [] (λ userStatus userID,
    r ← try (run (Redis_HGet (online_key userID) userID));
    match r with
    | inr err =>
        if bool_decide (Unwrap err = RedisNil) then mret (userStatus ++ [offline_status userID])
        else fail (WrapErr "" err)
    | inl result =>
        onlineStatus ← wrap_error (lift (Unmarshal result));
        mret (userStatus ++ [mkOnlineStatus userID Online (OS_PlatformIDs onlineStatus)])
    end).

(** [result]: the text of the field, [None] when there is none. *)
Definition refreshStatusOffline (userID : string) (platformID : Z) (result : option string) (key : string) :
    M UR () :=
  match result with
  | None => mret ()
  | Some result =>
      onlineStatus ← wrap_error (lift (Unmarshal result));
      let newPlatformIDs := filter (.≠ platformID) (OS_PlatformIDs onlineStatus) in
      if bool_decide (newPlatformIDs = []) then wrap_error (run (Redis_HDel key [userID]))
      else
        newjsonData ← wrap_error (lift (Marshal
          (mkOnlineStatus (OS_UserID onlineStatus) (OS_Status onlineStatus) newPlatformIDs)));
        wrap_error (run (Redis_HSet key [(userID, newjsonData)]))
  end.

(** The error of [Unmarshal] is not looked at. *)
Definition refreshStatusOnline (userID : string) (platformID : Z) (result : option string) (key : string) :
    M UR () :=
  let platformIDs := match result with
    | Some result =>
        let onlineStatus := match Unmarshal result with inl o => o | inr _ => online_partial result end in
        RemoveRepeatedElementsInList (OS_PlatformIDs onlineStatus ++ [platformID])
    | None => [platformID]
    end in
  newjsonData ← wrap_error (lift (Marshal (mkOnlineStatus userID Online platformIDs)));
  wrap_error (run (Redis_HSet key [(userID, newjsonData)])).

Definition UserCache_SetUserStatus (userID : string) (status platformID : Z) : M UR () :=
  let key := online_key userID in
  isNewKey ← wrap_error (run (Redis_Exists key));
  if (isNewKey =? 0) && (status =? Online) then
    jsonData ← wrap_error (lift (Marshal (mkOnlineStatus userID Online [platformID])));
    _ ← wrap_error (run (Redis_HSet key [(userID, jsonData)]));
    _ ← try (run (Redis_Expire key userOlineStatusExpireTime));
    mret ()
  else
    r ← try (run (Redis_HGet key userID));
    result ← match r with
      | inl result => mret (Some result)
      | inr err => if bool_decide (Unwrap err = RedisNil) then mret None else fail (WrapErr "" err)
      end;
    if status =? Offline then refreshStatusOffline userID platformID result key
    else wrap_error (refreshStatusOnline userID platformID result key).
End Presence.

(** ** The map they implement *)

Definition set_platforms (status platformID : Z) (l : list Z) : list Z :=
  if status =? Offline then filter (.≠ platformID) l
  else if bool_decide (platformID ∈ l) then l else l ++ [platformID].

(** What the service answers about a user on these platforms. *)
Definition status_of (userID : string) (l : list Z) : OnlineStatus :=
  if bool_decide (l = []) then offline_status userID else mkOnlineStatus userID Online l.

Lemma remove_repeated_NoDup (l : list Z) p : NoDup l →
  RemoveRepeatedElementsInList (l ++ [p]) = if bool_decide (p ∈ l) then l else l ++ [p].
Proof.
  intros Hl. assert (RemoveRepeatedElementsInList l = l) as Hid.
  { unfold RemoveRepeatedElementsInList. induction l as [|x l IH] using rev_ind; [done|].
    apply NoDup_app in Hl as (Hl & Hx & _). rewrite foldl_app, IH by done. cbn.
    rewrite bool_decide_false; [done|]. intros Hin. apply (Hx x Hin). by left. }
  unfold RemoveRepeatedElementsInList in *. by rewrite foldl_app, Hid.
Qed.

Lemma set_platforms_NoDup status p l : NoDup l → NoDup (set_platforms status p l).
Proof.
  intros Hl. unfold set_platforms. destruct (_ =? _); [by apply NoDup_filter|].
  case_bool_decide as Hp; [done|]. apply NoDup_app. split; [done|]. split; [|apply NoDup_singleton].
  by intros x Hx ->%list_elem_of_singleton.
Qed.

Section PresenceFacts.
Context `{UserEngineLaws}.
Implicit Types (r : UR) (P : string → list Z).

(** The fields of the hashes say where each user is. *)
Definition presence r P : Prop := ∀ u, NoDup (P u) ∧
  match hash_field r (online_key u) u with
  | None => P u = []
  | Some s => P u ≠ [] ∧ ∃ o, Unmarshal s = inl o ∧ OS_PlatformIDs o = P u
  end.

Definition moved (u : string) (status platformID : Z) P : string → list Z := λ v,
  if decide (v = u) then set_platforms status platformID (P u) else P v.

(** What is true of the texts is true of the platforms. *)
Lemma presence_field r P u s : presence r P → hash_field r (online_key u) u = Some s →
  P u ≠ [] ∧ ∃ o, Unmarshal s = inl o ∧ OS_PlatformIDs o = P u.
Proof. intros Hp Hs. destruct (Hp u) as [_ Hu]. by rewrite Hs in Hu. Qed.

Lemma presence_write r r' P u f l : presence r P → NoDup l →
  (∀ k' f', hash_field r' k' f' = if decide (k' = online_key u ∧ f' = u) then f else hash_field r k' f') →
  match f with None => l = [] | Some s => l ≠ [] ∧ ∃ o, Unmarshal s = inl o ∧ OS_PlatformIDs o = l end →
  presence r' (λ v, if decide (v = u) then l else P v).
Proof.
  intros Hp Hl Hf Hs v. rewrite Hf. destruct (decide (v = u)) as [->|Hv].
  - by rewrite decide_True.
  - rewrite decide_False by tauto. apply Hp.
Qed.

Lemma presence_same r r' P : presence r P → (∀ k' f', hash_field r' k' f' = hash_field r k' f') → presence r' P.
Proof. intros Hp Hf v. rewrite Hf. apply Hp. Qed.

Lemma presence_ext r P P' : presence r P → (∀ u, P u = P' u) → presence r P'.
Proof. intros Hp HP u. rewrite <-HP. apply Hp. Qed.

(** The map is determined by the hashes. *)
Lemma presence_unique r P P' u : presence r P → presence r P' → P u = P' u.
Proof.
  intros Hp Hp'. destruct (Hp u) as [_ H1], (Hp' u) as [_ H2].
  destruct (hash_field r (online_key u) u) as [s|]; [|congruence].
  destruct H1 as (_ & o & Ho & <-), H2 as (_ & o' & Ho' & <-). congruence.
Qed.

(** *** Reading *)

#[export] Instance read_only_GetUserStatus us : ReadOnly (UserCache_GetUserStatus us).
Proof. unfold UserCache_GetUserStatus. apply _. Qed.

Lemma wp_UserCache_GetUserStatus us (Q : outcome (list OnlineStatus) → UR → Prop) r P : presence r P →
  Q (Ok ((λ u, status_of u (P u)) <$> us)) r → (∀ e, Q (Err e) r) →
  wp (UserCache_GetUserStatus us) Q r.
Proof.
  intros Hp HQ He. unfold UserCache_GetUserStatus.
  apply wp_fold_each with (I := λ done acc r', r' = r ∧ acc = (λ u, status_of u (P u)) <$> done); [done| |].
  - intros ls u rest acc r' _ [-> ->]. destruct (Hp u) as [_ Hu]. apply wp_bind, wp_try, wp_HGet.
    + intros s Hs. rewrite Hs in Hu. destruct Hu as (Hne & o & Ho & Hpl). rewrite Ho.
      apply wp_bind, wp_wrap_error, wp_lift; [|by intros ? [=]]. intros ? [= <-]. apply wp_ret.
      split; [done|]. rewrite fmap_app. cbn. unfold status_of. rewrite bool_decide_false, Hpl; done.
    + intros Hs. rewrite Hs in Hu. cbn. rewrite bool_decide_true by done. apply wp_ret. split; [done|].
      rewrite fmap_app. cbn. unfold status_of. by rewrite bool_decide_true.
    + intros e Hn. rewrite bool_decide_false by done. by apply wp_fail.
  - by intros ? ? [-> ->].
Qed.

(** *** Writing: a call that fails has changed the map or not *)

Definition either_way r u status platformID P (res : outcome ()) r' : Prop :=
  match res with
  | Ok _ => presence r' (moved u status platformID P)
  | Err _ => presence r' P ∨ presence r' (moved u status platformID P)
  | _ => False
  end.

Lemma wp_write_status u l (Q : outcome () → UR → Prop) r P P' : presence r P → NoDup l → l ≠ [] →
  (∀ v, P' v = if decide (v = u) then l else P v) →
  ∀ o, OS_PlatformIDs o = l →
  (∀ res r', match res with Ok _ => presence r' P' | Err _ => presence r' P ∨ presence r' P' | _ => False end → Q res r') →
  wp (newjsonData ← wrap_error (lift (Marshal o)); wrap_error (run (Redis_HSet (online_key u) [(u, newjsonData)]))) Q r.
Proof.
  intros Hp Hl Hne HP' o Ho HQ. apply wp_bind, wp_wrap_error, wp_lift.
  - intros s Hs. apply wp_wrap_error, wp_HSet.
    + intros res r' Hres Hf. assert (presence r' P') as Hp'.
      { eapply presence_ext; [|intros v; symmetry; apply HP'].
        eapply presence_write; [done|done|exact Hf|]. split; [done|]. exists o. split; [|done].
        by apply Unmarshal_Marshal. }
      destruct Hres as [->|[e ->]]; apply HQ; [done|by right].
    + intros e r' Hf. apply HQ. left. by eapply presence_same.
  - intros e _. apply HQ. by left.
Qed.

Lemma wp_refreshStatusOffline u p s r P : presence r P → hash_field r (online_key u) u = s →
  wp (refreshStatusOffline u p s (online_key u)) (either_way r u Offline p P) r.
Proof.
  intros Hp Hs. unfold refreshStatusOffline. destruct s as [s|].
  - destruct (presence_field _ _ _ _ Hp Hs) as (Hne & o & Ho & Hpl). rewrite Ho.
    apply wp_bind, wp_wrap_error, wp_lift; [|by intros ? [=]]. intros ? [= <-]. rewrite Hpl.
    destruct (Hp u) as [Hnd _]. case_bool_decide as Hf.
    + apply wp_wrap_error, wp_HDel.
      * intros res r' Hres Hfld. assert (presence r' (moved u Offline p P)) as Hp'.
        { unfold moved, set_platforms. cbn. rewrite Hf. eapply presence_write; [done|constructor|exact Hfld|done]. }
        destruct Hres as [->|[e ->]]; [done|by right].
      * intros e r' Hfld. left. by eapply presence_same.
    + eapply wp_write_status; [done|by apply (NoDup_filter (.≠ p))|exact Hf|intros v; reflexivity|done|].
      intros res r' Hres. exact Hres.
  - apply wp_ret. eapply presence_ext; [done|]. intros v. unfold moved. case_decide as Hv; [|done].
    subst v. destruct (Hp u) as [_ Hu]. rewrite Hs in Hu. by rewrite Hu.
Qed.

Lemma moved_online u status p P v : status ≠ Offline →
  moved u status p P v = if decide (v = u) then if bool_decide (p ∈ P u) then P u else P u ++ [p] else P v.
Proof. intros Hs. unfold moved, set_platforms. by destruct (Z.eqb_spec status Offline). Qed.

Lemma wp_refreshStatusOnline u status p s r P : presence r P → status ≠ Offline → hash_field r (online_key u) u = s →
  wp (refreshStatusOnline u p s (online_key u)) (either_way r u status p P) r.
Proof.
  intros Hp Hst Hs. destruct (Hp u) as [Hnd Hu].
  assert (match s with Some result =>
      RemoveRepeatedElementsInList (OS_PlatformIDs (match Unmarshal result with inl o => o | inr _ => online_partial result end) ++ [p])
    | None => [p] end = if bool_decide (p ∈ P u) then P u else P u ++ [p]) as Hl.
  { rewrite Hs in Hu. destruct s as [s|].
    - destruct Hu as (_ & o & -> & Hpl). rewrite Hpl. by apply remove_repeated_NoDup.
    - rewrite Hu. rewrite bool_decide_false by apply not_elem_of_nil. done. }
  unfold refreshStatusOnline. cbv zeta. rewrite Hl.
  eapply wp_write_status; [done| | | |reflexivity|].
  - pose proof (set_platforms_NoDup status p (P u) Hnd) as Hn. unfold set_platforms in Hn.
    by rewrite (proj2 (Z.eqb_neq _ _) Hst) in Hn.
  - cbn. case_bool_decide as Hin; [by destruct (P u); [apply elem_of_nil in Hin|]|by destruct (P u)].
  - intros v. by apply moved_online.
  - intros res r' Hres. exact Hres.
Qed.

Lemma wp_UserCache_SetUserStatus u status p r P : presence r P →
  wp (UserCache_SetUserStatus u status p) (either_way r u status p P) r.
Proof.
  intros Hp. unfold UserCache_SetUserStatus. apply wp_bind, wp_wrap_error.
  pose proof (Exists_keeps (online_key u) r) as Hk. apply wp_run; intros x r' E; rewrite E in Hk; cbn in Hk; subst r';
    [|by left]. destruct ((x =? 0) && (status =? Online)) eqn:Hb.
  - bool_facts. subst. apply Exists_zero in E.
    assert (hash_field r (online_key u) u = None) as Hs by (unfold hash_field; by rewrite E).
    destruct (Hp u) as [_ Hu]. rewrite Hs in Hu.
    set (write := jsonData ← wrap_error (lift (Marshal (mkOnlineStatus u Online [p])));
                  wrap_error (run (Redis_HSet (online_key u) [(u, jsonData)]))).
    assert (wp write (either_way r u Online p P) r) as Hw.
    { apply (wp_write_status u [p] _ r P (moved u Online p P)); [done|apply NoDup_singleton|done| |done|].
      - intros v. rewrite moved_online by done. rewrite Hu. rewrite bool_decide_false by apply not_elem_of_nil. done.
      - intros res r' Hres. exact Hres. }
    apply wp_bind. apply wp_eq in Hw. unfold write, mbind, M_bind in Hw. apply wp_eq. unfold wp.
    destruct (wrap_error (lift (Marshal (mkOnlineStatus u Online [p]))) r) as [[s|e| |] r1]; try exact Hw.
    cbn in Hw |- *. unfold mbind, M_bind.
    destruct (wrap_error (run (Redis_HSet (online_key u) [(u, s)])) r1) as [[[]|e| |] r2]; try exact Hw.
    cbn in Hw. pose proof (Expire_hashes (online_key u) userOlineStatusExpireTime r2) as Hx.
    unfold try, run. destruct (Redis_Expire (online_key u) userOlineStatusExpireTime r2) as [[b|e] r3]; cbn in *;
      (eapply presence_same; [exact Hw|]; intros; unfold hash_field; by rewrite Hx).
  - clear Hb. apply wp_bind, wp_try, wp_HGet.
    + intros s Hs. apply wp_bind, wp_ret. destruct (status =? Offline) eqn:Ho; bool_facts.
      * subst. by apply wp_refreshStatusOffline.
      * apply wp_wrap_error. eapply wp_mono; [|by apply wp_refreshStatusOnline]. by intros [] ? ?.
    + intros Hs. cbn. rewrite bool_decide_true by done. apply wp_bind, wp_ret.
      destruct (status =? Offline) eqn:Ho; bool_facts.
      * subst. by apply wp_refreshStatusOffline.
      * apply wp_wrap_error. eapply wp_mono; [|by apply wp_refreshStatusOnline]. by intros [] ? ?.
    + intros e Hn. rewrite bool_decide_false by done. apply wp_bind, wp_fail. by left.
Qed.
End PresenceFacts.
