(* ===== verification/UserDatabase.v ===== *)
(** * The database of users

    The cache of rows (pkg/common/db/cache/user.go) and the operations of
    pkg/common/db/controller/user.go over it, the table, the subscriptions and the
    online status. *)

From S2P Require Import Prelude.
From S2P Require Import Constants.
From S2P Require Import Redis.
From S2P Require Import Sql.
From S2P Require Import RowCache.
From S2P Require Import RowCoherence.
From S2P Require Import GroupStore.
From S2P Require Import UserTypes.
From S2P Require Import UserStore.
From S2P Require Import UserPresence.
From stdpp Require Import options.
#[local] Set Default Proof Using "Type*".

#[local] Open Scope Z_scope.

(** [utils.SliceAnySub(a, b, fn)]: the elements of [a] whose key no element of [b] has;
    [utils.DuplicateAny(l, fn)]: whether two elements have the same key. *)
Class UserTools := {
  SliceAnySub : ∀ {A K} `{EqDecision K}, list A → list A → (A → K) → list A;
  DuplicateAny : ∀ {A K} `{EqDecision K}, list A → (A → K) → bool;
}.
Class UserToolsLaws `{UserTools} : Prop := {
  SliceAnySub_elem {A K} `{EqDecision K} (a b : list A) (f : A → K) x :
    x ∈ SliceAnySub a b f ↔ x ∈ a ∧ f x ∉ f <$> b;
  DuplicateAny_spec {A K} `{EqDecision K} (l : list A) (f : A → K) :
    DuplicateAny l f = bool_decide (¬ NoDup (f <$> l));
}.

(** ** Keys *)

Definition userInfoKey : string := "USER_INFO:".
Definition userGlobalRecvMsgOptKey : string := "USER_GLOBAL_RECV_MSG_OPT_KEY:".
Definition getUserInfoKey (userID : string) : string := userInfoKey +:+ userID.
Definition getUserGlobalRecvMsgOptKey (userID : string) : string := userGlobalRecvMsgOptKey +:+ userID.

(** The keys a cache object will delete: those the receiver has, and these. *)
Definition DelUsersInfo (userIDs : list string) (c : list string) : list string :=
  c ++ (getUserInfoKey <$> userIDs).
Definition DelUsersGlobalRecvMsgOpt (userIDs : list string) (c : list string) : list string :=
  c ++ (getUserGlobalRecvMsgOptKey <$> userIDs).

Section UserDatabase.
Context `{UserEngine} `{SpecialError} `{UserTools} {E : Type}.
Abbreviation W := (UserWorld E).
Context (now : Z).

Definition user_getCache {A} `{Json A} (key : string) (fn : M W A) : M W A :=
  getCache world_cache set_world_cache key fn.
Definition user_ExecDel (keys : list string) : M W () := ExecDel world_cache set_world_cache keys.

(** ** The cache *)

Definition UserCache_GetUserInfo (userID : string) : M W UserModel :=
  user_getCache (getUserInfoKey userID) (on_users (UserGorm_Take userID)).
Definition UserCache_GetUsersInfo (userIDs : list string) : M W (list UserModel) :=
  batchGetCache2 world_cache set_world_cache userIDs getUserInfoKey (λ userID, on_users (UserGorm_Take userID)).
Definition GetUserGlobalRecvMsgOpt (userID : string) : M W Z :=
  user_getCache (getUserGlobalRecvMsgOptKey userID) (on_users (UserGorm_GetUserGlobalRecvMsgOpt userID)).

(** ** controller/user.go *)

(** The error of the insertion is dropped. *)
Definition InitOnce (users : list UserModel) : M W () :=
  let userIDs := User_UserID <$> users in
  result ← on_users (UserGorm_Find userIDs);
  let miss := SliceAnySub users result User_UserID in
  if 0 <? len miss then _ ← try (on_users (UserGorm_Create now miss)); mret () else mret ().

Definition FindWithError (userIDs : list string) : M W (list UserModel) :=
  users ← UserCache_GetUsersInfo userIDs;
  _ ← guard (negb (len users =? len userIDs)) (Wrap ErrRecordNotFound "userID not found");
  mret users.
Definition userDatabase_Find (userIDs : list string) : M W (list UserModel) := UserCache_GetUsersInfo userIDs.

(** The body of the transaction does not use it. *)
Definition userDatabase_Create (users : list UserModel) : M W () :=
  _ ← beside_transaction (on_users (UserGorm_Create now users));
  user_ExecDel (DelUsersInfo (User_UserID <$> users) []).
Definition userDatabase_Update (user : UserModel) : M W () :=
  _ ← on_users (UserGorm_Update user);
  user_ExecDel (DelUsersInfo [User_UserID user] []).
Definition UpdateByMap (userID : string) (args : list user_column) : M W () :=
  _ ← on_users (UserGorm_UpdateByMap userID args);
  user_ExecDel (DelUsersInfo [userID] []).
Definition Page (pageNumber showNumber : Z) : M W (list UserModel * Z) :=
  on_users (UserGorm_Page pageNumber showNumber).
Definition IsExist (userIDs : list string) : M W bool :=
  users ← on_users (UserGorm_Find userIDs);
  mret (0 <? len users).
Definition userDatabase_GetAllUserID (pageNumber showNumber : Z) : M W (list string) :=
  on_users (UserGorm_GetAllUserID pageNumber showNumber).
Definition CountTotal (before : option Z) : M W Z := on_users (UserGorm_CountTotal before).
Definition CountRangeEverydayTotal (start end_ : Z) : M W (gmap string Z) :=
  on_users (UserGorm_CountRangeEverydayTotal start end_).
Definition SubscribeUsersStatus (userID : string) (userIDs : list string) : M W () :=
  on_subs (AddSubscriptionList userID userIDs).
Definition UnsubscribeUsersStatus (userID : string) (userIDs : list string) : M W () :=
  on_subs (UnsubscriptionList userID userIDs).
Definition GetAllSubscribeList (userID : string) : M W (list string) :=
  on_subs (UserMongo_GetAllSubscribeList userID).
Definition GetSubscribedList (userID : string) : M W (list string) :=
  on_subs (UserMongo_GetSubscribedList userID).
Definition userDatabase_GetUserStatus (userIDs : list string) : M W (list OnlineStatus) :=
  on_online (UserCache_GetUserStatus userIDs).
Definition userDatabase_SetUserStatus (userID : string) (status platformID : Z) : M W () :=
  on_online (UserCache_SetUserStatus userID status platformID).
End UserDatabase.
