(* ===== verification/UserServer.v ===== *)
(** * The user service (internal/rpc/user)

    The handlers of [user.go] and [statistics.go], the webhook of [callback.go]
    and the notifications of pkg/rpcclient/notification/user.go, with the two of
    [friend.go] there that only this service sends. *)

From Stdlib Require Import Ascii.
From S2P Require Import Prelude.
From S2P Require Import Constants.
From S2P Require Import MsgTypes.
From S2P Require Import Tools.
From S2P Require Import Notification.
From S2P Require Import Auth.
From S2P Require Import GroupTypes.
From S2P Require Import Redis.
From S2P Require Import Sql.
From S2P Require Import RowCache.
From S2P Require Import RowCoherence.
From S2P Require Import GroupStore.
From S2P Require Import UserTypes.
From S2P Require Import UserStore.
From S2P Require Import UserPresence.
From S2P Require Import UserDatabase.
From stdpp Require Import options.
#[local] Set Default Proof Using "Type*".

#[local] Open Scope Z_scope.

(** The post to the webhook and its answer (pkg/callbackstruct/user.go). *)
Record CallbackBeforeUpdateUserInfoReq := mkBeforeUpdateUser {
  CBU_CallbackCommand : string; CBU_OperationID : string; CBU_UserID : string;
  CBU_Nickname : option string; CBU_FaceURL : option string; CBU_Ex : option string }.
Record CallbackBeforeUpdateUserInfoResp := mkBeforeUpdateResp {
  CBR_Nickname : option string; CBR_FaceURL : option string; CBR_Ex : option string }.

(** What the service asks of the message service, of the group service and of
    the webhook. *)
Inductive UserEffect :=
  | UserSendMsg (m : MsgData)
  | NotificationUserInfoUpdate (userID : string)
  | UserCallbackPost (req : CallbackBeforeUpdateUserInfoReq).

(** The friend service's answer and the webhook's. *)
Class UserServices := {
  svc_GetFriendIDs : string → list UserEffect → list string + error;
  webhook_update_user :
    CallbackBeforeUpdateUserInfoReq → list UserEffect → CallbackBeforeUpdateUserInfoResp + error;
}.

Record UserConfig := mkUserConfig {
  User_Manager_UserID : list string;
  User_Manager_Nickname : list string;
  Secret : string;
  BeforeUpdateUserInfo_Enable : bool;
  User_Config_Notification : notification }.

Section UserServer.
Context `{UserEngine} `{SpecialError} `{Tools} `{MsgTools} `{UserTools} `{UserServices}.
Abbreviation W := (UserWorld (list UserEffect)).
Context (config : UserConfig) (now : Z) (operationID opUserID : string).
Context (StructToJsonString : UserTips → string) (Marshal_elem : string → string + error).
(** What the other services answer to a change. *)
Context (answers : list UserEffect → UserEffect → option error).

Abbreviation managers := (User_Manager_UserID config).

(** ** Notifications *)

Definition user_send (m : MsgData) : M W (option SendMsgResp) :=
  _ ← on_user_env (tell answers (UserSendMsg m)); mret None.
Definition user_notify (sendID recvID : string) (contentType : Z) (m : UserTips) : M W () :=
  Notification (User_Config_Notification config) now StructToJsonString Marshal_elem utils_GetMsgID
    user_send None sendID recvID contentType m false.

Definition UserInfoUpdatedNotification (changedUserID : string) : M W () :=
  user_notify opUserID changedUserID Constants.UserInfoUpdatedNotification (UserInfoUpdatedTips changedUserID).
Definition FriendInfoUpdatedNotification (changedUserID needNotifiedUserID : string) : M W () :=
  user_notify opUserID needNotifiedUserID Constants.FriendInfoUpdatedNotification (UserInfoUpdatedTips changedUserID).
Definition UserStatusChangeNotification (from to : string) (status platformID : Z) : M W () :=
  user_notify from to Constants.UserStatusChangeNotification (UserStatusChangeTips from to status platformID).

(** What is found are rows of the table, which the type assertion to
    [*sdkws.UserInfo] refuses. *)
Definition UserSender_getUsersInfoMap (userIDs : list string) : M W (gmap string UserInfo) :=
  users ← FindWithError userIDs;
  match users with [] => mret ∅ | _ :: _ => panic end.
Definition UserSender_getFromToUserNickname (fromUserID toUserID : string) : M W (string * string) :=
  r ← try (UserSender_getUsersInfoMap [fromUserID; toUserID]);
  match r with
  | inr _ => mret ("", "")
  | inl users =>
      from ← deref (users !! fromUserID);
      to ← deref (users !! toUserID);
      mret (UI_Nickname from, UI_Nickname to)
  end.

(** ** callback.go *)

(** [utils.NotNilReplace(&x, y)] *)
Definition replace_field {A} (old : A) (new : option A) : M W A :=
  p ← deref (NotNilReplace (Some old) new); deref p.

(** The user's information afterwards. *)
Definition CallbackBeforeUpdateUserInfo (userInfo : UserInfo) : M W UserInfo :=
  if negb (BeforeUpdateUserInfo_Enable config) then mret userInfo
  else
    let cbReq := mkBeforeUpdateUser CallbackBeforeUpdateUserInfoCommand operationID (UI_UserID userInfo)
      (Some (UI_Nickname userInfo)) (Some (UI_FaceURL userInfo)) None in
    r ← try (on_user_env (λ h, (of_sum (webhook_update_user cbReq h), h ++ [UserCallbackPost cbReq])));
    match r with
    | inr err => if bool_decide (err = Bare ErrCallbackContinue) then mret userInfo else fail err
    | inl resp =>
        faceURL ← replace_field (UI_FaceURL userInfo) (CBR_FaceURL resp);
        ex ← replace_field (UI_Ex userInfo) (CBR_Ex resp);
        nickname ← replace_field (UI_Nickname userInfo) (CBR_Nickname resp);
        mret (mkUserInfo (UI_UserID userInfo) nickname faceURL ex (UI_CreateTime userInfo)
                (UI_AppMangerLevel userInfo) (UI_GlobalRecvMsgOpt userInfo))
    end.

(** ** user.go *)

(** What the service does when it starts: the managers are users. *)
Definition manager_rows : list UserModel :=
  zip_with (λ v nickname, mkUserModel v nickname "" "" FriendTypes.zero_time AppAdmin 0)
    managers (User_Manager_Nickname config).
Definition Start : M W () :=
  _ ← guard (negb (len managers =? len (User_Manager_Nickname config)))
        (Bare (ErrText "len(config.Config.Manager.AppManagerUid) != len(config.Config.Manager.Nickname)"));
  InitOnce now manager_rows.

Definition userServer_GetDesignateUsers (userIDs : list string) : M W (list UserInfo) :=
  users ← FindWithError userIDs;
  mret (UsersDB2Pb users).

Definition UpdateUserInfo (userInfo : UserInfo) : M W () :=
  _ ← lift (CheckAccessV3 managers opUserID (UI_UserID userInfo));
  userInfo ← CallbackBeforeUpdateUserInfo userInfo;
  let user := UserPb2DB userInfo in
  _ ← userDatabase_Update user;
  _ ← unminded (UserInfoUpdatedNotification (UI_UserID userInfo));
  friends ← on_user_env (ask (svc_GetFriendIDs (UI_UserID userInfo)));
  _ ← (if negb (bool_decide (UI_Nickname userInfo = "")) || negb (bool_decide (UI_FaceURL userInfo = ""))
       then unminded (on_user_env (tell answers (NotificationUserInfoUpdate (UI_UserID userInfo))))
       else mret ());
  _ ← for_each friends (λ friendID, unminded (FriendInfoUpdatedNotification (UI_UserID userInfo) friendID));
  unminded (on_user_env (tell answers (NotificationUserInfoUpdate (UI_UserID userInfo)))).

Definition SetGlobalRecvMessageOpt (req : SetGlobalRecvMessageOptReq) : M W () :=
  _ ← FindWithError [SetG_UserID req];
  _ ← UpdateByMap (SetG_UserID req) [col_global_recv_msg_opt (SetG_GlobalRecvMsgOpt req)];
  unminded (UserInfoUpdatedNotification (SetG_UserID req)).

Definition AccountCheck (CheckUserIDs : list string) : M W (list AccountCheckRespSingleUserStatus) :=
  _ ← guard (Duplicate CheckUserIDs) (Wrap ErrArgs "userID repeated");
  _ ← lift (CheckAdmin managers opUserID);
  users ← userDatabase_Find CheckUserIDs;
  let userIDs : gmap string () := foldl (λ m v, <[User_UserID v := ()]> m) ∅ users in
  mret ((λ v, mkAccountStatus v (if decide (is_Some (userIDs !! v)) then Registered else UnRegistered)) <$> CheckUserIDs).

(** [int32(total)] *)
Definition GetPaginationUsers (pagination : option RequestPagination) : M W (list UserInfo * Z) :=
  let '(pageNumber, showNumber) := match pagination with
    | Some p => (PageNumber p, ShowNumber p) | None => (0, 0) end in
  '(users, total) ← Page pageNumber showNumber;
  mret (UsersDB2Pb users, wrap32 total).

(** [strings.Contains(userID, ":")] *)
Definition has_colon (userID : string) : bool := bool_decide (":"%char ∈ String.list_ascii_of_string userID).

Definition new_user (user : UserInfo) : UserModel :=
  mkUserModel (UI_UserID user) (UI_Nickname user) (UI_FaceURL user) (UI_Ex user) now
    (UI_AppMangerLevel user) (UI_GlobalRecvMsgOpt user).

Definition UserRegister (req : UserRegisterReq) : M W () :=
  _ ← guard (len (Reg_Users req) =? 0) (Wrap ErrArgs "users is empty");
  _ ← guard (negb (bool_decide (Reg_Secret req = Secret config))) (Wrap ErrNoPermission "secret invalid");
  _ ← guard (DuplicateAny (Reg_Users req) UI_UserID) (Wrap ErrArgs "userID repeated");
  userIDs ← fold_each (Reg_Users req) [] (λ userIDs user,
    _ ← guard (bool_decide (UI_UserID user = "")) (Wrap ErrArgs "userID is empty");
    _ ← guard (has_colon (UI_UserID user)) (Wrap ErrArgs "userID contains ':' is invalid userID");
    mret (userIDs ++ [UI_UserID user]));
  exist ← IsExist userIDs;
  _ ← guard exist (Wrap ErrRegisteredAlready "userID registered already");
  userDatabase_Create now (new_user <$> Reg_Users req).

Definition GetGlobalRecvMessageOpt (UserID : string) : M W Z :=
  users ← FindWithError [UserID];
  user ← deref (head users);
  mret (User_GlobalRecvMsgOpt user).

(** A nil pagination is dereferenced. *)
Definition userServer_GetAllUserID (pagination : option RequestPagination) : M W (list string) :=
  p ← deref pagination;
  userDatabase_GetAllUserID (PageNumber p) (ShowNumber p).

Definition SubscribeOrCancelUsersStatus (req : SubscribeOrCancelUsersStatusReq) : M W (list OnlineStatus) :=
  if Sub_Genre req =? SubscriberUser then
    _ ← SubscribeUsersStatus (Sub_UserID req) (Sub_UserIDs req);
    userDatabase_GetUserStatus (Sub_UserIDs req)
  else if Sub_Genre req =? Unsubscribe then
    _ ← UnsubscribeUsersStatus (Sub_UserID req) (Sub_UserIDs req);
    mret []
  else mret [].

Definition userServer_GetUserStatus (UserIDs : list string) : M W (list OnlineStatus) :=
  userDatabase_GetUserStatus UserIDs.

Definition userServer_SetUserStatus (req : SetUserStatusReq) : M W () :=
  _ ← userDatabase_SetUserStatus (SetS_UserID req) (SetS_Status req) (SetS_PlatformID req);
  list ← GetSubscribedList (SetS_UserID req);
  for_each list (λ userID, unminded
    (UserStatusChangeNotification (SetS_UserID req) userID (SetS_Status req) (SetS_PlatformID req))).

Definition GetSubscribeUsersStatus (UserID : string) : M W (list OnlineStatus) :=
  userList ← GetAllSubscribeList UserID;
  userDatabase_GetUserStatus userList.

(** ** statistics.go *)

Definition UserRegisterCount (Start End_ : Z) : M W UserRegisterCountResp :=
  _ ← guard (End_ <? Start) (Wrap ErrArgs "start > end");
  total ← CountTotal None;
  before ← CountTotal (Some Start);
  count ← CountRangeEverydayTotal Start End_;
  mret (mkRegisterCount total before count).
End UserServer.
