(* ===== verification/UserSpec.v ===== *)
(** * What the user service promises

    The service keeps three things: the users, the platforms each is connected on,
    and who subscribes to whose status.  [user_step] says who may make a call that
    changes users and exactly which rows change, [presence_after] where the users
    are after a call, [subscribed_after] who subscribes to whom.  The specification knows
    neither caches, nor encodings, nor the order of the statements: UserProofs.v
    shows that the handlers implement it. *)

From S2P Require Import Prelude.
From S2P Require Import Constants.
From S2P Require Import MsgTypes.
From S2P Require Import Notification.
From S2P Require Import GroupTypes.
From S2P Require Import Sql.
From S2P Require Import UserTypes.
From S2P Require Import FriendTypes.
From S2P Require Import UserStore.
From S2P Require Import UserPresence.
From S2P Require Import UserDatabase.
From S2P Require Import UserServer.
From stdpp Require Import options.
#[local] Set Default Proof Using "Type*".

#[local] Open Scope Z_scope.

Abbreviation UserMap := (gmap string UserModel).

Inductive user_call :=
  | Call_UserRegister (req : UserRegisterReq)
  | Call_UpdateUserInfo (userInfo : UserInfo)
  | Call_SetGlobalRecvMessageOpt (req : SetGlobalRecvMessageOptReq)
  | Call_SubscribeOrCancel (req : SubscribeOrCancelUsersStatusReq)
  | Call_SetUserStatus (req : SetUserStatusReq).

(** Who calls, whether he is a manager, when; the secret of the deployment. *)
Record user_caller := mkUserCaller { ucr_user : string; ucr_manager : bool; ucr_now : Z; ucr_secret : string }.

Definition stands_for (c : user_caller) (u : string) : Prop := ucr_manager c = true ∨ ucr_user c = u.

(** An id a user may register. *)
Definition valid_id (u : string) : Prop := u ≠ "" ∧ has_colon u = false.

(** ** Users *)

Definition registered (now : Z) (infos : list UserInfo) (m : UserMap) : UserMap :=
  foldr (λ info, <[UI_UserID info := auto_user now (new_user now info)]>) m infos.

(** The webhook may change a name, a picture and the extension. *)
Definition same_but_names (a b : UserInfo) : Prop :=
  UI_UserID a = UI_UserID b ∧ UI_CreateTime a = UI_CreateTime b ∧
  UI_AppMangerLevel a = UI_AppMangerLevel b ∧ UI_GlobalRecvMsgOpt a = UI_GlobalRecvMsgOpt b.

Inductive user_step (c : user_caller) (m : UserMap) : user_call → UserMap → Prop :=
  | step_register req :
      Reg_Secret req = ucr_secret c → Reg_Users req ≠ [] → NoDup (UI_UserID <$> Reg_Users req) →
      (∀ info, info ∈ Reg_Users req → valid_id (UI_UserID info) ∧ m !! UI_UserID info = None) →
      user_step c m (Call_UserRegister req) (registered (ucr_now c) (Reg_Users req) m)
  | step_update info info' :
      stands_for c (UI_UserID info) → same_but_names info' info →
      user_step c m (Call_UpdateUserInfo info) (alter (update_user (UserPb2DB info')) (UI_UserID info) m)
  | step_set_global req :
      is_Some (m !! SetG_UserID req) →
      user_step c m (Call_SetGlobalRecvMessageOpt req)
        (alter (set_user_columns [col_global_recv_msg_opt (SetG_GlobalRecvMsgOpt req)]) (SetG_UserID req) m)
  | step_subscribe req : user_step c m (Call_SubscribeOrCancel req) m
  | step_set_status req : user_step c m (Call_SetUserStatus req) m.

(** ** Where the users are *)

Definition presence_after (call : user_call) (P : string → list Z) : string → list Z :=
  match call with
  | Call_SetUserStatus req => moved (SetS_UserID req) (SetS_Status req) (SetS_PlatformID req) P
  | _ => P
  end.

(** ** Who subscribes to whom *)

Definition subscribed_after (call : user_call) (S : string → gset string) : string → gset string :=
  match call with
  | Call_SubscribeOrCancel req => λ u,
      if decide (u = Sub_UserID req) then
        if Sub_Genre req =? SubscriberUser then list_to_set (Sub_UserIDs req) ∪ S u
        else if Sub_Genre req =? Unsubscribe then S u ∖ list_to_set (Sub_UserIDs req)
        else S u
      else S u
  | _ => S
  end.

(** ** What the steps keep *)

Section Steps.
Context (c : user_caller).
Implicit Types (m : UserMap).

Lemma lookup_registered now infos m u :
  registered now infos m !! u = match list_find (λ info, UI_UserID info = u) infos with
    | Some (_, info) => Some (auto_user now (new_user now info)) | None => m !! u end.
Proof.
  unfold registered. induction infos as [|x infos IH]; [done|]. cbn [foldr list_find].
  rewrite lookup_insert, IH. repeat case_decide; try congruence. by destruct (list_find _ infos) as [[]|].
Qed.
Lemma lookup_registered_some now infos m u r : registered now infos m !! u = Some r →
  (∃ info, info ∈ infos ∧ UI_UserID info = u ∧ r = auto_user now (new_user now info)) ∨ m !! u = Some r.
Proof.
  rewrite lookup_registered. destruct (list_find _ infos) as [[i info]|] eqn:E; [|auto]. intros [= <-].
  apply list_find_Some in E as (Hi & Hu & _). left. exists info. split; [by eapply list_elem_of_lookup_2|done].
Qed.
Lemma lookup_registered_old now infos m u : (∀ info, info ∈ infos → UI_UserID info ≠ u) →
  registered now infos m !! u = m !! u.
Proof.
  intros Hu. rewrite lookup_registered. destruct (list_find _ infos) as [[i info]|] eqn:E; [|done].
  apply list_find_Some in E as (Hi & Hx & _). by destruct (Hu info (list_elem_of_lookup_2 _ _ _ Hi)).
Qed.

(** A user appears only by a registration with the secret, under a valid id, *)
Lemma step_new_user m call m' u : user_step c m call m' → m !! u = None → is_Some (m' !! u) →
  valid_id u ∧ ∃ req info, call = Call_UserRegister req ∧ Reg_Secret req = ucr_secret c ∧
    info ∈ Reg_Users req ∧ UI_UserID info = u ∧ m' !! u = Some (auto_user (ucr_now c) (new_user (ucr_now c) info)).
Proof.
  intros Hs Hn [r Hr]. destruct Hs as [req Hsec Hne Hnd Hids|info info' Hst Hsame|req Hreq|req|req]; [|exfalso..].
  - apply lookup_registered_some in Hr as Hr'. destruct Hr' as [(info & Hin & Hu & ->)|Hold]; [|congruence].
    destruct (Hids info Hin) as [Hv _]. rewrite Hu in Hv. split; [done|]. exists req, info. by split_and!.
  - rewrite lookup_alter_fmap, Hn in Hr. done.
  - rewrite lookup_alter_fmap, Hn in Hr. done.
  - congruence.
  - congruence.
Qed.

(** and none is ever removed or renamed. *)
Lemma step_keeps_users m call m' u r : user_step c m call m' → m !! u = Some r →
  ∃ r', m' !! u = Some r' ∧ User_UserID r' = User_UserID r.
Proof.
  intros Hs Hr. destruct Hs as [req Hsec Hne Hnd Hids|info info' Hst Hsame|req Hreq|req|req]; [..|by eauto|by eauto].
  - exists r. split; [|done]. rewrite lookup_registered_old; [done|]. intros info Hin <-.
    destruct (Hids info Hin) as [_ Hnone]. congruence.
  - rewrite lookup_alter_fmap, Hr. eexists. split; [done|]. by case_decide.
  - rewrite lookup_alter_fmap, Hr. eexists. split; [done|]. case_decide; [apply user_key_columns|done].
Qed.

(** What a user receives changes only by a call that says so. *)
Lemma step_keeps_opt m call m' u r : user_step c m call m' → m !! u = Some r →
  (∀ req, call = Call_SetGlobalRecvMessageOpt req → SetG_UserID req ≠ u) →
  (∀ info, call = Call_UpdateUserInfo info → stands_for c u → UI_UserID info = u →
     UI_GlobalRecvMsgOpt info = 0 ∨ UI_GlobalRecvMsgOpt info = User_GlobalRecvMsgOpt r) →
  ∃ r', m' !! u = Some r' ∧ User_GlobalRecvMsgOpt r' = User_GlobalRecvMsgOpt r.
Proof.
  intros Hs Hr Hg Hu. destruct Hs as [req Hsec Hne Hnd Hids|info info' Hst Hsame|req Hreq|req|req]; [..|by eauto|by eauto].
  - exists r. split; [|done]. rewrite lookup_registered_old; [done|]. intros info Hin <-.
    destruct (Hids info Hin) as [_ Hnone]. congruence.
  - rewrite lookup_alter_fmap, Hr. eexists. split; [done|]. case_decide as Hx; [|done]. subst u.
    destruct Hsame as (_ & _ & _ & Hopt). cbn. unfold nonzero_int. rewrite Hopt.
    destruct (Z.eqb_spec (UI_GlobalRecvMsgOpt info) 0); [done|]. destruct (Hu info); auto. lia.
  - rewrite lookup_alter_ne; [by exists r|]. by eapply Hg.
Qed.

Lemma step_set_global_inv m req m' : user_step c m (Call_SetGlobalRecvMessageOpt req) m' →
  is_Some (m !! SetG_UserID req) ∧
  m' = alter (set_user_columns [col_global_recv_msg_opt (SetG_GlobalRecvMsgOpt req)]) (SetG_UserID req) m.
Proof. inversion 1. by subst. Qed.

Definition users_valid m : Prop := ∀ u r, m !! u = Some r → User_UserID r = u ∧ valid_id u.

Lemma step_users_valid m call m' : user_step c m call m' → users_valid m → users_valid m'.
Proof.
  intros Hs Hv u r Hr. destruct (m !! u) as [r0|] eqn:Hn.
  - destruct (step_keeps_users _ _ _ _ _ Hs Hn) as (r' & Hr' & Hid). destruct (Hv _ _ Hn). split; [congruence|done].
  - destruct (step_new_user _ _ _ _ Hs Hn) as (Hval & req & info & _ & _ & _ & Hid & Hrow); [by exists r|].
    split; [|done]. rewrite Hrow in Hr. injection Hr as <-. exact Hid.
Qed.
End Steps.
