(* ===== verification/UserProofs.v ===== *)
(** * The user service implements its specification

    The cache of rows agrees with the table after every call; each handler makes a
    step of [user_step], or leaves the users as they were. *)

From S2P Require Import Prelude.
From S2P Require Import Constants.
From S2P Require Import MsgTypes.
From S2P Require Import Tools.
From S2P Require Import Notification.
From S2P Require Import Redis.
From S2P Require Import Auth.
From S2P Require Import GroupTypes.
From S2P Require Import Sql.
From S2P Require Import RowCache.
From S2P Require Import RowCoherence.
From S2P Require Import GroupStore.
From S2P Require Import FriendTypes.
From S2P Require Import UserTypes.
From S2P Require Import UserStore.
From S2P Require Import UserPresence.
From S2P Require Import UserDatabase.
From S2P Require Import UserServer.
From S2P Require Import UserSpec.
From stdpp Require Import options.
#[local] Set Default Proof Using "Type*".

#[local] Open Scope Z_scope.

Lemma user_keys_inj : Inj (=) (=) getUserInfoKey.
Proof. intros a b E. by apply (inj (String.append userInfoKey)). Qed.
#[export] Existing Instance user_keys_inj.

(** All of a list are found. *)
Lemma omap_mapM {A B} (f : A → option B) l : length (omap f l) = length l → mapM f l = Some (omap f l).
Proof.
  assert (∀ l, (length (omap f l) ≤ length l)%nat) as Hle.
  { intros k. induction k as [|x k IH]; cbn; [done|]. destruct (f x); cbn; lia. }
  induction l as [|x l IH]; [done|]. cbn. destruct (f x) as [y|]; cbn.
  - intros [= Hl]. by rewrite IH.
  - intros Hl. specialize (Hle l). lia.
Qed.

(** ** The parts of the world that a computation keeps *)

Section UserKeeps.
Context `{UserEngine} {E : Type}.
Abbreviation W := (UserWorld E).

Definition user_part (w : W) : UT * UC := (uw_users w, uw_cache w).

#[export] Instance part_on_subs {A} (m : M UD A) : Keeps user_part (on_subs (E:=E) m).
Proof. intros w. unfold on_subs, zoom. by destruct (m _). Qed.
#[export] Instance part_on_online {A} (m : M UR A) : Keeps user_part (on_online (E:=E) m).
Proof. intros w. unfold on_online, zoom. by destruct (m _). Qed.
#[export] Instance part_on_env {A} (m : M E A) : Keeps user_part (on_user_env m).
Proof. intros w. unfold on_user_env, zoom. by destruct (m _). Qed.

#[export] Instance online_on_users {A} (m : M UT A) : Keeps uw_online (on_users (E:=E) m).
Proof. intros w. unfold on_users, zoom. by destruct (m _). Qed.
#[export] Instance online_on_subs {A} (m : M UD A) : Keeps uw_online (on_subs (E:=E) m).
Proof. intros w. unfold on_subs, zoom. by destruct (m _). Qed.
#[export] Instance online_on_env {A} (m : M E A) : Keeps uw_online (on_user_env m).
Proof. intros w. unfold on_user_env, zoom. by destruct (m _). Qed.

#[export] Instance subs_on_users {A} (m : M UT A) : Keeps uw_subs (on_users (E:=E) m).
Proof. intros w. unfold on_users, zoom. by destruct (m _). Qed.
#[export] Instance subs_on_online {A} (m : M UR A) : Keeps uw_subs (on_online (E:=E) m).
Proof. intros w. unfold on_online, zoom. by destruct (m _). Qed.
#[export] Instance subs_on_env {A} (m : M E A) : Keeps uw_subs (on_user_env m).
Proof. intros w. unfold on_user_env, zoom. by destruct (m _). Qed.

(** What the cache and a transaction do not touch. *)
Context {B : Type} (f : W → B).
Definition off_cache : Prop := ∀ c w, f (put_user_cache c w) = f w.

Lemma keeps_getCache {A} `{Json A} k (m : M W A) : off_cache → Keeps f m → Keeps f (user_getCache k m).
Proof. intros Hf Hm. by apply off_cache_get. Qed.
Lemma keeps_batch `{SpecialError} {A} `{Json A} ks kf (m : string → M W A) :
  off_cache → (∀ x, Keeps f (m x)) → Keeps f (batchGetCache2 world_cache set_world_cache ks kf m).
Proof. intros Hf Hm. by apply off_cache_batch. Qed.
Lemma keeps_ExecDel ks : off_cache → Keeps f (user_ExecDel ks).
Proof. intros Hf. by apply off_cache_ExecDel. Qed.
Lemma keeps_beside {A} (m : M W A) : Keeps f m → Keeps f (beside_transaction m).
Proof.
  intros Hm w. unfold beside_transaction. destruct (user_Begin _); [done|]. specialize (Hm w).
  destruct (m w) as [[a|e| |] w']; try done. by destruct (user_Commit _).
Qed.
End UserKeeps.

Lemma online_off_cache `{UserEngine} {E} : off_cache (uw_online (E:=E)).
Proof. done. Qed.
Lemma subs_off_cache `{UserEngine} {E} : off_cache (uw_subs (E:=E)).
Proof. done. Qed.
#[export] Hint Resolve keeps_getCache keeps_batch keeps_ExecDel keeps_beside online_off_cache subs_off_cache : user_keeps.

Section UserCoherence.
Context `{UserEngineLaws} `{!TagSucceeds UC} `{SpecialErrorLaws} {E : Type}.
Abbreviation W := (UserWorld E).
Implicit Types (t : UT) (w : W) (m : UserMap).

Abbreviation users_of w := (rows (uw_users w)).

(** ** What the cache may hold *)

Record user_entry t (k s : string) : Prop := {
  user_entry_nonempty : s ≠ "";
  user_entry_row u : k = getUserInfoKey u → ∃ r, Unmarshal s = inl r ∧ rows t !! u = Some r }.

Definition UsersAgree w : Prop := agrees user_entry w.

(** The rows that a change alters have their keys deleted. *)
Definition stale_users (ks : list string) m m' : Prop :=
  ∀ u, getUserInfoKey u ∈ ks ∨ ∀ r, m !! u = Some r → m' !! u = Some r.

Definition users_are m w : Prop := UsersAgree w ∧ users_of w = m.

Lemma stale_users_entry ks t t' : stale_users ks (rows t) (rows t') → stale_only user_entry ks t t'.
Proof.
  intros Hst k s Hk [He Hr]. split; [done|]. intros u ->. destruct (Hr u eq_refl) as (r & Hs & Hl).
  exists r. split; [done|]. destruct (Hst u) as [?|Hs']; [done|auto].
Qed.

Lemma user_evicted_agree ks w w' t : UsersAgree w → evicted ks (put_users t w) w' → stale_users ks (users_of w) (rows t) →
  UsersAgree w' ∧ users_of w' = rows t.
Proof.
  intros Ha He Hst. pose proof (evicted_tables user_entry _ _ _ He) as Ht. cbn in Ht.
  split; [|by rewrite Ht]. intros k s Hs. cbn. rewrite Ht.
  destruct He as (c & -> & Hc & Hk). eapply (evicted_agrees user_entry ks w (put_user_cache c w) t); [done| |by apply stale_users_entry|exact Hs].
  by exists c.
Qed.
Lemma user_unevicted w : evicted [] w w.
Proof. exists (uw_cache w). split; [by destruct w|]. split; [done|]. by intros k ?%elem_of_nil. Qed.

(** A new world with the same users and cache. *)
Lemma same_part_are m w w' : user_part w' = user_part w → users_are m w → users_are m w'.
Proof.
  unfold user_part. intros [= Hu Hc] [Ha Hm]. split; [|by rewrite Hu]. intros k s. unfold UsersAgree, agrees in *. cbn in *.
  rewrite Hc, Hu. apply Ha.
Qed.

(** ** Judgements

    While the users are [m], a computation leaves them and its answers are as [X]
    says; or it changes them as [P] says when it succeeds, and otherwise that way or not at
    all. *)
Definition sees {A} m (X : A → Prop) (c : M W A) : Prop :=
  ∀ w, users_are m w → wp c (λ r w', users_are m w' ∧ ∀ a, r = Ok a → X a) w.
Definition makes m (P : UserMap → Prop) (c : M W ()) : Prop :=
  ∀ w, users_are m w → wp c (λ r w', UsersAgree w' ∧
    (P (users_of w') ∨ (r ≠ Ok () ∧ users_of w' = m))) w.

Lemma sees_ret {A} m (X : A → Prop) a : X a → sees m X (mret a).
Proof. intros HX w Hw. apply wp_ret. split; [done|]. by intros ? [= <-]. Qed.
Lemma sees_fail {A} m (X : A → Prop) e : sees m X (fail e).
Proof. intros w Hw. by apply wp_fail. Qed.
Lemma sees_lift {A} m (X : A → Prop) (r : A + error) : (∀ a, r = inl a → X a) → sees m X (lift r).
Proof. intros HX w Hw. apply wp_lift; intros x Hx; (split; [done|]); intros ? [= <-]; auto. Qed.
Lemma sees_guard m (X : () → Prop) b e : (b = false → X ()) → sees m X (guard b e).
Proof. intros HX w Hw. apply wp_guard; intros Hb; (split; [done|]); intros [] ?; [done|auto]. Qed.
Lemma sees_bind {A B} m (X : A → Prop) (Y : B → Prop) (c : M W A) k :
  sees m X c → (∀ a, X a → sees m Y (k a)) → sees m Y (c ≫= k).
Proof.
  intros Hc Hk w Hw. apply wp_bind. eapply wp_mono; [|by apply Hc].
  intros [a|e| |] w' [Hw' HX]; [by apply Hk; [apply HX|]|done..].
Qed.
Lemma sees_still {A} m (c : M W A) : Keeps user_part c → sees m (λ _, True) c.
Proof. intros Hc w Hw. eapply (wp_keeps user_part); [done|]. intros r w' Hp. split; [by eapply same_part_are|done]. Qed.
Lemma sees_mono {A} m (X Y : A → Prop) (c : M W A) : sees m X c → (∀ a, X a → Y a) → sees m Y c.
Proof. intros Hc HXY w Hw. eapply wp_mono; [|by apply Hc]. intros r w' [? HX]. split; [done|]. auto. Qed.

Lemma makes_bind {A} m (X : A → Prop) P (c : M W A) k :
  sees m X c → (∀ a, X a → makes m P (k a)) → makes m P (c ≫= k).
Proof.
  intros Hc Hk w Hw. apply wp_bind. eapply wp_mono; [|by apply Hc].
  intros [a|e| |] w' [[Ha Hm] HX]; [by apply Hk; [apply HX|]|by auto..].
Qed.
Lemma makes_then m P (c k : M W ()) : makes m P c → Keeps user_part k → makes m P (_ ← c; k).
Proof.
  intros Hc Hk w Hw. apply wp_bind. eapply wp_mono; [|by apply Hc].
  intros [[]|e| |] w' [Ha HP]; [|by destruct HP as [|[_ ?]]; auto..].
  destruct HP as [HP|[? _]]; [|done]. eapply (wp_keeps user_part); [done|]. intros r w2 Hp.
  destruct (same_part_are (users_of w') w' w2 Hp) as [Ha2 ->]; [by split|auto].
Qed.
Lemma makes_mono m (P P' : UserMap → Prop) c : makes m P c → (∀ m', P m' → P' m') → makes m P' c.
Proof. intros Hc HP w Hw. eapply wp_mono; [|by apply Hc]. naive_solver. Qed.
(** A call that changes no user. *)
Lemma makes_still m (P : UserMap → Prop) c : Keeps user_part c → P m → makes m P c.
Proof.
  intros Hc HP w Hw. eapply (wp_keeps user_part); [done|]. intros r w' Hp.
  destruct (same_part_are _ _ _ Hp Hw) as [? ->]. auto.
Qed.

(** ** Statements *)

Lemma wp_on_users {A} (c : M UT A) (Q : outcome A → W → Prop) w :
  wp c (λ r t, Q r (put_users t w)) (uw_users w) → wp (on_users c) Q w.
Proof. apply wp_zoom. Qed.
Lemma put_get_users w : put_users (uw_users w) w = w.
Proof. by destruct w. Qed.

Lemma put_users_are t w m' : UsersAgree w → rows t = m' → stale_users [] (users_of w) m' → users_are m' (put_users t w).
Proof.
  intros Ha <- Hst. eapply user_evicted_agree; [exact Ha|apply user_unevicted|done].
Qed.
Lemma stale_users_refl ks m : stale_users ks m m.
Proof. by right. Qed.

Lemma sees_on_users {A} m (X : A → Prop) (c : M UT A) : on_rows m c (λ a m', m' = m ∧ X a) (λ _, True) → sees m X (on_users c).
Proof.
  intros Hc w [Ha Hm]. apply wp_on_users. eapply wp_mono; [|by apply Hc].
  assert (∀ t, rows t = m → users_are m (put_users t w)) as Hput.
  { intros t Ht. eapply put_users_are; [done|done|]. rewrite Hm. apply stale_users_refl. }
  intros [a|e| |] t; [intros [Ht HX]|intros [_ Ht]|done..]; (split; [by apply Hput|]); by intros ? [= <-].
Qed.

Lemma wp_user_del ks (Q : outcome () → W → Prop) w : (∀ w', evicted ks w w' → Q (Ok ()) w') → wp (user_ExecDel ks) Q w.
Proof. apply (wp_evict user_entry user_entry_nonempty). Qed.

Lemma makes_stmt_del ks m P (c : M UT ()) :
  on_rows m c (λ _ m', P m' ∧ stale_users ks m m') (λ _, True) → makes m P (_ ← on_users c; user_ExecDel ks).
Proof.
  intros Hc w [Ha Hm]. apply wp_bind, wp_on_users. eapply wp_mono; [|by apply Hc].
  intros [[]|e| |] t; [intros [HP Hst]|intros [_ Ht]|done..].
  - apply wp_user_del. intros w' He. rewrite <-Hm in Hst.
    destruct (user_evicted_agree _ _ _ _ Ha He Hst) as [? ->]. auto.
  - destruct (put_users_are t w m Ha Ht) as [Ha' Hm']; [rewrite Hm; apply stale_users_refl|]. split; [done|]. by right.
Qed.

(** New rows make nothing stale, whether or not the keys are deleted. *)
Lemma makes_create_del ks m P (c : M UT ()) :
  on_rows m c (λ _ m', P m' ∧ stale_users [] m m') (λ _, True) →
  makes m P (_ ← beside_transaction (on_users c); user_ExecDel ks).
Proof.
  intros Hc w [Ha Hm]. apply wp_bind, wp_eq. unfold beside_transaction.
  destruct (user_Begin _) as [e|]; [split; [done|]; by right|].
  assert (wp (on_users c) (λ r w', UsersAgree w' ∧ match r with
    | Ok _ => P (users_of w') | Err _ => users_of w' = m | _ => False end) w) as Hw.
  { apply wp_on_users. eapply wp_mono; [|by apply Hc].
    intros [[]|e| |] t; [intros [HP Hst]|intros [_ Ht]|done..].
    - rewrite <-Hm in Hst. by destruct (put_users_are t w (rows t) Ha).
    - destruct (put_users_are t w m Ha Ht) as [Ha' Hm']; [rewrite Hm; apply stale_users_refl|]. done. }
  apply wp_eq in Hw. destruct (on_users c w) as [[[]|e| |] w']; cbn in Hw; destruct Hw as [Ha' HP]; try done.
  - destruct (user_Commit _); cbn; [by auto|]. apply wp_user_del. intros w2 He.
    assert (w' = put_users (uw_users w') w') as Hput by by destruct w'. rewrite Hput in He.
    destruct (user_evicted_agree _ _ _ _ Ha' He (stale_users_refl _ _)) as [? ->]. auto.
  - cbn. split; [done|]. by right.
Qed.

(** *** user_model.go *)

Lemma has_user_id_key u (r : UserModel) : has_user_id u r = true ↔ table_key (T:=UT) r = u.
Proof. unfold has_user_id. by rewrite users_key, bool_decide_eq_true. Qed.

Lemma users_keyed t u r : rows t !! u = Some r → User_UserID r = u.
Proof. intros Hr%(rows_key (T:=UT)). by rewrite users_key in Hr. Qed.

Lemma sees_keyed {A} m (X : A → Prop) (c : M W A) :
  ((∀ u r, m !! u = Some r → User_UserID r = u) → sees m X c) → sees m X c.
Proof. intros Hc w Hw. apply Hc; [|done]. destruct Hw as [_ <-]. apply users_keyed. Qed.

Lemma rows_Find us m : on_rows m (UserGorm_Find us) (λ l m', m' = m ∧ ∀ r, r ∈ l ↔ User_UserID r ∈ us ∧ m !! User_UserID r = Some r) (λ _, True).
Proof.
  apply on_rows_wrap, on_rows_Find; [|done]. intros l Hl _. split; [done|]. intros r.
  by rewrite Hl, bool_decide_eq_true, users_key.
Qed.

Lemma rows_Update u m : on_rows m (UserGorm_Update u) (λ _ m', m' = alter (update_user u) (User_UserID u) m) (λ _, True).
Proof.
  apply on_rows_wrap, on_rows_map. eapply on_rows_Updates_key with (k := User_UserID u); [apply has_user_id_key| |done|done].
  intros r. by rewrite !users_key.
Qed.
Lemma rows_UpdateByMap u cs m : on_rows m (UserGorm_UpdateByMap u cs) (λ _ m', m' = alter (set_user_columns cs) u m) (λ _, True).
Proof.
  apply on_rows_wrap, on_rows_map. eapply on_rows_Updates_key with (k := u); [apply has_user_id_key| |done|done].
  intros r. rewrite !users_key. apply user_key_columns.
Qed.

Lemma registered_insert_rows now infos m :
  insert_rows (T:=UT) (auto_user now <$> (new_user now <$> infos)) m = registered now infos m.
Proof.
  unfold insert_rows, registered. induction infos as [|x infos IH]; [done|]. cbn [fmap list_fmap foldr].
  rewrite IH, users_key. done.
Qed.
Lemma rows_Create now infos m : on_rows m (UserGorm_Create now (new_user now <$> infos)) (λ _ m',
  m' = registered now infos m ∧ ∀ info, info ∈ infos → m !! UI_UserID info = None) (λ _, True).
Proof.
  apply on_rows_wrap, on_rows_Create; [|done]. intros _ Hnone. rewrite registered_insert_rows. split; [done|].
  intros info Hin. specialize (Hnone (auto_user now (new_user now info))). rewrite users_key in Hnone.
  apply Hnone. apply list_elem_of_fmap_2, list_elem_of_fmap_2. done.
Qed.

(** ** The cache *)

Lemma wp_Take u w : wp (on_users (UserGorm_Take u)) (λ r w', w' = w ∧ match r with
  | Ok a => users_of w !! u = Some a
  | Err e => (group_IsNotFound e = true ∧ users_of w !! u = None) ∨ external e | _ => False end) w.
Proof.
  apply wp_on_users, wp_wrap_error. eapply wp_sql_Take with (k := u); [apply has_user_id_key|..].
  - intros r Hr. by rewrite put_get_users.
  - intros Hn. rewrite put_get_users. split; [done|]. left. split; [by apply IsNotFound_gorm|done].
  - intros e He. rewrite put_get_users. split; [done|]. by right.
Qed.

Lemma peeks_are m w w' : peeks (W:=W) user_entry w w' → users_are m w → users_are m w'.
Proof.
  intros Hp [Ha Hm]. pose proof (peeks_tables user_entry _ _ Hp) as Ht. cbn in Ht. split; [by apply Hp|by rewrite Ht].
Qed.

Lemma wp_GetUsersInfo us w : UsersAgree w → wp (UserCache_GetUsersInfo us) (λ r w', peeks (W:=W) user_entry w w' ∧ match r with
  | Ok l => l = omap (users_of w !!.) us | Err e => external e | _ => False end) w.
Proof.
  intros Ha. unfold UserCache_GetUsersInfo.
  eapply wp_mono; [|apply (wp_batch_cached (W:=W) user_entry user_entry_nonempty us getUserInfoKey
    (λ userID, on_users (UserGorm_Take userID)) (λ t u, rows t !! u) w)]; [..|done].
  - intros r w' [Hp Hr]. split; [exact Hp|]. by destruct r.
  - intros t u a s Hr Hm Hne. split; [done|]. intros u' <-%(inj getUserInfoKey). exists a.
    split; [by apply Unmarshal_Marshal|done].
  - intros t u s He. by apply (user_entry_row _ _ _ He).
  - intros u w'. apply wp_Take.
Qed.

Lemma wp_FindWithError us w : UsersAgree w → wp (FindWithError us) (λ r w', peeks (W:=W) user_entry w w' ∧ match r with
  | Ok l => mapM (users_of w !!.) us = Some l
  | Err e => (e = Wrap ErrRecordNotFound "userID not found" ∧ ∃ u, u ∈ us ∧ users_of w !! u = None) ∨ external e
  | _ => False end) w.
Proof.
  intros Ha. apply wp_bind. eapply wp_mono; [|by apply wp_GetUsersInfo].
  intros [l|e| |] w' [Hp Hl]; try done; [|by auto]. subst l. apply wp_bind, wp_guard; intros Hlen; bool_facts; unfold len in Hlen.
  - split; [done|]. left. split; [done|].
    destruct (decide (Forall (λ u, is_Some (users_of w !! u)) us)) as [Hall|Hn].
    + exfalso. apply Hlen. f_equal. clear -Hall. induction Hall as [|u us [r Hr] _ IH]; [done|]. cbn. by rewrite Hr, <-IH.
    + apply not_Forall_Exists, Exists_exists in Hn; [|apply _]. destruct Hn as (u & Hu & Hn). exists u.
      split; [done|]. by apply eq_None_not_Some.
  - apply wp_ret. split; [done|]. apply omap_mapM. lia.
Qed.

Lemma sees_FindWithError us m : sees m (λ l, mapM (m !!.) us = Some l) (FindWithError us).
Proof.
  intros w [Ha Hm]. eapply wp_mono; [|by apply wp_FindWithError]. intros r w' [Hp Hr]. rewrite Hm in Hr.
  split; [by eapply peeks_are|]. by intros a ->.
Qed.
End UserCoherence.

(** * Who is told of a user's status

    The subscriptions of pkg/common/db/unrelation/user.go are kept twice: under
    the subscriber, the users he subscribes to, and under each of those, the
    subscribers.  As long as nobody exceeds the maximum the two agree; the file
    shows that, and what becomes of a subscriber who exceeds it. *)

Section Subscriptions.
Context `{UserEngineLaws} `{!DocsWork}.
Implicit Types (d : UD) (S : string → gset string).

Definition list_at d (key : string) : list string := default [] (docs d !! key).
(** Whom a user subscribes to, and his subscribers. *)
Definition subscriptions d (u : string) : list string := list_at d (SubscriptionPrefix +:+ u).
Definition subscribers d (u : string) : list string := list_at d (SubscribedPrefix +:+ u).

Lemma prefixes_differ u v : SubscriptionPrefix +:+ u ≠ SubscribedPrefix +:+ v.
Proof. intros [=]. Qed.

(** ** The updates *)

Record added (key : string) (xs : list string) d d' : Prop := {
  added_elem k x : x ∈ list_at d' k ↔ x ∈ list_at d k ∨ (k = key ∧ x ∈ xs);
  added_other k : k ≠ key → list_at d' k = list_at d k;
  added_length : len (list_at d' key) ≤ len (list_at d key) + len xs;
  added_nodup : NoDup (list_at d key) → NoDup (list_at d' key) }.

Lemma wp_add key xs (Q : outcome () → UD → Prop) d :
  (∀ d', added key xs d d' → Q (Ok ()) d') → wp (stmt (doc_AddToSet true key xs)) Q d.
Proof.
  intros HQ. apply wp_stmt. intros r d' E. pose proof (AddToSet_works key xs d) as Hr. rewrite E in Hr. cbn in Hr. subst r.
  pose proof (AddToSet_length _ _ _ _ E) as Hlen. pose proof (AddToSet_nodup _ _ _ _ E) as Hnd.
  apply AddToSet_ok in E. cbn. apply HQ. split; unfold list_at, len; [..|lia|done].
  - intros k x. destruct (docs d !! key) as [l|] eqn:Hl.
    + destruct E as (l' & -> & Hl'). rewrite lookup_insert. case_decide as Hk; [|naive_solver]. subst k. rewrite Hl. cbn.
      rewrite Hl'. naive_solver.
    + rewrite E, lookup_insert. case_decide as Hk; [|naive_solver]. subst k. rewrite Hl. cbn.
      rewrite elem_of_remove_dups, elem_of_nil. naive_solver.
  - intros k Hk. destruct (docs d !! key) as [l|]; [destruct E as (l' & -> & _)|rewrite E]; by rewrite lookup_insert_ne.
Qed.

Record pulled (key : string) (xs : list string) d d' : Prop := {
  pulled_key : list_at d' key = filter (.∉ xs) (list_at d key);
  pulled_other k : k ≠ key → list_at d' k = list_at d k }.

Lemma wp_pull key xs (Q : outcome () → UD → Prop) d :
  (∀ d', pulled key xs d d' → Q (Ok ()) d') → wp (stmt (doc_PullOne [key] xs)) Q d.
Proof.
  intros HQ. apply wp_stmt. intros r d' E. pose proof (PullOne_works [key] xs d) as Hr. rewrite E in Hr. cbn in Hr. subst r.
  cbn. apply HQ. apply PullOne_ok in E as [(k & l & ->%list_elem_of_singleton & Hl & Hd')|[Hn Hd']].
  - split; unfold list_at; rewrite ?Hd'; [by rewrite lookup_insert_eq, Hl|]. intros k' Hk'. by rewrite lookup_insert_ne.
  - split; unfold list_at; rewrite ?Hd'; [|done]. by rewrite (Hn key) by by left.
Qed.
Lemma pulled_elem key xs d d' k x : pulled key xs d d' → x ∈ list_at d' k ↔ x ∈ list_at d k ∧ ¬ (k = key ∧ x ∈ xs).
Proof.
  intros [Hkey Hoth]. destruct (decide (k = key)) as [->|Hk]; [rewrite Hkey, list_elem_of_filter|rewrite Hoth by done]; naive_solver.
Qed.

Lemma wp_find_list key (Q : outcome (list string) → UD → Prop) d : Q (Ok (list_at d key)) d → wp (find_list key) Q d.
Proof.
  intros HQ. apply wp_bind, wp_try, wp_query.
  - intros l Hl%FindOne_ok. apply wp_ret. unfold list_at in HQ. by rewrite Hl in HQ.
  - intros e He. destruct (FindOne_works key d) as [[l Hl]|Hn]; [congruence|]. rewrite Hn in He. injection He as <-.
    rewrite bool_decide_true by done. apply wp_ret. unfold list_at in HQ. by rewrite (FindOne_missing _ _ _ Hn) in HQ.
Qed.

(** ** The two sides agree *)

Record mirror S d : Prop := {
  mirror_subs u v : v ∈ subscriptions d u ↔ v ∈ S u;
  mirror_fans u v : u ∈ subscribers d v ↔ v ∈ S u;
  mirror_nodup v : NoDup (subscribers d v) }.

(** The second half of a subscription: the user is added to, or taken from, each list. *)
Lemma wp_add_fans u us (Q : outcome () → UD → Prop) d : (∀ v, NoDup (subscribers d v)) →
  (∀ d', (∀ v, subscriptions d' v = subscriptions d v) →
     (∀ v x, x ∈ subscribers d' v ↔ x ∈ subscribers d v ∨ (v ∈ us ∧ x = u)) →
     (∀ v, NoDup (subscribers d' v)) → Q (Ok ()) d') →
  wp (for_each us (λ user,
    r ← try (stmt (doc_AddToSet true (SubscribedPrefix +:+ user) [u]));
    match r with inl _ => mret () | inr err => fail (WrapErr "transaction failed" err) end)) Q d.
Proof.
  intros Hnd HQ. apply wp_for_each with (I := λ done d', (∀ v, subscriptions d' v = subscriptions d v) ∧
    (∀ v x, x ∈ subscribers d' v ↔ x ∈ subscribers d v ∨ (v ∈ done ∧ x = u)) ∧ ∀ v, NoDup (subscribers d' v)).
  - split; [done|]. split; [|done]. intros v x. rewrite elem_of_nil. tauto.
  - intros ls user rest d' _ (Hsub & Hfan & Hn). apply wp_bind, wp_try, wp_add. intros d2 Hadd. apply wp_ret. split_and!.
    + intros v. rewrite <-Hsub. apply (added_other _ _ _ _ Hadd), prefixes_differ.
    + intros v x. unfold subscribers. rewrite (added_elem _ _ _ _ Hadd). fold (subscribers d' v). rewrite Hfan.
      rewrite elem_of_app, !list_elem_of_singleton. split; [|naive_solver].
      intros [?|[E ->]]; [tauto|]. apply (inj (String.append SubscribedPrefix)) in E. subst. tauto.
    + intros v. destruct (decide (v = user)) as [->|Hv]; [by apply (added_nodup _ _ _ _ Hadd), Hn|].
      unfold subscribers. rewrite (added_other _ _ _ _ Hadd); [apply Hn|]. by intros ?%(inj (String.append SubscribedPrefix)).
  - intros d' (Hsub & Hfan & Hn). by apply HQ.
Qed.

Lemma wp_remove_fans u us (Q : outcome () → UD → Prop) d : (∀ v, NoDup (subscribers d v)) →
  (∀ d', (∀ v, subscriptions d' v = subscriptions d v) →
     (∀ v x, x ∈ subscribers d' v ↔ x ∈ subscribers d v ∧ ¬ (v ∈ us ∧ x = u)) →
     (∀ v, NoDup (subscribers d' v)) → Q (Ok ()) d') →
  wp (RemoveSubscribedListFromUser u us) Q d.
Proof.
  intros Hnd HQ. apply wp_bind, wp_fold_each with (I := λ done acc d', acc = None ∧ (∀ v, subscriptions d' v = subscriptions d v) ∧
    (∀ v x, x ∈ subscribers d' v ↔ x ∈ subscribers d v ∧ ¬ (v ∈ done ∧ x = u)) ∧ ∀ v, NoDup (subscribers d' v)).
  - split; [done|]. split; [done|]. split; [|done]. intros v x. rewrite elem_of_nil. tauto.
  - intros ls user rest acc d' _ (-> & Hsub & Hfan & Hn). apply wp_bind, wp_try, wp_pull. intros d2 Hp. apply wp_ret. split_and!.
    + done.
    + intros v. rewrite <-Hsub. apply (pulled_other _ _ _ _ Hp), prefixes_differ.
    + intros v x. unfold subscribers. rewrite (pulled_elem _ _ _ _ _ _ Hp). fold (subscribers d' v). rewrite Hfan.
      rewrite elem_of_app, !list_elem_of_singleton. split; [|naive_solver].
      intros [[Hx Hno] Hkey]. split; [done|]. intros [[Hv| ->] ->]; [tauto|]. by apply Hkey.
    + intros v. destruct (decide (v = user)) as [->|Hv].
      * unfold subscribers. rewrite (pulled_key _ _ _ _ Hp). apply (NoDup_filter (.∉ [u])), Hn.
      * unfold subscribers. rewrite (pulled_other _ _ _ _ Hp); [apply Hn|]. by intros ?%(inj (String.append SubscribedPrefix)).
  - intros acc d' (-> & Hsub & Hfan & Hn). apply wp_ret. by apply HQ.
Qed.

Definition with_subscriptions (u : string) (us : list string) S : string → gset string := λ v,
  if decide (v = u) then list_to_set us ∪ S v else S v.
Definition without_subscriptions (u : string) (us : list string) S : string → gset string := λ v,
  if decide (v = u) then S v ∖ list_to_set us else S v.

Lemma wp_AddSubscriptionList u us (Q : outcome () → UD → Prop) d S : mirror S d →
  len (subscriptions d u) + len us ≤ MaximumSubscription →
  (∀ d', mirror (with_subscriptions u us S) d' →
     (∀ v, len (subscriptions d' v) ≤ len (subscriptions d v) + (if decide (v = u) then len us else 0)) → Q (Ok ()) d') →
  wp (AddSubscriptionList u us) Q d.
Proof.
  intros [Hsub Hfan Hnd] Hmax HQ. unfold AddSubscriptionList. apply wp_bind, wp_wrap_error, wp_query.
  2:{ intros e He. destruct (Count_works (SubscriptionPrefix +:+ u) d) as [n Hn]. congruence. }
  intros n ->%Count_ok. fold (list_at d (SubscriptionPrefix +:+ u)). fold (subscriptions d u).
  rewrite (proj2 (Z.ltb_ge _ _)) by lia. apply wp_bind, wp_ret, wp_bind, wp_wrap_error, wp_add. intros d1 Hadd.
  assert (∀ v, subscribers d1 v = subscribers d v) as Hf1.
  { intros v. apply (added_other _ _ _ _ Hadd). intros E. symmetry in E. by apply prefixes_differ in E. }
  assert (∀ v x, x ∈ subscriptions d1 v ↔ x ∈ subscriptions d v ∨ (v = u ∧ x ∈ us)) as Hs1.
  { intros v x. unfold subscriptions. rewrite (added_elem _ _ _ _ Hadd). split; [|naive_solver].
    intros [?|[E ?]]; [tauto|]. apply (inj (String.append SubscriptionPrefix)) in E. tauto. }
  apply wp_add_fans; [intros v; rewrite Hf1; apply Hnd|]. intros d2 Hs2 Hf2 Hn2. apply HQ.
  - unfold with_subscriptions. split; [| |done].
    + intros v x. rewrite Hs2, Hs1, Hsub. case_decide; [|naive_solver]. rewrite elem_of_union, elem_of_list_to_set. naive_solver.
    + intros x v. rewrite Hf2, Hf1, Hfan. case_decide; [|naive_solver]. rewrite elem_of_union, elem_of_list_to_set. naive_solver.
  - intros v. rewrite Hs2. case_decide as Hv.
    + subst v. apply (added_length _ _ _ _ Hadd).
    + unfold subscriptions. rewrite (added_other _ _ _ _ Hadd); [lia|]. by intros ?%(inj (String.append SubscriptionPrefix)).
Qed.

Lemma wp_UnsubscriptionList u us (Q : outcome () → UD → Prop) d S : mirror S d →
  (∀ d', mirror (without_subscriptions u us S) d' →
     (∀ v, len (subscriptions d' v) ≤ len (subscriptions d v)) → Q (Ok ()) d') →
  wp (UnsubscriptionList u us) Q d.
Proof.
  intros [Hsub Hfan Hnd] HQ. apply wp_bind, wp_wrap_error, wp_pull. intros d1 Hp.
  assert (∀ v, subscribers d1 v = subscribers d v) as Hf1.
  { intros v. apply (pulled_other _ _ _ _ Hp). intros E. symmetry in E. by apply prefixes_differ in E. }
  assert (∀ v x, x ∈ subscriptions d1 v ↔ x ∈ subscriptions d v ∧ ¬ (v = u ∧ x ∈ us)) as Hs1.
  { intros v x. unfold subscriptions. rewrite (pulled_elem _ _ _ _ _ _ Hp). split; [|naive_solver].
    intros [? Hno]. split; [done|]. intros [-> ?]. by apply Hno. }
  apply wp_wrap_error, wp_remove_fans; [intros v; rewrite Hf1; apply Hnd|]. intros d2 Hs2 Hf2 Hn2. apply HQ.
  - unfold without_subscriptions. split; [| |done].
    + intros v x. rewrite Hs2, Hs1, Hsub. case_decide; [|naive_solver]. rewrite elem_of_difference, elem_of_list_to_set. naive_solver.
    + intros x v. rewrite Hf2, Hf1, Hfan. case_decide; [|naive_solver]. rewrite elem_of_difference, elem_of_list_to_set. naive_solver.
  - intros v. rewrite Hs2. destruct (decide (v = u)) as [->|Hv].
    + unfold subscriptions, len. rewrite (pulled_key _ _ _ _ Hp). pose proof (length_filter (.∉ us) (list_at d (SubscriptionPrefix +:+ u))). lia.
    + unfold subscriptions. rewrite (pulled_other _ _ _ _ Hp); [lia|]. by intros ?%(inj (String.append SubscriptionPrefix)).
Qed.

(** ** Exceeding the maximum *)

Lemma wp_AddSubscriptionList_over u us (Q : outcome () → UD → Prop) d : (∀ v, NoDup (subscribers d v)) →
  MaximumSubscription < len (subscriptions d u) + len us → len us ≤ MaximumSubscription →
  (∀ d', (∀ v, v ∈ subscriptions d' u ↔
        v ∈ drop (Z.to_nat (MaximumSubscription - len us)) (subscriptions d u) ∨ v ∈ us) →
     (∀ v x, x ∈ subscribers d' v ↔ x ∈ subscribers d v ∨ (v ∈ us ∧ x = u)) → Q (Ok ()) d') →
  wp (AddSubscriptionList u us) Q d.
Proof.
  intros Hnd Hover Hmax HQ. unfold AddSubscriptionList. apply wp_bind, wp_wrap_error, wp_query.
  2:{ intros e He. destruct (Count_works (SubscriptionPrefix +:+ u) d) as [n Hn]. congruence. }
  intros n ->%Count_ok. fold (list_at d (SubscriptionPrefix +:+ u)). fold (subscriptions d u).
  rewrite (proj2 (Z.ltb_lt _ _)) by lia. apply wp_bind, wp_bind, wp_find_list. fold (subscriptions d u).
  unfold slice_from. rewrite (proj2 (Z.ltb_ge _ _)), (proj2 (Z.ltb_ge _ _)) by lia. cbn [orb].
  apply wp_bind, wp_ret, wp_stmt. intros r d1 E. pose proof (Set_works (SubscriptionPrefix +:+ u)
    (drop (Z.to_nat (MaximumSubscription - len us)) (subscriptions d u)) d) as Hr. rewrite E in Hr. cbn in Hr. subst r.
  apply Set_doc_ok in E. cbn.
  assert (∃ l, docs d !! (SubscriptionPrefix +:+ u) = Some l) as [l Hl].
  { destruct (docs d !! (SubscriptionPrefix +:+ u)) eqn:Hl; [by eexists|]. unfold subscriptions, list_at in Hover.
    rewrite Hl in Hover. unfold len in *. cbn in Hover. lia. }
  assert (∀ v, subscribers d1 v = subscribers d v) as Hf1.
  { intros v. unfold subscribers, list_at. rewrite E, lookup_alter_ne; [done|]. apply prefixes_differ. }
  assert (subscriptions d1 u = drop (Z.to_nat (MaximumSubscription - len us)) (subscriptions d u)) as Hs1.
  { unfold subscriptions at 1. unfold list_at. by rewrite E, lookup_alter_eq, Hl. }
  apply wp_bind, wp_wrap_error, wp_add. intros d2 Hadd.
  assert (∀ v, subscribers d2 v = subscribers d v) as Hf2.
  { intros v. rewrite <-Hf1. apply (added_other _ _ _ _ Hadd). intros E'. symmetry in E'. by apply prefixes_differ in E'. }
  apply wp_add_fans; [intros v; rewrite Hf2; apply Hnd|]. intros d3 Hs3 Hf3 _. apply HQ.
  - intros v. rewrite Hs3. unfold subscriptions at 1. rewrite (added_elem _ _ _ _ Hadd).
    fold (subscriptions d1 u). rewrite Hs1. naive_solver.
  - intros v x. by rewrite Hf3, Hf2.
Qed.
End Subscriptions.
