(* ===== verification/UserRefinement.v ===== *)
(** * The handlers of the user service

    Each handler that changes users makes a step of [user_step], moves the users as
    [presence_after] says and changes the subscriptions as [subscribed_after] says;
    the others leave these parts alone. *)

From S2P Require Import Prelude.
From S2P Require Import Constants.
From S2P Require Import MsgTypes.
From S2P Require Import Tools.
From S2P Require Import Notification.
From S2P Require Import Auth.
From S2P Require Import GroupTypes.
From S2P Require Import FriendTypes.
From S2P Require Import Redis.
From S2P Require Import Sql.
From S2P Require Import RowCache.
From S2P Require Import RowCoherence.
From S2P Require Import GroupStore.
From S2P Require Import UserTypes.
From S2P Require Import UserStore.
From S2P Require Import UserPresence.
From S2P Require Import UserDatabase.
From S2P Require Import UserServer.
From S2P Require Import UserSpec.
From S2P Require Import UserProofs.
From stdpp Require Import options.
#[local] Set Default Proof Using "Type*".

#[local] Open Scope Z_scope.

(** A part of the world that the effects leave alone. *)
Class OffEnv `{UserEngine} {E B} (f : UserWorld E → B) : Prop :=
  off_env A (m : M E A) :: Keeps f (on_user_env m).
#[export] Instance part_off_env `{UserEngine} {E} : OffEnv (user_part (E:=E)).
Proof. intros A m. apply _. Qed.
#[export] Instance online_off_env `{UserEngine} {E} : OffEnv (uw_online (E:=E)).
Proof. intros A m. apply _. Qed.
#[export] Instance subs_off_env `{UserEngine} {E} : OffEnv (uw_subs (E:=E)).
Proof. intros A m. apply _. Qed.

Section UserRefinement.
Context `{UserEngineLaws} `{!TagSucceeds UC} `{SpecialErrorLaws} `{ToolsLaws} `{MsgToolsLaws} `{UserToolsLaws} `{UserServices}.
Abbreviation W := (UserWorld (list UserEffect)).
Context (config : UserConfig) (now : Z) (operationID opUserID : string).
Context (StructToJsonString : UserTips → string) (Marshal_elem : string → string + error).
Context (answers : list UserEffect → UserEffect → option error).
Implicit Types (w : W) (m : UserMap).

(** The handler of a call. *)
Definition user_handle (call : user_call) : M W () :=
  match call with
  | Call_UserRegister req => UserRegister config now req
  | Call_UpdateUserInfo info =>
      UpdateUserInfo config now operationID opUserID StructToJsonString Marshal_elem answers info
  | Call_SetGlobalRecvMessageOpt req =>
      SetGlobalRecvMessageOpt config now opUserID StructToJsonString Marshal_elem answers req
  | Call_SubscribeOrCancel req => _ ← SubscribeOrCancelUsersStatus req; mret ()
  | Call_SetUserStatus req => userServer_SetUserStatus config now StructToJsonString Marshal_elem answers req
  end.

Definition user_caller_of : user_caller :=
  mkUserCaller opUserID (bool_decide (opUserID ∈ User_Manager_UserID config)) now (Secret config).

(** ** What the notifications and the webhook leave alone *)

#[export] Instance keeps_user_notify {B} (f : W → B) `{!OffEnv f} a b t x :
  Keeps f (user_notify config now StructToJsonString Marshal_elem answers a b t x).
Proof.
  unfold user_notify, Notification, NotificationWithSesstionType, user_send.
  apply keeps_bind; [apply _|]. intros s. apply keeps_bind; [apply _|]. intros names. apply _.
Qed.
Lemma keeps_replace {A B} (f : W → B) (old : A) new : Keeps f (replace_field old new).
Proof. unfold replace_field. apply _. Qed.
#[export] Instance keeps_callback {B} (f : W → B) `{!OffEnv f} info :
  Keeps f (CallbackBeforeUpdateUserInfo config operationID info).
Proof.
  unfold CallbackBeforeUpdateUserInfo. destruct (negb _); [apply _|].
  apply keeps_bind; [apply _|]. intros [resp|e].
  - repeat (apply keeps_bind; [apply keeps_replace|intros ?]). apply _.
  - destruct (bool_decide _); apply _.
Qed.

Lemma wp_callback_names info w :
  wp (CallbackBeforeUpdateUserInfo config operationID info) (λ r _, ∀ info', r = Ok info' → same_but_names info' info) w.
Proof.
  unfold CallbackBeforeUpdateUserInfo. destruct (negb _); [apply wp_ret; by intros ? [= <-]|].
  apply wp_bind, wp_try, wp_val. intros [resp|e| |] w' _; try done.
  - assert (∀ A (old : A) new (k : A → M W UserInfo) w, (∀ a w, wp (k a) (λ r _, ∀ info', r = Ok info' → same_but_names info' info) w) →
      wp (replace_field old new ≫= k) (λ r _, ∀ info', r = Ok info' → same_but_names info' info) w) as Hk.
    { intros A old new k w0 Hk. apply wp_bind, wp_val. intros [a|e| |] w1 _; [apply Hk|done..]. }
    apply Hk. intros face w1. apply Hk. intros ex w2. apply Hk. intros name w3. apply wp_ret. by intros ? [= <-].
  - case_bool_decide; [apply wp_ret; by intros ? [= <-]|by apply wp_fail].
Qed.

Lemma sees_callback m info :
  sees m (λ info', same_but_names info' info) (CallbackBeforeUpdateUserInfo config operationID info).
Proof.
  intros w Hw. pose proof (wp_callback_names info w) as Hn. apply wp_eq in Hn. apply wp_eq. split; [|done].
  eapply same_part_are; [apply keeps|done].
Qed.

Lemma sees_CheckAccess m u : sees (E:=list UserEffect) m (λ _, stands_for user_caller_of u) (lift (CheckAccessV3 (User_Manager_UserID config) opUserID u)).
Proof.
  apply sees_lift. intros []. unfold CheckAccessV3, stands_for. cbn. rewrite Contain_spec.
  case_bool_decide; [by left|]. case_bool_decide; [by right|done].
Qed.

(** ** Registration *)

Lemma sees_validate m infos : sees m (λ ids, ids = UI_UserID <$> infos ∧ ∀ info, info ∈ infos → valid_id (UI_UserID info))
  (fold_each (W:=W) infos [] (λ userIDs user,
    _ ← guard (bool_decide (UI_UserID user = "")) (Wrap ErrArgs "userID is empty");
    _ ← guard (has_colon (UI_UserID user)) (Wrap ErrArgs "userID contains ':' is invalid userID");
    mret (userIDs ++ [UI_UserID user]))).
Proof.
  intros w Hw. apply wp_fold_each with (I := λ done ids w', w' = w ∧ ids = UI_UserID <$> done ∧
    ∀ info, info ∈ done → valid_id (UI_UserID info)).
  - split_and!; [done..|]. by intros ? ?%elem_of_nil.
  - intros ls info rest ids w' _ (-> & -> & Hv). apply wp_bind, wp_guard; intros H1'; [by split|].
    apply wp_bind, wp_guard; intros H2'; [by split|]. apply wp_ret. split; [done|]. rewrite fmap_app. split; [done|].
    bool_facts. intros x [Hx|Hx%list_elem_of_singleton]%elem_of_app; [auto|by subst].
  - intros ids w' (-> & Hids). split; [done|]. by intros ? [= <-].
Qed.

Lemma sees_IsExist m us : sees (E:=list UserEffect) m (λ b, b = false → ∀ u, u ∈ us → m !! u = None) (IsExist us).
Proof.
  apply sees_keyed. intros Hkey. eapply sees_bind; [apply sees_on_users, rows_Find|].
  intros l Hl. apply sees_ret. cbn in Hl. intros Hb u Hu. apply eq_None_not_Some. intros [r Hr].
  bool_facts. unfold len in Hb. destruct l as [|x l]; [|cbn in Hb; lia].
  apply (not_elem_of_nil r), Hl. by rewrite (Hkey _ _ Hr).
Qed.

Lemma makes_UserRegister m req :
  makes m (user_step user_caller_of m (Call_UserRegister req)) (UserRegister config now req).
Proof.
  unfold UserRegister.
  eapply makes_bind with (X := λ _, Reg_Users req ≠ []).
  { apply sees_guard. intros Hb. bool_facts. intros Hn. by rewrite Hn in Hb. }
  intros _ Hne. eapply makes_bind with (X := λ _, Reg_Secret req = Secret config).
  { apply sees_guard. intros Hb. by bool_facts. }
  intros _ Hsec. eapply makes_bind with (X := λ _, NoDup (UI_UserID <$> Reg_Users req)).
  { apply sees_guard. rewrite DuplicateAny_spec, bool_decide_eq_false. intros Hd. by apply dec_stable. }
  intros _ Hnd. eapply makes_bind; [apply sees_validate|]. intros ids [-> Hv].
  eapply makes_bind; [apply sees_IsExist|]. intros b Hb.
  eapply makes_bind with (X := λ _, ∀ info, info ∈ Reg_Users req → m !! UI_UserID info = None).
  { apply sees_guard. intros Hf info Hin. apply (Hb Hf), list_elem_of_fmap_2, Hin. }
  intros _ Hnone. apply makes_create_del. intros t Ht. eapply wp_mono; [|by apply (rows_Create now (Reg_Users req) m)].
  intros [[]|e| |] t' Hr; try done. destruct Hr as [-> _]. split.
  - apply (step_register user_caller_of m req); auto.
  - intros u. right. intros r Hr. rewrite lookup_registered_old; [done|]. intros info Hin <-.
    rewrite Hnone in Hr by done. done.
Qed.

(** ** Changes *)

Lemma makes_alter m ks u (f : UserModel → UserModel) (c : M UT ()) :
  on_rows m c (λ _ m', m' = alter f u m) (λ _, True) → getUserInfoKey u ∈ ks →
  makes (E:=list UserEffect) m (λ m', m' = alter f u m) (_ ← on_users c; user_ExecDel ks).
Proof.
  intros Hc Hk. apply makes_stmt_del. intros t Ht. eapply wp_mono; [|by apply Hc].
  intros [[]|e| |] t' Hr; try done. split; [done|]. intros v. destruct (decide (v = u)) as [->|Hv]; [by left|].
  right. intros r Hr'. by rewrite Hr, lookup_alter_ne.
Qed.

Lemma makes_UpdateUserInfo m info : makes m (user_step user_caller_of m (Call_UpdateUserInfo info))
  (UpdateUserInfo config now operationID opUserID StructToJsonString Marshal_elem answers info).
Proof.
  unfold UpdateUserInfo. eapply makes_bind; [apply sees_CheckAccess|]. intros [] Hst.
  eapply makes_bind; [apply sees_callback|]. intros info' Hsame. cbv zeta. apply makes_then.
  - eapply makes_mono; [apply makes_alter; [apply rows_Update|by left]|]. intros m' ->.
    pose proof Hsame as (Hid & _). change (User_UserID (UserPb2DB info')) with (UI_UserID info'). rewrite Hid.
    by apply step_update.
  - apply keeps_bind; [apply _|]. intros _. apply keeps_bind; [apply _|]. intros friends. apply keeps_bind; [|intros _; apply keeps_bind; intros; apply _].
    destruct (_ || _); apply _.
Qed.

Lemma makes_SetGlobalRecvMessageOpt m req : makes m (user_step user_caller_of m (Call_SetGlobalRecvMessageOpt req))
  (SetGlobalRecvMessageOpt config now opUserID StructToJsonString Marshal_elem answers req).
Proof.
  unfold SetGlobalRecvMessageOpt. eapply makes_bind; [apply sees_FindWithError|]. intros l Hl. cbn in Hl.
  apply makes_then; [|apply _].
  eapply makes_mono; [apply makes_alter; [apply rows_UpdateByMap|by left]|]. intros m' ->. apply step_set_global.
  destruct (m !! SetG_UserID req); [by eexists|done].
Qed.

Lemma makes_user_handle m call : makes m (user_step user_caller_of m call) (user_handle call).
Proof.
  destruct call; cbn [user_handle].
  - apply makes_UserRegister.
  - apply makes_UpdateUserInfo.
  - apply makes_SetGlobalRecvMessageOpt.
  - apply makes_still; [|constructor]. apply keeps_bind; [|apply _]. unfold SubscribeOrCancelUsersStatus.
    repeat case_match; apply _.
  - apply makes_still; [|constructor]. apply keeps_bind; [apply _|]. intros _. apply keeps_bind; intros; apply _.
Qed.
(** ** Online status and subscriptions *)

(** What each handler does to the parts it does not own. *)
Definition sets_status (call : user_call) : bool := match call with Call_SetUserStatus _ => true | _ => false end.
Definition subscribes (call : user_call) : bool := match call with Call_SubscribeOrCancel _ => true | _ => false end.

#[export] Instance read_only_status us : ReadOnly (userDatabase_GetUserStatus (E:=list UserEffect) us).
Proof. unfold userDatabase_GetUserStatus. apply _. Qed.
#[export] Instance read_only_subscribed u : ReadOnly (GetSubscribedList (E:=list UserEffect) u).
Proof. unfold GetSubscribedList, UserMongo_GetSubscribedList. apply _. Qed.

Lemma keeps_handle {B} (f : W → B) `{!OffEnv f} call :
  off_cache f → (∀ A (c : M UT A), Keeps f (on_users c)) →
  (sets_status call = true → ∀ A (c : M UR A), Keeps f (on_online c)) →
  (subscribes call = true → ∀ A (c : M UD A), Keeps f (on_subs c)) →
  Keeps f (user_handle call).
Proof.
  intros Hcache Husers Honline Hsubs. assert (∀ us, Keeps f (FindWithError us)) as Hfind.
  { intros us. apply keeps_bind; [by apply keeps_batch|]. intros l. apply keeps_bind; intros; apply _. }
  destruct call as [req|info|req|req|req]; cbn [user_handle sets_status subscribes] in *.
  - unfold UserRegister, userDatabase_Create. repeat first [apply keeps_ExecDel; done|apply keeps_beside; done|
      apply keeps_fold_each; intros|apply _|apply keeps_bind; [|intros]].
  - unfold UpdateUserInfo, userDatabase_Update. repeat first [apply keeps_ExecDel; done|apply _|
      apply keeps_bind; [|intros]|case_match].
  - unfold SetGlobalRecvMessageOpt, UpdateByMap. repeat first [apply keeps_ExecDel; done|apply _|
      apply keeps_bind; [|intros]].
  - apply keeps_bind; [|intros; apply _]. unfold SubscribeOrCancelUsersStatus, SubscribeUsersStatus, UnsubscribeUsersStatus.
    specialize (Hsubs eq_refl). repeat first [apply _|apply keeps_bind; [|intros]|case_match].
  - specialize (Honline eq_refl). unfold userServer_SetUserStatus, userDatabase_SetUserStatus.
    repeat first [apply _|apply keeps_bind; [|intros]].
Qed.

Lemma keeps_online call : sets_status call = false → Keeps uw_online (user_handle call).
Proof. intros Hs. apply keeps_handle; try done; try apply _. congruence. Qed.
Lemma keeps_subs call : subscribes call = false → Keeps uw_subs (user_handle call).
Proof. intros Hs. apply keeps_handle; try done; try apply _. congruence. Qed.
End UserRefinement.
