(* ===== verification/UserTheorems.v ===== *)
(** * The properties of the user service

    What holds after any calls of the service, whoever makes them: who is a user,
    what the queries answer, where the users are, who is told of it, and what the
    message service lets pass when it asks this service. *)

From S2P Require Import Prelude.
From S2P Require Import Constants.
From S2P Require Import MsgTypes.
From S2P Require Import MsgProcessor.
From S2P Require Import Tools.
From S2P Require Import Notification.
From S2P Require Import RpcClient.
From S2P Require Import Auth.
From S2P Require Import MsgServer.
From S2P Require Import SendProofs.
From S2P Require Import GroupTypes.
From S2P Require Import FriendTypes.
From S2P Require Import Redis.
From S2P Require Import Sql.
From S2P Require Import RowCache.
From S2P Require Import RowCoherence.
From S2P Require Import GroupStore.
From S2P Require Import UserTypes.
From S2P Require Import UserStore.
From S2P Require Import UserPresence.
From S2P Require Import UserDatabase.
From S2P Require Import UserServer.
From S2P Require Import UserSpec.
From S2P Require Import UserProofs.
From S2P Require Import UserRefinement.
From stdpp Require Import options.
#[local] Set Default Proof Using "Type*".

#[local] Open Scope Z_scope.

(** A call with the user who makes it, at a time, in an operation. *)
Record user_visit := mkUserVisit { uv_now : Z; uv_operation : string; uv_user : string; uv_call : user_call }.

Section UserTheorems.
Context `{UserEngineLaws} `{!TagSucceeds UC} `{SpecialErrorLaws} `{ToolsLaws} `{MsgToolsLaws} `{UserToolsLaws} `{UserServices}.
Abbreviation W := (UserWorld (list UserEffect)).
Context (config : UserConfig).
Context (StructToJsonString : UserTips → string) (Marshal_elem : string → string + error).
Context (answers : list UserEffect → UserEffect → option error).
Implicit Types (w : W) (m : UserMap) (P : string → list Z).

Abbreviation the_users w := (rows (uw_users w)).
Definition user_visitor (v : user_visit) : user_caller := user_caller_of config (uv_now v) (uv_user v).
Definition user_do (v : user_visit) : M W () :=
  user_handle config (uv_now v) (uv_operation v) (uv_user v) StructToJsonString Marshal_elem answers (uv_call v).

(** A sequence of calls, each made whatever became of the others. *)
Definition serve_users (vs : list user_visit) w : W := foldl (λ w v, (user_do v w).2) w vs.

(** Every call succeeded. *)
Fixpoint all_succeed (vs : list user_visit) w : Prop :=
  match vs with [] => True | v :: vs => (user_do v w).1 = Ok () ∧ all_succeed vs (user_do v w).2 end.

(** ** One call *)

Lemma user_done v w : UsersAgree w → let r := user_do v w in
  UsersAgree r.2 ∧ (user_step (user_visitor v) (the_users w) (uv_call v) (the_users r.2) ∨
    (r.1 ≠ Ok () ∧ the_users r.2 = the_users w)).
Proof.
  intros Ha r. pose proof (makes_user_handle config (uv_now v) (uv_operation v) (uv_user v) StructToJsonString Marshal_elem
    answers (the_users w) (uv_call v) w (conj Ha eq_refl)) as Hw. rewrite wp_eq in Hw. exact Hw.
Qed.

Lemma presence_done v w P : presence (uw_online w) P → let r := user_do v w in
  presence (uw_online r.2) (presence_after (uv_call v) P) ∨ (r.1 ≠ Ok () ∧ presence (uw_online r.2) P).
Proof.
  intros Hp r. destruct (sets_status (uv_call v)) eqn:Hs.
  - destruct v as [t operation u call]. destruct call as [| | | |req]; try done. cbn.
    assert (wp (user_do (mkUserVisit t operation u (Call_SetUserStatus req))) (λ r w',
      presence (uw_online w') (presence_after (Call_SetUserStatus req) P) ∨ (r ≠ Ok () ∧ presence (uw_online w') P)) w) as Hw;
      [|by rewrite wp_eq in Hw].
    unfold user_do. cbn [uv_call user_handle]. unfold userServer_SetUserStatus.
    apply wp_bind, wp_zoom. eapply wp_mono; [|by apply wp_UserCache_SetUserStatus].
    intros [[]|e| |] r' Hr; try done; cbn in Hr.
    + refine (wp_keeps uw_online _ _ _ _). intros x w' Hk. left. by rewrite Hk.
    + destruct Hr as [?|?]; [right; by split|by left].
  - left. unfold r, user_do. rewrite (keeps_online _ _ _ _ _ _ _ (uv_call v) Hs w).
    by destruct (uv_call v).
Qed.

(** C5: each call of the user service that succeeds makes a step of the
    specification, by a caller who may make it, and moves the users as the call says; a call that
    does not succeed makes the same step, or leaves the users as they were, and moves the users that way
    or not at all.  If the cached rows agreed with the table before, and a key is deleted from the cache
    within its five attempts, they agree afterwards, however the call ends. *)
Theorem user_service_refines v w r w' P : UsersAgree w → presence (uw_online w) P → user_do v w = (r, w') →
  UsersAgree w' ∧
  (user_step (user_visitor v) (the_users w) (uv_call v) (the_users w') ∨ (r ≠ Ok () ∧ the_users w' = the_users w)) ∧
  (presence (uw_online w') (presence_after (uv_call v) P) ∨ (r ≠ Ok () ∧ presence (uw_online w') P)).
Proof.
  intros Ha Hp E. pose proof (user_done v w Ha) as [Ha' Hs]. pose proof (presence_done v w P Hp) as Hp'.
  rewrite E in *. auto.
Qed.

(** ** Any calls *)

(** What the steps keep, of the users. *)
Lemma serve_users_keeps (I : list user_visit → UserMap → Prop) vs w :
  (∀ h v m, v ∈ vs → I h m → I (h ++ [v]) m) →
  (∀ h v m m', v ∈ vs → I h m → user_step (user_visitor v) m (uv_call v) m' → I (h ++ [v]) m') →
  UsersAgree w → I [] (the_users w) → UsersAgree (serve_users vs w) ∧ I vs (the_users (serve_users vs w)).
Proof.
  intros Hsame Hstep Ha HI. unfold serve_users. induction vs as [|v vs IH] using rev_ind; [done|].
  rewrite foldl_app. cbn [foldl]. destruct IH as [Ha' HI'].
  - intros h v' m Hv'. apply Hsame, elem_of_app. by left.
  - intros h v' m m' Hv'. apply Hstep, elem_of_app. by left.
  - assert (v ∈ vs ++ [v]) as Hv by (apply elem_of_app; right; by left).
    destruct (user_done v _ Ha') as [Ha2 [Hs|[_ Heq]]]; (split; [done|]).
    + by eapply Hstep.
    + rewrite Heq. by apply Hsame.
Qed.

Lemma serve_users_agree vs w : UsersAgree w → UsersAgree (serve_users vs w).
Proof. intros Ha. by apply (serve_users_keeps (λ _ _, True)). Qed.

(** C9: whoever calls, every user has an id that is not empty and has no
    colon, under which his row stands; nobody is ever removed; and who was not a user before was registered
    by a call that knew the secret. *)
Theorem users_are_registered vs w u : UsersAgree w → users_valid (the_users w) →
  let m' := the_users (serve_users vs w) in
  users_valid m' ∧ (is_Some (the_users w !! u) → is_Some (m' !! u)) ∧
  (the_users w !! u = None → is_Some (m' !! u) → ∃ v req info, v ∈ vs ∧ uv_call v = Call_UserRegister req ∧
     Reg_Secret req = Secret config ∧ info ∈ Reg_Users req ∧ UI_UserID info = u).
Proof.
  intros Ha Hv m'. set (I := λ (h : list user_visit) m, users_valid m ∧ (is_Some (the_users w !! u) → is_Some (m !! u)) ∧
    (the_users w !! u = None → is_Some (m !! u) → ∃ v req info, v ∈ h ∧ uv_call v = Call_UserRegister req ∧
     Reg_Secret req = Secret config ∧ info ∈ Reg_Users req ∧ UI_UserID info = u)).
  assert (I vs m') as HI; [|done]. apply serve_users_keeps; [..|done|].
  - intros h v m _ (? & ? & Hnew). split; [done|]. split; [done|]. intros Hn Hs.
    destruct (Hnew Hn Hs) as (v' & req & info & ? & ?). exists v', req, info. split; [apply elem_of_app; by left|done].
  - intros h v m m2 _ (Hvalid & Hold & Hnew) Hs. split; [by eapply step_users_valid|]. split.
    + intros [r Hr]%Hold. destruct (step_keeps_users _ _ _ _ _ _ Hs Hr) as (r' & ? & _). by exists r'.
    + intros Hn Hsome. destruct (m !! u) as [r|] eqn:Hm.
      * destruct (Hnew Hn) as (v' & req & info & ? & ?); [by eexists|]. exists v', req, info. split; [apply elem_of_app; by left|done].
      * destruct (step_new_user _ _ _ _ _ Hs Hm Hsome) as (_ & req & info & Hcall & Hsec & Hin & Hid & _).
        exists v, req, info. split; [apply elem_of_app; right; by left|done].
  - split; [done|]. split; [done|]. intros Hn [r Hr]. congruence.
Qed.

(** ** Queries *)

Lemma GetDesignateUsers_answers us w : UsersAgree w →
  wp (userServer_GetDesignateUsers us) (λ r w', the_users w' = the_users w ∧ match r with
    | Ok l => mapM (λ u, UserDB2Pb <$> the_users w !! u) us = Some l
    | Err e => (e = Wrap ErrRecordNotFound "userID not found" ∧ ∃ u, u ∈ us ∧ the_users w !! u = None) ∨ external e
    | _ => False end) w.
Proof.
  intros Ha. apply wp_bind. eapply wp_mono; [|by apply wp_FindWithError].
  intros r w' [Hp Hr]. apply (peeks_are (the_users w)) in Hp; [|by split]. destruct Hp as [_ Hm].
  destruct r as [l|e| |]; try done. apply wp_ret. split; [done|]. rewrite UsersDB2Pb_map.
  clear -Hr. revert l Hr. induction us as [|u us IH]; intros l; cbn; [by intros [= <-]|].
  destruct (the_users w !! u); cbn; [|done]. destruct (mapM _ us) as [l'|] eqn:E; cbn; [|done].
  intros [= <-]. cbn. erewrite IH by done. done.
Qed.

Lemma GetGlobalRecvMessageOpt_answers u w : UsersAgree w →
  wp (GetGlobalRecvMessageOpt u) (λ r w', the_users w' = the_users w ∧ match r with
    | Ok opt => ∃ row, the_users w !! u = Some row ∧ opt = User_GlobalRecvMsgOpt row
    | Err e => (e = Wrap ErrRecordNotFound "userID not found" ∧ the_users w !! u = None) ∨ external e
    | _ => False end) w.
Proof.
  intros Ha. apply wp_bind. eapply wp_mono; [|by apply wp_FindWithError].
  intros r w' [Hp Hr]. apply (peeks_are (the_users w)) in Hp; [|by split]. destruct Hp as [_ Hm].
  destruct r as [l|e| |]; try done.
  - cbn in Hr. destruct (the_users w !! u) as [row|] eqn:Hrow; cbn in Hr; [|done]. injection Hr as <-.
    apply wp_bind, wp_ret, wp_ret. split; [done|]. by exists row.
  - split; [done|]. destruct Hr as [[-> (u' & ->%list_elem_of_singleton & Hn)]|?]; auto.
Qed.

(** After any calls, a query for users answers the rows of the
    table, in the order asked for, through the cache as without it; it fails with the error of a
    missing user only when one is missing; and the option of a user is that of his row. *)
Theorem user_queries_agree vs w us u : UsersAgree w → let w1 := serve_users vs w in
  let '(r, w2) := userServer_GetDesignateUsers us w1 in
  let '(r', w3) := GetGlobalRecvMessageOpt u w1 in
  the_users w2 = the_users w1 ∧ the_users w3 = the_users w1 ∧
  match r with
  | Ok l => mapM (λ u, UserDB2Pb <$> the_users w1 !! u) us = Some l
  | Err e => (e = Wrap ErrRecordNotFound "userID not found" ∧ ∃ u, u ∈ us ∧ the_users w1 !! u = None) ∨ external e
  | _ => False
  end ∧
  match r' with
  | Ok opt => ∃ row, the_users w1 !! u = Some row ∧ opt = User_GlobalRecvMsgOpt row
  | Err e => (e = Wrap ErrRecordNotFound "userID not found" ∧ the_users w1 !! u = None) ∨ external e
  | _ => False
  end.
Proof.
  intros Ha w1. assert (UsersAgree w1) as Ha1 by by apply serve_users_agree.
  pose proof (GetDesignateUsers_answers us w1 Ha1) as Hq. pose proof (GetGlobalRecvMessageOpt_answers u w1 Ha1) as Ho.
  unfold wp in Hq, Ho. destruct (userServer_GetDesignateUsers us w1) as [r w2], (GetGlobalRecvMessageOpt u w1) as [r' w3].
  destruct Hq, Ho. auto.
Qed.

(** ** Online status *)

(** Where the users are after calls that succeeded. *)
Lemma presence_of_calls vs w P : presence (uw_online w) P → all_succeed vs w →
  presence (uw_online (serve_users vs w)) (foldl (λ P v, presence_after (uv_call v) P) P vs).
Proof.
  unfold serve_users. revert w P. induction vs as [|v vs IH]; intros w P Hp Hok; [done|]. destruct Hok as [Hv Hok].
  cbn [foldl]. apply IH; [|done]. destruct (presence_done v w P Hp) as [?|[? _]]; done.
Qed.

(** after calls that succeeded, the status of a user is the platforms
    on which the last call about him said online, in the order in which they appeared. *)
Theorem statuses_agree vs w P us l w2 : presence (uw_online w) P → all_succeed vs w →
  userServer_GetUserStatus us (serve_users vs w) = (Ok l, w2) →
  let P' := foldl (λ P v, presence_after (uv_call v) P) P vs in
  l = (λ u, status_of u (P' u)) <$> us ∧ presence (uw_online w2) P'.
Proof.
  intros Hp Hall E P'. pose proof (presence_of_calls vs w P Hp Hall) as Hok. fold P' in Hok.
  assert (wp (userServer_GetUserStatus us) (λ r w', ∀ l, r = Ok l → l = (λ u, status_of u (P' u)) <$> us ∧ presence (uw_online w') P')
    (serve_users vs w)) as Hw.
  { apply wp_zoom. apply (wp_UserCache_GetUserStatus us _ _ P'); [exact Hok| |done]. by intros ? [= <-]. }
  rewrite wp_eq, E in Hw. by apply Hw.
Qed.

(** ** Subscriptions *)

Context `{!DocsWork}.

(** How many users each user has asked to subscribe to. *)
Definition asked_for (u : string) (v : user_visit) : Z :=
  match uv_call v with
  | Call_SubscribeOrCancel req =>
      if bool_decide (Sub_UserID req = u) && (Sub_Genre req =? SubscriberUser) then len (Sub_UserIDs req) else 0
  | _ => 0
  end.
Definition total_asked (u : string) (vs : list user_visit) : Z := foldr (λ v n, asked_for u v + n) 0 vs.

Lemma asked_for_nonneg u v : 0 ≤ asked_for u v.
Proof. unfold asked_for, len. destruct (uv_call v); try done. case_match; lia. Qed.
Lemma total_asked_app u vs vs' : total_asked u (vs ++ vs') = total_asked u vs + total_asked u vs'.
Proof. unfold total_asked. induction vs as [|v vs IH]; [done|]. cbn. lia. Qed.

Lemma mirror_ext (S S' : string → gset string) d : mirror S d → (∀ u, S u = S' u) → mirror S' d.
Proof. intros [Hs Hf Hn] HS. split; [..|done]; intros u v; by rewrite <-HS. Qed.

Lemma subscribed_done v w S : mirror S (uw_subs w) →
  len (subscriptions (uw_subs w) (match uv_call v with Call_SubscribeOrCancel req => Sub_UserID req | _ => "" end)) +
    asked_for (match uv_call v with Call_SubscribeOrCancel req => Sub_UserID req | _ => "" end) v ≤ MaximumSubscription →
  let w' := (user_do v w).2 in
  mirror (subscribed_after (uv_call v) S) (uw_subs w') ∧
  ∀ u, len (subscriptions (uw_subs w') u) ≤ len (subscriptions (uw_subs w) u) + asked_for u v.
Proof.
  intros Hm Hcap w'. destruct (subscribes (uv_call v)) eqn:Hs.
  - destruct v as [t operation c call]. destruct call as [| | |req|]; try done. unfold asked_for in *. cbn [uv_call] in *.
    assert (wp (user_do (mkUserVisit t operation c (Call_SubscribeOrCancel req))) (λ _ w',
      mirror (subscribed_after (Call_SubscribeOrCancel req) S) (uw_subs w') ∧
      ∀ u, len (subscriptions (uw_subs w') u) ≤ len (subscriptions (uw_subs w) u) +
        (if bool_decide (Sub_UserID req = u) && (Sub_Genre req =? SubscriberUser) then len (Sub_UserIDs req) else 0)) w) as Hw;
      [|by rewrite wp_eq in Hw].
    unfold user_do. cbn [uv_call user_handle]. apply wp_bind. unfold SubscribeOrCancelUsersStatus.
    destruct (Sub_Genre req =? SubscriberUser) eqn:Hg; [|destruct (Sub_Genre req =? Unsubscribe) eqn:Hg2].
    + rewrite bool_decide_true in Hcap by done. cbn in Hcap. apply wp_bind, wp_zoom.
      eapply wp_AddSubscriptionList; [exact Hm|done|]. intros d' Hd' Hlen.
      refine (wp_keeps uw_subs _ _ _ _). intros r w2 Hk.
      assert (mirror (subscribed_after (Call_SubscribeOrCancel req) S) (uw_subs w2) ∧
        ∀ u, len (subscriptions (uw_subs w2) u) ≤ len (subscriptions (uw_subs w) u) +
          (if bool_decide (Sub_UserID req = u) && true then len (Sub_UserIDs req) else 0)) as Hgoal.
      { rewrite Hk. cbn. split.
        - eapply mirror_ext; [exact Hd'|]. intros u. unfold with_subscriptions. by rewrite Hg.
        - intros u. specialize (Hlen u). rewrite andb_true_r. case_decide; case_bool_decide; try done; congruence. }
      by destruct r; try apply wp_ret.
    + apply wp_bind, wp_zoom. eapply wp_UnsubscriptionList; [exact Hm|]. intros d' Hd' Hlen. apply wp_ret, wp_ret. cbn. split.
      * eapply mirror_ext; [exact Hd'|]. intros u. unfold without_subscriptions. by rewrite Hg, Hg2.
      * intros u. specialize (Hlen u). rewrite andb_false_r. lia.
    + apply wp_ret, wp_ret. split.
      * eapply mirror_ext; [exact Hm|]. intros u. cbn. rewrite Hg, Hg2. by destruct (decide _).
      * intros u. rewrite andb_false_r. lia.
  - unfold w', user_do. rewrite (keeps_subs _ _ _ _ _ _ _ (uv_call v) Hs w). split.
    + by destruct (uv_call v).
    + intros u. pose proof (asked_for_nonneg u v). lia.
Qed.

Lemma subscriptions_served vs w S : mirror S (uw_subs w) →
  (∀ u, len (subscriptions (uw_subs w) u) + total_asked u vs ≤ MaximumSubscription) →
  mirror (foldl (λ S v, subscribed_after (uv_call v) S) S vs) (uw_subs (serve_users vs w)).
Proof.
  unfold serve_users. revert w S. induction vs as [|v vs IH]; intros w S Hm Hcap; [done|]. cbn [foldl].
  assert (∀ u, 0 ≤ total_asked u vs) as Hpos.
  { intros u. unfold total_asked. clear. induction vs as [|v vs IH]; cbn; [done|]. pose proof (asked_for_nonneg u v). lia. }
  destruct (subscribed_done v w S Hm) as [Hm' Hlen].
  - match goal with |- len (subscriptions _ ?u) + _ ≤ _ => specialize (Hcap u); specialize (Hpos u) end.
    cbn [total_asked foldr] in Hcap. unfold total_asked in Hpos. lia.
  - apply IH; [exact Hm'|]. intros u. specialize (Hcap u). specialize (Hlen u). cbn [total_asked foldr] in Hcap.
    unfold total_asked. lia.
Qed.

(** The message that tells [to] of a user's status. *)
Definition status_message (now : Z) (content : string) (from to : string) : MsgData :=
  notification_msg (User_Config_Notification config) now utils_GetMsgID from to Constants.UserStatusChangeNotification
    SingleChatType ("", "") content.

Lemma wp_tell_status now from to status platformID content w (Q : outcome () → W → Prop) :
  Marshal_elem (StructToJsonString (UserStatusChangeTips from to status platformID)) = inl content →
  Q (Ok ()) (put_user_env (uw_env w ++ [UserSendMsg (status_message now content from to)]) w) →
  wp (unminded (UserStatusChangeNotification config now StructToJsonString Marshal_elem answers from to status platformID)) Q w.
Proof.
  intros Hc HQ. unfold unminded. apply wp_bind, wp_try.
  unfold UserStatusChangeNotification, user_notify, Notification, NotificationWithSesstionType.
  apply wp_bind. rewrite Hc. apply wp_bind, wp_ret. unfold user_send.
  apply wp_bind, wp_bind, wp_zoom, wp_tell; intros; [apply wp_ret|]; apply wp_ret; exact HQ.
Qed.

(** C35: where MongoDB carries out every statement on the collection of subscriptions,
    which at first keeps the subscriptions [S0] in both its lists, and the contents of
    notifications can be encoded: while nobody's subscriptions and those he has asked
    for since come to more than three thousand, a change of a user's status that
    succeeds sends one notification to each user who subscribes to him, by [S0] and
    the history of the calls, and nothing else. *)
Theorem status_reaches_subscribers vs w S0 req now (text : UserTips → string) :
  mirror S0 (uw_subs w) → (∀ u, len (subscriptions (uw_subs w) u) + total_asked u vs ≤ MaximumSubscription) →
  (∀ tips, Marshal_elem (StructToJsonString tips) = inl (text tips)) →
  let w1 := serve_users vs w in
  let S := foldl (λ S v, subscribed_after (uv_call v) S) S0 vs in
  let '(r, w2) := userServer_SetUserStatus config now StructToJsonString Marshal_elem answers req w1 in
  r = Ok () → ∃ l, NoDup l ∧ (∀ x, x ∈ l ↔ SetS_UserID req ∈ S x) ∧
    uw_env w2 = uw_env w1 ++ ((λ x, UserSendMsg (status_message now
      (text (UserStatusChangeTips (SetS_UserID req) x (SetS_Status req) (SetS_PlatformID req))) (SetS_UserID req) x)) <$> l).
Proof.
  intros Hm Hcap Htext w1 S.
  assert (mirror S (uw_subs w1)) as [Hsub Hfan Hnd] by by apply subscriptions_served.
  set (tell x := UserSendMsg (status_message now
      (text (UserStatusChangeTips (SetS_UserID req) x (SetS_Status req) (SetS_PlatformID req))) (SetS_UserID req) x)).
  assert (wp (userServer_SetUserStatus config now StructToJsonString Marshal_elem answers req) (λ r w2,
    r = Ok () → uw_env w2 = uw_env w1 ++ (tell <$> subscribers (uw_subs w1) (SetS_UserID req))) w1) as Hw.
  { unfold userServer_SetUserStatus. apply wp_bind, wp_zoom, wp_val. intros [[]|e| |] o _; try done.
    apply wp_bind, wp_zoom, wp_find_list. cbn [uw_subs put_online].
    apply wp_for_each with (I := λ done w', uw_env w' = uw_env w1 ++ (tell <$> done)).
    - by rewrite fmap_nil, app_nil_r.
    - intros ls x rest w' _ Hw'. eapply wp_tell_status; [apply Htext|]. cbn. by rewrite Hw', fmap_app, app_assoc.
    - intros w' Hw' _. exact Hw'. }
  rewrite wp_eq in Hw. destruct (userServer_SetUserStatus _ _ _ _ _ _ w1) as [r w2]. intros Hr. cbn in Hw.
  exists (subscribers (uw_subs w1) (SetS_UserID req)). split; [apply Hnd|]. split; [intros x; apply Hfan|by apply Hw].
Qed.

(** A user whose subscriptions would exceed three thousand loses almost
    all of them: of his list only what comes after the place that the new ones leave free is kept; and those he
    no longer subscribes to go on telling him of their status. *)
Theorem AddSubscriptionList_overflow u us d S : mirror S d →
  MaximumSubscription < len (subscriptions d u) + len us → len us ≤ MaximumSubscription →
  let '(r, d') := AddSubscriptionList u us d in
  r = Ok () ∧
  (∀ v, v ∈ subscriptions d' u ↔
     v ∈ drop (Z.to_nat (MaximumSubscription - len us)) (subscriptions d u) ∨ v ∈ us) ∧
  (∀ v, v ∈ subscriptions d u → u ∈ subscribers d' v).
Proof.
  intros [Hsub Hfan Hnd] Hover Hmax.
  assert (wp (AddSubscriptionList u us) (λ r d', r = Ok () ∧
    (∀ v, v ∈ subscriptions d' u ↔ v ∈ drop (Z.to_nat (MaximumSubscription - len us)) (subscriptions d u) ∨ v ∈ us) ∧
    (∀ v, v ∈ subscriptions d u → u ∈ subscribers d' v)) d) as Hw; [|exact Hw].
  apply wp_AddSubscriptionList_over; [done..|]. intros d' Hs Hf. split; [done|]. split; [done|].
  intros v Hv. apply Hf. left. by apply Hfan, Hsub.
Qed.
(** ** The message service *)

Context (msg_config : MsgConfig) (today : string) (rand_Int : Z) (Error : error → string) (tips_JsonDetail : string → string).
Context (msg_answers : list Effect → Effect → option error).
Context (webhook : CommonCallbackReq → list Effect → CallbackMsgModifyCommandResp + error).

(** The services of the message service, of which the user service is this one. *)
Definition with_users w (others : Services Effect) : Services Effect := {|
  svc_GetDesignateUsers us _ := answer_of (userServer_GetDesignateUsers us w).1;
  svc_GetGlobalRecvMessageOpt u _ := answer_of (GetGlobalRecvMessageOpt u w).1;
  svc_IsFriend := svc_IsFriend; svc_IsBlack := svc_IsBlack;
  svc_GetGroupsInfo := svc_GetGroupsInfo; svc_GetGroupMembersInfo := svc_GetGroupMembersInfo;
  svc_GetGroupMemberUserIDs := svc_GetGroupMemberUserIDs; svc_GetGroupInfoCache := svc_GetGroupInfoCache;
  svc_GetGroupMemberCache := svc_GetGroupMemberCache; svc_GetConversation := svc_GetConversation;
  svc_GetConversations := svc_GetConversations;
  svc_GetConversationsByConversationID := svc_GetConversationsByConversationID;
  svc_GetConversationIDs := svc_GetConversationIDs;
  svc_GetUserConversationIDsHash := svc_GetUserConversationIDsHash |}.

Lemma global_opt_answer w u opt : UsersAgree w → answer_of (GetGlobalRecvMessageOpt u w).1 = inl opt →
  ∃ row, the_users w !! u = Some row ∧ opt = User_GlobalRecvMsgOpt row.
Proof.
  intros Ha E%answer_ok. pose proof (GetGlobalRecvMessageOpt_answers u w Ha) as Hw.
  rewrite wp_eq, E in Hw. by destruct Hw.
Qed.

(** The sending of a message in a single chat to a user who receives none does nothing. *)
Lemma silent_single now operation w others (msg : MsgData) h row : UsersAgree w →
  the_users w !! RecvID msg = Some row → User_GlobalRecvMsgOpt row = NotReceiveMessage →
  SessionType msg = SingleChatType → IsNotificationByMsg msg = false →
  let '(r, h') := SendMsg (H1:=with_users w others) msg_config now today rand_Int operation msg_answers webhook tips_JsonDetail Error (Some msg) h in
  h' = h ∧ ∀ resp, r ≠ Ok (Some resp).
Proof.
  intros Ha Hrow Hopt Hs Hn. apply quiet_single; [done..|]. intros msg' _.
  unfold modifyMessageByUserMessageReceiveOpt. apply wp_bind, wp_ask; [|done].
  intros opt Ho. apply global_opt_answer in Ho as (row' & Hrow' & ->); [|done].
  rewrite Hrow in Hrow'. injection Hrow' as <-. rewrite Hopt, Z.eqb_refl. by apply wp_ret.
Qed.

(** C12: where a key is deleted from the cache within five attempts and the cached rows agree with the table
    at first: once a user has asked to receive no messages, the message service, whoever writes to him in a
    single chat a message without the option that makes it a notification, queues nothing and answers without a
    response, until a call sets his option again, be it to another value by UpdateUserInfo; no other call of
    anybody changes that. *)
Theorem silence_is_kept v req vs w w1 others now operation (msg : MsgData) h : UsersAgree w →
  uv_call v = Call_SetGlobalRecvMessageOpt req → SetG_GlobalRecvMsgOpt req = NotReceiveMessage → user_do v w = (Ok (), w1) →
  (∀ v' req', v' ∈ vs → uv_call v' = Call_SetGlobalRecvMessageOpt req' → SetG_UserID req' ≠ SetG_UserID req) →
  (∀ v' info, v' ∈ vs → uv_call v' = Call_UpdateUserInfo info → stands_for (user_visitor v') (SetG_UserID req) →
    UI_UserID info = SetG_UserID req → UI_GlobalRecvMsgOpt info = 0) →
  SessionType msg = SingleChatType → IsNotificationByMsg msg = false → RecvID msg = SetG_UserID req →
  let '(r, h') := SendMsg (H1:=with_users (serve_users vs w1) others) msg_config now today rand_Int operation
    msg_answers webhook tips_JsonDetail Error (Some msg) h in
  h' = h ∧ ∀ resp, r ≠ Ok (Some resp).
Proof.
  intros Ha Hcall Hopt E Hset Hupd Hs Hn Hr. pose proof (user_done v w Ha) as [Ha1 Hd]. rewrite E in *. cbn [fst snd] in *.
  destruct Hd as [Hd|[? _]]; [|done]. rewrite Hcall in Hd. set (u := SetG_UserID req) in *.
  set (I := λ (_ : list user_visit) m, ∃ row, m !! u = Some row ∧ User_GlobalRecvMsgOpt row = NotReceiveMessage).
  destruct (serve_users_keeps I vs w1) as [Ha2 (row & Hrow & Hro)]; [done| |done| |].
  - intros hs v0 m m0 Hv0 (row & Hrow & Hro) Hstep.
    destruct (step_keeps_opt _ _ _ _ u row Hstep Hrow) as (row' & ? & Heq).
    + intros req' Hc. by eapply Hset.
    + intros info Hc Hst Hu. left. by eapply Hupd.
    + exists row'. split; [done|congruence].
  - apply step_set_global_inv in Hd as [[row Hrow] Heq]. unfold I. rewrite Heq, lookup_alter_eq, Hrow. cbn. eexists. split; [done|]. by destruct row.
  - eapply silent_single; [done| |exact Hro|done..]. by rewrite Hr.
Qed.
End UserTheorems.
