(* ===== verification/UserSamples.v ===== *)
(** * Sample runs of the user service

    On the stores in memory: the witnesses of the theorems of UserTheorems.v. *)

From S2P Require Import Prelude.
From S2P Require Import Constants.
From S2P Require Import MsgTypes.
From S2P Require Import MsgProcessor.
From S2P Require Import Tools.
From S2P Require Import Notification.
From S2P Require Import RpcClient.
From S2P Require Import Auth.
From S2P Require Import MsgServer.
From S2P Require Import SendProofs.
From S2P Require Import MsgServerSamples.
From S2P Require Import FriendTypes.
From S2P Require Import Redis.
From S2P Require Import Sql.
From S2P Require Import RowCache.
From S2P Require Import RowCoherence.
From S2P Require Import GroupStore.
From S2P Require Import GroupMemory.
From S2P Require Import UserTypes.
From S2P Require Import UserStore.
From S2P Require Import UserPresence.
From S2P Require Import UserDatabase.
From S2P Require Import UserServer.
From S2P Require Import UserSpec.
From S2P Require Import UserProofs.
From S2P Require Import UserRefinement.
From S2P Require Import UserTheorems.
From stdpp Require Import options.

#[local] Open Scope Z_scope.

Definition user_code (u : UserModel) : positive :=
  let '(mkUserModel id name face ex t level opt) := u in
  encode [encode id; encode name; encode face; encode ex; encode t; encode level; encode opt].
Definition user_decode (p : positive) : option UserModel :=
  l ← decode p;
  match l with
  | [id; name; face; ex; t; level; opt] =>
      id ← decode id; name ← decode name; face ← decode face; ex ← decode ex; t ← decode t;
      level ← decode level; opt ← decode opt; Some (mkUserModel id name face ex t level opt)
  | _ => None
  end.

Definition online_code (o : OnlineStatus) : positive :=
  let '(mkOnlineStatus u s ps) := o in encode (u, s, ps).
Definition online_decode (p : positive) : option OnlineStatus :=
  '(u, s, ps) ← decode p; Some (mkOnlineStatus u s ps).

Lemma user_decode_code u : user_decode (user_code u) = Some u.
Proof. unfold user_decode, user_code. destruct u. by repeat (rewrite decode_encode; cbn [mbind option_bind]). Qed.
Lemma online_decode_code o : online_decode (online_code o) = Some o.
Proof. unfold online_decode, online_code. destruct o. by rewrite decode_encode. Qed.

Lemma remove_dups_length (l : list string) : (length (remove_dups l) ≤ length l)%nat.
Proof. induction l as [|x l IH]; cbn; [done|]. case_decide; cbn; lia. Qed.
Lemma filter_not_in_nil (l : list string) : filter (.∉ []) l = l.
Proof. induction l as [|x l IH]; [done|]. rewrite filter_cons_True by apply not_elem_of_nil. by rewrite IH. Qed.

(** What [$addToSet] makes of a list. *)
Definition with_added (l xs : list string) : list string := l ++ remove_dups (filter (.∉ l) xs).
Lemma with_added_length l xs : (length (with_added l xs) ≤ length l + length xs)%nat.
Proof.
  unfold with_added. rewrite length_app. pose proof (remove_dups_length (filter (.∉ l) xs)).
  pose proof (length_filter (.∉ l) xs). lia.
Qed.
Lemma with_added_nodup l xs : NoDup l → NoDup (with_added l xs).
Proof.
  intros Hl. apply NoDup_app. split; [done|]. split; [|apply NoDup_remove_dups].
  intros x Hx. rewrite elem_of_remove_dups, list_elem_of_filter. tauto.
Qed.
Lemma mem_added k xs (c c' : gmap string (list string)) : doc_AddToSet (SetDocs:=mem_set_docs) true k xs c = (inl (), c') →
  default [] (c' !! k) = with_added (default [] (c !! k)) xs.
Proof.
  cbn. destruct (c !! k) as [l|]; intros [= <-]; rewrite lookup_insert_eq; [done|]. cbn. unfold with_added. cbn.
  by rewrite filter_not_in_nil.
Qed.

Lemma mem_find_missing k (c : gmap string (list string)) e :
  doc_FindOne (SetDocs:=mem_set_docs) k c = inr e → Unwrap e = MongoNoDocuments → c !! k = None.
Proof. cbn. by destruct (c !! k). Qed.

Definition mem_users : UserEngine := {|
  users_table := mem_table User_UserID;
  user_row_cache := mem_rocks;
  json_user := code_json user_code user_decode;
  json_opt := code_json encode decode;
  json_online := code_json online_code online_decode;
  online_partial _ := OnlineStatus_zero;
  subscribe_docs := mem_set_docs;
  doc_Count k d := inl (len (default [] (d !! k)));
  doc_Set k l d := (inl (), alter (λ _, l) k d);
  online_redis := mem_redis_commands;
  user_Begin _ := None;
  user_Commit _ := None;
  sql_DATE t := pretty (t / 86400000) |}.

#[local] Existing Instance mem_users.
Lemma mem_users_laws : UserEngineLaws.
Proof.
  split; try done.
  - apply mem_table_laws.
  - apply mem_rocks_laws.
  - apply code_json_laws, user_decode_code.
  - apply code_json_laws, online_decode_code.
  - apply mem_set_docs_laws.
  - intros k c e. apply mem_find_missing.
  - by intros k c n [= <-].
  - intros k xs c c' E. apply mem_added in E. cbn. rewrite E. apply with_added_length.
  - intros k xs c c' E. apply mem_added in E. cbn. rewrite E. apply with_added_nodup.
  - by intros k l c c' [= <-].
  - apply mem_redis_laws.
Qed.
Lemma mem_users_tags : TagSucceeds UC.
Proof. apply mem_rocks_tags. Qed.
Lemma mem_users_work : DocsWork.
Proof.
  split.
  - intros k xs c. cbn. by case_match.
  - intros ks xs c. cbn. by case_match.
  - done.
  - intros k c. by eexists.
  - intros k c. cbn. case_match; eauto.
Qed.

Definition model_user_tools : UserTools := {|
  SliceAnySub A K _ a b f := filter (λ x, f x ∉ f <$> b) a;
  DuplicateAny A K _ l f := bool_decide (¬ NoDup (f <$> l)) |}.
#[local] Existing Instance model_user_tools.
Lemma model_user_tools_laws : UserToolsLaws.
Proof. split; [|done]. intros A K ? a b f x. cbn. rewrite list_elem_of_filter. tauto. Qed.

#[local] Existing Instances model_tools model_tools_laws model_msg_tools model_msg_tools_laws
  sample_services mem_users_laws mem_users_tags mem_users_work model_user_tools_laws mem_special mem_special_laws.

(** Nobody has friends, and the webhook does not answer. *)
Definition lonely_services : UserServices := {|
  svc_GetFriendIDs _ _ := inl [];
  webhook_update_user _ _ := inr (Bare ErrCallbackContinue) |}.
#[local] Existing Instance lonely_services.

Definition user_config : UserConfig :=
  mkUserConfig ["admin"] ["boss"] "secret" true (uniform_notification NotificationConf_zero).
Definition tips_text (_ : UserTips) : string := "{}".
Definition tips_elem (_ : string) : string + error := inl "{}".
Definition user_answer (_ : list UserEffect) (_ : UserEffect) : option error := None.

Definition no_users : UserWorld (list UserEffect) :=
  mkUserWorld (H:=mem_users) (∅ : gmap string UserModel) (∅ : gmap string string) (∅ : gmap string (list string)) redis_empty [].
Lemma no_users_agree : UsersAgree no_users.
Proof. intros k s Hs. vm_compute in Hs. discriminate Hs. Qed.
Lemma nobody_online : presence (uw_online no_users) (λ _, []).
Proof. intros u. split; [constructor|]. reflexivity. Qed.

Abbreviation do_visit := (user_do user_config tips_text tips_elem user_answer).
Abbreviation do_visits := (serve_users user_config tips_text tips_elem user_answer).
Abbreviation users_in w := (rows (uw_users w)).

Definition sample_user (u : string) : UserInfo := mkUserInfo u u "" "" 0 0 0.
(** Alice and Bob are registered; Bob subscribes to Alice, who comes online. *)
Definition registers : user_visit := mkUserVisit 100 "op1" "admin"
  (Call_UserRegister (mkUserRegisterReq "secret" [sample_user "alice"; sample_user "bob"])).
Definition bob_subscribes : user_visit := mkUserVisit 200 "op2" "bob"
  (Call_SubscribeOrCancel (mkSubscribeReq "bob" ["alice"] SubscriberUser)).
Definition alice_online : user_visit := mkUserVisit 300 "op3" "alice"
  (Call_SetUserStatus (mkSetUserStatusReq "alice" Online 1)).
Definition bob_silent : user_visit := mkUserVisit 400 "op4" "bob"
  (Call_SetGlobalRecvMessageOpt (mkSetGlobalReq "bob" NotReceiveMessage)).
Definition alice_renamed : user_visit := mkUserVisit 500 "op5" "alice" (Call_UpdateUserInfo (mkUserInfo "alice" "Al" "" "" 0 0 0)).

Definition user_day := do_visits [registers; bob_subscribes; alice_online] no_users.

Lemma ran_user_visit v w r : (do_visit v w).1 = r → do_visit v w = (r, (do_visit v w).2).
Proof. intros <-. by destruct (do_visit v w). Qed.
Lemma visits_agree vs : UsersAgree (do_visits vs no_users).
Proof. apply (serve_users_agree user_config tips_text tips_elem user_answer vs no_users), no_users_agree. Qed.

Lemma user_service_refines_witness :
  let w := do_visits [registers] no_users in let w' := (do_visit alice_renamed w).2 in
  user_step (user_visitor user_config alice_renamed) (users_in w) (uv_call alice_renamed) (users_in w') ∧
  (User_Nickname <$> users_in w' !! "alice") = Some "Al".
Proof.
  intros w w'. split; [|vm_compute; reflexivity].
  assert ((do_visit alice_renamed w).1 = Ok ()) as E by (vm_compute; reflexivity). apply ran_user_visit in E.
  change (do_visit alice_renamed w = (Ok (), w')) in E.
  destruct (user_service_refines user_config tips_text tips_elem user_answer alice_renamed w (Ok ()) w' (λ _, []))
    as (_ & [Hs|[Hn _]] & _); [apply visits_agree|exact nobody_online|exact E|exact Hs|by destruct Hn].
Defined.

Lemma users_are_registered_witness :
  is_Some (users_in user_day !! "alice") ∧ ∃ v req info, v ∈ [registers; bob_subscribes; alice_online] ∧
    uv_call v = Call_UserRegister req ∧ Reg_Secret req = "secret" ∧ info ∈ Reg_Users req ∧ UI_UserID info = "alice".
Proof.
  destruct (users_are_registered user_config tips_text tips_elem user_answer
    [registers; bob_subscribes; alice_online] no_users "alice" no_users_agree) as (_ & _ & Hnew).
  - intros u r Hr. vm_compute in Hr. discriminate Hr.
  - assert (is_Some (users_in user_day !! "alice")) as Hs by (vm_compute; eexists; reflexivity).
    split; [exact Hs|]. apply Hnew; [vm_compute; reflexivity|exact Hs].
Defined.

Lemma user_queries_agree_witness :
  (GetGlobalRecvMessageOpt "alice" user_day).1 = Ok 0 ∧ ∃ row, users_in user_day !! "alice" = Some row ∧ 0 = User_GlobalRecvMsgOpt row.
Proof.
  pose proof (user_queries_agree user_config tips_text tips_elem user_answer [registers; bob_subscribes; alice_online] no_users
    ["alice"] "alice" no_users_agree) as Hq.
  assert ((GetGlobalRecvMessageOpt "alice" user_day).1 = Ok 0) as E by (vm_compute; reflexivity). split; [exact E|].
  change (do_visits [registers; bob_subscribes; alice_online] no_users) with user_day in Hq. cbv zeta in Hq.
  destruct (userServer_GetDesignateUsers ["alice"] user_day) as [r w2].
  destruct (GetGlobalRecvMessageOpt "alice" user_day) as [r' w3]. cbn in E. subst r'. by destruct Hq as (_ & _ & _ & Hrow).
Defined.

Lemma statuses_agree_witness :
  let P := foldl (λ P v, presence_after (uv_call v) P) (λ _, []) [registers; bob_subscribes; alice_online] in
  (userServer_GetUserStatus ["alice"; "bob"] user_day).1 = Ok ((λ u, status_of u (P u)) <$> ["alice"; "bob"]) ∧ P "alice" = [1].
Proof.
  intros P. split; [|reflexivity].
  destruct (userServer_GetUserStatus ["alice"; "bob"] user_day) as [r w2] eqn:E.
  assert (∃ l, r = Ok l) as [l ->].
  { apply (f_equal fst) in E. vm_compute in E. eexists. symmetry. exact E. }
  cbn [fst]. f_equal. eapply (statuses_agree user_config tips_text tips_elem user_answer
    [registers; bob_subscribes; alice_online] no_users (λ _, [])); [exact nobody_online| |exact E].
  repeat (split; [vm_compute; reflexivity|]). exact I.
Defined.

Definition no_followed : UD (UserEngine:=mem_users) := (∅ : gmap string (list string)).
Lemma no_followed_mirror : mirror (λ _, ∅) no_followed.
Proof.
  split; intros; [..|constructor]; change (subscriptions _ _) with ([] : list string);
    change (subscribers _ _) with ([] : list string); rewrite elem_of_nil; set_solver.
Qed.

Lemma status_reaches_subscribers_witness :
  let w := do_visits [registers; bob_subscribes] no_users in
  let r := userServer_SetUserStatus user_config 300 tips_text tips_elem user_answer (mkSetUserStatusReq "alice" Online 1) w in
  r.1 = Ok () ∧ ∃ l, NoDup l ∧ "bob" ∈ l ∧
    uw_env r.2 = uw_env w ++ ((λ x, UserSendMsg (status_message user_config 300 "{}" "alice" x)) <$> l).
Proof.
  intros w r. assert (r.1 = Ok ()) as E by (vm_compute; reflexivity). split; [exact E|].
  pose proof (status_reaches_subscribers user_config tips_text tips_elem user_answer [registers; bob_subscribes] no_users
    (λ _, ∅) (mkSetUserStatusReq "alice" Online 1) 300 (λ _, "{}")) as Hs.
  cbv zeta in Hs. fold w in Hs. fold r in Hs. destruct r as [o w2] eqn:Er. cbn [fst snd] in E |- *.
  destruct Hs as (l & Hnd & Hl & Henv); [apply no_followed_mirror| |done|exact E|].
  - intros u. change (subscriptions _ u) with ([] : list string). unfold total_asked, asked_for. cbn.
    unfold MaximumSubscription, len. destruct (bool_decide _); cbn; lia.
  - exists l. split; [exact Hnd|]. split; [|exact Henv]. apply Hl. cbn. rewrite decide_True by reflexivity. set_solver.
Defined.

(** Alice subscribes to two users, then to 2999 more. *)
Definition two_followed : UD (UserEngine:=mem_users) := (AddSubscriptionList "alice" ["bob"; "dave"] no_followed).2.
Definition crowd : list string := replicate (Z.to_nat 2999) "carol".

Lemma two_followed_mirror : mirror (with_subscriptions "alice" ["bob"; "dave"] (λ _, ∅)) two_followed.
Proof.
  assert (wp (AddSubscriptionList "alice" ["bob"; "dave"])
    (λ _ d, mirror (with_subscriptions "alice" ["bob"; "dave"] (λ _, ∅)) d) no_followed) as Hw.
  { apply wp_AddSubscriptionList with (S := λ _, ∅); [apply no_followed_mirror|by vm_compute|done]. }
  rewrite wp_eq in Hw. exact Hw.
Qed.

Lemma AddSubscriptionList_overflow_witness :
  let d' := (AddSubscriptionList "alice" crowd two_followed).2 in
  ¬ "bob" ∈ subscriptions d' "alice" ∧ "dave" ∈ subscriptions d' "alice" ∧ "alice" ∈ subscribers d' "bob".
Proof.
  assert (len crowd = 2999) as Hc by (unfold len, crowd; rewrite length_replicate; apply Z2Nat.id; lia).
  pose proof (AddSubscriptionList_overflow "alice" crowd two_followed _ two_followed_mirror) as Ho.
  assert (subscriptions two_followed "alice" = ["bob"; "dave"]) as Hs by (vm_compute; reflexivity).
  rewrite Hs, Hc in Ho. destruct (AddSubscriptionList "alice" crowd two_followed) as [r d']. cbn [snd].
  destruct Ho as (_ & Hd & Hf); [reflexivity|unfold MaximumSubscription; lia|].
  change (drop (Z.to_nat (MaximumSubscription - 2999)) ["bob"; "dave"]) with ["dave"] in Hd. split_and!.
  - intros [Hb%list_elem_of_singleton|[Hb _]%elem_of_replicate]%Hd; discriminate.
  - apply Hd. left. by left.
  - apply Hf. by left.
Defined.

Definition to_bob : MsgData := sample_chat SingleChatType "alice" "bob".

Lemma quiet_options v req : v ∈ [alice_online; alice_renamed] → uv_call v = Call_SetGlobalRecvMessageOpt req →
  SetG_UserID req ≠ "bob".
Proof. intros [->|[->|[]%not_elem_of_nil]%elem_of_cons]%elem_of_cons [=]. Qed.
Lemma quiet_updates v info : v ∈ [alice_online; alice_renamed] → uv_call v = Call_UpdateUserInfo info →
  stands_for (user_visitor user_config v) "bob" → UI_UserID info = "bob" → UI_GlobalRecvMsgOpt info = 0.
Proof. intros [->|[->|[]%not_elem_of_nil]%elem_of_cons]%elem_of_cons [=]. by subst. Qed.

Lemma silence_is_kept_witness :
  let w := do_visits [alice_online; alice_renamed] (do_visit bob_silent user_day).2 in
  (SendMsg (H1:=with_users w sample_services) sample_config 600 "today" 1 "op" (λ _ _, None)
    (λ _ _, inr (Bare ErrCallbackContinue)) (λ s, s) (λ _, "") (Some to_bob) []).2 = [].
Proof.
  intros w. assert ((do_visit bob_silent user_day).1 = Ok ()) as E by (vm_compute; reflexivity). apply ran_user_visit in E.
  pose proof (silence_is_kept user_config tips_text tips_elem user_answer sample_config "today" 1 (λ _, "") (λ s, s) (λ _ _, None)
    (λ _ _, inr (Bare ErrCallbackContinue)) bob_silent (mkSetGlobalReq "bob" NotReceiveMessage) [alice_online; alice_renamed]
    user_day _ sample_services 600 "op" to_bob [] (visits_agree _) eq_refl eq_refl E) as Hs. fold w in Hs.
  destruct (SendMsg _ _ _ _ _ _ _ _ _ (Some to_bob) []) as [r h']. cbn [snd]. apply Hs; try reflexivity.
  - exact quiet_options.
  - exact quiet_updates.
Defined.
