(* ===== verification/ConversationTypes.v ===== *)
(** * Data of the conversation service

    The row of a conversation, one for each of its users
    (pkg/common/db/table/relation/conversation.go), the requests with the checks
    they pass before they reach a handler (pkg/protocol/conversation), the
    conversions of pkg/common/convert/conversation.go and the contents of the
    notifications.  The messages [Conversation] and [ConversationReq] are in
    RpcClient.v.  Times are milliseconds. *)

From S2P Require Import Prelude.
From S2P Require Import Constants.
From S2P Require Import Tools.
From S2P Require Import Notification.
From S2P Require Import RpcClient.
From S2P Require Import GroupTypes.
From S2P Require Import FriendTypes.
From stdpp Require Import options.

#[local] Open Scope Z_scope.

(** ** Rows *)

Record ConversationModel := mkConversationModel {
  Cm_OwnerUserID : string; Cm_ConversationID : string; Cm_ConversationType : Z; Cm_UserID : string;
  Cm_GroupID : string; Cm_RecvMsgOpt : Z; Cm_IsPinned : bool; Cm_IsPrivateChat : bool;
  Cm_BurnDuration : Z; Cm_GroupAtType : Z; Cm_AttachedInfo : string; Cm_Ex : string;
  Cm_MaxSeq : Z; Cm_MinSeq : Z; Cm_CreateTime : Z; Cm_IsMsgDestruct : bool;
  Cm_MsgDestructTime : Z; Cm_LatestMsgDestructTime : Z }.

#[export] Instance ConversationModel_eq_dec : EqDecision ConversationModel.
Proof. solve_decision. Defined.

Definition conversation_key (c : ConversationModel) : string * string := (Cm_OwnerUserID c, Cm_ConversationID c).

(** A row with these ids and nothing else. *)
Definition new_conversation (owner conversationID : string) (conversationType : Z) (userID groupID : string) :
    ConversationModel :=
  mkConversationModel owner conversationID conversationType userID groupID 0 false false 0 0 "" "" 0 0
    zero_time false 0 zero_time.
Definition ConversationModel_zero : ConversationModel := new_conversation "" "" 0 "" "".

Definition set_Cm_owner (owner : string) (c : ConversationModel) : ConversationModel :=
  let '(mkConversationModel _ cid ty u g opt pin priv burn at_ att ex mx mn ct dest dt lt) := c in
  mkConversationModel owner cid ty u g opt pin priv burn at_ att ex mx mn ct dest dt lt.
Definition set_Cm_UserID (userID : string) (c : ConversationModel) : ConversationModel :=
  let '(mkConversationModel o cid ty _ g opt pin priv burn at_ att ex mx mn ct dest dt lt) := c in
  mkConversationModel o cid ty userID g opt pin priv burn at_ att ex mx mn ct dest dt lt.
Definition set_Cm_CreateTime (t : Z) (c : ConversationModel) : ConversationModel :=
  let '(mkConversationModel o cid ty u g opt pin priv burn at_ att ex mx mn _ dest dt lt) := c in
  mkConversationModel o cid ty u g opt pin priv burn at_ att ex mx mn t dest dt lt.
Definition set_Cm_IsPrivateChat (b : bool) (c : ConversationModel) : ConversationModel :=
  let '(mkConversationModel o cid ty u g opt pin _ burn at_ att ex mx mn ct dest dt lt) := c in
  mkConversationModel o cid ty u g opt pin b burn at_ att ex mx mn ct dest dt lt.

(** What an insertion makes of a row: the times where none is given, and the
    defaults of the columns [burn_duration] and [msg_destruct_time] in place of zero. *)
Definition auto_conversation (now : Z) (c : ConversationModel) : ConversationModel :=
  let '(mkConversationModel o cid ty u g opt pin priv burn at_ att ex mx mn ct dest dt lt) := c in
  mkConversationModel o cid ty u g opt pin priv (if burn =? 0 then 30 else burn) at_ att ex mx mn
    (auto_time now ct) dest (if dt =? 0 then 604800 else dt) (auto_time now lt).

(** [Updates] by a row: its columns that are not zero. *)
Definition update_conversation (new old : ConversationModel) : ConversationModel :=
  {| Cm_OwnerUserID := Cm_OwnerUserID old; Cm_ConversationID := Cm_ConversationID old;
     Cm_ConversationType := nonzero_int (Cm_ConversationType new) (Cm_ConversationType old);
     Cm_UserID := nonzero_str (Cm_UserID new) (Cm_UserID old);
     Cm_GroupID := nonzero_str (Cm_GroupID new) (Cm_GroupID old);
     Cm_RecvMsgOpt := nonzero_int (Cm_RecvMsgOpt new) (Cm_RecvMsgOpt old);
     Cm_IsPinned := Cm_IsPinned new || Cm_IsPinned old;
     Cm_IsPrivateChat := Cm_IsPrivateChat new || Cm_IsPrivateChat old;
     Cm_BurnDuration := nonzero_int (Cm_BurnDuration new) (Cm_BurnDuration old);
     Cm_GroupAtType := nonzero_int (Cm_GroupAtType new) (Cm_GroupAtType old);
     Cm_AttachedInfo := nonzero_str (Cm_AttachedInfo new) (Cm_AttachedInfo old);
     Cm_Ex := nonzero_str (Cm_Ex new) (Cm_Ex old);
     Cm_MaxSeq := nonzero_int (Cm_MaxSeq new) (Cm_MaxSeq old);
     Cm_MinSeq := nonzero_int (Cm_MinSeq new) (Cm_MinSeq old);
     Cm_CreateTime := nonzero_time (Cm_CreateTime new) (Cm_CreateTime old);
     Cm_IsMsgDestruct := Cm_IsMsgDestruct new || Cm_IsMsgDestruct old;
     Cm_MsgDestructTime := nonzero_int (Cm_MsgDestructTime new) (Cm_MsgDestructTime old);
     Cm_LatestMsgDestructTime := nonzero_time (Cm_LatestMsgDestructTime new) (Cm_LatestMsgDestructTime old) |}.

(** The columns a conversation is updated by. *)
Inductive conversation_column :=
  | ccol_recv_msg_opt (v : Z) | ccol_attached_info (v : string) | ccol_ex (v : string)
  | ccol_is_pinned (v : bool) | ccol_group_at_type (v : Z) | ccol_msg_destruct_time (v : Z)
  | ccol_is_msg_destruct (v : bool) | ccol_burn_duration (v : Z) | ccol_is_private_chat (v : bool)
  | ccol_max_seq (v : Z).

Definition column_name (c : conversation_column) : string :=
  match c with
  | ccol_recv_msg_opt _ => "recv_msg_opt" | ccol_attached_info _ => "attached_info" | ccol_ex _ => "ex"
  | ccol_is_pinned _ => "is_pinned" | ccol_group_at_type _ => "group_at_type"
  | ccol_msg_destruct_time _ => "msg_destruct_time" | ccol_is_msg_destruct _ => "is_msg_destruct"
  | ccol_burn_duration _ => "burn_duration" | ccol_is_private_chat _ => "is_private_chat"
  | ccol_max_seq _ => "max_seq"
  end.
(** [_, ok := args[name]] *)
Definition has_column (name : string) (args : list conversation_column) : bool :=
  bool_decide (name ∈ column_name <$> args).

Definition set_conversation_column (r : ConversationModel) (c : conversation_column) : ConversationModel :=
  let '(mkConversationModel o cid ty u g opt pin priv burn at_ att ex mx mn ct dest dt lt) := r in
  match c with
  | ccol_recv_msg_opt v => mkConversationModel o cid ty u g v pin priv burn at_ att ex mx mn ct dest dt lt
  | ccol_attached_info v => mkConversationModel o cid ty u g opt pin priv burn at_ v ex mx mn ct dest dt lt
  | ccol_ex v => mkConversationModel o cid ty u g opt pin priv burn at_ att v mx mn ct dest dt lt
  | ccol_is_pinned v => mkConversationModel o cid ty u g opt v priv burn at_ att ex mx mn ct dest dt lt
  | ccol_group_at_type v => mkConversationModel o cid ty u g opt pin priv burn v att ex mx mn ct dest dt lt
  | ccol_msg_destruct_time v => mkConversationModel o cid ty u g opt pin priv burn at_ att ex mx mn ct dest v lt
  | ccol_is_msg_destruct v => mkConversationModel o cid ty u g opt pin priv burn at_ att ex mx mn ct v dt lt
  | ccol_burn_duration v => mkConversationModel o cid ty u g opt pin priv v at_ att ex mx mn ct dest dt lt
  | ccol_is_private_chat v => mkConversationModel o cid ty u g opt pin v burn at_ att ex mx mn ct dest dt lt
  | ccol_max_seq v => mkConversationModel o cid ty u g opt pin priv burn at_ att ex v mn ct dest dt lt
  end.
Definition set_conversation_columns (cs : list conversation_column) (r : ConversationModel) : ConversationModel :=
  foldl set_conversation_column r cs.

Lemma conversation_key_auto now c : conversation_key (auto_conversation now c) = conversation_key c.
Proof. by destruct c. Qed.
Lemma conversation_key_column c r : conversation_key (set_conversation_column r c) = conversation_key r.
Proof. by destruct r, c. Qed.
Lemma conversation_key_columns cs r : conversation_key (set_conversation_columns cs r) = conversation_key r.
Proof.
  unfold set_conversation_columns. revert r. induction cs as [|c cs IH]; intros r; [done|]. cbn. by rewrite IH, conversation_key_column.
Qed.
Lemma conversation_key_owner o c : conversation_key (set_Cm_owner o c) = (o, Cm_ConversationID c).
Proof. by destruct c. Qed.

(** The option that a list of columns leaves. *)
Lemma RecvMsgOpt_columns cs r : has_column "recv_msg_opt" cs = false →
  Cm_RecvMsgOpt (set_conversation_columns cs r) = Cm_RecvMsgOpt r.
Proof.
  unfold has_column, set_conversation_columns. rewrite bool_decide_eq_false. revert r.
  induction cs as [|c cs IH]; intros r Hn; [done|]. cbn in Hn. apply not_elem_of_cons in Hn as [Hc Hn]. cbn.
  rewrite IH by done. destruct r, c; done.
Qed.

(** ** Conversions

    [utils.CopyStructFields(to, from)] copies the fields that have the same name and
    the same type, and leaves the others. *)
Class CopyTools := {
  Copy_model : ConversationModel → ConversationModel → ConversationModel + error;
  Copy_model_to_pb : Conversation → ConversationModel → Conversation + error;
  Copy_pb_to_model : ConversationModel → Conversation → ConversationModel + error;
}.

Definition pb_with_model (to : Conversation) (c : ConversationModel) : Conversation :=
  {| Conv_OwnerUserID := Cm_OwnerUserID c; Conv_ConversationID := Cm_ConversationID c;
     Conv_RecvMsgOpt := Cm_RecvMsgOpt c; Conv_ConversationType := Cm_ConversationType c;
     Conv_UserID := Cm_UserID c; Conv_GroupID := Cm_GroupID c; Conv_IsPinned := Cm_IsPinned c;
     Conv_AttachedInfo := Cm_AttachedInfo c; Conv_IsPrivateChat := Cm_IsPrivateChat c;
     Conv_GroupAtType := Cm_GroupAtType c; Conv_Ex := Cm_Ex c; Conv_BurnDuration := Cm_BurnDuration c;
     Conv_MinSeq := Cm_MinSeq c; Conv_MaxSeq := Cm_MaxSeq c; Conv_MsgDestructTime := Cm_MsgDestructTime c;
     Conv_LatestMsgDestructTime := Conv_LatestMsgDestructTime to; Conv_IsMsgDestruct := Cm_IsMsgDestruct c |}.
Definition model_with_pb (to : ConversationModel) (c : Conversation) : ConversationModel :=
  {| Cm_OwnerUserID := Conv_OwnerUserID c; Cm_ConversationID := Conv_ConversationID c;
     Cm_ConversationType := Conv_ConversationType c; Cm_UserID := Conv_UserID c;
     Cm_GroupID := Conv_GroupID c; Cm_RecvMsgOpt := Conv_RecvMsgOpt c; Cm_IsPinned := Conv_IsPinned c;
     Cm_IsPrivateChat := Conv_IsPrivateChat c; Cm_BurnDuration := Conv_BurnDuration c;
     Cm_GroupAtType := Conv_GroupAtType c; Cm_AttachedInfo := Conv_AttachedInfo c; Cm_Ex := Conv_Ex c;
     Cm_MaxSeq := Conv_MaxSeq c; Cm_MinSeq := Conv_MinSeq c; Cm_CreateTime := Cm_CreateTime to;
     Cm_IsMsgDestruct := Conv_IsMsgDestruct c; Cm_MsgDestructTime := Conv_MsgDestructTime c;
     Cm_LatestMsgDestructTime := Cm_LatestMsgDestructTime to |}.

Class CopyToolsLaws `{CopyTools} : Prop := {
  Copy_model_ok to c r : Copy_model to c = inl r → r = c;
  Copy_model_to_pb_ok to c r : Copy_model_to_pb to c = inl r → r = pb_with_model to c;
  Copy_pb_to_model_ok to c r : Copy_pb_to_model to c = inl r → r = model_with_pb to c;
}.

Definition Conversation_zero : Conversation := mkConversation "" "" 0 0 "" "" false "" false 0 "" 0 0 0 0 0 false.
Definition set_LatestMsgDestructTime (t : Z) (c : Conversation) : Conversation :=
  let '(mkConversation o cid opt ty u g pin att priv at_ ex burn mn mx dt _ dest) := c in
  mkConversation o cid opt ty u g pin att priv at_ ex burn mn mx dt t dest.

Section Conversions.
Context `{CopyTools}.

(** A nil pointer when the fields cannot be copied. *)
Definition ConversationDB2Pb (conversationDB : ConversationModel) : option Conversation :=
  let conversationPB := set_LatestMsgDestructTime (Unix (Cm_LatestMsgDestructTime conversationDB)) Conversation_zero in
  match Copy_model_to_pb conversationPB conversationDB with inl c => Some c | inr _ => None end.
Definition ConversationsDB2Pb (conversationsDB : list ConversationModel) : list Conversation :=
  foldl (λ conversationsPB conversationDB,
    match Copy_model_to_pb Conversation_zero conversationDB with
    | inl conversationPB =>
        conversationsPB ++ [set_LatestMsgDestructTime (Unix (Cm_LatestMsgDestructTime conversationDB)) conversationPB]
    | inr _ => conversationsPB
    end) [] conversationsDB.
Definition ConversationPb2DB (conversationPB : Conversation) : option ConversationModel :=
  match Copy_pb_to_model ConversationModel_zero conversationPB with inl c => Some c | inr _ => None end.
Definition ConversationsPb2DB (conversationsPB : list Conversation) : list ConversationModel :=
  foldl (λ conversationsDB conversationPB,
    match Copy_pb_to_model ConversationModel_zero conversationPB with
    | inl conversationDB => conversationsDB ++ [conversationDB]
    | inr _ => conversationsDB
    end) [] conversationsPB.
End Conversions.

(** A conversation as the protocol has it. *)
Definition pb_of (c : ConversationModel) : Conversation :=
  set_LatestMsgDestructTime (Unix (Cm_LatestMsgDestructTime c)) (pb_with_model Conversation_zero c).

Lemma ConversationDB2Pb_ok `{CopyToolsLaws} c p : ConversationDB2Pb c = Some p → p = pb_of c.
Proof.
  unfold ConversationDB2Pb. destruct (Copy_model_to_pb _ c) as [x|] eqn:E; [|done]. intros [= <-].
  by apply Copy_model_to_pb_ok in E as ->.
Qed.

(** ** Requests *)

Record CreateSingleChatConversationsReq := mkCreateSingleReq {
  CSC_RecvID : string; CSC_SendID : string; CSC_ConversationID : string; CSC_ConversationType : Z }.
Record SetConversationMaxSeqReq := mkSetMaxSeqReq {
  SMS_ConversationID : string; SMS_OwnerUserID : list string; SMS_MaxSeq : Z }.

Abbreviation empty s := (bool_decide (s = "")).
Abbreviation is_nil_slice l := (bool_decide (l = [])).

Definition ConversationReq_Check (x : ConversationReq) : () + error :=
  check (empty (CR_ConversationID x)) "conversation is empty" (inl ()).
Definition Conversation_Check (x : Conversation) : () + error :=
  nonblank (Conv_OwnerUserID x) "OwnerUserID is empty" (
  nonblank (Conv_ConversationID x) "ConversationID is empty" (
  check ((Conv_ConversationType x <? 1) || (4 <? Conv_ConversationType x)) "ConversationType is invalid" (
  check ((Conv_RecvMsgOpt x <? 0) || (2 <? Conv_RecvMsgOpt x)) "RecvMsgOpt is invalid" (inl ())))).
Definition SetConversationReq_Check (conversation : option Conversation) : () + error :=
  match conversation with
  | None => inr (Bare (ErrText "Conversation is empty"))
  | Some c => nonblank (Conv_ConversationID c) "conversationID is empty" (inl ())
  end.
Definition GetConversationReq_Check (OwnerUserID ConversationID : string) : () + error :=
  nonblank OwnerUserID "ownerUserID is empty" (nonblank ConversationID "conversationID is empty" (inl ())).
Definition GetConversationsReq_Check (OwnerUserID : string) (ConversationIDs : list string) : () + error :=
  nonblank OwnerUserID "ownerUserID is empty" (
  check (is_nil_slice ConversationIDs) "conversationIDs is empty" (inl ())).
Definition GetAllConversationsReq_Check (OwnerUserID : string) : () + error :=
  nonblank OwnerUserID "ownerUserID is empty" (inl ()).
Definition GetRecvMsgNotNotifyUserIDsReq_Check (GroupID : string) : () + error :=
  nonblank GroupID "groupID is empty" (inl ()).
Definition CreateGroupChatConversationsReq_Check (GroupID : string) : () + error :=
  nonblank GroupID "groupID is empty" (inl ()).
Definition SetConversationMaxSeqReq_Check (x : SetConversationMaxSeqReq) : () + error :=
  nonblank (SMS_ConversationID x) "conversationID is empty" (
  check (is_nil_slice (SMS_OwnerUserID x)) "ownerUserID is empty" (
  check (SMS_MaxSeq x <=? 0) "maxSeq is invalid" (inl ()))).
Definition SetConversationsReq_Check (UserIDs : list string) (conversation : option ConversationReq) : () + error :=
  check (is_nil_slice UserIDs) "userID is empty" (
  match conversation with
  | None => inr (Bare (ErrText "conversation is empty"))
  | Some c =>
      check (CR_ConversationType c =? 0) "conversationType is invalid" (
      check ((CR_ConversationType c =? SingleChatType) && empty (CR_UserID c)) "userID is empty" (
      check ((CR_ConversationType c =? SuperGroupChatType) && empty (CR_GroupID c)) "groupID is empty" (inl ())))
  end).
Definition GetUserConversationIDsHashReq_Check (OwnerUserID : string) : () + error :=
  nonblank OwnerUserID "ownerUserID is empty" (inl ()).
Definition GetConversationsByConversationIDReq_Check (ConversationIDs : list string) : () + error :=
  check (is_nil_slice ConversationIDs) "conversationIDs is empty" (inl ()).

(** ** Notifications (pkg/protocol/sdkws) *)

Inductive ConversationTips :=
  | ConversationSetPrivateTips (RecvID SendID : string) (IsPrivate : bool) (ConversationID : string)
  | ConversationUpdateTips (UserID : string) (ConversationIDList : list string)
  | ConversationHasReadTips (UserID ConversationID : string) (HasReadSeq UnreadCountTime : Z).
