(* ===== verification/ConversationDatabase.v ===== *)
(** * The conversation database (pkg/common/db/cache/conversation.go, pkg/common/db/controller/conversation.go)

    The rows, the ids of a user's conversations with their hash, and the lists of
    users who do not want messages are read through a cache; every change of the
    table collects the keys it makes stale and deletes them afterwards. *)

From S2P Require Import Prelude.
From S2P Require Import Constants.
From S2P Require Import MsgTypes.
From S2P Require Import MsgProcessor.
From S2P Require Import Tools.
From S2P Require Import RpcClient.
From S2P Require Import GroupTypes.
From S2P Require Import Sql.
From S2P Require Import RowCache.
From S2P Require Import RowCoherence.
From S2P Require Import FriendTypes.
From S2P Require Import ConversationTypes.
From stdpp Require Import options.
#[local] Set Default Proof Using "Type*".

#[local] Open Scope Z_scope.

(** * Storage of conversations (pkg/common/db/relation/conversation_model.go)

    The table of conversations, keyed by the user who owns the row and the
    conversation.  [ConversationEngine] bundles the interfaces of the stores,
    [ConversationWorld] is their state with what the service asked of the others. *)

Class ConversationEngine := {
  CT : Type; CC : Type;
  conversations_table :: Table CT (string * string) ConversationModel;
  conversation_cache :: Rocks CC;
  json_conversation :: Json ConversationModel;
  json_conversation_ids :: Json (list string);
  json_conversation_hash :: Json N;
  json_recv_opt :: Json Z;
  (** Whether a transaction can begin on, or commit, the table, and what a commit publishes. *)
  conversation_Begin : CT → option error;
  conversation_Commit : CT → option error;
  conversation_Merge : CT → CT → CT → CT;
  (** [Distinct("conversation_id")], with a limit and an offset *)
  sql_Distinct : option (Z * Z) → CT → list string + error;
  (** [Where("... owner_user_id in ?", userID)] with one value, which is no list. *)
  pluck_one_value : string → string → CT → Z + error;
}.

Class ConversationEngineLaws `{ConversationEngine} : Prop := {
  conversations_laws :: TableLaws CT (string * string) ConversationModel;
  conversations_key : table_key (T:=CT) = conversation_key;
  conversation_cache_laws :: RocksLaws CC;
  json_conversation_laws :: JsonLaws ConversationModel;
  json_conversation_ids_laws :: JsonLaws (list string);
  json_conversation_hash_laws :: JsonLaws N;
  (** A commit publishes the rows that the transaction changed. *)
  Merge_rows (t0 t1 t2 : CT) : rows (conversation_Merge t0 t1 t2) = merged (rows t0) (rows t1) (rows t2);
}.

Record ConversationWorld `{ConversationEngine} (E : Type) := mkConversationWorld {
  cw_table : CT; cw_cache : CC; cw_env : E }.
Arguments mkConversationWorld {_ E} _ _ _.
Arguments cw_table {_ E} _.
Arguments cw_cache {_ E} _.
Arguments cw_env {_ E} _.

Section Statements.
Context `{ConversationEngine} {E : Type}.
Abbreviation W := (ConversationWorld E).

Definition put_conversations (t : CT) (w : W) : W := mkConversationWorld t (cw_cache w) (cw_env w).
Definition put_conversation_cache (c : CC) (w : W) : W := mkConversationWorld (cw_table w) c (cw_env w).
Definition put_conversation_env (e : E) (w : W) : W := mkConversationWorld (cw_table w) (cw_cache w) e.

#[export] Instance conversation_cached : Cached W CC CT :=
  {| world_cache := cw_cache; set_world_cache := put_conversation_cache; world_tables := cw_table |}.
#[export] Instance conversation_cached_laws : CachedLaws W CC CT.
Proof. by split; intros; try destruct w. Qed.

Definition on_conversations {A} (m : M CT A) : M W A := zoom cw_table put_conversations m.
Definition on_conversation_env {A} (m : M E A) : M W A := zoom cw_env put_conversation_env m.

(** ** The statements *)

Definition conv_owned (o : string) (c : ConversationModel) : bool := bool_decide (Cm_OwnerUserID c = o).
Definition conv_is (cid : string) (c : ConversationModel) : bool := bool_decide (Cm_ConversationID c = cid).
Definition has_conversation (o cid : string) (c : ConversationModel) : bool := conv_owned o c && conv_is cid c.
Definition owner_in (us : list string) (c : ConversationModel) : bool := bool_decide (Cm_OwnerUserID c ∈ us).
Definition id_in (cids : list string) (c : ConversationModel) : bool := bool_decide (Cm_ConversationID c ∈ cids).

Abbreviation find p := (wrap_error (stmt (query (sql_Find (T:=CT) p)))).

Definition ConversationGorm_Create (now : Z) (conversations : list ConversationModel) : M CT () :=
  wrap_error (stmt (sql_Create (auto_conversation now <$> conversations))).
Definition ConversationGorm_Delete (groupIDs : list string) : M CT () :=
  wrap_error (stmt (sql_Delete (λ c, bool_decide (Cm_GroupID c ∈ groupIDs)))).
Definition ConversationGorm_UpdateByMap (userIDList : list string) (conversationID : string)
    (args : list conversation_column) : M CT Z :=
  wrap_error (stmt (sql_Updates (λ c, owner_in userIDList c && conv_is conversationID c)
    (set_conversation_columns args))).
Definition ConversationGorm_Update (conversation : ConversationModel) : M CT () :=
  wrap_error (_ ← stmt (sql_Updates
    (has_conversation (Cm_OwnerUserID conversation) (Cm_ConversationID conversation))
    (update_conversation conversation)); mret ()).
Definition ConversationGorm_Find (ownerUserID : string) (conversationIDs : list string) :
    M CT (list ConversationModel) :=
  find (λ c, conv_owned ownerUserID c && id_in conversationIDs c).
Definition ConversationGorm_Take (userID conversationID : string) : M CT ConversationModel :=
  wrap_error (stmt (query (sql_Take (has_conversation userID conversationID)))).
Definition FindUserID (userIDs conversationIDs : list string) : M CT (list string) :=
  cs ← find (λ c, owner_in userIDs c && id_in conversationIDs c); mret (Cm_OwnerUserID <$> cs).
Definition FindConversationID (userID : string) (conversationIDList : list string) : M CT (list string) :=
  cs ← find (λ c, id_in conversationIDList c && conv_owned userID c); mret (Cm_ConversationID <$> cs).
Definition FindUserIDAllConversationID (userID : string) : M CT (list string) :=
  cs ← find (conv_owned userID); mret (Cm_ConversationID <$> cs).
Definition FindUserIDAllConversations (userID : string) : M CT (list ConversationModel) :=
  find (conv_owned userID).
Definition ConversationGorm_FindRecvMsgNotNotifyUserIDs (groupID : string) : M CT (list string) :=
  cs ← find (λ c, bool_decide (Cm_GroupID c = groupID) && (Cm_RecvMsgOpt c =? ReceiveNotNotifyMessage));
  mret (Cm_OwnerUserID <$> cs).
Definition FindSuperGroupRecvMsgNotNotifyUserIDs (groupID : string) : M CT (list string) :=
  cs ← find (λ c, bool_decide (Cm_GroupID c = groupID) && (Cm_RecvMsgOpt c =? ReceiveNotNotifyMessage) &&
    (Cm_ConversationType c =? SuperGroupChatType));
  mret (Cm_OwnerUserID <$> cs).
(** Without a row the variable stays at zero. *)
Definition ConversationGorm_GetUserRecvMsgOpt (ownerUserID conversationID : string) : M CT Z :=
  cs ← find (has_conversation ownerUserID conversationID); mret (default 0 (Cm_RecvMsgOpt <$> last cs)).
Definition ConversationGorm_GetAllConversationIDs : M CT (list string) :=
  wrap_error (stmt (query (sql_Distinct None))).
Definition ConversationGorm_GetAllConversationIDsNumber : M CT Z :=
  ids ← wrap_error (stmt (query (sql_Distinct None))); mret (len ids).
(** The offset is computed in 32 bits. *)
Definition ConversationGorm_PageConversationIDs (pageNumber showNumber : Z) : M CT (list string) :=
  wrap_error (stmt (query (sql_Distinct (Some (showNumber, wrap32 (wrap32 (pageNumber - 1) * showNumber)))))).
Definition GetUserAllHasReadSeqs (ownerUserID : string) : M CT (gmap string Z) := mret ∅.
Definition ConversationGorm_GetConversationsByConversationID (conversationIDs : list string) :
    M CT (list ConversationModel) := find (id_in conversationIDs).
(** Rows whose time to destruct messages has come; times are seconds. *)
Definition ConversationGorm_GetConversationIDsNeedDestruct (now : Z) : M CT (list ConversationModel) :=
  find (λ c, Cm_IsMsgDestruct c && negb (Cm_MsgDestructTime c =? 0) &&
    (Cm_MsgDestructTime c + Unix (Cm_LatestMsgDestructTime c) <? Unix now)).
Definition GetConversationRecvMsgOpt (userID conversationID : string) : M CT Z :=
  wrap_error (stmt (query (pluck_one_value userID conversationID))).
Definition ConversationGorm_GetConversationNotReceiveMessageUserIDs (conversationID : string) : M CT (list string) :=
  cs ← find (λ c, conv_is conversationID c && negb (Cm_RecvMsgOpt c =? ReceiveMessage));
  mret (Cm_OwnerUserID <$> cs).

(** ** Transactions *)

Definition in_conversation_tx {A} (m : M CT A) : M (CT * W) A := on_fst m.
Definition beside_conversation_tx {A} (m : M CT A) : M (CT * W) A := on_snd (on_conversations m).
Definition ConversationTransaction {A} : M (CT * W) A → M W A :=
  merging_transaction cw_table put_conversations conversation_Begin conversation_Commit conversation_Merge.
End Statements.

(** ** Keys *)

Definition conversationKey : string := "CONVERSATION:".
Definition conversationIDsKey : string := "CONVERSATION_IDS:".
Definition conversationIDsHashKey : string := "CONVERSATION_IDS_HASH:".
Definition conversationHasReadSeqKey : string := "CONVERSATION_HAS_READ_SEQ:".
Definition recvMsgOptKey : string := "RECV_MSG_OPT:".
Definition superGroupRecvMsgNotNotifyUserIDsKey : string := "SUPER_GROUP_RECV_MSG_NOT_NOTIFY_USER_IDS:".
Definition superGroupRecvMsgNotNotifyUserIDsHashKey : string := "SUPER_GROUP_RECV_MSG_NOT_NOTIFY_USER_IDS_HASH:".
Definition conversationNotReceiveMessageUserIDsKey : string := "CONVERSATION_NOT_RECEIVE_MESSAGE_USER_IDS:".

Definition getConversationKey (ownerUserID conversationID : string) : string :=
  conversationKey +:+ ownerUserID +:+ ":" +:+ conversationID.
Definition getConversationIDsKey (ownerUserID : string) : string := conversationIDsKey +:+ ownerUserID.
Definition getSuperGroupRecvNotNotifyUserIDsKey (groupID : string) : string :=
  superGroupRecvMsgNotNotifyUserIDsKey +:+ groupID.
Definition getRecvMsgOptKey (ownerUserID conversationID : string) : string :=
  recvMsgOptKey +:+ ownerUserID +:+ ":" +:+ conversationID.
Definition getSuperGroupRecvNotNotifyUserIDsHashKey (groupID : string) : string :=
  superGroupRecvMsgNotNotifyUserIDsHashKey +:+ groupID.
Definition getConversationHasReadSeqKey (ownerUserID conversationID : string) : string :=
  conversationHasReadSeqKey +:+ ownerUserID +:+ ":" +:+ conversationID.
Definition getConversationNotReceiveMessageUserIDsKey (conversationID : string) : string :=
  conversationNotReceiveMessageUserIDsKey +:+ conversationID.
Definition getUserConversationIDsHashKey (ownerUserID : string) : string := conversationIDsHashKey +:+ ownerUserID.

(** The keys a cache object will delete: those the receiver has, and these. *)
Definition DelConversationIDs (userIDs c : list string) : list string := c ++ (getConversationIDsKey <$> userIDs).
Definition DelUserConversationIDsHash (ownerUserIDs c : list string) : list string :=
  c ++ (getUserConversationIDsHashKey <$> ownerUserIDs).
Definition DelConversations (ownerUserID : string) (conversationIDs c : list string) : list string :=
  c ++ (getConversationKey ownerUserID <$> conversationIDs).
Definition DelUsersConversation (conversationID : string) (ownerUserIDs c : list string) : list string :=
  c ++ ((λ ownerUserID, getConversationKey ownerUserID conversationID) <$> ownerUserIDs).
Definition DelUserRecvMsgOpt (ownerUserID conversationID : string) (c : list string) : list string :=
  c ++ [getRecvMsgOptKey ownerUserID conversationID].
Definition DelSuperGroupRecvMsgNotNotifyUserIDs (groupID : string) (c : list string) : list string :=
  c ++ [getSuperGroupRecvNotNotifyUserIDsKey groupID].
Definition DelSuperGroupRecvMsgNotNotifyUserIDsHash (groupID : string) (c : list string) : list string :=
  c ++ [getSuperGroupRecvNotNotifyUserIDsHashKey groupID].
Definition DelUserAllHasReadSeqs (ownerUserID : string) (conversationIDs c : list string) : list string :=
  c ++ (getConversationHasReadSeqKey ownerUserID <$> conversationIDs).
Definition DelConversationNotReceiveMessageUserIDs (conversationIDs c : list string) : list string :=
  c ++ (getConversationNotReceiveMessageUserIDsKey <$> conversationIDs).

(** The position of a conversation's key. *)
Definition getConversationIndex (conversation : ConversationModel) (keys : list string) : nat + error :=
  let key := getConversationKey (Cm_OwnerUserID conversation) (Cm_ConversationID conversation) in
  match list_find (.= key) keys with
  | Some (i, _) => inl i
  | None => inr (Bare (ErrText ("not found key:" +:+ key +:+ " in keys")))
  end.
Definition getUserAllHasReadSeqsIndex (conversationID : string) (conversationIDs : list string) : nat + error :=
  match list_find (.= conversationID) conversationIDs with
  | Some (i, _) => inl i
  | None => inr (Bare (ErrText ("not found key:" +:+ conversationID +:+ " in keys")))
  end.

(** The hash of a set of ids: the first eight hexadecimal digits of a digest, which
    is not shorter. *)
Definition hash_ids `{MsgTools} (ids : list string) : option N :=
  hex_value 0 8 (Md5 (strings_Join (sort_Strings ids) ";")).

Section ConversationDatabase.
Context `{ConversationEngine} `{SpecialError} `{Tools} `{MsgTools} `{CopyTools} {E : Type}.
Abbreviation W := (ConversationWorld E).
Context (now : Z).

Definition conversation_getCache {A} `{Json A} (key : string) (fn : M W A) : M W A :=
  getCache world_cache set_world_cache key fn.
Definition conversation_ExecDel (keys : list string) : M W () := ExecDel world_cache set_world_cache keys.

(** ** The cache *)

Definition GetUserConversationIDs (ownerUserID : string) : M W (list string) :=
  conversation_getCache (getConversationIDsKey ownerUserID)
    (on_conversations (FindUserIDAllConversationID ownerUserID)).
Definition ConversationCache_GetUserConversationIDsHash (ownerUserID : string) : M W N :=
  conversation_getCache (getUserConversationIDsHashKey ownerUserID)
    (conversationIDs ← GetUserConversationIDs ownerUserID;
     deref (hash_ids conversationIDs)).
Definition ConversationCache_GetConversation (ownerUserID conversationID : string) : M W ConversationModel :=
  conversation_getCache (getConversationKey ownerUserID conversationID)
    (on_conversations (ConversationGorm_Take ownerUserID conversationID)).
Definition ConversationCache_GetConversations (ownerUserID : string) (conversationIDs : list string) :
    M W (list ConversationModel) :=
  batchGetCache2 world_cache set_world_cache conversationIDs (getConversationKey ownerUserID)
    (λ conversationID, on_conversations (ConversationGorm_Take ownerUserID conversationID)).
Definition GetUserAllConversations (ownerUserID : string) : M W (list ConversationModel) :=
  conversationIDs ← GetUserConversationIDs ownerUserID;
  ConversationCache_GetConversations ownerUserID conversationIDs.
Definition ConversationCache_GetUserRecvMsgOpt (ownerUserID conversationID : string) : M W Z :=
  conversation_getCache (getRecvMsgOptKey ownerUserID conversationID)
    (on_conversations (ConversationGorm_GetUserRecvMsgOpt ownerUserID conversationID)).
Definition GetSuperGroupRecvMsgNotNotifyUserIDs (groupID : string) : M W (list string) :=
  conversation_getCache (getSuperGroupRecvNotNotifyUserIDsKey groupID)
    (on_conversations (FindSuperGroupRecvMsgNotNotifyUserIDs groupID)).
Definition GetSuperGroupRecvMsgNotNotifyUserIDsHash (groupID : string) : M W N :=
  conversation_getCache (getSuperGroupRecvNotNotifyUserIDsHashKey groupID)
    (userIDs ← GetSuperGroupRecvMsgNotNotifyUserIDs groupID;
     deref (hash_ids userIDs)).
(** "implement me" *)
Definition ConversationCache_GetConversationsByConversationID (conversationIDs : list string) :
    M W (list ConversationModel) := panic.
Definition DelConversationByConversationID (conversationIDs : list string) : M W (list string) := panic.
Definition ConversationCache_GetConversationNotReceiveMessageUserIDs (conversationID : string) : M W (list string) :=
  conversation_getCache (getConversationNotReceiveMessageUserIDsKey conversationID)
    (on_conversations (ConversationGorm_GetConversationNotReceiveMessageUserIDs conversationID)).

(** ** controller/conversation.go *)

(** The keys of a group's lists, if the conversation has a group. *)
Definition del_group_lists (groupID : string) (cache : list string) : list string :=
  if bool_decide (groupID = "") then cache
  else DelSuperGroupRecvMsgNotNotifyUserIDsHash groupID (DelSuperGroupRecvMsgNotNotifyUserIDs groupID cache).

(** The rows to create: copies with another owner. *)
Definition conversations_for (conversation : ConversationModel) (userIDs : list string) :
    M (CT * W) (list ConversationModel) :=
  fold_each userIDs [] (λ conversations v,
    temp ← lift (Copy_model ConversationModel_zero conversation);
    mret (conversations ++ [set_Cm_CreateTime now (set_Cm_owner v temp)])).

(** The columns asked for are not given to the rows that are created, and the
    arguments of the last deletion are exchanged. *)
Definition SetUsersConversationFiledTx (userIDs : list string) (conversation : ConversationModel)
    (filedMap : list conversation_column) : M W () :=
  let cid := Cm_ConversationID conversation in
  let cache := del_group_lists (Cm_GroupID conversation) [] in
  cache ← ConversationTransaction (
    haveUserIDs ← in_conversation_tx (FindUserID userIDs [cid]);
    cache ← (if 0 <? len haveUserIDs then
        _ ← in_conversation_tx (ConversationGorm_UpdateByMap haveUserIDs cid filedMap);
        let cache := DelUsersConversation cid haveUserIDs cache in
        let cache := if has_column "has_read_seq" filedMap
          then foldl (λ cache userID, DelUserAllHasReadSeqs userID [cid] cache) cache haveUserIDs else cache in
        mret (if has_column "recv_msg_opt" filedMap
              then DelConversationNotReceiveMessageUserIDs [cid] cache else cache)
      else mret cache);
    let NotUserIDs := DifferenceString haveUserIDs userIDs in
    conversations ← conversations_for conversation NotUserIDs;
    if 0 <? len conversations then
      _ ← in_conversation_tx (ConversationGorm_Create now conversations);
      mret (DelConversations cid NotUserIDs (DelUserConversationIDsHash NotUserIDs (DelConversationIDs NotUserIDs cache)))
    else mret cache);
  conversation_ExecDel cache.

Definition UpdateUsersConversationFiled (userIDs : list string) (conversationID : string)
    (args : list conversation_column) : M W () :=
  _ ← on_conversations (ConversationGorm_UpdateByMap userIDs conversationID args);
  let cache := DelUsersConversation conversationID userIDs [] in
  conversation_ExecDel (if has_column "recv_msg_opt" args
    then DelConversationNotReceiveMessageUserIDs [conversationID] cache else cache).

Definition conversationDatabase_CreateConversation (conversations : list ConversationModel) : M W () :=
  _ ← on_conversations (ConversationGorm_Create now conversations);
  let cache := foldl (λ cache conversation,
    DelConversationNotReceiveMessageUserIDs [Cm_ConversationID conversation]
      (DelConversations (Cm_OwnerUserID conversation) [Cm_ConversationID conversation] cache)) [] conversations in
  let userIDs := Cm_OwnerUserID <$> conversations in
  conversation_ExecDel (DelUserConversationIDsHash userIDs (DelConversationIDs userIDs cache)).

(** One side of a private conversation. *)
Definition sync_private (conversation : ConversationModel) (cache : list string) (v : string * string) :
    M (CT * W) (list string) :=
  let '(ownerUserID, userID) := v in
  let cid := Cm_ConversationID conversation in
  haveUserIDs ← in_conversation_tx (FindUserID [ownerUserID] [cid]);
  if 0 <? len haveUserIDs then
    _ ← in_conversation_tx (ConversationGorm_UpdateByMap [ownerUserID] cid
      [ccol_is_private_chat (Cm_IsPrivateChat conversation)]);
    mret (DelUsersConversation cid [ownerUserID] cache)
  else
    _ ← in_conversation_tx (ConversationGorm_Create now [set_Cm_UserID userID (set_Cm_owner ownerUserID conversation)]);
    mret (DelUserConversationIDsHash [ownerUserID] (DelConversationIDs [ownerUserID] cache)).
Definition SyncPeerUserPrivateConversationTx (conversations : list ConversationModel) : M W () :=
  cache ← ConversationTransaction (fold_each conversations [] (λ cache conversation,
    fold_each [(Cm_OwnerUserID conversation, Cm_UserID conversation); (Cm_UserID conversation, Cm_OwnerUserID conversation)]
      cache (sync_private conversation)));
  conversation_ExecDel cache.

Definition FindConversations (ownerUserID : string) (conversationIDs : list string) : M W (list ConversationModel) :=
  ConversationCache_GetConversations ownerUserID conversationIDs.
Definition conversationDatabase_GetConversation (ownerUserID conversationID : string) : M W ConversationModel :=
  ConversationCache_GetConversation ownerUserID conversationID.
Definition GetUserAllConversation (ownerUserID : string) : M W (list ConversationModel) :=
  GetUserAllConversations ownerUserID.

(** The rows that are missing are created without the transaction. *)
Definition SetUserConversations (ownerUserID : string) (conversations : list ConversationModel) : M W () :=
  let groupIDs := Distinct (Cm_GroupID <$> filter (λ e, Cm_GroupID e ≠ "") conversations) in
  let cache := foldl (λ cache groupID, DelSuperGroupRecvMsgNotNotifyUserIDsHash groupID
    (DelSuperGroupRecvMsgNotNotifyUserIDs groupID cache)) [] groupIDs in
  cache ← ConversationTransaction (
    let conversationIDs := Cm_ConversationID <$> conversations in
    let cache := foldl (λ cache conversation,
      DelConversations (Cm_OwnerUserID conversation) [Cm_ConversationID conversation] cache) cache conversations in
    existConversations ← in_conversation_tx (ConversationGorm_Find ownerUserID conversationIDs);
    _ ← (if 0 <? len existConversations then
           for_each conversations (λ conversation, in_conversation_tx (ConversationGorm_Update conversation))
         else mret ());
    let existConversationIDs := Cm_ConversationID <$> existConversations in
    let notExistConversations := filter (λ c, Contain (Cm_ConversationID c) existConversationIDs = false) conversations in
    if 0 <? len notExistConversations then
      _ ← beside_conversation_tx (ConversationGorm_Create now notExistConversations);
      mret (DelConversationNotReceiveMessageUserIDs (Cm_ConversationID <$> notExistConversations)
        (DelUserConversationIDsHash [ownerUserID] (DelConversationIDs [ownerUserID] cache)))
    else mret cache);
  conversation_ExecDel cache.

Definition conversationDatabase_FindRecvMsgNotNotifyUserIDs (groupID : string) : M W (list string) :=
  GetSuperGroupRecvMsgNotNotifyUserIDs groupID.

(** No statement uses the transaction. *)
Definition CreateGroupChatConversation (groupID : string) (userIDs : list string) : M W () :=
  let conversationID := GetConversationIDBySessionType SuperGroupChatType [groupID] in
  cache ← ConversationTransaction (
    existConversationUserIDs ← beside_conversation_tx (FindUserID userIDs [conversationID]);
    let notExistUserIDs := DifferenceString userIDs existConversationUserIDs in
    let conversations := (λ v, new_conversation v conversationID SuperGroupChatType "" groupID) <$> notExistUserIDs in
    let cache := foldl (λ cache v, DelConversationNotReceiveMessageUserIDs [conversationID]
      (DelConversations v [conversationID] cache)) [] notExistUserIDs in
    let cache := DelUserConversationIDsHash notExistUserIDs (DelConversationIDs notExistUserIDs cache) in
    _ ← (if 0 <? len conversations then beside_conversation_tx (ConversationGorm_Create now conversations) else mret ());
    _ ← beside_conversation_tx (ConversationGorm_UpdateByMap existConversationUserIDs conversationID [ccol_max_seq 0]);
    mret (foldl (λ cache v, DelConversations v [conversationID] cache) cache existConversationUserIDs));
  conversation_ExecDel cache.

Definition conversationDatabase_GetConversationIDs (userID : string) : M W (list string) :=
  GetUserConversationIDs userID.
Definition conversationDatabase_GetUserConversationIDsHash (ownerUserID : string) : M W N :=
  ConversationCache_GetUserConversationIDsHash ownerUserID.
Definition conversationDatabase_GetAllConversationIDs : M W (list string) :=
  on_conversations ConversationGorm_GetAllConversationIDs.
Definition conversationDatabase_GetAllConversationIDsNumber : M W Z :=
  on_conversations ConversationGorm_GetAllConversationIDsNumber.
Definition conversationDatabase_PageConversationIDs (pageNumber showNumber : Z) : M W (list string) :=
  on_conversations (ConversationGorm_PageConversationIDs pageNumber showNumber).
Definition conversationDatabase_GetConversationsByConversationID (conversationIDs : list string) :
    M W (list ConversationModel) :=
  on_conversations (ConversationGorm_GetConversationsByConversationID conversationIDs).
Definition conversationDatabase_GetConversationIDsNeedDestruct : M W (list ConversationModel) :=
  on_conversations (ConversationGorm_GetConversationIDsNeedDestruct now).
Definition conversationDatabase_GetConversationNotReceiveMessageUserIDs (conversationID : string) : M W (list string) :=
  ConversationCache_GetConversationNotReceiveMessageUserIDs conversationID.
End ConversationDatabase.
