(* ===== verification/ConversationServer.v ===== *)
(** * The conversation service (internal/rpc/conversation)

    The handlers, in the order of conversaion.go, and the notifications of
    pkg/rpcclient/notification/conversation.go.  What the service asks of the message
    service are effects; the group service is asked whether a group is there. *)

From S2P Require Import Prelude.
From S2P Require Import Constants.
From S2P Require Import MsgTypes.
From S2P Require Import MsgProcessor.
From S2P Require Import Tools.
From S2P Require Import Notification.
From S2P Require Import RpcClient.
From S2P Require Import GroupTypes.
From S2P Require Import FriendTypes.
From S2P Require Import Sql.
From S2P Require Import RowCache.
From S2P Require Import RowCoherence.
From S2P Require Import ConversationTypes.
From S2P Require Import ConversationDatabase.
From stdpp Require Import options.
#[local] Set Default Proof Using "Type*".

#[local] Open Scope Z_scope.

Inductive ConversationEffect := ConversationSendMsg (m : MsgData).

Section ConversationServer.
Context `{ConversationEngine} `{SpecialError} `{Tools} `{MsgTools} `{CopyTools} `{MapRange} `{Services ConversationEffect}.
Abbreviation W := (ConversationWorld (list ConversationEffect)).
Context (config : notification) (now : Z).
Context (StructToJsonString : ConversationTips → string) (Marshal_elem : string → string + error).
(** What the message service answers. *)
Context (answers : list ConversationEffect → ConversationEffect → option error).

(** ** Notifications *)

Definition conversation_send (m : MsgData) : M W (option SendMsgResp) :=
  _ ← on_conversation_env (tell answers (ConversationSendMsg m)); mret None.
Definition conversation_notify (sendID recvID : string) (contentType : Z) (m : ConversationTips) : M W () :=
  Notification config now StructToJsonString Marshal_elem utils_GetMsgID
    conversation_send None sendID recvID contentType m false.

Definition ConversationSetPrivateNotification (sendID recvID : string) (isPrivateChat : bool)
    (conversationID : string) : M W () :=
  conversation_notify sendID recvID ConversationPrivateChatNotification
    (ConversationSetPrivateTips recvID sendID isPrivateChat conversationID).
Definition ConversationChangeNotification (userID : string) (conversationIDs : list string) : M W () :=
  conversation_notify userID userID Constants.ConversationChangeNotification
    (ConversationUpdateTips userID conversationIDs).
Definition ConversationUnreadChangeNotification (userID conversationID : string) (unreadCountTime hasReadSeq : Z) :
    M W () :=
  conversation_notify userID userID ConversationUnreadNotification
    (ConversationHasReadTips userID conversationID hasReadSeq unreadCountTime).

(** ** Handlers *)

(** The group of a conversation, which must be there. *)
Definition conversation_group (groupID : string) : M W GroupInfo :=
  groups ← on_conversation_env (GetGroupInfos [groupID] true);
  deref (head groups).

(** A conversation that cannot be converted is a nil pointer. *)
Definition conversationServer_GetConversation (OwnerUserID ConversationID : string) : M W (option Conversation) :=
  conversations ← FindConversations OwnerUserID [ConversationID];
  _ ← guard (len conversations <? 1) (Wrap ErrRecordNotFound "conversation not found");
  c ← deref (head conversations);
  mret (ConversationDB2Pb c).

Definition GetAllConversations (OwnerUserID : string) : M W (list Conversation) :=
  conversations ← GetUserAllConversation OwnerUserID;
  mret (ConversationsDB2Pb conversations).

Definition conversationServer_GetConversations (OwnerUserID : string) (ConversationIDs : list string) :
    M W (list Conversation) :=
  conversations ← FindConversations OwnerUserID ConversationIDs;
  mret (ConversationsDB2Pb conversations).

Definition SetConversation (req : Conversation) : M W () :=
  conversation ← lift (Copy_pb_to_model ConversationModel_zero req);
  _ ← SetUserConversations now (Conv_OwnerUserID req) [conversation];
  unminded (ConversationChangeNotification (Conv_OwnerUserID req) [Conv_ConversationID req]).

(** A field of the request: the column it sets, and whether it differs. *)
Definition field {A} `{EqDecision A} (v : option A) (column : A → conversation_column) (old : A) :
    list conversation_column * Z :=
  match v with
  | None => ([], 0)
  | Some v => ([column v], if decide (v = old) then 0 else 1)
  end.

(** What the request asks for, and how many fields of [conv] differ from it: the fields
    before the private flag, and the one after it. *)
Definition fields_before (req : ConversationReq) (conv : ConversationModel) : list conversation_column * Z :=
  let f1 := field (CR_RecvMsgOpt req) ccol_recv_msg_opt (Cm_RecvMsgOpt conv) in
  let f2 := field (CR_AttachedInfo req) ccol_attached_info (Cm_AttachedInfo conv) in
  let f3 := field (CR_Ex req) ccol_ex (Cm_Ex conv) in
  let f4 := field (CR_IsPinned req) ccol_is_pinned (Cm_IsPinned conv) in
  let f5 := field (CR_GroupAtType req) ccol_group_at_type (Cm_GroupAtType conv) in
  let f6 := field (CR_MsgDestructTime req) ccol_msg_destruct_time (Cm_MsgDestructTime conv) in
  let f7 := field (CR_IsMsgDestruct req) ccol_is_msg_destruct (Cm_IsMsgDestruct conv) in
  (f1.1 ++ f2.1 ++ f3.1 ++ f4.1 ++ f5.1 ++ f6.1 ++ f7.1, f1.2 + f2.2 + f3.2 + f4.2 + f5.2 + f6.2 + f7.2).
Definition fields_after (req : ConversationReq) (conv : ConversationModel) : list conversation_column * Z :=
  field (CR_BurnDuration req) ccol_burn_duration (Cm_BurnDuration conv).

(** The conversation of a single user, who must have it. *)
Definition current_conversation (UserIDs : list string) (conversationID : string) : M W ConversationModel :=
  match UserIDs with
  | [u] =>
      cs ← FindConversations u [conversationID];
      _ ← guard (len cs =? 0) (Wrap ErrRecordNotFound "conversation not found");
      deref (head cs)
  | _ => mret ConversationModel_zero
  end.

(** The private flag is set for both sides. *)
Definition set_private (UserIDs : list string) (conversation : ConversationModel) (req : ConversationReq) : M W () :=
  match CR_IsPrivateChat req with
  | Some private =>
      if negb (CR_ConversationType req =? SuperGroupChatType) then
        let conversations := (λ ownerUserID, set_Cm_IsPrivateChat private (set_Cm_owner ownerUserID conversation)) <$> UserIDs in
        _ ← SyncPeerUserPrivateConversationTx now conversations;
        for_each UserIDs (λ userID, unminded
          (ConversationSetPrivateNotification userID (CR_UserID req) private (CR_ConversationID req)))
      else mret ()
  | None => mret ()
  end.

Definition SetConversations (UserIDs : list string) (req : option ConversationReq) : M W () :=
  match req with
  | None => fail (Wrap ErrArgs "conversation must not be nil")
  | Some req =>
      _ ← (if CR_ConversationType req =? GroupChatType then
             groupInfo ← conversation_group (CR_GroupID req);
             guard (GI_Status groupInfo =? GroupStatusDismissed) (Wrap ErrDismissedAlready "group dismissed")
           else mret ());
      conv ← current_conversation UserIDs (CR_ConversationID req);
      let conversation := new_conversation "" (CR_ConversationID req) (CR_ConversationType req) (CR_UserID req)
        (CR_GroupID req) in
      let '(m, unequal) := fields_before req conv in
      _ ← set_private UserIDs conversation req;
      let '(m', unequal') := fields_after req conv in
      _ ← SetUsersConversationFiledTx now UserIDs conversation (m ++ m');
      if 0 <? unequal + unequal' then
        for_each UserIDs (λ v, unminded (ConversationChangeNotification v [CR_ConversationID req]))
      else mret ()
  end.

Definition GetRecvMsgNotNotifyUserIDs (GroupID : string) : M W (list string) :=
  conversationDatabase_FindRecvMsgNotNotifyUserIDs GroupID.

(** The errors are only logged. *)
Definition conversationServer_CreateSingleChatConversations (req : CreateSingleChatConversationsReq) : M W () :=
  let create owner user := unminded (conversationDatabase_CreateConversation now
    [new_conversation owner (CSC_ConversationID req) (CSC_ConversationType req) user ""]) in
  if CSC_ConversationType req =? SingleChatType then
    _ ← create (CSC_SendID req) (CSC_RecvID req);
    create (CSC_RecvID req) (CSC_SendID req)
  else if CSC_ConversationType req =? NotificationChatType then
    create (CSC_RecvID req) (CSC_SendID req)
  else mret ().

Definition conversationServer_CreateGroupChatConversations (GroupID : string) (UserIDs : list string) : M W () :=
  CreateGroupChatConversation now GroupID UserIDs.

Definition SetConversationMaxSeq (req : SetConversationMaxSeqReq) : M W () :=
  UpdateUsersConversationFiled (SMS_OwnerUserID req) (SMS_ConversationID req) [ccol_max_seq (SMS_MaxSeq req)].

Definition conversationServer_GetConversationIDs (UserID : string) : M W (list string) :=
  conversationDatabase_GetConversationIDs UserID.

Definition conversationServer_GetUserConversationIDsHash (OwnerUserID : string) : M W N :=
  conversationDatabase_GetUserConversationIDsHash OwnerUserID.

Definition conversationServer_GetConversationsByConversationID (ConversationIDs : list string) :
    M W (list Conversation) :=
  conversations ← conversationDatabase_GetConversationsByConversationID ConversationIDs;
  mret (ConversationsDB2Pb conversations).

(** [utils.Keys]: the keys of a map, in the order of a loop over it. *)
Definition Keys (m : gmap string ()) : list string := (range m).*1.

Definition GetConversationOfflinePushUserIDs (ConversationID : string) (UserIDs : list string) : M W (list string) :=
  _ ← guard (bool_decide (ConversationID = "")) (Wrap ErrArgs "conversationID is empty");
  if len UserIDs =? 0 then mret []
  else
    userIDs ← conversationDatabase_GetConversationNotReceiveMessageUserIDs ConversationID;
    if len userIDs =? 0 then mret UserIDs
    else
      let userIDSet : gmap string () := foldl (λ m userID, <[userID := ()]> m) ∅ UserIDs in
      mret (Keys (foldl (λ m userID, delete userID m) userIDSet userIDs)).
End ConversationServer.
