(* ===== verification/ConversationSpec.v ===== *)
(** * What the conversation service promises

    The abstract specification: the rows as a map from users and conversations,
    [conversation_step] with what each call that succeeds does to it, and
    [conversation_leftover], what a call that fails may leave done.  The
    specification knows neither caches nor transactions: ConversationRefinement.v
    shows that the handlers implement it. *)

From S2P Require Import Prelude.
From S2P Require Import Constants.
From S2P Require Import MsgProcessor.
From S2P Require Import Tools.
From S2P Require Import Notification.
From S2P Require Import RpcClient.
From S2P Require Import GroupTypes.
From S2P Require Import FriendTypes.
From S2P Require Import Sql.
From S2P Require Import ConversationTypes.
From S2P Require Import ConversationDatabase.
From S2P Require Import ConversationServer.
From stdpp Require Import options.
#[local] Set Default Proof Using "Type*".

#[local] Open Scope Z_scope.

Abbreviation ConvMap := (gmap (string * string) ConversationModel).

Inductive conversation_call :=
  | Call_SetConversation (req : Conversation)
  | Call_SetConversations (UserIDs : list string) (req : ConversationReq)
  | Call_CreateSingleChat (req : CreateSingleChatConversationsReq)
  | Call_CreateGroupChat (GroupID : string) (UserIDs : list string)
  | Call_SetConversationMaxSeq (req : SetConversationMaxSeqReq).

(** The rows of these users in a conversation, changed or made. *)
Definition upsert (us : list string) (cid : string) (f : string → option ConversationModel → ConversationModel)
    (m : ConvMap) : ConvMap :=
  foldr (λ u, <[(u, cid) := f u (m !! (u, cid))]>) m us.

Lemma lookup_upsert us cid f m u c : upsert us cid f m !! (u, c) =
  if decide (c = cid ∧ u ∈ us) then Some (f u (m !! (u, cid))) else m !! (u, c).
Proof.
  unfold upsert. induction us as [|x us IH]; cbn [foldr].
  - rewrite decide_False; [done|]. intros [_ ?%elem_of_nil]. done.
  - rewrite lookup_insert. destruct (decide ((x, cid) = (u, c))) as [[= -> ->]|Hne].
    + rewrite decide_True; [done|]. split; [done|by left].
    + rewrite IH. apply decide_ext. rewrite elem_of_cons. naive_solver.
Qed.

(** A row is changed by [f] where there is one, else [g] makes it. *)
Definition change_or_make (f : ConversationModel → ConversationModel) (g : string → ConversationModel)
    (u : string) (r : option ConversationModel) : ConversationModel :=
  match r with Some r => f r | None => g u end.

Section Spec.
Context (now : Z).
Implicit Types (m : ConvMap).

(** ** The changes *)

(** One side of a private conversation. *)
Definition private_side (conversation : ConversationModel) m (v : string * string) : ConvMap :=
  upsert [v.1] (Cm_ConversationID conversation)
    (change_or_make (set_conversation_columns [ccol_is_private_chat (Cm_IsPrivateChat conversation)])
      (λ u, auto_conversation now (set_Cm_UserID v.2 (set_Cm_owner u conversation)))) m.
(** Each user and the peer. *)
Definition both_sides (peer : string) (us : list string) : list (string * string) :=
  us ≫= λ o, [(o, peer); (peer, o)].

Definition asked_conversation (req : ConversationReq) : ConversationModel :=
  new_conversation "" (CR_ConversationID req) (CR_ConversationType req) (CR_UserID req) (CR_GroupID req).
Definition privately (us : list string) (req : ConversationReq) m : ConvMap :=
  match CR_IsPrivateChat req with
  | Some private =>
      if CR_ConversationType req =? SuperGroupChatType then m
      else foldl (private_side (set_Cm_IsPrivateChat private (asked_conversation req))) m (both_sides (CR_UserID req) us)
  | None => m
  end.
(** The columns asked for; a row that is missing is made without them. *)
Definition asked_columns (req : ConversationReq) (conv : ConversationModel) : list conversation_column :=
  (fields_before req conv).1 ++ (fields_after req conv).1.
Definition with_fields (us : list string) (req : ConversationReq) m : ConvMap :=
  upsert us (CR_ConversationID req)
    (change_or_make (set_conversation_columns (asked_columns req ConversationModel_zero))
      (λ u, auto_conversation now (set_Cm_CreateTime now (set_Cm_owner u (asked_conversation req))))) m.

Definition conversation_of (req : Conversation) : ConversationModel := model_with_pb ConversationModel_zero req.
Definition with_conversation (req : Conversation) m : ConvMap :=
  upsert [Conv_OwnerUserID req] (Conv_ConversationID req)
    (change_or_make (update_conversation (conversation_of req)) (λ _, auto_conversation now (conversation_of req))) m.

(** A row made where there is none. *)
Definition made (c : ConversationModel) m : ConvMap :=
  upsert [Cm_OwnerUserID c] (Cm_ConversationID c) (change_or_make id (λ _, auto_conversation now c)) m.
Definition maybe_made (c : ConversationModel) m m' : Prop := m' = m ∨ m' = made c m.

Definition group_conversation (g : string) : string := GetConversationIDBySessionType SuperGroupChatType [g].
(** [f] is what becomes of the rows that are there. *)
Definition with_group (g : string) (us : list string) (f : ConversationModel → ConversationModel) m : ConvMap :=
  upsert us (group_conversation g)
    (change_or_make f (λ u, auto_conversation now (new_conversation u (group_conversation g) SuperGroupChatType "" g))) m.
Definition with_columns (us : list string) (cid : string) (cs : list conversation_column) m : ConvMap :=
  (λ r, if owner_in us r && conv_is cid r then set_conversation_columns cs r else r) <$> m.

(** ** The steps *)

Inductive conversation_step m : conversation_call → ConvMap → Prop :=
  | step_set_conversation req : conversation_step m (Call_SetConversation req) (with_conversation req m)
  | step_set_conversations us req :
      (∀ u, us = [u] → is_Some (m !! (u, CR_ConversationID req))) →
      conversation_step m (Call_SetConversations us req) (with_fields us req (privately us req m))
  | step_create_both req m1 m2 :
      CSC_ConversationType req = SingleChatType →
      maybe_made (new_conversation (CSC_SendID req) (CSC_ConversationID req) SingleChatType (CSC_RecvID req) "") m m1 →
      maybe_made (new_conversation (CSC_RecvID req) (CSC_ConversationID req) SingleChatType (CSC_SendID req) "") m1 m2 →
      conversation_step m (Call_CreateSingleChat req) m2
  | step_create_receiver req m1 :
      CSC_ConversationType req = NotificationChatType →
      maybe_made (new_conversation (CSC_RecvID req) (CSC_ConversationID req) NotificationChatType (CSC_SendID req) "") m m1 →
      conversation_step m (Call_CreateSingleChat req) m1
  | step_create_none req :
      CSC_ConversationType req ≠ SingleChatType → CSC_ConversationType req ≠ NotificationChatType →
      conversation_step m (Call_CreateSingleChat req) m
  | step_create_group g us :
      conversation_step m (Call_CreateGroupChat g us) (with_group g us (set_conversation_columns [ccol_max_seq 0]) m)
  | step_max_seq req :
      conversation_step m (Call_SetConversationMaxSeq req)
        (with_columns (SMS_OwnerUserID req) (SMS_ConversationID req) [ccol_max_seq (SMS_MaxSeq req)] m).

(** What a call that fails leaves of its work, and whether it cleans the cache behind
    it: the private flags are set in a transaction of their own; the rows that are
    inserted without the transaction stay, with the cache as it was. *)
Inductive conversation_leftover m : conversation_call → bool → ConvMap → Prop :=
  | leave_nothing call : conversation_leftover m call true m
  | leave_private us req : conversation_leftover m (Call_SetConversations us req) true (privately us req m)
  | leave_conversation req :
      m !! (Conv_OwnerUserID req, Conv_ConversationID req) = None →
      conversation_leftover m (Call_SetConversation req) false (with_conversation req m)
  | leave_made g us : conversation_leftover m (Call_CreateGroupChat g us) false (with_group g us id m)
  | leave_group g us : conversation_leftover m (Call_CreateGroupChat g us) false
      (with_group g us (set_conversation_columns [ccol_max_seq 0]) m).

(** ** What every call keeps *)

(** The rows that a call is about. *)
Definition concerns (call : conversation_call) (k : string * string) : Prop :=
  match call with
  | Call_SetConversation req => k = (Conv_OwnerUserID req, Conv_ConversationID req)
  | Call_SetConversations us req =>
      k.2 = CR_ConversationID req ∧ (k.1 ∈ us ∨ (k.1 = CR_UserID req ∧ is_Some (CR_IsPrivateChat req)))
  | Call_CreateSingleChat req =>
      k.2 = CSC_ConversationID req ∧ (k.1 = CSC_SendID req ∨ k.1 = CSC_RecvID req)
  | Call_CreateGroupChat g us => k.2 = group_conversation g ∧ k.1 ∈ us
  | Call_SetConversationMaxSeq req => k.2 = SMS_ConversationID req ∧ k.1 ∈ SMS_OwnerUserID req
  end.

(** Whether a call asks for an option of receiving for this row. *)
Definition asks_option (call : conversation_call) (k : string * string) : Prop :=
  match call with
  | Call_SetConversation req =>
      k = (Conv_OwnerUserID req, Conv_ConversationID req) ∧ Conv_RecvMsgOpt req ≠ 0
  | Call_SetConversations us req =>
      k.2 = CR_ConversationID req ∧ k.1 ∈ us ∧ is_Some (CR_RecvMsgOpt req)
  | _ => False
  end.

(** A change of one row: it stays, under its key, and its option with it unless asked. *)
Definition row_kept (asked : Prop) (r r' : ConversationModel) : Prop :=
  conversation_key r' = conversation_key r ∧ (¬ asked → Cm_RecvMsgOpt r' = Cm_RecvMsgOpt r).
Definition rows_kept (about : string * string → Prop) (asked : string * string → Prop) m m' : Prop :=
  ∀ k, (¬ about k → m' !! k = m !! k) ∧ ∀ r, m !! k = Some r → ∃ r', m' !! k = Some r' ∧ row_kept (asked k) r r'.

Lemma row_kept_refl asked r : row_kept asked r r.
Proof. by split. Qed.
Lemma rows_kept_refl about asked m : rows_kept about asked m m.
Proof. intros k. split; [done|]. intros r Hr. exists r. split; [done|apply row_kept_refl]. Qed.
Lemma rows_kept_trans about asked m m1 m2 : rows_kept about asked m m1 → rows_kept about asked m1 m2 → rows_kept about asked m m2.
Proof.
  intros H1 H2 k. destruct (H1 k) as [Hn1 Hr1], (H2 k) as [Hn2 Hr2]. split.
  - intros Hk. by rewrite Hn2, Hn1.
  - intros r (r1 & (r2 & ? & Hk2 & Ho2)%Hr2 & Hk1 & Ho1)%Hr1. exists r2. split; [done|]. split; [congruence|].
    intros Ha. rewrite Ho2, Ho1; done.
Qed.
Lemma rows_kept_upsert (about asked : string * string → Prop) us cid f g m :
  (∀ u, u ∈ us → about (u, cid)) → (∀ u r, u ∈ us → row_kept (asked (u, cid)) r (f r)) →
  rows_kept about asked m (upsert us cid (change_or_make f g) m).
Proof.
  intros Ha Hf [u c]. rewrite lookup_upsert. case_decide as Hd; [|split; [done|]; intros r Hr; exists r; split; [done|apply row_kept_refl]].
  destruct Hd as [-> Hu]. split; [intros Hn; by destruct Hn; apply Ha|]. intros r ->. eexists. split; [done|]. by apply Hf.
Qed.

Lemma column_kept asked c r : (column_name c ≠ "recv_msg_opt") → row_kept asked r (set_conversation_columns [c] r).
Proof.
  intros Hc. split; [apply conversation_key_columns|]. intros _. apply RecvMsgOpt_columns. unfold has_column.
  rewrite bool_decide_eq_false. cbn. by rewrite list_elem_of_singleton.
Qed.
Lemma asked_columns_opt req : has_column "recv_msg_opt" (asked_columns req ConversationModel_zero) = true →
  is_Some (CR_RecvMsgOpt req).
Proof.
  destruct req as [cid ty u g [v|] pin att priv ex burn mn mx at_ dt dest]; [by eexists|].
  unfold asked_columns, fields_before, fields_after. cbn. destruct att, ex, pin, at_, dt, dest, burn; done.
Qed.

Lemma rows_kept_private peer c us about asked m :
  (∀ u, u ∈ us ∨ u = peer → about (u, Cm_ConversationID c)) →
  rows_kept about asked m (foldl (private_side c) m (both_sides peer us)).
Proof.
  intros Ha. assert (∀ vs m, (∀ v, v ∈ vs → about (v.1, Cm_ConversationID c)) →
    rows_kept about asked m (foldl (private_side c) m vs)) as Hvs.
  { clear Ha. intros vs. induction vs as [|v vs IH]; intros m' Hv; [apply rows_kept_refl|]. cbn [foldl].
    eapply rows_kept_trans; [|apply IH; intros v' Hv'; apply Hv; by right]. apply rows_kept_upsert.
    - intros u ->%list_elem_of_singleton. apply Hv. by left.
    - intros u r _. by apply column_kept. }
  apply Hvs. intros v Hv. unfold both_sides in Hv. apply list_elem_of_bind in Hv as (o & Hv & Ho).
  rewrite !elem_of_cons, elem_of_nil in Hv. destruct Hv as [->|[->|[]]]; apply Ha; auto.
Qed.

Lemma rows_kept_privately us req m : rows_kept (concerns (Call_SetConversations us req)) (asks_option (Call_SetConversations us req)) m (privately us req m).
Proof.
  unfold privately. destruct (CR_IsPrivateChat req) as [p|] eqn:Hp; [|apply rows_kept_refl].
  destruct (_ =? _); [apply rows_kept_refl|]. apply rows_kept_private. cbn. intros u [Hu|Hu]; (split; [done|]); [by left|].
  right. split; [done|by eexists].
Qed.
Lemma rows_kept_group g us (f : ConversationModel → ConversationModel) m : (∀ r, row_kept False r (f r)) →
  rows_kept (concerns (Call_CreateGroupChat g us)) (asks_option (Call_CreateGroupChat g us)) m (with_group g us f m).
Proof. intros Hf. apply rows_kept_upsert; [done|]. intros u r _. apply Hf. Qed.
Lemma rows_kept_conversation req m :
  rows_kept (concerns (Call_SetConversation req)) (asks_option (Call_SetConversation req)) m (with_conversation req m).
Proof.
  apply rows_kept_upsert; [by intros u ->%list_elem_of_singleton|]. intros u r ->%list_elem_of_singleton.
  split; [done|]. cbn. intros Ho. unfold nonzero_int. destruct (Z.eqb_spec (Conv_RecvMsgOpt req) 0); [done|].
  by destruct Ho.
Qed.
Lemma rows_kept_made (about asked : string * string → Prop) c m m' : about (Cm_OwnerUserID c, Cm_ConversationID c) → maybe_made c m m' → rows_kept about asked m m'.
Proof.
  intros Ha [->| ->]; [apply rows_kept_refl|]. apply rows_kept_upsert; [by intros u ->%list_elem_of_singleton|].
  intros. apply row_kept_refl.
Qed.

(** Statements. *)
Lemma rows_kept_columns (about asked : string * string → Prop) us cid cs m :
  (∀ k r, m !! k = Some r → conversation_key r = k) → (∀ u, u ∈ us → about (u, cid)) →
  (has_column "recv_msg_opt" cs = true → ∀ u, u ∈ us → asked (u, cid)) →
  rows_kept about asked m (with_columns us cid cs m).
Proof.
  intros Hkey Ha Hk k. unfold with_columns. rewrite lookup_fmap.
  destruct (m !! k) as [r|] eqn:Hr; cbn; [|done]. apply Hkey in Hr as <-.
  destruct (owner_in us r && conv_is cid r) eqn:E.
  - unfold owner_in, conv_is in E. apply andb_true_iff in E as [Ho%bool_decide_eq_true Hc%bool_decide_eq_true].
    unfold conversation_key. rewrite Hc. split; [intros Hn; by destruct Hn; apply Ha|]. intros ? [= <-]. eexists. split; [done|].
    split; [apply conversation_key_columns|]. intros Hno. apply RecvMsgOpt_columns, not_true_is_false. auto.
  - split; [done|]. intros ? [= <-]. exists r. split; [done|apply row_kept_refl].
Qed.
Lemma rows_kept_alter (about asked : string * string → Prop) f k m :
  about k → (∀ r, row_kept (asked k) r (f r)) → rows_kept about asked m (alter f k m).
Proof.
  intros Ha Hf k'. rewrite lookup_alter_fmap. split.
  - intros Hn. destruct (m !! k'); [|done]. cbn. case_decide; [by subst|done].
  - intros r ->. eexists. split; [done|]. case_decide; [subst; apply Hf|apply row_kept_refl].
Qed.
Lemma rows_kept_inserted (about asked : string * string → Prop) (ks : list (string * string)) m m' :
  (∀ k, k ∈ ks → about k ∧ m !! k = None) → (∀ k, k ∉ ks → m' !! k = m !! k) → rows_kept about asked m m'.
Proof.
  intros Hin Hout k. destruct (decide (k ∈ ks)) as [Hk|Hk].
  - destruct (Hin k Hk) as [Ha Hn]. rewrite Hn. done.
  - rewrite (Hout k Hk). split; [done|]. intros r ->. exists r. split; [done|apply row_kept_refl].
Qed.
(** What a transaction and the statements beside it keep, its commit keeps. *)
Lemma rows_kept_merged about asked m m1 m2 :
  rows_kept about asked m m1 → rows_kept about asked m m2 → rows_kept about asked m (merged m m1 m2).
Proof.
  intros H1 H2 k. destruct (H1 k) as [Hn1 Hr1], (H2 k) as [Hn2 Hr2]. rewrite lookup_merged.
  case_decide; split; auto.
Qed.

(** Every call leaves the rows it is not about, removes none, and leaves an option of
    receiving that it does not ask for. *)
Lemma step_rows_kept m call m' : (∀ k r, m !! k = Some r → conversation_key r = k) →
  conversation_step m call m' → rows_kept (concerns call) (asks_option call) m m'.
Proof.
  intros Hkey Hs. destruct Hs as [req|us req _|req m1 m2 Ht H1 H2|req m1 Ht H1|req|g us|req].
  - apply rows_kept_conversation.
  - eapply rows_kept_trans; [apply rows_kept_privately|]. apply rows_kept_upsert; [intros u Hu; split; [done|by left]|].
    intros u r Hu. split; [apply conversation_key_columns|]. cbn. intros Ha. apply RecvMsgOpt_columns.
    apply not_true_is_false. intros Hc%asked_columns_opt. by destruct Ha.
  - eapply rows_kept_trans; eapply rows_kept_made; [..|exact H2]; try exact H1; cbn; auto.
  - eapply rows_kept_made; [|exact H1]. cbn. auto.
  - apply rows_kept_refl.
  - apply rows_kept_group. intros r. by apply column_kept.
  - apply rows_kept_columns; [done|done|]. by intros [=].
Qed.
Lemma leftover_rows_kept m call b m' : conversation_leftover m call b m' →
  rows_kept (concerns call) (asks_option call) m m'.
Proof.
  intros [| | | |].
  - apply rows_kept_refl.
  - apply rows_kept_privately.
  - apply rows_kept_conversation.
  - apply rows_kept_group. intros r. apply row_kept_refl.
  - apply rows_kept_group. intros r. by apply column_kept.
Qed.
End Spec.
