(* ===== verification/ConversationProofs.v ===== *)
(** * The cached conversations agree with the table

    What the cache may hold, the rules of the statements and of the transactions,
    and the judgements by which ConversationRefinement.v shows that the handlers
    implement the specification.  The lists of users who do not want messages are
    kept right by every call but one: the parameter [muted_too] says whether they
    are meant. *)

From Stdlib Require Import Ascii.
From S2P Require Import Prelude.
From S2P Require Import Constants.
From S2P Require Import MsgTypes.
From S2P Require Import MsgProcessor.
From S2P Require Import Tools.
From S2P Require Import Notification.
From S2P Require Import RpcClient.
From S2P Require Import GroupTypes.
From S2P Require Import FriendTypes.
From S2P Require Import Sql.
From S2P Require Import RowCache.
From S2P Require Import RowCoherence.
From S2P Require Import UserServer.
From S2P Require Import ConversationTypes.
From S2P Require Import ConversationDatabase.
From S2P Require Import ConversationServer.
From S2P Require Import ConversationSpec.
From stdpp Require Import options.
#[local] Set Default Proof Using "Type*".

#[local] Open Scope Z_scope.

(** ** The keys are distinct

    The key of a row joins two ids with a colon, which no registered user has
    in his id. *)

Lemma string_app_cancel (a b c : string) : a +:+ b = a +:+ c → b = c.
Proof. induction a as [|x a IH]; cbn; [done|]. intros [= E]. auto. Qed.

Lemma has_colon_cons x s : has_colon (String x s) = false → x ≠ ":"%char ∧ has_colon s = false.
Proof. unfold has_colon. rewrite !bool_decide_eq_false. cbn. rewrite not_elem_of_cons. intros [? ?]. auto. Qed.

Lemma colon_split (a b c d : string) : has_colon a = false → has_colon c = false →
  a +:+ String ":"%char b = c +:+ String ":"%char d → a = c ∧ b = d.
Proof.
  revert c. induction a as [|x a IH]; intros [|y c] Ha Hc; cbn.
  - by intros [= ->].
  - intros [= <- E]. by apply has_colon_cons in Hc as [? _].
  - intros [= -> E]. by apply has_colon_cons in Ha as [? _].
  - intros [= -> E]. apply has_colon_cons in Ha as [_ Ha], Hc as [_ Hc]. by destruct (IH c) as [-> ->].
Qed.

Lemma conversation_key_inj o c o' c' : has_colon o = false → has_colon o' = false →
  getConversationKey o c = getConversationKey o' c' → o = o' ∧ c = c'.
Proof. intros Ho Ho' E%string_app_cancel. by apply colon_split. Qed.
#[export] Instance getConversationIDsKey_inj : Inj (=) (=) getConversationIDsKey.
Proof. intros a b. apply string_app_cancel. Qed.
#[export] Instance getUserConversationIDsHashKey_inj : Inj (=) (=) getUserConversationIDsHashKey.
Proof. intros a b. apply string_app_cancel. Qed.
#[export] Instance getNotReceiveKey_inj : Inj (=) (=) getConversationNotReceiveMessageUserIDsKey.
Proof. intros a b. apply string_app_cancel. Qed.

(** ** Users who do not want the messages of a conversation *)

Definition mutes (m : ConvMap) (cid u : string) : Prop :=
  ∃ r, m !! (u, cid) = Some r ∧ Cm_RecvMsgOpt r ≠ ReceiveMessage.
Definition is_muted_list (m : ConvMap) (cid : string) (l : list string) : Prop := NoDup l ∧ ∀ u, u ∈ l ↔ mutes m cid u.

(** A hash of the ids of a set. *)
Definition is_hash_of `{MsgTools} (s : gset string) (h : N) : Prop := ∃ l, is_list_of s l ∧ hash_ids l = Some h.

Section ConversationCoherence.
Context `{ConversationEngineLaws} `{!TagSucceeds CC} `{SpecialErrorLaws} `{MsgTools} {E : Type}.
Context (muted_too : bool).
Abbreviation W := (ConversationWorld E).
Implicit Types (t : CT) (w : W) (m : ConvMap).

Abbreviation convs_of w := (rows (cw_table w)).

(** ** What the cache may hold *)

Record conversation_entry t (k s : string) : Prop := {
  conversation_entry_nonempty : s ≠ "";
  conversation_entry_row o c : k = getConversationKey o c → has_colon o = false →
    ∃ r, Unmarshal s = inl r ∧ rows t !! (o, c) = Some r;
  conversation_entry_ids o : k = getConversationIDsKey o →
    ∃ l, Unmarshal s = inl l ∧ is_list_of (seconds (rows t) o) l;
  conversation_entry_hash o : k = getUserConversationIDsHashKey o →
    ∃ h, Unmarshal s = inl h ∧ is_hash_of (seconds (rows t) o) h;
  conversation_entry_muted c : muted_too = true → k = getConversationNotReceiveMessageUserIDsKey c →
    ∃ l, Unmarshal s = inl l ∧ is_muted_list (rows t) c l }.

Definition ConversationsAgree w : Prop := agrees conversation_entry w.

(** The keys whose entries a change makes stale. *)
Record stale_conversations (ks : list string) m m' : Prop := {
  stale_row o c : getConversationKey o c ∈ ks ∨ ∀ r, m !! (o, c) = Some r → m' !! (o, c) = Some r;
  stale_ids o : (getConversationIDsKey o ∈ ks ∧ getUserConversationIDsHashKey o ∈ ks) ∨ seconds m' o = seconds m o;
  stale_muted c : muted_too = true →
    getConversationNotReceiveMessageUserIDsKey c ∈ ks ∨ ∀ u, mutes m' c u ↔ mutes m c u }.

Lemma stale_conversations_refl ks m : stale_conversations ks m m.
Proof. split; auto. Qed.

Lemma stale_conversations_entry ks t t' : stale_conversations ks (rows t) (rows t') → stale_only conversation_entry ks t t'.
Proof.
  intros Hst k s Hk [He Hr Hi Hh Hm]. split; [done|..].
  - intros o c -> Ho. destruct (Hr o c eq_refl Ho) as (r & Hs & Hl). exists r. split; [done|].
    destruct (stale_row _ _ _ Hst o c); [done|auto].
  - intros o ->. destruct (stale_ids _ _ _ Hst o) as [[? _]| ->]; [done|auto].
  - intros o ->. destruct (stale_ids _ _ _ Hst o) as [[_ ?]| ->]; [done|auto].
  - intros c Hb ->. destruct (Hm c Hb eq_refl) as (l & Hs & Hn & Hl). exists l. split; [done|]. split; [done|].
    intros u. destruct (stale_muted _ _ _ Hst c Hb) as [?|Hc]; [done|]. by rewrite Hl, Hc.
Qed.

Definition convs_are m w : Prop := ConversationsAgree w ∧ convs_of w = m.

Lemma conversation_evicted ks w w' t : ConversationsAgree w → evicted ks (put_conversations t w) w' →
  stale_conversations ks (convs_of w) (rows t) → ConversationsAgree w' ∧ convs_of w' = rows t.
Proof.
  intros Ha He Hst. pose proof (evicted_tables conversation_entry _ _ _ He) as Ht. cbn in Ht.
  split; [|by rewrite Ht]. intros k s Hs. cbn. rewrite Ht.
  destruct He as (c & -> & Hc & Hk). eapply (evicted_agrees conversation_entry ks w (put_conversation_cache c w) t);
    [done| |by apply stale_conversations_entry|exact Hs].
  by exists c.
Qed.
Lemma conversation_unevicted w : evicted [] w w.
Proof. exists (cw_cache w). split; [by destruct w|]. split; [done|]. by intros k ?%elem_of_nil. Qed.
Lemma put_convs_are t w m' : ConversationsAgree w → rows t = m' → stale_conversations [] (convs_of w) m' →
  convs_are m' (put_conversations t w).
Proof. intros Ha <- Hst. eapply conversation_evicted; [exact Ha|apply conversation_unevicted|done]. Qed.

(** The effects are none of the cache's business. *)
Definition conversation_part (w : W) : CT * CC := (cw_table w, cw_cache w).
Lemma same_conversation_part m w w' : conversation_part w' = conversation_part w → convs_are m w → convs_are m w'.
Proof.
  unfold conversation_part. intros [= Hu Hc] [Ha Hm]. split; [|by rewrite Hu]. intros k s. unfold ConversationsAgree, agrees in *.
  cbn in *. rewrite Hc, Hu. apply Ha.
Qed.
#[export] Instance conversation_part_env {A} (c : M E A) : Keeps conversation_part (on_conversation_env c).
Proof. intros w. unfold on_conversation_env, zoom. by destruct (c _). Qed.

(** ** Judgements

    While the rows are [m], a computation leaves them, and its answers are as [X]
    says. *)
Definition reads {A} m (X : A → Prop) (c : M W A) : Prop :=
  ∀ w, convs_are m w → wp c (λ r w', convs_are m w' ∧ ∀ a, r = Ok a → X a) w.
(** It changes them as [P] says; or it fails, with the rows as [F true] says and the
    cache clean, or as [F false] says. *)
Definition alters m (P : ConvMap → Prop) (F : bool → ConvMap → Prop) (c : M W ()) : Prop :=
  ∀ w, convs_are m w → wp c (λ r w',
    (r = Ok () ∧ ConversationsAgree w' ∧ P (convs_of w')) ∨
    (r ≠ Ok () ∧ ∃ b, F b (convs_of w') ∧ (b = true → ConversationsAgree w'))) w.

Lemma conv_reads_ret {A} m (X : A → Prop) a : X a → reads m X (mret a).
Proof. intros HX w Hw. apply wp_ret. split; [done|]. by intros ? [= <-]. Qed.
Lemma conv_reads_lift {A} m (X : A → Prop) (r : A + error) : (∀ a, r = inl a → X a) → reads m X (lift r).
Proof. intros HX w Hw. apply wp_lift; intros x Hx; (split; [done|]); intros ? [= <-]; auto. Qed.
Lemma conv_reads_guard m (X : () → Prop) b e : (b = false → X ()) → reads m X (guard b e).
Proof. intros HX w Hw. apply wp_guard; intros Hb; (split; [done|]); intros [] ?; [done|auto]. Qed.
Lemma conv_reads_deref {A} m (X : A → Prop) (p : option A) : (∀ a, p = Some a → X a) → reads m X (deref p).
Proof. intros HX w Hw. destruct p as [a|]; cbn; (split; [done|]); intros ? [= <-]; auto. Qed.
Lemma conv_reads_bind {A B} m (X : A → Prop) (Y : B → Prop) (c : M W A) k :
  reads m X c → (∀ a, X a → reads m Y (k a)) → reads m Y (c ≫= k).
Proof.
  intros Hc Hk w Hw. apply wp_bind. eapply wp_mono; [|by apply Hc].
  intros [a|e| |] w' [Hw' HX]; [by apply Hk; [apply HX|]|done..].
Qed.
Lemma conv_reads_still {A} m (c : M W A) : Keeps conversation_part c → reads m (λ _, True) c.
Proof. intros Hc w Hw. eapply (wp_keeps conversation_part); [done|]. intros r w' Hp. split; [by eapply same_conversation_part|done]. Qed.
Lemma conv_reads_mono {A} m (X Y : A → Prop) (c : M W A) : reads m X c → (∀ a, X a → Y a) → reads m Y c.
Proof. intros Hc HXY w Hw. eapply wp_mono; [|by apply Hc]. intros r w' [? HX]. split; [done|]. auto. Qed.

Lemma alters_bind {A} m (X : A → Prop) (P : ConvMap → Prop) (F : bool → ConvMap → Prop) (c : M W A) k :
  F true m → reads m X c → (∀ a, X a → alters m P F (k a)) → alters m P F (c ≫= k).
Proof.
  intros HF Hc Hk w Hw. apply wp_bind. eapply wp_mono; [|by apply Hc].
  intros [a|e| |] w' [[Ha Hm] HX]; [by apply Hk; [apply HX|]|..]; right; (split; [done|]); exists true; by rewrite Hm.
Qed.
Lemma alters_then m (P : ConvMap → Prop) (F : bool → ConvMap → Prop) (c : M W ()) k :
  alters m P F c → Keeps conversation_part k → Succeeds k → alters m P F (_ ← c; k).
Proof.
  intros Hc Hk Hok w Hw. apply wp_bind. eapply wp_mono; [|by apply Hc].
  intros [[]|e| |] w' [(? & Ha & HP)|(Hr & b & HF)]; try done; [|right; split; [done|by exists b]..].
  apply wp_eq. left. split; [apply Hok|]. pose proof (keeps (f:=conversation_part) (m:=k) w') as Hp.
  destruct (same_conversation_part (convs_of w') w' _ Hp) as [Ha2 ->]; [by split|auto].
Qed.
Lemma alters_seq m (P Q : ConvMap → Prop) (F : bool → ConvMap → Prop) (c k : M W ()) :
  alters m P F c → (∀ m', P m' → alters m' Q F k) → alters m Q F (_ ← c; k).
Proof.
  intros Hc Hk w Hw. apply wp_bind. eapply wp_mono; [|by apply Hc].
  intros [[]|e| |] w' [(? & Ha & HP)|(Hr & b & HF)]; try done; [|right; split; [done|by exists b]..].
  by apply (Hk _ HP).
Qed.
Lemma alters_mono m (P P' : ConvMap → Prop) (F F' : bool → ConvMap → Prop) c :
  alters m P F c → (∀ m', P m' → P' m') → (∀ b m', F b m' → F' b m') → alters m P' F' c.
Proof. intros Hc HP HF w Hw. eapply wp_mono; [|by apply Hc]. naive_solver. Qed.
(** A call that changes nothing and does not fail. *)
Lemma alters_still m (P : ConvMap → Prop) F (c : M W ()) : Keeps conversation_part c → Succeeds c → P m → alters m (P : ConvMap → Prop) F c.
Proof.
  intros Hk Hok HP w Hw. apply wp_eq. left. split; [apply Hok|].
  destruct (same_conversation_part m w _ (keeps (f:=conversation_part) (m:=c) w) Hw) as [? ->]. auto.
Qed.
(** A failure that is only logged: the call goes on. *)
Lemma alters_unminded m (P : ConvMap → Prop) (F F' : bool → ConvMap → Prop) (c : M W ()) :
  alters m P F c → (∀ b m', F b m' → b = true ∧ P m') → Ends c → alters m P F' (unminded c).
Proof.
  intros Hc HF Hend w Hw. apply wp_bind, wp_try. specialize (Hc w Hw). specialize (Hend w). apply wp_eq in Hc. apply wp_eq.
  destruct (c w) as [[[]|e| |] w']; cbn in *; [| |done..].
  - destruct Hc as [(_ & ? & ?)|[? _]]; [|done]. by left.
  - destruct Hc as [[? _]|(_ & b & HFb & Ha)]; [done|]. destruct (HF _ _ HFb) as [-> HP]. left. auto.
Qed.

(** ** Statements *)

Lemma wp_on_conversations {A} (c : M CT A) (Q : outcome A → W → Prop) w :
  wp c (λ r t, Q r (put_conversations t w)) (cw_table w) → wp (on_conversations c) Q w.
Proof. apply wp_zoom. Qed.
Lemma put_get_conversations w : put_conversations (cw_table w) w = w.
Proof. by destruct w. Qed.

Lemma wp_conversation_del ks (Q : outcome () → W → Prop) w : (∀ w', evicted ks w w' → Q (Ok ()) w') →
  wp (conversation_ExecDel ks) Q w.
Proof. by apply (wp_evict (λ (_ : CT) _ s, s ≠ "")). Qed.

(** A statement, then the keys it makes stale. *)
Lemma alters_stmt_del {A : Type} (ks : list string) m (P : ConvMap → Prop) (c : M CT A) :
  on_rows m c (λ _ m', P m' ∧ stale_conversations ks m m') (λ _, True) →
  alters m P (λ b m', b = true ∧ m' = m) (_ ← on_conversations c; conversation_ExecDel ks).
Proof.
  intros Hc w [Ha Hm]. apply wp_bind, wp_on_conversations. eapply wp_mono; [|by apply Hc].
  intros [a|e| |] t; [intros [HP Hst]|intros [_ Ht]|done..].
  - apply wp_conversation_del. intros w' He. rewrite <-Hm in Hst.
    destruct (conversation_evicted _ _ _ _ Ha He Hst) as [? ->]. auto.
  - destruct (put_convs_are t w m Ha Ht) as [Ha' Hm']; [rewrite Hm; apply stale_conversations_refl|]. right. split; [done|].
    by exists true.
Qed.

(** ** Transactions

    The body of a transaction, which begins with the rows [m]: its own rows become
    [m1], the world's [m2]; when it fails, the world's are as [F] says. *)
Definition tx_does {A} m1 m2 (Q : A → ConvMap → ConvMap → Prop) (F : ConvMap → Prop) (c : M (CT * W) A) : Prop :=
  ∀ t w, rows t = m1 → convs_of w = m2 → wp c (λ r tw, (∃ t2, tw.2 = put_conversations t2 w) ∧ match r with
    | Ok a => Q a (rows tw.1) (convs_of tw.2) | Err _ => F (convs_of tw.2) | _ => False end) (t, w).

Lemma tx_ret {A : Type} m1 m2 (Q : A → ConvMap → ConvMap → Prop) F a : Q a m1 m2 → tx_does m1 m2 Q F (mret a).
Proof. intros HQ t w <- <-. apply wp_ret. split; [|done]. exists (cw_table w). by rewrite put_get_conversations. Qed.
Lemma tx_bind {A B : Type} m1 m2 (Q : A → ConvMap → ConvMap → Prop) (R : B → ConvMap → ConvMap → Prop) F c k :
  tx_does m1 m2 Q F c → (∀ a m1' m2', Q a m1' m2' → tx_does m1' m2' R F (k a)) → tx_does m1 m2 R F (c ≫= k).
Proof.
  intros Hc Hk t w Ht Hw. apply wp_bind. eapply wp_mono; [|by apply Hc].
  intros [a|e| |] [t' w'] [[t2 Ht2] HQ]; cbn in *; [|split; [by eexists|done]|done..].
  eapply wp_mono; [|by apply (Hk _ _ _ HQ)]. intros r [t3 w3] [[t4 ->] HR]. cbn in *. split; [|done].
  exists t4. by subst w'.
Qed.
Lemma tx_lift {A : Type} m1 m2 (Q : A → ConvMap → ConvMap → Prop) (F : ConvMap → Prop) (r : A + error) :
  (∀ a, r = inl a → Q a m1 m2) → F m2 → tx_does m1 m2 Q F (lift r).
Proof.
  intros HQ HF t w <- <-. apply wp_lift; intros x Hx; (split; [exists (cw_table w); by rewrite put_get_conversations|]); auto.
Qed.
Lemma tx_in {A : Type} m1 m2 (Q : A → ConvMap → ConvMap → Prop) (F : ConvMap → Prop) (c : M CT A) :
  on_rows m1 c (λ a m1', Q a m1' m2) (λ _, True) → F m2 → tx_does m1 m2 Q F (in_conversation_tx c).
Proof.
  intros Hc HF t w Ht <-. apply wp_on_fst. eapply wp_mono; [|by apply Hc].
  intros [a|e| |] t'; cbn; try done; intros HQ; (split; [exists (cw_table w); by rewrite put_get_conversations|]); auto.
Qed.
Lemma tx_beside {A : Type} m1 m2 (Q : A → ConvMap → ConvMap → Prop) (F : ConvMap → Prop) (c : M CT A) :
  on_rows m2 c (λ a m2', Q a m1 m2') (λ _, True) → F m2 → tx_does m1 m2 Q F (beside_conversation_tx c).
Proof.
  intros Hc HF t w <- Hw. apply wp_on_snd, wp_on_conversations. eapply wp_mono; [|by apply Hc].
  intros [a|e| |] t'; cbn; try done; intros HQ; (split; [by exists t'|]); [done|]. destruct HQ as [_ ->]. done.
Qed.
Lemma tx_fold {A B : Type} m1 m2 (l : list A) (b : B) (I : list A → B → ConvMap → ConvMap → Prop) (F : ConvMap → Prop)
    (Q : B → ConvMap → ConvMap → Prop) (body : B → A → M (CT * W) B) :
  I [] b m1 m2 → (∀ done x b m1 m2, x ∈ l → I done b m1 m2 → tx_does m1 m2 (I (done ++ [x])) F (body b x)) →
  (∀ b m1 m2, I l b m1 m2 → Q b m1 m2) → tx_does m1 m2 Q F (fold_each l b body).
Proof.
  intros HI Hbody HQ t w Ht Hw.
  apply wp_fold_each with (I := λ done b tw, (∃ t2, tw.2 = put_conversations t2 w) ∧ I done b (rows tw.1) (convs_of tw.2)).
  - cbn. split; [exists (cw_table w); by rewrite put_get_conversations|]. by rewrite Ht, Hw.
  - intros ls x rest b' [t' w'] Hl [[t2 Ht2] HI']. cbn in *. eapply wp_mono; [|by apply (Hbody ls x b' _ _ ltac:(rewrite Hl; apply elem_of_app; right; by left) HI')].
    intros r [t3 w3] [[t4 ->] HR]. cbn in *. subst w'.
    destruct r; try done; (split; [by exists t4|done]).
  - intros b' [t' w'] [Ht2 HI']. cbn in *. split; [done|]. by apply HQ.
Qed.

Lemma alters_tx m (P : ConvMap → Prop) (D : ConvMap → Prop) (body : M (CT * W) (list string)) :
  tx_does m m (λ ks m1 m2, let m' := merged m m1 m2 in P m' ∧ stale_conversations ks m m' ∧ (m2 = m ∨ D m2))
    (λ m2, m2 = m ∨ D m2) body →
  alters m P (λ b m', if b then m' = m else D m') (ks ← ConversationTransaction body; conversation_ExecDel ks).
Proof.
  intros Hbody w [Ha Hm]. apply wp_bind, wp_merging_transaction; [intros e _; right; split; [done|]; by exists true|].
  eapply wp_mono; [|by apply Hbody].
  assert (∀ t2, convs_of (put_conversations t2 w) = m ∨ D (convs_of (put_conversations t2 w)) →
    ∃ b : bool, (if b then convs_of (put_conversations t2 w) = m else D (convs_of (put_conversations t2 w))) ∧
      (b = true → ConversationsAgree (put_conversations t2 w))) as Hleft.
  { intros t2 [Heq|Hd]; [|by exists false]. exists true. split; [done|]. intros _.
    destruct (put_convs_are t2 w m Ha) as [? _]; [done|rewrite Hm; apply stale_conversations_refl|done]. }
  intros [ks|e| |] [t' w'] [[t2 Ht2] HQ]; cbn in *; try done; subst w'.
  - destruct HQ as (HP & Hst & Hd). split.
    + intros e _. right. split; [done|]. auto.
    + apply wp_conversation_del. intros w2 He. left. split; [done|].
      rewrite <-Hm in Hst. destruct (conversation_evicted ks w w2 (conversation_Merge (cw_table w) t' t2) Ha He) as [? ->].
      * rewrite Merge_rows. exact Hst.
      * rewrite Merge_rows, Hm. auto.
  - right. split; [done|]. auto.
Qed.
End ConversationCoherence.
