(* ===== verification/ConversationChanges.v ===== *)
(** * The changes of the conversation database

    What the statements do to the rows, what a change of rows makes stale, and the
    rules of the operations of the database that change conversations. *)

From S2P Require Import Prelude.
From S2P Require Import Constants.
From S2P Require Import MsgTypes.
From S2P Require Import MsgProcessor.
From S2P Require Import Tools.
From S2P Require Import Notification.
From S2P Require Import RpcClient.
From S2P Require Import GroupTypes.
From S2P Require Import Sql.
From S2P Require Import RowCache.
From S2P Require Import RowCoherence.
From S2P Require Import FriendTypes.
From S2P Require Import ConversationTypes.
From S2P Require Import ConversationDatabase.
From S2P Require Import ConversationServer.
From S2P Require Import ConversationSpec.
From S2P Require Import ConversationProofs.
From stdpp Require Import options.
#[local] Set Default Proof Using "Type*".

#[local] Open Scope Z_scope.

Section ConversationChanges.
Context `{ConversationEngineLaws} `{SpecialErrorLaws} `{ToolsLaws} `{MsgToolsLaws} `{CopyToolsLaws} {E : Type}.
Context (muted_too : bool).
Abbreviation W := (ConversationWorld E).
Implicit Types (t : CT) (w : W) (m : ConvMap).

Abbreviation stale := (stale_conversations muted_too).

(** ** Statements *)

Lemma conversations_table_key (c : ConversationModel) : table_key (T:=CT) c = conversation_key c.
Proof. by rewrite conversations_key. Qed.
Lemma has_conversation_key o cid c : has_conversation o cid c = true ↔ conversation_key c = (o, cid).
Proof.
  unfold has_conversation, conv_owned, conv_is, conversation_key. rewrite andb_true_iff, !bool_decide_eq_true. naive_solver.
Qed.

(** Rows under their keys. *)
Definition rows_keyed m : Prop := ∀ k r, m !! k = Some r → conversation_key r = k.
Lemma table_keyed t : rows_keyed (rows t).
Proof. intros k r Hr%(rows_key (T:=CT)). by rewrite conversations_table_key in Hr. Qed.
Lemma on_rows_keyed {A : Type} m (c : M CT A) (Q : A → ConvMap → Prop) X : (rows_keyed m → on_rows m c Q X) → on_rows m c Q X.
Proof. intros Hc t Ht. apply Hc; [|done]. rewrite <-Ht. apply table_keyed. Qed.

Lemma conv_rows_FindUserID us cid m : on_rows m (FindUserID us [cid]) (λ l m', m' = m ∧ NoDup l ∧
  ∀ u, u ∈ l ↔ u ∈ us ∧ is_Some (m !! (u, cid))) (λ _, True).
Proof.
  apply on_rows_keyed. intros Hk. apply on_rows_map, on_rows_wrap, on_rows_Find; [|done]. intros l Hl Hn. split; [done|].
  assert (∀ r, r ∈ l → Cm_ConversationID r = cid) as Hcid.
  { intros r Hr%Hl. unfold id_in, owner_in in Hr. rewrite andb_true_iff, !bool_decide_eq_true, list_elem_of_singleton in Hr. tauto. }
  split.
  - apply NoDup_fmap_2_strong; [|by eapply NoDup_fmap_1]. intros x y Hx Hy Ho.
    pose proof Hx as [_ Hx']%Hl. pose proof Hy as [_ Hy']%Hl. rewrite !conversations_table_key in *.
    assert (conversation_key x = conversation_key y) as Hkey by (unfold conversation_key; by rewrite Ho, (Hcid x), (Hcid y)).
    rewrite Hkey in Hx'. congruence.
  - intros u. rewrite list_elem_of_fmap. split.
    + intros (r & -> & Hr). pose proof (Hcid _ Hr) as Hc. apply Hl in Hr as [Hp Hr]. unfold owner_in in Hp.
      rewrite andb_true_iff, !bool_decide_eq_true in Hp. split; [tauto|]. rewrite conversations_table_key in Hr.
      unfold conversation_key in Hr. rewrite Hc in Hr. by exists r.
    + intros [Hu [r Hr]]. pose proof (Hk _ _ Hr) as Hkey. exists r. unfold conversation_key in Hkey. split; [congruence|]. apply Hl.
      rewrite conversations_table_key. unfold owner_in, id_in, conversation_key. rewrite andb_true_iff, !bool_decide_eq_true, list_elem_of_singleton.
      injection Hkey as -> ->. auto.
Qed.

Lemma conv_rows_Find o cid m : on_rows m (ConversationGorm_Find o [cid]) (λ l m', m' = m ∧ l = option_list (m !! (o, cid)) ∧
  ∀ r, m !! (o, cid) = Some r → Cm_ConversationID r = cid) (λ _, True).
Proof.
  apply on_rows_keyed. intros Hk. apply on_rows_wrap, on_rows_Find; [|done]. intros l Hl Hn. split; [done|].
  split; [|intros r Hr; by injection (Hk _ _ Hr)].
  assert (∀ r, r ∈ l ↔ m !! (o, cid) = Some r) as Hin.
  { intros r. rewrite Hl. unfold conv_owned, id_in. rewrite conversations_table_key, andb_true_iff, !bool_decide_eq_true, list_elem_of_singleton.
    unfold conversation_key. split; [by intros [[-> ->] ?]|]. intros Hr. pose proof (Hk _ _ Hr) as Hkey. injection Hkey as -> ->. auto. }
  destruct (m !! (o, cid)) as [r|]; cbn.
  - apply NoDup_fmap_1 in Hn. destruct l as [|x [|y l]].
    + destruct (not_elem_of_nil r). by apply Hin.
    + f_equal. enough (Some r = Some x) by congruence. apply Hin. by left.
    + exfalso. assert (x = y) as -> by (enough (Some x = Some y) by congruence; rewrite <-(proj1 (Hin x) ltac:(by left)); apply Hin; right; by left).
      apply NoDup_cons in Hn as [Hn _]. apply Hn. by left.
  - destruct l as [|x l]; [done|]. assert (None = Some x) as [=] by (apply Hin; by left).
Qed.

Lemma conv_rows_UpdateByMap us cid cs m : on_rows m (ConversationGorm_UpdateByMap us cid cs) (λ _ m', m' = with_columns us cid cs m) (λ _, True).
Proof.
  apply on_rows_wrap, on_rows_Updates; [|done..]. intros r. rewrite !conversations_table_key. apply conversation_key_columns.
Qed.
Lemma conv_rows_Update c m : on_rows m (ConversationGorm_Update c) (λ _ m', m' = alter (update_conversation c) (conversation_key c) m) (λ _, True).
Proof.
  apply on_rows_wrap, on_rows_map. eapply on_rows_Updates_key; [| |done|done].
  - intros r. rewrite conversations_table_key. apply has_conversation_key.
  - intros r. by rewrite !conversations_table_key.
Qed.
Lemma conv_rows_Create now l m : on_rows m (ConversationGorm_Create now l) (λ _ m',
  (∀ c, c ∈ l → m !! conversation_key c = None ∧ m' !! conversation_key c = Some (auto_conversation now c)) ∧
  ∀ k, k ∉ conversation_key <$> l → m' !! k = m !! k) (λ _, True).
Proof.
  apply on_rows_wrap, on_rows_Create; [|done]. intros Hn Hnone.
  assert (table_key (T:=CT) <$> (auto_conversation now <$> l) = conversation_key <$> l) as Hkeys.
  { rewrite <-list_fmap_compose. apply list_fmap_ext. intros i c _. cbn. by rewrite conversations_table_key, conversation_key_auto. }
  split.
  - intros c Hc. rewrite <-(conversation_key_auto now c), <-conversations_table_key. split.
    + by apply Hnone, list_elem_of_fmap_2.
    + apply lookup_insert_rows_elem; [done|by apply list_elem_of_fmap_2].
  - intros k Hk. apply lookup_insert_rows_ne. intros r Hr <-. apply Hk. rewrite <-Hkeys. by apply list_elem_of_fmap_2.
Qed.

(** ** What a change makes stale *)

Lemma stale_conversations_trans ks m m1 m2 : stale ks m m1 → stale ks m1 m2 → stale ks m m2.
Proof.
  intros H1' H2'. split.
  - intros o c. destruct (stale_row _ _ _ _ H1' o c) as [?|Hr1]; [by left|]. destruct (stale_row _ _ _ _ H2' o c) as [?|Hr2]; [by left|].
    right. auto.
  - intros o. destruct (stale_ids _ _ _ _ H1' o) as [?|<-]; [by left|]. apply (stale_ids _ _ _ _ H2').
  - intros c Hb. destruct (stale_muted _ _ _ _ H1' c Hb) as [?|Hm1]; [by left|]. destruct (stale_muted _ _ _ _ H2' c Hb) as [?|Hm2]; [by left|].
    right. intros u. by rewrite Hm2, Hm1.
Qed.
Lemma stale_conversations_weaken ks ks' m m' : ks ⊆ ks' → stale ks m m' → stale ks' m m'.
Proof.
  intros Hks Hst. split.
  - intros o c. destruct (stale_row _ _ _ _ Hst o c); auto.
  - intros o. destruct (stale_ids _ _ _ _ Hst o) as [[]|]; auto.
  - intros c Hb. destruct (stale_muted _ _ _ _ Hst c Hb); auto.
Qed.

Lemma stale_upsert ks us cid f g m :
  (∀ u r, u ∈ us → m !! (u, cid) = Some r → getConversationKey u cid ∈ ks) →
  (∀ u, u ∈ us → m !! (u, cid) = None → getConversationIDsKey u ∈ ks ∧ getUserConversationIDsHashKey u ∈ ks) →
  (muted_too = true → getConversationNotReceiveMessageUserIDsKey cid ∈ ks ∨
    ((∀ u r, u ∈ us → m !! (u, cid) = Some r → Cm_RecvMsgOpt (f r) = Cm_RecvMsgOpt r) ∧
     ∀ u, u ∈ us → m !! (u, cid) = None → Cm_RecvMsgOpt (g u) = ReceiveMessage)) →
  stale ks m (upsert us cid (change_or_make f g) m).
Proof.
  intros Hrow Hids Hmuted. split.
  - intros o c. destruct (decide (c = cid ∧ o ∈ us)) as [[-> Ho]|Hn].
    + destruct (m !! (o, cid)) as [r|] eqn:Hr; [left; by eapply Hrow|by right].
    + right. intros r. by rewrite lookup_upsert, decide_False.
  - intros o. destruct (decide (o ∈ us)) as [Ho|Hn].
    + destruct (m !! (o, cid)) as [r|] eqn:Hr; [right|left; by apply Hids]. apply set_eq. intros c.
      rewrite !elem_of_seconds, lookup_upsert. case_decide as Hd; [|done]. destruct Hd as [-> _]. rewrite Hr. cbn. split; by eexists.
    + right. apply set_eq. intros c. rewrite !elem_of_seconds, lookup_upsert, decide_False; [done|]. tauto.
  - intros c Hb. destruct (decide (c = cid)) as [->|Hc].
    + destruct (Hmuted Hb) as [?|[Hf Hg]]; [by left|]. right. intros u. unfold mutes. rewrite lookup_upsert.
      case_decide as Hd; [|done]. destruct Hd as [_ Hu]. destruct (m !! (u, cid)) as [r|] eqn:Hr; cbn.
      * specialize (Hf u r Hu Hr). split; intros (r' & [= <-] & Ho); eexists; (split; [done|]); congruence.
      * specialize (Hg u Hu Hr). split; [intros (r' & [= <-] & Ho); congruence|by intros (r' & [=] & _)].
    + right. intros u. unfold mutes. rewrite lookup_upsert, decide_False; [done|]. tauto.
Qed.

(** Columns of the rows that are there. *)
Lemma with_columns_upsert us cid cs g m : rows_keyed m →
  with_columns us cid cs m =
  upsert (filter (λ u, is_Some (m !! (u, cid))) us) cid (change_or_make (set_conversation_columns cs) g) m.
Proof.
  intros Hk. apply map_eq. intros [u c]. rewrite lookup_upsert. unfold with_columns. rewrite lookup_fmap.
  destruct (m !! (u, c)) as [r|] eqn:Hr; cbn.
  - pose proof (Hk _ _ Hr) as Hkey. unfold owner_in, conv_is. injection Hkey as Ho Hc. rewrite Ho, Hc.
    case_decide as Hd.
    + destruct Hd as [-> [_ Hu]%list_elem_of_filter]. rewrite Hr, !bool_decide_true by done. done.
    + destruct (bool_decide (u ∈ us)) eqn:Hu; [|done]. destruct (bool_decide (c = cid)) eqn:Hcid; [|done].
      bool_facts. destruct Hd. split; [done|]. apply list_elem_of_filter. subst. split; [by eexists|done].
  - rewrite decide_False; [done|]. intros [-> [[? Hs] _]%list_elem_of_filter]. congruence.
Qed.

(** Rows inserted where there are none. *)
Lemma inserted_upsert now (us : list string) cid (mk : string → ConversationModel) f m m' :
  (∀ u, u ∈ us → conversation_key (mk u) = (u, cid)) →
  (∀ c, c ∈ (mk <$> us) → m !! conversation_key c = None ∧ m' !! conversation_key c = Some (auto_conversation now c)) →
  (∀ k, k ∉ conversation_key <$> (mk <$> us) → m' !! k = m !! k) →
  m' = upsert us cid (change_or_make f (λ u, auto_conversation now (mk u))) m.
Proof.
  intros Hmk Hin Hout. apply map_eq. intros [u c]. rewrite lookup_upsert. case_decide as Hd.
  - destruct Hd as [-> Hu]. destruct (Hin (mk u)) as [Hn Hs]; [by apply list_elem_of_fmap_2|]. rewrite (Hmk u Hu) in *. by rewrite Hn, Hs.
  - apply Hout. rewrite <-list_fmap_compose, list_elem_of_fmap. intros (v & Hv & Hin'). cbn in Hv. rewrite (Hmk v Hin') in Hv.
    injection Hv as -> ->. by destruct Hd.
Qed.
Lemma upsert_ext (us us' : list string) cid (f f' : string → option ConversationModel → ConversationModel) m : (∀ u, u ∈ us ↔ u ∈ us') →
  (∀ u, u ∈ us → f u (m !! (u, cid)) = f' u (m !! (u, cid))) → upsert us cid f m = upsert us' cid f' m.
Proof.
  intros Hus Hf. apply map_eq. intros [u c]. rewrite !lookup_upsert. rewrite (decide_ext _ (c = cid ∧ u ∈ us')) by (by rewrite Hus).
  case_decide as Hd; [|done]. f_equal. apply Hf, Hus, Hd.
Qed.
(** The rows that were there are changed, those that were missing made, in either order. *)
Lemma upsert_parts (us have new : list string) cid f g m m' : (∀ u, u ∈ have ↔ u ∈ us ∧ is_Some (m !! (u, cid))) →
  (∀ u, u ∈ new ↔ u ∈ us ∧ m !! (u, cid) = None) →
  (∀ u, u ∈ have → m' !! (u, cid) = f <$> m !! (u, cid)) → (∀ u, u ∈ new → m' !! (u, cid) = Some (g u)) →
  (∀ u c, ¬ (c = cid ∧ u ∈ us) → m' !! (u, c) = m !! (u, c)) →
  m' = upsert us cid (change_or_make f g) m.
Proof.
  intros Hhave Hnew Hh Hn Ho. apply map_eq. intros [u c]. rewrite lookup_upsert. case_decide as Hd; [|by apply Ho].
  destruct Hd as [-> Hu]. destruct (m !! (u, cid)) as [r|] eqn:Hr; cbn.
  - rewrite Hh, Hr; [done|]. apply Hhave. by rewrite Hr.
  - apply Hn, Hnew. by rewrite Hr.
Qed.
Lemma difference_missing (us have : list string) cid m : (∀ u, u ∈ have ↔ u ∈ us ∧ is_Some (m !! (u, cid))) →
  ∀ u, (u ∈ us ∧ u ∉ have) ∨ (u ∈ have ∧ u ∉ us) ↔ u ∈ us ∧ m !! (u, cid) = None.
Proof.
  intros Hh u. rewrite Hh, eq_None_not_Some. destruct (decide (is_Some (m !! (u, cid)))); tauto.
Qed.

(** ** Statements of the controller *)

Lemma conv_rows_UpdateByMap_upsert us cid cs g m : on_rows m (ConversationGorm_UpdateByMap us cid cs)
  (λ _ m', m' = upsert (filter (λ u, is_Some (m !! (u, cid))) us) cid (change_or_make (set_conversation_columns cs) g) m) (λ _, True).
Proof.
  apply on_rows_keyed. intros Hk. rewrite <-with_columns_upsert by done. apply conv_rows_UpdateByMap.
Qed.
Lemma conv_rows_Create_upsert now us cid (mk : string → ConversationModel) f m :
  (∀ u, u ∈ us → conversation_key (mk u) = (u, cid)) →
  on_rows m (ConversationGorm_Create now (mk <$> us)) (λ _ m', (∀ u, u ∈ us → m !! (u, cid) = None) ∧
    m' = upsert us cid (change_or_make f (λ u, auto_conversation now (mk u))) m) (λ _, True).
Proof.
  intros Hmk t Ht. eapply wp_mono; [|by apply conv_rows_Create]. intros [a|e| |] t'; try done. intros [Hin Hout]. split.
  - intros u Hu. rewrite <-(Hmk u Hu). by apply Hin, list_elem_of_fmap_2.
  - by apply inserted_upsert.
Qed.
End ConversationChanges.

(** * The operations of the conversation database

    What each operation that changes conversations does: the rows it leaves when it
    succeeds, what it leaves when it fails, and that the cache goes on agreeing. *)

(** ** The keys collected *)

Create HintDb cache_keys.

Lemma in_added {A} (key : A → string) us c u : u ∈ us → key u ∈ c ++ (key <$> us).
Proof. intros Hu. apply elem_of_app. right. by apply list_elem_of_fmap_2. Qed.
Lemma in_collected (c ks : list string) k : k ∈ c → k ∈ c ++ ks.
Proof. intros Hk. apply elem_of_app. by left. Qed.

Lemma in_DelConversationIDs us c u : u ∈ us → getConversationIDsKey u ∈ DelConversationIDs us c.
Proof. apply in_added. Qed.
Lemma in_DelUserConversationIDsHash us c u : u ∈ us → getUserConversationIDsHashKey u ∈ DelUserConversationIDsHash us c.
Proof. apply in_added. Qed.
Lemma in_DelConversations o cids c cid : cid ∈ cids → getConversationKey o cid ∈ DelConversations o cids c.
Proof. apply in_added. Qed.
Lemma in_DelUsersConversation cid us c u : u ∈ us → getConversationKey u cid ∈ DelUsersConversation cid us c.
Proof. apply (in_added (λ u, getConversationKey u cid)). Qed.
Lemma in_DelNotReceive cids c cid : cid ∈ cids → getConversationNotReceiveMessageUserIDsKey cid ∈ DelConversationNotReceiveMessageUserIDs cids c.
Proof. apply in_added. Qed.
Lemma kept_DelConversationIDs us c k : k ∈ c → k ∈ DelConversationIDs us c.
Proof. apply in_collected. Qed.
Lemma kept_DelUserConversationIDsHash us c k : k ∈ c → k ∈ DelUserConversationIDsHash us c.
Proof. apply in_collected. Qed.
Lemma kept_DelConversations o cids c k : k ∈ c → k ∈ DelConversations o cids c.
Proof. apply in_collected. Qed.
Lemma kept_DelUsersConversation cid us c k : k ∈ c → k ∈ DelUsersConversation cid us c.
Proof. apply in_collected. Qed.
Lemma kept_DelNotReceive cids c k : k ∈ c → k ∈ DelConversationNotReceiveMessageUserIDs cids c.
Proof. apply in_collected. Qed.
Lemma elem_of_one {A} (x : A) : x ∈ [x].
Proof. by left. Qed.
#[export] Hint Resolve in_DelConversationIDs in_DelUserConversationIDsHash in_DelConversations in_DelUsersConversation
  in_DelNotReceive kept_DelConversationIDs kept_DelUserConversationIDsHash kept_DelConversations
  kept_DelUsersConversation kept_DelNotReceive elem_of_one : cache_keys.

Section ConversationRules.
Context `{ConversationEngineLaws} `{!TagSucceeds CC} `{SpecialErrorLaws} `{ToolsLaws} `{MsgToolsLaws} `{CopyToolsLaws} {E : Type}.
Context (muted_too : bool) (now : Z).
Abbreviation W := (ConversationWorld E).
Implicit Types (t : CT) (w : W) (m : ConvMap).

Abbreviation stale := (stale_conversations muted_too).
Abbreviation alters := (alters (E:=E) muted_too).
Abbreviation tx_does := (tx_does (E:=E)).

(** A failure leaves nothing. *)
Definition nothing_left m (b : bool) m' : Prop := b = true ∧ m' = m.

(** ** Statements with their deletions *)

Lemma alters_CreateConversation c m :
  alters m (λ m', m' = made now c m) (nothing_left m) (conversationDatabase_CreateConversation now [c]).
Proof.
  apply alters_stmt_del.
  intros t Ht. eapply wp_mono; [|exact (conv_rows_Create_upsert now [Cm_OwnerUserID c] (Cm_ConversationID c) (λ _, c) id m
    ltac:(by intros u ->%list_elem_of_singleton) t Ht)].
  intros [a|e| |] t'; try done. intros [Hn ->]. split; [done|].
  apply stale_upsert.
  - intros u r Hu Hr. specialize (Hn _ Hu). congruence.
  - intros u ->%list_elem_of_singleton _. cbn [foldl fmap list_fmap]. auto with cache_keys.
  - intros _. left. cbn [foldl]. auto 6 with cache_keys.
Qed.

Lemma alters_UpdateUsersConversationFiled us cid cs m :
  alters m (λ m', m' = with_columns us cid cs m) (nothing_left m) (UpdateUsersConversationFiled us cid cs).
Proof.
  apply alters_stmt_del. apply on_rows_keyed. intros Hk. intros t Ht. eapply wp_mono; [|by apply conv_rows_UpdateByMap].
  intros [a|e| |] t'; try done. intros ->. split; [done|].
  rewrite (with_columns_upsert _ _ _ (λ _, ConversationModel_zero)) by done. apply stale_upsert.
  - intros u r [_ Hu]%list_elem_of_filter _.
    destruct (has_column _ _); auto with cache_keys.
  - intros u [[? Hs] _]%list_elem_of_filter ?. congruence.
  - intros _. destruct (has_column _ cs) eqn:Hc; [left; auto with cache_keys|right]. split.
    + intros u r _ _. by apply RecvMsgOpt_columns.
    + intros u [[? Hs] _]%list_elem_of_filter ?. congruence.
Qed.
(** ** Transactions *)

(** A statement of the transaction, or beside it, and what follows. *)
Lemma tx_in_bind {A B : Type} m1 m2 (R : A → ConvMap → Prop) (Q : B → ConvMap → ConvMap → Prop) (F : ConvMap → Prop) (c : M CT A) k :
  on_rows m1 c R (λ _, True) → F m2 → (∀ a m1', R a m1' → tx_does m1' m2 Q F (k a)) →
  tx_does m1 m2 Q F (a ← in_conversation_tx c; k a).
Proof.
  intros Hc HF Hk. apply (tx_bind _ _ (λ a m1' m2', R a m1' ∧ m2' = m2)).
  - apply tx_in; [|done]. eapply on_rows_mono; [done|]. auto.
  - intros a m1' ? [HR ->]. by apply Hk.
Qed.
Lemma tx_beside_bind {A B : Type} m1 m2 (R : A → ConvMap → Prop) (Q : B → ConvMap → ConvMap → Prop) (F : ConvMap → Prop) (c : M CT A) k :
  on_rows m2 c R (λ _, True) → F m2 → (∀ a m2', R a m2' → tx_does m1 m2' Q F (k a)) →
  tx_does m1 m2 Q F (a ← beside_conversation_tx c; k a).
Proof.
  intros Hc HF Hk. apply (tx_bind _ _ (λ a m1' m2', R a m2' ∧ m1' = m1)).
  - apply tx_beside; [|done]. eapply on_rows_mono; [done|]. auto.
  - intros a ? m2' [HR ->]. by apply Hk.
Qed.

(** A transaction without statements beside it. *)
Lemma alters_tx_alone m (P : ConvMap → Prop) (body : M (CT * W) (list string)) :
  tx_does m m (λ ks m1 m2, m2 = m ∧ P m1 ∧ stale ks m m1) (λ m2, m2 = m) body →
  alters m P (nothing_left m) (ks ← ConversationTransaction body; conversation_ExecDel ks).
Proof.
  intros Hbody. eapply alters_mono; [apply (alters_tx muted_too m P (λ _, False))|done|by intros [] m' HF].
  intros t w Ht Hw. eapply wp_mono; [|by apply Hbody]. intros [ks|e| |] tw [? HQ]; (split; [done|]); [|by left|done..].
  destruct HQ as (-> & HP & Hst). cbn zeta. rewrite merged_alone. auto.
Qed.

(** The copies of a conversation for other users. *)
Lemma conversation_key_for u c : conversation_key (set_Cm_CreateTime now (set_Cm_owner u c)) = (u, Cm_ConversationID c).
Proof. by destruct c. Qed.
Lemma tx_conversations_for (c : ConversationModel) (us : list string) m1 m2 (Q : list ConversationModel → ConvMap → ConvMap → Prop) (F : ConvMap → Prop) :
  Q ((λ u, set_Cm_CreateTime now (set_Cm_owner u c)) <$> us) m1 m2 → F m2 →
  tx_does m1 m2 Q F (conversations_for now c us).
Proof.
  intros HQ HF. apply tx_fold with (I := λ ds l m1' m2', l = (λ u, set_Cm_CreateTime now (set_Cm_owner u c)) <$> ds ∧ m1' = m1 ∧ m2' = m2).
  - done.
  - intros ds u l m1' m2' _ (-> & -> & ->).
    apply (tx_bind _ _ (λ a m1' m2', a = c ∧ m1' = m1 ∧ m2' = m2)).
    + apply tx_lift; [|done]. intros a Ha%Copy_model_ok. done.
    + intros a ? ? (-> & -> & ->). apply tx_ret. by rewrite fmap_app.
  - intros l m1' m2' (-> & -> & ->). done.
Qed.

Lemma no_has_read_seq cs : has_column "has_read_seq" cs = false.
Proof.
  unfold has_column. rewrite bool_decide_eq_false. intros (c & Hc & _)%list_elem_of_fmap. by destruct c.
Qed.
(** The fields of the users who have the conversation. *)
Lemma tx_set_fields (cid : string) (have : list string) (cs : list conversation_column) (cache : list string) m :
  (∀ u, u ∈ have → is_Some (m !! (u, cid))) →
  tx_does m m (λ ks m1 m2, m2 = m ∧ m1 = upsert have cid (change_or_make (set_conversation_columns cs) (λ _, ConversationModel_zero)) m ∧
      (∀ u, u ∈ have → getConversationKey u cid ∈ ks) ∧
      (has_column "recv_msg_opt" cs = true → have ≠ [] → getConversationNotReceiveMessageUserIDsKey cid ∈ ks))
    (λ m2, m2 = m)
    (if 0 <? len have then
        _ ← in_conversation_tx (ConversationGorm_UpdateByMap have cid cs);
        let cache := DelUsersConversation cid have cache in
        let cache := if has_column "has_read_seq" cs
          then foldl (λ cache userID, DelUserAllHasReadSeqs userID [cid] cache) cache have else cache in
        mret (if has_column "recv_msg_opt" cs then DelConversationNotReceiveMessageUserIDs [cid] cache else cache)
      else mret cache).
Proof.
  intros Hhave. destruct (Z.ltb_spec 0 (len have)) as [Hl|Hl].
  - eapply tx_in_bind; [apply conv_rows_UpdateByMap_upsert|done|]. intros _ m' ->. apply tx_ret.
    rewrite no_has_read_seq. split; [done|]. split; [|split].
    + f_equal. by apply list_filter_all.
    + intros u Hu. destruct (has_column "recv_msg_opt" cs); auto with cache_keys.
    + intros -> _. auto with cache_keys.
  - destruct have as [|u have]; [|unfold len in Hl; rewrite length_cons in Hl; lia]. apply tx_ret. split; [done|]. split; [done|].
    split; [by intros u ?%elem_of_nil|done].
Qed.

Lemma alters_SetUsersConversationFiledTx us c cs m : Cm_RecvMsgOpt c = 0 →
  alters m (λ m', m' = upsert us (Cm_ConversationID c) (change_or_make (set_conversation_columns cs)
      (λ u, auto_conversation now (set_Cm_CreateTime now (set_Cm_owner u c)))) m)
    (nothing_left m) (SetUsersConversationFiledTx now us c cs).
Proof.
  intros Hopt. apply alters_tx_alone.
  set (cid := Cm_ConversationID c). set (mk u := set_Cm_CreateTime now (set_Cm_owner u c)).
  eapply tx_in_bind; [apply conv_rows_FindUserID|done|]. intros have m' (-> & _ & Hhave).
  eapply tx_bind; [apply tx_set_fields; intros u Hu; by apply Hhave|]. intros ks m1 m2 (-> & -> & Hrow & Hmuted).
  set (new := DifferenceString have us).
  assert (∀ u, u ∈ new ↔ u ∈ us ∧ m !! (u, cid) = None) as Hnew.
  { intros u. unfold new. rewrite DifferenceString_elem, <-(difference_missing us have cid m Hhave). tauto. }
  set (m1 := upsert have cid _ m).
  (* What is left of the proof, once the missing rows are made. *)
  assert (∀ ks' m', (∀ k, k ∈ ks → k ∈ ks') →
    (∀ u, u ∈ new → getConversationIDsKey u ∈ ks' ∧ getUserConversationIDsHashKey u ∈ ks') →
    (∀ u, u ∈ new → m' !! (u, cid) = Some (auto_conversation now (mk u))) →
    (∀ u c, ¬ (c = cid ∧ u ∈ new) → m' !! (u, c) = m1 !! (u, c)) →
    m = m ∧ m' = upsert us cid (change_or_make (set_conversation_columns cs) (λ u, auto_conversation now (mk u))) m ∧
    stale ks' m m') as Hend.
  { intros ks' m' Hks Hids Hm' Hother.
    assert (m' = upsert us cid (change_or_make (set_conversation_columns cs) (λ u, auto_conversation now (mk u))) m) as Heq.
    { apply (upsert_parts us have new); [done|done| |done|].
      - intros u Hu. rewrite Hother.
        + unfold m1. rewrite lookup_upsert, decide_True by done. by destruct (proj1 (Hhave u) Hu) as [_ [r ->]].
        + intros [_ [_ Hn]%Hnew]. apply Hhave in Hu as [_ [r Hr]]. congruence.
      - intros u c' Hn. rewrite Hother; [|intros [-> [? _]%Hnew]; by destruct Hn].
        unfold m1. rewrite lookup_upsert, decide_False; [done|]. intros [-> [? _]%Hhave]. by destruct Hn. }
    split; [done|]. split; [done|]. rewrite Heq. apply stale_upsert.
    - intros u r Hu Hr. apply Hks, Hrow, Hhave. by rewrite Hr.
    - intros u Hu Hr. by apply Hids, Hnew.
    - intros _. destruct (has_column "recv_msg_opt" cs) eqn:Hc; [destruct (decide (have = [])) as [Hnil|Hne]|].
      + right. split; [|by destruct c]. intros u r Hu Hr. destruct (not_elem_of_nil u). rewrite <-Hnil. apply Hhave. by rewrite Hr.
      + left. auto.
      + right. split; [|by destruct c]. intros u r _ _. by apply RecvMsgOpt_columns. }
  eapply tx_bind with (Q := λ l m1' m2', l = mk <$> new ∧ m1' = m1 ∧ m2' = m); [by apply tx_conversations_for|].
  intros l ? ? (-> & -> & ->). destruct (Z.ltb_spec 0 (len (mk <$> new))) as [Hl|Hl].
  - eapply tx_in_bind; [apply (conv_rows_Create_upsert now new cid mk id); intros u _; apply conversation_key_for|done|].
    intros _ m' [_ ->]. apply tx_ret. apply Hend.
    + auto with cache_keys.
    + auto 6 with cache_keys.
    + intros u Hu. rewrite lookup_upsert, decide_True by done. unfold m1. rewrite lookup_upsert, decide_False.
      * by destruct (proj1 (Hnew u) Hu) as [_ ->].
      * intros [_ [_ [? ?]]%Hhave]. apply Hnew in Hu as [_ ?]. congruence.
    + intros u c' Hn. by rewrite lookup_upsert, decide_False.
  - destruct new as [|u new'] eqn:En; [|unfold len in Hl; rewrite fmap_cons, length_cons in Hl; lia]. apply tx_ret. apply Hend; [done|..].
    + by intros u ?%elem_of_nil.
    + by intros u ?%elem_of_nil.
    + done.
Qed.
(** One side of a private conversation. *)
Lemma tx_sync_private c o peer ks m m1 : Cm_RecvMsgOpt c = 0 →
  stale ks m m1 →
  tx_does m1 m (λ ks' m1' m2, m2 = m ∧ m1' = private_side now c m1 (o, peer) ∧ stale ks' m m1') (λ m2, m2 = m)
    (sync_private now c ks (o, peer)).
Proof.
  intros Hopt Hst. set (cid := Cm_ConversationID c).
  assert (∀ ks', (∀ k, k ∈ ks → k ∈ ks') →
    (∀ r, m1 !! (o, cid) = Some r → getConversationKey o cid ∈ ks') →
    (m1 !! (o, cid) = None → getConversationIDsKey o ∈ ks' ∧ getUserConversationIDsHashKey o ∈ ks') →
    stale ks' m (private_side now c m1 (o, peer))) as Hside.
  { intros ks' Hks Hrow Hids. eapply stale_conversations_trans; [by eapply stale_conversations_weaken|]. apply stale_upsert.
    - intros u r ->%list_elem_of_singleton. apply Hrow.
    - intros u ->%list_elem_of_singleton. apply Hids.
    - intros _. right. split; [|by destruct c]. intros u r _ _. by apply RecvMsgOpt_columns. }
  eapply tx_in_bind; [apply conv_rows_FindUserID|done|]. intros l m' (-> & _ & Hl).
  destruct (Z.ltb_spec 0 (len l)) as [Hlen|Hlen].
  - assert (is_Some (m1 !! (o, cid))) as [r Hr].
    { destruct l as [|u l]; [done|]. destruct (proj1 (Hl u)) as [->%list_elem_of_singleton ?]; [by left|done]. }
    eapply tx_in_bind; [apply (conv_rows_UpdateByMap_upsert _ _ _ (λ u, auto_conversation now (set_Cm_UserID peer (set_Cm_owner u c))))|done|].
    intros _ m' ->. apply tx_ret. split; [done|].
    rewrite list_filter_all by (intros u ->%list_elem_of_singleton; by eexists). split; [done|]. apply Hside.
    + auto with cache_keys.
    + auto with cache_keys.
    + fold cid. congruence.
  - assert (m1 !! (o, cid) = None) as Hr.
    { apply eq_None_not_Some. intros Hs. destruct l as [|u l]; [|unfold len in Hlen; rewrite length_cons in Hlen; lia].
      apply (not_elem_of_nil o), Hl. split; [by left|done]. }
    eapply tx_in_bind; [apply (conv_rows_Create_upsert now [o] cid (λ u, set_Cm_UserID peer (set_Cm_owner u c))
      (set_conversation_columns [ccol_is_private_chat (Cm_IsPrivateChat c)])); by destruct c|done|].
    intros _ m' [_ ->]. apply tx_ret. split; [done|]. split; [done|]. apply Hside.
    + auto with cache_keys.
    + intros r. fold cid. congruence.
    + auto with cache_keys.
Qed.

Definition sides (c : ConversationModel) : list (string * string) := [(Cm_OwnerUserID c, Cm_UserID c); (Cm_UserID c, Cm_OwnerUserID c)].
Lemma alters_SyncPeerUserPrivateConversationTx cs m : Forall (λ c, Cm_RecvMsgOpt c = 0) cs →
  alters m (λ m', m' = foldl (λ m c, foldl (private_side now c) m (sides c)) m cs) (nothing_left m)
    (SyncPeerUserPrivateConversationTx now cs).
Proof.
  intros Hcs. apply alters_tx_alone.
  apply tx_fold with (I := λ ds ks m1 m2, m2 = m ∧ m1 = foldl (λ m c, foldl (private_side now c) m (sides c)) m ds ∧ stale ks m m1).
  - split; [done|]. split; [done|]. apply stale_conversations_refl.
  - intros ds c ks m1 m2 Hc (-> & Hm1 & Hst). rewrite foldl_app, <-Hm1. cbn [foldl].
    rewrite Forall_forall in Hcs. specialize (Hcs c Hc).
    apply tx_fold with (I := λ vs ks m1' m2, m2 = m ∧ m1' = foldl (private_side now c) m1 vs ∧ stale ks m m1').
    + done.
    + intros vs [o peer] ks' m1' m2' _ (-> & Hm1' & Hst'). rewrite foldl_app, <-Hm1'. by apply tx_sync_private.
    + intros ks' m1' m2' (-> & -> & Hst'). done.
  - intros ks m1 m2 (-> & -> & Hst). done.
Qed.
(** The same flag for several users, and their peer. *)
Lemma private_sides c peer (us : list string) m : Cm_UserID c = peer →
  foldl (λ m c, foldl (private_side now c) m (sides c)) m ((λ u, set_Cm_owner u c) <$> us) =
  foldl (private_side now c) m (both_sides peer us).
Proof.
  intros <-. revert m. induction us as [|u us IH]; intros m; [done|]. rewrite fmap_cons. cbn [foldl]. rewrite IH.
  unfold both_sides. cbn [mbind list_bind]. rewrite foldl_app. by destruct c.
Qed.

(** A conversation of one user: a row that is missing is made outside the transaction. *)
Lemma alters_SetUserConversations c m :
  (muted_too = true → is_Some (m !! (Cm_OwnerUserID c, Cm_ConversationID c)) → Cm_RecvMsgOpt c = 0) →
  let m' := upsert [Cm_OwnerUserID c] (Cm_ConversationID c)
    (change_or_make (update_conversation c) (λ _, auto_conversation now c)) m in
  alters m (λ m1, m1 = m')
    (λ b m1, if b then m1 = m else m !! (Cm_OwnerUserID c, Cm_ConversationID c) = None ∧ m1 = m')
    (SetUserConversations now (Cm_OwnerUserID c) [c]).
Proof.
  intros Hopt m'. set (o := Cm_OwnerUserID c) in *. set (cid := Cm_ConversationID c) in *.
  apply (alters_tx muted_too m (λ m1, m1 = m') (λ m1, m !! (o, cid) = None ∧ m1 = m')).
  eapply tx_in_bind; [apply (conv_rows_Find o cid)|by left|]. intros l ? (-> & Hl & Hcid).
  destruct (m !! (o, cid)) as [r|] eqn:Hr; subst l; cbn [option_list len length].
  - assert (m' = alter (update_conversation c) (o, cid) m) as Hm'.
    { apply map_eq. intros [u c']. unfold m'. rewrite lookup_upsert. destruct (decide ((u, c') = (o, cid))) as [[= -> ->]|Hn].
      - rewrite decide_True by (split; [done|by left]). by rewrite Hr, lookup_alter_eq, Hr.
      - rewrite decide_False, lookup_alter_ne by (done || by intros [-> ->%list_elem_of_singleton]). done. }
    change (0 <? len [r]) with true. cbn [for_each fold_each].
    eapply (tx_bind _ _ (λ _ m1 m2, m1 = m' ∧ m2 = m)).
    { eapply tx_in_bind; [apply conv_rows_Update|by left|]. intros _ m1 ->. apply tx_ret. by rewrite Hm'. }
    intros _ ? ? [-> ->]. cbn zeta. rewrite filter_cons_False, filter_nil.
    2: { rewrite Contain_spec, bool_decide_eq_false. cbn. rewrite (Hcid r) by done. intros Hn. apply Hn. by left. }
    cbn [len length]. apply tx_ret. cbn zeta. rewrite merged_alone. split; [done|]. split; [|by left].
    apply stale_upsert.
    + intros u ? ->%list_elem_of_singleton _. apply in_DelConversations. by left.
    + intros u ->%list_elem_of_singleton. congruence.
    + intros Hb. right. split; [|intros u ->%list_elem_of_singleton; congruence].
      intros u r' _ _. cbn. rewrite Hopt by eauto. done.
  - change (0 <? len []) with false. eapply (tx_bind _ _ (λ _ m1 m2, m1 = m ∧ m2 = m)); [by apply tx_ret|].
    intros _ ? ? [-> ->]. cbn zeta. rewrite filter_cons_True, filter_nil.
    2: { rewrite Contain_spec, bool_decide_eq_false. cbn. apply not_elem_of_nil. }
    change (0 <? len [c]) with true.
    eapply tx_beside_bind; [apply (conv_rows_Create_upsert now [o] cid (λ _, c) (update_conversation c)); by intros u ->%list_elem_of_singleton|by left|].
    intros _ m2 [_ ->]. apply tx_ret. cbn zeta. rewrite merged_beside. split; [done|]. split; [|by right].
    apply stale_upsert.
    + intros u ? ->%list_elem_of_singleton. congruence.
    + intros u ->%list_elem_of_singleton _. auto with cache_keys.
    + intros _. left. apply in_DelNotReceive. by left.
Qed.
(** The conversations of a group: no statement uses the transaction. *)
Lemma with_group_parts g us have new m : (∀ u, u ∈ have ↔ u ∈ us ∧ is_Some (m !! (u, group_conversation g))) →
  (∀ u, u ∈ new ↔ u ∈ us ∧ m !! (u, group_conversation g) = None) →
  with_group now g new id m = with_group now g us id m ∧
  ∀ f, upsert have (group_conversation g) (change_or_make f (λ _, ConversationModel_zero)) (with_group now g us id m) =
    with_group now g us f m.
Proof.
  intros Hhave Hnew. split.
  - apply (upsert_parts us have new); [done|done| | |].
    + intros u Hu. unfold with_group. rewrite lookup_upsert, decide_False; [by destruct (m !! _)|].
      intros [_ [_ Hn]%Hnew]. apply Hhave in Hu as [_ [? ?]]. congruence.
    + intros u Hu. unfold with_group. rewrite lookup_upsert, decide_True by done. by destruct (proj1 (Hnew u) Hu) as [_ ->].
    + intros u c Hn. unfold with_group. rewrite lookup_upsert, decide_False; [done|]. intros [-> [? _]%Hnew]. by destruct Hn.
  - intros f. apply (upsert_parts us have new); [done|done| | |].
    + intros u Hu. destruct (proj1 (Hhave u) Hu) as [Hin [r Hr]]. rewrite lookup_upsert, decide_True by done. unfold with_group.
      rewrite lookup_upsert, decide_True by done. by rewrite Hr.
    + intros u Hu. destruct (proj1 (Hnew u) Hu) as [Hin Hr]. rewrite lookup_upsert, decide_False.
      * unfold with_group. rewrite lookup_upsert, decide_True by done. by rewrite Hr.
      * intros [_ [_ [? ?]]%Hhave]. congruence.
    + intros u c Hn. rewrite lookup_upsert, decide_False; [|intros [-> [? _]%Hhave]; by destruct Hn].
      unfold with_group. by rewrite lookup_upsert, decide_False.
Qed.

Lemma in_fold_keys (cid : string) (us cache : list string) :
  (∀ u, u ∈ us → getConversationKey u cid ∈ foldl (λ cache v, DelConversations v [cid] cache) cache us) ∧
  ∀ k, k ∈ cache → k ∈ foldl (λ cache v, DelConversations v [cid] cache) cache us.
Proof.
  revert cache. induction us as [|x us IH]; intros cache; [split; [by intros u ?%elem_of_nil|done]|]. cbn [foldl].
  destruct (IH (DelConversations x [cid] cache)) as [Hu Hk]. split; [|auto with cache_keys].
  intros u [->|?]%elem_of_cons; auto with cache_keys.
Qed.

Lemma alters_CreateGroupChatConversation g us m :
  alters m (λ m', m' = with_group now g us (set_conversation_columns [ccol_max_seq 0]) m)
    (λ b m', if b then m' = m else m' = with_group now g us id m ∨ m' = with_group now g us (set_conversation_columns [ccol_max_seq 0]) m)
    (CreateGroupChatConversation now g us).
Proof.
  set (D m' := m' = with_group now g us id m ∨ m' = with_group now g us (set_conversation_columns [ccol_max_seq 0]) m).
  apply (alters_tx muted_too m _ D).
  fold (group_conversation g). set (cid := group_conversation g).
  eapply tx_beside_bind; [apply (conv_rows_FindUserID us cid)|by left|]. intros have m' (-> & _ & Hhave).
  set (new := DifferenceString us have).
  assert (∀ u, u ∈ new ↔ u ∈ us ∧ m !! (u, cid) = None) as Hnew.
  { intros u. unfold new. rewrite DifferenceString_elem, <-(difference_missing us have cid m Hhave). tauto. }
  destruct (with_group_parts g us have new m Hhave Hnew) as [Hmade Hchanged].
  eapply (tx_bind _ _ (λ _ m1 m2, m1 = m ∧ m2 = with_group now g us id m)).
  { destruct (Z.ltb_spec 0 (len ((λ v, new_conversation v cid SuperGroupChatType "" g) <$> new))) as [Hl|Hl].
    - apply tx_beside; [|by left]. eapply on_rows_mono; [apply (conv_rows_Create_upsert now new cid _ id); done|].
      intros _ m' [_ ->]. auto.
    - apply tx_ret. split; [done|]. rewrite <-Hmade. destruct new as [|u new']; [done|].
      unfold len in Hl. rewrite fmap_cons, length_cons in Hl. lia. }
  intros _ ? ? [-> ->].
  eapply tx_beside_bind; [apply (conv_rows_UpdateByMap_upsert have cid _ (λ _, ConversationModel_zero))|by right; left|].
  intros _ m' ->. rewrite list_filter_all, Hchanged.
  2: { intros u Hu. destruct (proj1 (Hhave u) Hu) as [Hin _]. unfold with_group. fold cid. rewrite lookup_upsert, decide_True by done. by eexists. }
  apply tx_ret. cbn zeta. rewrite merged_beside. split; [done|]. split; [|by right; right].
  destruct (in_fold_keys cid have (DelUserConversationIDsHash new (DelConversationIDs new
    (foldl (λ cache v, DelConversationNotReceiveMessageUserIDs [cid] (DelConversations v [cid] cache)) [] new)))) as [Hrow Hkept].
  apply stale_upsert.
  - intros u r Hu Hr. apply Hrow, Hhave. split; [done|by exists r].
  - intros u Hu Hr. split; apply Hkept; assert (u ∈ new) by (by apply Hnew); auto with cache_keys.
  - intros _. right. split; [|done]. intros u r _ _. by apply RecvMsgOpt_columns.
Qed.
End ConversationRules.
