(* ===== verification/ConversationRefinement.v ===== *)
(** * The handlers of the conversation service

    Each handler that changes conversations makes a step of [conversation_step]; one
    that fails leaves what [conversation_leftover] says. *)

From S2P Require Import Prelude.
From S2P Require Import Constants.
From S2P Require Import MsgTypes.
From S2P Require Import MsgProcessor.
From S2P Require Import Tools.
From S2P Require Import Notification.
From S2P Require Import RpcClient.
From S2P Require Import GroupTypes.
From S2P Require Import Sql.
From S2P Require Import RowCache.
From S2P Require Import RowCoherence.
From S2P Require Import GroupStore.
From S2P Require Import FriendTypes.
From S2P Require Import UserServer.
From S2P Require Import ConversationTypes.
From S2P Require Import ConversationDatabase.
From S2P Require Import ConversationServer.
From S2P Require Import ConversationSpec.
From S2P Require Import ConversationProofs.
From S2P Require Import ConversationChanges.
From stdpp Require Import options.
#[local] Set Default Proof Using "Type*".

#[local] Open Scope Z_scope.

(** * Reads of the conversation database

    What the queries answer, from the cache or from the table. *)

(** A digest has eight characters at least. *)
Class DigestLaws `{MsgTools} : Prop := digest_long s : is_Some (hex_value 0 8 (Md5 s)).

Section ConversationReads.
Context `{ConversationEngineLaws} `{!TagSucceeds CC} `{SpecialErrorLaws} `{MsgToolsLaws} {E : Type}.
Context (muted_too : bool).
Abbreviation W := (ConversationWorld E).
Implicit Types (t : CT) (w : W) (m : ConvMap).

Abbreviation convs_of w := (rows (cw_table w)).
Abbreviation entry := (conversation_entry muted_too).
Abbreviation convs_are := (convs_are muted_too).
Abbreviation agree := (ConversationsAgree muted_too).

(** While the rows are [m], a query leaves them, answers as [X] says, and fails by its
    stores alone. *)
Definition answers_with {A} m (X : A → Prop) (c : M W A) : Prop :=
  ∀ w, convs_are m w → wp c (λ r w', convs_are m w' ∧ match r with
    | Ok a => X a | Err e => external e | _ => False end) w.

Lemma answers_reads {A : Type} m (X : A → Prop) (c : M W A) : answers_with m X c → reads muted_too m X c.
Proof. intros Hc w Hw. eapply wp_mono; [|by apply Hc]. intros r w' [? HX]. split; [done|]. by intros a ->. Qed.
Lemma conv_answers_bind {A B : Type} m (X : A → Prop) (Y : B → Prop) (c : M W A) k :
  answers_with m X c → (∀ a, X a → answers_with m Y (k a)) → answers_with m Y (c ≫= k).
Proof.
  intros Hc Hk w Hw. apply wp_bind. eapply wp_mono; [|by apply Hc].
  intros [a|e| |] w' [Hw' HX]; [by apply Hk|done..].
Qed.
Lemma conv_answers_ret {A : Type} m (X : A → Prop) a : X a → answers_with m X (mret a).
Proof. intros HX w Hw. by apply wp_ret. Qed.

Lemma conversation_peeks_are m w w' : peeks (W:=W) entry w w' → convs_are m w → convs_are m w'.
Proof.
  intros Hp [Ha Hm]. pose proof (peeks_tables entry _ _ Hp) as Ht. cbn in Ht. split; [by apply Hp|by rewrite Ht].
Qed.

(** ** Statements *)

Lemma wp_conversation_find {A : Type} p (g : list ConversationModel → A) (X : A → Prop) w :
  (∀ l, sql_Find p (cw_table w) = inl l → X (g l)) →
  wp (on_conversations (cs ← wrap_error (stmt (query (sql_Find p))); mret (g cs)))
    (λ r w', w' = w ∧ match r with Ok a => X a | Err e => external e | _ => False end) w.
Proof.
  intros HX. apply wp_on_conversations, wp_bind, wp_wrap_error, wp_query.
  - intros l Hl. apply wp_ret. rewrite put_get_conversations. auto.
  - intros e He%Find_err. rewrite put_get_conversations. split; [done|]. by apply wrap_external.
Qed.

Lemma wp_FindUserIDAllConversationID o w : wp (on_conversations (FindUserIDAllConversationID o)) (λ r w', w' = w ∧ match r with
  | Ok l => is_list_of (seconds (convs_of w) o) l | Err e => external e | _ => False end) w.
Proof.
  apply wp_conversation_find. intros l Hl.
  replace (Cm_ConversationID <$> l) with ((λ r : ConversationModel, (table_key (T:=CT) r).2) <$> l).
  - eapply find_seconds; [|exact Hl]. intros r. unfold conv_owned. by rewrite conversations_table_key, bool_decide_eq_true.
  - apply list_fmap_ext. intros i r _. by rewrite conversations_table_key.
Qed.

Lemma wp_NotReceiveMessageUserIDs cid w :
  wp (on_conversations (ConversationGorm_GetConversationNotReceiveMessageUserIDs cid)) (λ r w', w' = w ∧ match r with
    | Ok l => is_muted_list (convs_of w) cid l | Err e => external e | _ => False end) w.
Proof.
  apply wp_conversation_find. intros l Hl.
  assert (∀ r, r ∈ l ↔ Cm_ConversationID r = cid ∧ Cm_RecvMsgOpt r ≠ ReceiveMessage ∧ convs_of w !! conversation_key r = Some r) as Hin.
  { intros r. rewrite (Find_elem _ _ _ r Hl), conversations_table_key. unfold conv_is.
    rewrite andb_true_iff, negb_true_iff, bool_decide_eq_true, Z.eqb_neq. tauto. }
  split.
  - apply NoDup_fmap_2_strong; [|eapply NoDup_fmap_1, (Find_NoDup _ _ _ Hl)].
    intros x y (Hx & _ & Hkx)%Hin (Hy & _ & Hky)%Hin Ho. unfold conversation_key in *. congruence.
  - intros u. rewrite list_elem_of_fmap. split.
    + intros (r & -> & (Hc & Ho & Hr)%Hin). exists r. unfold conversation_key in Hr. by rewrite Hc in Hr.
    + intros (r & Hr & Ho). pose proof (table_keyed (cw_table w) _ _ Hr) as Hk. exists r.
      injection Hk as Hou Hc. split; [done|]. apply Hin. unfold conversation_key. by rewrite Hou, Hc.
Qed.

Lemma wp_ConversationTake o cid w : wp (on_conversations (ConversationGorm_Take o cid)) (λ r w', w' = w ∧ match r with
  | Ok a => convs_of w !! (o, cid) = Some a
  | Err e => (group_IsNotFound e = true ∧ convs_of w !! (o, cid) = None) ∨ external e | _ => False end) w.
Proof.
  apply wp_on_conversations, wp_wrap_error. eapply wp_sql_Take with (k := (o, cid)).
  - intros r. rewrite conversations_table_key. apply has_conversation_key.
  - intros r Hr. by rewrite put_get_conversations.
  - intros Hn. rewrite put_get_conversations. split; [done|]. left. split; [by apply IsNotFound_gorm|done].
  - intros e He. rewrite put_get_conversations. split; [done|]. right. by apply wrap_external.
Qed.

(** ** Through the cache *)

Lemma conversation_entry_ne t k s : entry t k s → s ≠ "".
Proof. apply conversation_entry_nonempty. Qed.

Lemma answers_GetConversations o cids m : has_colon o = false →
  answers_with m (λ l, l = omap (λ cid, m !! (o, cid)) cids) (FindConversations o cids).
Proof.
  intros Hcolon w [Ha <-].
  eapply wp_mono; [|apply (wp_batch_cached (W:=W) entry conversation_entry_ne cids (getConversationKey o)
    (λ cid, on_conversations (ConversationGorm_Take o cid)) (λ t cid, rows t !! (o, cid)) w)]; [..|done].
  - intros r w' [Hp Hr]. split; [by eapply conversation_peeks_are|done].
  - intros t cid a s Hr Hm Hne. split; [done|..].
    + intros o' c' Hk Ho'. apply conversation_key_inj in Hk as [<- <-]; [|done..]. exists a. split; [by apply Unmarshal_Marshal|done].
    + intros o'. by intros [=].
    + intros o'. by intros [=].
    + intros c'. by intros _ [=].
  - intros t cid s He. by apply (conversation_entry_row _ _ _ _ He).
  - intros cid w'. apply wp_ConversationTake.
Qed.

Lemma wp_GetUserConversationIDs o w : agree w → wp (GetUserConversationIDs o) (λ r w', peeks (W:=W) entry w w' ∧ match r with
  | Ok l => is_list_of (seconds (convs_of w) o) l | Err e => external e | _ => False end) w.
Proof.
  intros Ha.
  eapply wp_mono; [|apply (wp_cached (W:=W) entry conversation_entry_ne (getConversationIDsKey o)
    (on_conversations (FindUserIDAllConversationID o)) (λ t, is_list_of (seconds (rows t) o)) (λ _, external) w)];
    [..|done|intros w'; apply wp_FindUserIDAllConversationID|done].
  - intros r w' [Hp Hr]. split; [exact Hp|]. by destruct r.
  - intros t a s Hr Hm Hne. split; [done|..].
    + intros o' c'. by intros [=].
    + intros o' <-%(inj getConversationIDsKey). exists a. split; [by apply Unmarshal_Marshal|done].
    + intros o'. by intros [=].
    + intros c'. by intros _ [=].
  - intros t s He. by apply (conversation_entry_ids _ _ _ _ He).
Qed.
Lemma answers_GetConversationIDs o m :
  answers_with m (is_list_of (seconds m o)) (conversationDatabase_GetConversationIDs o).
Proof.
  intros w [Ha <-]. eapply wp_mono; [|by apply wp_GetUserConversationIDs].
  intros r w' [Hp Hr]. split; [by eapply conversation_peeks_are|done].
Qed.
Lemma answers_GetConversationIDsHash `{!DigestLaws} o m :
  answers_with m (is_hash_of (seconds m o)) (conversationDatabase_GetUserConversationIDsHash o).
Proof.
  intros w [Ha <-].
  eapply wp_mono; [|apply (wp_cached_deep (W:=W) entry conversation_entry_ne (getUserConversationIDsHashKey o)
    _ (λ t, is_hash_of (seconds (rows t) o)) (λ _, external) w)]; [..|done| |done].
  - intros r w' [Hp Hr]. split; [by eapply conversation_peeks_are|done].
  - intros t a s Hr Hm Hne. split; [done|..].
    + intros o' c'. by intros [=].
    + intros o'. by intros [=].
    + intros o' <-%(inj getUserConversationIDsHashKey). exists a. split; [by apply Unmarshal_Marshal|done].
    + intros c'. by intros _ [=].
  - intros t s He. by apply (conversation_entry_hash _ _ _ _ He).
  - intros w' Ha'. apply wp_bind. eapply wp_mono; [|by apply wp_GetUserConversationIDs].
    intros [l|e| |] w1 [Hp Hl]; try done. destruct (digest_long (strings_Join (sort_Strings l) ";")) as [h Hh].
    unfold hash_ids. rewrite Hh. apply wp_ret. split; [done|]. by exists l.
Qed.

(** The users who do not want messages, where the lists are meant. *)
Lemma answers_NotReceive cid m : muted_too = true →
  answers_with m (is_muted_list m cid) (conversationDatabase_GetConversationNotReceiveMessageUserIDs cid).
Proof.
  intros Hmuted w [Ha <-].
  eapply wp_mono; [|apply (wp_cached (W:=W) entry conversation_entry_ne (getConversationNotReceiveMessageUserIDsKey cid)
    (on_conversations (ConversationGorm_GetConversationNotReceiveMessageUserIDs cid))
    (λ t, is_muted_list (rows t) cid) (λ _, external) w)]; [..|done|intros w'; apply wp_NotReceiveMessageUserIDs|done].
  - intros r w' [Hp Hr]. split; [by eapply conversation_peeks_are|done].
  - intros t a s Hr Hm Hne. split; [done|..].
    + intros o' c'. by intros [=].
    + intros o'. by intros [=].
    + intros o'. by intros [=].
    + intros c' _ <-%(inj getConversationNotReceiveMessageUserIDsKey). exists a. split; [by apply Unmarshal_Marshal|done].
  - intros t s He. by apply (conversation_entry_muted _ _ _ _ He).
Qed.

(** All the conversations of a user. *)
Lemma answers_GetUserAllConversation o m : has_colon o = false →
  answers_with m (λ l, ∀ c, c ∈ l ↔ Cm_OwnerUserID c = o ∧ m !! conversation_key c = Some c) (GetUserAllConversation o).
Proof.
  intros Ho w Hw.
  eapply conv_answers_bind; [apply answers_GetConversationIDs|intros ids Hids|exact Hw].
  intros w' Hw'. pose proof (table_keyed (cw_table w')) as Hk. destruct Hw' as [Ha' <-].
  eapply wp_mono; [|by apply answers_GetConversations]. intros [l|e| |] w1 [Hw1 HX]; try done. split; [done|].
  intros c. rewrite HX, list_elem_of_omap. split.
  - intros (cid & _ & Hc). pose proof (Hk _ _ Hc) as Hkey. by injection Hkey as <- <-.
  - intros [<- Hc]. exists (Cm_ConversationID c). split; [|done]. apply (is_list_of_elem _ _ _ Hids), elem_of_seconds. by exists c.
Qed.
End ConversationReads.

Section ConversationRefinement.
Context `{ConversationEngineLaws} `{!TagSucceeds CC} `{SpecialErrorLaws} `{ToolsLaws} `{MsgToolsLaws} `{CopyToolsLaws} `{Services ConversationEffect}.
Abbreviation W := (ConversationWorld (list ConversationEffect)).
Context (config : notification) (now : Z).
Context (StructToJsonString : ConversationTips → string) (Marshal_elem : string → string + error).
Context (answers : list ConversationEffect → ConversationEffect → option error).
Context (muted_too : bool).
Implicit Types (t : CT) (w : W) (m : ConvMap).

Abbreviation alters := (alters (E:=list ConversationEffect) muted_too).
Abbreviation reads := (reads (E:=list ConversationEffect) muted_too).
Abbreviation notifying f := (f config now StructToJsonString Marshal_elem answers) (only parsing).

(** The handler of a call. *)
Definition conversation_handle (call : conversation_call) : M W () :=
  match call with
  | Call_SetConversation req => notifying SetConversation req
  | Call_SetConversations us req => notifying SetConversations us (Some req)
  | Call_CreateSingleChat req => conversationServer_CreateSingleChatConversations now req
  | Call_CreateGroupChat g us => conversationServer_CreateGroupChatConversations now g us
  | Call_SetConversationMaxSeq req => SetConversationMaxSeq req
  end.

(** ** Notifications end, and touch neither table nor cache *)

#[export] Instance keeps_conversation_notify a b ct x : Keeps conversation_part (notifying conversation_notify a b ct x).
Proof.
  unfold conversation_notify, Notification, NotificationWithSesstionType, conversation_send.
  apply keeps_bind; [apply _|]. intros s. apply keeps_bind; [apply _|]. intros names. apply _.
Qed.
#[export] Instance ends_conversation_notify a b ct x : Ends (notifying conversation_notify a b ct x).
Proof.
  unfold conversation_notify, Notification, NotificationWithSesstionType, conversation_send, sender_names, on_conversation_env.
  apply _.
Qed.
(** ** Reads *)

Lemma reads_conversation_group g m : reads m (λ _, True) (conversation_group g).
Proof. apply conv_reads_still. unfold conversation_group. apply _. Qed.

Lemma reads_current us cid m : (∀ u, us = [u] → has_colon u = false) →
  reads m (λ _, ∀ u, us = [u] → is_Some (m !! (u, cid))) (current_conversation us cid).
Proof.
  intros Hcolon. unfold current_conversation. destruct us as [|u [|v us]]; [by apply conv_reads_ret| |by apply conv_reads_ret].
  eapply conv_reads_bind; [by apply answers_reads, answers_GetConversations, Hcolon|]. cbn. intros l ->.
  destruct (m !! (u, cid)) as [r|] eqn:Hr; cbn.
  - apply (conv_reads_bind _ _ (λ _, True)); [by apply conv_reads_guard|]. intros _ _. apply conv_reads_ret.
    intros ? [= <-]. by eexists.
  - apply (conv_reads_bind _ _ (λ _, False)); [by apply conv_reads_guard|]. by intros _ [].
Qed.

(** ** Handlers *)

Lemma alters_rows m (P : ConvMap → Prop) (F F' : bool → ConvMap → Prop) c m0 :
  alters m P F c → m = m0 → (∀ b m', F b m' → F' b m') → alters m0 P F' c.
Proof. intros Hc <- HF. by eapply alters_mono. Qed.

Lemma alters_set_private us req m :
  alters m (λ m', m' = privately now us req m) (nothing_left m)
    (notifying set_private us (asked_conversation req) req).
Proof.
  unfold set_private, privately. destruct (CR_IsPrivateChat req) as [private|]; [|by apply alters_still; [apply _..|]].
  destruct (CR_ConversationType req =? SuperGroupChatType); cbn [negb]; [by apply alters_still; [apply _..|]|].
  apply alters_then; [|apply _..].
  set (c := set_Cm_IsPrivateChat private (asked_conversation req)).
  change ((λ ownerUserID, set_Cm_IsPrivateChat private (set_Cm_owner ownerUserID (asked_conversation req))) <$> us)
    with ((λ u, set_Cm_owner u c) <$> us).
  rewrite <-(private_sides now c (CR_UserID req) us m) by done.
  apply alters_SyncPeerUserPrivateConversationTx. rewrite Forall_fmap. by apply Forall_forall.
Qed.

Lemma field_columns {A} `{EqDecision A} (v : option A) column old old' :
  (field v column old).1 = (field v column old').1.
Proof. by destruct v. Qed.
Lemma fields_columns req conv conv' : asked_columns req conv = asked_columns req conv'.
Proof.
  unfold asked_columns, fields_before, fields_after. cbn [fst].
  f_equal; [repeat apply f_equal2; apply field_columns|apply field_columns].
Qed.

Lemma alters_SetConversations us req m : (∀ u, us = [u] → has_colon u = false) →
  alters m (conversation_step now m (Call_SetConversations us req)) (conversation_leftover now m (Call_SetConversations us req))
    (notifying SetConversations us (Some req)).
Proof.
  intros Hcolon. unfold SetConversations.
  apply (alters_bind _ _ (λ _, True)); [constructor| |intros _ _].
  { destruct (_ =? GroupChatType); [|by apply conv_reads_ret].
    eapply conv_reads_bind; [apply reads_conversation_group|]. intros g _. by apply conv_reads_guard. }
  eapply alters_bind; [constructor|by apply reads_current|]. intros conv Hconv.
  destruct (fields_before req conv) as [cs n] eqn:Ebefore.
  apply (alters_seq _ _ (λ m', m' = privately now us req m)).
  { eapply alters_mono; [apply (alters_set_private us req m)|done|]. intros b m' [-> ->]. constructor. }
  intros m1 ->. destruct (fields_after req conv) as [cs' n'] eqn:Eafter.
  assert (cs ++ cs' = asked_columns req ConversationModel_zero) as Hcs.
  { rewrite (fields_columns req _ conv). unfold asked_columns. by rewrite Ebefore, Eafter. }
  rewrite Hcs. apply alters_then; [|destruct (0 <? n + n'); apply _..].
  eapply alters_mono; [by apply alters_SetUsersConversationFiledTx| |].
  - intros m' ->. by constructor.
  - intros b m' [-> ->]. constructor.
Qed.

Lemma alters_SetConversation req m :
  (muted_too = true → is_Some (m !! (Conv_OwnerUserID req, Conv_ConversationID req)) → Conv_RecvMsgOpt req = 0) →
  alters m (conversation_step now m (Call_SetConversation req)) (conversation_leftover now m (Call_SetConversation req))
    (notifying SetConversation req).
Proof.
  intros Hopt. unfold SetConversation.
  apply (alters_bind _ _ (λ c, c = conversation_of req)); [constructor| |].
  { apply conv_reads_lift. intros c Hc%Copy_pb_to_model_ok. done. }
  intros c ->. apply alters_then; [|apply _..].
  change (Conv_OwnerUserID req) with (Cm_OwnerUserID (conversation_of req)).
  eapply alters_mono; [by apply alters_SetUserConversations| |].
  - intros m' ->. constructor.
  - intros [] m'; [intros ->; constructor|intros [Hn ->]; by constructor].
Qed.

(** A creation whose failure is only logged. *)
Lemma alters_create c m F : alters m (maybe_made now c m) F (unminded (conversationDatabase_CreateConversation now [c])).
Proof.
  apply (alters_unminded _ _ _ (nothing_left m)).
  - eapply alters_mono; [apply alters_CreateConversation|by right|done].
  - intros b m' [-> ->]. split; [done|by left].
  - apply _.
Qed.
Lemma alters_CreateSingleChat req m :
  alters m (conversation_step now m (Call_CreateSingleChat req)) (conversation_leftover now m (Call_CreateSingleChat req))
    (conversationServer_CreateSingleChatConversations now req).
Proof.
  unfold conversationServer_CreateSingleChatConversations.
  destruct (Z.eqb_spec (CSC_ConversationType req) SingleChatType) as [Ht|Hs];
    [|destruct (Z.eqb_spec (CSC_ConversationType req) NotificationChatType) as [Ht|Hn]].
  - eapply alters_seq; [apply alters_create|]. intros m1 H1'. eapply alters_mono; [apply alters_create| |done].
    intros m2 H2'. rewrite Ht in H1', H2'. by eapply step_create_both.
  - eapply alters_mono; [apply alters_create| |done]. intros m1 H1'. rewrite Ht in H1'. by apply step_create_receiver.
  - apply alters_still; [apply _..|]. by apply step_create_none.
Qed.

(** The calls after which the lists of users who do not want messages are still right:
    all but one that sets the option of an existing row by [SetConversation]. *)
Definition keeps_lists m (call : conversation_call) : Prop :=
  match call with
  | Call_SetConversation req =>
      is_Some (m !! (Conv_OwnerUserID req, Conv_ConversationID req)) → Conv_RecvMsgOpt req = 0
  | _ => True
  end.
(** A user who asks for his own conversation has an id without a colon, as every
    registered user has. *)
Definition registered_owner (call : conversation_call) : Prop :=
  match call with Call_SetConversations [u] _ => has_colon u = false | _ => True end.

Lemma alters_conversation_handle call m : registered_owner call → (muted_too = true → keeps_lists m call) →
  alters m (conversation_step now m call) (conversation_leftover now m call) (conversation_handle call).
Proof.
  intros Ho Hk. destruct call as [req|us req|req|g us|req]; cbn in *.
  - apply alters_SetConversation. auto.
  - apply alters_SetConversations. by intros u ->.
  - apply alters_CreateSingleChat.
  - eapply alters_mono; [apply alters_CreateGroupChatConversation| |].
    + intros m' ->. constructor.
    + intros [] m'; [intros ->; constructor|intros [->| ->]; constructor].
  - eapply alters_mono; [apply alters_UpdateUsersConversationFiled| |].
    + intros m' ->. constructor.
    + intros b m' [-> ->]. constructor.
Qed.
End ConversationRefinement.
