(* ===== verification/ConversationTheorems.v ===== *)
(** * The properties of the conversation service

    What holds after any calls of the service: which rows stay, what the queries
    answer, who is pushed to, and what the message service lets pass when it asks
    this service. *)

From S2P Require Import Prelude.
From S2P Require Import Constants.
From S2P Require Import MsgTypes.
From S2P Require Import MsgProcessor.
From S2P Require Import Tools.
From S2P Require Import Notification.
From S2P Require Import RpcClient.
From S2P Require Import Auth.
From S2P Require Import MsgServer.
From S2P Require Import SendProofs.
From S2P Require Import GroupTypes.
From S2P Require Import FriendTypes.
From S2P Require Import Sql.
From S2P Require Import RowCache.
From S2P Require Import RowCoherence.
From S2P Require Import GroupStore.
From S2P Require Import UserServer.
From S2P Require Import ConversationTypes.
From S2P Require Import ConversationDatabase.
From S2P Require Import ConversationServer.
From S2P Require Import ConversationSpec.
From S2P Require Import ConversationProofs.
From S2P Require Import ConversationChanges.
From S2P Require Import ConversationRefinement.
From stdpp Require Import options.
#[local] Set Default Proof Using "Type*".

#[local] Open Scope Z_scope.

(** A call, at a time. *)
Record conversation_visit := mkConversationVisit { cv_now : Z; cv_call : conversation_call }.

(** The calls that insert rows outside of the transaction that they fail with. *)
Definition creates_outside (call : conversation_call) : Prop :=
  match call with Call_SetConversation _ | Call_CreateGroupChat _ _ => True | _ => False end.

Lemma leftover_dirty now m call m' : conversation_leftover now m call false m' → creates_outside call.
Proof. inversion 1; done. Qed.

Lemma step_set_conversations_inv now m us req m' : conversation_step now m (Call_SetConversations us req) m' →
  (∀ u, us = [u] → is_Some (m !! (u, CR_ConversationID req))) ∧ m' = with_fields now us req (privately now us req m).
Proof. by inversion 1. Qed.

Lemma rows_kept_mono (about asked about' asked' : string * string → Prop) m m' :
  (∀ k, about k → about' k) → (∀ k, asked k → asked' k) → rows_kept about asked m m' → rows_kept about' asked' m m'.
Proof.
  intros Ha Hk Hr k. destruct (Hr k) as [Hn Hs]. split; [auto|]. intros r (r' & ? & ? & Ho)%Hs.
  exists r'. split; [done|]. split; [done|]. auto.
Qed.

Lemma keys_without `{MapRange} (us ms : list string) (u : string) :
  u ∈ Keys (foldl (λ (s : gmap string ()) userID, delete userID s) (foldl (λ (s : gmap string ()) userID, <[userID := ()]> s) ∅ us) ms) ↔
  u ∈ us ∧ u ∉ ms.
Proof.
  unfold Keys. rewrite range_perm.
  assert (∀ s : gmap string (), u ∈ (map_to_list s).*1 ↔ is_Some (s !! u)) as Hk.
  { intros s. rewrite list_elem_of_fmap. split; [intros ([u' []] & -> & Hu%elem_of_map_to_list); by eexists|].
    intros [[] Hu]. exists (u, ()). split; [done|]. by apply elem_of_map_to_list. }
  rewrite Hk. clear Hk.
  assert (∀ s : gmap string (), is_Some (foldl (λ (s : gmap string ()) userID, delete userID s) s ms !! u) ↔ is_Some (s !! u) ∧ u ∉ ms) as Hdel.
  { induction ms as [|x ms IH]; intros s; cbn [foldl]; [rewrite elem_of_nil; tauto|]. rewrite IH, lookup_delete_is_Some, elem_of_cons.
    split; [intros [[? ?] ?]; split; [done|]; intros [->|?]; done|]. intros [? Hn]. split; [split; [|done]|]; intros ?; apply Hn; auto. }
  rewrite Hdel. assert (∀ s : gmap string (), is_Some (foldl (λ (s : gmap string ()) userID, <[userID := ()]> s) s us !! u) ↔ is_Some (s !! u) ∨ u ∈ us) as Hins.
  { induction us as [|x us IH]; intros s; cbn [foldl]; [rewrite elem_of_nil; tauto|]. rewrite IH, lookup_insert_is_Some, elem_of_cons.
    destruct (decide (x = u)) as [->|Hne]; [tauto|]. split; [naive_solver|]. intros [?|[->|?]]; auto. }
  rewrite Hins, lookup_empty. split; [|tauto]. by intros [[[? ?]|?] ?].
Qed.

(** ** What any call keeps, whatever the stores answer *)

Section Footprints.
Context `{ConversationEngineLaws} `{SpecialErrorLaws} `{ToolsLaws} `{MsgToolsLaws} `{CopyToolsLaws} `{Services ConversationEffect}.
Abbreviation W := (ConversationWorld (list ConversationEffect)).
Context (about asked : string * string → Prop).
Implicit Types (w : W) (m : ConvMap).

Definition kept_table : relation CT := λ t t', rows_kept about asked (rows t) (rows t').
Definition kept_world : relation W := λ w w', kept_table (cw_table w) (cw_table w').
(** Inside a transaction: its tables, and the world's. *)
Definition kept_both : relation (CT * W) := λ p p', kept_table p.1 p'.1 ∧ kept_world p.2 p'.2.

#[export] Instance kept_table_preorder : PreOrder kept_table.
Proof. split; [intros t; apply rows_kept_refl|intros t1 t2 t3; apply rows_kept_trans]. Qed.
#[export] Instance kept_world_preorder : PreOrder kept_world.
Proof. split; [intros w; apply rows_kept_refl|intros w1 w2 w3; apply rows_kept_trans]. Qed.
#[export] Instance kept_both_preorder : PreOrder kept_both.
Proof. split; [by split|]. intros p1 p2 p3 [Ht Hw] [Ht' Hw']. split; by etrans. Qed.

#[export] Instance kept_of_keeps {A} (c : M W A) : Keeps cw_table c → Moves kept_world c | 10.
Proof. intros Hc w. unfold kept_world. rewrite (keeps (f:=cw_table) w). apply rows_kept_refl. Qed.

(** With what is known of the answer. *)
Definition foot {S A} (R : relation S) (X : A → Prop) (c : M S A) : Prop :=
  ∀ s, wp c (λ r s', R s s' ∧ ∀ a, r = Ok a → X a) s.
Lemma foot_bind {S A B} (R : relation S) `{!PreOrder R} (X : A → Prop) (c : M S A) (k : A → M S B) :
  foot R X c → (∀ a, X a → Moves R (k a)) → Moves R (c ≫= k).
Proof.
  intros Hc Hk. apply moves_wp. intros s. apply wp_bind. eapply wp_mono; [|apply Hc].
  intros [a|e| |] s' [HR HX]; try done. apply wp_eq. etrans; [exact HR|]. by apply Hk, HX.
Qed.
Lemma foot_moves {S A} (R : relation S) (X : A → Prop) (c : M S A) : foot R X c → Moves R c.
Proof. intros Hc. apply moves_wp. intros s. eapply wp_mono; [|apply Hc]. by intros r s' [? _]. Qed.

Lemma foot_rows {A} (X : A → Prop) (c : M CT A) :
  (∀ m, on_rows m c (λ a m', rows_kept about asked m m' ∧ X a) (λ _, True)) → foot kept_table X c.
Proof.
  intros Hc t. eapply wp_mono; [|by apply (Hc (rows t))]. unfold kept_table.
  intros [a|e| |] t'; cbn; try done; [intros [? ?]; split; [done|]; by intros ? [= <-]|].
  intros [_ ->]. split; [apply rows_kept_refl|done].
Qed.
Lemma foot_in {A} (X : A → Prop) (c : M CT A) : foot kept_table X c → foot kept_both X (in_conversation_tx c).
Proof.
  intros Hc [t w]. apply wp_on_fst. eapply wp_mono; [|apply Hc]. intros r t' [Ht HX]. split; [|done].
  split; [exact Ht|apply rows_kept_refl].
Qed.
Lemma foot_beside {A} (X : A → Prop) (c : M CT A) : foot kept_table X c → foot kept_both X (beside_conversation_tx c).
Proof.
  intros Hc [t w]. apply wp_on_snd, wp_zoom. eapply wp_mono; [|apply Hc]. intros r t' [Ht HX]. split; [|done].
  split; [apply rows_kept_refl|exact Ht].
Qed.
Lemma moves_on_conversations {A} (X : A → Prop) (c : M CT A) : foot kept_table X c → Moves kept_world (on_conversations c).
Proof.
  intros Hc. apply moves_wp. intros w. apply wp_zoom. eapply wp_mono; [|apply Hc]. intros r t' [Ht _]. exact Ht.
Qed.
Lemma moves_transaction {A} (body : M (CT * W) A) : Moves kept_both body → Moves kept_world (ConversationTransaction body).
Proof.
  intros Hb. apply moves_wp. intros w. apply wp_merging_transaction; [intros; apply rows_kept_refl|].
  apply wp_eq. specialize (Hb (cw_table w, w)). destruct (body _) as [r [t' w']]. destruct Hb as [Ht Hw]. cbn [fst snd] in *.
  destruct r; try done. split; [done|]. unfold kept_world, kept_table. cbn. rewrite Merge_rows. by apply rows_kept_merged.
Qed.
Lemma moves_del ks : Moves kept_world (conversation_ExecDel ks).
Proof. apply kept_of_keeps. by apply off_cache_ExecDel. Qed.

(** *** The statements *)

Lemma foot_FindUserID us cid : foot kept_table (λ l, ∀ u, u ∈ l → u ∈ us) (FindUserID us [cid]).
Proof.
  apply foot_rows. intros m. eapply on_rows_mono; [apply conv_rows_FindUserID|].
  intros l ? (-> & _ & Hl). split; [apply rows_kept_refl|]. intros u Hu. by apply Hl.
Qed.
Lemma foot_Find o cids : foot kept_table (λ _, True) (ConversationGorm_Find o cids).
Proof. intros t. apply wp_read_only; [apply _|]. intros r. split; [apply rows_kept_refl|done]. Qed.
Lemma foot_UpdateByMap us cid cs : (∀ u, u ∈ us → about (u, cid)) →
  (has_column "recv_msg_opt" cs = true → ∀ u, u ∈ us → asked (u, cid)) →
  foot kept_table (λ _, True) (ConversationGorm_UpdateByMap us cid cs).
Proof.
  intros Ha Hk. apply foot_rows. intros m. apply on_rows_keyed. intros Hkey.
  eapply on_rows_mono; [apply conv_rows_UpdateByMap|]. intros n ? ->. split; [by apply rows_kept_columns|done].
Qed.
Lemma foot_Update c : about (conversation_key c) → (Cm_RecvMsgOpt c ≠ 0 → asked (conversation_key c)) →
  foot kept_table (λ _, True) (ConversationGorm_Update c).
Proof.
  intros Ha Hk. apply foot_rows. intros m. eapply on_rows_mono; [apply conv_rows_Update|]. intros n ? ->. split; [|done].
  apply rows_kept_alter; [done|]. intros r. split; [done|]. intros Hn. cbn. unfold nonzero_int.
  destruct (Z.eqb_spec (Cm_RecvMsgOpt c) 0); [done|]. destruct Hn. auto.
Qed.
Lemma foot_Create now l : (∀ c, c ∈ l → about (conversation_key c)) →
  foot kept_table (λ _, True) (ConversationGorm_Create now l).
Proof.
  intros Ha. apply foot_rows. intros m. eapply on_rows_mono; [apply conv_rows_Create|]. intros n m' [Hin Hout]. split; [|done].
  apply (rows_kept_inserted _ _ (conversation_key <$> l)); [|done]. intros k (c & -> & Hc)%list_elem_of_fmap. split; [auto|by apply Hin].
Qed.
End Footprints.

Section AnyCall.
Context `{ConversationEngineLaws} `{SpecialErrorLaws} `{ToolsLaws} `{MsgToolsLaws} `{CopyToolsLaws} `{Services ConversationEffect}.
Abbreviation W := (ConversationWorld (list ConversationEffect)).
Context (config : notification) (now : Z).
Context (StructToJsonString : ConversationTips → string) (Marshal_elem : string → string + error).
Context (answers : list ConversationEffect → ConversationEffect → option error).

(** *** What does not touch the table *)

#[local] Instance table_env {A} (c : M (list ConversationEffect) A) : Keeps cw_table (on_conversation_env c).
Proof. intros w. unfold on_conversation_env, zoom. by destruct (c _). Qed.
#[local] Instance table_unminded {A} (c : M W A) : Keeps cw_table c → Keeps cw_table (unminded c).
Proof. intros Hc. unfold unminded. apply _. Qed.
#[local] Instance table_notify a b ct x :
  Keeps cw_table (conversation_notify config now StructToJsonString Marshal_elem answers a b ct x).
Proof.
  unfold conversation_notify, Notification, NotificationWithSesstionType, conversation_send.
  apply keeps_bind; [apply _|]. intros s. apply keeps_bind; [apply _|]. intros names. apply _.
Qed.
#[local] Instance table_current us cid : Keeps cw_table (current_conversation us cid).
Proof.
  unfold current_conversation. destruct us as [|u [|v us]]; apply _.
Qed.

(** *** The operations *)

Context (about asked : string * string → Prop).
Abbreviation moves_rows c := (Moves (kept_world about asked) c).

Lemma moves_CreateConversation c : about (conversation_key c) → moves_rows (conversationDatabase_CreateConversation now [c]).
Proof.
  intros Ha. apply moves_bind; [apply _| |intros _; apply moves_del].
  eapply moves_on_conversations, foot_Create. by intros c' ->%list_elem_of_singleton.
Qed.

Lemma moves_sync_private c ks v : about (v.1, Cm_ConversationID c) → Moves (kept_both about asked) (sync_private now c ks v).
Proof.
  intros Ha. destruct v as [o u]. cbn in Ha. unfold sync_private. apply moves_bind; [apply _|eapply foot_moves, foot_in, foot_FindUserID|].
  intros l. destruct (0 <? len l); (apply moves_bind; [apply _| |intros; apply _]); eapply foot_moves, foot_in.
  - apply foot_UpdateByMap; [by intros ? ->%list_elem_of_singleton|by intros [=]].
  - apply foot_Create. intros c' ->%list_elem_of_singleton. by destruct c.
Qed.

Lemma moves_SyncPeer l : (∀ c, c ∈ l → about (Cm_OwnerUserID c, Cm_ConversationID c) ∧ about (Cm_UserID c, Cm_ConversationID c)) →
  moves_rows (SyncPeerUserPrivateConversationTx now l).
Proof.
  intros Ha. apply moves_bind; [apply _| |intros ks; apply moves_del]. apply moves_transaction.
  generalize ([] : list string). induction l as [|c l IH]; intros ks; cbn [fold_each]; [apply _|].
  apply moves_bind; [apply _| |intros ks'; apply IH; intros c' Hc'; apply Ha; by right].
  destruct (Ha c) as [Ho Hu]; [by left|]. cbn [fold_each].
  apply moves_bind; [apply _|by apply moves_sync_private|]. intros ks1. apply moves_bind; [apply _|by apply moves_sync_private|].
  intros ks2. apply _.
Qed.

Lemma foot_conversations_for c us :
  foot (kept_both about asked) (λ l, ∀ c', c' ∈ l → ∃ u, u ∈ us ∧ conversation_key c' = (u, Cm_ConversationID c))
    (conversations_for (E:=list ConversationEffect) now c us).
Proof.
  intros p. apply wp_fold_each with (I := λ done l p', p' = p ∧
    ∀ c', c' ∈ l → ∃ u, u ∈ done ∧ conversation_key c' = (u, Cm_ConversationID c)).
  - split; [done|]. by intros c' ?%elem_of_nil.
  - intros ls u rest l p' _ [-> Hl]. apply wp_bind, wp_lift; [|split; [reflexivity|done]]. intros c1 Hc1%Copy_model_ok. subst c1.
    apply wp_ret. split; [done|]. intros c' [Hc'|Hc'%list_elem_of_singleton]%elem_of_app.
    + destruct (Hl c' Hc') as (u' & ? & ?). exists u'. split; [apply elem_of_app; by left|done].
    + subst c'. exists u. split; [apply elem_of_app; right; by left|]. by destruct c.
  - intros l p' [-> Hl]. split; [done|]. intros a [= <-]. exact Hl.
Qed.

Lemma moves_SetUsersConversationFiledTx us c cs : (∀ u, u ∈ us → about (u, Cm_ConversationID c)) →
  (has_column "recv_msg_opt" cs = true → ∀ u, u ∈ us → asked (u, Cm_ConversationID c)) →
  moves_rows (SetUsersConversationFiledTx now us c cs).
Proof.
  intros Ha Hk. unfold SetUsersConversationFiledTx. cbn zeta. apply moves_bind; [apply _| |intros ks; apply moves_del].
  apply moves_transaction. eapply foot_bind; [apply _|apply foot_in, foot_FindUserID|]. cbn beta. intros have Hhave.
  apply moves_bind; [apply _| |intros ks].
  { destruct (0 <? len have); [|apply _]. apply moves_bind; [apply _| |intros; apply _].
    eapply foot_moves, foot_in, foot_UpdateByMap; auto. }
  eapply foot_bind; [apply _|apply foot_conversations_for|]. cbn beta. intros l Hl. destruct (0 <? len l); [|apply _].
  apply moves_bind; [apply _| |intros; apply _]. eapply foot_moves, foot_in, foot_Create. intros c' Hc'.
  destruct (Hl c' Hc') as (u & Hu & ->). apply Ha. apply DifferenceString_elem in Hu as [[? _]|[? _]]; auto.
Qed.

Lemma moves_SetUserConversations o c : about (conversation_key c) → (Cm_RecvMsgOpt c ≠ 0 → asked (conversation_key c)) →
  moves_rows (SetUserConversations now o [c]).
Proof.
  intros Ha Hk. unfold SetUserConversations. cbn zeta. apply moves_bind; [apply _| |intros ks; apply moves_del].
  apply moves_transaction. apply moves_bind; [apply _|eapply foot_moves, foot_in, foot_Find|]. intros found.
  apply moves_bind; [apply _| |intros _].
  { destruct (0 <? len found); [|apply _]. apply moves_bind; [apply _| |intros; apply _].
    eapply foot_moves, foot_in, foot_Update; auto. }
  match goal with |- Moves _ (if _ <? len ?l then _ else _) => assert (∀ c', c' ∈ l → c' = c) as Hl end.
  { intros c' [_ Hc']%list_elem_of_filter. by apply list_elem_of_singleton. }
  case_match; [|apply _]. apply moves_bind; [apply _| |intros; apply _]. eapply foot_moves, foot_beside, foot_Create.
  intros c' ->%Hl. done.
Qed.

Lemma moves_CreateGroupChat g us : (∀ u, u ∈ us → about (u, group_conversation g)) →
  moves_rows (CreateGroupChatConversation now g us).
Proof.
  intros Ha. unfold CreateGroupChatConversation. cbn zeta. apply moves_bind; [apply _| |intros ks; apply moves_del].
  apply moves_transaction. eapply foot_bind; [apply _|apply foot_beside, foot_FindUserID|]. cbn beta. intros have Hhave.
  apply moves_bind; [apply _| |intros _].
  - case_match; [|apply _]. eapply foot_moves, foot_beside, foot_Create. intros c (u & -> & Hu)%list_elem_of_fmap.
    apply Ha. apply DifferenceString_elem in Hu as [[? _]|[? _]]; auto.
  - apply moves_bind; [apply _| |intros; apply _]. eapply foot_moves, foot_beside, foot_UpdateByMap; [auto|]. by intros [=].
Qed.

Lemma moves_UpdateUsersConversationFiled us cid cs : (∀ u, u ∈ us → about (u, cid)) →
  (has_column "recv_msg_opt" cs = true → ∀ u, u ∈ us → asked (u, cid)) →
  moves_rows (UpdateUsersConversationFiled us cid cs).
Proof.
  intros Ha Hk. apply moves_bind; [apply _| |intros _; apply moves_del].
  by eapply moves_on_conversations, foot_UpdateByMap.
Qed.
End AnyCall.

(** *** The calls *)

Section Calls.
Context `{ConversationEngineLaws} `{SpecialErrorLaws} `{ToolsLaws} `{MsgToolsLaws} `{CopyToolsLaws} `{Services ConversationEffect}.
Abbreviation W := (ConversationWorld (list ConversationEffect)).
Context (config : notification).
Context (StructToJsonString : ConversationTips → string) (Marshal_elem : string → string + error).
Context (answers : list ConversationEffect → ConversationEffect → option error).

Abbreviation convs_of w := (rows (cw_table w)).
Definition conversation_do (v : conversation_visit) : M W () :=
  conversation_handle config (cv_now v) StructToJsonString Marshal_elem answers (cv_call v).

(** A sequence of calls, each made whatever became of the others. *)
Definition serve_conversations (vs : list conversation_visit) (w : W) : W := foldl (λ w v, (conversation_do v w).2) w vs.

#[local] Hint Resolve table_unminded table_notify table_env table_current : typeclass_instances.

Lemma asked_opt req conv : has_column "recv_msg_opt" (asked_columns req conv) = true → is_Some (CR_RecvMsgOpt req).
Proof. rewrite (fields_columns req conv ConversationModel_zero). apply asked_columns_opt. Qed.

(** Every call, whoever makes it, whatever the cache holds, and however it ends. *)
Lemma conversation_do_keeps v : Moves (kept_world (concerns (cv_call v)) (asks_option (cv_call v))) (conversation_do v).
Proof.
  destruct v as [now [req|us req|req|g us|req]]; unfold conversation_do; cbn [cv_call cv_now conversation_handle].
  - eapply foot_bind with (X := λ c, c = conversation_of req); [apply _|..].
    { intros w. apply wp_lift; intros x Hx; (split; [reflexivity|]); intros ? [= <-]. by apply Copy_pb_to_model_ok in Hx. }
    intros c ->. apply moves_bind; [apply _| |intros; apply kept_of_keeps; apply _].
    apply moves_SetUserConversations; [done|]. cbn. auto.
  - apply moves_bind; [apply _| |intros _].
    { destruct (_ =? _); [|apply _]. apply kept_of_keeps. unfold conversation_group. apply _. }
    apply moves_bind; [apply _|apply kept_of_keeps; apply _|intros conv].
    destruct (fields_before req conv) as [cs n] eqn:Eb. apply moves_bind; [apply _| |intros _].
    + unfold set_private. destruct (CR_IsPrivateChat req) as [private|] eqn:Hp; [|apply _]. destruct (negb _); [|apply _].
      apply moves_bind; [apply _| |intros _; apply kept_of_keeps; apply _].
      apply moves_SyncPeer. intros c (u & -> & Hu)%list_elem_of_fmap. cbn. split; (split; [done|]); [by left|right].
      rewrite Hp. split; [done|by eexists].
    + destruct (fields_after req conv) as [cs' n'] eqn:Ea. apply moves_bind; [apply _| |intros _; apply kept_of_keeps; case_match; apply _].
      apply moves_SetUsersConversationFiledTx; cbn; [auto|]. intros Hc u Hu. split; [done|]. split; [done|].
      apply (asked_opt req conv). unfold asked_columns. by rewrite Eb, Ea.
  - unfold conversationServer_CreateSingleChatConversations. cbn zeta.
    assert (∀ owner user, owner = CSC_SendID req ∨ owner = CSC_RecvID req →
      Moves (kept_world (concerns (Call_CreateSingleChat req)) (asks_option (Call_CreateSingleChat req)))
        (unminded (conversationDatabase_CreateConversation (E:=list ConversationEffect) now
          [new_conversation owner (CSC_ConversationID req) (CSC_ConversationType req) user ""]))) as Hone.
    { intros owner user Ho. unfold unminded. apply moves_bind; [apply _| |intros; apply _].
      apply moves_try, moves_CreateConversation. by split. }
    destruct (_ =? _); [apply moves_bind; [apply _|auto..]|]. destruct (_ =? _); [auto|apply _].
  - apply moves_CreateGroupChat. intros u Hu. by split.
  - apply moves_UpdateUsersConversationFiled; [intros u Hu; by split|]. by intros [=].
Qed.

Lemma serve_conversations_rows vs w :
  rows_kept (λ k, ∃ v, v ∈ vs ∧ concerns (cv_call v) k) (λ k, ∃ v, v ∈ vs ∧ asks_option (cv_call v) k)
    (convs_of w) (convs_of (serve_conversations vs w)).
Proof.
  revert w. induction vs as [|v vs IH]; intros w; [apply rows_kept_refl|].
  eapply rows_kept_trans; eapply rows_kept_mono; [..|apply (conversation_do_keeps v w)| | |apply IH].
  - intros k Hc. exists v. split; [by left|done].
  - intros k Hc. exists v. split; [by left|done].
  - intros k (v' & ? & Hc). exists v'. split; [by right|done].
  - intros k (v' & ? & Hc). exists v'. split; [by right|done].
Qed.

(** C10: no sequence of calls, by whomever, in whatever state of the cache and however each call ends, removes a
    conversation or moves it to another user; a conversation that none of the calls names stays as it is, or
    missing, and the option to receive its messages is changed only by a call that asks for an option. *)
Theorem conversations_stay vs w :
  let m := convs_of w in let m' := convs_of (serve_conversations vs w) in
  ∀ k, ((∀ v, v ∈ vs → ¬ concerns (cv_call v) k) → m' !! k = m !! k) ∧
    ∀ row, m !! k = Some row → ∃ row', m' !! k = Some row' ∧ conversation_key row' = k ∧
      ((∀ v, v ∈ vs → ¬ asks_option (cv_call v) k) → Cm_RecvMsgOpt row' = Cm_RecvMsgOpt row).
Proof.
  intros m m' k. destruct (serve_conversations_rows vs w k) as [Hn Hs]. split.
  - intros Hc. apply Hn. intros (v & Hv & Hk). by eapply Hc.
  - intros row Hrow. destruct (Hs row Hrow) as (row' & ? & Hkey & Ho). exists row'. split; [done|]. split.
    + rewrite Hkey. by apply table_keyed in Hrow.
    + intros Hnone. apply Ho. intros (v & Hv & Hk). by eapply Hnone.
Qed.
End Calls.

Section ConversationTheorems.
Context `{ConversationEngineLaws} `{!TagSucceeds CC} `{SpecialErrorLaws} `{ToolsLaws} `{MsgToolsLaws} `{CopyToolsLaws} `{Services ConversationEffect}.
Abbreviation W := (ConversationWorld (list ConversationEffect)).
Context (config : notification).
Context (StructToJsonString : ConversationTips → string) (Marshal_elem : string → string + error).
Context (answers : list ConversationEffect → ConversationEffect → option error).
Implicit Types (w : W) (m : ConvMap).

Abbreviation convs_of w := (rows (cw_table w)).
Abbreviation conversation_do := (conversation_do config StructToJsonString Marshal_elem answers).
Abbreviation serve_conversations := (serve_conversations config StructToJsonString Marshal_elem answers).

(** The calls that insert rows outside of their transaction succeed; where the lists of
    users who do not want messages are meant, every call keeps them. *)
Fixpoint orderly (muted_too : bool) (vs : list conversation_visit) w : Prop :=
  match vs with
  | [] => True
  | v :: vs =>
      registered_owner (cv_call v) ∧ ((conversation_do v w).1 = Ok () ∨ ¬ creates_outside (cv_call v)) ∧
      (muted_too = true → keeps_lists (convs_of w) (cv_call v)) ∧ orderly muted_too vs (conversation_do v w).2
  end.

(** ** One call *)

Lemma conversation_done muted_too v w : ConversationsAgree muted_too w → registered_owner (cv_call v) →
  (muted_too = true → keeps_lists (convs_of w) (cv_call v)) →
  let '(r, w') := conversation_do v w in
  (r = Ok () ∧ ConversationsAgree muted_too w' ∧ conversation_step (cv_now v) (convs_of w) (cv_call v) (convs_of w')) ∨
  (r ≠ Ok () ∧ ∃ b, conversation_leftover (cv_now v) (convs_of w) (cv_call v) b (convs_of w') ∧ (b = true → ConversationsAgree muted_too w')).
Proof.
  intros Ha Ho Hk. pose proof (alters_conversation_handle config (cv_now v) StructToJsonString Marshal_elem answers muted_too
    (cv_call v) (convs_of w) Ho Hk w) as Hw. rewrite wp_eq in Hw. unfold conversation_do.
  destruct (conversation_handle _ _ _ _ _ _ w) as [r w']. by apply Hw.
Qed.

(** C6: where the cached rows, ids and hashes agree with the table (and, if [muted_too], the cached lists of
    users who have muted a conversation), a key is deleted from the cache within five attempts, and a single owner
    that SetConversations names has no colon in his id: a call of the conversation service that succeeds changes the
    rows as the specification says and leaves a cache that agrees with them; one that fails leaves nothing done but
    what the specification lists, with a cache that agrees unless rows were inserted outside of the transaction.
    The lists of [muted_too] are claimed only of calls other than a SetConversation that names an option for a row
    that is there ([keeps_lists]), which leaves them stale ([set_conversation_leaves_list_stale]). *)
Theorem conversation_service_refines muted_too v w : ConversationsAgree muted_too w → registered_owner (cv_call v) →
  (muted_too = true → keeps_lists (convs_of w) (cv_call v)) →
  let '(r, w') := conversation_do v w in
  match r with
  | Ok _ => conversation_step (cv_now v) (convs_of w) (cv_call v) (convs_of w') ∧ ConversationsAgree muted_too w'
  | _ => ∃ clean, conversation_leftover (cv_now v) (convs_of w) (cv_call v) clean (convs_of w') ∧
      (¬ creates_outside (cv_call v) ∨ clean = true → ConversationsAgree muted_too w')
  end.
Proof.
  intros Ha Ho Hk. pose proof (conversation_done muted_too v w Ha Ho Hk) as Hd. destruct (conversation_do v w) as [r w'].
  destruct Hd as [(-> & ? & ?)|(Hr & b & Hl & Hb)]; [done|].
  destruct r as [[]|e| |]; [done|..]; exists b; (split; [done|]); intros [Hn|?]; try auto;
    (destruct b; [auto|]; destruct Hn; by eapply leftover_dirty).
Qed.

(** ** Sequences of calls *)

Lemma serve_conversations_agree muted_too vs w : ConversationsAgree muted_too w → orderly muted_too vs w →
  ConversationsAgree muted_too (serve_conversations vs w).
Proof.
  revert w. induction vs as [|v vs IH]; intros w Ha Hok; [done|].
  destruct Hok as (Ho & Hend & Hk & Hok). apply IH; [|done]. pose proof (conversation_done muted_too v w Ha Ho Hk) as Hd.
  destruct (conversation_do v w) as [r w']. cbn in *. destruct Hd as [(-> & ? & Hs)|(Hr & b & Hl & Hb)]; [done|].
  destruct Hend as [?|Hn]; [done|]. destruct b; [auto|]. destruct Hn. by eapply leftover_dirty.
Qed.

(** ** Queries *)

(** The conversations that can be converted, as the protocol has them. *)
Definition converted (l : list ConversationModel) : list Conversation :=
  omap (λ c, match Copy_model_to_pb Conversation_zero c with inl _ => Some (pb_of c) | inr _ => None end) l.

Lemma ConversationsDB2Pb_converted l : ConversationsDB2Pb l = converted l.
Proof.
  unfold ConversationsDB2Pb. set (step := λ acc c, _ : list Conversation).
  assert (∀ acc, foldl step acc l = acc ++ converted l) as Hacc; [|by rewrite Hacc].
  induction l as [|c l IH]; intros acc; cbn; [by rewrite app_nil_r|]. rewrite IH. unfold step.
  destruct (Copy_model_to_pb Conversation_zero c) as [p|e] eqn:E; [|done].
  apply Copy_model_to_pb_ok in E as ->. by rewrite <-app_assoc.
Qed.

(** An answer of a query. *)
Lemma answered {A : Type} b m (X : A → Prop) (c : M W A) w a : answers_with b m X c → convs_are b m w →
  (c w).1 = Ok a → X a.
Proof. intros Hc Hw Ha. specialize (Hc w Hw). rewrite wp_eq, Ha in Hc. apply Hc. Qed.

(** after any orderly calls the queries of the service, which read through the cache, answer what the table
    holds: the conversations asked for in their order, all conversations of a user, the
    ids of his conversations, each once, and a hash of just these ids. *)
Theorem conversation_queries_agree `{!DigestLaws} vs w o cids : ConversationsAgree false w → orderly false vs w → has_colon o = false →
  let w' := serve_conversations vs w in let m := convs_of w' in
  (∀ l, (conversationServer_GetConversations o cids w').1 = Ok l → l = converted (omap (λ cid, m !! (o, cid)) cids)) ∧
  (∀ l, (GetUserAllConversation o w').1 = Ok l → ∀ c, c ∈ l ↔ Cm_OwnerUserID c = o ∧ m !! conversation_key c = Some c) ∧
  (∀ l, (conversationServer_GetConversationIDs o w').1 = Ok l → NoDup l ∧ ∀ cid, cid ∈ l ↔ is_Some (m !! (o, cid))) ∧
  (∀ h, (conversationServer_GetUserConversationIDsHash o w').1 = Ok h →
    ∃ l, NoDup l ∧ (∀ cid, cid ∈ l ↔ is_Some (m !! (o, cid))) ∧ hash_ids l = Some h).
Proof.
  intros Ha Hok Ho w' m. pose proof (serve_conversations_agree false vs w Ha Hok) as Ha'.
  assert (convs_are false m w') as Hw by done.
  assert (∀ l cid, is_list_of (seconds m o) l → cid ∈ l ↔ is_Some (m !! (o, cid))) as Hids.
  { intros l cid Hl. by rewrite (is_list_of_elem _ _ _ Hl), elem_of_seconds. }
  split_and!.
  - intros l Hl. refine (answered false m (λ l, l = _) _ w' l _ Hw Hl).
    eapply conv_answers_bind; [by apply answers_GetConversations|]. intros l' ->. apply conv_answers_ret. apply ConversationsDB2Pb_converted.
  - intros l Hl. eapply (answered false m _ _ w' l (answers_GetUserAllConversation false o m Ho) Hw Hl).
  - intros l Hl. pose proof (answered false m _ _ w' l (answers_GetConversationIDs false o m) Hw Hl) as Hx.
    split; [apply Hx|]. intros cid. by apply Hids.
  - intros h Hh. destruct (answered false m _ _ w' h (answers_GetConversationIDsHash false o m) Hw Hh) as (l & Hl & Hhash).
    exists l. split; [apply Hl|]. split; [|done]. intros cid. by apply Hids.
Qed.

(** ** Whom to push to *)

(** C34: after a sequence of calls of which every SetConversation and every creation of group chats succeeds, no
    SetConversation names an option for a row that is there, and a single owner that SetConversations names has no
    colon in his id ([orderly]), in a deployment where a key is deleted from the cache within five attempts, from
    a state whose cache agrees with the table: the service tells the push service to push to just those of the users
    it is asked about who have not muted the conversation; it never panics. *)
Theorem offline_push_spares_muted `{MapRange} vs w cid us : ConversationsAgree true w → orderly true vs w →
  let w' := serve_conversations vs w in
  match (GetConversationOfflinePushUserIDs cid us w').1 with
  | Ok l => ∀ u, u ∈ l ↔ u ∈ us ∧ ¬ ∃ row, convs_of w' !! (u, cid) = Some row ∧ Cm_RecvMsgOpt row ≠ ReceiveMessage
  | Err e => external e ∨ (cid = "" ∧ e = Wrap ErrArgs "conversationID is empty")
  | _ => False
  end.
Proof.
  intros Ha Hok w'. pose proof (serve_conversations_agree true vs w Ha Hok) as Ha'. unfold GetConversationOfflinePushUserIDs.
  unfold mbind at 1, M_bind at 1. unfold guard. case_bool_decide as Hcid; [cbn; by right|]. cbn.
  destruct (len us =? 0) eqn:Hus.
  { destruct us as [|u us]; [|done]. cbn. intros u. rewrite elem_of_nil. tauto. }
  pose proof (answers_NotReceive true cid (convs_of w') eq_refl w' ltac:(done)) as Hq.
  unfold mbind, M_bind. apply wp_eq in Hq. destruct (conversationDatabase_GetConversationNotReceiveMessageUserIDs cid w') as [[l|e| |] w1];
    cbn in *; destruct Hq as [_ Hq]; try done; [|by left].
  destruct Hq as [_ Hq].
  destruct (len l =? 0) eqn:Hl; cbn.
  - intros u. assert (l = []) as -> by (by destruct l).
    specialize (Hq u). rewrite elem_of_nil in Hq. unfold mutes in Hq. tauto.
  - intros u. by rewrite keys_without, Hq.
Qed.

(** ** Conversations that are missing *)

(** the fields that a call asks for are lost on the users who do not have the conversation yet: they
    get one with none of them, and the call answers with success. *)
Theorem missing_conversations_lose_fields now us req u w : ConversationsAgree false w → registered_owner (Call_SetConversations us req) →
  u ∈ us → CR_IsPrivateChat req = None → convs_of w !! (u, CR_ConversationID req) = None →
  let '(r, w') := conversation_do (mkConversationVisit now (Call_SetConversations us req)) w in
  r = Ok () → ∃ row, convs_of w' !! (u, CR_ConversationID req) = Some row ∧
    Cm_RecvMsgOpt row = ReceiveMessage ∧ Cm_IsPinned row = false ∧ Cm_Ex row = "" ∧ Cm_AttachedInfo row = "".
Proof.
  intros Ha Ho Hu Hp Hn. pose proof (conversation_done false (mkConversationVisit now (Call_SetConversations us req)) w Ha Ho ltac:(done)) as Hd.
  destruct (conversation_do _ w) as [r w']. intros ->. destruct Hd as [(_ & _ & Hs)|[? _]]; [|done].
  apply step_set_conversations_inv in Hs as [_ ->]. unfold with_fields, privately. rewrite Hp. rewrite lookup_upsert, decide_True by done. rewrite Hn. by eexists.
Qed.

(** ** The message service *)

Context (msg_config : MsgConfig) (today : string) (rand_Int : Z) (Error : error → string) (tips_JsonDetail : string → string).
Context (msg_answers : list Effect → Effect → option error).
Context (webhook : CommonCallbackReq → list Effect → CallbackMsgModifyCommandResp + error).

(** The services of the message service, of which the conversation service is this one;
    a response without a conversation is dereferenced, which is an internal error. *)
Definition with_conversations w (others : Services Effect) : Services Effect := {|
  svc_GetConversation u c _ := match answer_of (conversationServer_GetConversation u c w).1 with
    | inl (Some conv) => inl conv | inl None => inr (Bare ErrInternalServer) | inr e => inr e end;
  svc_GetConversations u cs _ := answer_of (conversationServer_GetConversations u cs w).1;
  svc_GetConversationsByConversationID cs _ := answer_of (conversationServer_GetConversationsByConversationID cs w).1;
  svc_GetConversationIDs u _ := answer_of (conversationServer_GetConversationIDs u w).1;
  svc_GetUserConversationIDsHash u _ := answer_of (conversationServer_GetUserConversationIDsHash u w).1;
  svc_IsFriend := svc_IsFriend; svc_IsBlack := svc_IsBlack;
  svc_GetGroupsInfo := svc_GetGroupsInfo; svc_GetGroupMembersInfo := svc_GetGroupMembersInfo;
  svc_GetGroupMemberUserIDs := svc_GetGroupMemberUserIDs; svc_GetGroupInfoCache := svc_GetGroupInfoCache;
  svc_GetGroupMemberCache := svc_GetGroupMemberCache; svc_GetDesignateUsers := svc_GetDesignateUsers;
  svc_GetGlobalRecvMessageOpt := svc_GetGlobalRecvMessageOpt |}.

Lemma answers_GetConversation b o cid row m : has_colon o = false → m !! (o, cid) = Some row →
  answers_with b m (λ c, c = ConversationDB2Pb row) (conversationServer_GetConversation o cid).
Proof.
  intros Ho Hrow. eapply conv_answers_bind; [by apply answers_GetConversations|]. cbn. intros l ->. rewrite Hrow. by apply conv_answers_ret.
Qed.
(** What the message service hears of a conversation that its user has. *)
Lemma conversation_answer b w others o cid row (h : list Effect) : ConversationsAgree b w → has_colon o = false →
  convs_of w !! (o, cid) = Some row →
  match svc_GetConversation (Services:=with_conversations w others) o cid h with
  | inl conv => conv = pb_of row | inr e => Unwrap e ≠ ErrRecordNotFound end.
Proof.
  intros Ha Ho Hrow. cbn [with_conversations svc_GetConversation].
  pose proof (answers_GetConversation b o cid row (convs_of w) Ho Hrow w ltac:(done)) as Hq.
  apply wp_eq in Hq. destruct (conversationServer_GetConversation o cid w) as [[c|e| |] w1];
    cbn [fst answer_of]; destruct Hq as [_ Hq]; try done.
  - destruct c as [conv|]; [|done]. by apply ConversationDB2Pb_ok.
  - destruct Hq as [n ->]. done.
Qed.

(** A message to a user who has muted the conversation is not sent. *)
Lemma muted_single w others now operation (msg : MsgData) h row : ConversationsAgree false w → has_colon (RecvID msg) = false →
  convs_of w !! (RecvID msg, GenConversationIDForSingle (SendID msg) (RecvID msg)) = Some row →
  Cm_RecvMsgOpt row = NotReceiveMessage →
  (svc_GetGlobalRecvMessageOpt (Services:=others) (RecvID msg) h ≠ inl ReceiveNotNotifyMessage) →
  SessionType msg = SingleChatType → IsNotificationByMsg msg = false → ContentType msg ≠ HasReadReceipt →
  let '(r, h') := SendMsg (H1:=with_conversations w others) msg_config now today rand_Int operation msg_answers webhook tips_JsonDetail Error (Some msg) h in
  h' = h ∧ ∀ resp, r ≠ Ok (Some resp).
Proof.
  intros Ha Ho Hrow Hopt Hglobal Hs Hn Ht. apply quiet_single; [done..|]. intros msg' Hc.
  unfold modifyMessageByUserMessageReceiveOpt. apply wp_bind, wp_ask; [|done]. intros opt Hg. cbn in Hg.
  destruct (opt =? NotReceiveMessage); [by apply wp_ret|].
  destruct (Z.eqb_spec opt ReceiveNotNotifyMessage) as [->|_]; [done|].
  apply wp_bind, wp_try. unfold GetSingleConversationRecvMsgOpt.
  pose proof (conversation_answer false w others _ _ row h Ha Ho Hrow) as Hans.
  apply wp_bind, wp_ask; intros x Hx; rewrite Hx in Hans.
  - subst x. apply wp_ret, wp_ret. split; [done|]. intros m'. unfold core in Hc. injection Hc as _ _ _ _ Hct _.
    assert (Conv_RecvMsgOpt (pb_of row) = Cm_RecvMsgOpt row) as -> by by destruct row. rewrite Hopt, Hct.
    cbn [Z.eqb ReceiveMessage NotReceiveMessage]. rewrite Contain_spec, bool_decide_false; [done|]. unfold ExcludeContentType. by rewrite list_elem_of_singleton.
  - rewrite bool_decide_false by done. by apply wp_fail.
Qed.

(** The option that a call asks for is the one a row has afterwards. *)
Lemma asked_option req conv r v : CR_RecvMsgOpt req = Some v →
  Cm_RecvMsgOpt (set_conversation_columns (asked_columns req conv) r) = v.
Proof.
  destruct req as [cid ty u g opt pin att priv ex burn mn mx at_ dt dest]. cbn. intros ->.
  destruct r, att, ex, pin, at_, dt, dest, burn; done.
Qed.

(** C13: where a key is deleted from the cache within five attempts and the cache agrees with the table at first: once
    a user, whose id has no colon, has asked by SetConversations not to receive the messages of a single chat he has,
    the message service queues none of what the other writes to him there, read receipts and messages with the option
    of notifications apart, until a call asks for an option for this conversation again, as long as the calls are
    [orderly]: every SetConversation and creation of group chats succeeds, and single owners have no colon in their ids.
    His option for all conversations, which is asked first, is not to receive messages without being notified. *)
Theorem muted_conversation_is_quiet v req u vs w w1 others now operation (msg : MsgData) h : ConversationsAgree false w →
  cv_call v = Call_SetConversations [u] req → CR_RecvMsgOpt req = Some NotReceiveMessage → has_colon u = false →
  conversation_do v w = (Ok (), w1) → orderly false vs w1 →
  (∀ v', v' ∈ vs → ¬ asks_option (cv_call v') (u, CR_ConversationID req)) →
  RecvID msg = u → GenConversationIDForSingle (SendID msg) (RecvID msg) = CR_ConversationID req →
  svc_GetGlobalRecvMessageOpt (Services:=others) u h ≠ inl ReceiveNotNotifyMessage →
  SessionType msg = SingleChatType → IsNotificationByMsg msg = false → ContentType msg ≠ HasReadReceipt →
  let '(r, h') := SendMsg (H1:=with_conversations (serve_conversations vs w1) others) msg_config now today rand_Int operation
    msg_answers webhook tips_JsonDetail Error (Some msg) h in
  h' = h ∧ ∀ resp, r ≠ Ok (Some resp).
Proof.
  intros Ha Hcall Hopt Hu E Hok Hno <- Hcid Hglobal Hs Hn Ht.
  pose proof (conversation_done false v w Ha) as Hd. rewrite Hcall, E in Hd.
  destruct Hd as [(_ & Ha1 & Hstep)|[? _]]; [exact Hu|done| |done].
  assert (∃ row, convs_of w1 !! (RecvID msg, CR_ConversationID req) = Some row ∧ Cm_RecvMsgOpt row = NotReceiveMessage) as (row & Hrow & Hro).
  { apply step_set_conversations_inv in Hstep as [Hone ->]. unfold with_fields.
    rewrite lookup_upsert, decide_True by (split; [done|by left]).
    destruct (Hone _ eq_refl) as [r0 Hr0].
    destruct (rows_kept_privately (cv_now v) [RecvID msg] req (convs_of w) (RecvID msg, CR_ConversationID req)) as [_ Hk].
    destruct (Hk r0 Hr0) as (r1 & -> & _). eexists. split; [done|]. by apply asked_option. }
  pose proof (serve_conversations_agree false vs w1 Ha1 Hok) as Ha2.
  destruct (serve_conversations_rows config StructToJsonString Marshal_elem answers vs w1 (RecvID msg, CR_ConversationID req)) as [_ Hk]. destruct (Hk row Hrow) as (row' & Hrow' & _ & Hsame).
  eapply (muted_single _ others now operation msg h row'); try done.
  - by rewrite Hcid.
  - rewrite Hsame, Hro; [done|]. intros (v' & Hv' & Hask). by eapply Hno.
Qed.
End ConversationTheorems.
