(* ===== verification/ConversationSamples.v ===== *)
(** * Sample runs of the conversation service

    On the stores in memory: the witnesses of the theorems of ConversationTheorems.v. *)

From S2P Require Import Prelude.
From S2P Require Import Constants.
From S2P Require Import MsgTypes.
From S2P Require Import MsgProcessor.
From S2P Require Import Tools.
From S2P Require Import Notification.
From S2P Require Import RpcClient.
From S2P Require Import Auth.
From S2P Require Import MsgServer.
From S2P Require Import SendProofs.
From S2P Require Import MsgServerSamples.
From S2P Require Import GroupTypes.
From S2P Require Import FriendTypes.
From S2P Require Import Sql.
From S2P Require Import RowCache.
From S2P Require Import RowCoherence.
From S2P Require Import GroupStore.
From S2P Require Import GroupMemory.
From S2P Require Import UserServer.
From S2P Require Import ConversationTypes.
From S2P Require Import ConversationDatabase.
From S2P Require Import ConversationServer.
From S2P Require Import ConversationSpec.
From S2P Require Import ConversationProofs.
From S2P Require Import ConversationChanges.
From S2P Require Import ConversationRefinement.
From S2P Require Import ConversationTheorems.
From stdpp Require Import options.

#[local] Open Scope Z_scope.

Definition conversation_code (c : ConversationModel) : positive :=
  let '(mkConversationModel o cid ty u g opt pin priv burn at_ att ex mx mn ct dest dt lt) := c in
  encode [encode o; encode cid; encode ty; encode u; encode g; encode opt; encode pin; encode priv; encode burn;
    encode at_; encode att; encode ex; encode mx; encode mn; encode ct; encode dest; encode dt; encode lt].
Definition conversation_decode (p : positive) : option ConversationModel :=
  l ← decode p;
  match l with
  | [o; cid; ty; u; g; opt; pin; priv; burn; at_; att; ex; mx; mn; ct; dest; dt; lt] =>
      o ← decode o; cid ← decode cid; ty ← decode ty; u ← decode u; g ← decode g; opt ← decode opt;
      pin ← decode pin; priv ← decode priv; burn ← decode burn; at_ ← decode at_; att ← decode att;
      ex ← decode ex; mx ← decode mx; mn ← decode mn; ct ← decode ct; dest ← decode dest; dt ← decode dt;
      lt ← decode lt; Some (mkConversationModel o cid ty u g opt pin priv burn at_ att ex mx mn ct dest dt lt)
  | _ => None
  end.
Lemma conversation_decode_code c : conversation_decode (conversation_code c) = Some c.
Proof. unfold conversation_decode, conversation_code. destruct c. by repeat (rewrite decode_encode; cbn [mbind option_bind]). Qed.

Abbreviation MemConversations := (gmap (string * string) ConversationModel).
Definition memory_of (t : MemConversations) : MemConversations := mem_rows conversation_key t.

Definition mem_conversations : ConversationEngine := {|
  conversations_table := mem_table conversation_key;
  conversation_cache := mem_rocks;
  json_conversation := code_json conversation_code conversation_decode;
  json_conversation_ids := code_json encode decode;
  json_conversation_hash := code_json encode decode;
  json_recv_opt := code_json encode decode;
  conversation_Begin _ := None;
  conversation_Commit _ := None;
  conversation_Merge t0 t1 t2 := merged (memory_of t0) (memory_of t1) (memory_of t2);
  sql_Distinct _ t := inl (remove_dups ((map_to_list (memory_of t)).*1.*2));
  pluck_one_value _ _ _ := inr (Bare (ErrExternal 1064)) |}.

#[local] Existing Instance mem_conversations.
Lemma mem_conversations_laws : ConversationEngineLaws.
Proof.
  split; try done.
  - apply mem_table_laws.
  - apply mem_rocks_laws.
  - apply code_json_laws, conversation_decode_code.
  - apply code_json_laws, decode_encode.
  - apply code_json_laws, decode_encode.
  - intros t0 t1 t2. apply (mem_rows_keyed conversation_key). intros k r. rewrite lookup_merged. case_decide; apply mem_rows_key.
Qed.
Lemma mem_conversations_tags : TagSucceeds CC.
Proof. apply mem_rocks_tags. Qed.

(** Copies that succeed. *)
Definition model_copy : CopyTools := {|
  Copy_model _ c := inl c;
  Copy_model_to_pb to c := inl (pb_with_model to c);
  Copy_pb_to_model to c := inl (model_with_pb to c) |}.
#[local] Existing Instance model_copy.
Lemma model_copy_laws : CopyToolsLaws.
Proof. by split; intros * [= <-]. Qed.

(** The tools in memory, with a digest of eight characters at least. *)
Definition digest_msg_tools : MsgTools := {|
  SetSwitchFromOptions := @SetSwitchFromOptions model_msg_tools;
  DifferenceString := @DifferenceString model_msg_tools;
  Single := @Single model_msg_tools;
  GenConversationUniqueKeyForSingle := @GenConversationUniqueKeyForSingle model_msg_tools;
  GenConversationUniqueKeyForGroup := @GenConversationUniqueKeyForGroup model_msg_tools;
  GenConversationIDForSingle := @GenConversationIDForSingle model_msg_tools;
  utils_GetNotificationConversationIDByConversationID := @utils_GetNotificationConversationIDByConversationID model_msg_tools;
  GetSelfNotificationConversationID := @GetSelfNotificationConversationID model_msg_tools;
  utils_GetMsgID := @utils_GetMsgID model_msg_tools;
  Md5 s := "0000002a" +:+ s;
  NotNilReplace := @NotNilReplace model_msg_tools |}.
#[local] Existing Instance digest_msg_tools.
Lemma digest_msg_tools_laws : MsgToolsLaws.
Proof. split; try done; intros; apply elem_of_symmetric_difference. Qed.
Lemma digest_msg_tools_long : DigestLaws.
Proof. intros s. by eexists. Qed.

#[local] Existing Instances model_tools model_tools_laws digest_msg_tools_laws digest_msg_tools_long
  sample_services mem_conversations_laws mem_conversations_tags model_copy_laws map_order mem_special mem_special_laws.

Definition conversation_config : notification := uniform_notification NotificationConf_zero.
Definition conversation_text (_ : ConversationTips) : string := "{}".
Definition conversation_elem (_ : string) : string + error := inl "{}".
Definition conversation_answer_none (_ : list ConversationEffect) (_ : ConversationEffect) : option error := None.

Abbreviation conversation_visits := (serve_conversations conversation_config conversation_text conversation_elem conversation_answer_none).
Abbreviation one_visit := (conversation_do conversation_config conversation_text conversation_elem conversation_answer_none).
Abbreviation in_order := (orderly conversation_config conversation_text conversation_elem conversation_answer_none).
Abbreviation table_of w := (rows (K:=string * string) (cw_table w)).

Definition no_conversations : ConversationWorld (list ConversationEffect) :=
  mkConversationWorld (H:=mem_conversations) (∅ : MemConversations) (∅ : gmap string string) [].
Lemma no_conversations_agree b : ConversationsAgree b no_conversations.
Proof. intros k s Hs. vm_compute in Hs. discriminate Hs. Qed.

(** Alice and Bob have a chat, which Bob mutes and Alice pins. *)
Definition chat_id : string := "si_alice_bob".
Definition chat_made : conversation_visit :=
  mkConversationVisit 100 (Call_CreateSingleChat (mkCreateSingleReq "bob" "alice" chat_id SingleChatType)).
Definition asks (peer : string) (opt : option Z) (pin : option bool) : ConversationReq :=
  mkConversationReq chat_id SingleChatType peer "" opt pin None None None None None None None None None.
Definition bob_mutes : conversation_visit :=
  mkConversationVisit 200 (Call_SetConversations ["bob"] (asks "alice" (Some NotReceiveMessage) None)).
Definition alice_pins : conversation_visit :=
  mkConversationVisit 300 (Call_SetConversations ["alice"] (asks "bob" None (Some true))).
Definition both_mute : conversation_visit :=
  mkConversationVisit 400 (Call_SetConversations ["alice"; "bob"] (asks "bob" (Some NotReceiveMessage) None)).

Definition chatting := conversation_visits [chat_made] no_conversations.
Lemma ran_conversation v w r : (one_visit v w).1 = r → one_visit v w = (r, (one_visit v w).2).
Proof. intros <-. by destruct (one_visit v w). Qed.
Lemma chatting_agree b : ConversationsAgree b chatting.
Proof.
  apply serve_conversations_agree; [apply no_conversations_agree|]. split; [done|]. split; [|done]. right. by intros [].
Qed.

Lemma orderly_set b vs w : (∀ v, v ∈ vs → ∃ us req, cv_call v = Call_SetConversations us req ∧ registered_owner (cv_call v)) → in_order b vs w.
Proof.
  revert w. induction vs as [|v vs IH]; intros w Hvs; [done|].
  destruct (Hvs v) as (us & req & Hc & Ho); [by left|]. split; [done|]. rewrite Hc. split; [right; by intros []|]. split; [done|].
  apply IH. intros v' Hv'. apply Hvs. by right.
Qed.
Lemma mutes_in_order b w : in_order b [bob_mutes; alice_pins] w.
Proof. apply orderly_set. intros v [->|[->|[]%not_elem_of_nil]%elem_of_cons]%elem_of_cons; by do 2 eexists. Qed.

Definition muted_chat := conversation_visits [bob_mutes; alice_pins] chatting.

Lemma conversation_service_refines_witness :
  let w' := (one_visit bob_mutes chatting).2 in
  table_of chatting ≠ table_of w' ∧ conversation_step 200 (table_of chatting) (cv_call bob_mutes) (table_of w').
Proof.
  intros w'. split; [intros E; assert (Cm_RecvMsgOpt <$> table_of chatting !! ("bob", chat_id) = Cm_RecvMsgOpt <$> table_of w' !! ("bob", chat_id)) as Hq by (by rewrite E); vm_compute in Hq; discriminate Hq|].
  assert ((one_visit bob_mutes chatting).1 = Ok ()) as E by (vm_compute; reflexivity). apply ran_conversation in E.
  pose proof (conversation_service_refines conversation_config conversation_text conversation_elem conversation_answer_none true bob_mutes
    chatting (chatting_agree true) eq_refl (λ _, I)) as Hs. rewrite E in Hs. apply Hs.
Defined.

Lemma conversations_stay_witness :
  ∃ row, table_of muted_chat !! ("alice", chat_id) = Some row ∧ Cm_RecvMsgOpt row = ReceiveMessage.
Proof.
  destruct (conversations_stay conversation_config conversation_text conversation_elem conversation_answer_none
    [bob_mutes; alice_pins] chatting ("alice", chat_id)) as [_ Hk].
  destruct (table_of chatting !! ("alice", chat_id)) as [row|] eqn:Hrow; [|vm_compute in Hrow; discriminate Hrow].
  destruct (Hk row eq_refl) as (row' & Hrow' & _ & Ho). exists row'. split; [exact Hrow'|]. rewrite Ho.
  - vm_compute in Hrow. by injection Hrow as <-.
  - intros v [->|[->|[]%not_elem_of_nil]%elem_of_cons]%elem_of_cons.
    + intros (_ & Hin & _). cbn in Hin. by apply list_elem_of_singleton in Hin.
    + intros (_ & _ & [? Hx]). discriminate Hx.
Defined.

Lemma conversation_queries_agree_witness :
  (GetUserAllConversation "bob" muted_chat).1 = Ok (option_list (table_of muted_chat !! ("bob", chat_id))) ∧
  ∀ l, (conversationServer_GetConversationIDs "bob" muted_chat).1 = Ok l → ∀ cid, cid ∈ l ↔ is_Some (table_of muted_chat !! ("bob", cid)).
Proof.
  split; [vm_compute; reflexivity|]. intros l Hl.
  apply (conversation_queries_agree conversation_config conversation_text conversation_elem conversation_answer_none
    [bob_mutes; alice_pins] chatting "bob" [] (chatting_agree false) (mutes_in_order _ _) eq_refl). exact Hl.
Defined.

Lemma offline_push_spares_muted_witness :
  (GetConversationOfflinePushUserIDs chat_id ["alice"; "bob"] muted_chat).1 = Ok ["alice"] ∧
  ¬ ¬ ∃ row, table_of muted_chat !! ("bob", chat_id) = Some row ∧ Cm_RecvMsgOpt row ≠ ReceiveMessage.
Proof.
  assert ((GetConversationOfflinePushUserIDs chat_id ["alice"; "bob"] muted_chat).1 = Ok ["alice"]) as E by (vm_compute; reflexivity).
  split; [exact E|]. intros Hn.
  pose proof (offline_push_spares_muted conversation_config conversation_text conversation_elem conversation_answer_none
    [bob_mutes; alice_pins] chatting chat_id ["alice"; "bob"] (chatting_agree true) (mutes_in_order _ _)) as Hs.
  fold muted_chat in Hs. cbn zeta in Hs. rewrite E in Hs. specialize (Hs "bob").
  assert ("bob" ∈ ["alice"]) as Hb%list_elem_of_singleton; [|discriminate Hb].
  apply Hs. split; [right; by left|exact Hn].
Defined.

(** Nobody has the conversation, and both ask to mute it: they get it, not muted. *)
Lemma missing_conversations_lose_fields_witness :
  (one_visit both_mute no_conversations).1 = Ok () ∧
  ∃ row, table_of (one_visit both_mute no_conversations).2 !! ("bob", chat_id) = Some row ∧ Cm_RecvMsgOpt row = ReceiveMessage.
Proof.
  assert ((one_visit both_mute no_conversations).1 = Ok ()) as E by (vm_compute; reflexivity). split; [exact E|].
  pose proof (missing_conversations_lose_fields conversation_config conversation_text conversation_elem conversation_answer_none 400
    ["alice"; "bob"] (asks "bob" (Some NotReceiveMessage) None) "bob" no_conversations (no_conversations_agree false) I
    ltac:(right; by left) eq_refl eq_refl) as Hs.
  fold both_mute in Hs. destruct (one_visit both_mute no_conversations) as [r w']. cbn [fst snd] in *.
  destruct (Hs E) as (row & ? & ? & _). by exists row.
Defined.

Lemma pins_in_order b w : in_order b [alice_pins] w.
Proof. apply orderly_set. intros v ->%list_elem_of_singleton. by do 2 eexists. Qed.
Lemma pins_unasked v : v ∈ [alice_pins] → ¬ asks_option (cv_call v) ("bob", chat_id).
Proof. intros ->%list_elem_of_singleton (_ & _ & [? Hx]). discriminate Hx. Qed.
Lemma quiet_queue (p : outcome (option SendMsgResp) * list Effect) :
  (let '(r, h') := p in h' = [] ∧ ∀ resp, r ≠ Ok (Some resp)) → p.2 = [].
Proof. destruct p. by intros [? _]. Qed.
Lemma muted_conversation_is_quiet_witness :
  let w := conversation_visits [alice_pins] (one_visit bob_mutes chatting).2 in
  (SendMsg (H1:=with_conversations w sample_services) sample_config 600 "today" 1 "op" (λ _ _, None)
    (λ _ _, inr (Bare ErrCallbackContinue)) (λ s, s) (λ _, "") (Some (sample_chat SingleChatType "alice" "bob")) []).2 = [].
Proof.
  intros w. assert ((one_visit bob_mutes chatting).1 = Ok ()) as E by (vm_compute; reflexivity). apply ran_conversation in E.
  apply quiet_queue.
  refine (muted_conversation_is_quiet conversation_config conversation_text conversation_elem conversation_answer_none
    sample_config "today" 1 (λ _, "") (λ s, s) (λ _ _, None) (λ _ _, inr (Bare ErrCallbackContinue))
    bob_mutes (asks "alice" (Some NotReceiveMessage) None) "bob" [alice_pins] chatting _ sample_services 600 "op"
    (sample_chat SingleChatType "alice" "bob") [] (chatting_agree false) eq_refl eq_refl eq_refl E _ _ eq_refl eq_refl _ eq_refl eq_refl _);
    [apply pins_in_order|exact pins_unasked|clear; discriminate..].
Defined.

(** What [SetConversation] leaves behind: the list of the users who have muted the chat, read
    before Bob mutes it in this way, is still answered afterwards. *)
Definition bob_mutes_at_once : conversation_visit :=
  mkConversationVisit 500 (Call_SetConversation
    (mkConversation "bob" chat_id NotReceiveMessage SingleChatType "alice" "" false "" false 0 "" 0 0 0 0 0 false)).
Example set_conversation_leaves_list_stale :
  let asked := (GetConversationOfflinePushUserIDs chat_id ["alice"; "bob"] (conversation_visits [bob_mutes] chatting)).2 in
  let unmuted := mkConversationVisit 600 (Call_SetConversations ["bob"] (asks "alice" (Some ReceiveMessage) None)) in
  let before := (GetConversationOfflinePushUserIDs chat_id ["bob"] (conversation_visits [unmuted; mkConversationVisit 610 (Call_SetConversations ["alice"] (asks "bob" (Some NotReceiveMessage) None))] asked)).2 in
  let after := conversation_visits [bob_mutes_at_once] before in
  (Cm_RecvMsgOpt <$> table_of after !! ("bob", chat_id)) = Some NotReceiveMessage ∧
  (GetConversationOfflinePushUserIDs chat_id ["bob"] after).1 = Ok ["bob"].
Proof. split; vm_compute; reflexivity. Qed.
