(* ===== verification/ChatAccounts.v ===== *)
(** * Accounts of the enterprise chat service: data and storage (chat-enterprise)

    The rows of the chat and administration databases (pkg/common/db/table/chat,
    pkg/common/db/table/admin), the statements on them (pkg/common/db/model), the
    two databases (pkg/common/db/database/chat.go, admin.go), the caller's identity
    (pkg/common/mctx) and the checks of the requests (pkg/proto/chat/chat.go).
    [ChatEngine] bundles the interfaces of the stores, [ChatWorld] is their state
    with what was sent by text message and mail.  Times are milliseconds. *)

From Stdlib Require Import Ascii.
From S2P Require Import Prelude.
From S2P Require Import Constants.
From S2P Require Import MsgTypes.
From S2P Require Import MsgProcessor.
From S2P Require Import MsgDoc.
From S2P Require Import Tools.
From S2P Require Import Redis.
From S2P Require Import FriendTypes.
From S2P Require Import Sql.
From stdpp Require Import options.
#[local] Set Default Proof Using "Type*".

#[local] Open Scope Z_scope.

(** ** Constants (pkg/common/constant/constant.go) *)

Definition VerificationCodeForRegister : Z := 1.
Definition VerificationCodeForResetPassword : Z := 2.
Definition VerificationCodeForLogin : Z := 3.
Definition UserMode : string := "user".
Definition NormalUser : Z := 1.
Definition AdminUser : Z := 2.
Definition OrdinaryUserAddFriendEnable : Z := 1.
Definition NeedInvitationCodeRegisterConfigKey : string := "needInvitationCodeRegister".
Definition DefaultAllowVibration : Z := 1.
Definition DefaultAllowBeep : Z := 1.
Definition DefaultAllowAddFriend : Z := 1.
Definition EmailRegister : Z := 1.
Definition PhoneRegister : Z := 2.

(** ** Rows *)

Record Account := mkAccount {
  Acc_UserID : string; Acc_Password : string; Acc_CreateTime : Z; Acc_ChangeTime : Z;
  Acc_OperatorUserID : string }.
Record Register := mkRegister {
  Rg_UserID : string; Rg_DeviceID : string; Rg_IP : string; Rg_Platform : string;
  Rg_AccountType : string; Rg_Mode : string; Rg_CreateTime : Z }.
Record Attribute := mkAttribute {
  At_UserID : string; At_Account : string; At_PhoneNumber : string; At_AreaCode : string;
  At_Email : string; At_Nickname : string; At_FaceURL : string; At_Gender : Z; At_CreateTime : Z;
  At_ChangeTime : Z; At_BirthTime : Z; At_Level : Z; At_AllowVibration : Z; At_AllowBeep : Z;
  At_AllowAddFriend : Z; At_GlobalRecvMsgOpt : Z; At_RegisterType : Z }.
Record VerifyCodeRow := mkVerifyCodeRow {
  Vc_ID : Z; Vc_Account : string; Vc_Platform : string; Vc_Code : string; Vc_Duration : Z;
  Vc_Count : Z; Vc_Used : bool; Vc_CreateTime : Z }.
Record UserLoginRecord := mkUserLoginRecord {
  Lr_UserID : string; Lr_LoginTime : Z; Lr_IP : string; Lr_DeviceID : string; Lr_Platform : string }.
Record InvitationRegister := mkInvitationRegister {
  Inv_Code : string; Inv_UsedByUserID : string; Inv_CreateTime : Z; Inv_AllowResetPassword : Z }.
Record IPForbidden := mkIPForbidden {
  Ip_IP : string; Ip_LimitRegister : bool; Ip_LimitLogin : bool; Ip_CreateTime : Z }.
Record ForbiddenAccount := mkForbiddenAccount {
  Fa_UserID : string; Fa_Reason : string; Fa_OperatorUserID : string; Fa_CreateTime : Z }.
Record LimitUserLoginIP := mkLimitUserLoginIP { Li_UserID : string; Li_IP : string; Li_CreateTime : Z }.
Record ClientConfig := mkClientConfig { Cc_Key : string; Cc_Value : string }.

#[export] Instance account_eq_dec : EqDecision Account. Proof. solve_decision. Defined.
#[export] Instance register_eq_dec : EqDecision Register. Proof. solve_decision. Defined.
#[export] Instance attribute_eq_dec : EqDecision Attribute. Proof. solve_decision. Defined.
#[export] Instance verify_code_eq_dec : EqDecision VerifyCodeRow. Proof. solve_decision. Defined.
#[export] Instance invitation_eq_dec : EqDecision InvitationRegister. Proof. solve_decision. Defined.
#[export] Instance ip_forbidden_eq_dec : EqDecision IPForbidden. Proof. solve_decision. Defined.
#[export] Instance forbidden_account_eq_dec : EqDecision ForbiddenAccount. Proof. solve_decision. Defined.
#[export] Instance limit_ip_eq_dec : EqDecision LimitUserLoginIP. Proof. solve_decision. Defined.
#[export] Instance client_config_eq_dec : EqDecision ClientConfig. Proof. solve_decision. Defined.

(** The primary key of a limit. *)
Definition limit_key (l : LimitUserLoginIP) : string * string := (Li_UserID l, Li_IP l).

(** A column with a default takes it for a zero value. *)
Definition column_default (d v : Z) : Z := if v =? 0 then d else v.
Definition auto_attribute (a : Attribute) : Attribute :=
  mkAttribute (At_UserID a) (At_Account a) (At_PhoneNumber a) (At_AreaCode a) (At_Email a) (At_Nickname a)
    (At_FaceURL a) (At_Gender a) (At_CreateTime a) (At_ChangeTime a) (At_BirthTime a)
    (column_default 1 (At_Level a)) (column_default 1 (At_AllowVibration a)) (column_default 1 (At_AllowBeep a))
    (column_default 1 (At_AllowAddFriend a)) (At_GlobalRecvMsgOpt a) (At_RegisterType a).

(** The entries of a map of columns. *)
Inductive attribute_column :=
  | acol_account (v : string) | acol_area_code (v : string) | acol_email (v : string)
  | acol_nickname (v : string) | acol_face_url (v : string)
  | acol_gender (v : Z) | acol_level (v : Z) | acol_birth_time (v : Z) | acol_allow_add_friend (v : Z)
  | acol_allow_beep (v : Z) | acol_allow_vibration (v : Z) | acol_global_recv_msg_opt (v : Z).
Definition set_attribute_column (c : attribute_column) (a : Attribute) : Attribute :=
  let '(mkAttribute u ac ph ar em ni fa ge ct cht bt lv av ab af go rt) := a in
  match c with
  | acol_account v => mkAttribute u v ph ar em ni fa ge ct cht bt lv av ab af go rt
  | acol_area_code v => mkAttribute u ac ph v em ni fa ge ct cht bt lv av ab af go rt
  | acol_email v => mkAttribute u ac ph ar v ni fa ge ct cht bt lv av ab af go rt
  | acol_nickname v => mkAttribute u ac ph ar em v fa ge ct cht bt lv av ab af go rt
  | acol_face_url v => mkAttribute u ac ph ar em ni v ge ct cht bt lv av ab af go rt
  | acol_gender v => mkAttribute u ac ph ar em ni fa v ct cht bt lv av ab af go rt
  | acol_level v => mkAttribute u ac ph ar em ni fa ge ct cht bt v av ab af go rt
  | acol_birth_time v => mkAttribute u ac ph ar em ni fa ge ct cht v lv av ab af go rt
  | acol_allow_add_friend v => mkAttribute u ac ph ar em ni fa ge ct cht bt lv av ab v go rt
  | acol_allow_beep v => mkAttribute u ac ph ar em ni fa ge ct cht bt lv av v af go rt
  | acol_allow_vibration v => mkAttribute u ac ph ar em ni fa ge ct cht bt lv v ab af go rt
  | acol_global_recv_msg_opt v => mkAttribute u ac ph ar em ni fa ge ct cht bt lv av ab af v rt
  end.
Definition set_attribute_columns (cs : list attribute_column) (a : Attribute) : Attribute :=
  foldl (λ a c, set_attribute_column c a) a cs.

Inductive invitation_column := icol_user_id (v : string) | icol_allow_reset_password (v : Z).
Definition set_invitation_column (c : invitation_column) (i : InvitationRegister) : InvitationRegister :=
  let '(mkInvitationRegister code u t allow) := i in
  match c with
  | icol_user_id v => mkInvitationRegister code v t allow
  | icol_allow_reset_password v => mkInvitationRegister code u t v
  end.

(** ** The caller (pkg/common/mctx/get.go)

    What the context of a call holds under the keys of the user's id and type. *)
Record Ctx := mkCtx { Ctx_OpUserID : option string; Ctx_OpUserType : option (list string) }.

Definition HaveOpUser (ctx : Ctx) : bool := match Ctx_OpUserID ctx with Some _ => true | None => false end.

(** The message of the parser is left out. *)
Definition mctx_Check (ctx : Ctx) : (string * Z) + error :=
  match Ctx_OpUserID ctx with
  | None => inr (Wrap ErrNoPermission "no opUserID")
  | Some opUserID =>
      if bool_decide (opUserID = "") then inr (Wrap ErrNoPermission "opUserID empty")
      else match Ctx_OpUserType ctx with
           | None => inr (Wrap ErrNoPermission "missing user type")
           | Some [] => inr (Wrap ErrNoPermission "user type empty")
           | Some (t :: _) =>
               match ParseInt t with
               | None => inr (Wrap ErrNoPermission "user type invalid ")
               | Some userType =>
                   if negb ((userType =? AdminUser) || (userType =? NormalUser))
                   then inr (Wrap ErrNoPermission "user type invalid") else inl (opUserID, userType)
               end
           end
  end.
Definition mctx_CheckAdmin (ctx : Ctx) : string + error :=
  match mctx_Check ctx with
  | inr e => inr e
  | inl (userID, userType) =>
      if negb (userType =? AdminUser) then inr (Wrap ErrNoPermission "not admin") else inl userID
  end.
Definition CheckAdminOrUser (ctx : Ctx) : (string * Z) + error := mctx_Check ctx.
Definition mctx_GetOpUserID (ctx : Ctx) : string := default "" (Ctx_OpUserID ctx).
Definition WithOpUserID (opUserID : string) (userType : Z) (ctx : Ctx) : Ctx :=
  mkCtx (Some opUserID) (Some [FormatInt userType]).
(** The configured administrators by their [AdminID]. *)
Definition WithAdminUser (AdminList : list string) (ctx : Ctx) : Ctx :=
  match AdminList with adminID :: _ => WithOpUserID adminID AdminUser ctx | [] => ctx end.

(** ** Numbers and addresses *)

(** [strconv.ParseUint(s, 10, 64)], [None] for a syntax or range error. *)
Definition ParseUint (s : string) : option Z :=
  match s with
  | EmptyString => None
  | _ => v ← digits_value 0 s; if v <? 2 ^ 64 then Some v else None
  end.

(** An area code with its plus, and the digits after it; the empty one has no
    first byte. *)
Definition plus_area (areaCode : string) : option (string * string) :=
  match areaCode with
  | EmptyString => None
  | String c rest => Some (if Ascii.eqb c "+" then (areaCode, rest) else (String "+" areaCode, areaCode))
  end.

Definition ascii_in (lo hi c : ascii) : bool := Nat.leb (nat_of_ascii lo) (nat_of_ascii c) && Nat.leb (nat_of_ascii c) (nat_of_ascii hi).
Definition email_letter (c : ascii) : bool := ascii_in "a" "z" c || ascii_in "A" "Z" c.
Definition email_domain_char (c : ascii) : bool :=
  email_letter c || ascii_in "0" "9" c || bool_decide (c ∈ ["."; "-"]%char).
Definition email_local_char (c : ascii) : bool :=
  email_domain_char c || bool_decide (c ∈ ["_"; "%"; "+"]%char).
Fixpoint split_first (sep : ascii) (l : list ascii) : option (list ascii * list ascii) :=
  match l with
  | [] => None
  | c :: l' => if Ascii.eqb c sep then Some ([], l') else
      match split_first sep l' with Some (a, b) => Some (c :: a, b) | None => None end
  end.
Definition split_last (sep : ascii) (l : list ascii) : option (list ascii * list ascii) :=
  match split_first sep (reverse l) with Some (a, b) => Some (reverse b, reverse a) | None => None end.
(** [^[a-zA-Z0-9._%+-]+@[a-zA-Z0-9.-]+\.[a-zA-Z]{2,}$]: the last label, of letters,
    begins after the last dot. *)
Definition email_matches (email : string) : bool :=
  match split_first "@"%char (String.list_ascii_of_string email) with
  | None => false
  | Some (local, domain) =>
      match split_last "."%char domain with
      | None => false
      | Some (labels, top) =>
          (0 <? len local) && forallb email_local_char local && (0 <? len labels) &&
          forallb email_domain_char labels && (2 <=? len top) && forallb email_letter top
      end
  end.
Definition EmailCheck (email : string) : () + error :=
  if email_matches email then inl () else inr (Wrap ErrArgs "Email is invalid").
Definition AreaCodeCheck (areaCode : string) : () + error := inl ().
Definition PhoneNumberCheck (phoneNumber : string) : () + error :=
  if bool_decide (phoneNumber = "") then inr (Wrap ErrArgs "phoneNumber is empty")
  else match ParseUint phoneNumber with
       | None => inr (Wrap ErrArgs "phoneNumber is invalid")
       | Some _ => inl ()
       end.

(** ** Requests *)

Record SendVerifyCodeReq := mkSendVerifyCodeReq {
  Svc_UsedFor : Z; Svc_Ip : string; Svc_InvitationCode : string; Svc_DeviceID : string; Svc_Platform : Z;
  Svc_AreaCode : string; Svc_PhoneNumber : string; Svc_Email : string }.
Record VerifyCodeReq := mkVerifyCodeReq {
  Vcr_AreaCode : string; Vcr_PhoneNumber : string; Vcr_VerifyCode : string; Vcr_Email : string }.
Record RegisterUserInfo := mkRegisterUserInfo {
  Ru_UserID : string; Ru_Nickname : string; Ru_FaceURL : string; Ru_Birth : Z; Ru_Gender : Z;
  Ru_AreaCode : string; Ru_PhoneNumber : string; Ru_Email : string; Ru_Account : string;
  Ru_Password : string; Ru_RegisterType : Z }.
Record RegisterUserReq := mkRegisterUserReq {
  Rr_InvitationCode : string; Rr_VerifyCode : string; Rr_Ip : string; Rr_DeviceID : string;
  Rr_Platform : Z; Rr_AutoLogin : bool; Rr_User : option RegisterUserInfo }.
Record RegisterUserResp := mkRegisterUserResp { Rsp_UserID : string; Rsp_ChatToken : string }.
Record LoginReq := mkLoginReq {
  Lg_AreaCode : string; Lg_PhoneNumber : string; Lg_VerifyCode : string; Lg_Account : string;
  Lg_Password : string; Lg_Platform : Z; Lg_DeviceID : string; Lg_Ip : string; Lg_Email : string }.
Record LoginResp := mkLoginResp { Lrs_ChatToken : string; Lrs_UserID : string }.
Record ResetPasswordReq := mkResetPasswordReq {
  Rp_AreaCode : string; Rp_PhoneNumber : string; Rp_VerifyCode : string; Rp_Password : string;
  Rp_Email : string; Rp_AuthCode : string }.
Record ChangePasswordReq := mkChangePasswordReq {
  Cp_UserID : string; Cp_CurrentPassword : string; Cp_NewPassword : string }.
Record UpdateUserInfoReq := mkUpdateUserInfoReq {
  Uu_UserID : string; Uu_Account : option string; Uu_PhoneNumber : option string; Uu_AreaCode : option string;
  Uu_Email : option string; Uu_Nickname : option string; Uu_FaceURL : option string; Uu_Gender : option Z;
  Uu_Level : option Z; Uu_Birth : option Z; Uu_AllowAddFriend : option Z; Uu_AllowBeep : option Z;
  Uu_AllowVibration : option Z; Uu_GlobalRecvMsgOpt : option Z; Uu_RegisterType : option Z }.
Record AddUserAccountReq := mkAddUserAccountReq {
  Au_Ip : string; Au_DeviceID : string; Au_Platform : Z; Au_User : option RegisterUserInfo }.

(** *** Checks (pkg/proto/chat/chat.go) *)

Definition require (b : bool) (text : string) (k : () + error) : () + error :=
  if b then inr (Wrap ErrArgs text) else k.

(** A phone number, or an address of mail. *)
Definition contact_Check (email areaCode phoneNumber : string) (k : () + error) : () + error :=
  if bool_decide (email = "") then
    require (bool_decide (areaCode = "")) "AreaCode is empty" (
    match AreaCodeCheck areaCode with inr e => inr e | inl _ =>
      require (bool_decide (phoneNumber = "")) "PhoneNumber is empty" (
      match PhoneNumberCheck phoneNumber with inr e => inr e | inl _ => k end) end)
  else match EmailCheck email with inr e => inr e | inl _ => k end.
Definition platform_bad (p : Z) : bool := (p <? IOSPlatformID) || (AdminPlatformID <? p).

Definition UpdateUserInfoReq_Check (x : UpdateUserInfoReq) : () + error :=
  require (bool_decide (Uu_UserID x = "")) "userID is empty" (
  match Uu_Email x with
  | Some email => if negb (bool_decide (email = "")) then EmailCheck email else inl ()
  | None => inl ()
  end).
Definition SendVerifyCodeReq_Check (x : SendVerifyCodeReq) : () + error :=
  require ((Svc_UsedFor x <? VerificationCodeForRegister) || (VerificationCodeForLogin <? Svc_UsedFor x))
    "usedFor flied is empty" (contact_Check (Svc_Email x) (Svc_AreaCode x) (Svc_PhoneNumber x) (inl ())).
Definition VerifyCodeReq_Check (x : VerifyCodeReq) : () + error :=
  contact_Check (Vcr_Email x) (Vcr_AreaCode x) (Vcr_PhoneNumber x) (
  require (bool_decide (Vcr_VerifyCode x = "")) "VerifyCode is empty" (inl ())).
Definition RegisterUserReq_Check (x : RegisterUserReq) : () + error :=
  require (platform_bad (Rr_Platform x)) "platform is invalid" (
  match Rr_User x with
  | None => inr (Wrap ErrArgs "user is empty")
  | Some u => contact_Check (Ru_Email u) (Ru_AreaCode u) (Ru_PhoneNumber u) (inl ())
  end).
Definition LoginReq_Check (x : LoginReq) : () + error :=
  require (platform_bad (Lg_Platform x)) "platform is invalid" (
  contact_Check (Lg_Email x) (Lg_AreaCode x) (Lg_PhoneNumber x) (inl ())).
Definition ResetPasswordReq_Check (x : ResetPasswordReq) : () + error :=
  require (bool_decide (Rp_Password x = "")) "password is empty" (
  contact_Check (Rp_Email x) (Rp_AreaCode x) (Rp_PhoneNumber x) (
  require (bool_decide (Rp_AuthCode x = "") && bool_decide (Rp_VerifyCode x = ""))
    "VerifyCode or AuthCode is required" (inl ()))).
Definition ChangePasswordReq_Check (x : ChangePasswordReq) : () + error :=
  require (bool_decide (Cp_UserID x = "")) "userID is empty" (
  require (bool_decide (Cp_CurrentPassword x = "")) "currentPassword is empty" (
  require (bool_decide (Cp_NewPassword x = "")) "newPassword is empty" (inl ()))).
(** The area code gets its plus in the request itself. *)
Definition AddUserAccountReq_Check (x : AddUserAccountReq) : AddUserAccountReq * (() + error) :=
  match Au_User x with
  | None => (x, inr (Wrap ErrArgs "user is empty"))
  | Some u =>
      if bool_decide (Ru_Email u = "") then
        match (if bool_decide (Ru_PhoneNumber u = "") then None else plus_area (Ru_AreaCode u)) with
        | None => (x, inr (Wrap ErrArgs "area code or phone number is empty"))
        | Some (areaCode, digits) =>
            (mkAddUserAccountReq (Au_Ip x) (Au_DeviceID x) (Au_Platform x) (Some (
               mkRegisterUserInfo (Ru_UserID u) (Ru_Nickname u) (Ru_FaceURL u) (Ru_Birth u) (Ru_Gender u) areaCode
                 (Ru_PhoneNumber u) (Ru_Email u) (Ru_Account u) (Ru_Password u) (Ru_RegisterType u))),
             match ParseUint digits, ParseUint (Ru_PhoneNumber u) with
             | None, _ => inr (Wrap ErrArgs "area code must be number")
             | _, None => inr (Wrap ErrArgs "phone number must be number")
             | _, _ => inl ()
             end)
        end
      else match EmailCheck (Ru_Email u) with
           | inr _ => (x, inr (Wrap ErrArgs "email must be right"))
           | inl _ => (x, inl ())
           end
  end.

(** ** Storage *)

(** What is sent to a user beside the databases (pkg/sms, pkg/email). *)
Inductive ChatEffect :=
  | SMS_SendCode (areaCode phoneNumber verifyCode : string)
  | Mail_SendMail (mail verifyCode : string).

Class ChatEngine := {
  AccT : Type; RegT : Type; AttT : Type; CodT : Type; RecT : Type;
  IpT : Type; BlkT : Type; LimT : Type; InvT : Type; CfgT : Type; TokT : Type; RandT : Type;
  accounts_table :: Table AccT string Account;
  registers_table :: Table RegT string Register;
  attributes_table :: Table AttT string Attribute;
  verify_codes_table :: Table CodT Z VerifyCodeRow;
  ip_forbiddens_table :: Table IpT string IPForbidden;
  forbidden_accounts_table :: Table BlkT string ForbiddenAccount;
  limit_ips_table :: Table LimT (string * string) LimitUserLoginIP;
  invitations_table :: Table InvT string InvitationRegister;
  configs_table :: Table CfgT string ClientConfig;
  (** The id that the next row gets; [Where(p).Order("id DESC").Take]. *)
  next_code_id : CodT → Z;
  sql_TakeLast : (VerifyCodeRow → bool) → CodT → VerifyCodeRow + error;
  (** A table without a primary key. *)
  login_records : RecT → list UserLoginRecord;
  record_Create : UserLoginRecord → RecT → (() + error) * RecT;
  chat_redis :: Redis TokT;
  (** [math/rand.Read] of so many bytes *)
  rand_Read : nat → RandT → list Z * RandT;
  (** Whether a transaction can begin on, or commit, some tables. *)
  chat_Begin : ∀ {T : Type}, T → option error;
  chat_Commit : ∀ {T : Type}, T → option error;
}.

Class ChatEngineLaws `{ChatEngine} : Prop := {
  accounts_laws :: TableLaws AccT string Account;
  registers_laws :: TableLaws RegT string Register;
  attributes_laws :: TableLaws AttT string Attribute;
  verify_codes_laws :: TableLaws CodT Z VerifyCodeRow;
  ip_forbiddens_laws :: TableLaws IpT string IPForbidden;
  forbidden_accounts_laws :: TableLaws BlkT string ForbiddenAccount;
  limit_ips_laws :: TableLaws LimT (string * string) LimitUserLoginIP;
  invitations_laws :: TableLaws InvT string InvitationRegister;
  configs_laws :: TableLaws CfgT string ClientConfig;
  accounts_key : table_key (T:=AccT) = Acc_UserID;
  registers_key : table_key (T:=RegT) = Rg_UserID;
  attributes_key : table_key (T:=AttT) = At_UserID;
  verify_codes_key : table_key (T:=CodT) = Vc_ID;
  ip_forbiddens_key : table_key (T:=IpT) = Ip_IP;
  forbidden_accounts_key : table_key (T:=BlkT) = Fa_UserID;
  limit_ips_key : table_key (T:=LimT) = limit_key;
  invitations_key : table_key (T:=InvT) = Inv_Code;
  configs_key : table_key (T:=CfgT) = Cc_Key;
  TakeLast_ok p t c : sql_TakeLast p t = inl c → p c = true ∧ rows t !! Vc_ID c = Some c ∧
    ∀ i c', rows t !! i = Some c' → p c' = true → i ≤ Vc_ID c;
  TakeLast_err p t e : sql_TakeLast p t = inr e →
    (e = Bare GormNotFound ∧ ∀ i c, rows t !! i = Some c → p c = false) ∨ external e;
  next_code_id_new t i c : rows t !! i = Some c → i < next_code_id t;
  record_Create_ok r t t' : record_Create r t = (inl (), t') → login_records t' = login_records t ++ [r];
  record_Create_err r t e t' : record_Create r t = (inr e, t') → external e ∧ login_records t' = login_records t;
  chat_redis_laws :: RedisLaws TokT;
  rand_Read_bytes n s : length (rand_Read n s).1 = n ∧ Forall (λ b, 0 ≤ b < 256) (rand_Read n s).1;
  chat_Begin_err {T} (t : T) e : chat_Begin t = Some e → external e;
  chat_Commit_err {T} (t : T) e : chat_Commit t = Some e → external e;
}.

Record ChatWorld `{ChatEngine} := mkChatWorld {
  ac_accounts : AccT; ac_registers : RegT; ac_attributes : AttT; ac_codes : CodT; ac_records : RecT;
  ac_ips : IpT; ac_blocks : BlkT; ac_limits : LimT; ac_invitations : InvT; ac_configs : CfgT;
  ac_tokens : TokT; ac_rand : RandT; ac_sent : list ChatEffect }.
Arguments mkChatWorld {_} _ _ _ _ _ _ _ _ _ _ _ _ _.
Arguments ac_accounts {_} _.
Arguments ac_registers {_} _.
Arguments ac_attributes {_} _.
Arguments ac_codes {_} _.
Arguments ac_records {_} _.
Arguments ac_ips {_} _.
Arguments ac_blocks {_} _.
Arguments ac_limits {_} _.
Arguments ac_invitations {_} _.
Arguments ac_configs {_} _.
Arguments ac_tokens {_} _.
Arguments ac_rand {_} _.
Arguments ac_sent {_} _.

Section Statements.
Context `{ChatEngine}.
Abbreviation W := ChatWorld.

Definition put_accounts (x : AccT) (w : W) : W :=
  mkChatWorld x (ac_registers w) (ac_attributes w) (ac_codes w) (ac_records w) (ac_ips w) (ac_blocks w) (ac_limits w) (ac_invitations w) (ac_configs w) (ac_tokens w) (ac_rand w) (ac_sent w).
Definition put_registers (x : RegT) (w : W) : W :=
  mkChatWorld (ac_accounts w) x (ac_attributes w) (ac_codes w) (ac_records w) (ac_ips w) (ac_blocks w) (ac_limits w) (ac_invitations w) (ac_configs w) (ac_tokens w) (ac_rand w) (ac_sent w).
Definition put_attributes (x : AttT) (w : W) : W :=
  mkChatWorld (ac_accounts w) (ac_registers w) x (ac_codes w) (ac_records w) (ac_ips w) (ac_blocks w) (ac_limits w) (ac_invitations w) (ac_configs w) (ac_tokens w) (ac_rand w) (ac_sent w).
Definition put_codes (x : CodT) (w : W) : W :=
  mkChatWorld (ac_accounts w) (ac_registers w) (ac_attributes w) x (ac_records w) (ac_ips w) (ac_blocks w) (ac_limits w) (ac_invitations w) (ac_configs w) (ac_tokens w) (ac_rand w) (ac_sent w).
Definition put_records (x : RecT) (w : W) : W :=
  mkChatWorld (ac_accounts w) (ac_registers w) (ac_attributes w) (ac_codes w) x (ac_ips w) (ac_blocks w) (ac_limits w) (ac_invitations w) (ac_configs w) (ac_tokens w) (ac_rand w) (ac_sent w).
Definition put_ips (x : IpT) (w : W) : W :=
  mkChatWorld (ac_accounts w) (ac_registers w) (ac_attributes w) (ac_codes w) (ac_records w) x (ac_blocks w) (ac_limits w) (ac_invitations w) (ac_configs w) (ac_tokens w) (ac_rand w) (ac_sent w).
Definition put_blocks (x : BlkT) (w : W) : W :=
  mkChatWorld (ac_accounts w) (ac_registers w) (ac_attributes w) (ac_codes w) (ac_records w) (ac_ips w) x (ac_limits w) (ac_invitations w) (ac_configs w) (ac_tokens w) (ac_rand w) (ac_sent w).
Definition put_limits (x : LimT) (w : W) : W :=
  mkChatWorld (ac_accounts w) (ac_registers w) (ac_attributes w) (ac_codes w) (ac_records w) (ac_ips w) (ac_blocks w) x (ac_invitations w) (ac_configs w) (ac_tokens w) (ac_rand w) (ac_sent w).
Definition put_invitations (x : InvT) (w : W) : W :=
  mkChatWorld (ac_accounts w) (ac_registers w) (ac_attributes w) (ac_codes w) (ac_records w) (ac_ips w) (ac_blocks w) (ac_limits w) x (ac_configs w) (ac_tokens w) (ac_rand w) (ac_sent w).
Definition put_configs (x : CfgT) (w : W) : W :=
  mkChatWorld (ac_accounts w) (ac_registers w) (ac_attributes w) (ac_codes w) (ac_records w) (ac_ips w) (ac_blocks w) (ac_limits w) (ac_invitations w) x (ac_tokens w) (ac_rand w) (ac_sent w).
Definition put_tokens (x : TokT) (w : W) : W :=
  mkChatWorld (ac_accounts w) (ac_registers w) (ac_attributes w) (ac_codes w) (ac_records w) (ac_ips w) (ac_blocks w) (ac_limits w) (ac_invitations w) (ac_configs w) x (ac_rand w) (ac_sent w).
Definition put_rand (x : RandT) (w : W) : W :=
  mkChatWorld (ac_accounts w) (ac_registers w) (ac_attributes w) (ac_codes w) (ac_records w) (ac_ips w) (ac_blocks w) (ac_limits w) (ac_invitations w) (ac_configs w) (ac_tokens w) x (ac_sent w).
Definition put_sent (x : list ChatEffect) (w : W) : W :=
  mkChatWorld (ac_accounts w) (ac_registers w) (ac_attributes w) (ac_codes w) (ac_records w) (ac_ips w) (ac_blocks w) (ac_limits w) (ac_invitations w) (ac_configs w) (ac_tokens w) (ac_rand w) x.

Definition on_accounts {A} (m : M AccT A) : M W A := zoom ac_accounts put_accounts m.
Definition on_registers {A} (m : M RegT A) : M W A := zoom ac_registers put_registers m.
Definition on_attributes {A} (m : M AttT A) : M W A := zoom ac_attributes put_attributes m.
Definition on_codes {A} (m : M CodT A) : M W A := zoom ac_codes put_codes m.
Definition on_records {A} (m : M RecT A) : M W A := zoom ac_records put_records m.
Definition on_ips {A} (m : M IpT A) : M W A := zoom ac_ips put_ips m.
Definition on_blocks {A} (m : M BlkT A) : M W A := zoom ac_blocks put_blocks m.
Definition on_limits {A} (m : M LimT A) : M W A := zoom ac_limits put_limits m.
Definition on_invitations {A} (m : M InvT A) : M W A := zoom ac_invitations put_invitations m.
Definition on_configs {A} (m : M CfgT A) : M W A := zoom ac_configs put_configs m.
Definition on_tokens {A} (m : M TokT A) : M W A := zoom ac_tokens put_tokens m.
Definition on_rand {A} (m : M RandT A) : M W A := zoom ac_rand put_rand m.
Definition on_sent {A} (m : M (list ChatEffect) A) : M W A := zoom ac_sent put_sent m.

(** ** pkg/common/db/model/chat *)

Definition VerifyCode_with_id (i : Z) (c : VerifyCodeRow) : VerifyCodeRow :=
  mkVerifyCodeRow i (Vc_Account c) (Vc_Platform c) (Vc_Code c) (Vc_Duration c) (Vc_Count c) (Vc_Used c) (Vc_CreateTime c).
Definition code_of (account : string) (c : VerifyCodeRow) : bool := bool_decide (Vc_Account c = account).
Definition code_has_id (id : Z) (c : VerifyCodeRow) : bool := Vc_ID c =? id.

(** New rows get the next ids. *)
Definition VerifyCode_Add (ms : list VerifyCodeRow) : M CodT () :=
  wrap_error (stmt (λ t, sql_Create (imap (λ k, VerifyCode_with_id (next_code_id t + Z.of_nat k)) ms) t)).
(** The count is a [uint32]. *)
Definition VerifyCode_RangeNum (account : string) (start end_ : Z) : M CodT Z :=
  cs ← wrap_error (stmt (query (sql_Find (λ c, code_of account c && (start <=? Vc_CreateTime c) && (Vc_CreateTime c <=? end_)))));
  mret (len cs `mod` 2 ^ 32).
Definition VerifyCode_TakeLast (account : string) : M CodT VerifyCodeRow :=
  wrap_error (stmt (query (sql_TakeLast (code_of account)))).
Definition VerifyCode_incr (c : VerifyCodeRow) : VerifyCodeRow :=
  mkVerifyCodeRow (Vc_ID c) (Vc_Account c) (Vc_Platform c) (Vc_Code c) (Vc_Duration c) (Vc_Count c + 1) (Vc_Used c) (Vc_CreateTime c).
Definition VerifyCode_Incr (id : Z) : M CodT () :=
  wrap_error (_ ← stmt (sql_Updates (code_has_id id) VerifyCode_incr); mret ()).
Definition VerifyCode_Delete (id : Z) : M CodT () := wrap_error (stmt (sql_Delete (code_has_id id))).

Definition account_of (userId : string) (a : Account) : bool := bool_decide (Acc_UserID a = userId).
Definition Account_set_password (now : Z) (password : string) (a : Account) : Account :=
  mkAccount (Acc_UserID a) password (Acc_CreateTime a) now (Acc_OperatorUserID a).
Definition Account_Create (accounts : list Account) : M AccT () := wrap_error (stmt (sql_Create accounts)).
Definition Account_Take (userId : string) : M AccT Account := wrap_error (stmt (query (sql_Take (account_of userId)))).
Definition Account_UpdatePassword (now : Z) (userId password : string) : M AccT () :=
  wrap_error (_ ← stmt (sql_Updates (account_of userId) (Account_set_password now password)); mret ()).

Definition Register_Create (registers : list Register) : M RegT () := wrap_error (stmt (sql_Create registers)).

Definition attribute_of (userID : string) (a : Attribute) : bool := bool_decide (At_UserID a = userID).
Definition has_phone (areaCode phoneNumber : string) (a : Attribute) : bool :=
  bool_decide (At_AreaCode a = areaCode) && bool_decide (At_PhoneNumber a = phoneNumber).
Definition has_email (email : string) (a : Attribute) : bool := bool_decide (At_Email a = email).
Definition has_account (account : string) (a : Attribute) : bool := bool_decide (At_Account a = account).
Definition Attribute_Create (attributes : list Attribute) : M AttT () :=
  wrap_error (stmt (sql_Create (auto_attribute <$> attributes))).
Definition Attribute_Update (userID : string) (data : list attribute_column) : M AttT () :=
  wrap_error (_ ← stmt (sql_Updates (attribute_of userID) (set_attribute_columns data)); mret ()).
Definition Attribute_Find (userIds : list string) : M AttT (list Attribute) :=
  wrap_error (stmt (query (sql_Find (λ a, bool_decide (At_UserID a ∈ userIds))))).
Definition Attribute_FindAccount (accounts : list string) : M AttT (list Attribute) :=
  wrap_error (stmt (query (sql_Find (λ a, bool_decide (At_Account a ∈ accounts))))).
(** [First]: the engine's choice among the rows is not used. *)
Definition Attribute_TakePhone (areaCode phoneNumber : string) : M AttT Attribute :=
  wrap_error (stmt (query (sql_Take (has_phone areaCode phoneNumber)))).
Definition Attribute_TakeEmail (email : string) : M AttT Attribute := wrap_error (stmt (query (sql_Take (has_email email)))).
Definition Attribute_TakeAccount (account : string) : M AttT Attribute := wrap_error (stmt (query (sql_Take (has_account account)))).
Definition Attribute_Take (userID : string) : M AttT Attribute := wrap_error (stmt (query (sql_Take (attribute_of userID)))).

Definition UserLoginRecord_Create (record : UserLoginRecord) : M RecT () := stmt (record_Create record).

(** ** pkg/common/db/model/admin *)

Definition IPForbidden_Find (ips : list string) : M IpT (list IPForbidden) :=
  wrap_error (stmt (query (sql_Find (λ i, bool_decide (Ip_IP i ∈ ips))))).
Definition IPForbidden_Create (ms : list IPForbidden) : M IpT () := wrap_error (stmt (sql_Create ms)).
Definition IPForbidden_Delete (ips : list string) : M IpT () := wrap_error (stmt (sql_Delete (λ i, bool_decide (Ip_IP i ∈ ips)))).

Definition blocked (userID : string) (f : ForbiddenAccount) : bool := bool_decide (Fa_UserID f = userID).
Definition ForbiddenAccount_Create (ms : list ForbiddenAccount) : M BlkT () := wrap_error (stmt (sql_Create ms)).
Definition ForbiddenAccount_Take (userID : string) : M BlkT ForbiddenAccount := wrap_error (stmt (query (sql_Take (blocked userID)))).
Definition ForbiddenAccount_Delete (userIDs : list string) : M BlkT () :=
  wrap_error (stmt (sql_Delete (λ f, bool_decide (Fa_UserID f ∈ userIDs)))).
Definition ForbiddenAccount_Find (userIDs : list string) : M BlkT (list ForbiddenAccount) :=
  wrap_error (stmt (query (sql_Find (λ f, bool_decide (Fa_UserID f ∈ userIDs))))).

Definition LimitUserLoginIP_Create (ms : list LimitUserLoginIP) : M LimT () := wrap_error (stmt (sql_Create ms)).
(** The rows are told by their keys. *)
Definition LimitUserLoginIP_Delete (ms : list LimitUserLoginIP) : M LimT () :=
  wrap_error (stmt (sql_Delete (λ l, bool_decide (limit_key l ∈ (limit_key <$> ms))))).
Definition LimitUserLoginIP_Count (userID : string) : M LimT Z :=
  ls ← wrap_error (stmt (query (sql_Find (λ l, bool_decide (Li_UserID l = userID)))));
  mret (len ls `mod` 2 ^ 32).
Definition LimitUserLoginIP_Take (userID ip : string) : M LimT LimitUserLoginIP :=
  wrap_error (stmt (query (sql_Take (λ l, bool_decide (Li_UserID l = userID) && bool_decide (Li_IP l = ip))))).

Definition invitation_is (code : string) (i : InvitationRegister) : bool := bool_decide (Inv_Code i = code).
Definition InvitationRegister_Find (codes : list string) : M InvT (list InvitationRegister) :=
  wrap_error (stmt (query (sql_Find (λ i, bool_decide (Inv_Code i ∈ codes))))).
Definition InvitationRegister_Del (codes : list string) : M InvT () :=
  wrap_error (stmt (sql_Delete (λ i, bool_decide (Inv_Code i ∈ codes)))).
Definition InvitationRegister_Create (v : list InvitationRegister) : M InvT () := wrap_error (stmt (sql_Create v)).
Definition InvitationRegister_Update (code : string) (data : invitation_column) : M InvT () :=
  wrap_error (_ ← stmt (sql_Updates (invitation_is code) (set_invitation_column data)); mret ()).

Definition config_is (key : string) (c : ClientConfig) : bool := bool_decide (Cc_Key c = key).
Definition set_config_value (value : string) (c : ClientConfig) : ClientConfig := mkClientConfig (Cc_Key c) value.
(** A setting that is there is not written again. *)
Definition set_one (key value : string) : M CfgT () :=
  r ← try (stmt (query (sql_Take (config_is key))));
  match r with
  | inl cc =>
      if bool_decide (Cc_Value cc = value) then mret ()
      else _ ← stmt (sql_Updates (config_is key) (set_config_value value)); mret ()
  | inr e =>
      if bool_decide (e = Bare GormNotFound) then stmt (sql_Create [mkClientConfig key value]) else fail e
  end.
Definition ClientConfig_Set `{MapRange} (config : gmap string string) : M W () :=
  wrap_error (transaction ac_configs put_configs chat_Begin chat_Commit
    (on_fst (for_each (range config) (λ kv, set_one kv.1 kv.2)))).
Definition ClientConfig_Del (keys : list string) : M CfgT () := wrap_error (stmt (sql_Delete (λ c, bool_decide (Cc_Key c ∈ keys)))).
Definition ClientConfig_Get : M CfgT (gmap string string) :=
  cs ← stmt (query (sql_Find (λ _, true)));
  mret (foldl (λ cm config, <[Cc_Key config := Cc_Value config]> cm) ∅ cs).

(** ** pkg/common/db/cache: the tokens of the chat service *)

Definition chatToken : string := "CHAT_UID_TOKEN_STATUS:".
Definition Chat_AddTokenFlag (userID token : string) (flag : Z) : M TokT () :=
  wrap_error (run (Redis_HSet (chatToken +:+ userID) [(token, FormatInt flag)])).
Definition Chat_GetTokensWithoutError `{Tools} (userID : string) : M TokT (gmap string Z) :=
  m ← wrap_error (run (Redis_HGetAll (chatToken +:+ userID)));
  mret ((λ v, wrap32 (StringToInt64 v)) <$> m).

(** ** pkg/common/db/database/chat.go *)

(** An error that says that there is no such row. *)
Definition IsGormNotFound (e : error) : bool := bool_decide (Unwrap e = GormNotFound).

Definition GetUser (userID : string) : M W Account := on_accounts (Account_Take userID).
Definition UpdateUseInfo (userID : string) (attribute : list attribute_column) : M W () :=
  transaction ac_attributes put_attributes chat_Begin chat_Commit
    (if 0 <? len attribute then on_fst (Attribute_Update userID attribute) else mret ()).
Definition FindAttribute (userIDs : list string) : M W (list Attribute) := on_attributes (Attribute_Find userIDs).
Definition FindAttributeByAccount (accounts : list string) : M W (list Attribute) :=
  on_attributes (Attribute_FindAccount accounts).
Definition TakeAttributeByPhone (areaCode phoneNumber : string) : M W Attribute :=
  on_attributes (Attribute_TakePhone areaCode phoneNumber).
Definition TakeAttributeByEmail (email : string) : M W Attribute := on_attributes (Attribute_TakeEmail email).
Definition TakeAttributeByAccount (account : string) : M W Attribute := on_attributes (Attribute_TakeAccount account).
Definition TakeAttributeByUserID (userID : string) : M W Attribute := on_attributes (Attribute_Take userID).
Definition CountVerifyCodeRange (account : string) (start end_ : Z) : M W Z :=
  on_codes (VerifyCode_RangeNum account start end_).
(** The code is sent before the commit. *)
Definition AddVerifyCode (verifyCode : VerifyCodeRow) (fn : M W ()) : M W () :=
  transaction ac_codes put_codes chat_Begin chat_Commit
    (_ ← on_fst (VerifyCode_Add [verifyCode]); on_snd fn).
Definition UpdateVerifyCodeIncrCount (id : Z) : M W () := on_codes (VerifyCode_Incr id).
Definition TakeLastVerifyCode (account : string) : M W VerifyCodeRow := on_codes (VerifyCode_TakeLast account).
Definition DelVerifyCode (id : Z) : M W () := on_codes (VerifyCode_Delete id).

Definition get_users (w : W) : RegT * AccT * AttT := (ac_registers w, ac_accounts w, ac_attributes w).
Definition put_users (t : RegT * AccT * AttT) (w : W) : W :=
  put_registers t.1.1 (put_accounts t.1.2 (put_attributes t.2 w)).
Definition Database_RegisterUser (register : Register) (account : Account) (attribute : Attribute) : M W () :=
  transaction get_users put_users chat_Begin chat_Commit (on_fst (
    _ ← on_fst (on_fst (Register_Create [register]));
    _ ← on_fst (on_snd (Account_Create [account]));
    on_snd (Attribute_Create [attribute]))).

Definition GetAccount (userID : string) : M W Account := on_accounts (Account_Take userID).
Definition GetAttribute (userID : string) : M W Attribute := on_attributes (Attribute_Take userID).
Definition GetAttributeByAccount (account : string) : M W Attribute := on_attributes (Attribute_TakeAccount account).
Definition GetAttributeByPhone (areaCode phoneNumber : string) : M W Attribute :=
  on_attributes (Attribute_TakePhone areaCode phoneNumber).
Definition GetAttributeByEmail (email : string) : M W Attribute := on_attributes (Attribute_TakeEmail email).
(** The code is deleted beside the transaction. *)
Definition LoginRecord (record : UserLoginRecord) (verifyCodeID : option Z) : M W () :=
  transaction ac_records put_records chat_Begin chat_Commit (
    _ ← on_fst (UserLoginRecord_Create record);
    match verifyCodeID with
    | Some id => on_snd (on_codes (VerifyCode_Delete id))
    | None => mret ()
    end).
Definition UpdatePassword (now : Z) (userID password : string) : M W () :=
  on_accounts (Account_UpdatePassword now userID password).

Definition get_passwords (w : W) : AccT * CodT := (ac_accounts w, ac_codes w).
Definition put_passwords (t : AccT * CodT) (w : W) : W := put_accounts t.1 (put_codes t.2 w).
Definition UpdatePasswordAndDeleteVerifyCode (now : Z) (userID password : string) (code : Z) : M W () :=
  transaction get_passwords put_passwords chat_Begin chat_Commit (on_fst (
    _ ← on_fst (Account_UpdatePassword now userID password);
    on_snd (VerifyCode_Delete code))).

(** ** pkg/common/db/database/admin.go *)

Definition GetConfig : M W (gmap string string) := on_configs ClientConfig_Get.
Definition DelConfig (keys : list string) : M W () := on_configs (ClientConfig_Del keys).
Definition FindInvitationRegister (codes : list string) : M W (list InvitationRegister) :=
  on_invitations (InvitationRegister_Find codes).
Definition DelInvitationRegister (codes : list string) : M W () := on_invitations (InvitationRegister_Del codes).
Definition UpdateInvitationRegister (code : string) (field : invitation_column) : M W () :=
  on_invitations (InvitationRegister_Update code field).
Definition CreatInvitationRegister (invitationRegisters : list InvitationRegister) : M W () :=
  on_invitations (InvitationRegister_Create invitationRegisters).
Definition Database_AddIPForbidden (ms : list IPForbidden) : M W () := on_ips (IPForbidden_Create ms).
Definition FindIPForbidden (ms : list string) : M W (list IPForbidden) := on_ips (IPForbidden_Find ms).
Definition Database_DelIPForbidden (ips : list string) : M W () := on_ips (IPForbidden_Delete ips).
Definition FindBlockInfo (userIDs : list string) : M W (list ForbiddenAccount) := on_blocks (ForbiddenAccount_Find userIDs).
Definition GetBlockInfo (userID : string) : M W ForbiddenAccount := on_blocks (ForbiddenAccount_Take userID).
Definition Database_BlockUser (f : list ForbiddenAccount) : M W () := on_blocks (ForbiddenAccount_Create f).
Definition DelBlockUser (userID : list string) : M W () := on_blocks (ForbiddenAccount_Delete userID).
Definition FindBlockUser (userIDs : list string) : M W (list ForbiddenAccount) := on_blocks (ForbiddenAccount_Find userIDs).
Definition AddUserLimitLogin (ms : list LimitUserLoginIP) : M W () := on_limits (LimitUserLoginIP_Create ms).
Definition DelUserLimitLogin (ms : list LimitUserLoginIP) : M W () := on_limits (LimitUserLoginIP_Delete ms).
Definition CountLimitUserLoginIP (userID : string) : M W Z := on_limits (LimitUserLoginIP_Count userID).
Definition GetLimitUserLoginIP (userID ip : string) : M W LimitUserLoginIP := on_limits (LimitUserLoginIP_Take userID ip).
Definition CacheToken (userID token : string) : M W () := on_tokens (Chat_AddTokenFlag userID token NormalToken).
Definition GetTokens `{Tools} (userID : string) : M W (gmap string Z) := on_tokens (Chat_GetTokensWithoutError userID).
End Statements.
