(* ===== verification/ChatServer.v ===== *)
(** * The chat and administration services (chat-enterprise/internal/rpc)

    Registration with verification codes and invitations, log-in, passwords and the
    data of users (rpc/chat/login.go, password.go, user.go, update.go, utils.go,
    callback.go), and what the administration service decides for them: addresses
    and users that are shut out, invitations, settings, tokens (rpc/admin/check.go,
    ip_forbidden.go, user_ip_limit_login.go, invitation.go, client_config.go,
    token.go, user.go; pkg/common/tokenverify).  The two services call each other
    (pkg/rpclient/chat); a call is that of the other's handler. *)

From Stdlib Require Import Ascii.
From S2P Require Import Prelude.
From S2P Require Import Constants.
From S2P Require Import MsgTypes.
From S2P Require Import MsgProcessor.
From S2P Require Import MsgDoc.
From S2P Require Import Tools.
From S2P Require Import Redis.
From S2P Require Import Sql.
From S2P Require Import RowCache.
From S2P Require Import GroupNotification.
From S2P Require Import FriendTypes.
From S2P Require Import ChatAccounts.
From stdpp Require Import options.
#[local] Set Default Proof Using "Type*".

#[local] Open Scope Z_scope.

(** ** Configuration and tokens *)

Record ChatConfig := mkChatConfig {
  cfg_AdminList : list string; cfg_ValidTime : Z; cfg_UintTime : Z; cfg_MaxCount : Z; cfg_SuperCode : string;
  cfg_Len : Z; cfg_Use : string; cfg_TokenExpire : Z }.

Record ChatClaims := mkChatClaims {
  Cl_UserID : string; Cl_UserType : Z; Cl_PlatformID : Z; Cl_ExpiresAt : Z; Cl_IssuedAt : Z; Cl_NotBefore : Z }.
(** What the bits of a [jwt.ValidationError] say: malformed, expired, not valid yet. *)
Record JwtErrors := mkJwtErrors { Jwt_Malformed : bool; Jwt_Expired : bool; Jwt_NotValidYet : bool }.
Class ChatJwt := {
  (** [jwt.NewWithClaims(HS256, claims).SignedString(secret)] *)
  SignedString : ChatClaims → string + error;
  (** [jwt.ParseWithClaims] at a time: the claims and whether the token is valid, or
      an error, of validation or not. *)
  ParseWithClaims : Z → string → (ChatClaims * bool) + option JwtErrors;
}.
(** A token has its times in whole seconds. *)
Class ChatJwtLaws `{ChatJwt} : Prop := {
  Parse_Signed c tok now : SignedString c = inl tok → Cl_NotBefore c ≤ Cl_IssuedAt c ≤ now → now + 1000 ≤ Cl_ExpiresAt c →
    ParseWithClaims now tok = inl (c, true);
}.

(** The library's times are nanoseconds of 64 bits. *)
Definition duration_ms (ns : Z) : Z := Z.quot ns 1000000.
Definition buildClaims (now : Z) (userID : string) (userType ttl : Z) : ChatClaims :=
  mkChatClaims userID userType 0 (now + duration_ms (mul64 (mul64 ttl 24) 3600000000000)) now (now - 5 * 60000).

Section TokenVerify.
Context `{ChatJwt}.
Definition tokenverify_CreateToken (now : Z) (UserID : string) (userType ttl : Z) : string + error :=
  if negb ((userType =? NormalUser) || (userType =? AdminUser)) then inr (Wrap ErrTokenUnknown "token type unknown")
  else match SignedString (buildClaims now UserID userType ttl) with
       | inr e => inr (WrapErr "" e)
       | inl tokenString => inl tokenString
       end.
Definition tokenverify_getToken (now : Z) (t : string) : (string * Z) + error :=
  match ParseWithClaims now t with
  | inr (Some ve) =>
      inr (if Jwt_Malformed ve then Wrap ErrTokenMalformed ""
           else if Jwt_Expired ve then Wrap ErrTokenExpired ""
           else if Jwt_NotValidYet ve then Wrap ErrTokenNotValidYet ""
           else Wrap ErrTokenUnknown "")
  | inr None => inr (Wrap ErrTokenNotValidYet "")
  | inl (claims, valid) =>
      if negb (Cl_PlatformID claims =? 0) then inr (Wrap ErrTokenNotExist "")
      else if valid then inl (Cl_UserID claims, Cl_UserType claims)
      else inr (Wrap ErrTokenNotValidYet "")
  end.
Definition tokenverify_GetToken (now : Z) (token : string) : (string * Z) + error :=
  match tokenverify_getToken now token with
  | inr e => inr e
  | inl (userID, userType) =>
      if negb ((userType =? NormalUser) || (userType =? AdminUser)) then inr (Wrap ErrTokenUnknown "token type unknown")
      else inl (userID, userType)
  end.
Definition GetAdminToken (now : Z) (token : string) : string + error :=
  match tokenverify_getToken now token with
  | inr e => inr e
  | inl (userID, userType) =>
      if negb (userType =? AdminUser) then inr (Wrap ErrTokenInvalid "token type error") else inl userID
  end.
Definition tokenverify_GetUserToken (now : Z) (token : string) : string + error :=
  match tokenverify_getToken now token with
  | inr e => inr e
  | inl (userID, userType) =>
      if negb (userType =? NormalUser) then inr (Wrap ErrTokenInvalid "token type error") else inl userID
  end.
End TokenVerify.

(** ** Answers *)

Record UserPublicInfo := mkUserPublicInfo {
  Up_UserID : string; Up_Account : string; Up_Email : string; Up_Nickname : string; Up_FaceURL : string;
  Up_Gender : Z; Up_Level : Z }.
Record UserFullInfo := mkUserFullInfo {
  Uf_UserID : string; Uf_Password : string; Uf_Account : string; Uf_PhoneNumber : string; Uf_AreaCode : string;
  Uf_Email : string; Uf_Nickname : string; Uf_FaceURL : string; Uf_Gender : Z; Uf_Level : Z; Uf_Birth : Z;
  Uf_AllowAddFriend : Z; Uf_AllowBeep : Z; Uf_AllowVibration : Z; Uf_GlobalRecvMsgOpt : Z; Uf_RegisterType : Z }.
Record InvitationInfo := mkInvitationInfo {
  Ii_InvitationCode : string; Ii_CreateTime : Z; Ii_UsedUserID : string; Ii_UsedUser : option UserPublicInfo;
  Ii_AllowResetPassword : Z }.
Record BlockInfo := mkBlockInfo { Bi_UserID : string; Bi_Reason : string; Bi_OpUserID : string; Bi_CreateTime : Z }.
Record GenInvitationCodeReq := mkGenInvitationCodeReq { Gi_Len : Z; Gi_Num : Z; Gi_Chars : string }.

Definition DbToPbAttribute (a : Attribute) : UserPublicInfo :=
  mkUserPublicInfo (At_UserID a) (At_Account a) (At_Email a) (At_Nickname a) (At_FaceURL a) (At_Gender a) (At_Level a).
Definition DbToPbAttributes (attributes : list Attribute) : list UserPublicInfo := DbToPbAttribute <$> attributes.
Definition DbToPbUserFullInfo (a : Attribute) : UserFullInfo :=
  mkUserFullInfo (At_UserID a) "" (At_Account a) (At_PhoneNumber a) (At_AreaCode a) (At_Email a) (At_Nickname a)
    (At_FaceURL a) (At_Gender a) (At_Level a) (At_BirthTime a) (At_AllowAddFriend a) (At_AllowBeep a)
    (At_AllowVibration a) (At_GlobalRecvMsgOpt a) (At_RegisterType a).
Definition DbToPbUserFullInfos (attributes : list Attribute) : list UserFullInfo := DbToPbUserFullInfo <$> attributes.

(** [strings.ToLower], which is compared with ASCII words: other letters are left. *)
Definition ascii_lower (c : ascii) : ascii :=
  if ascii_in "A" "Z" c then ascii_of_nat (nat_of_ascii c + 32) else c.
Fixpoint strings_ToLower (s : string) : string :=
  match s with EmptyString => EmptyString | String c s' => String (ascii_lower c) (strings_ToLower s') end.

(** The digit that a random byte selects, from the [n] digits after [first]. *)
Definition digit_char (first n b : Z) : ascii := ascii_of_nat (Z.to_nat (48 + first + b `mod` n)).

Section ChatServer.
Context `{ChatEngine} `{Tools} `{MsgTools} `{MapRange} `{ChatJwt}.
Abbreviation W := ChatWorld.
Context (config : ChatConfig) (now : Z).
(** Whether a text message or a mail could be sent. *)
Context (answers : list ChatEffect → ChatEffect → option error).
(** [json.Unmarshal] of a callback: its [ToUserID]. *)
Context (Unmarshal_ToUserID : string → string + error).

(** ** Public data of users (rpc/chat/user.go), as the administration asks for it *)

Definition FindUserPublicInfo (UserIDs : list string) : M W (list UserPublicInfo) :=
  _ ← guard (len UserIDs =? 0) (Wrap ErrArgs "UserIDs is empty");
  attributes ← FindAttribute UserIDs;
  mret (DbToPbAttributes attributes).
Definition FindUserFullInfo (ctx : Ctx) (UserIDs : list string) : M W (list UserFullInfo) :=
  _ ← lift (mctx_Check ctx);
  _ ← guard (len UserIDs =? 0) (Wrap ErrArgs "UserIDs is empty");
  attributes ← FindAttribute UserIDs;
  mret (DbToPbUserFullInfos attributes).

(** pkg/rpclient/chat/chat.go *)
Definition ChatClient_FindUserPublicInfo (userIDs : list string) : M W (list UserPublicInfo) :=
  if len userIDs =? 0 then mret [] else FindUserPublicInfo userIDs.
Definition MapUserPublicInfo (userIDs : list string) : M W (gmap string UserPublicInfo) :=
  users ← ChatClient_FindUserPublicInfo userIDs;
  mret (SliceToMap Up_UserID users).
Definition ChatClient_FindUserFullInfo (ctx : Ctx) (userIDs : list string) : M W (list UserFullInfo) :=
  if len userIDs =? 0 then mret [] else FindUserFullInfo ctx userIDs.
Definition GetUserFullInfo (ctx : Ctx) (userID : string) : M W UserFullInfo :=
  users ← ChatClient_FindUserFullInfo ctx [userID];
  match users with
  | [] => fail (Wrap ErrUserIDNotFound "")
  | user :: _ => mret user
  end.

(** ** The administration service *)

(** *** check.go *)

Definition CheckRegisterForbidden (ip : string) : M W () :=
  forbiddens ← FindIPForbidden [ip];
  for_each forbiddens (λ forbidden, guard (Ip_LimitRegister forbidden) (Wrap ErrForbidden "")).

(** A user with addresses may only log in from one of them. *)
Definition check_limit_ip (userID ip : string) : M W () :=
  r ← try (GetLimitUserLoginIP userID ip);
  match r with
  | inl _ => mret ()
  | inr e =>
      if negb (IsGormNotFound e) then fail e
      else count ← CountLimitUserLoginIP userID;
           guard (0 <? count) (Wrap ErrForbidden "user ip forbidden")
  end.
Definition CheckLoginForbidden (userID ip : string) : M W () :=
  forbiddens ← FindIPForbidden [ip];
  _ ← for_each forbiddens (λ forbidden, guard (Ip_LimitLogin forbidden) (Wrap ErrForbidden "ip forbidden"));
  _ ← check_limit_ip userID ip;
  r ← try (GetBlockInfo userID);
  match r with
  | inl forbiddenAccount => fail (Wrap ErrForbidden ("account forbidden: " +:+ Fa_Reason forbiddenAccount))
  | inr e => if IsGormNotFound e then mret () else fail e
  end.

(** *** client_config.go *)

Definition GetClientConfig : M W (gmap string string) := GetConfig.
Definition SetClientConfig (ctx : Ctx) (Config : gmap string string) : M W () :=
  _ ← lift (mctx_CheckAdmin ctx);
  _ ← guard (bool_decide (Config = ∅)) (Wrap ErrArgs "update config empty");
  ClientConfig_Set Config.
Definition DelClientConfig (ctx : Ctx) (Keys : list string) : M W () :=
  _ ← lift (mctx_CheckAdmin ctx);
  DelConfig Keys.

(** *** token.go *)

Definition CreateToken (UserID : string) (UserType : Z) : M W string :=
  token ← lift (tokenverify_CreateToken now UserID UserType (cfg_TokenExpire config));
  _ ← CacheToken UserID token;
  mret token.
Definition ParseToken (Token : string) : M W (string * Z) := lift (tokenverify_GetToken now Token).
Definition GetUserToken (UserID : string) : M W (gmap string Z) := GetTokens UserID.

(** *** invitation.go *)

Definition AddInvitationCode (ctx : Ctx) (Codes : list string) : M W () :=
  _ ← lift (mctx_CheckAdmin ctx);
  _ ← guard (len Codes =? 0) (Wrap ErrArgs "codes is empty");
  _ ← guard (Duplicate Codes) (Wrap ErrArgs "codes is duplicate");
  irs ← FindInvitationRegister Codes;
  _ ← guard (0 <? len irs) (Wrap ErrArgs ("code existed " +:+ strings_Join (Inv_Code <$> irs) ", "));
  CreatInvitationRegister ((λ code, mkInvitationRegister code "" now 0) <$> Codes).

(** A code of random characters; the number of characters is taken as a byte. *)
Definition gen_code (Len : Z) (Chars : string) : M W string :=
  buf ← on_rand (λ s, let '(bs, s') := rand_Read (Z.to_nat Len) s in (Ok bs, s'));
  let n := Z.of_nat (String.length Chars) `mod` 256 in
  if n =? 0 then panic
  else mret (String.string_of_list_ascii ((λ b, default "0"%char (String.get (Z.to_nat (b `mod` n)) Chars)) <$> buf)).
Fixpoint gen_codes (n : nat) (Len : Z) (Chars : string) : M W (list string) :=
  match n with
  | O => mret []
  | S n => code ← gen_code Len Chars; codes ← gen_codes n Len Chars; mret (code :: codes)
  end.
Definition alphanumeric : string := "0123456789abcdefghijklmnopqrstuvwxyzABCDEFGHIJKLMNOPQRSTUVWXYZ".
Definition GenInvitationCode (ctx : Ctx) (req : GenInvitationCodeReq) : M W () :=
  _ ← lift (mctx_CheckAdmin ctx);
  _ ← guard ((Gi_Num req <=? 0) || (Gi_Len req <=? 0)) (Wrap ErrArgs "num or len <= 0");
  codes ← gen_codes (Z.to_nat (Gi_Num req)) (Gi_Len req)
    (if bool_decide (Gi_Chars req = "") then alphanumeric else Gi_Chars req);
  _ ← guard (Duplicate codes) (Wrap ErrArgs "gen duplicate codes");
  irs ← FindInvitationRegister codes;
  _ ← guard (0 <? len irs) (Wrap ErrArgs (strings_Join (Single codes (Inv_Code <$> irs)) ", "));
  CreatInvitationRegister ((λ code, mkInvitationRegister code "" now 0) <$> codes).

Definition FindInvitationCode (Codes : list string) : M W (list InvitationInfo) :=
  _ ← guard (len Codes =? 0) (Wrap ErrArgs "codes is empty");
  invitationRegisters ← FindInvitationRegister Codes;
  userMap ← MapUserPublicInfo (filter (.≠ "") (Inv_UsedByUserID <$> invitationRegisters));
  mret ((λ register, mkInvitationInfo (Inv_Code register) (Inv_CreateTime register) (Inv_UsedByUserID register)
    (userMap !! Inv_UsedByUserID register) (Inv_AllowResetPassword register)) <$> invitationRegisters).

Definition UseInvitationCode (ctx : Ctx) (UserID Code : string) : M W () :=
  _ ← lift (mctx_Check ctx);
  codes ← FindInvitationRegister [Code];
  match codes with
  | [] => fail (Wrap ErrInvitationNotFound "")
  | code :: _ =>
      _ ← guard (negb (bool_decide (Inv_UsedByUserID code = ""))) (Wrap ErrInvitationCodeUsed "");
      UpdateInvitationRegister Code (icol_user_id UserID)
  end.

Definition DelInvitationCode (ctx : Ctx) (Codes : list string) : M W () :=
  _ ← lift (mctx_CheckAdmin ctx);
  _ ← guard (len Codes =? 0) (Wrap ErrArgs "codes is empty");
  _ ← guard (Duplicate Codes) (Wrap ErrArgs "codes is duplicate");
  irs ← FindInvitationRegister Codes;
  _ ← guard (negb (len irs =? len Codes))
    (Wrap ErrArgs ("code not found " +:+ strings_Join (Single Codes (Inv_Code <$> irs)) ", "));
  DelInvitationRegister Codes.

Definition SetInvitationCodeAllowResetPassword (ctx : Ctx) (Code : string) (AllowResetPassword : Z) : M W () :=
  _ ← lift (mctx_CheckAdmin ctx);
  _ ← guard (bool_decide (Code = "")) (Wrap ErrArgs "code is empty");
  codes ← FindInvitationRegister [Code];
  _ ← guard (len codes =? 0) (Wrap ErrInvitationNotFound "");
  UpdateInvitationRegister Code (icol_allow_reset_password AllowResetPassword).

Definition VerifyResetPasswordCode (ctx : Ctx) (Code AreaCode PhoneNumber : string) : M W bool :=
  _ ← guard (bool_decide (Code = "")) (Wrap ErrArgs "code is empty");
  codes ← FindInvitationRegister [Code];
  match codes with
  | [] => mret false
  | code :: _ =>
      if bool_decide (Inv_UsedByUserID code = "") then mret false
      else if negb (Inv_AllowResetPassword code =? 1) then mret false
      else if negb (bool_decide (AreaCode = "")) && negb (bool_decide (PhoneNumber = "")) then
        userInfo ← GetUserFullInfo (WithAdminUser (cfg_AdminList config) ctx) (Inv_UsedByUserID code);
        mret (bool_decide (Uf_AreaCode userInfo = AreaCode) && bool_decide (Uf_PhoneNumber userInfo = PhoneNumber))
      else mret true
  end.

(** *** ip_forbidden.go, user_ip_limit_login.go *)

(** The requests carry the rows without their times. *)
Definition AddIPForbidden (ctx : Ctx) (Forbiddens : list (string * bool * bool)) : M W () :=
  _ ← lift (mctx_CheckAdmin ctx);
  Database_AddIPForbidden ((λ '(ip, limitRegister, limitLogin), mkIPForbidden ip limitRegister limitLogin now) <$> Forbiddens).
Definition DelIPForbidden (ctx : Ctx) (Ips : list string) : M W () :=
  _ ← lift (mctx_CheckAdmin ctx);
  Database_DelIPForbidden Ips.
Definition AddUserIPLimitLogin (ctx : Ctx) (Limits : list (string * string)) : M W () :=
  _ ← lift (mctx_CheckAdmin ctx);
  _ ← guard (len Limits =? 0) (Wrap ErrArgs "limits is empty");
  AddUserLimitLogin ((λ '(userID, ip), mkLimitUserLoginIP userID ip now) <$> Limits).
Definition DelUserIPLimitLogin (ctx : Ctx) (Limits : list (string * string)) : M W () :=
  _ ← lift (mctx_CheckAdmin ctx);
  _ ← guard (len Limits =? 0) (Wrap ErrArgs "limits is empty");
  _ ← for_each Limits (λ '(userID, ip),
    guard (bool_decide (userID = "") || bool_decide (ip = "")) (Wrap ErrArgs "user_id or ip is empty"));
  DelUserLimitLogin ((λ '(userID, ip), mkLimitUserLoginIP userID ip zero_time) <$> Limits).

(** *** user.go *)

Definition BlockUser (ctx : Ctx) (UserID Reason : string) : M W () :=
  _ ← lift (mctx_CheckAdmin ctx);
  r ← try (GetBlockInfo UserID);
  match r with
  | inl _ => fail (Wrap ErrArgs "user already blocked")
  | inr e =>
      if negb (IsGormNotFound e) then fail e
      else Database_BlockUser [mkForbiddenAccount UserID Reason (mctx_GetOpUserID ctx) now]
  end.
Definition UnblockUser (ctx : Ctx) (UserIDs : list string) : M W () :=
  _ ← lift (mctx_CheckAdmin ctx);
  _ ← guard (len UserIDs =? 0) (Wrap ErrArgs "empty user id");
  _ ← guard (Duplicate UserIDs) (Wrap ErrArgs "duplicate user id");
  bs ← FindBlockInfo UserIDs;
  _ ← guard (negb (len UserIDs =? len bs))
    (Wrap ErrArgs ("user not blocked " +:+ strings_Join (Single UserIDs (Fa_UserID <$> bs)) ", "));
  DelBlockUser UserIDs.
Definition FindUserBlockInfo (ctx : Ctx) (UserIDs : list string) : M W (list BlockInfo) :=
  _ ← lift (mctx_CheckAdmin ctx);
  list_ ← FindBlockUser UserIDs;
  mret ((λ info, mkBlockInfo (Fa_UserID info) (Fa_Reason info) (Fa_OperatorUserID info) (Fa_CreateTime info)) <$> list_).

(** ** Its client in the chat service (pkg/rpclient/chat/admin.go) *)

Definition AdminClient_GetConfig : M W (gmap string string) := GetClientConfig.
Definition CheckInvitationCode (invitationCode : string) : M W () :=
  codes ← FindInvitationCode [invitationCode];
  match codes with
  | [] => fail (Wrap ErrInvitationNotFound "")
  | code :: _ => guard (negb (bool_decide (Ii_UsedUserID code = ""))) (Wrap ErrInvitationCodeUsed "")
  end.
Definition CheckRegister (ip : string) : M W () := CheckRegisterForbidden ip.
Definition CheckLogin (userID ip : string) : M W () := CheckLoginForbidden userID ip.
Definition CheckNilOrAdmin (ctx : Ctx) : bool + error :=
  if negb (HaveOpUser ctx) then inl false
  else match mctx_CheckAdmin ctx with inr e => inr e | inl _ => inl true end.
(** The address and the phone number of the request are not looked at. *)
Definition VerifyResetPasswordCodeAndGetUserID (code areaCode phoneNumber : string) : M W (bool * string) :=
  codes ← FindInvitationCode [code];
  match codes with
  | [] => mret (false, "")
  | invCode :: _ =>
      if bool_decide (Ii_UsedUserID invCode = "") then mret (false, "")
      else if negb (Ii_AllowResetPassword invCode =? 1) then mret (false, "")
      else mret (true, Ii_UsedUserID invCode)
  end.

(** ** The chat service *)

(** *** Verification codes (login.go) *)

Definition verifyCodeJoin (areaCode phoneNumber : string) : string := areaCode +:+ " " +:+ phoneNumber.

(** A query that must find nobody. *)
Definition must_be_free (take : M W Attribute) (e : error) : M W () :=
  r ← try take;
  match r with
  | inl _ => fail e
  | inr e' => if IsGormNotFound e' then mret () else fail e'
  end.
(** A query that must find somebody. *)
Definition must_be_registered (take : M W Attribute) (text : string) : M W () :=
  r ← try take;
  match r with
  | inl _ => mret ()
  | inr e => fail (if IsGormNotFound e then Wrap ErrAccountNotFound text else e)
  end.
Definition uint_or_fail (s text : string) : M W () :=
  match ParseUint s with Some _ => mret () | None => fail (Wrap ErrArgs text) end.
(** An area code gets its plus; the empty one has no first byte. *)
Definition normal_area (areaCode : string) : M W string :=
  p ← deref (plus_area areaCode);
  _ ← uint_or_fail p.2 "area code must be number";
  mret p.1.
Definition need_invitation (conf : gmap string string) : bool :=
  Contain (strings_ToLower (default "" (conf !! NeedInvitationCodeRegisterConfigKey))) ["1"; "true"; "yes"].
Definition check_invitation (invitationCode : string) : M W () :=
  _ ← guard (bool_decide (invitationCode = "")) (Wrap ErrArgs "invitation code is empty");
  CheckInvitationCode invitationCode.

Definition genVerifyCode : M W string :=
  if cfg_Len config <? 0 then panic
  else data ← on_rand (λ s, let '(bs, s') := rand_Read (Z.to_nat (cfg_Len config)) s in (Ok bs, s'));
       mret (String.string_of_list_ascii (digit_char 0 10 <$> data)).
Definition genUserID : M W string :=
  data ← on_rand (λ s, let '(bs, s') := rand_Read 10 s in (Ok bs, s'));
  mret (String.string_of_list_ascii (imap (λ i b, if Nat.eqb i 0 then digit_char 1 9 b else digit_char 0 10 b) data)).

(** Whether a code may be sent, and the area code; [None]: no code is needed. *)
Definition may_send (req : SendVerifyCodeReq) : M W (option string) :=
  if Svc_UsedFor req =? VerificationCodeForRegister then
    _ ← CheckRegister (Svc_Ip req);
    areaCode ← (if bool_decide (Svc_Email req = "") then
      _ ← guard (bool_decide (Svc_AreaCode req = "") || bool_decide (Svc_PhoneNumber req = ""))
        (Wrap ErrArgs "area code or phone number is empty");
      areaCode ← normal_area (Svc_AreaCode req);
      _ ← uint_or_fail (Svc_PhoneNumber req) "phone number must be number";
      _ ← must_be_free (TakeAttributeByPhone areaCode (Svc_PhoneNumber req))
        (Wrap ErrPhoneAlreadyRegister "phone already register");
      mret areaCode
    else
      _ ← (match EmailCheck (Svc_Email req) with inr _ => fail (Wrap ErrArgs "email must be right") | inl _ => mret () end);
      _ ← must_be_free (TakeAttributeByEmail (Svc_Email req)) (Wrap ErrEmailAlreadyRegister "email already register");
      mret (Svc_AreaCode req));
    conf ← AdminClient_GetConfig;
    if need_invitation conf then _ ← check_invitation (Svc_InvitationCode req); mret None
    else mret (Some areaCode)
  else if (Svc_UsedFor req =? VerificationCodeForLogin) || (Svc_UsedFor req =? VerificationCodeForResetPassword) then
    _ ← (if bool_decide (Svc_Email req = "") then
      must_be_registered (TakeAttributeByPhone (Svc_AreaCode req) (Svc_PhoneNumber req)) "phone unregistered"
    else must_be_registered (TakeAttributeByEmail (Svc_Email req)) "email unregistered");
    mret (Some (Svc_AreaCode req))
  else fail (Wrap ErrArgs "used unknown").

(** The codes sent to an account in the last [UintTime] seconds; an error is lost for
    mail. *)
Definition sent_lately (isEmail : bool) (account : string) : M W Z :=
  let count := CountVerifyCodeRange account (now + duration_ms (mul64 (wrap64 (- cfg_UintTime config)) 1000000000)) now in
  if isEmail then (r ← try count; mret (match r with inl n => n | inr _ => 0 end)) else count.

Definition SendVerifyCode (req : SendVerifyCodeReq) : M W () :=
  go ← may_send req;
  match go with
  | None => mret ()
  | Some areaCode =>
      let isEmail := negb (bool_decide (Svc_Email req = "")) in
      let account := if isEmail then Svc_Email req else verifyCodeJoin areaCode (Svc_PhoneNumber req) in
      _ ← guard ((cfg_UintTime config =? 0) || (cfg_MaxCount config =? 0)) (Wrap ErrNoPermission "verify code disabled");
      if bool_decide (cfg_Use config = "") then
        guard (bool_decide (cfg_SuperCode config = "")) (Wrap ErrInternalServer "super code is empty")
      else
        count ← sent_lately isEmail account;
        _ ← guard (cfg_MaxCount config <? count) (Wrap ErrVerifyCodeSendFrequently "");
        code ← genVerifyCode;
        AddVerifyCode (mkVerifyCodeRow 0 account "" code (cfg_ValidTime config `mod` 2 ^ 64) 0 false now)
          (zoom ac_sent put_sent (tell answers (if isEmail then Mail_SendMail (Svc_Email req) code
                                                else SMS_SendCode areaCode (Svc_PhoneNumber req) code)))
  end.

(** The id of the code, if it is the right one. *)
Definition verifyCode (account code : string) : M W Z :=
  _ ← guard (bool_decide (code = "")) (Wrap ErrArgs "verify code is empty");
  if bool_decide (cfg_Use config = "") then
    _ ← guard (negb (bool_decide (code = cfg_SuperCode config))) (Wrap ErrVerifyCodeNotMatch "");
    mret 0
  else
    r ← try (TakeLastVerifyCode account);
    match r with
    | inr e => fail (if IsGormNotFound e then Wrap ErrVerifyCodeExpired "" else e)
    | inl last =>
        _ ← guard (add64 (Unix (Vc_CreateTime last)) (wrap64 (Vc_Duration last)) <? Unix now) (Wrap ErrVerifyCodeExpired "");
        _ ← guard (Vc_Used last) (Wrap ErrVerifyCodeUsed "");
        _ ← (if 0 <? cfg_MaxCount config then
               _ ← guard (cfg_MaxCount config <=? Vc_Count last) (Wrap ErrVerifyCodeMaxCount "");
               if negb (bool_decide (Vc_Code last = code)) then UpdateVerifyCodeIncrCount (Vc_ID last) else mret ()
             else mret ());
        _ ← guard (negb (bool_decide (Vc_Code last = code))) (Wrap ErrVerifyCodeNotMatch "");
        mret (Vc_ID last)
    end.

Definition guessed_account (req : VerifyCodeReq) : string :=
  if negb (bool_decide (Vcr_PhoneNumber req = "")) then verifyCodeJoin (Vcr_AreaCode req) (Vcr_PhoneNumber req)
  else Vcr_Email req.
Definition VerifyCode (req : VerifyCodeReq) : M W () :=
  _ ← verifyCode (guessed_account req) (Vcr_VerifyCode req);
  mret ().

(** The code of an address of mail, or else of a phone number. *)
Definition verify_contact (email areaCode phoneNumber code : string) : M W Z :=
  if bool_decide (email = "") then verifyCode (verifyCodeJoin areaCode phoneNumber) code else verifyCode email code.

(** *** Registration *)

(** Whether a user who is no administrator may register: with an invitation, which is
    what the answer says, or a code. *)
Definition may_register (req : RegisterUserReq) (user : RegisterUserInfo) : M W bool :=
  _ ← guard (negb (bool_decide (Ru_UserID user = ""))) (Wrap ErrNoPermission "only admin can set user id");
  _ ← CheckRegister (Rr_Ip req);
  conf ← AdminClient_GetConfig;
  if need_invitation conf then _ ← check_invitation (Rr_InvitationCode req); mret true
  else
    _ ← verify_contact (Ru_Email user) (Ru_AreaCode user) (Ru_PhoneNumber user) (Rr_VerifyCode req);
    mret false.

(** An id that no account has, within so many tries; else the empty one. *)
Fixpoint gen_free_id (tries : nat) : M W string :=
  match tries with
  | O => mret ""
  | S tries =>
      userID ← genUserID;
      r ← try (GetUser userID);
      match r with
      | inl _ => gen_free_id tries
      | inr e => if IsGormNotFound e then mret userID else fail e
      end
  end.
Definition new_user_id : M W string :=
  userID ← gen_free_id 20;
  _ ← guard (bool_decide (userID = "")) (Wrap ErrInternalServer "gen user id failed");
  mret userID.
Definition choose_user_id (UserID : string) : M W string :=
  if bool_decide (UserID = "") then new_user_id
  else
    r ← try (GetUser UserID);
    match r with
    | inl _ => fail (Wrap ErrArgs "appoint user id already register")
    | inr e => if IsGormNotFound e then mret UserID else fail e
    end.

(** The phone number must be free; its area code gets its plus. *)
Definition register_phone (user : RegisterUserInfo) : M W (string * Z) :=
  if negb (bool_decide (Ru_PhoneNumber user = "")) then
    areaCode ← normal_area (Ru_AreaCode user);
    _ ← uint_or_fail (Ru_PhoneNumber user) "phone number must be number";
    _ ← must_be_free (TakeAttributeByPhone areaCode (Ru_PhoneNumber user)) (Wrap ErrPhoneAlreadyRegister "");
    mret (areaCode, PhoneRegister)
  else mret (Ru_AreaCode user, 0).

Definition new_register (userID deviceID ip : string) (platform : Z) : Register :=
  mkRegister userID deviceID ip (default "" (PlatformID2Name !! platform)) "" UserMode now.
Definition new_account (userID password operatorUserID : string) : Account :=
  mkAccount userID password now now operatorUserID.
Definition new_attribute (userID areaCode : string) (registerType : Z) (user : RegisterUserInfo) : Attribute :=
  mkAttribute userID (Ru_Account user) (Ru_PhoneNumber user) areaCode (Ru_Email user) (Ru_Nickname user)
    (Ru_FaceURL user) (Ru_Gender user) now now (Ru_Birth user) 0 DefaultAllowVibration DefaultAllowBeep
    DefaultAllowAddFriend 0 registerType.

Definition RegisterUser (ctx : Ctx) (req : RegisterUserReq) : M W RegisterUserResp :=
  isAdmin ← lift (CheckNilOrAdmin ctx);
  let ctx := WithAdminUser (cfg_AdminList config) ctx in
  match Rr_User req with
  | None => fail (Wrap ErrArgs "user is nil")
  | Some user =>
      _ ← guard (bool_decide (Ru_Email user = "") &&
          (bool_decide (Ru_AreaCode user = "" ∧ Ru_PhoneNumber user ≠ "") ||
           bool_decide (Ru_AreaCode user ≠ "" ∧ Ru_PhoneNumber user = "")))
        (Wrap ErrArgs "area code or phone number error, no email provide");
      usedInvitationCode ← (if negb isAdmin then may_register req user else mret false);
      userID ← choose_user_id (Ru_UserID user);
      phone ← register_phone user;
      _ ← (if negb (bool_decide (Ru_Account user = "")) then
             must_be_free (TakeAttributeByAccount (Ru_Account user)) (Wrap ErrAccountAlreadyRegister "") else mret ());
      registerType ← (if negb (bool_decide (Ru_Email user = "")) then
             _ ← must_be_free (TakeAttributeByEmail (Ru_Email user)) (Wrap ErrEmailAlreadyRegister "");
             mret EmailRegister else mret phone.2);
      _ ← Database_RegisterUser (new_register userID (Rr_DeviceID req) (Rr_Ip req) (Rr_Platform req))
            (new_account userID (Ru_Password user) (mctx_GetOpUserID ctx))
            (new_attribute userID phone.1 registerType user);
      _ ← (if usedInvitationCode : bool then unminded (UseInvitationCode ctx userID (Rr_InvitationCode req)) else mret ());
      chatToken ← (if Rr_AutoLogin req then
             r ← try (CreateToken userID NormalUser);
             mret (match r with inl token => token | inr _ => "" end) else mret "");
      mret (mkRegisterUserResp userID chatToken)
  end.

(** user.go *)
Definition checkTheUniqueness (user : RegisterUserInfo) : M W () :=
  if negb (bool_decide (Ru_PhoneNumber user = "")) then
    must_be_free (TakeAttributeByPhone (Ru_AreaCode user) (Ru_PhoneNumber user)) (Wrap ErrPhoneAlreadyRegister "")
  else must_be_free (TakeAttributeByEmail (Ru_Email user)) (Wrap ErrEmailAlreadyRegister "").
Definition AddUserAccount (ctx : Ctx) (req : AddUserAccountReq) : M W () :=
  _ ← lift (mctx_Check ctx);
  user ← deref (Au_User req);
  _ ← checkTheUniqueness user;
  userID ← (if bool_decide (Ru_UserID user = "") then new_user_id else mret (Ru_UserID user));
  Database_RegisterUser (new_register userID (Au_DeviceID req) (Au_Ip req) (Au_Platform req))
    (new_account userID (Ru_Password user) (mctx_GetOpUserID ctx))
    (new_attribute userID (Ru_AreaCode user) 0 user).

(** *** Log-in *)

(** Who the request is about, and its area code, with a plus if it was looked at. *)
Definition login_attribute (req : LoginReq) : M W (Attribute * string) :=
  if negb (bool_decide (Lg_Account req = "")) then
    attribute ← GetAttributeByAccount (Lg_Account req); mret (attribute, Lg_AreaCode req)
  else if negb (bool_decide (Lg_PhoneNumber req = "")) then
    _ ← guard (bool_decide (Lg_AreaCode req = "")) (Wrap ErrArgs "area code must");
    areaCode ← normal_area (Lg_AreaCode req);
    attribute ← GetAttributeByPhone areaCode (Lg_PhoneNumber req); mret (attribute, areaCode)
  else if negb (bool_decide (Lg_Email req = "")) then
    attribute ← GetAttributeByEmail (Lg_Email req); mret (attribute, Lg_AreaCode req)
  else fail (Wrap ErrArgs "account or phone number or email must be set").

(** The id of the code that was given for a password. *)
Definition login_secret (req : LoginReq) (areaCode userID : string) : M W (option Z) :=
  if bool_decide (Lg_Password req = "") then
    id ← verify_contact (Lg_Email req) areaCode (Lg_PhoneNumber req) (Lg_VerifyCode req);
    mret (Some id)
  else
    account ← GetAccount userID;
    _ ← guard (negb (bool_decide (Acc_Password account = Lg_Password req))) (Wrap ErrPassword "");
    mret None.

Definition Login (req : LoginReq) : M W LoginResp :=
  _ ← guard (bool_decide (Lg_Password req = "") && bool_decide (Lg_VerifyCode req = ""))
    (Wrap ErrArgs "password or code must be set");
  r ← try (login_attribute req);
  match r with
  | inr e => fail (if IsGormNotFound e then Wrap ErrAccountNotFound "user unregistered" else e)
  | inl (attribute, areaCode) =>
      let userID := At_UserID attribute in
      _ ← CheckLogin userID (Lg_Ip req);
      verifyCodeID ← login_secret req areaCode userID;
      chatToken ← CreateToken userID NormalUser;
      _ ← LoginRecord (mkUserLoginRecord userID now (Lg_Ip req) (Lg_DeviceID req) (PlatformIDToName (Lg_Platform req))) verifyCodeID;
      _ ← (match verifyCodeID with Some id => DelVerifyCode id | None => mret () end);
      mret (mkLoginResp chatToken userID)
  end.

(** *** Passwords (password.go) *)

(** The error of the last call stays in a variable of the inner block. *)
Definition ResetPassword (req : ResetPasswordReq) : M W () :=
  _ ← guard (bool_decide (Rp_Password req = "")) (Wrap ErrArgs "password must be set");
  if negb (bool_decide (Rp_AuthCode req = "")) then
    v ← VerifyResetPasswordCodeAndGetUserID (Rp_AuthCode req) (Rp_AreaCode req) (Rp_PhoneNumber req);
    _ ← guard (negb v.1) (Wrap ErrArgs "auth code invalid or not allowed for password reset");
    UpdatePassword now v.2 (Rp_Password req)
  else
    verifyCodeID ← verify_contact (Rp_Email req) (Rp_AreaCode req) (Rp_PhoneNumber req) (Rp_VerifyCode req);
    attribute ← (if bool_decide (Rp_Email req = "") then GetAttributeByPhone (Rp_AreaCode req) (Rp_PhoneNumber req)
                 else GetAttributeByEmail (Rp_Email req));
    unminded (UpdatePasswordAndDeleteVerifyCode now (At_UserID attribute) (Rp_Password req) verifyCodeID).

(** Whose password the caller may change. *)
Definition password_user (req : ChangePasswordReq) (opUserID : string) (userType : Z) : M W string :=
  if userType =? NormalUser then
    let UserID := if bool_decide (Cp_UserID req = "") then opUserID else Cp_UserID req in
    _ ← guard (negb (bool_decide (UserID = opUserID))) (Wrap ErrNoPermission "no permission change other user password");
    mret UserID
  else if userType =? AdminUser then
    _ ← guard (bool_decide (Cp_UserID req = "")) (Wrap ErrArgs "user id must be set");
    mret (Cp_UserID req)
  else fail (Wrap ErrInternalServer "invalid user type").
Definition ChangePassword (ctx : Ctx) (req : ChangePasswordReq) : M W () :=
  _ ← guard (bool_decide (Cp_NewPassword req = "")) (Wrap ErrArgs "new password must be set");
  _ ← guard (bool_decide (Cp_NewPassword req = Cp_CurrentPassword req)) (Wrap ErrArgs "new password == current password");
  caller ← lift (mctx_Check ctx);
  UserID ← password_user req caller.1 caller.2;
  user ← GetUser UserID;
  _ ← guard (negb (caller.2 =? AdminUser) && negb (bool_decide (Acc_Password user = Cp_CurrentPassword req)))
    (Wrap ErrNoPermission "current password is wrong");
  if negb (bool_decide (Acc_Password user = Cp_NewPassword req)) then UpdatePassword now UserID (Cp_NewPassword req)
  else mret ().

(** *** The data of users (user.go, update.go) *)

Definition column_of {A} (v : option A) (c : A → attribute_column) : list attribute_column :=
  match v with Some x => [c x] | None => [] end.
(** There is no column for the phone number. *)
Definition ToDBAttributeUpdate (req : UpdateUserInfoReq) : list attribute_column + error :=
  match Uu_Nickname req with
  | Some "" => inr (Wrap ErrArgs "nickname can not be empty")
  | _ =>
      let update :=
        column_of (Uu_Account req) acol_account ++ column_of (Uu_AreaCode req) acol_area_code ++
        column_of (Uu_Email req) acol_email ++ column_of (Uu_Nickname req) acol_nickname ++
        column_of (Uu_FaceURL req) acol_face_url ++ column_of (Uu_Gender req) acol_gender ++
        column_of (Uu_Level req) acol_level ++ column_of (Uu_Birth req) acol_birth_time ++
        column_of (Uu_AllowAddFriend req) acol_allow_add_friend ++ column_of (Uu_AllowBeep req) acol_allow_beep ++
        column_of (Uu_AllowVibration req) acol_allow_vibration ++
        column_of (Uu_GlobalRecvMsgOpt req) acol_global_recv_msg_opt in
      if len update =? 0 then inr (Wrap ErrArgs "no update info") else inl update
  end.

(** What a user may not change himself. *)
Definition own_update (req : UpdateUserInfoReq) (opUserID : string) : M W () :=
  _ ← guard (negb (bool_decide (Uu_UserID req = opUserID))) (Wrap ErrNoPermission "only admin can update other user info");
  _ ← guard (bool_decide (Uu_AreaCode req ≠ None)) (Wrap ErrNoPermission "areaCode can not be updated");
  _ ← guard (bool_decide (Uu_PhoneNumber req ≠ None)) (Wrap ErrNoPermission "phoneNumber can not be updated");
  _ ← guard (bool_decide (Uu_Account req ≠ None)) (Wrap ErrNoPermission "account can not be updated");
  guard (bool_decide (Uu_Level req ≠ None)) (Wrap ErrNoPermission "level can not be updated").

(** A new account, or phone number, must be free. *)
Definition update_account_free (req : UpdateUserInfoReq) (attribute : Attribute) : M W () :=
  match Uu_Account req with
  | Some account =>
      if negb (bool_decide (account = At_Account attribute)) then
        must_be_free (TakeAttributeByAccount account) (Wrap ErrAccountAlreadyRegister "") else mret ()
  | None => mret ()
  end.
Definition update_phone_free (req : UpdateUserInfoReq) (attribute : Attribute) : M W () :=
  if bool_decide (Uu_AreaCode req ≠ None) || bool_decide (Uu_PhoneNumber req ≠ None) then
    let areaCode := default (At_AreaCode attribute) (Uu_AreaCode req) in
    let phoneNumber := default (At_PhoneNumber attribute) (Uu_PhoneNumber req) in
    if negb (bool_decide (At_AreaCode attribute = areaCode)) || negb (bool_decide (At_PhoneNumber attribute = phoneNumber)) then
      must_be_free (TakeAttributeByPhone areaCode phoneNumber) (Wrap ErrAccountAlreadyRegister "")
    else mret ()
  else mret ().

Definition UpdateUserInfo (ctx : Ctx) (req : UpdateUserInfoReq) : M W () :=
  caller ← lift (mctx_Check ctx);
  _ ← guard (bool_decide (Uu_UserID req = "")) (Wrap ErrArgs "user id is empty");
  _ ← (if caller.2 =? NormalUser then own_update req caller.1
       else if caller.2 =? AdminUser then mret () else fail (Wrap ErrNoPermission "user type error"));
  update ← lift (ToDBAttributeUpdate req);
  attribute ← TakeAttributeByUserID (Uu_UserID req);
  _ ← update_account_free req attribute;
  _ ← update_phone_free req attribute;
  UpdateUseInfo (Uu_UserID req) update.

Definition FindUserAccount (ctx : Ctx) (UserIDs : list string) : M W (gmap string string) :=
  _ ← guard (len UserIDs =? 0) (Wrap ErrArgs "user id list must be set");
  _ ← lift (CheckAdminOrUser ctx);
  attributes ← FindAttribute UserIDs;
  mret (foldl (λ m a, <[At_UserID a := At_Account a]> m) ∅ attributes).
(** The accounts are looked up as ids of users. *)
Definition FindAccountUser (ctx : Ctx) (Accounts : list string) : M W (gmap string string) :=
  _ ← guard (len Accounts =? 0) (Wrap ErrArgs "account list must be set");
  _ ← lift (CheckAdminOrUser ctx);
  attributes ← FindAttribute Accounts;
  mret (foldl (λ m a, <[At_Account a := At_UserID a]> m) ∅ attributes).

(** callback.go *)
Definition OpenIMCallback (Command Body : string) : M W () :=
  if bool_decide (Command = CallbackBeforeAddFriendCommand) then
    ToUserID ← wrap_error (lift (Unmarshal_ToUserID Body));
    user ← GetAttribute ToUserID;
    guard (negb (At_AllowAddFriend user =? OrdinaryUserAddFriendEnable))
      (Wrap ErrRefuseFriend ("state " +:+ FormatInt (At_AllowAddFriend user)))
  else fail (Wrap ErrArgs ("invalid command " +:+ Command)).

(** *** The end of a user (rpc/admin/user.go) *)

Definition CancellationUser (ctx : Ctx) (UserID : string) : M W () :=
  _ ← lift (mctx_CheckAdmin ctx);
  UpdateUserInfo ctx (mkUpdateUserInfoReq UserID (Some "") (Some "") (Some "") (Some "")
    None None None None None None None None None None).
End ChatServer.
