(* ===== verification/ChatTheorems.v ===== *)
(** * Who gets into an account of the enterprise chat service

    The calls of the two services, one at a time in any order, and what holds after
    any of them: every user has one password and one set of data, a phone number with its
    area code is nobody else's, an invitation admits one user, passwords and log-ins are had by
    those who can prove that they may, and the guesses at a verification code are
    bounded. *)

From Stdlib Require Import Ascii.
From S2P Require Import Prelude.
From S2P Require Import Constants.
From S2P Require Import MsgTypes.
From S2P Require Import MsgProcessor.
From S2P Require Import MsgDoc.
From S2P Require Import Tools.
From S2P Require Import Redis.
From S2P Require Import Sql.
From S2P Require Import RowCache.
From S2P Require Import FriendTypes.
From S2P Require Import ChatAccounts.
From S2P Require Import ChatServer.
From stdpp Require Import options.
#[local] Set Default Proof Using "Type*".

#[local] Open Scope Z_scope.

(** ** The calls *)

Inductive chat_call :=
  | Call_SendVerifyCode (req : SendVerifyCodeReq)
  | Call_VerifyCode (req : VerifyCodeReq)
  | Call_RegisterUser (ctx : Ctx) (req : RegisterUserReq)
  | Call_Login (req : LoginReq)
  | Call_ResetPassword (req : ResetPasswordReq)
  | Call_ChangePassword (ctx : Ctx) (req : ChangePasswordReq)
  | Call_UpdateUserInfo (ctx : Ctx) (req : UpdateUserInfoReq)
  | Call_AddUserAccount (ctx : Ctx) (req : AddUserAccountReq)
  | Call_FindUserPublicInfo (UserIDs : list string)
  | Call_FindUserFullInfo (ctx : Ctx) (UserIDs : list string)
  | Call_FindUserAccount (ctx : Ctx) (UserIDs : list string)
  | Call_FindAccountUser (ctx : Ctx) (Accounts : list string)
  | Call_OpenIMCallback (Command Body : string)
  | Call_CheckRegisterForbidden (ip : string)
  | Call_CheckLoginForbidden (userID ip : string)
  | Call_GetClientConfig
  | Call_SetClientConfig (ctx : Ctx) (Config : gmap string string)
  | Call_DelClientConfig (ctx : Ctx) (Keys : list string)
  | Call_CreateToken (UserID : string) (UserType : Z)
  | Call_ParseToken (Token : string)
  | Call_GetUserToken (UserID : string)
  | Call_AddInvitationCode (ctx : Ctx) (Codes : list string)
  | Call_GenInvitationCode (ctx : Ctx) (req : GenInvitationCodeReq)
  | Call_FindInvitationCode (Codes : list string)
  | Call_UseInvitationCode (ctx : Ctx) (UserID Code : string)
  | Call_DelInvitationCode (ctx : Ctx) (Codes : list string)
  | Call_SetInvitationCodeAllowResetPassword (ctx : Ctx) (Code : string) (AllowResetPassword : Z)
  | Call_VerifyResetPasswordCode (ctx : Ctx) (Code AreaCode PhoneNumber : string)
  | Call_AddIPForbidden (ctx : Ctx) (Forbiddens : list (string * bool * bool))
  | Call_DelIPForbidden (ctx : Ctx) (Ips : list string)
  | Call_AddUserIPLimitLogin (ctx : Ctx) (Limits : list (string * string))
  | Call_DelUserIPLimitLogin (ctx : Ctx) (Limits : list (string * string))
  | Call_BlockUser (ctx : Ctx) (UserID Reason : string)
  | Call_UnblockUser (ctx : Ctx) (UserIDs : list string)
  | Call_FindUserBlockInfo (ctx : Ctx) (UserIDs : list string)
  | Call_CancellationUser (ctx : Ctx) (UserID : string).

(** A call, at a time. *)
Record chat_visit := mkChatVisit { chv_now : Z; chv_call : chat_call }.

(** A computation whose answer is left. *)
Definition drop {W A} (m : M W A) : M W () := _ ← m; mret ().

#[export] Instance keeps_drop {W A B} (f : W → B) (m : M W A) : Keeps f m → Keeps f (drop m).
Proof. unfold drop. intros ?. apply _. Qed.
#[export] Instance moves_drop {W A} (R : relation W) `{!PreOrder R} (m : M W A) : Moves R m → Moves R (drop m).
Proof. unfold drop. intros ?. apply _. Qed.

Section ChatCalls.
Context `{ChatEngine} `{Tools} `{MsgTools} `{MapRange} `{ChatJwt}.
Context (config : ChatConfig).
Context (answers : list ChatEffect → ChatEffect → option error).
Context (Unmarshal_ToUserID : string → string + error).

Definition chat_handle (now : Z) (call : chat_call) : M ChatWorld () :=
  match call with
  | Call_SendVerifyCode req => SendVerifyCode config now answers req
  | Call_VerifyCode req => VerifyCode config now req
  | Call_RegisterUser ctx req => drop (RegisterUser config now ctx req)
  | Call_Login req => drop (Login config now req)
  | Call_ResetPassword req => ResetPassword config now req
  | Call_ChangePassword ctx req => ChangePassword now ctx req
  | Call_UpdateUserInfo ctx req => UpdateUserInfo ctx req
  | Call_AddUserAccount ctx req => AddUserAccount now ctx req
  | Call_FindUserPublicInfo ids => drop (FindUserPublicInfo ids)
  | Call_FindUserFullInfo ctx ids => drop (FindUserFullInfo ctx ids)
  | Call_FindUserAccount ctx ids => drop (FindUserAccount ctx ids)
  | Call_FindAccountUser ctx accounts => drop (FindAccountUser ctx accounts)
  | Call_OpenIMCallback command body => OpenIMCallback Unmarshal_ToUserID command body
  | Call_CheckRegisterForbidden ip => CheckRegisterForbidden ip
  | Call_CheckLoginForbidden userID ip => CheckLoginForbidden userID ip
  | Call_GetClientConfig => drop GetClientConfig
  | Call_SetClientConfig ctx c => SetClientConfig ctx c
  | Call_DelClientConfig ctx keys => DelClientConfig ctx keys
  | Call_CreateToken userID userType => drop (CreateToken config now userID userType)
  | Call_ParseToken token => drop (ParseToken now token)
  | Call_GetUserToken userID => drop (GetUserToken userID)
  | Call_AddInvitationCode ctx codes => AddInvitationCode now ctx codes
  | Call_GenInvitationCode ctx req => GenInvitationCode now ctx req
  | Call_FindInvitationCode codes => drop (FindInvitationCode codes)
  | Call_UseInvitationCode ctx userID code => UseInvitationCode ctx userID code
  | Call_DelInvitationCode ctx codes => DelInvitationCode ctx codes
  | Call_SetInvitationCodeAllowResetPassword ctx code allow => SetInvitationCodeAllowResetPassword ctx code allow
  | Call_VerifyResetPasswordCode ctx code area phone => drop (VerifyResetPasswordCode config ctx code area phone)
  | Call_AddIPForbidden ctx l => AddIPForbidden now ctx l
  | Call_DelIPForbidden ctx ips => DelIPForbidden ctx ips
  | Call_AddUserIPLimitLogin ctx l => AddUserIPLimitLogin now ctx l
  | Call_DelUserIPLimitLogin ctx l => DelUserIPLimitLogin ctx l
  | Call_BlockUser ctx userID reason => BlockUser now ctx userID reason
  | Call_UnblockUser ctx ids => UnblockUser ctx ids
  | Call_FindUserBlockInfo ctx ids => drop (FindUserBlockInfo ctx ids)
  | Call_CancellationUser ctx userID => CancellationUser ctx userID
  end.
Definition chat_do (v : chat_visit) : M ChatWorld () := chat_handle (chv_now v) (chv_call v).

(** A sequence of calls, each made whatever became of the others. *)
Definition serve_chat (vs : list chat_visit) (w : ChatWorld) : ChatWorld := foldl (λ w v, (chat_do v w).2) w vs.
End ChatCalls.

(** ** What a call leaves alone

    [step_keeps] finds, along the structure of a handler, that the statements it makes
    do not touch what a projection reads. *)

Ltac unfold_head m :=
  lazymatch m with
  | ?f _ => unfold_head f
  | _ => unfold m
  end.
Ltac step_keeps :=
  repeat first
    [ progress intros
    | lazymatch goal with
      | |- Keeps _ (mbind _ _) => apply keeps_bind
      | |- Keeps _ (mret _) => apply _
      | |- Keeps _ (fail _) => apply _
      | |- Keeps _ (guard _ _) => apply _
      | |- Keeps _ (lift _) => apply _
      | |- Keeps _ (deref _) => apply _
      | |- Keeps _ panic => apply _
      | |- Keeps _ (try _) => apply keeps_try
      | |- Keeps _ (wrap_error _) => apply keeps_wrap_error
      | |- Keeps _ (unminded _) => apply keeps_unminded
      | |- Keeps _ (drop _) => apply keeps_drop
      | |- Keeps _ (for_each _ _) => apply keeps_for_each
      | |- Keeps _ (transaction _ _ _ _ _) => apply keeps_transaction; [|intros ? ?; reflexivity]
      | |- Keeps _ (on_fst _) => apply keeps_on_fst_other
      | |- Keeps _ (on_snd _) => apply keeps_on_snd
      | |- Keeps _ (zoom _ _ (stmt (query _))) => apply keeps_read_only, read_only_zoom; [intros []; reflexivity|exact _]
      | |- Keeps _ (zoom _ _ _) => first [apply keeps_zoom; intros ? ?; reflexivity | apply keeps_read_only, read_only_zoom; [intros []; reflexivity|exact _]]
      | |- Keeps _ (if ?b then _ else _) => destruct b
      | |- Keeps _ (match ?x with _ => _ end) => destruct x
      | |- Keeps _ ?m => first [exact _ | unfold_head m; cbv beta zeta]
      end ].

Section Footprints.
Context `{ChatEngine} `{Tools} `{MsgTools} `{MapRange} `{ChatJwt}.
Context (config : ChatConfig) (now : Z).
Context (answers : list ChatEffect → ChatEffect → option error).
Context (Unmarshal_ToUserID : string → string + error).

(** The calls that change the users, or a password, or the invitations. *)
Definition changes_users (call : chat_call) : bool :=
  match call with
  | Call_RegisterUser _ _ | Call_AddUserAccount _ _ | Call_UpdateUserInfo _ _ | Call_CancellationUser _ _
  | Call_ResetPassword _ | Call_ChangePassword _ _ => true
  | _ => false
  end.
Definition changes_invitations (call : chat_call) : bool :=
  match call with
  | Call_RegisterUser _ _ | Call_UseInvitationCode _ _ _ | Call_AddInvitationCode _ _ | Call_GenInvitationCode _ _
  | Call_DelInvitationCode _ _ | Call_SetInvitationCodeAllowResetPassword _ _ _ => true
  | _ => false
  end.

#[export] Instance keeps_gen_free_id {B} (f : ChatWorld → B) n : Apart f put_rand → Keeps f (gen_free_id n).
Proof.
  intros Hr. induction n as [|n IH]; cbn; [apply _|].
  unfold genUserID, GetUser, on_rand, on_accounts, Account_Take. apply _.
Qed.
#[export] Instance keeps_gen_codes {B} (f : ChatWorld → B) n l cs : Apart f put_rand → Keeps f (gen_codes n l cs).
Proof. intros Hr. induction n as [|n IH]; cbn; [apply _|]. unfold gen_code, on_rand. apply _. Qed.

Lemma keeps_get_users call : changes_users call = false →
  Keeps get_users (chat_handle config answers Unmarshal_ToUserID now call).
Proof.
  destruct call; intros Hc; try discriminate Hc; cbn [chat_handle]; try (apply keeps_drop).
  all: step_keeps.
Qed.
Lemma keeps_invitations call : changes_invitations call = false →
  Keeps ac_invitations (chat_handle config answers Unmarshal_ToUserID now call).
Proof.
  destruct call; intros Hc; try discriminate Hc; cbn [chat_handle]; step_keeps.
Qed.
End Footprints.

(** ** Rules for the statements of the handlers *)

Section Rules.
Context `{ChatEngineLaws}.
Abbreviation W := ChatWorld.
Implicit Types (w : W).

(** A query, its errors wrapped. *)
Lemma wp_chat_read {T A} (get : W → T) put (f : T → A + error) (Q : outcome A → W → Prop) w : PutGet get put →
  (∀ a, f (get w) = inl a → Q (Ok a) w) → (∀ e, f (get w) = inr e → Q (Err (WrapErr "" e)) w) →
  wp (zoom get put (wrap_error (stmt (query f)))) Q w.
Proof.
  intros Hp Ha He. apply wp_zoom, wp_wrap_error, wp_query; intros x Hx; rewrite put_get; auto.
Qed.

Lemma external_not_found e : external e → IsGormNotFound (WrapErr "" e) = false.
Proof. intros [n Hn]. unfold IsGormNotFound. cbn. rewrite Hn. by apply bool_decide_eq_false_2. Qed.

(** Nobody has what a query looks for. *)
Definition nobody (p : Attribute → bool) (t : AttT) : Prop := ∀ k a, rows t !! k = Some a → p a = false.

Lemma wp_must_be_free p e (Q : outcome () → W → Prop) w :
  (nobody p (ac_attributes w) → Q (Ok ()) w) → (∀ e', Q (Err e') w) →
  wp (must_be_free (on_attributes (wrap_error (stmt (query (sql_Take p))))) e) Q w.
Proof.
  intros Hok He. apply wp_bind, wp_try, wp_chat_read; [intros []; reflexivity|by intros; apply He|].
  intros e' [[-> Hn]|Hx]%Take_err; [by apply Hok|]. rewrite external_not_found by done. apply He.
Qed.

(** The rows of the three tables of a user. *)
Abbreviation regs_of t := (rows (K:=string) t.1.1).
Abbreviation accs_of t := (rows (K:=string) t.1.2).
Abbreviation atts_of t := (rows (K:=string) t.2).

Lemma wp_Database_RegisterUser r a t (Q : outcome () → W → Prop) w :
  (∀ u, accs_of (get_users w) !! Acc_UserID a = None →
     regs_of u = <[Rg_UserID r := r]> (regs_of (get_users w)) →
     accs_of u = <[Acc_UserID a := a]> (accs_of (get_users w)) →
     atts_of u = <[At_UserID t := auto_attribute t]> (atts_of (get_users w)) → Q (Ok ()) (put_users u w)) →
  (∀ e, Q (Err e) w) → wp (Database_RegisterUser r a t) Q w.
Proof.
  intros Hok He. apply wp_transaction; [by intros; apply He|]. apply wp_on_fst, wp_bind, wp_on_fst, wp_on_fst, wp_wrap_error.
  apply wp_sql_Create; cbn; [|by intros; apply He]. intros t1 _ Hn1 E1.
  apply wp_bind, wp_on_fst, wp_on_snd, wp_wrap_error, wp_sql_Create; cbn; [|by intros; apply He]. intros t2 _ Hn2 E2.
  apply wp_on_snd, wp_wrap_error, wp_sql_Create; cbn; [|by intros; apply He]. intros t3 _ Hn3 E3.
  split; [by intros; apply He|]. apply Hok; cbn.
  - specialize (Hn2 a). rewrite accounts_key in Hn2. apply Hn2. by left.
  - by rewrite E1, <-registers_key.
  - by rewrite E2, <-accounts_key.
  - rewrite E3. unfold insert_rows. cbn. by rewrite attributes_key.
Qed.

Lemma get_put_users u w : get_users (put_users u w) = u.
Proof. by destruct u as [[? ?] ?]. Qed.
(** ** What a successful call shows

    [returns m P w]: if the run of [m] from [w] ends with a value, it and the state
    satisfy [P]. *)
Definition returns {A} (m : M W A) (P : A → W → Prop) (w : W) : Prop := wp m (λ r w', ∀ a, r = Ok a → P a w') w.

Lemma returns_bind {A B} (m : M W A) (k : A → M W B) P w :
  returns m (λ a w', returns (k a) P w') w → returns (m ≫= k) P w.
Proof. intros Hm. apply wp_bind. eapply wp_mono; [|exact Hm]. intros [a|e| |] w' Ha; try done. by apply Ha. Qed.
Lemma returns_ret {A} (a : A) (P : A → W → Prop) w : P a w → returns (mret a) P w.
Proof. intros HP. apply wp_ret. by intros ? [= <-]. Qed.
Lemma returns_fail {A} e (P : A → W → Prop) w : returns (fail e) P w.
Proof. by apply wp_fail. Qed.
Lemma returns_guard b e (P : () → W → Prop) w : (b = false → P () w) → returns (guard b e) P w.
Proof. intros HP. apply wp_guard; [done|]. intros Hb [] _. auto. Qed.
Lemma returns_lift {A} (x : A + error) (P : A → W → Prop) w : (∀ a, x = inl a → P a w) → returns (lift x) P w.
Proof. intros HP. apply wp_lift; [|done]. intros a Ha ? [= <-]. auto. Qed.
Lemma returns_deref {A} (x : option A) (P : A → W → Prop) w : (∀ a, x = Some a → P a w) → returns (deref x) P w.
Proof. intros HP. apply wp_deref; [|done]. intros a Ha ? [= <-]. auto. Qed.
Lemma returns_read {T A} (get : W → T) put (f : T → A + error) (P : A → W → Prop) w : PutGet get put →
  (∀ a, f (get w) = inl a → P a w) → returns (zoom get put (wrap_error (stmt (query f)))) P w.
Proof. intros Hp Ha. apply wp_chat_read; [done| |done]. intros a Hf ? [= <-]. auto. Qed.
Lemma returns_try {A} (m : M W A) (P : A + error → W → Prop) w :
  wp m (λ r w', match r with Ok a => P (inl a) w' | Err e => P (inr e) w' | _ => True end) w → returns (try m) P w.
Proof. intros Hm. apply wp_try. eapply wp_mono; [|exact Hm]. intros [a|e| |] w' HP; try done; by intros ? [= <-]. Qed.
Lemma returns_keeps {A B} (f : W → B) (m : M W A) `{!Keeps f m} (P : A → W → Prop) w :
  (∀ a w', f w' = f w → P a w') → returns m P w.
Proof. intros HP. apply (wp_keeps f m). intros r w' E a _. auto. Qed.
Lemma returns_read_only {A} (m : M W A) `{!ReadOnly m} (P : A → W → Prop) w : (∀ a, P a w) → returns m P w.
Proof. intros HP. apply wp_read_only; [done|]. intros r _ a _. auto. Qed.
Lemma returns_must_be_free p e (P : () → W → Prop) w : (nobody p (ac_attributes w) → P () w) →
  returns (must_be_free (on_attributes (wrap_error (stmt (query (sql_Take p))))) e) P w.
Proof. intros HP. apply wp_must_be_free; [|done]. intros Hn [] _. auto. Qed.
Lemma returns_spec {A} (m : M W A) (P : A → W → Prop) w a w' : returns m P w → m w = (Ok a, w') → P a w'.
Proof. unfold returns, wp. intros Hm E. rewrite E in Hm. by apply Hm. Qed.

(** ** Invitations *)

Lemma wp_FindInvitationRegister code (Q : outcome (list InvitationRegister) → W → Prop) w :
  (rows (ac_invitations w) !! code = None → Q (Ok []) w) →
  (∀ i, rows (ac_invitations w) !! code = Some i → Q (Ok [i]) w) →
  (∀ e, external e → (∃ p, sql_Find p (ac_invitations w) = inr e) → Q (Err (WrapErr "" e)) w) →
  wp (FindInvitationRegister [code]) Q w.
Proof.
  intros Hn Hs He. apply wp_chat_read; [intros []; reflexivity| |intros e Hx; apply He; [by apply Find_err in Hx|by eexists]].
  intros l Hl. pose proof (λ r, Find_elem _ _ _ r Hl) as Hin. pose proof (Find_NoDup _ _ _ Hl) as Hd.
  rewrite invitations_key in Hin, Hd.
  assert (∀ r, r ∈ l ↔ Inv_Code r = code ∧ rows (ac_invitations w) !! code = Some r) as Hl'.
  { intros r. rewrite Hin, bool_decide_eq_true, list_elem_of_singleton. naive_solver. }
  destruct l as [|i [|j l]].
  - apply Hn, eq_None_not_Some. intros [r Hr]. apply (not_elem_of_nil r), Hl'. split; [|done].
    apply (rows_key (T:=InvT)) in Hr. by rewrite invitations_key in Hr.
  - apply Hs. by apply Hl'; left.
  - exfalso. assert (i = j) as -> by (destruct (proj1 (Hl' i) ltac:(left)), (proj1 (Hl' j) ltac:(right; left)); congruence).
    apply NoDup_cons in Hd as [Hd _]. apply Hd. left.
Qed.

(** What the administration tells of a code. *)
Lemma returns_FindInvitationCode code (P : list InvitationInfo → W → Prop) w :
  (rows (ac_invitations w) !! code = None → P [] w) →
  (∀ i x, rows (ac_invitations w) !! code = Some i → Ii_UsedUserID x = Inv_UsedByUserID i →
     Ii_AllowResetPassword x = Inv_AllowResetPassword i → P [x] w) → returns (FindInvitationCode [code]) P w.
Proof.
  intros Hn Hs. apply returns_bind, returns_guard. intros _. apply returns_bind.
  assert (∀ irs v, (∀ um : gmap string UserPublicInfo, P ((λ i, mkInvitationInfo (Inv_Code i) (Inv_CreateTime i) (Inv_UsedByUserID i)
      (um !! Inv_UsedByUserID i) (Inv_AllowResetPassword i)) <$> irs) v) →
    returns (um ← MapUserPublicInfo (filter (.≠ "") (Inv_UsedByUserID <$> irs));
      mret ((λ i, mkInvitationInfo (Inv_Code i) (Inv_CreateTime i) (Inv_UsedByUserID i) (um !! Inv_UsedByUserID i)
        (Inv_AllowResetPassword i)) <$> irs)) P v) as Hmap.
  { intros irs v Hv. apply returns_bind. assert (ReadOnly (MapUserPublicInfo (filter (.≠ "") (Inv_UsedByUserID <$> irs)))).
    { unfold MapUserPublicInfo, ChatClient_FindUserPublicInfo, FindUserPublicInfo, FindAttribute, on_attributes, Attribute_Find. apply _. }
    apply (returns_read_only _). intros um. by apply returns_ret. }
  apply wp_FindInvitationRegister; [intros Hnone a [= <-]|intros i Hi a [= <-]|done]; apply Hmap; intros um; [by apply Hn|by eapply Hs].
Qed.

End Rules.

(** ** The data of users

    Every user has a registration, a password and data, and no other user's number with
    its area code. A user whose account was cancelled keeps the number, and has no area
    code. *)
Section Users.
Context `{ChatEngineLaws} `{Tools} `{MsgTools} `{MapRange} `{ChatJwt}.
Context (config : ChatConfig) (answers : list ChatEffect → ChatEffect → option error).
Context (Unmarshal_ToUserID : string → string + error).
Abbreviation W := ChatWorld.
Implicit Types (w : W).
Abbreviation handle now := (chat_handle config answers Unmarshal_ToUserID now).
Abbreviation serve := (serve_chat config answers Unmarshal_ToUserID).

Record UsersSound (t : RegT * AccT * AttT) : Prop := {
  registered_dom : dom (rows t.1.1) = dom (rows t.1.2);
  described_dom : dom (rows t.2) = dom (rows t.1.2);
  phones_single k1 k2 a1 a2 : rows t.2 !! k1 = Some a1 → rows t.2 !! k2 = Some a2 →
    At_AreaCode a1 ≠ "" → At_PhoneNumber a1 ≠ "" →
    has_phone (At_AreaCode a1) (At_PhoneNumber a1) a2 = true → k1 = k2 }.

Lemma has_phone_true ar ph a : has_phone ar ph a = true ↔ At_AreaCode a = ar ∧ At_PhoneNumber a = ph.
Proof. unfold has_phone. by rewrite andb_true_iff, !bool_decide_eq_true. Qed.

(** A new user, whose number nobody has. *)
Definition user_added (u u' : RegT * AccT * AttT) : Prop := ∃ r a t,
  Rg_UserID r = Acc_UserID a ∧ At_UserID t = Acc_UserID a ∧ rows u.1.2 !! Acc_UserID a = None ∧
  (At_PhoneNumber t ≠ "" → nobody (has_phone (At_AreaCode t) (At_PhoneNumber t)) u.2) ∧
  rows u'.1.1 = <[Rg_UserID r := r]> (rows u.1.1) ∧ rows u'.1.2 = <[Acc_UserID a := a]> (rows u.1.2) ∧
  rows u'.2 = <[At_UserID t := auto_attribute t]> (rows u.2).

Lemma user_added_intro r a t u u' : rows u.1.2 !! Acc_UserID a = None →
  rows u'.1.1 = <[Rg_UserID r := r]> (rows u.1.1) → rows u'.1.2 = <[Acc_UserID a := a]> (rows u.1.2) →
  rows u'.2 = <[At_UserID t := auto_attribute t]> (rows u.2) → Rg_UserID r = Acc_UserID a → At_UserID t = Acc_UserID a →
  (At_PhoneNumber t ≠ "" → nobody (has_phone (At_AreaCode t) (At_PhoneNumber t)) u.2) → user_added u u'.
Proof. intros. by exists r, a, t. Qed.
Lemma UsersSound_added u u' : UsersSound u → user_added u u' → UsersSound u'.
Proof.
  intros [Hr Hd Hs] (r & a & t & Er & Et & _ & Hfree & E1 & E2 & E3). split.
  - by rewrite E1, E2, !dom_insert_L, Hr, Er.
  - by rewrite E2, E3, !dom_insert_L, Hd, Et.
  - intros k1 k2 a1 a2. rewrite E3. intros [[<- <-]|[Hk1 G1]]%lookup_insert_Some [[<- <-]|[Hk2 G2]]%lookup_insert_Some Har Hp Hph; try done.
    + cbn in Hp, Hph. by rewrite (Hfree Hp _ _ G2) in Hph.
    + apply has_phone_true in Hph as [Ha Hb]. cbn in Ha, Hb. rewrite <-Hb in Hp. specialize (Hfree Hp _ _ G1).
      apply not_true_iff_false in Hfree. destruct Hfree. by apply has_phone_true.
    + by eapply Hs.
Qed.

(** A step that leaves a part of the state. *)
Lemma wp_skip {A B X} (f : W → X) (m : M W A) (k : A → M W B) (P : X → Prop) w : Keeps f m →
  P (f w) → (∀ a w', f w' = f w → wp (k a) (λ _ w', P (f w')) w') →
  wp (m ≫= k) (λ _ w', P (f w')) w.
Proof.
  intros Hm Hw Hk. apply wp_bind, (wp_keeps f m). intros [a|e| |] w' E; [by apply Hk|by rewrite E..].
Qed.
Definition wp_skip_users {A B} := @wp_skip A B _ get_users.
Ltac skip := apply wp_skip_users; [solve [step_keeps]|by auto|].

Lemma wp_register_phone user (Q : outcome (string * Z) → W → Prop) w :
  (∀ ar ty, (Ru_PhoneNumber user ≠ "" → nobody (has_phone ar (Ru_PhoneNumber user)) (ac_attributes w)) → Q (Ok (ar, ty)) w) →
  Q Panic w → (∀ e, Q (Err e) w) → wp (register_phone user) Q w.
Proof.
  intros Hok Hp He. unfold register_phone, normal_area, uint_or_fail. wp_run; eauto.
  - apply wp_must_be_free; [|by intros; apply He]. intros Hn. apply wp_ret, Hok. by intros _.
  - apply Hok. apply negb_false_iff, bool_decide_eq_true in Heqb. by intros [].
Qed.

(** Registering adds one user, or none. *)
Abbreviation adds_user m w := (wp m (λ _ w', get_users w' = get_users w ∨ user_added (get_users w) (get_users w')) w).
Ltac skip_adds w := apply (wp_skip_users _ _ (λ u, u = get_users w ∨ user_added (get_users w) u)); [solve [step_keeps]|cbn beta..].
Ltac skip_same w := skip_adds w; [left; congruence|].

Lemma RegisterUser_adds now ctx req w : adds_user (RegisterUser config now ctx req) w.
Proof.
  unfold RegisterUser. skip_same w. intros isAdmin w1 E1. cbv zeta.
  destruct (Rr_User req) as [user|]; [|apply wp_fail; auto].
  skip_same w. intros [] w2 E2. skip_same w. intros used w3 E3. skip_same w. intros userID w4 E4.
  assert (get_users w4 = get_users w) as E by congruence. apply wp_bind, wp_register_phone; [|auto..].
  intros ar ty Hfree. cbn beta iota. skip_same w. intros [] w5 E5. skip_same w. intros rt w6 E6.
  assert (get_users w6 = get_users w) as Ew by congruence. replace (ac_attributes w4) with (get_users w6).2 in Hfree by (by rewrite Ew, <-E).
  apply wp_bind, wp_Database_RegisterUser; [|auto]. intros u Hn Er Ea Et. cbn beta iota.
  assert (user_added (get_users w) (get_users (put_users u w6))) as Hadd.
  { rewrite get_put_users, <-Ew. refine (user_added_intro _ _ _ _ _ Hn Er Ea Et _ _ _); [done|done|exact Hfree]. }
  skip_adds w; [by right|].
  intros [] w7 E7. rewrite <-E7 in Hadd.
  skip_adds w; [by right|].
  intros tok w8 E8. apply wp_ret. rewrite E8. by right.
Qed.

Lemma AddUserAccount_adds now ctx req w : adds_user (AddUserAccount now ctx req) w.
Proof.
  unfold AddUserAccount. skip_same w. intros c w1 E1. skip_same w. intros user w2 E2.
  assert (∀ (Q : outcome () → W → Prop) w,
    ((Ru_PhoneNumber user ≠ "" → nobody (has_phone (Ru_AreaCode user) (Ru_PhoneNumber user)) (get_users w).2) → Q (Ok ()) w) →
    (∀ e, Q (Err e) w) → wp (checkTheUniqueness user) Q w) as Hfree.
  { intros Q v Hok He. unfold checkTheUniqueness. case_bool_decide as Hp; cbn [negb]; (apply wp_must_be_free; [intros Hn; apply Hok|by auto]); [by intros []|done]. }
  assert (get_users w2 = get_users w) as E by congruence.
  apply wp_bind, Hfree; [|by left]. clear Hfree. intros Hfree. cbn beta iota. rewrite E in Hfree.
  skip_same w. intros userID w3 E3. assert (get_users w3 = get_users w) as Ew by congruence.
  apply wp_Database_RegisterUser; [|by left]. intros u Hn Er Ea Et. rewrite get_put_users, Ew in *. right.
  refine (user_added_intro _ _ _ _ _ Hn Er Ea Et _ _ _); [done|done|exact Hfree].
Qed.

(** *** Updates *)

(** What an update leaves: who it is, and the number without its area. *)
Lemma update_column_keeps c a : At_UserID (set_attribute_column c a) = At_UserID a ∧
  At_PhoneNumber (set_attribute_column c a) = At_PhoneNumber a.
Proof. by destruct a, c. Qed.
Lemma update_keeps cs a : At_UserID (set_attribute_columns cs a) = At_UserID a ∧
  At_PhoneNumber (set_attribute_columns cs a) = At_PhoneNumber a.
Proof.
  unfold set_attribute_columns. revert a. induction cs as [|c cs IH]; intros a; [done|]. cbn.
  destruct (IH (set_attribute_column c a)) as [-> ->]. apply update_column_keeps.
Qed.
Lemma update_area_other {A} (v : option A) c a : (∀ x b, At_AreaCode (set_attribute_column (c x) b) = At_AreaCode b) →
  At_AreaCode (set_attribute_columns (column_of v c) a) = At_AreaCode a.
Proof. intros Hc. destruct v; [apply Hc|done]. Qed.
Lemma update_columns_app cs1 cs2 a :
  set_attribute_columns (cs1 ++ cs2) a = set_attribute_columns cs2 (set_attribute_columns cs1 a).
Proof. apply foldl_app. Qed.
Lemma ToDBAttributeUpdate_area req cs a : ToDBAttributeUpdate req = inl cs →
  At_AreaCode (set_attribute_columns cs a) = default (At_AreaCode a) (Uu_AreaCode req).
Proof.
  unfold ToDBAttributeUpdate. intros Hu.
  assert (cs = column_of (Uu_Account req) acol_account ++ column_of (Uu_AreaCode req) acol_area_code ++
    column_of (Uu_Email req) acol_email ++ column_of (Uu_Nickname req) acol_nickname ++
    column_of (Uu_FaceURL req) acol_face_url ++ column_of (Uu_Gender req) acol_gender ++
    column_of (Uu_Level req) acol_level ++ column_of (Uu_Birth req) acol_birth_time ++
    column_of (Uu_AllowAddFriend req) acol_allow_add_friend ++ column_of (Uu_AllowBeep req) acol_allow_beep ++
    column_of (Uu_AllowVibration req) acol_allow_vibration ++
    column_of (Uu_GlobalRecvMsgOpt req) acol_global_recv_msg_opt) as ->.
  { destruct (Uu_Nickname req) as [[]|]; cbv zeta in Hu; try discriminate Hu; destruct (len _ =? 0); congruence. }
  rewrite !update_columns_app. repeat (rewrite update_area_other by (by intros ? [])).
  destruct (Uu_AreaCode req) as [ar|]; cbn; [|by rewrite update_area_other by (by intros ? [])].
  by destruct (set_attribute_columns (column_of (Uu_Account req) acol_account) a).
Qed.

Lemma attribute_of_key uid a : attribute_of uid a = true ↔ table_key (T:=AttT) a = uid.
Proof. unfold attribute_of. by rewrite attributes_key, bool_decide_eq_true. Qed.

Lemma wp_UpdateUseInfo uid cs (Q : outcome () → W → Prop) w :
  (∀ t, rows t = alter (set_attribute_columns cs) uid (rows (ac_attributes w)) → Q (Ok ()) (put_attributes t w)) →
  (∀ e, Q (Err e) w) → wp (UpdateUseInfo uid cs) Q w.
Proof.
  intros Hok He. apply wp_transaction; [by auto|]. destruct (0 <? len cs) eqn:Hcs.
  - apply wp_on_fst, wp_wrap_error, wp_bind, wp_sql_Updates; [|intros t n Ht; apply wp_ret; split; [by auto|]; apply Hok; cbn in *|by auto].
    + intros a. rewrite attributes_key. apply update_keeps.
    + rewrite Ht. apply (fmap_key_alter (T:=AttT)); [apply rows_key|apply attribute_of_key].
  - apply wp_ret. split; [by auto|]. apply Hok. destruct cs; [|done]. symmetry. apply alter_id. done.
Qed.

(** An update that leaves the number, takes its area away, or gives it an area in which
    nobody has it. *)
Lemma UsersSound_update uid f a u u' : UsersSound u → rows u.2 !! uid = Some a →
  (∀ b, At_PhoneNumber (f b) = At_PhoneNumber b) →
  (At_AreaCode (f a) = "" ∨ At_AreaCode (f a) = At_AreaCode a ∨
   nobody (has_phone (At_AreaCode (f a)) (At_PhoneNumber a)) u.2) →
  u'.1 = u.1 → rows u'.2 = alter f uid (rows u.2) → UsersSound u'.
Proof.
  intros [Hr Hd Hs] Ha Hp Hfree E1 E2. split; rewrite ?E1; [done|by rewrite E2, dom_alter_L|].
  assert (∀ k b, rows u'.2 !! k = Some b → ∃ c, rows u.2 !! k = Some c ∧ At_PhoneNumber b = At_PhoneNumber c ∧
    (b = c ∨ k = uid ∧ c = a ∧ b = f a)) as Hrow.
  { intros k b. rewrite E2, lookup_alter_fmap, fmap_Some. intros (c & Hc & ->). exists c. split; [done|].
    case_decide as Hk; [subst k|by auto]. assert (c = a) as -> by congruence. auto. }
  intros k1 k2 b1 b2 (c1 & G1 & P1 & F1)%Hrow (c2 & G2 & P2 & F2)%Hrow Har Hn [Ea Ep]%has_phone_true.
  rewrite P1 in Hn, Ep. rewrite P2 in Ep. destruct Hfree as [Hno|[Hsame|Hfree]].
  - destruct F1 as [->|(-> & -> & ->)]; [|done]. destruct F2 as [->|(-> & -> & ->)]; [|congruence].
    by apply (Hs _ _ _ _ G1 G2 Har Hn), has_phone_true.
  - apply (Hs _ _ c1 c2 G1 G2); [|done|apply has_phone_true; split; [|done]];
    destruct F1 as [->|(-> & -> & ->)], F2 as [->|(-> & -> & ->)]; congruence.
  - destruct F1 as [->|(-> & -> & ->)], F2 as [->|(-> & -> & ->)]; [|exfalso..|done].
    + apply (Hs _ _ _ _ G1 G2 Har Hn), has_phone_true. by split.
    + specialize (Hfree _ _ G1). apply not_true_iff_false in Hfree. apply Hfree, has_phone_true. by split.
    + specialize (Hfree _ _ G2). apply not_true_iff_false in Hfree. apply Hfree, has_phone_true. by split.
Qed.

(** An update that names an area and a number checks the number that it does not write,
    and gives the area to the number that the user has. *)
Definition tidy_update (req : UpdateUserInfoReq) : Prop :=
  Uu_AreaCode req = None ∨ Uu_AreaCode req = Some "" ∨ Uu_PhoneNumber req = None.
Definition tidy (call : chat_call) : Prop :=
  match call with Call_UpdateUserInfo _ req => tidy_update req | _ => True end.

Lemma wp_update_phone_free req a (Q : outcome () → W → Prop) w : tidy_update req →
  (default (At_AreaCode a) (Uu_AreaCode req) = "" ∨ default (At_AreaCode a) (Uu_AreaCode req) = At_AreaCode a ∨
   nobody (has_phone (default (At_AreaCode a) (Uu_AreaCode req)) (At_PhoneNumber a)) (get_users w).2 → Q (Ok ()) w) →
  (∀ e, Q (Err e) w) → wp (update_phone_free req a) Q w.
Proof.
  intros Ht Hok He. unfold update_phone_free. destruct Ht as [Hn|[Hn|Hn]]; rewrite Hn in *.
  - cbn in Hok. repeat case_match; try (apply wp_ret, Hok; by auto). apply wp_must_be_free; [|done]. intros _. apply Hok. by auto.
  - cbn in Hok. repeat case_match; try (apply wp_ret, Hok; by auto). apply wp_must_be_free; [|done]. intros _. apply Hok. by auto.
  - destruct (Uu_AreaCode req) as [ar|]; cbn in Hok |- *; [|apply wp_ret, Hok; by auto].
    case_bool_decide as Ha; cbn; [|apply wp_must_be_free; [intros Hf; apply Hok; by auto|done]].
    rewrite bool_decide_eq_true_2 by done. apply wp_ret, Hok. by auto.
Qed.

Lemma UpdateUserInfo_sound ctx req w : tidy_update req → UsersSound (get_users w) →
  wp (UpdateUserInfo ctx req) (λ _ w', UsersSound (get_users w')) w.
Proof.
  intros Ht Hs. unfold UpdateUserInfo. skip. intros c w1 E1. rewrite <-E1 in Hs. skip. intros [] w2 E2. rewrite <-E2 in Hs.
  skip. intros [] w3 E3. rewrite <-E3 in Hs. apply wp_bind, wp_lift; [|done]. intros cs Hcs. cbn beta iota.
  apply wp_bind, wp_chat_read; [intros []; reflexivity| |done]. intros a [Ha1 Ha2]%Take_ok. cbn beta iota.
  apply attribute_of_key in Ha1. rewrite Ha1 in Ha2. skip. intros [] w4 E4.
  replace (ac_attributes w3) with (get_users w4).2 in Ha2 by (by rewrite E4). rewrite <-E4 in Hs.
  apply wp_bind, wp_update_phone_free; [done| |done]. intros Hfree. cbn beta iota. apply wp_UpdateUseInfo; [|done].
  intros t E. eapply (UsersSound_update (Uu_UserID req) (set_attribute_columns cs)); [exact Hs|exact Ha2| | |done|exact E].
  - intros b. apply update_keeps.
  - by rewrite (ToDBAttributeUpdate_area _ _ _ Hcs).
Qed.
Lemma CancellationUser_sound ctx uid w : UsersSound (get_users w) →
  wp (CancellationUser ctx uid) (λ _ w', UsersSound (get_users w')) w.
Proof.
  intros Hs. unfold CancellationUser. skip. intros c w1 E1. rewrite <-E1 in Hs.
  apply UpdateUserInfo_sound; [by right; left|done].
Qed.

(** *** Passwords *)

Lemma wp_UpdatePassword now uid pw (Q : outcome () → W → Prop) w :
  (∀ t, rows t = alter (Account_set_password now pw) uid (rows (ac_accounts w)) → Q (Ok ()) (put_accounts t w)) →
  (∀ t e, rows t = rows (ac_accounts w) → Q (Err e) (put_accounts t w)) → wp (UpdatePassword now uid pw) Q w.
Proof.
  intros Hok He. apply wp_zoom, wp_wrap_error, wp_bind, wp_sql_Updates; [|intros t n Ht; apply wp_ret, Hok; rewrite Ht|by auto].
  - intros a. by rewrite accounts_key.
  - apply (fmap_key_alter (T:=AccT)); [apply rows_key|]. intros a. unfold account_of. by rewrite accounts_key, bool_decide_eq_true.
Qed.
Lemma wp_UpdatePasswordAndDeleteVerifyCode now uid pw id (Q : outcome () → W → Prop) w :
  (∀ t u, rows t = alter (Account_set_password now pw) uid (rows (ac_accounts w)) →
     rows u = delete id (rows (ac_codes w)) → Q (Ok ()) (put_accounts t (put_codes u w))) →
  (∀ e, Q (Err e) w) → wp (UpdatePasswordAndDeleteVerifyCode now uid pw id) Q w.
Proof.
  intros Hok He. apply wp_transaction; [by auto|].
  apply wp_on_fst, wp_bind, wp_on_fst, wp_wrap_error, wp_bind, wp_sql_Updates; [by intros; rewrite accounts_key| |by auto].
  intros t n Ht. apply wp_ret, wp_on_snd, wp_wrap_error, wp_sql_Delete; [|by auto]. intros u Hu.
  split; [by auto|]. apply Hok; cbn in *.
  - rewrite Ht. apply (fmap_key_alter (T:=AccT)); [apply rows_key|]. intros a. unfold account_of.
    by rewrite accounts_key, bool_decide_eq_true.
  - rewrite Hu. apply (filter_key_delete (T:=CodT)); [apply rows_key|]. intros c. unfold code_has_id. by rewrite verify_codes_key, Z.eqb_eq.
Qed.

Lemma UsersSound_passwords u u' : UsersSound u → u'.1.1 = u.1.1 → u'.2 = u.2 →
  dom (rows u'.1.2) = dom (rows u.1.2) → UsersSound u'.
Proof. intros [Hr Hd Hs] E1 E2 E3. split; rewrite ?E1, ?E2, ?E3; done. Qed.
Lemma UsersSound_password w t : UsersSound (get_users w) → dom (rows t) = dom (rows (ac_accounts w)) →
  UsersSound (get_users (put_accounts t w)).
Proof. intros Hs E. by eapply UsersSound_passwords. Qed.

Ltac same_users := apply UsersSound_password; [done|];
  match goal with E : rows _ = _ |- _ => rewrite E end; rewrite ?dom_alter_L; done.

Lemma wp_unminded_users (m : M W ()) (P : RegT * AccT * AttT → Prop) w :
  wp m (λ r w', match r with Ok _ | Err _ => P (get_users w') | _ => False end) w →
  wp (unminded m) (λ _ w', P (get_users w')) w.
Proof. intros Hm. apply wp_bind, wp_try. eapply wp_mono; [|exact Hm]. by intros [|e| |] w' ?. Qed.

Lemma ResetPassword_sound now req w : UsersSound (get_users w) →
  wp (ResetPassword config now req) (λ _ w', UsersSound (get_users w')) w.
Proof.
  intros Hs. unfold ResetPassword. skip. intros [] w1 E1. rewrite <-E1 in Hs. case_match.
  - skip. intros v w2 E2. rewrite <-E2 in Hs. skip. intros [] w3 E3. rewrite <-E3 in Hs.
    apply wp_UpdatePassword; intros; same_users.
  - skip. intros id w2 E2. rewrite <-E2 in Hs. skip. intros a w3 E3. rewrite <-E3 in Hs.
    apply wp_unminded_users, wp_UpdatePasswordAndDeleteVerifyCode; [|done].
    intros t c Ht _. change (UsersSound (get_users (put_accounts t w3))). apply UsersSound_password; [done|]. by rewrite Ht, dom_alter_L.
Qed.
Lemma ChangePassword_sound now ctx req w : UsersSound (get_users w) →
  wp (ChangePassword now ctx req) (λ _ w', UsersSound (get_users w')) w.
Proof.
  intros Hs. unfold ChangePassword. skip. intros [] w1 E1. rewrite <-E1 in Hs. skip. intros [] w2 E2. rewrite <-E2 in Hs.
  skip. intros c w3 E3. rewrite <-E3 in Hs. skip. intros uid w4 E4. rewrite <-E4 in Hs. skip. intros a w5 E5. rewrite <-E5 in Hs.
  skip. intros [] w6 E6. rewrite <-E6 in Hs. case_match; [|by apply wp_ret].
  apply wp_UpdatePassword; intros; same_users.
Qed.

Lemma chat_handle_sound now call w : tidy call → UsersSound (get_users w) →
  wp (handle now call) (λ _ w', UsersSound (get_users w')) w.
Proof.
  intros Ht Hs. destruct (changes_users call) eqn:Hc.
  2:{ pose proof (keeps_get_users config now answers Unmarshal_ToUserID call Hc) as Hk.
      apply (wp_keeps get_users (handle now call)). intros r w' E. by rewrite E. }
  destruct call; try discriminate Hc; cbn [chat_handle]; unfold drop.
  - apply wp_bind. eapply wp_mono; [|apply RegisterUser_adds].
    intros [] w' [E|Ha]; try (apply wp_ret); rewrite ?E; eauto using UsersSound_added.
  - by apply ResetPassword_sound.
  - by apply ChangePassword_sound.
  - by apply UpdateUserInfo_sound.
  - eapply wp_mono; [|apply AddUserAccount_adds]. intros r w' [->|Ha]; eauto using UsersSound_added.
  - by apply CancellationUser_sound.
Qed.

(** C16: Over any calls, cancellations included, but the updates of a user that name both
    a number and an area code that is not empty (they check one number and write another): every user has a
    registration, a password and data, and no two users have one phone number with one
    area code. A cancelled user keeps the number and has no area code, which the
    statement does not compare. *)
Theorem users_stay_sound vs w : UsersSound (get_users w) → (∀ v, v ∈ vs → tidy (chv_call v)) →
  UsersSound (get_users (serve vs w)).
Proof.
  revert w. induction vs as [|v vs IH]; intros w Hs Ht; [done|]. cbn. apply IH.
  - pose proof (chat_handle_sound (chv_now v) (chv_call v) w (Ht v ltac:(left)) Hs) as Hw. by rewrite wp_eq in Hw.
  - intros v' ?. apply Ht. by right.
Qed.

(** ** Verification codes *)

(** The newest code of an account. *)
Definition newest_code (t : CodT) (account : string) (c : VerifyCodeRow) : Prop :=
  rows t !! Vc_ID c = Some c ∧ Vc_Account c = account ∧ ∀ i c', rows t !! i = Some c' → Vc_Account c' = account → i ≤ Vc_ID c.
(** The code that is accepted: the configured one, where none are sent; or else the newest,
    not yet old or worn out. *)
Definition good_code (now : Z) (t : CodT) (account code : string) (id : Z) : Prop :=
  code ≠ "" ∧
  if bool_decide (cfg_Use config = "") then code = cfg_SuperCode config
  else ∃ c, newest_code t account c ∧ Vc_ID c = id ∧ Vc_Code c = code ∧ Vc_Used c = false ∧
    Unix now ≤ add64 (Unix (Vc_CreateTime c)) (wrap64 (Vc_Duration c)) ∧
    (0 < cfg_MaxCount config → Vc_Count c < cfg_MaxCount config).
Definition mismatch : error := Wrap ErrVerifyCodeNotMatch "".
(** A guess that is refused: the codes stay, or the newest has counted it. *)
Definition guess_refused (t : CodT) (account : string) (e : error) (t' : CodT) : Prop :=
  (rows t' = rows t ∧ (e = mismatch → cfg_Use config = "" ∨ cfg_MaxCount config ≤ 0)) ∨
  (e = mismatch ∧ ∃ c, newest_code t account c ∧ Vc_Count c < cfg_MaxCount config ∧
     rows t' = alter VerifyCode_incr (Vc_ID c) (rows t)).

Lemma put_codes_same w : put_codes (ac_codes w) w = w.
Proof. by destruct w. Qed.
Lemma external_mismatch e : external e → WrapErr "" e ≠ mismatch.
Proof. intros [n Hn]. unfold WrapErr, mismatch. rewrite Hn. congruence. Qed.

Lemma wp_verifyCode now account code (Q : outcome Z → W → Prop) w :
  (∀ id, good_code now (ac_codes w) account code id → Q (Ok id) w) →
  (∀ e t, guess_refused (ac_codes w) account e t → Q (Err e) (put_codes t w)) →
  wp (verifyCode config now account code) Q w.
Proof.
  intros Hok He. assert (∀ e, e ≠ mismatch → Q (Err e) w) as Hother.
  { intros e Hn. rewrite <-(put_codes_same w). apply He. left. split; [done|]. congruence. }
  unfold verifyCode. apply wp_bind, wp_guard; intros Hcode; bool_facts; [by apply Hother|].
  unfold good_code in Hok. case_bool_decide as Huse; cbv zeta.
  { apply wp_bind, wp_guard; intros Hsuper; bool_facts; [|by apply wp_ret, Hok].
    rewrite <-(put_codes_same w). apply He. left. auto. }
  apply wp_bind, wp_try, wp_chat_read; [intros []; reflexivity| |].
  2:{ intros e [[-> _]|Hx]%TakeLast_err; [by apply Hother|]. rewrite external_not_found by done.
      apply Hother, external_mismatch, Hx. }
  intros c (Hacc & Hc & Hmax)%TakeLast_ok. unfold code_of in *. apply bool_decide_eq_true in Hacc.
  assert (newest_code (ac_codes w) account c) as Hnew.
  { split; [done|]. split; [done|]. intros i c' Hi Ha. apply (Hmax _ _ Hi). by apply bool_decide_eq_true. }
  apply wp_bind, wp_guard; intros Hold; bool_facts; [by apply Hother|].
  apply wp_bind, wp_guard; intros Hused; [by apply Hother|].
  destruct (0 <? cfg_MaxCount config) eqn:Hm; bool_facts.
  - apply wp_bind, wp_bind, wp_guard; intros Hcount; bool_facts; [by apply Hother|]. cbn beta iota.
    case_bool_decide as Hright; cbn [negb].
    + apply wp_ret, wp_bind, wp_ret, wp_ret, Hok. split; [done|]. by exists c.
    + apply wp_zoom, wp_wrap_error, wp_bind, wp_sql_Updates; [by intros; rewrite verify_codes_key| |].
      * intros t n Ht. apply wp_ret, wp_bind, wp_fail, He. right. split; [done|]. exists c. split; [done|]. split; [done|].
        rewrite Ht. apply (fmap_key_alter (T:=CodT)); [apply rows_key|]. intros r. unfold code_has_id.
        by rewrite verify_codes_key, Z.eqb_eq.
      * intros t e Hx Ht. apply He. left. split; [done|]. intros E. by apply external_mismatch in E.
  - apply wp_bind, wp_ret, wp_bind, wp_guard; intros Hright; bool_facts.
    + rewrite <-(put_codes_same w). apply He. left. auto.
    + apply wp_ret, Hok. split; [done|]. exists c. repeat (split; [done|]). lia.
Qed.

(** *** Guesses *)

Lemma newest_code_unique t account c c' : newest_code t account c → newest_code t account c' → c = c'.
Proof.
  intros (Hc & Ha & Hm) (Hc' & Ha' & Hm'). pose proof (Hm _ _ Hc' Ha'). pose proof (Hm' _ _ Hc Ha).
  assert (Vc_ID c = Vc_ID c') as E by lia. rewrite E in Hc. congruence.
Qed.
(** A code that counts a guess, another's or its own. *)
Lemma newest_code_incr t t' account c i : newest_code t account c → rows t' = alter VerifyCode_incr i (rows t) →
  newest_code t' account (if decide (i = Vc_ID c) then VerifyCode_incr c else c).
Proof.
  intros (Hc & Ha & Hm) E. split; [|split].
  - rewrite E. case_decide as Hi; [subst i; cbn; by rewrite lookup_alter_eq, Hc|by rewrite lookup_alter_ne].
  - by case_decide.
  - intros k x. rewrite E, lookup_alter_fmap, fmap_Some. intros (y & Hy & ->) Hx.
    apply (Hm k y) in Hy; [by destruct (decide (i = Vc_ID c))|]. by destruct (decide (k = i)).
Qed.

(** How many of the guesses at the code of an account are told to be wrong. *)
Fixpoint mismatches (account : string) (vs : list (Z * VerifyCodeReq)) (w : W) : Z :=
  match vs with
  | [] => 0
  | (now, req) :: vs =>
      let '(r, w') := VerifyCode config now req w in
      (match r with
       | Err e => if bool_decide (guessed_account req = account ∧ e = mismatch) then 1 else 0
       | _ => 0
       end) + mismatches account vs w'
  end.

(** C18: Where codes are sent ([cfg_Use] is set) and tries are counted ([cfg_MaxCount] is
    positive), no more guesses at the newest code of an account are
    answered by "wrong" than [cfg_MaxCount] leaves, whatever is guessed at other
    codes in between, and however the database fails. Where no codes are sent, guesses at the
    configured one are not counted. *)
Theorem guesses_are_bounded account vs w c : cfg_Use config ≠ "" → 0 < cfg_MaxCount config →
  newest_code (ac_codes w) account c →
  mismatches account vs w ≤ Z.max 0 (cfg_MaxCount config - Vc_Count c).
Proof.
  intros Huse Hmax. revert w c. induction vs as [|[now req] vs IH]; intros w c Hnew; [cbn; lia|]. cbn [mismatches].
  assert (wp (VerifyCode config now req) (λ r w',
    (match r with Err e => if bool_decide (guessed_account req = account ∧ e = mismatch) then 1 else 0 | _ => 0 end) +
    mismatches account vs w' ≤ Z.max 0 (cfg_MaxCount config - Vc_Count c)) w) as Hw;
    [|unfold wp in Hw; by destruct (VerifyCode config now req w)].
  apply wp_bind, wp_verifyCode; [intros id _; by apply wp_ret, IH|].
  intros e t [[Hsame Hn]|(-> & c' & Hnew' & Hcount & Ht)].
  - rewrite bool_decide_eq_false_2 by (intros [_ ?]; destruct Hn; [done|done|lia]). apply (IH (put_codes t w)).
    unfold newest_code. cbn. by rewrite Hsame.
  - pose proof (newest_code_incr _ _ _ _ _ Hnew Ht) as Hnext. specialize (IH (put_codes t w) _ Hnext).
    case_bool_decide as Hacc; [destruct Hacc as [Hacc _]|].
    + rewrite Hacc in Hnew'. rewrite (newest_code_unique _ _ _ _ Hnew' Hnew) in *. rewrite decide_True in IH by done.
      cbn in IH |- *. lia.
    + rewrite decide_False in IH; [cbn in IH |- *; lia|]. intros E. apply Hacc. split; [|done].
      destruct Hnew as (Hc & <- & _), Hnew' as (Hc' & <- & _). rewrite E in Hc'. congruence.
Qed.

(** ** Who sets a password *)

Definition password_of (t : AccT) (u : string) : option string := Acc_Password <$> rows t !! u.
(** The address that a request gives. *)
Definition contact_account (email areaCode phoneNumber : string) : string :=
  if bool_decide (email = "") then verifyCodeJoin areaCode phoneNumber else email.
(** Whether a user has the address. *)
Definition has_contact (email areaCode phoneNumber : string) (a : Attribute) : Prop :=
  if bool_decide (email = "") then has_phone areaCode phoneNumber a = true else At_Email a = email.

(** Whether a call may set the password of [u]: the user's own change, with the current
    password; an administrator's; a reset with the right code for the user's address;
    or one with an invitation that the user has used and that allows it. *)
Definition may_set (now : Z) (w : W) (call : chat_call) (u : string) : Prop :=
  match call with
  | Call_ChangePassword ctx req => ∃ op ty, mctx_Check ctx = inl (op, ty) ∧
      (ty = AdminUser ∨ op = u ∧ password_of (ac_accounts w) u = Some (Cp_CurrentPassword req))
  | Call_ResetPassword req =>
      if bool_decide (Rp_AuthCode req = "") then
        ∃ a id, rows (ac_attributes w) !! u = Some a ∧ has_contact (Rp_Email req) (Rp_AreaCode req) (Rp_PhoneNumber req) a ∧
          good_code now (ac_codes w) (contact_account (Rp_Email req) (Rp_AreaCode req) (Rp_PhoneNumber req)) (Rp_VerifyCode req) id
      else ∃ i, rows (ac_invitations w) !! Rp_AuthCode req = Some i ∧ Inv_UsedByUserID i = u ∧ Inv_AllowResetPassword i = 1
  | _ => False
  end.

Lemma password_alter t t' now pw v u p : rows t' = alter (Account_set_password now pw) v (rows t) →
  password_of t u = Some p → u ≠ v → password_of t' u = Some p.
Proof. intros E Hp Hne. unfold password_of. by rewrite E, lookup_alter_ne. Qed.

Lemma wp_verify_contact now email ar ph code (Q : outcome Z → W → Prop) w :
  (∀ id, good_code now (ac_codes w) (contact_account email ar ph) code id → Q (Ok id) w) →
  (∀ e t, Q (Err e) (put_codes t w)) → wp (verify_contact config now email ar ph code) Q w.
Proof. intros Hok He. unfold verify_contact, contact_account in *. case_bool_decide; by apply wp_verifyCode. Qed.

Lemma wp_GetAttributeByContact email ar ph (Q : outcome Attribute → W → Prop) w :
  (∀ a, rows (ac_attributes w) !! At_UserID a = Some a → has_contact email ar ph a → Q (Ok a) w) → (∀ e, Q (Err e) w) →
  wp (if bool_decide (email = "") then GetAttributeByPhone ar ph else GetAttributeByEmail email) Q w.
Proof.
  intros Hok He. unfold has_contact in Hok. case_bool_decide; (apply wp_chat_read; [intros []; reflexivity| |by auto]);
    intros a [Ha1 Ha2]%Take_ok; rewrite attributes_key in Ha2; apply Hok; try done. by apply bool_decide_eq_true in Ha1.
Qed.

Section OnePassword.
Context (u p : string).
Abbreviation kept w' := (password_of (ac_accounts w') u = Some p).

Lemma ResetPassword_guarded now req w : kept w →
  wp (ResetPassword config now req) (λ _ w', kept w' ∨ may_set now w (Call_ResetPassword req) u) w.
Proof.
  intros Hp. cbn [may_set]. unfold ResetPassword. apply wp_bind, wp_guard; intros _; [by left|]. cbn beta iota.
  case_bool_decide as Hauth; cbn [negb].
  - apply wp_bind, wp_verify_contact; [|intros; by left]. intros id Hgood. cbn beta iota.
    apply wp_bind, wp_GetAttributeByContact; [|intros; by left]. intros a Ha Hc. cbn beta iota.
    apply wp_bind, wp_try, wp_UpdatePasswordAndDeleteVerifyCode; [|intros; by apply wp_ret; left].
    intros t c Ht _. apply wp_ret. destruct (decide (u = At_UserID a)) as [->|Hne]; [right; by exists a, id|].
    left. by eapply password_alter.
  - assert (returns (VerifyResetPasswordCodeAndGetUserID (Rp_AuthCode req) (Rp_AreaCode req) (Rp_PhoneNumber req))
      (λ v w', w' = w ∧ (v.1 = true → ∃ i, rows (ac_invitations w) !! Rp_AuthCode req = Some i ∧ Inv_UsedByUserID i = v.2 ∧
        Inv_AllowResetPassword i = 1)) w) as Hv.
    { apply returns_bind, returns_FindInvitationCode; [intros _; by apply returns_ret|]. intros i x Hi Hu Ha. cbn.
      case_bool_decide; [by apply returns_ret|]. destruct (negb _) eqn:E; [by apply returns_ret|]. apply returns_ret.
      split; [done|]. intros _. exists i. bool_facts. split; [done|]. by rewrite <-Hu, <-Ha. }
    apply wp_bind. eapply wp_mono; [|apply (wp_and_keeps ac_accounts); [step_keeps|]; eapply wp_mono; [|exact Hv]].
    2:{ intros r w' Hr E. exact (conj E Hr). }
    intros [v|e| |] w' [E Hr]; try (left; by rewrite E). destruct (Hr _ eq_refl) as [-> Hv']. clear Hv.
    apply wp_bind, wp_guard; intros Hb; bool_facts; [by left|]. cbn beta iota.
    apply wp_UpdatePassword; [|intros t e Ht; left; unfold password_of; cbn; by rewrite Ht].
    intros t Ht. destruct (decide (u = v.2)) as [->|Hne]; [right; by apply Hv'|]. left. by eapply password_alter.
Qed.

Lemma ChangePassword_guarded now ctx req w : kept w →
  wp (ChangePassword now ctx req) (λ _ w', kept w' ∨ may_set now w (Call_ChangePassword ctx req) u) w.
Proof.
  intros Hp. cbn [may_set]. unfold ChangePassword. do 2 (apply wp_bind, wp_guard; intros _; [by left|]; cbn beta iota).
  apply wp_bind, wp_lift; [|intros; by left]. intros [op ty] Hc. cbn [fst snd].
  assert (∀ (Q : outcome string → W → Prop) v, (∀ uid, ty = AdminUser ∨ uid = op → Q (Ok uid) v) → (∀ e, Q (Err e) v) →
    wp (password_user req op ty) Q v) as Huser.
  { intros Q v Hok He. unfold password_user. cbv zeta. wp_run; eauto; apply Hok; bool_facts; auto. }
  apply wp_bind, Huser; [|intros; by left]. clear Huser. intros uid Huid. cbn beta iota.
  apply wp_bind, wp_chat_read; [intros []; reflexivity| |intros; by left]. intros a [Ha1 Ha2]%Take_ok. cbn beta iota.
  apply bool_decide_eq_true in Ha1. rewrite accounts_key, Ha1 in Ha2.
  apply wp_bind, wp_guard; intros Hcur; [by left|]. cbn beta iota. case_match; [|apply wp_ret; by left].
  apply wp_UpdatePassword; [|intros t e Ht; left; unfold password_of; cbn; by rewrite Ht].
  intros t Ht. destruct (decide (u = uid)) as [->|Hne]; [|left; by eapply password_alter]. right. exists op, ty. split; [done|].
  destruct Huid as [-> | ->]; [by left|]. bool_facts; [by left|]. right. split; [done|]. unfold password_of. rewrite Ha2. cbn. congruence.
Qed.

(** C14: A password that a user has stays, whatever the call and however it
    ends, unless the call shows that it may set it: the user's current password, an
    administrator, the newest code sent to the user's own address, or an invitation
    that the user registered with and that allows it. *)
Theorem passwords_are_guarded now call w : kept w → kept (handle now call w).2 ∨ may_set now w call u.
Proof.
  intros Hp. apply (wp_eq (handle now call) (λ _ w', kept w' ∨ may_set now w call u)).
  destruct (changes_users call) eqn:Hc.
  2:{ pose proof (keeps_get_users config now answers Unmarshal_ToUserID call Hc) as Hk.
      apply (wp_keeps get_users (handle now call)). intros r w' E. left. by injection E as _ -> _. }
  assert (∀ w', get_users w' = get_users w ∨ user_added (get_users w) (get_users w') → kept w') as Hadd.
  { intros w' [E|(rg & a & t & _ & _ & Hn & _ & _ & E & _)]; [by injection E as _ -> _|]. cbn in Hn, E. unfold password_of in *. rewrite E.
    rewrite lookup_insert_ne; [done|]. intros Eu. rewrite Eu in Hn. by rewrite Hn in Hp. }
  destruct call; try discriminate Hc; cbn [chat_handle may_set]; unfold drop.
  - apply wp_bind. eapply wp_mono; [|apply RegisterUser_adds]. intros [] w' Ha; try apply wp_ret; left; by apply Hadd.
  - by apply ResetPassword_guarded.
  - by apply ChangePassword_guarded.
  - assert (Keeps ac_accounts (UpdateUserInfo ctx req)) by step_keeps.
    apply (wp_keeps ac_accounts (UpdateUserInfo ctx req)). intros r w' E. left. by rewrite E.
  - eapply wp_mono; [|apply AddUserAccount_adds]. intros r w' Ha. left. by apply Hadd.
  - assert (Keeps ac_accounts (CancellationUser ctx UserID)) by step_keeps.
    apply (wp_keeps ac_accounts (CancellationUser ctx UserID)). intros r w' E. left. by rewrite E.
Qed.
End OnePassword.

(** ** Who is let in by an invitation *)

(** A deployment whose table of invitations answers. *)
Class InvitationsWork : Prop := {
  inv_find_works (p : InvitationRegister → bool) (t : InvT) : ∃ l, sql_Find p t = inl l;
  inv_updates_work (p : InvitationRegister → bool) f (t : InvT) : ∃ n, (sql_Updates p f t).1 = inl n;
}.

(** The code has been used. *)
Definition spent (code : string) (t : InvT) : Prop := ∃ i, rows t !! code = Some i ∧ Inv_UsedByUserID i ≠ "".
(** Registration asks for an invitation. *)
Definition invites w : Prop := ∃ conf, (GetConfig w).1 = Ok conf ∧ need_invitation conf = true.
Definition spares (code : string) (call : chat_call) : Prop :=
  match call with Call_DelInvitationCode _ Codes => code ∉ Codes | _ => True end.

Lemma invitation_is_key code i : invitation_is code i = true ↔ table_key (T:=InvT) i = code.
Proof. unfold invitation_is. by rewrite invitations_key, bool_decide_eq_true. Qed.

Lemma wp_UpdateInvitationRegister code c (Q : outcome () → W → Prop) w :
  (∀ t, rows t = alter (set_invitation_column c) code (rows (ac_invitations w)) → Q (Ok ()) (put_invitations t w)) →
  (∀ t e, ((∀ p f (t : InvT), ∃ n, (sql_Updates p f t).1 = inl n) → False) → rows t = rows (ac_invitations w) → Q (Err e) (put_invitations t w)) →
  wp (UpdateInvitationRegister code c) Q w.
Proof.
  intros Hok He. assert (∀ i, table_key (T:=InvT) (set_invitation_column c i) = table_key (T:=InvT) i) as Hk.
  { intros i. rewrite invitations_key. by destruct i, c. }
  apply wp_zoom, wp_wrap_error, wp_bind, wp_stmt. intros [n|e] t E; cbn.
  - apply wp_ret, Hok. apply Updates_ok in E as [E _]; [|done]. rewrite E.
    apply (fmap_key_alter (T:=InvT)); [apply rows_key|apply invitation_is_key].
  - apply He; [|by apply Updates_err in E as [_ E]]. intros Hw.
    destruct (Hw (invitation_is code) (set_invitation_column c) (ac_invitations w)) as [n Hn]. by rewrite E in Hn.
Qed.

Lemma spent_alter c code' code t t' : rows t' = alter (set_invitation_column c) code' (rows t) → spent code t →
  match c with icol_user_id u => code' = code → u ≠ "" | _ => True end → spent code t'.
Proof.
  intros E (i & Hi & Hu) Hc. unfold spent. rewrite E, lookup_alter_fmap, Hi. cbn. eexists. split; [done|].
  case_decide as Hk; [|done]. subst code'. destruct i, c; [by apply Hc|done].
Qed.

(** Using a code that is there: it is spent afterwards. *)
Lemma UseInvitationCode_spent ctx u code w : spent code (ac_invitations w) →
  wp (UseInvitationCode ctx u code) (λ _ w', spent code (ac_invitations w')) w.
Proof.
  intros Hs. apply wp_bind, wp_lift; [|done]. intros _ _. cbn beta iota.
  apply wp_bind, wp_FindInvitationRegister; [by intros; apply wp_fail|intros i Hi|done].
  apply wp_bind, wp_guard; intros Hused; bool_facts; [done|]. exfalso. destruct Hs as (j & Hj & Hn). congruence.
Qed.
Lemma UseInvitationCode_spends `{!InvitationsWork} ctx u code w (Q : outcome () → W → Prop) : u ≠ "" →
  (∃ c, mctx_Check ctx = inl c) → is_Some (rows (ac_invitations w) !! code) →
  (∀ r w', spent code (ac_invitations w') → Q r w') → wp (UseInvitationCode ctx u code) Q w.
Proof.
  intros Hu [c Hc] [i Hi] HQ. apply wp_bind, wp_lift; [|by rewrite Hc]. intros _ _. cbn beta iota.
  apply wp_bind, wp_FindInvitationRegister; [congruence|intros j Hj|].
  - assert (j = i) as -> by congruence. apply wp_bind, wp_guard; intros Hused; bool_facts.
    { apply HQ. by exists i. }
    apply wp_UpdateInvitationRegister; [|intros t e Hno _; destruct Hno; apply inv_updates_work].
    intros t Et. apply HQ. unfold spent. cbn. rewrite Et, lookup_alter_eq, Hi. eexists. split; [done|]. by destruct i.
  - intros e _ [p Hp]. destruct (inv_find_works p (ac_invitations w)) as [l Hl]. congruence.
Qed.

(** *** Registration with an invitation *)

Lemma returns_skip {A B X} (f : W → X) (m : M W A) (k : A → M W B) (P : B → W → Prop) w : Keeps f m →
  (∀ a w', f w' = f w → returns (k a) P w') → returns (m ≫= k) P w.
Proof. intros Hm Hk. by apply returns_bind, (returns_keeps f). Qed.

Lemma returns_check_invitation code w :
  returns (check_invitation code) (λ _ w', w' = w ∧ ∃ i, rows (ac_invitations w) !! code = Some i ∧ Inv_UsedByUserID i = "") w.
Proof.
  apply returns_bind, returns_guard. intros _. apply returns_bind, returns_FindInvitationCode; [by intros; apply returns_fail|].
  intros i x Hi Hx _. apply returns_guard. intros Hu. bool_facts. split; [done|]. exists i. by rewrite <-Hx.
Qed.
Lemma returns_may_register now req user w : invites w →
  returns (may_register config now req user) (λ used w', used = true ∧ w' = w ∧
    ∃ i, rows (ac_invitations w) !! Rr_InvitationCode req = Some i ∧ Inv_UsedByUserID i = "") w.
Proof.
  intros (conf & Hconf & Hneed). apply returns_bind, returns_guard. intros _.
  assert (ReadOnly (CheckRegister (Rr_Ip req))).
  { unfold CheckRegister, CheckRegisterForbidden, FindIPForbidden, on_ips, IPForbidden_Find. apply _. }
  apply returns_bind, (returns_read_only _). intros []. apply returns_bind.
  assert (ReadOnly GetConfig) by (unfold GetConfig, on_configs, ClientConfig_Get; apply _).
  apply wp_read_only; [done|]. intros r Er c ->. change (GetConfig w = (Ok c, w)) in Er. rewrite Er in Hconf. injection Hconf as ->.
  rewrite Hneed. apply returns_bind. eapply wp_mono; [|apply returns_check_invitation].
  intros r w' Hr [] ->. destruct (Hr () eq_refl) as [-> Hi]. by apply returns_ret.
Qed.
Lemma returns_choose_user_id uid w : returns (choose_user_id uid) (λ id _, id ≠ "") w.
Proof.
  unfold choose_user_id. case_bool_decide as Hu.
  - apply returns_bind. apply (wp_mono _ (λ _ _, True)); [|by apply wp_eq]. intros r w' _ id ->.
    apply returns_bind, returns_guard. intros Hid. apply returns_ret. by bool_facts.
  - apply returns_bind, returns_try. apply wp_eq.
    destruct (GetUser uid w).1; [by apply returns_fail| |done..]. case_match; [by apply returns_ret|by apply returns_fail].
Qed.

Lemma not_admin now ctx req user w (P : bool → W → Prop) isAdmin : HaveOpUser ctx = false → CheckNilOrAdmin ctx = inl isAdmin →
  returns (may_register config now req user) P w → returns (if negb isAdmin then may_register config now req user else mret false) P w.
Proof. unfold CheckNilOrAdmin. intros -> [= <-]. done. Qed.
Lemma WithAdminUser_Check adm rest ctx : cfg_AdminList config = adm :: rest → adm ≠ "" →
  ∃ c, mctx_Check (WithAdminUser (cfg_AdminList config) ctx) = inl c.
Proof. intros -> Ha. unfold mctx_Check. cbn. rewrite bool_decide_eq_false_2 by done. by eexists. Qed.

(** The configuration names an administrator, in whose name a registration uses its code. *)
Definition administered : Prop := ∃ adm rest, cfg_AdminList config = adm :: rest ∧ adm ≠ "".
Lemma UseInvitationCode_by_admin ctx u code w : u ≠ "" → is_Some (rows (ac_invitations w) !! code) →
  wp (UseInvitationCode (WithAdminUser (cfg_AdminList config) ctx) u code)
    (λ _ w', administered → InvitationsWork → spent code (ac_invitations w')) w.
Proof.
  intros Hu Hi. apply wp_eq. intros (adm & rest & Hadm & Hne) Hw.
  pose proof (UseInvitationCode_spends (WithAdminUser (cfg_AdminList config) ctx) u code w
    (λ _ w', spent code (ac_invitations w')) Hu (WithAdminUser_Check adm rest ctx Hadm Hne) Hi ltac:(done)) as Hs.
  by rewrite wp_eq in Hs.
Qed.

(** Registering with an invitation finds the code unused, and uses it. *)
Lemma RegisterUser_spends now ctx req w : HaveOpUser ctx = false → invites w →
  returns (RegisterUser config now ctx req) (λ _ w', ¬ spent (Rr_InvitationCode req) (ac_invitations w) ∧
    (administered → InvitationsWork → spent (Rr_InvitationCode req) (ac_invitations w'))) w.
Proof.
  intros Hctx Hinv. unfold RegisterUser. apply returns_bind, returns_lift. intros isAdmin HA. cbv zeta.
  destruct (Rr_User req) as [user|]; [|apply returns_fail]. apply returns_bind, returns_guard. intros _.
  apply returns_bind, (not_admin _ ctx); [done..|]. eapply wp_mono; [|by apply returns_may_register].
  intros r w' Hr used ->. destruct (Hr used eq_refl) as (-> & -> & i & Hi & Hu). clear Hr.
  assert (¬ spent (Rr_InvitationCode req) (ac_invitations w)) as Hnot by (intros (j & Hj & Hju); congruence).
  apply returns_bind, (wp_and_keeps ac_invitations); [step_keeps|]. eapply wp_mono; [|apply returns_choose_user_id].
  intros r w1 Hr E1 userID ->. specialize (Hr userID eq_refl). rename Hr into Hid.
  apply (returns_skip ac_invitations); [step_keeps|]. intros phone w2 E2.
  apply (returns_skip ac_invitations); [step_keeps|]. intros _ w3 E3.
  apply (returns_skip ac_invitations); [step_keeps|]. intros ty w4 E4.
  apply (returns_skip ac_invitations); [step_keeps|]. intros _ w5 E5.
  apply returns_bind. apply wp_bind, wp_try.
  eapply wp_mono; [|apply UseInvitationCode_by_admin; [done|by rewrite E5, E4, E3, E2, E1, Hi]].
  intros r w6 Hs. assert (returns (chatToken ← (if Rr_AutoLogin req then
             r ← try (CreateToken config now userID NormalUser);
             mret (match r with inl token => token | inr _ => "" end) else mret "");
      mret (mkRegisterUserResp userID chatToken)) (λ _ w', ¬ spent (Rr_InvitationCode req) (ac_invitations w) ∧
    (administered → InvitationsWork → spent (Rr_InvitationCode req) (ac_invitations w'))) w6) as Hend.
  { apply (returns_skip ac_invitations); [step_keeps|]. intros tok w7 E7. apply returns_ret. by rewrite E7. }
  destruct r; try done; by apply wp_ret.
Qed.

Lemma wp_stay {A B} (P : W → Prop) (m : M W A) (k : A → M W B) w :
  wp m (λ _ w', P w') w → (∀ a w', P w' → wp (k a) (λ _ w', P w') w') → wp (m ≫= k) (λ _ w', P w') w.
Proof. intros Hm Hk. apply wp_bind. eapply wp_mono; [|exact Hm]. intros [a|e| |] w' HP; auto. Qed.

(** *** A used code stays used *)

Section Spent.
Context (code : string).
Abbreviation stays_spent m w := (spent code (ac_invitations w) → wp m (λ _ w', spent code (ac_invitations w')) w).
Ltac skip_invitations := apply (wp_skip ac_invitations _ _ (spent code)); [solve [step_keeps]|by auto|].

Lemma Creat_spent l w : stays_spent (CreatInvitationRegister l) w.
Proof.
  intros (i & Hi & Hu). apply wp_zoom, wp_wrap_error, wp_sql_Create; [|intros t e _ E; exists i; cbn; rewrite E; done].
  intros t Hd Hn E. exists i. split; [|done]. cbn. rewrite E, lookup_insert_rows_ne; [done|].
  intros r Hr Hk. specialize (Hn r Hr). congruence.
Qed.
Lemma Del_spent codes w : code ∉ codes → stays_spent (DelInvitationRegister codes) w.
Proof.
  intros Hc (i & Hi & Hu). apply wp_zoom, wp_wrap_error, wp_sql_Delete; [|intros t e _ E; exists i; cbn; rewrite E; done].
  intros t E. exists i. split; [|done]. cbn. rewrite E. apply map_lookup_filter_Some. split; [done|].
  apply (rows_key (T:=InvT)) in Hi. rewrite invitations_key in Hi. cbn. rewrite Hi. by apply bool_decide_eq_false.
Qed.
Lemma Update_spent c allow w : stays_spent (UpdateInvitationRegister c (icol_allow_reset_password allow)) w.
Proof.
  intros Hs. apply wp_UpdateInvitationRegister; [|intros t e _ E; unfold spent in *; cbn; by rewrite E].
  intros t E. by eapply spent_alter.
Qed.

Lemma UseInvitationCode_stays ctx u c w : stays_spent (UseInvitationCode ctx u c) w.
Proof.
  intros Hs. destruct (decide (c = code)) as [->|Hne]; [by apply UseInvitationCode_spent|].
  unfold UseInvitationCode. do 2 (skip_invitations; intros ? ? E; rewrite <-E in Hs; clear E).
  case_match; [by apply wp_fail|]. skip_invitations; intros ? ? E; rewrite <-E in Hs; clear E.
  apply wp_UpdateInvitationRegister; [|intros t e _ E; unfold spent in *; cbn; by rewrite E].
  intros t E. eapply spent_alter; [exact E|done|by intros ->].
Qed.

Lemma RegisterUser_spent now ctx req w : stays_spent (RegisterUser config now ctx req) w.
Proof.
  intros Hs. unfold RegisterUser. skip_invitations. intros isAdmin w1 E1. rewrite <-E1 in Hs. cbv zeta.
  destruct (Rr_User req) as [user|]; [|by apply wp_fail]. skip_invitations. intros [] w2 E2. rewrite <-E2 in Hs.
  skip_invitations. intros used w3 E3. rewrite <-E3 in Hs. skip_invitations. intros id w4 E4. rewrite <-E4 in Hs.
  skip_invitations. intros ph w5 E5. rewrite <-E5 in Hs. skip_invitations. intros [] w6 E6. rewrite <-E6 in Hs.
  skip_invitations. intros ty w7 E7. rewrite <-E7 in Hs. skip_invitations. intros [] w8 E8. rewrite <-E8 in Hs.
  apply (wp_stay (λ w', spent code (ac_invitations w'))).
  - destruct used; [|by apply wp_ret]. apply (wp_stay (λ w', spent code (ac_invitations w'))); [|by intros; apply wp_ret].
    apply wp_try. eapply wp_mono; [|by apply UseInvitationCode_stays]. by intros [] w'.
  - intros [] w9 Hs9. skip_invitations. intros tok w10 E10. apply wp_ret. by rewrite E10.
Qed.

(** However a call ends, but one that deletes the code. *)
Lemma chat_handle_spent now call w : spares code call → stays_spent (handle now call) w.
Proof.
  intros Hsp Hs. destruct (changes_invitations call) eqn:Hc.
  2:{ pose proof (keeps_invitations config now answers Unmarshal_ToUserID call Hc) as Hk.
      apply (wp_keeps ac_invitations (handle now call)). intros r w' E. by rewrite E. }
  destruct call; try discriminate Hc; cbn [chat_handle]; unfold drop.
  - apply (wp_stay (λ w', spent code (ac_invitations w'))); [by apply RegisterUser_spent|by intros; apply wp_ret].
  - unfold AddInvitationCode. do 5 (skip_invitations; intros ? ? E; rewrite <-E in Hs; clear E). by apply Creat_spent.
  - unfold GenInvitationCode. do 6 (skip_invitations; intros ? ? E; rewrite <-E in Hs; clear E). by apply Creat_spent.
  - by apply UseInvitationCode_stays.
  - unfold DelInvitationCode. do 5 (skip_invitations; intros ? ? E; rewrite <-E in Hs; clear E). by apply Del_spent.
  - unfold SetInvitationCodeAllowResetPassword. do 4 (skip_invitations; intros ? ? E; rewrite <-E in Hs; clear E). by apply Update_spent.
Qed.
Lemma serve_spent vs w : (∀ v, v ∈ vs → spares code (chv_call v)) → spent code (ac_invitations w) →
  spent code (ac_invitations (serve vs w)).
Proof.
  revert w. induction vs as [|v vs IH]; intros w Hv Hs; [done|]. cbn. apply IH; [intros v' ?; apply Hv; by right|].
  pose proof (chat_handle_spent (chv_now v) (chv_call v) w (Hv v ltac:(left)) Hs) as Hw. by rewrite wp_eq in Hw.
Qed.
End Spent.

(** C17: An invitation admits one user: while registration asks for an invitation, who
    registers without an operator's token finds the code unused, and leaves it used where
    the configuration names an administrator and the table of invitations answers. Once
    a code is used, nobody registers with it without an operator's token, whatever calls
    come in between, but one that deletes the code. *)
Theorem invitation_admits_one now ctx req w r w' : HaveOpUser ctx = false → invites w →
  RegisterUser config now ctx req w = (Ok r, w') →
  ¬ spent (Rr_InvitationCode req) (ac_invitations w) ∧
  (administered → InvitationsWork → spent (Rr_InvitationCode req) (ac_invitations w')) ∧
  (∀ u vs now' ctx' req' r', spent (Rr_InvitationCode req) (ac_invitations u) →
     (∀ v, v ∈ vs → spares (Rr_InvitationCode req) (chv_call v)) → invites (serve vs u) →
     HaveOpUser ctx' = false → Rr_InvitationCode req' = Rr_InvitationCode req →
     (RegisterUser config now' ctx' req' (serve vs u)).1 ≠ Ok r').
Proof.
  intros Hctx Hi Hr. apply (returns_spec _ _ _ _ _ (RegisterUser_spends now ctx req w Hctx Hi)) in Hr as [Hn Hs].
  split_and!; [done|done|]. intros u vs now' ctx' req' r' Hused Hv Hi' Hctx' Hcode Hr'. apply (serve_spent _ vs) in Hused; [|done].
  destruct (RegisterUser config now' ctx' req' (serve vs u)) as [o w2] eqn:E. cbn in Hr'. subst o.
  apply (returns_spec _ _ _ _ _ (RegisterUser_spends now' ctx' req' (serve vs u) Hctx' Hi')) in E as [Hnot _].
  apply Hnot. by rewrite Hcode.
Qed.

(** ** Who logs in *)

(** The row that a log-in names, and the area code that it is then given with. *)
Definition asked_for (req : LoginReq) (areaCode : string) (a : Attribute) : Prop :=
  if negb (bool_decide (Lg_Account req = "")) then At_Account a = Lg_Account req ∧ areaCode = Lg_AreaCode req
  else if negb (bool_decide (Lg_PhoneNumber req = "")) then
    (∃ digits, plus_area (Lg_AreaCode req) = Some (areaCode, digits)) ∧ has_phone areaCode (Lg_PhoneNumber req) a = true
  else At_Email a = Lg_Email req ∧ Lg_Email req ≠ "" ∧ areaCode = Lg_AreaCode req.
(** Whom the administration lets in from an address. *)
Record admitted (ip userID : string) (w : W) : Prop := {
  ip_not_forbidden i : rows (ac_ips w) !! ip = Some i → Ip_LimitLogin i = false;
  ip_is_his : is_Some (rows (ac_limits w) !! (userID, ip)) ∨
    (Z.of_nat (size (filter (λ kl, bool_decide (Li_UserID kl.2 = userID) = true) (rows (ac_limits w)))) `mod` 2 ^ 32 = 0);
  user_not_blocked : rows (ac_blocks w) !! userID = None }.
(** What a log-in that succeeds shows, and leaves. *)
Record logged_in (now : Z) (req : LoginReq) (w : W) (r : LoginResp) (w' : W) (areaCode : string) (a : Attribute) : Prop := {
  row_asked_for : asked_for req areaCode a;
  row_of_user : rows (ac_attributes w) !! Lrs_UserID r = Some a;
  user_admitted : admitted (Lg_Ip req) (Lrs_UserID r) w;
  secret_shown : if bool_decide (Lg_Password req = "")
    then ∃ id, good_code now (ac_codes w) (contact_account (Lg_Email req) areaCode (Lg_PhoneNumber req)) (Lg_VerifyCode req) id ∧
         rows (ac_codes w') = delete id (rows (ac_codes w))
    else password_of (ac_accounts w) (Lrs_UserID r) = Some (Lg_Password req) ∧ rows (ac_codes w') = rows (ac_codes w);
  token_is_his later : now ≤ later → later + 1000 ≤ Cl_ExpiresAt (buildClaims now (Lrs_UserID r) NormalUser (cfg_TokenExpire config)) →
    tokenverify_GetToken later (Lrs_ChatToken r) = inl (Lrs_UserID r, NormalUser);
  login_is_recorded : login_records (ac_records w') = login_records (ac_records w) ++
    [mkUserLoginRecord (Lrs_UserID r) now (Lg_Ip req) (Lg_DeviceID req) (PlatformIDToName (Lg_Platform req))];
  users_same : get_users w' = get_users w }.

Lemma returns_take_attribute p (P : Attribute → W → Prop) w :
  (∀ a, p a = true → rows (ac_attributes w) !! At_UserID a = Some a → P a w) →
  returns (on_attributes (wrap_error (stmt (query (sql_Take p))))) P w.
Proof.
  intros HP. apply returns_read; [intros []; reflexivity|]. intros a [Ha1 Ha2]%Take_ok. rewrite attributes_key in Ha2. auto.
Qed.
Lemma returns_login_attribute req w : returns (login_attribute req)
  (λ v w', w' = w ∧ asked_for req v.2 v.1 ∧ rows (ac_attributes w) !! At_UserID v.1 = Some v.1) w.
Proof.
  unfold login_attribute, asked_for. case_bool_decide; cbn [negb].
  2:{ apply returns_bind, returns_take_attribute. intros a Ha%bool_decide_eq_true Hr. by apply returns_ret. }
  case_bool_decide; cbn [negb].
  - case_bool_decide; cbn [negb]; [apply returns_fail|].
    apply returns_bind, returns_take_attribute. intros a Ha%bool_decide_eq_true Hr. by apply returns_ret.
  - apply returns_bind, returns_guard. intros _. apply returns_bind, returns_bind, returns_deref. intros [ar digits] Hp.
    apply returns_bind. unfold uint_or_fail. case_match; [|apply returns_fail]. apply returns_ret, returns_ret.
    apply returns_bind, returns_take_attribute. intros a Ha Hr. apply returns_ret. cbn. eauto.
Qed.

Lemma returns_check_limit_ip uid ip w : returns (check_limit_ip uid ip)
  (λ _ w', w' = w ∧ (is_Some (rows (ac_limits w) !! (uid, ip)) ∨
    Z.of_nat (size (filter (λ kl, bool_decide (Li_UserID kl.2 = uid) = true) (rows (ac_limits w)))) `mod` 2 ^ 32 = 0)) w.
Proof.
  apply returns_bind, returns_try, wp_chat_read; [intros []; reflexivity| |].
  - intros l [Hp Hr]%Take_ok. apply returns_ret. split; [done|]. left. apply andb_true_iff in Hp as [G1 G2].
    apply bool_decide_eq_true in G1 as <-, G2 as <-. rewrite limit_ips_key in Hr. by exists l.
  - intros e _. case_match; [apply returns_fail|]. apply returns_bind, wp_zoom, wp_bind, wp_wrap_error, wp_query; [|done].
    intros l Hl. apply wp_ret. intros c [= <-]. replace (put_limits _ w) with w by (by destruct w). apply returns_guard. intros Hc%Z.ltb_ge.
    split; [done|]. right. rewrite <-(Find_length _ _ _ Hl). pose proof (Z.mod_pos_bound (len l) (2 ^ 32)). lia.
Qed.
Lemma returns_CheckLogin uid ip w : returns (CheckLogin uid ip) (λ _ w', w' = w ∧ admitted ip uid w) w.
Proof.
  apply returns_bind, returns_read; [intros []; reflexivity|]. intros l Hl.
  apply returns_bind, (wp_for_each l _ (λ done w', w' = w ∧ ∀ i, i ∈ done → Ip_LimitLogin i = false)).
  { split; [done|]. intros i []%not_elem_of_nil. }
  { intros done x rest w' _ [-> Hd]. apply wp_guard; intros Hx; [done|]. split; [done|].
    intros i [Hi|Hi%list_elem_of_singleton]%elem_of_app; [auto|congruence]. }
  intros w' [-> Hd] [] _. apply returns_bind. eapply wp_mono; [|apply returns_check_limit_ip].
  intros r w' Hr [] ->. destruct (Hr () eq_refl) as [-> Hlim]. clear Hr.
  apply returns_bind, returns_try, wp_chat_read; [intros []; reflexivity|by intros; apply returns_fail|].
  intros e [[-> Hn]|Hx]%Take_err; [|rewrite external_not_found by done; apply returns_fail].
  apply returns_ret. split; [done|]. split; [|done|].
  - intros i Hi. apply Hd, (Find_elem _ _ _ _ Hl).
    pose proof (rows_key (T:=IpT) _ _ _ Hi) as Hk. split; [|by rewrite Hk].
    rewrite ip_forbiddens_key in Hk. rewrite Hk. apply bool_decide_eq_true. left.
  - apply eq_None_not_Some. intros [f Hf]. specialize (Hn _ _ Hf). apply (rows_key (T:=BlkT)) in Hf.
    rewrite forbidden_accounts_key in Hf. apply bool_decide_eq_false in Hn. congruence.
Qed.

(** The code that was given for a password, or the password itself. *)
Definition secret_right (now : Z) (req : LoginReq) (areaCode userID : string) (id : option Z) (w : W) : Prop :=
  if bool_decide (Lg_Password req = "")
  then ∃ n, id = Some n ∧ good_code now (ac_codes w) (contact_account (Lg_Email req) areaCode (Lg_PhoneNumber req)) (Lg_VerifyCode req) n
  else id = None ∧ password_of (ac_accounts w) userID = Some (Lg_Password req).
Lemma returns_login_secret now req areaCode userID w : returns (login_secret config now req areaCode userID)
  (λ id w', w' = w ∧ secret_right now req areaCode userID id w) w.
Proof.
  unfold login_secret, secret_right. case_bool_decide.
  - apply returns_bind, wp_verify_contact; [|done]. intros id Hid n [= <-]. apply returns_ret. eauto.
  - apply returns_bind, returns_read; [intros []; reflexivity|]. intros c [Hc Hr]%Take_ok. apply bool_decide_eq_true in Hc.
    rewrite accounts_key, Hc in Hr. apply returns_bind, returns_guard. intros Hp. bool_facts. apply returns_ret.
    split; [done|]. split; [done|]. unfold password_of. rewrite Hr. cbn. congruence.
Qed.

Definition delete_option (id : option Z) (m : gmap Z VerifyCodeRow) : gmap Z VerifyCodeRow :=
  match id with Some n => delete n m | None => m end.
Lemma wp_DelVerifyCode n (Q : outcome () → W → Prop) w :
  (∀ t, rows t = delete n (rows (ac_codes w)) → Q (Ok ()) (put_codes t w)) → (∀ e t, Q (Err e) (put_codes t w)) →
  wp (on_codes (VerifyCode_Delete n)) Q w.
Proof.
  intros Hok He. apply wp_zoom, wp_wrap_error, wp_sql_Delete; [|by auto]. intros t E. apply Hok. rewrite E.
  apply (filter_key_delete (T:=CodT)); [apply rows_key|]. intros c. unfold code_has_id. by rewrite verify_codes_key, Z.eqb_eq.
Qed.
Lemma returns_LoginRecord r id w : returns (LoginRecord r id)
  (λ _ w', login_records (ac_records w') = login_records (ac_records w) ++ [r] ∧
    rows (ac_codes w') = delete_option id (rows (ac_codes w))) w.
Proof.
  apply wp_transaction; [done|]. apply wp_bind, wp_on_fst. unfold UserLoginRecord_Create.
  apply wp_stmt. intros [[]|e] t E; cbn; [|done]. apply record_Create_ok in E. destruct id as [n|].
  - apply wp_on_snd, wp_DelVerifyCode; [|done]. intros u Hu. split; [done|]. by intros [] _.
  - apply wp_ret. split; [done|]. by intros [] _.
Qed.

Lemma CreateToken_GetToken `{!ChatJwtLaws} now later uid ty ttl token : tokenverify_CreateToken now uid ty ttl = inl token →
  now ≤ later → later + 1000 ≤ Cl_ExpiresAt (buildClaims now uid ty ttl) → tokenverify_GetToken later token = inl (uid, ty).
Proof.
  unfold tokenverify_CreateToken. case_match eqn:Hty; [done|]. case_match eqn:Hs; [|done]. intros [= ->] Hl He.
  unfold tokenverify_GetToken, tokenverify_getToken. rewrite (Parse_Signed _ _ later Hs); [cbn; by rewrite Hty|cbn; lia|exact He].
Qed.

(** C15: A log-in succeeds only for the user that it names, whom the administration lets in
    from that address, and with the user's password or an accepted code for the contact
    that it gives; it uses the code up, is recorded, changes no user, and its token
    names the user until it expires. *)
Theorem Login_authenticates `{!ChatJwtLaws} now req w r w' : Login config now req w = (Ok r, w') →
  ∃ areaCode a, logged_in now req w r w' areaCode a.
Proof.
  revert r w'. cut (returns (Login config now req) (λ r w', ∃ areaCode a, logged_in now req w r w' areaCode a) w).
  { intros Hr r w' E. by apply (returns_spec _ _ _ _ _ Hr) in E. }
  assert (Keeps get_users (Login config now req)) by step_keeps.
  apply (wp_and_keeps get_users (Login config now req)).
  cut (returns (Login config now req) (λ r w', get_users w' = get_users w → ∃ areaCode a, logged_in now req w r w' areaCode a) w).
  { apply wp_mono. intros r w' Hr Eu x E. exact (Hr x E Eu). }
  apply returns_bind, returns_guard. intros _. apply returns_bind, returns_try.
  eapply wp_mono; [|apply returns_login_attribute]. intros [[a ar]|e| |] w1 Hr; [|apply returns_fail|done..].
  destruct (Hr _ eq_refl) as (-> & Hasked & Hrow). clear Hr. cbn zeta beta iota in *. cbn [fst snd] in *.
  apply returns_bind. eapply wp_mono; [|apply returns_CheckLogin]. intros r w1 Hr [] ->.
  destruct (Hr () eq_refl) as [-> Hadm]. clear Hr.
  apply returns_bind. eapply wp_mono; [|apply returns_login_secret]. intros r w1 Hr id ->.
  destruct (Hr id eq_refl) as [-> Hsec]. clear Hr.
  apply returns_bind, returns_bind, returns_lift. intros token Htok.
  assert (Keeps (λ w, (login_records (ac_records w), rows (ac_codes w))) (CacheToken (At_UserID a) token)) by step_keeps.
  apply returns_bind, (returns_keeps (λ w, (login_records (ac_records w), rows (ac_codes w))) (CacheToken (At_UserID a) token)). intros [] w1 [= E1 E2]. apply returns_ret.
  apply returns_bind. eapply wp_mono; [|apply returns_LoginRecord]. intros r w2 Hr [] ->.
  destruct (Hr () eq_refl) as [Hrec Hcodes]. clear Hr. rewrite E1 in Hrec. rewrite E2 in Hcodes.
  assert (∀ w3, login_records (ac_records w3) = login_records (ac_records w2) → rows (ac_codes w3) = delete_option id (rows (ac_codes w2)) →
    get_users w3 = get_users w → ∃ areaCode a', logged_in now req w (mkLoginResp token (At_UserID a)) w3 areaCode a') as Hend.
  { intros w3 E3 E4 Eu. exists ar, a. split; [done..| |intros later Hl He; by eapply CreateToken_GetToken|by rewrite E3|done].
    unfold secret_right in Hsec. rewrite E4, Hcodes. case_bool_decide.
    - destruct Hsec as (n & -> & Hg). exists n. split; [done|]. apply delete_delete_eq.
    - by destruct Hsec as [-> Hp]. }
  apply returns_bind. destruct id as [n|].
  - apply wp_DelVerifyCode; [|done]. intros t Ht [] _. apply returns_ret. by apply Hend.
  - apply returns_ret, returns_ret. by apply Hend.
Qed.
End Users.
