(* ===== verification/ChatSamples.v ===== *)
(** * Sample runs of the enterprise chat service

    The stores in memory, tokens that carry their claims, the witnesses of the
    theorems of ChatTheorems.v, and runs that show where the services do not do what
    they mean to. *)

From Stdlib Require Import Ascii.
From S2P Require Import Prelude.
From S2P Require Import Constants.
From S2P Require Import MsgTypes.
From S2P Require Import MsgProcessor.
From S2P Require Import Tools.
From S2P Require Import Redis.
From S2P Require Import Sql.
From S2P Require Import RowCache.
From S2P Require Import FriendTypes.
From S2P Require Import GroupMemory.
From S2P Require Import ChatAccounts.
From S2P Require Import ChatServer.
From S2P Require Import ChatTheorems.
From stdpp Require Import options.

#[local] Open Scope Z_scope.

(** ** The stores *)

Definition newer (c : VerifyCodeRow) (o : option VerifyCodeRow) : option VerifyCodeRow :=
  match o with Some c' => Some (if Vc_ID c' <? Vc_ID c then c else c') | None => Some c end.
Fixpoint newest (l : list VerifyCodeRow) : option VerifyCodeRow :=
  match l with [] => None | c :: l => newer c (newest l) end.
Fixpoint next_id (ids : list Z) : Z :=
  match ids with [] => 1 | i :: ids => Z.max (i + 1) (next_id ids) end.

Lemma newest_none l : newest l = None → l = [].
Proof. destruct l; [done|]. cbn. by destruct (newest l). Qed.
Lemma newest_elem l c : newest l = Some c → c ∈ l ∧ ∀ c', c' ∈ l → Vc_ID c' ≤ Vc_ID c.
Proof.
  revert c. induction l as [|x l IH]; intros c; [done|]. cbn. destruct (newest l) as [y|] eqn:Hl; cbn.
  - specialize (IH y eq_refl) as [Hy Hmax]. intros [= <-]. destruct (Z.ltb_spec (Vc_ID y) (Vc_ID x)).
    + split; [left|]. intros c' [->|Hc]%elem_of_cons; [done|]. specialize (Hmax _ Hc). lia.
    + split; [by right|]. intros c' [->|Hc]%elem_of_cons; auto.
  - apply newest_none in Hl as ->. intros [= <-]. split; [left|]. by intros c' ->%list_elem_of_singleton.
Qed.

Lemma next_id_new ids i : i ∈ ids → i < next_id ids.
Proof. induction ids as [|x ids IH]; [by intros ?%elem_of_nil|]. cbn. intros [->|Hi%IH]%elem_of_cons; lia. Qed.

(** Bytes that count up; commits fail as told. *)
Definition mem_chat (commit : option error) : ChatEngine := {|
  AccT := gmap string Account; RegT := gmap string Register; AttT := gmap string Attribute;
  CodT := gmap Z VerifyCodeRow; RecT := list UserLoginRecord; IpT := gmap string IPForbidden;
  BlkT := gmap string ForbiddenAccount; LimT := gmap (string * string) LimitUserLoginIP;
  InvT := gmap string InvitationRegister; CfgT := gmap string ClientConfig; TokT := mem_redis; RandT := nat;
  accounts_table := mem_table Acc_UserID;
  registers_table := mem_table Rg_UserID;
  attributes_table := mem_table At_UserID;
  verify_codes_table := mem_table Vc_ID;
  ip_forbiddens_table := mem_table Ip_IP;
  forbidden_accounts_table := mem_table Fa_UserID;
  limit_ips_table := mem_table limit_key;
  invitations_table := mem_table Inv_Code;
  configs_table := mem_table Cc_Key;
  next_code_id t := next_id (map_to_list (mem_rows Vc_ID t)).*1;
  sql_TakeLast p t := match newest (mem_find Vc_ID p t) with Some c => inl c | None => inr (Bare GormNotFound) end;
  login_records l := l;
  record_Create r l := (inl (), l ++ [r]);
  chat_redis := mem_redis_commands;
  rand_Read n s := ((λ i, Z.of_nat (s + i) `mod` 256) <$> seq 0 n, (s + n)%nat);
  chat_Begin _ _ := None;
  chat_Commit _ _ := commit |}.

Lemma mem_chat_laws commit : (∀ e, commit = Some e → external e) → @ChatEngineLaws (mem_chat commit).
Proof.
  intros Hc. split; try done; try apply mem_table_laws.
  - intros p t c. cbn. case_match eqn:E; intros [= <-]. apply newest_elem in E as [Hin Hmax].
    apply mem_find_elem in Hin as [Hp Hr]. split; [done|]. split; [done|]. intros i c' Hi Hp'.
    pose proof (mem_rows_key _ _ _ _ Hi) as <-. apply Hmax. unfold mem_find. apply list_elem_of_fmap. exists (Vc_ID c', c').
    split; [done|]. by apply elem_of_map_to_list, map_lookup_filter_Some.
  - intros p t e. cbn. case_match eqn:E; intros [= <-]. left. split; [done|]. intros i c Hi.
    apply newest_none in E. destruct (p c) eqn:Hp; [exfalso|done]. apply (not_elem_of_nil c). rewrite <-E. unfold mem_find.
    apply list_elem_of_fmap. exists (i, c). split; [done|]. by apply elem_of_map_to_list, map_lookup_filter_Some.
  - intros t i c Hi. apply next_id_new. apply list_elem_of_fmap. exists (i, c). split; [done|]. by apply elem_of_map_to_list.
  - by intros r t t' [= <-].
  - apply mem_redis_laws.
  - intros n s. cbn. split; [by rewrite length_fmap, length_seq|]. apply Forall_fmap, Forall_true. intros i. cbn.
    apply Z.mod_pos_bound. lia.
Qed.

(** ** Tokens *)

Definition claims_code (c : ChatClaims) : positive :=
  encode (Cl_UserID c, [Cl_UserType c; Cl_PlatformID c; Cl_ExpiresAt c; Cl_IssuedAt c; Cl_NotBefore c]).
Definition claims_decode (p : positive) : option ChatClaims :=
  match decode (A:=string * list Z) p with
  | Some (u, [ty; pf; ex; ia; nb]) => Some (mkChatClaims u ty pf ex ia nb)
  | _ => None
  end.
(** A token is its claims, as a number. *)
Definition plain_jwt : ChatJwt := {|
  SignedString c := inl (digits_of (claims_code c));
  ParseWithClaims now token :=
    match of_digits token ≫= claims_decode with
    | None => inr (Some (mkJwtErrors true false false))
    | Some c =>
        if Cl_ExpiresAt c <=? now then inr (Some (mkJwtErrors false true false))
        else if (now <? Cl_IssuedAt c) || (now <? Cl_NotBefore c) then inr (Some (mkJwtErrors false false true))
        else inl (c, true)
    end |}.
Lemma plain_jwt_laws : @ChatJwtLaws plain_jwt.
Proof.
  split. intros [u ty pf ex ia nb] tok now [= <-] Hn He. cbn in Hn, He |- *. rewrite of_digits_of. cbn.
  unfold claims_decode, claims_code. rewrite decode_encode. cbn.
  rewrite (proj2 (Z.leb_gt _ _)), (proj2 (Z.ltb_ge _ _)), (proj2 (Z.ltb_ge _ _)) by lia. done.
Qed.

#[local] Existing Instances model_tools model_msg_tools map_order plain_jwt plain_jwt_laws.
#[local] Instance memory : ChatEngine := mem_chat None.
#[local] Instance memory_laws : ChatEngineLaws. Proof. by apply mem_chat_laws. Qed.
#[local] Instance memory_invitations : InvitationsWork.
Proof. split; intros; by eexists. Qed.

Lemma ran_chat {A B} (p : A * B) a : p.1 = a → p = (a, p.2).
Proof. destruct p. by intros <-. Qed.

(** ** Users to be *)

Definition deployed (admins : list string) : ChatConfig := mkChatConfig admins 300 86400 3 "666666" 6 "ali" 90.
Definition service : ChatConfig := deployed ["imAdmin"].
Definition all_sent (_ : list ChatEffect) (_ : ChatEffect) : option error := None.
Definition no_json (_ : string) : string + error := inr (Bare (ErrExternal 400)).
Definition nobody_yet : ChatWorld := mkChatWorld ∅ ∅ ∅ ∅ [] ∅ ∅ ∅ ∅ ∅ redis_empty 0%nat [].

Definition anonymous : Ctx := mkCtx None None.
Definition as_user (u : string) : Ctx := mkCtx (Some u) (Some ["1"]).
Definition as_admin : Ctx := mkCtx (Some "imAdmin") (Some ["2"]).

(** Somebody with an account and a phone number, and somebody with an address of mail. *)
Definition info (id account area phone mail password : string) : RegisterUserInfo :=
  mkRegisterUserInfo id account "" 0 0 area phone mail account password 0.
Definition register (invitation code : string) (u : RegisterUserInfo) : RegisterUserReq :=
  mkRegisterUserReq invitation code "10.0.0.1" "d" 1 false (Some u).
Definition ann : RegisterUserInfo := info "1001" "ann" "+86" "13800000000" "" "ann's".
Definition eve : RegisterUserInfo := info "1002" "" "" "" "eve@x.org" "eve's".

Abbreviation serve := (serve_chat service all_sent no_json).
Definition arrivals : list chat_visit :=
  [mkChatVisit 1000 (Call_RegisterUser as_admin (register "" "" ann)); mkChatVisit 2000 (Call_RegisterUser as_admin (register "" "" eve))].
Definition two_users : ChatWorld := Eval vm_compute in serve arrivals nobody_yet.

Lemma users_stay_sound_witness : UsersSound (get_users two_users) ∧ size (rows (ac_attributes two_users)) = 2%nat.
Proof.
  split; [|reflexivity]. change two_users with (serve arrivals nobody_yet). apply (users_stay_sound service all_sent no_json arrivals).
  - split; [done|done|]. intros k1 k2 a1 a2 Hk. done.
  - intros v Hv. unfold arrivals in Hv. rewrite !elem_of_cons in Hv. destruct Hv as [-> | [-> | Hv]]; [done|done|]. by apply elem_of_nil in Hv.
Defined.

(** *** Guesses *)

(** Ann asks for a code to log in. *)
Definition code_wanted (usedFor : Z) (area phone mail : string) : SendVerifyCodeReq :=
  mkSendVerifyCodeReq usedFor "10.0.0.1" "" "d" 1 area phone mail.
Definition ann_sent : ChatWorld := Eval vm_compute in
  serve [mkChatVisit 10000 (Call_SendVerifyCode (code_wanted 3 "+86" "13800000000" ""))] two_users.
Definition ann_code : VerifyCodeRow := Eval vm_compute in default (mkVerifyCodeRow 0 "" "" "" 0 0 false 0) (ac_codes ann_sent !! 1).
Definition guesses : list (Z * VerifyCodeReq) :=
  (λ code, (11000, mkVerifyCodeReq "+86" "13800000000" code "")) <$> ["1"; "2"; "3"; "4"; Vc_Code ann_code].

Lemma guesses_are_bounded_witness : ac_sent ann_sent = [SMS_SendCode "+86" "13800000000" (Vc_Code ann_code)] ∧
  mismatches service "+86 13800000000" guesses ann_sent ≤ 3.
Proof.
  split; [reflexivity|]. refine (guesses_are_bounded service "+86 13800000000" guesses ann_sent ann_code _ eq_refl _); [done|].
  split; [reflexivity|]. split; [reflexivity|]. intros i c Hi _. apply map_lookup_filter_Some in Hi as [Hi _].
  change (({[ 1 := ann_code ]} : gmap Z VerifyCodeRow) !! i = Some c) in Hi. by apply lookup_singleton_Some in Hi as [<- <-].
Defined.

(** Where no codes are sent every wrong guess at the configured one is answered by "wrong",
    whatever the number of tries. *)
Lemma super_code_unlimited :
  mismatches (mkChatConfig ["imAdmin"] 300 86400 3 "666666" 6 "" 90) "+86 13800000000" guesses ann_sent = len guesses.
Proof. vm_compute. reflexivity. Qed.

(** *** Passwords *)

Definition eves_try : chat_call := Call_ChangePassword (as_user "1002") (mkChangePasswordReq "1001" "ann's" "eve's").
Lemma passwords_are_guarded_witness : password_of (ac_accounts two_users) "1001" = Some "ann's" ∧
  (password_of (ac_accounts (chat_handle service all_sent no_json 20000 eves_try two_users).2) "1001" = Some "ann's" ∨
   may_set service 20000 two_users eves_try "1001").
Proof. split; [reflexivity|]. apply (passwords_are_guarded service all_sent no_json "1001" "ann's" 20000 eves_try two_users). reflexivity. Defined.

(** *** Invitations *)

(** Registration asks for an invitation, and there is one. *)
Definition invitations_needed : gmap string string := {[ NeedInvitationCodeRegisterConfigKey := "1" ]}.
Definition invited_only : ChatWorld := Eval vm_compute in
  serve [mkChatVisit 3000 (Call_SetClientConfig as_admin invitations_needed);
         mkChatVisit 4000 (Call_AddInvitationCode as_admin ["welcome"])] nobody_yet.
Definition invited (account area phone : string) : RegisterUserReq := register "welcome" "" (info "" account area phone "" "p").
Definition first_in : outcome RegisterUserResp * ChatWorld :=
  RegisterUser service 5000 anonymous (invited "ann" "+86" "13800000000") invited_only.
Definition between : list chat_visit :=
  [mkChatVisit 6000 (Call_SetInvitationCodeAllowResetPassword as_admin "welcome" 1);
   mkChatVisit 7000 (Call_AddInvitationCode as_admin ["again"]);
   mkChatVisit 8000 (Call_UseInvitationCode as_admin "" "welcome")].

Lemma invitation_admits_one_witness : first_in.1 = Ok (mkRegisterUserResp "1123456789" "") ∧
  ∀ r', (RegisterUser service 9000 anonymous (invited "eve" "+86" "13900000000") (serve between first_in.2)).1 ≠ Ok r'.
Proof.
  split; [vm_compute; reflexivity|].
  assert (∀ w, ac_configs w = ac_configs invited_only → invites w) as Hneed.
  { intros w E. exists invitations_needed. split; [|reflexivity].
    unfold GetConfig, on_configs, ClientConfig_Get. cbv [zoom]. rewrite E. vm_compute. reflexivity. }
  destruct (invitation_admits_one service all_sent no_json 5000 anonymous (invited "ann" "+86" "13800000000") invited_only
    (mkRegisterUserResp "1123456789" "") first_in.2) as (_ & Hspent & Hrefused);
    [done|by apply Hneed|apply ran_chat; vm_compute; reflexivity|].
  intros r'. refine (Hrefused first_in.2 between 9000 anonymous (invited "eve" "+86" "13900000000") r' _ _ _ eq_refl eq_refl).
  - apply Hspent; [by exists "imAdmin", []|apply _].
  - intros v Hv. unfold between in Hv. rewrite !elem_of_cons in Hv. destruct Hv as [-> | [-> | [-> | Hv]]]; [done..|by apply elem_of_nil in Hv].
  - apply Hneed. vm_compute. reflexivity.
Defined.

(** *** Log-in *)

Definition ann_logs_in : LoginReq := mkLoginReq "+86" "13800000000" (Vc_Code ann_code) "" "" 1 "d" "10.0.0.1" "".
Definition ann_in : outcome LoginResp * ChatWorld := Login service 12000 ann_logs_in ann_sent.
Definition answer_of (o : outcome LoginResp) : LoginResp := match o with Ok r => r | _ => mkLoginResp "" "" end.
Lemma Login_authenticates_witness : Lrs_UserID (answer_of ann_in.1) = "1001" ∧
  ∃ areaCode a, logged_in service 12000 ann_logs_in ann_sent (answer_of ann_in.1) ann_in.2 areaCode a.
Proof.
  assert (ann_in.1 = Ok (answer_of ann_in.1)) as E by (vm_compute; reflexivity).
  split; [vm_compute; reflexivity|]. by apply (Login_authenticates service 12000 ann_logs_in ann_sent), ran_chat.
Defined.

(** ** Where the services do not do what they mean to *)

Definition err_of {A} (o : outcome A) : option error := match o with Err e => Some e | _ => None end.

(** Eve asks for a code to her own address and logs in as Ann with it: the code is the
    one of the address of mail, the user the one of the account. *)
Definition eve_sent : ChatWorld := Eval vm_compute in
  serve [mkChatVisit 10000 (Call_SendVerifyCode (code_wanted 3 "" "" "eve@x.org"))] two_users.
Definition eve_as_ann : LoginReq := mkLoginReq "" "" (Vc_Code ann_code) "ann" "" 1 "d" "10.6.6.6" "eve@x.org".
Lemma login_takeover : LoginReq_Check eve_as_ann = inl () ∧ ac_sent eve_sent = [Mail_SendMail "eve@x.org" (Vc_Code ann_code)] ∧
  Lrs_UserID (answer_of (Login service 11000 eve_as_ann eve_sent).1) = "1001".
Proof. by vm_compute. Qed.

(** A password that could not be set is reported as set: the error of the inner block
    shadows the outer one. *)
Definition no_commit : ChatEngine := mem_chat (Some (Bare (ErrExternal 1205))).
Definition ann_sent_there : ChatWorld (H:=no_commit) :=
  mkChatWorld (H:=no_commit) (ac_accounts ann_sent) (ac_registers ann_sent) (ac_attributes ann_sent) (ac_codes ann_sent)
    [] ∅ ∅ ∅ ∅ ∅ redis_empty 0%nat [].
Definition ann_resets : ResetPasswordReq := mkResetPasswordReq "+86" "13800000000" (Vc_Code ann_code) "new" "" "".
Lemma reset_hides_failure : let r := ResetPassword (H:=no_commit) service 11000 ann_resets ann_sent_there in
  r.1 = Ok () ∧ password_of (H:=no_commit) (ac_accounts r.2) "1001" = Some "ann's".
Proof. by vm_compute. Qed.

(** Only one user without an account may be: the second cancellation is refused, and the
    phone number of a cancelled user stays taken. *)
Definition bob : RegisterUserInfo := info "1003" "bob" "+86" "13700000000" "" "bob's".
Definition with_bob : list chat_visit := [mkChatVisit 3000 (Call_RegisterUser as_admin (register "" "" bob))].
Lemma second_cancellation_refused : let w := serve with_bob two_users in
  (RegisterUser service 3000 as_admin (register "" "" bob) two_users).1 = Ok (mkRegisterUserResp "1003" "") ∧
  err_of (CancellationUser as_admin "1003" w).1 = Some (Wrap ErrAccountAlreadyRegister "") ∧
  (CancellationUser as_admin "1002" w).1 = Ok () ∧
  At_PhoneNumber <$> ac_attributes (CancellationUser as_admin "1001" two_users).2 !! "1001" = Some "13800000000".
Proof. by vm_compute. Qed.

(** A new phone number is checked, and not written; with a new area code two users get
    one number. *)
Definition moved (u area phone : string) : UpdateUserInfoReq :=
  mkUpdateUserInfoReq u None (Some phone) (Some area) None None None None None None None None None None None.
Definition cat : RegisterUserInfo := info "1004" "cat" "+1" "13800000000" "" "cat's".
Lemma phone_not_written : let w := serve [mkChatVisit 3000 (Call_RegisterUser as_admin (register "" "" cat));
    mkChatVisit 4000 (Call_UpdateUserInfo as_admin (moved "1004" "+86" "555"))] two_users in
  (λ a, (At_AreaCode a, At_PhoneNumber a)) <$> ac_attributes w !! "1001" = Some ("+86", "13800000000") ∧
  (λ a, (At_AreaCode a, At_PhoneNumber a)) <$> ac_attributes w !! "1004" = Some ("+86", "13800000000").
Proof. by vm_compute. Qed.

(** With an address of mail, a phone number without an area code stops the service. *)
Lemma register_panics :
  (RegisterUser service 3000 as_admin (register "" "" (info "1005" "" "" "13600000000" "dan@x.org" "p")) two_users).1 = Panic.
Proof. by vm_compute. Qed.

(** The code that was sent for area code "86" is kept under "+86" and looked for under "86". *)
Definition fay : RegisterUserInfo := info "" "fay" "86" "13500000000" "" "p".
Lemma code_not_found : let w := serve [mkChatVisit 3000 (Call_SendVerifyCode (code_wanted 1 "86" "13500000000" ""))] two_users in
  Vc_Account <$> ac_codes w !! 1 = Some "+86 13500000000" ∧
  err_of (RegisterUser service 4000 anonymous (register "" (default "" (Vc_Code <$> ac_codes w !! 1)) fay) w).1 =
    Some (Wrap ErrVerifyCodeExpired "").
Proof. by vm_compute. Qed.

(** Users are looked up by account among the ids. *)
Lemma account_not_found : (FindAccountUser (as_user "1002") ["ann"] two_users).1 = Ok ∅ ∧
  At_Account <$> ac_attributes two_users !! "1001" = Some "ann".
Proof. by vm_compute. Qed.

(** One code more than the limit is sent in a period. *)
Definition four_times : list chat_visit :=
  (λ t, mkChatVisit t (Call_SendVerifyCode (code_wanted 3 "" "" "eve@x.org"))) <$> [10000; 11000; 12000; 13000].
Lemma one_code_too_many : cfg_MaxCount service = 3 ∧ length (ac_sent (serve four_times two_users)) = 4%nat ∧
  err_of (SendVerifyCode service 14000 all_sent (code_wanted 3 "" "" "eve@x.org") (serve four_times two_users)).1 =
    Some (Wrap ErrVerifyCodeSendFrequently "").
Proof. by vm_compute. Qed.

(** An invitation that allows it resets a password again and again, whatever phone
    number is given with it; the administration's own check refuses the number. *)
Definition reset_by (password : string) : ResetPasswordReq := mkResetPasswordReq "+1" "555" "" password "" "welcome".
Definition with_reset : ChatWorld := Eval vm_compute in
  serve [mkChatVisit 6000 (Call_RegisterUser anonymous (invited "ann" "+86" "13800000000"));
         mkChatVisit 6500 (Call_SetInvitationCodeAllowResetPassword as_admin "welcome" 1)] invited_only.
Lemma reset_ignores_phone : let w := serve [mkChatVisit 7000 (Call_ResetPassword (reset_by "new"))] with_reset in
  (VerifyResetPasswordCode service as_admin "welcome" "+1" "555" with_reset).1 = Ok false ∧
  password_of (ac_accounts w) "1123456789" = Some "new" ∧
  password_of (ac_accounts (serve [mkChatVisit 8000 (Call_ResetPassword (reset_by "newer"))] w)) "1123456789" = Some "newer".
Proof. by vm_compute. Qed.

(** Without an administrator in the configuration the code is not marked as used, and
    admits everybody. *)
Definition unguarded : list chat_visit :=
  [mkChatVisit 6000 (Call_RegisterUser anonymous (invited "ann" "+86" "13800000000"));
   mkChatVisit 7000 (Call_RegisterUser anonymous (invited "eve" "+86" "13900000000"))].
Lemma invitation_admits_all : size (ac_attributes (serve_chat (deployed []) all_sent no_json unguarded invited_only)) = 2%nat ∧
  size (ac_attributes (serve unguarded invited_only)) = 1%nat.
Proof. by vm_compute. Qed.

(** A user takes another's address of mail, unchecked. *)
Definition my_mail (u mail : string) : UpdateUserInfoReq :=
  mkUpdateUserInfoReq u None None None (Some mail) None None None None None None None None None None.
Lemma mail_taken : let w := (UpdateUserInfo (as_user "1001") (my_mail "1001" "eve@x.org") two_users).2 in
  At_Email <$> ac_attributes w !! "1001" = Some "eve@x.org" ∧ At_Email <$> ac_attributes w !! "1002" = Some "eve@x.org".
Proof. by vm_compute. Qed.

(** As many characters as there are bytes: none, as the number of characters is a byte. *)
Fixpoint characters (n : nat) : string := match n with O => EmptyString | S n => String "a" (characters n) end.
Lemma codes_of_256_characters : (GenInvitationCode 3000 as_admin (mkGenInvitationCodeReq 6 1 (characters 256)) two_users).1 = Panic.
Proof. by vm_compute. Qed.

(** Nobody may log in by account alone. *)
Lemma account_login_refused : LoginReq_Check (mkLoginReq "" "" "" "ann" "ann's" 1 "d" "10.0.0.1" "") = inr (Wrap ErrArgs "AreaCode is empty").
Proof. by vm_compute. Qed.
