(* ===== verification/Push.v ===== *)
(** * The push service (internal/push)

    What becomes of a message on the push topic: [push_to_client.go],
    [push_handler.go], [push_rpc_server.go], [callback.go] and the cache of
    group members of pkg/common/db/localcache/group.go. *)

From S2P Require Import Prelude.
From S2P Require Import Constants.
From S2P Require Import MsgTypes.
From S2P Require Import MsgProcessor.
From S2P Require Import Tools.
From S2P Require Import Notification.
From S2P Require Import RpcClient.
From S2P Require Import Redis.
From S2P Require Import MsgCache.
From S2P Require Import GatewayServer.
From S2P Require Import GroupTypes.
From stdpp Require Import options.
#[local] Set Default Proof Using "Type*".

#[local] Open Scope Z_scope.

(** ** Data *)

(** Options of a push to a device that is not connected. *)
Record Opts := mkOpts {
  Opts_Signal : string; Opts_IOSPushSound : string; Opts_IOSBadgeCount : bool; Opts_Ex : string }.

(** The posts to the webhook and their answers. *)
Record CallbackBeforePushReq := mkBeforePushReq {
  BP_CallbackCommand : string; BP_OperationID : string; BP_PlatformID : Z; BP_Platform : string;
  BP_UserIDList : list string; BP_OfflinePushInfo : option OfflinePushInfo;
  BP_ClientMsgID : string; BP_SendID : string; BP_GroupID : string; BP_ContentType : Z;
  BP_SessionType : Z; BP_AtUserIDs : list string; BP_Content : string; BP_Seq : Z }.
Record CallbackBeforePushResp := mkBeforePushResp {
  BPR_UserIDs : list string; BPR_OfflinePushInfo : option OfflinePushInfo }.

Record GroupMemberIDsHash := mkMemberIDsHash { memberListHash : N; userIDs : list string }.

(** What the push service asks of the gateways, of the pusher to devices, of
    the webhook and of the other services. *)
Inductive PushEffect :=
  | OnlinePush (node : string) (msg : MsgData) (users : list string)
  | OfflinePushed (users : list string) (title content : string) (opts : Opts)
  | PushPost (req : CallbackBeforePushReq)
  | SetMaxSeq (users : list string) (conversationID : string) (maxSeq : Z)
  | DismissGroup (opUserID groupID : string) (deleteMember : bool).

(** ** Interfaces *)

(** The gateways: the nodes that are up, and what one answers to a push. *)
Class Gateways := {
  svc_GetConns : list PushEffect → list string + error;
  svc_OnlinePush : string → MsgData → list string → list PushEffect → list SingleMsgToUserResults + error;
}.
(** One result per user, in order. *)
Class GatewaysLaws `{Gateways} : Prop := {
  OnlinePush_users n m us h rs : svc_OnlinePush n m us h = inl rs → To_UserID <$> rs = us }.

Class PushServices := {
  svc_GetGroupAbstractInfo : string → list PushEffect → list GroupAbstractInfo + error;
  svc_PushMemberUserIDs : string → list PushEffect → list string + error;
  svc_GetRecvMsgNotNotifyUserIDs : string → list PushEffect → list string + error;
  svc_GetConversationMaxSeq : string → list PushEffect → Z + error;
  svc_GetConversationOfflinePushUserIDs : string → list string → list PushEffect → list string + error;
}.
(** The conversation service chooses among the users it is asked about. *)
Class PushServicesLaws `{PushServices} : Prop := {
  OfflinePushUserIDs_sub c us h l : svc_GetConversationOfflinePushUserIDs c us h = inl l → l ⊆ us }.

Class PushWebhook := {
  webhook_push : CallbackBeforePushReq → list PushEffect → CallbackBeforePushResp + error }.

(** Functions of the tool library on options and lists of strings. *)
Class PushTools := {
  GetSwitchFromOptions : option (gmap string bool) → string → bool;
  IntersectString : list string → list string → list string;
  SliceSub : list string → list string → list string;
  GenGroupConversationID : string → string;
}.
Class PushToolsLaws `{PushTools} : Prop := {
  IntersectString_elem x l l' : x ∈ IntersectString l l' ↔ x ∈ l ∧ x ∈ l';
  SliceSub_elem x l l' : x ∈ SliceSub l l' ↔ x ∈ l ∧ x ∉ l';
}.

(** What the decoders of the content of notifications answer. *)
Record Decoders := mkDecoders {
  (** The text inside a notification; nil user pointers stay nil. *)
  Unmarshal_NotificationElem : string → string + error;
  Unmarshal_MemberQuitTips : string → option string + error;
  Unmarshal_MemberKickedTips : string → list (option string) + error;
  Unmarshal_GroupDismissedTips : string → () + error;
  (** [JsonDetail] of [TipsComm]; the users of a mention; both ignore errors. *)
  Unmarshal_TipsComm : string → string;
  Unmarshal_atContent : string → list string;
  Unmarshal_PushMsgDataToMQ : string → option MsgData + error }.

Record PushConfig := mkPushConfig {
  Push_Manager_UserID : list string;
  Push_CallbackOfflinePush_Enable : bool;
  Push_CallbackOnlinePush_Enable : bool;
  Push_CallbackBeforeSuperGroupOnlinePush_Enable : bool }.

Definition set_OfflinePush (v : option OfflinePushInfo) (m : MsgData) : MsgData :=
  let '(mkMsgData a b c d e f g h i j k l n o p q r s _ t u v' w) := m in
  mkMsgData a b c d e f g h i j k l n o p q r s v t u v' w.

(** [defer]: the call is made when the function ends, however it ends, and what
    it answers takes the place of the function's error. *)
Definition deferring {W} (d m : M W ()) : M W () := λ w,
  let '(r, w1) := m w in
  match r with
  | Ok _ | Err _ => d w1
  | _ => (r, (d w1).2)
  end.

Section Pusher.
Context `{Tools} `{MsgTools} `{PushTools} `{Gateways} `{PushServices} `{PushWebhook}.
Context (config : PushConfig) (decode : Decoders).
(** The operation and the user of the call's context. *)
Context (operationID opUserID : string).
(** Whether a pusher to devices is configured; what it and the services answer. *)
Context (offlinePusher : bool) (answers : list PushEffect → PushEffect → option error).
Abbreviation E := (list PushEffect).
Abbreviation W := (gmap string GroupMemberIDsHash * list PushEffect)%type.

Definition errNoOfflinePusher : error := Bare (ErrText "no offlinePusher is configured").

(** ** localcache/group.go *)

Definition GetGroupMemberIDs (groupID : string) : M W (list string) :=
  resp ← on_snd (ask (svc_GetGroupAbstractInfo groupID));
  match resp with
  | [] => fail (Bare ErrGroupIDNotFound)
  | info :: _ =>
      cache ← on_fst get;
      let fetch :=
        (groupMembersResp ← on_snd (ask (svc_PushMemberUserIDs groupID));
         _ ← on_fst (modify <[groupID := mkMemberIDsHash (Abs_GroupMemberListHash info) groupMembersResp]>);
         mret groupMembersResp) in
      match cache !! groupID with
      | Some localHashInfo =>
          if N.eqb (memberListHash localHashInfo) (Abs_GroupMemberListHash info)
          then mret (userIDs localHashInfo) else fetch
      | None => fetch
      end
  end.

(** ** callback.go *)

Definition GetContent (msg : MsgData) : string :=
  if (NotificationBegin <=? ContentType msg) && (ContentType msg <=? NotificationEnd)
  then Unmarshal_TipsComm decode (Content msg) else Content msg.

Definition push_req (command : string) (users : list string) (info : option OfflinePushInfo)
    (groupID : string) (seq : Z) (msg : MsgData) : CallbackBeforePushReq :=
  {| BP_CallbackCommand := command; BP_OperationID := operationID;
     BP_PlatformID := SenderPlatformID msg; BP_Platform := PlatformIDToName (SenderPlatformID msg);
     BP_UserIDList := users; BP_OfflinePushInfo := info; BP_ClientMsgID := ClientMsgID msg;
     BP_SendID := SendID msg; BP_GroupID := groupID; BP_ContentType := ContentType msg;
     BP_SessionType := SessionType msg; BP_AtUserIDs := AtUserIDList msg;
     BP_Content := GetContent msg; BP_Seq := seq |}.

Definition post (req : CallbackBeforePushReq) : M E CallbackBeforePushResp := λ h,
  (of_sum (webhook_push req h), h ++ [PushPost req]).

(** [None]: the webhook lets the call continue. *)
Definition post_continue (req : CallbackBeforePushReq) : M E (option CallbackBeforePushResp) :=
  r ← try (post req);
  match r with
  | inl resp => mret (Some resp)
  | inr err => if bool_decide (err = Bare ErrCallbackContinue) then mret None else fail err
  end.

(** The users chosen, if any, and the message with the information the webhook
    put in it. *)
Definition callbackOfflinePush (users : list string) (msg : MsgData) (offlinePushUserIDs : list string) :
    M E (list string * MsgData) :=
  if negb (Push_CallbackOfflinePush_Enable config) then mret (offlinePushUserIDs, msg)
  else
    r ← post_continue (push_req CallbackOfflinePushCommand users (OfflinePush msg) (GroupID msg) 0 msg);
    match r with
    | None => mret (offlinePushUserIDs, msg)
    | Some resp =>
        mret (if negb (len (BPR_UserIDs resp) =? 0) then BPR_UserIDs resp else offlinePushUserIDs,
              match BPR_OfflinePushInfo resp with Some i => set_OfflinePush (Some i) msg | None => msg end)
    end.

Definition callbackOnlinePush (users : list string) (msg : MsgData) : M E () :=
  if negb (Push_CallbackOnlinePush_Enable config) || Contain (SendID msg) users then mret ()
  else
    _ ← post (push_req CallbackOnlinePushCommand users None (GroupID msg) 0 msg);
    mret ().

Definition callbackBeforeSuperGroupOnlinePush (groupID : string) (msg : MsgData)
    (pushToUserIDs : list string) : M E (list string) :=
  if negb (Push_CallbackBeforeSuperGroupOnlinePush_Enable config) then mret pushToUserIDs
  else
    r ← post_continue (push_req CallbackSuperGroupOnlinePushCommand [] None groupID (Seq msg) msg);
    match r with
    | None => mret pushToUserIDs
    | Some resp => mret (if negb (len (BPR_UserIDs resp) =? 0) then BPR_UserIDs resp else pushToUserIDs)
    end.

(** ** push_to_client.go *)

Definition DeleteMemberAndSetConversationSeq (groupID : string) (users : list string) : M E () :=
  let conversationID := GetConversationIDBySessionType SuperGroupChatType [groupID] in
  maxSeq ← ask (svc_GetConversationMaxSeq conversationID);
  tell answers (SetMaxSeq users conversationID maxSeq).

(** A node that fails is passed over. *)
Definition GetConnsAndOnlinePush (msg : MsgData) (pushToUserIDs : list string) :
    M E (list SingleMsgToUserResults) :=
  conns ← ask svc_GetConns;
  fold_each conns [] (λ wsResults v,
    r ← try (λ h, (of_sum (svc_OnlinePush v msg pushToUserIDs h), h ++ [OnlinePush v msg pushToUserIDs]));
    match r with
    | inr _ => mret wsResults
    | inl reply => mret (wsResults ++ reply)
    end).

Definition GetOfflinePushOpts (msg : MsgData) : Opts :=
  match OfflinePush msg with
  | Some info => mkOpts "" (IOSPushSound info) (IOSBadgeCount info) (PushEx info)
  | None => mkOpts "" "" false ""
  end.

Definition push_content (contentType : Z) : string := default "" (ContentType2PushContent !! contentType).

Definition offline_title (conversationID : string) (msg : MsgData) : string :=
  if Contain (ContentType msg) [Text; Picture; Voice; Video; File] then push_content (ContentType msg)
  else if ContentType msg =? AtText then
    if Contain conversationID (Unmarshal_atContent decode (Content msg))
    then push_content AtText +:+ push_content Common else push_content GroupMsg
  else if ContentType msg =? SignalingNotification then push_content SignalMsg
  else push_content Common.

Definition getOfflinePushInfos (conversationID : string) (msg : MsgData) : M E (string * string * Opts) :=
  _ ← guard (negb offlinePusher) errNoOfflinePusher;
  let opts := GetOfflinePushOpts msg in
  let '(title, content) := match OfflinePush msg with
    | Some info => (Title info, Desc info) | None => ("", "") end in
  let title := if bool_decide (title = "") then offline_title conversationID msg else title in
  mret (title, if bool_decide (content = "") then title else content, opts).

Definition offlinePushMsg (conversationID : string) (msg : MsgData) (offlinePushUserIDs : list string) :
    M E () :=
  '(title, content, opts) ← getOfflinePushInfos conversationID msg;
  tell answers (OfflinePushed offlinePushUserIDs title content opts).

(** The message is a pointer: what the webhook puts in it stays for the next
    results.  The list of users the webhook chooses is not looked at. *)
Definition Push2User (users : list string) (msg : MsgData) : M E () :=
  _ ← callbackOnlinePush users msg;
  wsResults ← GetConnsAndOnlinePush msg users;
  if negb (GetSwitchFromOptions (Options msg) IsOfflinePush) then mret ()
  else
    _ ← fold_each wsResults msg (λ msg v,
      if negb (bool_decide (SendID msg = To_UserID v)) && negb (To_OnlinePush v) then
        r ← callbackOfflinePush users msg [];
        _ ← offlinePushMsg (SendID msg) r.2 [To_UserID v];
        mret r.2
      else mret msg);
    mret ().

Definition UnmarshalNotificationElem {T} (bytes : string) (t : string → T + error) : T + error :=
  match Unmarshal_NotificationElem decode bytes with
  | inr err => inr err
  | inl detail => t detail
  end.

(** The calls a push leaves for its end. *)
Inductive deferred :=
  | Defer_nothing
  | Defer_SetSeq (groupID : string) (users : list string)
  | Defer_Dismiss (opUserID groupID : string).

(** Who gets the message of a group with these members, and what is left for
    the end; [None]: the content does not decode, and the function returns its
    error, which is nil. *)
Definition group_audience (groupID : string) (msg : MsgData) (members : list string) :
    M W (option (list string * deferred)) :=
  if ContentType msg =? MemberQuitNotification then
    match UnmarshalNotificationElem (Content msg) (Unmarshal_MemberQuitTips decode) with
    | inr _ => mret None
    | inl quitUser => u ← deref quitUser; mret (Some (members ++ [u], Defer_SetSeq groupID [u]))
    end
  else if ContentType msg =? MemberKickedNotification then
    match UnmarshalNotificationElem (Content msg) (Unmarshal_MemberKickedTips decode) with
    | inr _ => mret None
    | inl kicked =>
        kickedUsers ← fold_each kicked [] (λ l o, u ← deref o; mret (l ++ [u]));
        mret (Some (members ++ kickedUsers, Defer_SetSeq groupID kickedUsers))
    end
  else if (ContentType msg =? GroupDismissedNotification) && IsNotification (GetConversationIDByMsg msg) then
    match UnmarshalNotificationElem (Content msg) (Unmarshal_GroupDismissedTips decode) with
    | inr _ => mret None
    | inl _ => mret (Some (members, Defer_Dismiss (default opUserID (head (Push_Manager_UserID config))) groupID))
    end
  else mret (Some (members, Defer_nothing)).

(** Users without a push to a background connection of a computer or browser. *)
Definition web_and_pc (v : SingleMsgToUserResults) : list string :=
  if To_OnlinePush v then []
  else (λ _, To_UserID v) <$> filter (λ r, (To_ResultCode r =? -2) &&
    (bool_decide (PlatformIDToName (To_RecvPlatFormID r) = TerminalPC) ||
     (To_RecvPlatFormID r =? WebPlatformID)) = true) (To_Resp v).

(** Who was reached, and the sender. *)
Definition onlineSuccess (msg : MsgData) (wsResults : list SingleMsgToUserResults) : list string :=
  SendID msg :: (To_UserID <$> filter (λ v, To_OnlinePush v &&
    negb (bool_decide (To_UserID v = SendID msg)) = true) wsResults).

Definition group_offline (groupID : string) (msg : MsgData) (pushToUserIDs : list string)
    (wsResults : list SingleMsgToUserResults) : M E () :=
  let webAndPcBackgroundUserIDs := mjoin (web_and_pc <$> wsResults) in
  let needOfflinePushUserIDs := DifferenceString (onlineSuccess msg wsResults) pushToUserIDs in
  needOfflinePushUserIDs ← (if ContentType msg =? SignalingNotification then mret needOfflinePushUserIDs
    else
      notNotificationUserIDs ← ask (svc_GetRecvMsgNotNotifyUserIDs groupID);
      mret (SliceSub needOfflinePushUserIDs notNotificationUserIDs));
  if len needOfflinePushUserIDs <=? 0 then mret ()
  else
    r ← callbackOfflinePush needOfflinePushUserIDs msg [];
    let needOfflinePushUserIDs := if 0 <? len r.1 then r.1 else needOfflinePushUserIDs in
    resp ← ask (svc_GetConversationOfflinePushUserIDs (GenGroupConversationID groupID) needOfflinePushUserIDs);
    if len resp <=? 0 then mret ()
    else
      _ ← offlinePushMsg groupID r.2 resp;
      _ ← GetConnsAndOnlinePush r.2 (IntersectString resp webAndPcBackgroundUserIDs);
      mret ().

Definition push_to_group (groupID : string) (msg : MsgData) (pushToUserIDs : list string) : M E () :=
  wsResults ← GetConnsAndOnlinePush msg pushToUserIDs;
  if GetSwitchFromOptions (Options msg) IsOfflinePush
  then group_offline groupID msg pushToUserIDs wsResults else mret ().

Definition run_deferred (d : deferred) (m : M E ()) : M E () :=
  match d with
  | Defer_nothing => m
  | Defer_SetSeq groupID users => deferring (DeleteMemberAndSetConversationSeq groupID users) m
  | Defer_Dismiss op groupID => deferring (tell answers (DismissGroup op groupID true)) m
  end.

Definition Push2SuperGroup (groupID : string) (msg : MsgData) : M W () :=
  pushToUserIDs ← on_snd (callbackBeforeSuperGroupOnlinePush groupID msg []);
  if len pushToUserIDs =? 0 then
    members ← GetGroupMemberIDs groupID;
    audience ← group_audience groupID msg members;
    match audience with
    | None => mret ()
    | Some (users, d) => on_snd (run_deferred d (push_to_group groupID msg users))
    end
  else on_snd (push_to_group groupID msg pushToUserIDs).

(** ** push_handler.go *)

(** A push whose error is only logged. *)
Definition handleMs2PsChat (nowSec : Z) (msg : string) : M W () :=
  match Unmarshal_PushMsgDataToMQ decode msg with
  | inr _ => mret ()
  | inl data =>
      data ← deref data;
      let sec := SendTime data `quot` 1000 in
      if 10 <? sub64 nowSec sec then mret ()
      else
        _ ← try (if SessionType data =? SuperGroupChatType then Push2SuperGroup (GroupID data) data
          else on_snd (Push2User (if negb (bool_decide (SendID data = RecvID data))
                                  then [SendID data; RecvID data] else [SendID data]) data));
        mret ()
  end.

(** The consumer: each message of the topic in turn. *)
Definition ConsumeClaim (msgs : list (Z * string)) : M W () :=
  for_each msgs (λ m, handleMs2PsChat m.1 m.2).

(** ** push_rpc_server.go *)

Definition PushMsg (msgData : option MsgData) : M W () :=
  data ← deref msgData;
  r ← try (if SessionType data =? SuperGroupChatType then Push2SuperGroup (GroupID data) data
           else on_snd (Push2User [RecvID data; SendID data] data));
  match r with
  | inl _ => mret ()
  | inr err => if negb (bool_decide (err = errNoOfflinePusher)) then fail err else mret ()
  end.
End Pusher.

(** [pushDataBase.DelFcmToken] *)
Definition pushServer_DelUserPushToken `{Redis R} (userID : string) (platformID : Z) : M R () :=
  DelFcmToken userID platformID.
