(* ===== verification/OfflinePush.v ===== *)
(** * Pushes to devices that are not connected (internal/push/offlinepush)

    The three providers: getui/push.go and body.go, fcm/push.go, jpush/push.go
    and its body; over the message cache, which keeps the provider's token, the
    devices' tokens and the badges. *)

From S2P Require Import Prelude.
From S2P Require Import Constants.
From S2P Require Import MsgDoc.
From S2P Require Import Tools.
From S2P Require Import Redis.
From S2P Require Import MsgCache.
From S2P Require Import Push.
From stdpp Require Import options.
#[local] Set Default Proof Using "Type*".

#[local] Open Scope Z_scope.

(** ** Getui *)

Record Notification := mkNotification {
  N_Title : string; N_Body : string; N_ChannelID : string; N_ChannelName : string; N_ClickType : string }.
Record PushChannel := mkPushChannel {
  (** ios *)
  Ios_NotificationType : string; Ios_Sound : string; Ios_AlertTitle : string; Ios_AlertBody : string;
  (** android *)
  Ups_Notification : Notification; HW_ChannelID : string; HW_Sound : string; HW_Importance : string;
  XM_ChannelID : string; VV_Classification : Z }.
(** The settings and the audience stand for what they point to. *)
Record PushReq := mkPushReq {
  PR_RequestID : option string; PR_TTL : option Z; PR_Alias : option (list string);
  PR_PushMessage : option Notification; PR_PushChannel : option PushChannel;
  PR_IsAsync : option bool; PR_TaskID : option string }.
Record AuthReq := mkAuthReq { AR_Sign : string; AR_Timestamp : string; AR_AppKey : string }.

Definition set_TTL (ttl : Z) (p : PushReq) : PushReq :=
  mkPushReq (PR_RequestID p) (Some ttl) (PR_Alias p) (PR_PushMessage p) (PR_PushChannel p) (PR_IsAsync p) (PR_TaskID p).
Definition set_single (operationID userID : string) (p : PushReq) : PushReq :=
  mkPushReq (Some operationID) (PR_TTL p) (Some [userID]) (PR_PushMessage p) (PR_PushChannel p) (PR_IsAsync p) (PR_TaskID p).

Definition newPushReq (ChannelID ChannelName title content : string) : PushReq :=
  mkPushReq None None None (Some (mkNotification title content ChannelID ChannelName "startapp")) None None None.
Definition newBatchPushReq (userIDs : list string) (taskID : string) : PushReq :=
  mkPushReq None None (Some userIDs) None None (Some true) (Some taskID).
Definition setPushChannel (title body : string) (p : PushReq) : PushReq :=
  mkPushReq (PR_RequestID p) (PR_TTL p) (PR_Alias p) (PR_PushMessage p)
    (Some (mkPushChannel "notify" "default" title body (mkNotification title body "" "" "startapp")
      "RingRing4" "/raw/ring001" "NORMAL" "high_system" 1)) (PR_IsAsync p) (PR_TaskID p).

(** A request to the provider, with the token in its header. *)
Inductive GetuiCall :=
  | PostAuth (req : AuthReq)
  | PostTask (token : string) (req : PushReq)
  | PostBatch (token : string) (req : PushReq)
  | PostSingle (token : string) (req : PushReq).
(** The body of an answer: the code, the text and the fields of its data. *)
Record Resp := mkResp {
  Resp_Code : Z; Resp_Msg : string; Resp_Token : string; Resp_ExpireTime : string; Resp_TaskID : string }.

Definition ErrTokenExpire : error := Bare (ErrText "token expire").
Definition ErrUserIDEmpty : error := Bare (ErrText "userIDs is empty").
Definition tokenExpireCode : Z := 10001.
Definition tokenExpireTime : Z := 60 * 60 * 23.
Definition taskIDTTL : Z := 1000 * 60 * 60 * 24.

Definition parseError (r : Resp) : option error :=
  if Resp_Code r =? tokenExpireCode then Some ErrTokenExpire
  else if Resp_Code r =? 0 then None
  else Some (Bare (ErrText ("code " +:+ FormatInt (Resp_Code r) +:+ ", msg " +:+ Resp_Msg r))).

(** The provider, and how many users go into one request. *)
Class GetuiProvider := {
  (** [http.PostReturn]: the decoded body of the answer. *)
  getui_Post : GetuiCall → list GetuiCall → Resp + error;
  sha256_hex : string → string;
  NewSplitter : nat → list string → list (list string);
  (** The order in which goroutines started together run. *)
  go_order : ∀ {A}, list A → list A;
}.
Class GetuiProviderLaws `{GetuiProvider} : Prop := {
  NewSplitter_join n l : (0 < n)%nat → mjoin (NewSplitter n l) = l;
  NewSplitter_size n l x : (0 < n)%nat → x ∈ NewSplitter n l → (length x ≤ n)%nat;
  go_order_perm {A} (l : list A) : go_order l ≡ₚ l;
}.

Record GeTuiConfig := mkGeTuiConfig {
  GeTui_AppKey : string; GeTui_MasterSecret : string; GeTui_ChannelID : string; GeTui_ChannelName : string }.

Section Getui.
Context {R : Type} `{Redis R} `{GetuiProvider}.
Context (config : GeTuiConfig) (operationID : string) (timeStamp : Z).
Abbreviation W := (R * list GetuiCall)%type.

Definition getui_request (call : GetuiCall) : M W Resp :=
  resp ← on_snd (λ h, (of_sum (getui_Post call h), h ++ [call]));
  match parseError resp with
  | Some e => fail e
  | None => mret resp
  end.

Definition getui_Auth : M W (string * Z) :=
  let sign := sha256_hex (GeTui_AppKey config +:+ FormatInt timeStamp +:+ GeTui_MasterSecret config) in
  resp ← getui_request (PostAuth (mkAuthReq sign (FormatInt timeStamp) (GeTui_AppKey config)));
  match ParseInt (Resp_ExpireTime resp) with
  | Some expire => mret (Resp_Token resp, expire)
  | None => fail (Bare (ErrText "invalid syntax"))
  end.

Definition getTokenAndSave2Redis : M W string :=
  r ← getui_Auth;
  _ ← on_fst (SetGetuiToken r.1 (60 * 60 * 23));
  mret r.1.

Definition GetTaskID (token : string) (pushReq : PushReq) : M W string :=
  resp ← wrap_error (getui_request (PostTask token (set_TTL (1000 * 60 * 5) pushReq)));
  mret (Resp_TaskID resp).

Definition GetTaskIDAndSave2Redis (token : string) (pushReq : PushReq) : M W string :=
  taskID ← GetTaskID token (set_TTL taskIDTTL pushReq);
  _ ← on_fst (SetGetuiTaskID taskID tokenExpireTime);
  mret token.

Definition batchPush (token : string) (userIDs : list string) (pushReq : PushReq) : M W () :=
  taskID ← GetTaskID token pushReq;
  _ ← getui_request (PostBatch token (newBatchPushReq userIDs taskID));
  mret ().

Definition singlePush (token userID : string) (pushReq : PushReq) : M W () :=
  _ ← getui_request (PostSingle token (set_single operationID userID pushReq));
  mret ().

(** Each batch in a goroutine of its own; the last failure is the error. *)
Definition batch_all (token : string) (pushReq : PushReq) (batches : list (list string)) : M W () :=
  err ← fold_each (go_order batches) None (λ err users,
    r ← try (batchPush token users pushReq);
    mret (match r with inr err2 => Some err2 | inl _ => err end));
  match err with Some e => fail e | None => mret () end.

Definition Getui_Push (userIDs : list string) (title content : string) (opts : Opts) : M W () :=
  r ← try (on_fst GetGetuiToken);
  token ← (match r with
    | inl token => mret token
    | inr err => if bool_decide (Unwrap err = RedisNil) then getTokenAndSave2Redis else fail err
    end);
  let pushReq := setPushChannel title content
    (newPushReq (GeTui_ChannelID config) (GeTui_ChannelName config) title content) in
  err ← try (match userIDs with
    | [] => fail ErrUserIDEmpty
    | [u] => singlePush token u pushReq
    | _ => if 999 <? len userIDs then batch_all token pushReq (NewSplitter 999 userIDs)
           else batchPush token userIDs pushReq
    end);
  match err with
  | inl _ => mret ()
  | inr e =>
      if bool_decide (e = ErrTokenExpire) then _ ← getTokenAndSave2Redis; mret () else fail e
  end.
End Getui.

(** ** FCM *)

Record FcmMessage := mkFcmMessage {
  Fcm_Ex : string; Fcm_Token : string; Fcm_Title : string; Fcm_Body : string;
  Fcm_Sound : string; Fcm_Badge : Z }.

Definition SinglePushCountLimit : Z := 400.
Definition Terminal : list Z := [IOSPlatformID; AndroidPlatformID; WebPlatformID].

Section Fcm.
Context {R : Type} `{Redis R} `{MapRange}.
(** The messages handed to [SendAll], call by call; what it answers only
    counts. *)
Abbreviation W := (R * list (list FcmMessage))%type.

(** The tokens of a user's terminals that have one. *)
Definition personTokens (account : string) : M W (list string) :=
  fold_each Terminal [] (λ tokens v,
    r ← try (on_fst (GetFcmToken account v));
    mret (match r with inl token => tokens ++ [token] | inr _ => tokens end)).

Definition SendAll (messages : list FcmMessage) : M W () := on_snd (modify (λ h, h ++ [messages])).

(** The number on the icon; [None]: the user is left out. *)
Definition fcm_badge (IOSBadgeCount : bool) (userID : string) : M W (option Z) :=
  if IOSBadgeCount then
    r ← try (on_fst (IncrUserBadgeUnreadCountSum userID));
    mret (match r with inl n => Some n | inr _ => None end)
  else
    (** A read that fails answers zero beside its error. *)
    r ← try (on_fst (GetUserBadgeUnreadCountSum userID));
    mret (match r with inl n => Some (if n =? 0 then 1 else n) | inr _ => Some 1 end).

Definition fcm_messages (title content : string) (opts : Opts) (badge : Z) (tokens : list string) :
    list FcmMessage :=
  (λ token, mkFcmMessage (Opts_Ex opts) token title content (Opts_IOSPushSound opts) badge) <$> tokens.

(** One user: what is waiting is sent first when it has reached the limit. *)
Definition fcm_user (title content : string) (opts : Opts) (messages : list FcmMessage)
    (p : string * list string) : M W (list FcmMessage) :=
  messages ← (if SinglePushCountLimit <=? len messages then _ ← SendAll messages; mret [] else mret messages);
  badge ← fcm_badge (Opts_IOSBadgeCount opts) p.1;
  mret (match badge with
    | Some b => messages ++ fcm_messages title content opts b p.2
    | None => messages
    end).

Definition Fcm_allTokens (userIDs : list string) : M W (gmap string (list string)) :=
  fold_each userIDs ∅ (λ t account, tokens ← personTokens account; mret (<[account := tokens]> t)).

Definition Fcm_Push (userIDs : list string) (title content : string) (opts : Opts) : M W () :=
  allTokens ← Fcm_allTokens userIDs;
  messages ← fold_each (range allTokens) [] (fcm_user title content opts);
  if 0 <? len messages then SendAll messages else mret ().
End Fcm.

(** ** JPush *)

Record JPushObj := mkJPushObj {
  J_Platform : string; J_Alias : list string; J_Alert : string; J_AndroidIntentURL : string;
  J_IosSound : string; J_IosBadge : string; J_ClientMsgID : string; J_MutableContent : bool;
  J_MsgContent : string; J_ApnsProduction : bool }.

Record JpnsConfig := mkJpnsConfig {
  Jpns_AppKey : string; Jpns_MasterSecret : string; Jpns_PushIntent : string; IOSPush_Production : bool }.

Section JPush.
Context (config : JpnsConfig) (EncodeToString : string → string).
(** [http.Post]: the body of the answer. *)
Context (jpush_Post : string → JPushObj → list (string * JPushObj) → string + error).
Abbreviation W := (list (string * JPushObj)).

Definition getAuthorization (appKey masterSecret : string) : string :=
  "Basic " +:+ EncodeToString (appKey +:+ ":" +:+ masterSecret).

(** [json.Unmarshal(b, output)] refuses an output that is nil, whatever the
    text. *)
Definition Unmarshal_into {T} (output : option T) (decode : string → T + error) (b : string) : () + error :=
  match output with
  | None => inr (Bare (ErrText "json: Unmarshal(nil)"))
  | Some _ => match decode b with inl _ => inl () | inr e => inr e end
  end.

(** The output is the nil interface. *)
Definition jpush_request (po : JPushObj) : M W () :=
  let authorization := getAuthorization (Jpns_AppKey config) (Jpns_MasterSecret config) in
  b ← (λ h, (of_sum (jpush_Post authorization po h), h ++ [(authorization, po)]));
  lift (Unmarshal_into (None : option ()) (λ _, inl ()) b).

Definition JPush_Push (userIDs : list string) (title content : string) (opts : Opts) : M W () :=
  jpush_request {| J_Platform := "all"; J_Alias := userIDs; J_Alert := title;
    J_AndroidIntentURL := Jpns_PushIntent config; J_IosSound := "default"; J_IosBadge := "+1";
    J_ClientMsgID := Opts_Signal opts; J_MutableContent := true; J_MsgContent := content;
    J_ApnsProduction := IOSPush_Production config |}.
End JPush.

(** ** Dummy *)

Definition Dummy_Push {W} (userIDs : list string) (title content : string) (opts : Opts) : M W () := mret ().
