(* ===== verification/PushProofs.v ===== *)
(** * Properties of the push service

    Who a push reaches, online and offline; what its end hides; and the push
    service put together with the gateways of Gateway.v. *)

From S2P Require Import Prelude.
From S2P Require Import Constants.
From S2P Require Import MsgTypes.
From S2P Require Import MsgProcessor.
From S2P Require Import Tools.
From S2P Require Import RpcClient.
From S2P Require Import Redis.
From S2P Require Import GroupTypes.
From S2P Require Import Gateway.
From S2P Require Import GatewayServer.
From S2P Require Import HubProofs.
From S2P Require Import RequestProofs.
From S2P Require Import Push.
From stdpp Require Import options.
#[local] Set Default Proof Using "Type*".

#[local] Open Scope Z_scope.

(** ** What a computation adds to the effects *)

(** Only effects that satisfy [P] are added. *)
Definition adds {Wr} (P : Wr → Prop) (h h' : list Wr) : Prop := ∃ es, h' = h ++ es ∧ Forall P es.

#[export] Instance adds_preorder {Wr} (P : Wr → Prop) : PreOrder (adds P).
Proof.
  split.
  - intros h. exists []. by rewrite app_nil_r.
  - intros h1 h2 h3 (es & -> & He) (es' & -> & He'). exists (es ++ es'). rewrite app_assoc.
    split; [done|]. by apply Forall_app.
Qed.

Lemma adds_one {Wr} (P : Wr → Prop) h e : P e → adds P h (h ++ [e]).
Proof. intros He. exists [e]. split; [done|]. by apply Forall_singleton. Qed.
Lemma adds_mono {Wr} (P P' : Wr → Prop) h h' : (∀ e, P e → P' e) → adds P h h' → adds P' h h'.
Proof. intros HP (es & -> & He). exists es. split; [done|]. by eapply Forall_impl. Qed.

#[export] Instance moves_ask {Wr A} (P : Wr → Prop) (f : list Wr → A + error) : Moves (adds P) (ask f).
Proof. intros h. unfold ask. reflexivity. Qed.
Lemma moves_tell {Wr} (P : Wr → Prop) ans e : P e → Moves (adds P) (tell ans e).
Proof. intros He h. by apply adds_one. Qed.
Lemma moves_mono {W A} (R R' : relation W) (m : M W A) : (∀ w w', R w w' → R' w w') → Moves R m → Moves R' m.
Proof. intros HR Hm w. apply HR, Hm. Qed.

Lemma fold_each_run {W A B} (body : B → A → M W B) x l acc acc' w w' :
  body acc x w = (Ok acc', w') → fold_each (x :: l) acc body w = fold_each l acc' body w'.
Proof. intros E. cbn [fold_each]. unfold mbind, M_bind. by rewrite E. Qed.

(** On the second half of a state. *)
Definition on_second {W Wr} (R : relation Wr) : relation (W * Wr) := λ w w', R w.2 w'.2.
#[export] Instance on_second_preorder {W Wr} (R : relation Wr) `{!PreOrder R} : PreOrder (on_second (W:=W) R).
Proof. split; [by intros w; unfold on_second|]. intros w1 w2 w3 H1 H2. unfold on_second in *. by etrans. Qed.
#[export] Instance moves_on_snd {W Wr A} (R : relation Wr) (m : M Wr A) :
  Moves R m → Moves (on_second (W:=W) R) (on_snd m).
Proof. intros Hm [d r]. specialize (Hm r). unfold on_second, on_snd. by destruct (m r). Qed.
#[export] Instance moves_on_fst {W Wr A} (R : relation Wr) `{!PreOrder R} (m : M W A) :
  Moves (on_second R) (on_fst m).
Proof. intros [d r]. unfold on_second, on_fst. by destruct (m d). Qed.

Lemma moves_deferring {W} (R : relation W) `{!PreOrder R} (d m : M W ()) :
  Moves R d → Moves R m → Moves R (deferring d m).
Proof.
  intros Hd Hm w. unfold deferring. specialize (Hm w). destruct (m w) as [r w1]. cbn in Hm.
  destruct r; (etrans; [exact Hm|apply Hd]).
Qed.

Section PushProofs.
Context `{!Tools, !MsgTools, !PushTools, !Gateways, !PushServices, !PushWebhook}.
Context (config : PushConfig) (decode : Decoders) (operationID opUserID : string).
Context (offlinePusher : bool) (answers : list PushEffect → PushEffect → option error).
Implicit Types (h : list PushEffect) (msg : MsgData) (users : list string).

(** ** Pushing online *)

(** What a node answers, nothing if it fails. *)
Definition node_answer (v : string) msg users h : list SingleMsgToUserResults :=
  match svc_OnlinePush v msg users h with inl reply => reply | inr _ => [] end.

(** What the nodes answer one after the other. *)
Fixpoint nodes_answer (conns : list string) msg users h : list SingleMsgToUserResults :=
  match conns with
  | [] => []
  | v :: conns => node_answer v msg users h ++ nodes_answer conns msg users (h ++ [OnlinePush v msg users])
  end.

Lemma GetConnsAndOnlinePush_run msg users h :
  GetConnsAndOnlinePush msg users h = match svc_GetConns h with
    | inr e => (Err e, h)
    | inl conns => (Ok (nodes_answer conns msg users h), h ++ ((λ v, OnlinePush v msg users) <$> conns))
    end.
Proof.
  unfold GetConnsAndOnlinePush. set (body := λ wsResults v, _). unfold ask, mbind at 1, M_bind at 1.
  destruct (svc_GetConns h) as [conns|e]; [|done]. cbn [of_sum].
  assert (∀ acc, fold_each conns acc body h = (Ok (acc ++ nodes_answer conns msg users h),
    h ++ ((λ v, OnlinePush v msg users) <$> conns))) as Hrun; [|apply Hrun].
  revert h. induction conns as [|v conns IH]; intros h acc; [cbn; by rewrite !app_nil_r|].
  assert (body acc v h = (Ok (acc ++ node_answer v msg users h), h ++ [OnlinePush v msg users])) as Hb.
  { unfold body, node_answer, mbind, M_bind, try. destruct (svc_OnlinePush v msg users h); cbn; [done|].
    by rewrite app_nil_r. }
  rewrite (fold_each_run _ _ _ _ _ _ _ Hb), IH. cbn [nodes_answer fmap list_fmap]. by rewrite <-!app_assoc.
Qed.

Definition online_to msg users (e : PushEffect) : Prop := ∃ v, e = OnlinePush v msg users.

Lemma online_effects conns msg users h : adds (online_to msg users) h (h ++ ((λ v, OnlinePush v msg users) <$> conns)).
Proof. eexists. split; [done|]. apply Forall_fmap, Forall_forall. intros v _. by exists v. Qed.

(** ** Single chats *)

(** A result that asks for a push to the user's devices. *)
Definition missed msg (r : SingleMsgToUserResults) : bool :=
  negb (bool_decide (SendID msg = To_UserID r)) && negb (To_OnlinePush r).

Definition offline_push msg (conversationID : string) users : PushEffect :=
  let opts := GetOfflinePushOpts msg in
  let '(title, content) := match OfflinePush msg with
    | Some info => (Title info, Desc info) | None => ("", "") end in
  let title := if bool_decide (title = "") then offline_title decode conversationID msg else title in
  OfflinePushed users title (if bool_decide (content = "") then title else content) opts.

Lemma offlinePushMsg_run conversationID msg users h :
  offlinePushMsg decode offlinePusher answers conversationID msg users h =
  if offlinePusher then tell answers (offline_push msg conversationID users) h else (Err errNoOfflinePusher, h).
Proof.
  unfold offlinePushMsg, getOfflinePushInfos, offline_push, guard, mbind, M_bind, mret, M_ret, fail.
  destruct offlinePusher; cbn; [|done]. by destruct (OfflinePush msg) as [[]|].
Qed.

(** Without a webhook for offline pushes, and while nothing fails, the push of a
    message of a single chat asks every gateway once, for all its users, and then pushes to the devices of
    a user once for every answer of a gateway in which he is not the sender and was not reached: for each
    gateway apart, so that a receiver who is connected to one gateway is pushed to his devices by way of
    every other one. *)
Theorem Push2User_exact users msg h conns :
  Push_CallbackOnlinePush_Enable config = false → Push_CallbackOfflinePush_Enable config = false →
  offlinePusher = true → (∀ h e, answers h e = None) → svc_GetConns h = inl conns →
  Push2User config decode operationID offlinePusher answers users msg h =
    (Ok (), h ++ ((λ v, OnlinePush v msg users) <$> conns) ++
      if GetSwitchFromOptions (Options msg) IsOfflinePush
      then (λ r, offline_push msg (SendID msg) [To_UserID r]) <$>
             filter (λ r, missed msg r = true) (nodes_answer conns msg users h)
      else []).
Proof.
  intros Hon Hoff Hp Hans Hconns. unfold Push2User, callbackOnlinePush. rewrite Hon. cbn [negb orb].
  unfold mbind at 1, M_bind at 1. cbn. unfold mbind at 1, M_bind at 1.
  rewrite GetConnsAndOnlinePush_run, Hconns. cbv iota beta.
  destruct (GetSwitchFromOptions _ _); cbn [negb]; [|by rewrite app_nil_r].
  set (body := λ msg v, _). rewrite app_assoc. generalize (h ++ ((λ v, OnlinePush v msg users) <$> conns)) as h1.
  generalize (nodes_answer conns msg users h) as rs. intros rs h1. unfold mbind at 1, M_bind at 1.
  assert (fold_each rs msg body h1 = (Ok msg, h1 ++ ((λ r, offline_push msg (SendID msg) [To_UserID r]) <$>
    filter (λ r, missed msg r = true) rs))) as Hrun; [|by rewrite Hrun].
  revert h1. induction rs as [|r rs IH]; intros h1; [by rewrite app_nil_r|].
  assert (body msg r h1 = (Ok msg, h1 ++ if missed msg r then [offline_push msg (SendID msg) [To_UserID r]] else [])) as Hb.
  { unfold body, missed. destruct (negb _ && negb _); [|by rewrite app_nil_r].
    unfold callbackOfflinePush. rewrite Hoff. cbn [negb]. unfold mbind, M_bind, mret, M_ret.
    cbn [snd]. rewrite offlinePushMsg_run, Hp. unfold tell. by rewrite Hans. }
  rewrite (fold_each_run _ _ _ _ _ _ _ Hb), IH, filter_cons. destruct (missed msg r); cbn [decide];
    [rewrite decide_True by done|rewrite decide_False by done]; by rewrite <-app_assoc.
Qed.

Context `{!GatewaysLaws, !ToolsLaws}.

Lemma node_answer_users v msg users h r : r ∈ node_answer v msg users h → To_UserID r ∈ users.
Proof.
  unfold node_answer. destruct (svc_OnlinePush v msg users h) as [reply|] eqn:E; [|by intros ?%elem_of_nil].
  intros Hr. apply OnlinePush_users in E. rewrite <-E. apply list_elem_of_fmap. eauto.
Qed.
Lemma nodes_answer_users conns msg users h r : r ∈ nodes_answer conns msg users h → To_UserID r ∈ users.
Proof.
  revert h. induction conns as [|v conns IH]; intros h; cbn; [by intros ?%elem_of_nil|].
  rewrite elem_of_app. intros [?%node_answer_users|?]; eauto.
Qed.

(** What a push to these users may ask for: pushes of the message to them
    online, posts to the webhook, and pushes to the devices of one of them who is
    not the sender. *)
Definition single_effect msg users (e : PushEffect) : Prop :=
  match e with
  | OnlinePush _ m us => m = msg ∧ us = users
  | OfflinePushed us _ _ _ => ∃ u, us = [u] ∧ u ∈ users ∧ u ≠ SendID msg
  | PushPost _ => True
  | _ => False
  end.

Lemma moves_post (P : PushEffect → Prop) req : P (PushPost req) → Moves (adds P) (post req).
Proof. intros HP h. by apply adds_one. Qed.
Lemma moves_post_continue (P : PushEffect → Prop) req : P (PushPost req) → Moves (adds P) (post_continue req).
Proof. intros HP. pose proof (moves_post P req HP). unfold post_continue. apply _. Qed.

Lemma moves_callbackOfflinePush (P : PushEffect → Prop) users msg l :
  (∀ req, P (PushPost req)) → Moves (adds P) (callbackOfflinePush config decode operationID users msg l).
Proof.
  intros HP. pose proof (λ req, moves_post_continue P req (HP req)). unfold callbackOfflinePush. apply _.
Qed.
Lemma moves_callbackOnlinePush (P : PushEffect → Prop) users msg :
  (∀ req, P (PushPost req)) → Moves (adds P) (callbackOnlinePush config decode operationID users msg).
Proof. intros HP. pose proof (λ req, moves_post P req (HP req)). unfold callbackOnlinePush. apply _. Qed.

(** The webhook changes nothing of a message but the information of its push. *)
Lemma wp_callbackOfflinePush users msg l (Q : outcome (list string * MsgData) → list PushEffect → Prop) h :
  (∀ l' info h', adds (λ e, ∃ req, e = PushPost req) h h' →
     (l' = l ∨ Push_CallbackOfflinePush_Enable config = true) → Q (Ok (l', set_OfflinePush info msg)) h') →
  (∀ e h', adds (λ e, ∃ req, e = PushPost req) h h' → Q (Err e) h') →
  wp (callbackOfflinePush config decode operationID users msg l) Q h.
Proof.
  intros HQ He. unfold callbackOfflinePush.
  assert (∀ l' h', adds (λ e, ∃ req, e = PushPost req) h h' →
    (l' = l ∨ Push_CallbackOfflinePush_Enable config = true) → Q (Ok (l', msg)) h') as HQ0.
  { intros l' h' Hadd Hl. assert (set_OfflinePush (OfflinePush msg) msg = msg) as <- by by destruct msg. by apply HQ. }
  destruct (Push_CallbackOfflinePush_Enable config) eqn:Hen; cbn [negb]; [|apply wp_ret, HQ0; [reflexivity|by left]].
  unfold post_continue. apply wp_bind, wp_bind, wp_try, wp_eq. unfold post. cbn [fst snd].
  set (req := push_req _ _ _ _ _ _ _ _). assert (adds (λ e, ∃ req, e = PushPost req) h (h ++ [PushPost req])) as Hadd
    by (apply adds_one; eauto).
  destruct (webhook_push req h) as [resp|e]; cbn [of_sum].
  - apply wp_ret. destruct (BPR_OfflinePushInfo resp); destruct (negb _); apply wp_ret; auto.
  - case_bool_decide; [apply wp_ret, wp_ret|apply wp_fail]; auto.
Qed.

Lemma SendID_set_OfflinePush info msg : SendID (set_OfflinePush info msg) = SendID msg.
Proof. by destruct msg. Qed.

Lemma wp_GetConnsAndOnlinePush msg users (Q : outcome (list SingleMsgToUserResults) → list PushEffect → Prop) h :
  (∀ conns, svc_GetConns h = inl conns →
     Q (Ok (nodes_answer conns msg users h)) (h ++ ((λ v, OnlinePush v msg users) <$> conns))) →
  (∀ e, Q (Err e) h) → wp (GetConnsAndOnlinePush msg users) Q h.
Proof. intros HQ He. apply wp_eq. rewrite GetConnsAndOnlinePush_run. destruct (svc_GetConns h); cbn; auto. Qed.

(** What follows the answers of the gateways. *)
Definition after_online users msg (rs : list SingleMsgToUserResults) : M (list PushEffect) () :=
  if negb (GetSwitchFromOptions (Options msg) IsOfflinePush) then mret ()
  else
    _ ← fold_each rs msg (λ msg v,
      if negb (bool_decide (SendID msg = To_UserID v)) && negb (To_OnlinePush v) then
        r ← callbackOfflinePush config decode operationID users msg [];
        _ ← offlinePushMsg decode offlinePusher answers (SendID msg) r.2 [To_UserID v];
        mret r.2
      else mret msg);
    mret ().
Lemma wp_after_online users msg rs h : Forall (λ r, To_UserID r ∈ users) rs →
  wp (after_online users msg rs) (λ _ h', adds (single_effect msg users) h h') h.
Proof.
  intros Hus. set (P := single_effect msg users). unfold after_online.
  destruct (negb _); [by apply wp_ret|]. apply wp_bind.
  apply (wp_fold_each _ _ _ (λ _ m h', SendID m = SendID msg ∧ adds P h h')); [done| |by intros m h' []].
  intros done r rest m h2 Hrs [Hm Hh2]. destruct (negb _ && negb _) eqn:Hmiss; [|by apply wp_ret].
  apply andb_true_iff in Hmiss as [Hs _]. rewrite negb_true_iff, bool_decide_eq_false in Hs.
  apply wp_bind, wp_callbackOfflinePush.
  - intros l' info h3 Hh3 _. assert (adds P h h3) as Hh3' by (etrans; [done|]; eapply adds_mono; [|done]; by intros e [req ->]).
    apply wp_bind, wp_eq. cbn [snd]. rewrite offlinePushMsg_run. destruct offlinePusher; [|done].
    assert (To_UserID r ∈ users) as Hr.
    { rewrite Forall_forall in Hus. apply Hus. rewrite Hrs. set_solver +. }
    assert (adds P h (h3 ++ [offline_push (set_OfflinePush info m) (SendID m) [To_UserID r]])) as Hadd.
    { etrans; [exact Hh3'|]. apply adds_one. unfold P, offline_push, single_effect.
      destruct (match OfflinePush _ with Some _ => _ | None => _ end). exists (To_UserID r). rewrite <-Hm. auto. }
    unfold tell. cbn [fst snd]. destruct (answers _ _); [exact Hadd|]. apply wp_ret. split; [|exact Hadd].
    by rewrite SendID_set_OfflinePush.
  - intros e h3 Hh3. etrans; [exact Hh2|]. eapply adds_mono; [|exact Hh3]. by intros ? [req ->].
Qed.
Lemma nodes_answer_all conns msg users h : Forall (λ r, To_UserID r ∈ users) (nodes_answer conns msg users h).
Proof. apply Forall_forall. intros r. apply nodes_answer_users. Qed.

(** Every effect of the push of a message of a single chat is one of those,
    whatever fails and whatever the webhook says. *)
Lemma moves_Push2User users msg :
  Moves (adds (single_effect msg users)) (Push2User config decode operationID offlinePusher answers users msg).
Proof.
  unfold Push2User. refine (moves_bind _ _ _ (moves_callbackOnlinePush _ users msg _) _); [done|]. intros _ h.
  set (P := single_effect msg users). apply (wp_eq _ (λ _ h', adds P h h')). apply wp_bind, wp_GetConnsAndOnlinePush.
  2:{ intros e. reflexivity. }
  intros conns Hconns. eapply wp_mono; [|apply wp_after_online, nodes_answer_all]. intros r h' Hh'.
  etrans; [|exact Hh']. eapply adds_mono; [|apply online_effects]. by intros e [v ->].
Qed.
(** The push of a chat's message, whose sender is among the users, begins with a call of
    every gateway. *)
Lemma Push2User_asks users msg conns h : SendID msg ∈ users → svc_GetConns h = inl conns →
  ∃ es, (Push2User config decode operationID offlinePusher answers users msg h).2 =
    h ++ ((λ v, OnlinePush v msg users) <$> conns) ++ es.
Proof.
  intros Hin Hconns.
  cut (wp (Push2User config decode operationID offlinePusher answers users msg) (λ _ h', ∃ es,
    h' = h ++ ((λ v, OnlinePush v msg users) <$> conns) ++ es) h); [by rewrite wp_eq|].
  unfold Push2User, callbackOnlinePush. rewrite Contain_spec, bool_decide_eq_true_2, orb_true_r by done.
  apply wp_bind, wp_ret, wp_bind, wp_eq. rewrite GetConnsAndOnlinePush_run, Hconns. cbn [fst snd].
  eapply wp_mono; [|apply wp_after_online, nodes_answer_all]. intros r h' (es & -> & _). exists es. by rewrite app_assoc.
Qed.

#[local] Instance ends_post req : Ends (post req).
Proof. intros h. unfold post. cbn. by destruct (webhook_push req h). Qed.
#[local] Instance ends_GetConnsAndOnlinePush msg users : Ends (GetConnsAndOnlinePush msg users).
Proof. intros h. rewrite GetConnsAndOnlinePush_run. by destruct (svc_GetConns h). Qed.
#[local] Instance ends_offlinePushMsg c msg users : Ends (offlinePushMsg decode offlinePusher answers c msg users).
Proof. intros h. rewrite offlinePushMsg_run. destruct offlinePusher; [apply ends|done]. Qed.
#[local] Instance ends_Push2User users msg :
  Ends (Push2User config decode operationID offlinePusher answers users msg).
Proof. unfold Push2User, callbackOnlinePush, callbackOfflinePush, post_continue. apply _. Qed.

(** ** Groups *)

Context `{!MsgToolsLaws, !PushToolsLaws, !PushServicesLaws}.









Abbreviation W := (gmap string GroupMemberIDsHash * list PushEffect)%type.
Abbreviation Push2SuperGroup := (Push2SuperGroup config decode operationID opUserID offlinePusher answers).

(** Without a webhook the push begins with the members. *)
Lemma Push2SuperGroup_members groupID msg members (w w1 : W) :
  Push_CallbackBeforeSuperGroupOnlinePush_Enable config = false →
  GetGroupMemberIDs groupID w = (Ok members, w1) →
  Push2SuperGroup groupID msg w = (audience ← group_audience config decode opUserID groupID msg members;
    match audience with
    | None => mret ()
    | Some (users, d) => on_snd (run_deferred answers d
        (push_to_group config decode operationID offlinePusher answers groupID msg users))
    end) w1.
Proof.
  intros Hoff Hm. unfold Push2SuperGroup, callbackBeforeSuperGroupOnlinePush. rewrite Hoff. cbn [negb].
  destruct w as [c h]. unfold mbind at 1, M_bind at 1. cbn [on_snd mret M_ret]. change (len (@nil string) =? 0) with true.
  cbn iota. unfold mbind at 1, M_bind at 1. by rewrite Hm.
Qed.



(** The calls a push leaves for its end are made however it ends. *)
Lemma deferring_last (e : PushEffect) (m : M (list PushEffect) ()) h : Ends m →
  deferring (tell answers e) m h = tell answers e (m h).2.
Proof. intros Hm. unfold deferring. specialize (Hm h). by destruct (m h) as [[[]| | |] h']. Qed.

(** C37: the push of the notification that a group was dismissed, when the webhook is off,
    the members are answered, the message is in a conversation of notifications and its
    content decodes, ends with the call that takes the members out of the group, in the name of the first
    manager where one is configured; what that call answers is the result, whatever became of the push. *)
Theorem dismissal_push_ends groupID msg members (w : W) c1 h1 :
  Push_CallbackBeforeSuperGroupOnlinePush_Enable config = false →
  ContentType msg = GroupDismissedNotification → IsNotification (GetConversationIDByMsg msg) = true →
  UnmarshalNotificationElem decode (Content msg) (Unmarshal_GroupDismissedTips decode) = inl () →
  GetGroupMemberIDs groupID w = (Ok members, (c1, h1)) →
  let '(r, (c', h')) := Push2SuperGroup groupID msg w in
  let pushed := push_to_group config decode operationID offlinePusher answers groupID msg members h1 in
  let dismiss := DismissGroup (default opUserID (head (Push_Manager_UserID config))) groupID true in
  c' = c1 ∧ h' = pushed.2 ++ [dismiss] ∧
  r = match answers pushed.2 dismiss with None => Ok () | Some e => Err e end.
Proof.
  intros Hon Hty Hn Hdec Hm. rewrite (Push2SuperGroup_members _ _ _ _ _ Hon Hm).
  unfold group_audience. rewrite Hty, Hn. cbn [andb]. change (GroupDismissedNotification =? MemberQuitNotification) with false.
  change (GroupDismissedNotification =? MemberKickedNotification) with false. rewrite Z.eqb_refl. cbn [andb]. cbn iota.
  rewrite Hdec. unfold mbind at 1, M_bind at 1. cbn [mret M_ret run_deferred on_snd].
  rewrite (deferring_last _ _ _ _). unfold tell. by destruct (answers _ _).
Qed.

(** A notification that a member left or was taken out of the group whose
    content does not decode is pushed to nobody, the sequence numbers of the one who left stay as they are,
    and the answer is no error. *)
Theorem undecodable_quit_unpushed groupID msg members (w w1 : W) :
  Push_CallbackBeforeSuperGroupOnlinePush_Enable config = false →
  ContentType msg ∈ [MemberQuitNotification; MemberKickedNotification] →
  (∃ e, Unmarshal_NotificationElem decode (Content msg) = inr e) →
  GetGroupMemberIDs groupID w = (Ok members, w1) →
  Push2SuperGroup groupID msg w = (Ok (), w1).
Proof.
  intros Hon Hty [e He] Hm. rewrite (Push2SuperGroup_members _ _ _ _ _ Hon Hm).
  unfold group_audience, UnmarshalNotificationElem. rewrite He.
  apply elem_of_cons in Hty as [-> | ->%list_elem_of_singleton].
  - done.
  - done.
Qed.
End PushProofs.

(** ** The push service and the gateways together *)

(** What becomes of a call of a node: it is answered, or it is carried out and the answer
    is lost, or it does not reach the node. *)
Inductive delivery := Answered | AnswerLost (e : error) | NotReached (e : error).
Definition reaches (d : delivery) : bool := match d with NotReached _ => false | _ => true end.

Section Hubs.
Context {R : Type} `{!Redis R} `{!Tools, !ToolsLaws, !MsgTools, !PushTools}.
Context (Encode : Resp → string + error) (Compress : string → string + error).
Context (WriteMessage : ptr → string → option error).
Context (marshal_PushMessages : PushMessages → string + error) (op : string) (r : R).
(** What discovery answers when it is asked, what becomes of a call of a node, and the
    hubs that the nodes begin with. *)
Context (discover : list PushEffect → list string + error) (network : string → list PushEffect → delivery).
Context (hubs : string → Hub).

Abbreviation push_on msg users hub :=
  (SuperGroupOnlineBatchPushOneMsg Encode Compress WriteMessage marshal_PushMessages op msg users (hub, r)).

(** A push that the node was asked for, after those of [s.1]. *)
Definition hub_step (n : string) (s : list PushEffect * Hub) (e : PushEffect) : list PushEffect * Hub :=
  (s.1 ++ [e], match e with
    | OnlinePush v msg users =>
        if bool_decide (v = n) && reaches (network v s.1) then (push_on msg users s.2).2.1 else s.2
    | _ => s.2
    end).
(** The hub of a node after the pushes it was asked for. *)
Definition hub_after (n : string) (h : list PushEffect) : Hub := (foldl (hub_step n) ([], hubs n) h).2.

(** The gateways as the push service sees them. *)
Definition hub_gateways : Gateways := {|
  svc_GetConns := discover;
  svc_OnlinePush n msg users h :=
    match network n h, (push_on msg users (hub_after n h)).1 with
    | Answered, Ok results => inl results
    | Answered, Err e | AnswerLost e, _ | NotReached e, _ => inr e
    | Answered, _ => inr (Bare (ErrExternal 0))
    end |}.

Lemma hub_after_fold n h : (foldl (hub_step n) ([], hubs n) h).1 = h.
Proof. induction h as [|e h IH] using rev_ind; [done|]. rewrite foldl_app. cbn. by rewrite IH. Qed.
Lemma hub_after_snoc n h e : hub_after n (h ++ [e]) = match e with
    | OnlinePush v msg users =>
        if bool_decide (v = n) && reaches (network v h) then (push_on msg users (hub_after n h)).2.1 else hub_after n h
    | _ => hub_after n h
    end.
Proof. unfold hub_after at 1. rewrite foldl_app. cbn [foldl hub_step snd]. by rewrite hub_after_fold. Qed.

Lemma pushed_refl hub users : pushed hub users hub.
Proof.
  split; [reflexivity|]. split; [done|]. exists []. rewrite app_nil_r. split; [done|]. by intros x ?%elem_of_nil.
Qed.
Lemma pushed_trans hub users hub1 hub2 : pushed hub users hub1 → pushed hub1 users hub2 → pushed hub users hub2.
Proof.
  intros (Hq1 & Hp1 & ws1 & Hw1 & Hr1) (Hq2 & Hp2 & ws2 & Hw2 & Hr2). split; [by etrans|]. split; [congruence|].
  exists (ws1 ++ ws2). rewrite Hw2, Hw1, app_assoc. split; [done|]. intros x [?|Hx]%elem_of_app; [by apply Hr1|].
  specialize (Hr2 x Hx). unfold reachable_conn in *. by rewrite Hp1, (quiet_clients _ _ Hq1) in Hr2.
Qed.

Abbreviation push_writes := (push_writes Encode Compress marshal_PushMessages op).

(** A push writes what it has to write to the hub as it is, and nothing else changes. *)
Lemma push_on_writes msg users hub : hub_ok hub → (push_on msg users hub).2.1 = write_all (push_writes msg users hub) hub.
Proof.
  intros Hok.
  by destruct (push_run Encode Compress WriteMessage marshal_PushMessages op msg users hub r Hok) as (? & _ & ->).
Qed.
Lemma hub_after_written n h : hub_ok (hubs n) → ∃ ws, hub_after n h = write_all ws (hubs n).
Proof.
  intros Hok. induction h as [|e h [ws IH]] using rev_ind; [by exists []|]. rewrite hub_after_snoc.
  destruct e; try by exists ws. destruct (_ && _); [|by exists ws]. rewrite push_on_writes, IH, <-write_all_app; [by eexists|].
  rewrite IH. destruct (write_all_same ws (hubs n)) as (Hh & Hc & _). unfold hub_ok. by rewrite Hh, Hc.
Qed.
Lemma hub_after_ok n h : hub_ok (hubs n) → hub_ok (hub_after n h).
Proof.
  intros Hok. destruct (hub_after_written n h Hok) as [ws ->].
  destruct (write_all_same ws (hubs n)) as (Hh & Hc & _). unfold hub_ok. by rewrite Hh, Hc.
Qed.
Lemma hub_after_writes n h msg users : hub_ok (hubs n) → push_writes msg users (hub_after n h) = push_writes msg users (hubs n).
Proof.
  intros Hok. destruct (hub_after_written n h Hok) as [ws ->].
  destruct (write_all_same ws (hubs n)) as (Hh & Hc & _). unfold RequestProofs.push_writes. by rewrite Hh, Hc.
Qed.

(** The hubs keep the promise of the interface. *)
Lemma hub_gateways_laws : (∀ n, hub_ok (hubs n)) → @GatewaysLaws hub_gateways.
Proof.
  intros Hok. split. cbn. intros n m us h rs.
  destruct (push_run Encode Compress WriteMessage marshal_PushMessages op m us _ r (hub_after_ok n h (Hok n)))
    as (results & Hus & ->). cbn. destruct (network n h); [|done..]. by intros [= <-].
Qed.

(** What pushes for some users write, on every node. *)
Lemma hub_after_pushed n users es : hub_ok (hubs n) →
  Forall (λ e, match e with OnlinePush _ _ us => us = users | _ => True end) es →
  pushed (hubs n) users (hub_after n es).
Proof.
  intros Hok. induction es as [|e es IH] using rev_ind; intros Hes; [apply pushed_refl|].
  apply Forall_app in Hes as [Hes He]. rewrite Forall_singleton in He. rewrite hub_after_snoc.
  destruct e as [v m us| | | |]; try by apply IH. subst us. destruct (_ && _); [|by apply IH].
  eapply pushed_trans; [by apply IH|]. rewrite push_on_writes by by apply hub_after_ok. apply push_writes_pushed.
Qed.
(** A push that reaches its node is written there. *)
Lemma hub_after_delivers n h msg users es x : hub_ok (hubs n) → reaches (network n h) = true →
  x ∈ push_writes msg users (hubs n) → x ∈ written (hub_after n (h ++ OnlinePush n msg users :: es)).
Proof.
  intros Hok Hr Hx. rewrite (cons_middle _ h es), app_assoc. induction es as [|e es IH] using rev_ind.
  - rewrite app_nil_r, hub_after_snoc, bool_decide_eq_true_2, Hr by done. cbn [andb].
    rewrite push_on_writes by by apply hub_after_ok. rewrite write_all_written, hub_after_writes by done.
    apply elem_of_app. by right.
  - rewrite app_assoc, hub_after_snoc. destruct e as [v m us| | | |]; try done. destruct (_ && _); [|done].
    rewrite push_on_writes by by apply hub_after_ok. rewrite write_all_written. apply elem_of_app. by left.
Qed.

Context `{!PushServices, !PushWebhook} (config : PushConfig) (decode : Decoders) (operationID opUserID : string).
Context (offlinePusher : bool) (answers : list PushEffect → PushEffect → option error).
#[local] Existing Instance hub_gateways.

(** C27: the push service over the gateways. Whatever discovery, the network, the webhook and
    the pusher to devices answer, handling a queued message of a single chat ends without
    an error; the hubs of all nodes change only by writes to open connections of the sender and of
    the receiver, and devices are pushed for the receiver alone, unless he is the sender.
    A message of the last ten seconds is delivered: if discovery answers, every node that it names and
    that the call reaches has written the message to every connection of the two that is
    open (but iOS connections in the background), as far as it can be encoded. *)
Theorem handleMs2PsChat_delivers nowSec text msg c :
  (∀ n, hub_ok (hubs n)) →
  Unmarshal_PushMsgDataToMQ decode text = inl (Some msg) → SessionType msg ≠ SuperGroupChatType →
  let '(res, (c', es)) := handleMs2PsChat config decode operationID opUserID offlinePusher answers
                            nowSec text (c, []) in
  let users := if negb (bool_decide (SendID msg = RecvID msg)) then [SendID msg; RecvID msg] else [SendID msg] in
  res = Ok () ∧ c' = c ∧
  (∀ n, pushed (hubs n) users (hub_after n es)) ∧
  (∀ us title content opts, OfflinePushed us title content opts ∈ es → us = [RecvID msg] ∧ RecvID msg ≠ SendID msg) ∧
  (∀ conns i n x, sub64 nowSec (SendTime msg `quot` 1000) ≤ 10 → discover [] = inl conns → conns !! i = Some n →
     reaches (network n ((λ v, OnlinePush v msg users) <$> take i conns)) = true →
     x ∈ push_writes msg users (hubs n) → x ∈ written (hub_after n es)).
Proof.
  intros Hok Hdec Hty. pose proof (hub_gateways_laws Hok) as Hlaws.
  set (users := if negb (bool_decide (SendID msg = RecvID msg)) then [SendID msg; RecvID msg] else [SendID msg]).
  assert (∀ u, u ∈ users → u = SendID msg ∨ u = RecvID msg) as Hu.
  { intros u. unfold users. case_bool_decide; set_solver +. }
  assert (SendID msg ∈ users) as Hin by (unfold users; case_bool_decide; left).
  set (P := single_effect msg users).
  set (Q := λ (res : outcome ()) (w : gmap string GroupMemberIDsHash * list PushEffect),
    res = Ok () ∧ w.1 = c ∧ Forall P w.2 ∧
    (∀ conns, sub64 nowSec (SendTime msg `quot` 1000) ≤ 10 → discover [] = inl conns →
       ∃ es, w.2 = ((λ v, OnlinePush v msg users) <$> conns) ++ es)).
  assert (wp (handleMs2PsChat config decode operationID opUserID offlinePusher answers nowSec text) Q (c, [])) as Hwp.
  { unfold handleMs2PsChat. rewrite Hdec. apply wp_bind, wp_deref; [intros m [= <-]|done].
    destruct (Z.ltb_spec 10 (sub64 nowSec (SendTime msg `quot` 1000))) as [Hold|_].
    { apply wp_ret. split; [done|]. split; [done|]. split; [done|]. lia. }
    apply Z.eqb_neq in Hty. rewrite Hty. apply wp_bind, wp_try, wp_on_snd, wp_eq.
    pose proof (moves_Push2User config decode operationID offlinePusher answers users msg []) as (es & He & HP).
    pose proof (ends_Push2User config decode operationID offlinePusher answers users msg []) as Hends.
    pose proof (λ conns, Push2User_asks config decode operationID offlinePusher answers users msg conns [] Hin) as Hasks.
    fold users. cbn [fst snd] in *. destruct (Push2User _ _ _ _ _ _ _ []) as [[[]|e| |] h]; cbn in *; try done;
      subst h; apply wp_ret; split_and!; auto. }
  unfold wp in Hwp. destruct (handleMs2PsChat _ _ _ _ _ _ _ _ (c, [])) as [res [c' es]].
  destruct Hwp as (-> & Hc & HP & Hasks). cbn in Hc, HP, Hasks.
  split_and!; [done|done| | |].
  - intros n. apply hub_after_pushed; [done|]. eapply Forall_impl; [exact HP|]. intros e He. destruct e; [apply He|done..].
  - intros us title content opts Hoff. rewrite Forall_forall in HP. destruct (HP _ Hoff) as (u & -> & Hus & Hne).
    destruct (Hu u Hus) as [->| ->]; [done|]. by split.
  - intros conns i n x Hnow Hd Hi Hr Hx. destruct (Hasks conns Hnow Hd) as [es' ->].
    rewrite <-(take_drop_middle conns i n Hi), fmap_app, fmap_cons, <-app_assoc. cbn [app]. by apply hub_after_delivers.
Qed.
End Hubs.
