(* ===== verification/OfflineProofs.v ===== *)
(** * Properties of the pushes to devices

    FCM sends every token and keeps its calls within the limit of the provider;
    Getui gives up on a token that expired. *)

From S2P Require Import Prelude.
From S2P Require Import Tools.
From S2P Require Import Redis.
From S2P Require Import MsgCache.
From S2P Require Import Push.
From S2P Require Import OfflinePush.
From stdpp Require Import options.
#[local] Set Default Proof Using "Type*".

#[local] Open Scope Z_scope.

#[export] Instance ends_run {R A} (c : Cmd R A) : Ends (run c).
Proof. intros w. unfold run. destruct (c w) as [[]]; done. Qed.

(** ** FCM *)

Section FcmProofs.
Context {R : Type} `{!Redis R, !MapRange}.
Abbreviation W := (R * list (list FcmMessage))%type.
Implicit Types (w : W).

(** Reading the tokens and the badges sends nothing. *)
Lemma wp_first {A} (m : M R A) `{!Ends m} (Q : outcome A → W → Prop) w :
  (∀ a r, Q (Ok a) (r, w.2)) → (∀ e r, Q (Err e) (r, w.2)) → wp (on_fst m) Q w.
Proof.
  intros Ha He. apply wp_on_fst, wp_eq. pose proof (ends (m:=m) w.1) as Hm. destruct (m w.1) as [[a|e| |] r]; cbn in *;
    [apply Ha|apply He|done..].
Qed.

Lemma wp_personTokens account (Q : outcome (list string) → W → Prop) w :
  (∀ tokens r, (length tokens ≤ length Terminal)%nat → Q (Ok tokens) (r, w.2)) → wp (personTokens account) Q w.
Proof.
  intros HQ. unfold personTokens.
  apply (wp_fold_each _ _ _ (λ l tokens w', (length tokens ≤ length l)%nat ∧ w'.2 = w.2)); [done| |].
  - intros l v rest tokens w' _ [Hlen Hw]. apply wp_bind, wp_try. unfold GetFcmToken. apply wp_first; [apply _| |].
    + intros token r. apply wp_ret. rewrite !length_app. cbn. split; [lia|done].
    + intros e r. apply wp_ret. rewrite length_app. split; [lia|done].
  - intros tokens [r h] [Hlen Hw]. cbn in Hw. subst. by apply HQ.
Qed.

Lemma wp_Fcm_allTokens userIDs (Q : outcome (gmap string (list string)) → W → Prop) w :
  (∀ t r, dom t = list_to_set userIDs → map_Forall (λ _ tokens, (length tokens ≤ 3)%nat) t →
     Q (Ok t) (r, w.2)) → wp (Fcm_allTokens userIDs) Q w.
Proof.
  intros HQ. unfold Fcm_allTokens.
  apply (wp_fold_each _ _ _ (λ l t w', dom t = list_to_set l ∧ map_Forall (λ _ tokens, (length tokens ≤ 3)%nat) t ∧ w'.2 = w.2)).
  - split_and!; [set_solver +|apply map_Forall_empty|done].
  - intros l u rest t w' _ (Hdom & Ht & Hw). apply wp_bind, wp_personTokens. intros tokens r Hlen. apply wp_ret.
    split_and!; [rewrite dom_insert_L, Hdom, list_to_set_app_L; set_solver +|by apply map_Forall_insert_2|done].
  - intros t [r h] (Hdom & Ht & Hw). cbn in Hw. subst. by apply HQ.
Qed.

Lemma wp_fcm_badge b u (Q : outcome (option Z) → W → Prop) w :
  (∀ o r, (b = false → is_Some o) → Q (Ok o) (r, w.2)) → wp (fcm_badge b u) Q w.
Proof.
  intros HQ. unfold fcm_badge, IncrUserBadgeUnreadCountSum, GetUserBadgeUnreadCountSum, get_int64.
  destruct b; apply wp_bind, wp_try, wp_first; [apply _| | |apply _| |];
    intros; apply wp_ret, HQ; done || (intros _; eexists; done).
Qed.

(** What is sent and what waits, after some users. *)
Definition fcm_state (opts : Opts) h (ps : list (string * list string)) (messages : list FcmMessage)
    (h' : list (list FcmMessage)) : Prop :=
  len messages ≤ 402 ∧ ∃ batches, h' = h ++ batches ∧ Forall (λ b, 1 ≤ len b ≤ 402) batches ∧
  (Opts_IOSBadgeCount opts = false → Fcm_Token <$> (mjoin batches ++ messages) = mjoin ps.*2).

Lemma wp_fcm_user title content opts h ps messages p w (Q : outcome (list FcmMessage) → W → Prop) :
  fcm_state opts h ps messages w.2 → (length p.2 ≤ 3)%nat →
  (∀ messages' w', fcm_state opts h (ps ++ [p]) messages' w'.2 → Q (Ok messages') w') →
  wp (fcm_user title content opts messages p) Q w.
Proof.
  intros (Hlen & batches & Hw & Hb & Htok) Hp HQ. unfold fcm_user. apply wp_bind.
  assert (∀ ms w', len ms ≤ 399 → fcm_state opts h ps ms w'.2 →
    wp (badge ← fcm_badge (Opts_IOSBadgeCount opts) p.1;
        mret (match badge with Some b => ms ++ fcm_messages title content opts b p.2 | None => ms end)) Q w') as Hrest.
  { intros ms w' Hms (_ & bs & Hw' & Hbs & Htok'). apply wp_bind, wp_fcm_badge. intros o r Ho. apply wp_ret, HQ. cbn.
    split.
    - destruct o; [|lia]. unfold len in *. rewrite length_app. unfold fcm_messages. rewrite length_fmap. lia.
    - exists bs. split; [done|]. split; [done|]. intros Hio. destruct (Ho Hio) as [b ->].
      rewrite app_assoc, fmap_app, (Htok' Hio), fmap_app, join_app. f_equal.
      unfold fcm_messages. rewrite <-list_fmap_compose. cbn. rewrite app_nil_r. apply list_fmap_id. }
  destruct (SinglePushCountLimit <=? len messages) eqn:Hlim; unfold SinglePushCountLimit in Hlim.
  - apply wp_bind, wp_on_snd, wp_modify, wp_ret, Hrest; [by unfold len; cbn; lia|]. split; [by unfold len; cbn; lia|].
    exists (batches ++ [messages]). cbn. rewrite Hw, app_assoc. split; [done|]. split.
    + apply Forall_app. split; [done|]. apply Forall_singleton. lia.
    + intros Hio. rewrite app_nil_r, join_app. cbn. rewrite app_nil_r. auto.
  - apply wp_ret, Hrest; [lia|]. split; [lia|]. eauto.
Qed.

(** a push to devices by way of FCM never fails.  It hands the provider its
    messages in calls of between one and 402 messages, and when no badges are counted they are one for
    every token of the terminals of the users. *)
Theorem Fcm_Push_sends_all userIDs title content opts (r : R) h :
  let '(res, (r', h')) := Fcm_Push userIDs title content opts (r, h) in
  res = Ok () ∧ ∃ t batches, (Fcm_allTokens userIDs (r, h)).1 = Ok t ∧ dom t = list_to_set userIDs ∧
    h' = h ++ batches ∧ Forall (λ b, 1 ≤ len b ≤ 402) batches ∧
    (Opts_IOSBadgeCount opts = false → Fcm_Token <$> mjoin batches ≡ₚ mjoin (map_to_list t).*2).
Proof.
  set (Q := λ (res : outcome ()) (w : W), res = Ok () ∧ ∃ t batches, (Fcm_allTokens userIDs (r, h)).1 = Ok t ∧
    dom t = list_to_set userIDs ∧ w.2 = h ++ batches ∧ Forall (λ b, 1 ≤ len b ≤ 402) batches ∧
    (Opts_IOSBadgeCount opts = false → Fcm_Token <$> mjoin batches ≡ₚ mjoin (map_to_list t).*2)).
  assert (wp (Fcm_Push userIDs title content opts) Q (r, h)) as Hwp.
  2:{ unfold wp in Hwp. by destruct (Fcm_Push _ _ _ _ _) as [res [r' h']]. }
  unfold Fcm_Push. apply wp_bind.
  assert (wp (Fcm_allTokens userIDs) (λ o w', ∃ t r', o = Ok t ∧ w' = (r', h) ∧ dom t = list_to_set userIDs ∧
    map_Forall (λ _ tokens, (length tokens ≤ 3)%nat) t) (r, h)) as Hall by (apply wp_Fcm_allTokens; eauto 10).
  rewrite wp_eq in Hall. apply wp_eq. destruct (Fcm_allTokens userIDs (r, h)) as [o w'] eqn:Hrun.
  destruct Hall as (t & r' & Ho & Hw & Hdom & Ht). cbn [fst snd] in *. subst o w'.
  apply wp_bind, (wp_fold_each _ _ _ (λ ps messages w', fcm_state opts h ps messages w'.2)).
  - split; [done|]. exists []. rewrite app_nil_r. by split.
  - intros ps p rest messages w' Hps Hst. eapply wp_fcm_user; [exact Hst| |by intros].
    assert (p ∈ range t) as Hin by (rewrite Hps; set_solver +). destruct p as [u tokens]. apply range_lookup in Hin.
    by apply (Ht u).
  - intros messages w' (Hlen & batches & Hw & Hb & Htok).
    assert (mjoin (range t).*2 ≡ₚ mjoin (map_to_list t).*2) as Hperm by by rewrite range_perm.
    destruct (0 <? len messages) eqn:Hpos.
    + apply wp_on_snd, wp_modify. split; [done|]. exists t, (batches ++ [messages]). cbn [snd]. rewrite Hw, app_assoc.
      split_and!; [done|done|done| |].
      * apply Forall_app. split; [done|]. apply Forall_singleton. lia.
      * intros Hio. rewrite <-Hperm, <-(Htok Hio), join_app. cbn. by rewrite app_nil_r.
    + apply wp_ret. split; [done|]. exists t, batches. split_and!; [done|done|done|done|].
      intros Hio. rewrite <-Hperm, <-(Htok Hio). destruct messages; [by rewrite app_nil_r|]. exfalso. clear -Hpos. apply Z.ltb_ge in Hpos. unfold len in Hpos. simpl in Hpos. lia.
Qed.
End FcmProofs.

(** ** Getui *)

Section GetuiProofs.
Context {R : Type} `{!Redis R, !GetuiProvider, !GetuiProviderLaws}.
Context (config : GeTuiConfig) (operationID : string) (timeStamp : Z).
Abbreviation W := (R * list GetuiCall)%type.
Abbreviation Getui_Push := (Getui_Push config operationID timeStamp).

(** What a push posts about the message. *)
Definition getui_req (title content : string) : PushReq :=
  setPushChannel title content (newPushReq (GeTui_ChannelID config) (GeTui_ChannelName config) title content).

Lemma getui_request_expired call (w : W) :
  (∃ resp, getui_Post call w.2 = inl resp ∧ Resp_Code resp = tokenExpireCode) →
  getui_request call w = (Err ErrTokenExpire, (w.1, w.2 ++ [call])).
Proof.
  intros (resp & Hp & Hc). destruct w as [r h]. unfold getui_request, mbind, M_bind. cbn in *. rewrite Hp. cbn.
  unfold parseError. by rewrite Hc.
Qed.

Lemma batchPush_expired token users req (w : W) :
  (∀ req h, ∃ resp, getui_Post (PostTask token req) h = inl resp ∧ Resp_Code resp = tokenExpireCode) →
  batchPush token users req w =
    (Err (WrapErr "" ErrTokenExpire), (w.1, w.2 ++ [PostTask token (set_TTL (1000 * 60 * 5) req)])).
Proof.
  intros Hexp. unfold batchPush, GetTaskID, wrap_error, try, mbind, M_bind.
  by rewrite (getui_request_expired _ w (Hexp _ _)).
Qed.

(** Many batches: each asks for a task once. *)
Lemma batch_all_expired token req batches (r : R) h :
  (∀ req h, ∃ resp, getui_Post (PostTask token req) h = inl resp ∧ Resp_Code resp = tokenExpireCode) →
  batches ≠ [] → batch_all token req batches (r, h) = (Err (WrapErr "" ErrTokenExpire),
    (r, h ++ replicate (length batches) (PostTask token (set_TTL (1000 * 60 * 5) req)))).
Proof.
  intros Hexp Hne. unfold batch_all. set (body := λ err users, _).
  rewrite <-(Permutation_length (go_order_perm batches)).
  assert (go_order batches ≠ []) as Hne'.
  { intros Hnil. pose proof (go_order_perm batches) as Hp. rewrite Hnil in Hp. by apply Permutation_nil in Hp. }
  assert (∀ bs err h, fold_each bs err body (r, h) =
    (Ok (match bs with [] => err | _ => Some (WrapErr "" ErrTokenExpire) end),
     (r, h ++ replicate (length bs) (PostTask token (set_TTL (1000 * 60 * 5) req))))) as Hrun.
  { induction bs as [|b bs IH]; intros err h0; [cbn; by rewrite app_nil_r|].
    cbn [fold_each]. unfold mbind at 1, M_bind at 1. unfold body at 1, mbind at 1, M_bind at 1, try.
    rewrite (batchPush_expired _ _ _ _ Hexp). cbn. rewrite IH, <-app_assoc. by destruct bs. }
  unfold mbind, M_bind. rewrite Hrun. by destruct (go_order batches).
Qed.

Lemma getToken_calls (w : W) : Ends (W:=W) (getTokenAndSave2Redis config timeStamp) ∧
  ∃ req, (getTokenAndSave2Redis config timeStamp w).2.2 = w.2 ++ [PostAuth req].
Proof.
  assert (Ends (W:=W) (getTokenAndSave2Redis config timeStamp)) as Hends.
  { unfold getTokenAndSave2Redis, getui_Auth, getui_request, SetGetuiToken.
    assert (∀ call, Ends (λ h : list GetuiCall, (of_sum (getui_Post call h), h ++ [call]))) as Hpost.
    { intros call h. cbn. by destruct (getui_Post call h). }
    apply _. }
  split; [done|]. destruct w as [r h].
  unfold getTokenAndSave2Redis, getui_Auth, getui_request, mbind, M_bind. cbn. eexists.
  destruct (getui_Post _ h) as [resp|e]; cbn; [|done]. destruct (parseError resp); cbn; [done|].
  destruct (ParseInt _); cbn; [|done]. by destruct (SetGetuiToken _ _ _) as [[]].
Qed.

(** When the token the cache holds has expired, Getui loses the message.  For one
    user it is posted once, under the old token, and then a new token is fetched: if that goes well the push
    answers no error though nothing was delivered.  For several users only tasks are asked for, the answer is
    the error, and no new token is fetched, so that it is the same for every push until the cache drops
    the token. *)
Theorem getui_expired_token users title content opts (r r1 : R) h token :
  GetGetuiToken r = (Ok token, r1) →
  (∀ call h, (∃ req, call = PostTask token req ∨ call = PostSingle token req) →
     ∃ resp, getui_Post call h = inl resp ∧ Resp_Code resp = tokenExpireCode) →
  users ≠ [] →
  let '(res, (r', h')) := Getui_Push users title content opts (r, h) in
  match users with
  | [u] => ∃ req, h' = h ++ [PostSingle token (set_single operationID u (getui_req title content)); PostAuth req] ∧
      (res = Ok () ↔ ∃ token', (getTokenAndSave2Redis config timeStamp
        (r1, h ++ [PostSingle token (set_single operationID u (getui_req title content))])).1 = Ok token')
  | _ => res = Err (WrapErr "" ErrTokenExpire) ∧ r' = r1 ∧
      ∃ es, h' = h ++ es ∧ Forall (λ e, ∃ req, e = PostTask token req) es
  end.
Proof.
  intros Htok Hexp Hne.
  assert (∀ req h, ∃ resp, getui_Post (PostTask token req) h = inl resp ∧ Resp_Code resp = tokenExpireCode) as Htask
    by eauto.
  unfold OfflinePush.Getui_Push. fold (getui_req title content). unfold mbind at 1, M_bind at 1. unfold try at 1.
  cbn [on_fst]. rewrite Htok. unfold mbind at 1, M_bind at 1. cbn [mret M_ret].
  set (req := getui_req title content).
  destruct users as [|u [|u' users]]; [done| |].
  - unfold mbind at 1, M_bind at 1. unfold try at 1. unfold singlePush. unfold mbind at 1, M_bind at 1.
    rewrite getui_request_expired by eauto. cbn [fst snd]. rewrite bool_decide_true by done.
    pose proof (getToken_calls (r1, h ++ [PostSingle token (set_single operationID u req)])) as [Hends [areq Hcalls]].
    specialize (Hends (r1, h ++ [PostSingle token (set_single operationID u req)])).
    unfold mbind, M_bind. destruct (getTokenAndSave2Redis _ _ _) as [t [r' h']]. cbn in Hcalls, Hends. subst h'.
    destruct t; try done; cbn; exists areq; rewrite <-app_assoc; naive_solver.
  - set (all := u :: u' :: users) in *. unfold mbind at 1, M_bind at 1. unfold try at 1.
    assert (∃ es, (if 999 <? len all then batch_all token req (NewSplitter 999 all) else batchPush token all req) (r1, h) =
      (Err (WrapErr "" ErrTokenExpire), (r1, h ++ es)) ∧ Forall (λ e, ∃ req, e = PostTask token req) es) as (es & -> & Hes).
    { destruct (999 <? len all).
      - rewrite batch_all_expired; [|done|].
        + eexists. split; [done|]. apply Forall_replicate. eauto.
        + intros Hnil. pose proof (NewSplitter_join 999 all) as Hj. rewrite Hnil in Hj. by specialize (Hj ltac:(lia)).
      - rewrite (batchPush_expired _ _ _ _ Htask). eexists. split; [done|]. apply Forall_singleton. eauto. }
    cbn. split; [done|]. split; [done|]. eauto.
Qed.
End GetuiProofs.

(** ** JPush *)

(** Every push by way of JPush answers an error, after it was made. *)
Lemma JPush_Push_fails config EncodeToString post users title content opts h :
  ∃ e req, JPush_Push config EncodeToString post users title content opts h = (Err e, h ++ [req]).
Proof.
  unfold JPush_Push, jpush_request, mbind, M_bind. destruct (post _ _ h); cbn; eauto.
Qed.
