(* ===== verification/PushSamples.v ===== *)
(** * The theorems on pushes, on concrete runs

    Bob writes to Alice, who is connected to one gateway of two; messages in a
    room; and providers whose token has expired. *)

From S2P Require Import Prelude.
From S2P Require Import Constants.
From S2P Require Import MsgTypes.
From S2P Require Import MsgProcessor.
From S2P Require Import Tools.
From S2P Require Import Redis.
From S2P Require Import MsgCache.
From S2P Require Import GroupTypes.
From S2P Require Import Gateway.
From S2P Require Import GatewayServer.
From S2P Require Import HubProofs.
From S2P Require Import RequestProofs.
From S2P Require Import Push.
From S2P Require Import OfflinePush.
From S2P Require Import PushProofs.
From S2P Require Import OfflineProofs.
From stdpp Require Import options.
Import Race.

#[local] Open Scope Z_scope.
#[local] Existing Instances model_tools model_tools_laws model_msg_tools model_msg_tools_laws map_order.

#[local] Instance model_push_tools : PushTools := {|
  GetSwitchFromOptions o k := match o with
    | None => true | Some m => default true (m !! k) end;
  IntersectString l l' := filter (.∈ l') l;
  SliceSub l l' := filter (.∉ l') l;
  GenGroupConversationID g := "sg_" +:+ g |}.
#[local] Instance model_push_tools_laws : PushToolsLaws.
Proof. split; intros x l l'; cbn; rewrite list_elem_of_filter; tauto. Qed.

(** A room of Alice and Bob, in which nobody asked for silence. *)
#[local] Instance room_services : PushServices := {|
  svc_GetGroupAbstractInfo g _ := inl [mkGroupAbstractInfo g 2 7];
  svc_PushMemberUserIDs _ _ := inl ["alice"; "bob"];
  svc_GetRecvMsgNotNotifyUserIDs _ _ := inl [];
  svc_GetConversationMaxSeq _ _ := inl 9;
  svc_GetConversationOfflinePushUserIDs _ us _ := inl us |}.
#[local] Instance room_services_laws : PushServicesLaws.
Proof. split. by intros c us h l [= <-]. Qed.

#[local] Instance no_webhook : PushWebhook := {| webhook_push _ _ := inr (Bare (ErrText "off")) |}.
Definition push_config : PushConfig := mkPushConfig ["admin"] false false false.
Definition done_all (_ : list PushEffect) (_ : PushEffect) : option error := None.

(** Alice's phone is on the first of two nodes. *)
Definition hubs_of_two (n : string) : Hub := if bool_decide (n = "g1") then hub_alice else hub_empty.
Definition two_found (_ : list PushEffect) : list string + error := inl ["g1"; "g2"].
Definition all_answered (_ : string) (_ : list PushEffect) : delivery := Answered.
Definition two_nodes : Gateways :=
  hub_gateways encode compress write (λ _, inl "hi") "op" tokens two_found all_answered hubs_of_two.
Abbreviation hub_of := (hub_after encode compress write (λ _, inl "hi") "op" tokens all_answered hubs_of_two).
Lemma hubs_of_two_ok n : hub_ok (hubs_of_two n).
Proof.
  unfold hubs_of_two. case_bool_decide; [apply hub_alice_ok|]. intros u l Hl.
  change ((∅ : UserMap) !! u = Some l) in Hl. by rewrite lookup_empty in Hl.
Qed.

Definition text_of (from to : string) (t ty : Z) : MsgData :=
  mkMsgData from to "room" "c1" "s1" IOSPlatformID "" "" t 100 ty "{}" 1 5000 5000 0 false None
    (Some (mkOfflinePushInfo "hello" "from bob" "" "" false "")) [] "" "" 0.
Definition bobs : MsgData := text_of "bob" "alice" SingleChatType Text.

Definition plain : Decoders := {|
  Unmarshal_NotificationElem s := if bool_decide (s = "{}") then inl "{}" else inr (Bare (ErrText "syntax"));
  Unmarshal_MemberQuitTips _ := inl (Some "carol");
  Unmarshal_MemberKickedTips _ := inl [Some "carol"];
  Unmarshal_GroupDismissedTips _ := inl ();
  Unmarshal_TipsComm _ := "";
  Unmarshal_atContent _ := [];
  Unmarshal_PushMsgDataToMQ _ := inl (Some bobs) |}.

(** ** A single chat over two gateways *)

(** Bob's message is on Alice's phone, and nothing is written on the other node. *)
Lemma handleMs2PsChat_delivers_witness :
  let es := (handleMs2PsChat (H2 := two_nodes) push_config plain "op" "bob" true done_all 6 "m" (∅, [])).2.2 in
  (written (hub_of "g1" es)).*1 = [1%positive] ∧ written (hub_of "g2" es) = [] ∧
  let '(res, (c', es)) := handleMs2PsChat (H2 := two_nodes) push_config plain "op" "bob" true done_all 6 "m" (∅, []) in
  res = Ok () ∧ c' = ∅ ∧
  (∀ n, pushed (hubs_of_two n) ["bob"; "alice"] (hub_of n es)) ∧
  (∀ us title content opts, OfflinePushed us title content opts ∈ es → us = ["alice"] ∧ "alice" ≠ "bob") ∧
  (∀ conns i n x, sub64 6 (5000 `quot` 1000) ≤ 10 → two_found [] = inl conns → conns !! i = Some n →
     reaches (all_answered n ((λ v, OnlinePush v bobs ["bob"; "alice"]) <$> take i conns)) = true →
     x ∈ push_writes encode compress (λ _, inl "hi") "op" bobs ["bob"; "alice"] (hubs_of_two n) →
     x ∈ written (hub_of n es)).
Proof.
  split; [by vm_compute|]. split; [by vm_compute|].
  apply (handleMs2PsChat_delivers encode compress write (λ _, inl "hi") "op" tokens two_found all_answered hubs_of_two
    push_config plain "op" "bob" true done_all 6 "m" bobs ∅); [apply hubs_of_two_ok|done|done].
Defined.

Definition to_devices : PushEffect :=
  OfflinePushed ["alice"] "hello" "from bob" (mkOpts "" "" false "").

Lemma Push2User_exact_witness :
  Push2User (H2 := two_nodes) push_config plain "op" true done_all ["bob"; "alice"] bobs [] =
    (Ok (), [] ++ ((λ v, OnlinePush v bobs ["bob"; "alice"]) <$> ["g1"; "g2"]) ++ [to_devices]).
Proof.
  etrans; [apply (Push2User_exact (H2 := two_nodes) push_config plain "op" true done_all ["bob"; "alice"]
    bobs [] ["g1"; "g2"]); done|]. by vm_compute.
Defined.

(** Alice gets the message on her phone by the first node, and a push to her
    devices because the second node does not have her. *)
Lemma online_receiver_pushed_offline :
  let es := (handleMs2PsChat (H2 := two_nodes) push_config plain "op" "bob" true done_all 6 "m" (∅, [])).2.2 in
  to_devices ∈ es ∧
  len (written (hub_of "g1" es)) = 1.
Proof. split; [apply list_elem_of_In; vm_compute; tauto|by vm_compute]. Qed.

(** ** A room *)

(** One node, which reaches nobody. *)
#[local] Instance quiet_node : Gateways := {|
  svc_GetConns _ := inl ["g1"];
  svc_OnlinePush _ _ us _ := inl ((λ u, mkToUser u false []) <$> us) |}.
#[local] Instance quiet_node_laws : GatewaysLaws.
Proof. split. intros n m us h rs [= <-]. rewrite <-list_fmap_compose. apply list_fmap_id. Qed.

Definition in_room (from : string) (ty : Z) : MsgData := text_of from "" SuperGroupChatType ty.
Abbreviation push_room := (Push2SuperGroup push_config plain "op" "bob" true done_all "room").
Definition members_known : gmap string GroupMemberIDsHash := {[ "room" := mkMemberIDsHash 7 ["alice"; "bob"] ]}.


(** A sender who is not in the room: the devices that are pushed are his, too. *)
Lemma outsider_pushed_his_message :
  OfflinePushed ["eve"; "alice"; "bob"] "hello" "from bob" (mkOpts "" "" false "") ∈
  (push_room (in_room "eve" Text) (∅, [])).2.2.
Proof. apply list_elem_of_In. vm_compute. tauto. Qed.

Definition dismissal : MsgData :=
  set_Options (Some (NewOptions [WithNotNotification false])) (in_room "bob" GroupDismissedNotification).

Lemma dismissal_push_ends_witness :
  let '(r, (c', h')) := push_room dismissal (∅, []) in
  let pushed := push_to_group push_config plain "op" true done_all "room"
    dismissal ["alice"; "bob"] [] in
  let dismiss := DismissGroup (default "bob" (head (Push_Manager_UserID push_config))) "room" true in
  c' = members_known ∧ h' = pushed.2 ++ [dismiss] ∧
  r = match done_all pushed.2 dismiss with None => Ok () | Some e => Err e end.
Proof.
  apply (dismissal_push_ends push_config plain "op" "bob" true done_all "room"
    dismissal ["alice"; "bob"] (∅, []) members_known []);
    [done|done|by vm_compute|done|by vm_compute].
Defined.

(** Nothing decodes. *)
Definition garbled : Decoders := {|
  Unmarshal_NotificationElem _ := inr (Bare (ErrText "syntax"));
  Unmarshal_MemberQuitTips _ := inr (Bare (ErrText "syntax"));
  Unmarshal_MemberKickedTips _ := inr (Bare (ErrText "syntax"));
  Unmarshal_GroupDismissedTips _ := inr (Bare (ErrText "syntax"));
  Unmarshal_TipsComm _ := "";
  Unmarshal_atContent _ := [];
  Unmarshal_PushMsgDataToMQ _ := inr (Bare (ErrText "syntax")) |}.

Lemma undecodable_quit_unpushed_witness :
  Push2SuperGroup push_config garbled "op" "bob" true done_all "room"
    (in_room "carol" MemberQuitNotification) (∅, []) = (Ok (), (members_known, [])).
Proof.
  apply (undecodable_quit_unpushed push_config garbled "op" "bob" true done_all "room"
    (in_room "carol" MemberQuitNotification) ["alice"; "bob"] (∅, []) (members_known, []));
    [done|apply list_elem_of_here|by eexists|by vm_compute].
Defined.

(** ** Getui, with an old token in the cache *)

#[local] Instance expiring : GetuiProvider := {|
  getui_Post call _ := match call with
    | PostAuth _ => inl (mkResp 0 "" "new" "3600" "")
    | _ => inl (mkResp tokenExpireCode "token expired" "" "" "")
    end;
  sha256_hex s := s;
  NewSplitter _ l := (λ x, [x]) <$> l;
  go_order _ l := l |}.
#[local] Instance expiring_laws : GetuiProviderLaws.
Proof.
  split; [| |done].
  - intros n l _. unfold NewSplitter. cbn. induction l as [|x l IH]; [done|]. cbn. by f_equal.
  - intros n l x Hn. cbn. intros (u & -> & _)%list_elem_of_fmap. cbn. lia.
Qed.

Definition old_token : mem_redis := mkRedis {[ getuiToken := "old" ]} ∅ ∅.
Definition getui_config : GeTuiConfig := mkGeTuiConfig "key" "secret" "" "".
Abbreviation push_getui users := (Getui_Push getui_config "op" 1 users "hello" "from bob" (mkOpts "" "" false "") (old_token, [])).

Lemma getui_expired_token_witness :
  let '(res, (r', h')) := push_getui ["alice"] in
  ∃ req, h' = [] ++ [PostSingle "old" (set_single "op" "alice" (getui_req getui_config "hello" "from bob")); PostAuth req] ∧
    (res = Ok () ↔ ∃ token', (getTokenAndSave2Redis getui_config 1
      (old_token, [] ++ [PostSingle "old" (set_single "op" "alice" (getui_req getui_config "hello" "from bob"))])).1 = Ok token').
Proof.
  apply (getui_expired_token getui_config "op" 1 ["alice"] "hello" "from bob" (mkOpts "" "" false "")
    old_token old_token [] "old"); [by vm_compute| |done].
  intros call h [req [-> | ->]]; by eexists.
Defined.

(** No error, and the only post of the message was refused. *)
Lemma getui_loses_message :
  (push_getui ["alice"]).1 = Ok () ∧
  (push_getui ["alice"; "bob"]).1 = Err (WrapErr "" ErrTokenExpire).
Proof. split; by vm_compute. Qed.
